(* ===== verification/_CoqProject ===== *)
-Q . S2P
Prelude.v
GoStrings.v
Base64.v
Sasl.v
SaslAccept.v
Wire.v
DotStuff.v
Reply.v
Command.v
Path.v
PathGrammar.v
NetAddr.v
Connections.v
Ehlo.v
Extensions.v
Core.v
Spool.v
ServerState.v
ServerData.v
ServerParams.v
ServerCaps.v
ServerSession.v
SessionFacts.v
SessionContract.v
SessionTheorems.v
SessionLog.v
ServerConfig.v
Memory.v
BackendTest.v
Dialogue.v
SessionRuns.v
NormTables.v
Utf8.v
Unicodenorm.v
NormTheorems.v
SaslprepTables.v
Saslprep.v
GenText.v
SaslprepGen.v
UnicodeGen.v
UnicodeGenTheorems.v
ClientParams.v
ClientCore.v
Client.v
ClientHooks.v
Harness.v
ClientFacts.v
ClientConfig.v
ClientData.v
ClientFinal.v
ClientTheorems.v
ClientInvariant.v
ClientTermination.v
Delivery.v
ClientSecurity.v
ClientRuns.v
