(* ===== verification/Prelude.v ===== *)
(** * A verification of go-smtp

    go-smtp is an SMTP and LMTP library in Go: a wire layer (internal/smtpwire) that frames commands,
    replies and message content; SASL mechanisms for both sides (internal/smtpsasl); Unicode
    normalization and SASLprep (internal/unicodenorm, internal/saslprep); a vocabulary package (the
    repository root, package smtp); a server (smtpserver) that runs sessions against a backend
    supplied by the application; a sink backend (smtpserver/memory); and a client (smtpclient).
    Client and server share the wire layer and the vocabulary; the server calls the backend and the
    backend reads the message through the server's reader; the client drives SASL mechanisms.

    ** Files

    - Prelude (this file): bytes, results, machine integers, the development's tactics and hints.
    - GoStrings, Utf8, Base64: what the source uses of strings, strconv, unicode/utf8 and
      encoding/base64. Go strings are lists of bytes; the parts of package unicode that depend on the
      Unicode tables are the class [Unicode], with the facts about ASCII the code relies on as laws.
    - Wire: internal/smtpwire/encoder.go, the limits and the buffered line reader of reply.go.
      DotStuff: dotstuff.go, the streaming dot-stuffing writer and reader with their state. Reply:
      reply.go, reply_encoder.go, enhanced.go. Command: command_decoder.go, bdat.go. Path: path.go.
      PathGrammar: the grammar of RFC 5321 it is checked against. Ehlo: ehlo.go, hello.go, received.go.
    - Sasl: internal/smtpsasl, client mechanisms and server responder; hash functions and HMAC are
      the class [Crypto]. SaslAccept: whole exchanges with a responder, message by message.
    - NormTables, Unicodenorm, NormTheorems: internal/unicodenorm, its tables of Unicode 15.0.0
      included. SaslprepTables, Saslprep: internal/saslprep.
    - GenText, SaslprepGen, UnicodeGen, UnicodeGenTheorems: the generators of those tables,
      internal/saslprep/gen and internal/unicodenorm/gen. The document is an argument, as is gofmt; the
      order of iteration over maps and of equal keys in sort.Slice is a class each.
    - Core: package smtp (module [smtp]). Extensions: its named extensions, extension.go.
    - NetAddr: net.SplitHostPort and netip.Addr, the instance [go_netip] of the class [NetIP] that
      Path states its laws of. Connections: connections.go, and Serve, Shutdown and the goroutines of
      cmd_server.go and server.go around it as a step relation.
    - Spool: smtpserver/spool.go. ServerState: state.go. ServerData: data.go, reply.go and the size
      limit of cmd_data.go. ServerParams: cmd_params.go, ext_params.go and options.go.
      ServerCaps: capability.go, ext_capabilities.go, floor_extensions.go, config.go's session
      validation.
    - ServerSession: every command handler (cmd_session.go, cmd_data.go, cmd_auth.go, ext_atrn.go,
      floor_extensions.go), lifecycle.go, cmd_reply.go, loop.go and serveConnection of cmd_server.go
      as computations in a state and error monad over the session's state.
    - SessionFacts: the contract between a session and its backend ([promised]), the session
      invariant, and a weakest-precondition rule for each handler. SessionContract: the dispatcher,
      the loop and a whole connection. SessionTheorems: the guarantees of a connection. SessionLog:
      the log of a session is what the backend answered. SessionRuns: evaluated connections where
      the code departs from its documents.
    - ServerConfig: config.go, options and NewServer, and a constructed server's connections.
      Memory: smtpserver/memory, an instance of the backend the session's theorems quantify over.
      BackendTest: smtpserver/backendtest, the check of a backend's callbacks.
      Dialogue: the server's side of a plain submission to it.
    - ClientParams: the arguments of MAIL and RCPT and what the client refuses to send. ClientCore:
      conn.go, pipeline.go, ehlo.go, reply.go, trace.go, finalstatus.go. Client: the operations of a
      Client (txn.go, mail.go, rcpt.go, data.go, lmtp.go, ext_*.go, starttls.go, auth.go, verify.go).
      ClientHooks: extensions.go, the registry through which Mail, Rcpt and Data reach the ext_*.go
      files. ClientConfig: the options of client.go, Dial, the timeouts and the TLS configuration.
      ClientFacts: weakest preconditions of the pipeline; ClientData, ClientFinal: the content of a
      message on a transport that fails, and the outcome of completing calls. ClientTheorems,
      ClientInvariant, ClientTermination, ClientSecurity: the guarantees of a Client. Delivery: a
      submission by the client to the server of Dialogue over a transport that loses nothing.
      ClientRuns: scripted runs.
    - Harness: what interop/harness decides; containers, time and the client's negotiation are arguments.

    ** How the code is modelled

    A Go function that returns (T, error) is a function to [result]; sentinel errors are
    constructors. The texts of errors are left out, but for those of the configuration, which are its
    result. State is passed explicitly; a panic is an error value of its own. Go's int64 arithmetic
    is on Z with its wrap-around where it can matter. What the program does not define is a parameter:
    package unicode's tables, time.Parse, hash functions, the operating system's files, the transport
    (which operations fail, how reads are cut, what is buffered), randomness, the clock, and the
    backend, whose callbacks see the log of all calls made before and whose Data callback chooses
    each read by what it has read so far ([dataBackend]). Deadlines and contexts only decide which
    operations fail; for the client the [world] answers each interaction in turn. The goroutines of
    the server interleave in [step] between critical sections; a session on its connection is one
    step of its goroutine.

    Loops that are not structural take fuel, and it is enough: one unit for each octet left plus one
    for a reply's lines ([ReadReply_total]) and for commands (Command), two for each octet of a
    [Write] ([Write_brun], [Write_returns]), one for each octet of the input and one more for a
    session ([serve_terminates]), one for each command of a pipeline, one for each octet and one more
    for BDAT and three for the challenges of AUTH ([client_calls_return]). The in-memory sink reads
    at most its [bound] of times, which the content's length bounds.

    ** What the theorems show

    - Wire layer: both directions of dot stuffing refine reference encoders for every split into
      calls, compose to the identity; what the writer puts out ends where it ended it even for a
      reader that takes bare line feeds for line ends, and the reader rejects content with such an end
      of data; replies, commands, BDAT, EHLO, paths and xtext round-trip between the two sides;
      accepted paths are in the grammar; readers respect their bounds and consume exactly one frame.
    - SASL: the client's and the responder's messages fit (completeness of SCRAM, delivery of
      credentials), and a responder accepts only what the backend accepted and, for SCRAM, only a
      final message with the exchange's nonce, its channel binding and a valid proof over its own
      messages. Normalization: NFC decides canonical equivalence, NFC and NFKC are idempotent; what
      SASLprep returns is prepared.
    - Table generators: UnicodeData.txt parses back from its records; the decomposition ends unless the
      data has a cycle, whatever the order of iteration; the tables built from a well-formed database
      answer with the classes, decompositions and compositions it lists, and normalization with them
      decides equivalence; the SASLprep tables decide the rows of the document.
    - Server: the callbacks a backend sees are a run of an explicit contract; policy, recipients,
      limits, exactly one Close; spools are accounted for and returned; no internal error, no
      divergence; the message is consumed to its end whatever the backend does; replies have the
      shape of the protocol; the answers the contract speaks of are the ones the backend gave. A server
      NewServer accepts has a well-formed configuration, and its connections are served by it.
    - Lifecycle: the limits on connections hold in every interleaving, every accepted connection is
      served or refused, and refused only by a closing server or at a limit, Shutdown waits for all and
      comes to an end.
    - Memory: the sink holds exactly the messages of the transactions it answered 250 for. A backend
      that passes the conformance check is one the server can serve, and the sink passes it.
    - End to end ([message_delivered]): what the client submits is what the sink stores.
    - Interop harness: the profiles a run tests do not depend on the order of registration, a Maildir is
      read completely and in order, quoted paths are one word of a shell, and a profile passes exactly
      when its server advertises what it claims.
    - Client: the outcome of Data, BDAT and BURL, pipelining and its bounds, an invariant of every
      sequence of calls, every call returns, STARTTLS drops the octets buffered before it and leaves
      the rest to the handshake, AUTH in cleartext does not depend on the secrets, a TLS peer has
      proved the name the caller chose unless the caller opted out, and the order in which the
      package's files register their hooks does not matter.

    ** Not modelled

    Texts of the wire layer's errors, and logging; the passing of time (ClientConfig has the client's
    timeouts, the runs only which operations come too late); the dialer and the TLS protocol (a
    handshake, a function of what is left on the transport, succeeds with a stream or fails); SpoolDir
    and the file system behind the spool; the HTTP requests and file writes of the table generators;
    the interop harness's container commands, HTTP sinks, server profiles and adversarial servers, and
    the example programs, which drive the library and are not part of its behaviour. *)
From Stdlib Require Import ZArith Lia Bool Strings.Byte ZifyBool Zify.
From stdpp Require Import base list gmap strings.
From Stdlib Require Export Init.Byte.

(** ** Bytes and Go strings *)

Abbreviation byte := Init.Byte.byte.
Abbreviation bytes := (list Init.Byte.byte).

Declare Scope go_scope.
Delimit Scope go_scope with go.
Open Scope Z_scope.

(** [$ "text"] is the Go string literal, elaborated to the plain list of its bytes. *)
Notation "$ s" :=
  (ltac:(let x := eval vm_compute in (String.list_byte_of_string s%string) in exact x))
  (at level 1, s at level 0, only parsing) : go_scope.
Open Scope go_scope.

(** The value of a byte, as Go's conversion [int(b)]. *)
Definition bz (c : byte) : Z := Z.of_N (Byte.to_N c).

(** [byte(z)] truncates to eight bits. *)
Definition zb (z : Z) : byte :=
  match Byte.of_N (Z.to_N (z mod 256)) with Some c => c | None => x00 end.

Lemma bz_range c : 0 <= bz c < 256.
Proof. pose proof (Byte.to_N_bounded c). unfold bz. lia. Qed.

Lemma bz_inj c d : bz c = bz d -> c = d.
Proof.
  unfold bz. intros H%N2Z.inj.
  pose proof (Byte.of_to_N c). pose proof (Byte.of_to_N d). congruence.
Qed.

Lemma bz_zb z : bz (zb z) = z mod 256.
Proof.
  unfold zb. pose proof (Z.mod_pos_bound z 256 ltac:(lia)) as B.
  destruct (Byte.of_N (Z.to_N (z mod 256))) as [c|] eqn:E.
  - apply Byte.to_of_N in E. unfold bz. rewrite E. lia.
  - apply Byte.of_N_None_iff in E. lia.
Qed.

Lemma zb_bz c : zb (bz c) = c.
Proof. apply bz_inj. rewrite bz_zb, Z.mod_small; [done|apply bz_range]. Qed.

(** Arithmetic on Go's [int], [int64] and [uint64] wraps around. *)
Definition wrap64 (z : Z) : Z := (z + 2 ^ 63) mod 2 ^ 64 - 2 ^ 63.
Definition wrapu64 (z : Z) : Z := z mod 2 ^ 64.

Lemma wrap64_id z : - 2 ^ 63 <= z < 2 ^ 63 -> wrap64 z = z.
Proof. intros ?. unfold wrap64. rewrite Z.mod_small; lia. Qed.

Lemma wrap64_range z : - 2 ^ 63 <= wrap64 z < 2 ^ 63.
Proof. unfold wrap64. pose proof (Z.mod_pos_bound (z + 2 ^ 63) (2 ^ 64)). lia. Qed.

Infix "=b" := Byte.eqb (at level 70).
#[global] Arguments Byte.eqb !a !b.

Lemma byte_eqb_spec c d : reflect (c = d) (c =b d).
Proof.
  destruct (c =b d) eqn:E; constructor.
  - by apply Byte.byte_dec_bl.
  - intros ->. by rewrite (Byte.byte_dec_lb (x:=d)) in E.
Qed.

Lemma byte_eqb_bz c d : (c =b d) = (bz c =? bz d).
Proof.
  destruct (byte_eqb_spec c d) as [->|N]; [lia|].
  symmetry. apply Z.eqb_neq. intros ?%bz_inj. done.
Qed.

Lemma byte_eqb_refl c : (c =b c) = true.
Proof. by apply Byte.byte_dec_lb. Qed.

(** [blia] is [lia] on goals about byte values: it reads [=b] and byte equalities through [bz],
    evaluates the constants and supplies the range of every byte. *)
Lemma byte_eq_bz (c d : byte) : c = d <-> bz c = bz d.
Proof. split; [by intros ->|apply bz_inj]. Qed.

Ltac bz_value c :=
  let _ := match goal with _ => first [is_constructor c | is_const c] end in
  let v := eval vm_compute in (bz c) in
  lazymatch v with Z0 => v | Zpos _ => v end.

Ltac bz_consts :=
  repeat match goal with
  | |- context [bz ?c] => let v := bz_value c in change (bz c) with v
  | H : context [bz ?c] |- _ => let v := bz_value c in change (bz c) with v in H
  end.

Ltac bz_ranges :=
  repeat match goal with
  | |- context [bz ?c] =>
      lazymatch goal with _ : 0 <= bz c < 256 |- _ => fail | _ => pose proof (bz_range c) end
  | _ : context [bz ?c] |- _ =>
      lazymatch goal with _ : 0 <= bz c < 256 |- _ => fail | _ => pose proof (bz_range c) end
  end.

Ltac blia :=
  repeat match goal with
  | H : context [_ =b _] |- _ => rewrite byte_eqb_bz in H
  | |- context [_ =b _] => rewrite byte_eqb_bz
  | H : context [@eq byte _ _] |- _ => rewrite byte_eq_bz in H
  | |- context [@eq byte _ _] => rewrite byte_eq_bz
  end;
  bz_consts; bz_ranges; lia.

#[global] Instance byte_eq_dec : EqDecision byte := Byte.byte_eq_dec.
#[global] Instance byte_countable : Countable byte :=
  inj_countable Byte.to_N Byte.of_N Byte.of_to_N.

(** Equality of Go strings, as the operator [==]. *)
Fixpoint beq (s t : bytes) : bool :=
  match s, t with
  | [], [] => true
  | c :: s', d :: t' => (c =b d) && beq s' t'
  | _, _ => false
  end.

Lemma beq_spec s t : reflect (s = t) (beq s t).
Proof.
  revert t. induction s as [|c s IH]; intros [|d t]; simpl; try by constructor.
  destruct (byte_eqb_spec c d) as [->|N]; simpl; [|by constructor; congruence].
  destruct (IH t) as [->|N]; constructor; congruence.
Qed.

Lemma beq_refl s : beq s s = true.
Proof. by destruct (beq_spec s s). Qed.

(** ** Results: a Go function returning [(T, error)] *)

Inductive result (E A : Type) : Type :=
| Ok (a : A)
| Err (e : E).
Arguments Ok {E A} a.
Arguments Err {E A} e.

Declare Scope result_scope.
(** [if err != nil { return zero, err }] *)
Notation "'let?' x ':=' m 'in' k" :=
  (match m with Ok x => k | Err e => Err e end)
  (at level 10, x pattern, m at level 100, k at level 200) : result_scope.
(** a Go [error] result alone is an [option]: [None] is [nil] *)
Notation "'check' m 'then' k" :=
  (match m with None => k | Some e => Err e end)
  (at level 10, m at level 100, k at level 200) : result_scope.
Open Scope result_scope.

Definition is_ok {E A} (r : result E A) : bool := match r with Ok _ => true | Err _ => false end.

(** An early-return loop over a slice: the first error stops it. *)
Fixpoint first_err {A E} (f : A -> option E) (l : list A) : option E :=
  match l with
  | [] => None
  | x :: l' => match f x with Some e => Some e | None => first_err f l' end
  end.

Lemma first_err_None {A E} (f : A -> option E) l :
  first_err f l = None <-> Forall (fun x => f x = None) l.
Proof.
  induction l as [|x l IH]; simpl; [by split|].
  rewrite Forall_cons, <- IH. destruct (f x); by intuition.
Qed.

(** [go_if] names the idiom [if bad { return err }]. *)
Definition fail_if {E} (b : bool) (e : E) : option E := if b then Some e else None.

(** The errors a transport read can end with: a clean end of stream, a truncated one, a timeout,
    or any other transport failure. *)
Inductive ioerr : Type := EOF | ErrUnexpectedEOF | ErrTimeout | ErrTransport.

#[global] Instance ioerr_eq_dec : EqDecision ioerr.
Proof. solve_decision. Defined.

(** ** Tactics *)

(** Split every [match]/[if] on the way to the goal or in a hypothesis, discarding the branches
    that are closed by computation. *)
Ltac cases := repeat (case_match; simplify_eq/=; try done).
Ltac cases_in H :=
  repeat match type of H with
  | context [match ?x with _ => _ end] => destruct x eqn:?; simplify_eq/=; try done
  end.
Ltac btrue :=
  repeat match goal with
  | H : _ && _ = true |- _ => apply andb_true_iff in H as [? ?]
  | H : _ || _ = false |- _ => apply orb_false_iff in H as [? ?]
  | H : negb _ = true |- _ => apply negb_true_iff in H
  | H : negb _ = false |- _ => apply negb_false_iff in H
  | H : beq ?s ?t = true |- _ => revert H; destruct (beq_spec s t) as [->|]; [intros _|discriminate]
  | H : Byte.eqb ?s ?t = true |- _ =>
      revert H; destruct (byte_eqb_spec s t) as [->|]; [intros _|discriminate]
  end.

(** ** Lists *)

Section ForallB.
Context {A : Type}.
Implicit Types (f g : A -> bool) (l : list A).

Lemma forallb_Forall_eq f l : forallb f l = true <-> Forall (fun x => f x = true) l.
Proof. rewrite forallb_forall, List.Forall_forall. done. Qed.

Lemma forallb_app_eq f l k : forallb f (l ++ k) = forallb f l && forallb f k.
Proof. apply forallb_app. Qed.

Lemma forallb_mono f g l :
  (forall x, f x = true -> g x = true) -> forallb f l = true -> forallb g l = true.
Proof.
  intros H. rewrite !forallb_Forall_eq. intros F. by eapply Forall_impl.
Qed.

Lemma forallb_take f n l : forallb f l = true -> forallb f (take n l) = true.
Proof. rewrite !forallb_Forall_eq. apply Forall_take. Qed.

Lemma forallb_drop f n l : forallb f l = true -> forallb f (drop n l) = true.
Proof. rewrite !forallb_Forall_eq. apply Forall_drop. Qed.
End ForallB.

Lemma drop_app_cons {A} (a b : list A) c n : n = S (length a) -> drop n (a ++ c :: b) = b.
Proof. intros ->. induction a as [|x a IH]; [apply drop_0|exact IH]. Qed.

Create HintDb gosmtp.
#[export] Hint Resolve forallb_take forallb_drop : gosmtp.
Create Rewrite HintDb gosmtp.
#[export] Hint Rewrite @forallb_app_eq @length_app @length_map byte_eqb_refl beq_refl : gosmtp.

(** The last element of a slice, when there is one: [s[len(s)-1]]. *)
Definition last_byte (s : bytes) : option byte := last s.
