(* ===== verification/GoStrings.v ===== *)
(** * The Go string library, as far as go-smtp uses it

    Packages [unicode/utf8], [strings] and [strconv] of the Go standard library on byte strings.
    Every function is executable and total. The case tables of package [unicode] are the one
    thing that is not written out: the class [Unicode] names the two functions of it that act on
    non-ASCII text, and every definition that can reach them takes the class as an argument. *)
From Stdlib Require Import ZArith Lia Bool.
From stdpp Require Import base list gmap strings.
From S2P Require Import Prelude.

(** ** Character classes *)

Definition in_range (lo hi c : byte) : bool := (bz lo <=? bz c) && (bz c <=? bz hi).
Definition is_upper := in_range "A"%byte "Z"%byte.
Definition is_lower := in_range "a"%byte "z"%byte.
Definition is_digit := in_range "0"%byte "9"%byte.
Definition is_alnum (c : byte) : bool := is_upper c || is_lower c || is_digit c.
Definition is_ascii_byte (c : byte) : bool := bz c <? 128.
Definition is_ascii (s : bytes) : bool := forallb is_ascii_byte s.

(** A control byte in the sense of the command codec: below 0x20, or 0x7f. *)
Definition is_ctl (c : byte) : bool := (bz c <? 32) || (bz c =? 127).

Definition CR : byte := x0d.
Definition LF : byte := x0a.
Definition SP : byte := x20.
Definition CRLF : bytes := [CR; LF].

(** ** Package unicode and unicode/utf8 *)

(** The case tables of package [unicode] beyond ASCII: [strings.ToUpper] on a string with a
    non-ASCII byte, and [strings.EqualFold] from the first position where one side is non-ASCII. *)
Class Unicode : Type := {
  unicode_ToUpper : bytes -> bytes;
  unicode_EqualFold : bytes -> bytes -> bool
}.

Definition RuneError : Z := 65533.

(** [unicode.IsControl]: category Cc. *)
Definition IsControl (r : Z) : bool := ((0 <=? r) && (r <=? 31)) || ((127 <=? r) && (r <=? 159)).

(** [unicode.IsSpace]: property White_Space. *)
Definition IsSpace (r : Z) : bool :=
  ((9 <=? r) && (r <=? 13)) || (r =? 32) || (r =? 133) || (r =? 160) || (r =? 5760) ||
  ((8192 <=? r) && (r <=? 8202)) || (r =? 8232) || (r =? 8233) || (r =? 8239) || (r =? 8287) ||
  (r =? 12288).

Definition cont (c : byte) : bool := in_range x80 xbf c.

(** The value of a two, three and four byte sequence, when the bytes are a valid UTF-8 encoding. *)
Definition rune2 (b0 b1 : byte) : option Z :=
  if in_range xc2 xdf b0 && cont b1 then Some ((bz b0 - 192) * 64 + (bz b1 - 128)) else None.
Definition rune3 (b0 b1 b2 : byte) : option Z :=
  let second :=
    if b0 =b xe0 then in_range xa0 xbf b1
    else if b0 =b xed then in_range x80 x9f b1
    else in_range xe1 xef b0 && cont b1 in
  if second && cont b2
  then Some ((bz b0 - 224) * 4096 + (bz b1 - 128) * 64 + (bz b2 - 128)) else None.
Definition rune4 (b0 b1 b2 b3 : byte) : option Z :=
  let second :=
    if b0 =b xf0 then in_range x90 xbf b1
    else if b0 =b xf4 then in_range x80 x8f b1
    else in_range xf1 xf3 b0 && cont b1 in
  if second && cont b2 && cont b3
  then Some ((bz b0 - 240) * 262144 + (bz b1 - 128) * 4096 + (bz b2 - 128) * 64 + (bz b3 - 128))
  else None.

(** [for _, r := range s]: the runes of a string with their encodings. An invalid byte is
    [RuneError] of width one, as [utf8.DecodeRuneInString] reports it. *)
Fixpoint runes (s : bytes) : list (Z * bytes) :=
  match s with
  | [] => []
  | b0 :: s1 =>
    if is_ascii_byte b0 then (bz b0, [b0]) :: runes s1
    else match s1 with
    | [] => [(RuneError, [b0])]
    | b1 :: s2 =>
      match rune2 b0 b1 with
      | Some r => (r, [b0; b1]) :: runes s2
      | None =>
        match s2 with
        | [] => (RuneError, [b0]) :: runes s1
        | b2 :: s3 =>
          match rune3 b0 b1 b2 with
          | Some r => (r, [b0; b1; b2]) :: runes s3
          | None =>
            match s3 with
            | [] => (RuneError, [b0]) :: runes s1
            | b3 :: s4 =>
              match rune4 b0 b1 b2 b3 with
              | Some r => (r, [b0; b1; b2; b3]) :: runes s4
              | None => (RuneError, [b0]) :: runes s1
              end
            end
          end
        end
      end
    end
  end.

(** [utf8.ValidString]: no rune is the width-one error. *)
Definition ValidString (s : bytes) : bool :=
  forallb (fun '(r, enc) => negb ((r =? RuneError) && (Z.of_nat (length enc) =? 1))) (runes s).

(** [utf8.AppendRune]: a rune outside Unicode or a surrogate is written as the replacement
    character. *)
Definition EncodeRune (r : Z) : bytes :=
  if (r <? 0) || (1114111 <? r) || ((55296 <=? r) && (r <=? 57343)) then [xef; xbf; xbd]
  else if r <? 128 then [zb r]
  else if r <? 2048 then [zb (192 + r / 64); zb (128 + r mod 64)]
  else if r <? 65536 then [zb (224 + r / 4096); zb (128 + r / 64 mod 64); zb (128 + r mod 64)]
  else [zb (240 + r / 262144); zb (128 + r / 4096 mod 64); zb (128 + r / 64 mod 64); zb (128 + r mod 64)].

(** [string(rs)] *)
Definition of_runes (rs : list Z) : bytes := concat (map EncodeRune rs).

(** ** Package strings *)

Definition ascii_upper (c : byte) : byte := if is_lower c then zb (bz c - 32) else c.

Definition ToUpper `{Unicode} (s : bytes) : bytes :=
  if is_ascii s then map ascii_upper s else unicode_ToUpper s.

(** [strings.EqualFold]: ASCII letters fold; the first non-ASCII byte on either side hands the rest
    of both strings to the Unicode tables. *)
Fixpoint EqualFold `{Unicode} (s t : bytes) : bool :=
  match s, t with
  | c :: s', d :: t' =>
      if is_ascii_byte c && is_ascii_byte d
      then (ascii_upper c =b ascii_upper d) && EqualFold s' t'
      else unicode_EqualFold s t
  | [], [] => true
  | _, _ => false
  end.

(** [strings.IndexByte], with [None] for -1. *)
Fixpoint IndexByte (s : bytes) (c : byte) : option nat :=
  match s with
  | [] => None
  | d :: s' => if d =b c then Some 0%nat else S <$> IndexByte s' c
  end.

(** [strings.Cut] with a one-byte separator: before, after, found. *)
Fixpoint Cut (s : bytes) (sep : byte) : bytes * bytes * bool :=
  match s with
  | [] => ([], [], false)
  | c :: s' =>
      if c =b sep then ([], s', true)
      else let '(before, after, found) := Cut s' sep in (c :: before, after, found)
  end.

(** [strings.Split] with a one-byte separator. *)
Fixpoint Split (s : bytes) (sep : byte) : list bytes :=
  match s with
  | [] => [[]]
  | c :: s' =>
      if c =b sep then [] :: Split s' sep
      else match Split s' sep with
           | [] => [[c]]
           | p :: ps => (c :: p) :: ps
           end
  end.

(** [strings.Join]. *)
Fixpoint Join (parts : list bytes) (sep : bytes) : bytes :=
  match parts with
  | [] => []
  | [p] => p
  | p :: ps => p ++ sep ++ Join ps sep
  end.

(** [strings.Fields]: maximal runs of non-space runes. *)
Fixpoint fields_of (rs : list (Z * bytes)) (acc : bytes) : list bytes :=
  let flush := match acc with [] => [] | _ => [acc] end in
  match rs with
  | [] => flush
  | (r, enc) :: rs' =>
      if IsSpace r then flush ++ fields_of rs' []
      else fields_of rs' (acc ++ enc)
  end.
Definition Fields (s : bytes) : list bytes := fields_of (runes s) [].

Definition mem_byte (c : byte) (set : bytes) : bool := existsb (Byte.eqb c) set.

(** [strings.ContainsAny] for an ASCII set of characters. *)
Definition ContainsAny (s set : bytes) : bool := existsb (fun c => mem_byte c set) s.

(** [strings.TrimLeft] for an ASCII cutset. *)
Fixpoint TrimLeft (s cutset : bytes) : bytes :=
  match s with
  | c :: s' => if mem_byte c cutset then TrimLeft s' cutset else s
  | [] => []
  end.

Fixpoint HasPrefix (s prefix : bytes) : bool :=
  match prefix, s with
  | [], _ => true
  | c :: p', d :: s' => (c =b d) && HasPrefix s' p'
  | _ :: _, [] => false
  end.

Definition HasSuffix (s suffix : bytes) : bool :=
  (length suffix <=? length s)%nat && beq (drop (length s - length suffix) s) suffix.
Definition TrimSuffix (s suffix : bytes) : bytes :=
  if HasSuffix s suffix then take (length s - length suffix) s else s.

(** [strings.TrimPrefix], and [strings.CutPrefix] as an option. *)
Definition CutPrefix (s prefix : bytes) : option bytes :=
  if HasPrefix s prefix then Some (drop (length prefix) s) else None.

(** [strings.TrimSpace]: white space of Unicode off both ends. *)
Fixpoint drop_space (rs : list (Z * bytes)) : list (Z * bytes) :=
  match rs with
  | (r, _) :: rs' => if IsSpace r then drop_space rs' else rs
  | [] => []
  end.
Definition TrimSpace (s : bytes) : bytes :=
  concat (map snd (rev (drop_space (rev (drop_space (runes s)))))).

(** ** Package strconv (base 10, 64-bit [int]) *)

Definition MaxInt64 : Z := 9223372036854775807.
Definition MinInt64 : Z := -9223372036854775808.
Definition MaxUint64 : Z := 18446744073709551615.
Definition MaxUint32 : Z := 4294967295.

Definition digit (d : Z) : byte := zb (48 + d).

(** Decimal digits of a non-negative number; [fuel] bounds their count. *)
Fixpoint dec_digits (fuel : nat) (n : Z) : bytes :=
  match fuel with
  | O => [digit (n mod 10)]
  | S f => if n <? 10 then [digit n] else dec_digits f (n / 10) ++ [digit (n mod 10)]
  end.

(** [strconv.FormatUint(n, 10)]; a number has at most as many decimal digits as bits. *)
Definition FormatUint (n : Z) : bytes := dec_digits (Z.to_nat (Z.log2 n) + 1) n.

(** [strconv.FormatInt(n, 10)] and [strconv.Itoa]. *)
Definition FormatInt (n : Z) : bytes :=
  if n <? 0 then "-"%byte :: FormatUint (- n) else FormatUint n.
Definition Itoa := FormatInt.

Definition dec_value (s : bytes) : Z := fold_left (fun acc c => acc * 10 + (bz c - 48)) s 0.

(** [strconv.ParseUint(s, 10, bits)] with the largest value of the width; [None] is any error. *)
Definition ParseUint (s : bytes) (max : Z) : option Z :=
  match s with
  | [] => None
  | _ => if forallb is_digit s then
           if dec_value s <=? max then Some (dec_value s) else None
         else None
  end.

(** [strconv.ParseInt(s, 10, 64)] and [strconv.Atoi]. *)
Definition ParseInt (s : bytes) : option Z :=
  match s with
  | c :: s' =>
      if c =b "-"%byte then Z.opp <$> ParseUint s' (- MinInt64)
      else if c =b "+"%byte then ParseUint s' MaxInt64
      else ParseUint s MaxInt64
  | [] => None
  end.
Definition Atoi := ParseInt.

(** ** Lemmas: separators *)

Definition no_byte (c : byte) (s : bytes) : bool := forallb (fun d => negb (d =b c)) s.

Lemma Cut_no c s : no_byte c s = true -> Cut s c = (s, [], false).
Proof.
  induction s as [|d s IH]; simpl; [done|]. intros [H1 H2]%andb_true_iff.
  apply negb_true_iff in H1. by rewrite H1, IH.
Qed.

Lemma Cut_app c s t : no_byte c s = true -> Cut (s ++ c :: t) c = (s, t, true).
Proof.
  induction s as [|d s IH]; simpl; [by rewrite byte_eqb_refl|].
  intros [H1 H2]%andb_true_iff. apply negb_true_iff in H1. by rewrite H1, IH.
Qed.

(** Every result of [Cut] is one of the two shapes. *)
Lemma Cut_inv c s before after found :
  Cut s c = (before, after, found) ->
  no_byte c before = true /\
  (found = true /\ s = before ++ c :: after \/ found = false /\ s = before /\ after = []).
Proof.
  revert before after found. induction s as [|d s IH]; simpl; intros b a f.
  { intros [= <- <- <-]. auto. }
  destruct (byte_eqb_spec d c) as [->|N].
  { intros [= <- <- <-]. auto. }
  destruct (Cut s c) as [[b' a'] f'] eqn:E. intros [= <- <- <-].
  destruct (IH _ _ _ eq_refl) as [Hb HH]. split.
  - simpl. rewrite Hb. destruct (byte_eqb_spec d c); by simpl.
  - destruct HH as [[-> ->]|(-> & -> & ->)]; auto.
Qed.

Lemma IndexByte_None c s : IndexByte s c = None <-> no_byte c s = true.
Proof.
  induction s as [|d s IH]; simpl; [done|].
  destruct (byte_eqb_spec d c) as [->|N]; simpl; [done|].
  rewrite <- IH. destruct (IndexByte s c); simpl; done.
Qed.

Lemma IndexByte_app c s t : no_byte c s = true -> IndexByte (s ++ c :: t) c = Some (length s).
Proof.
  induction s as [|d s IH]; simpl; [by rewrite byte_eqb_refl|].
  intros [H1%negb_true_iff H2]%andb_true_iff. by rewrite H1, IH.
Qed.

Lemma IndexByte_Some c s n :
  IndexByte s c = Some n ->
  s = take n s ++ c :: drop (S n) s /\ no_byte c (take n s) = true /\ (n < length s)%nat.
Proof.
  revert n. induction s as [|d s IH]; simpl; intros n; [done|].
  destruct (byte_eqb_spec d c) as [->|N].
  - intros [= <-]. simpl. rewrite drop_0. split_and!; [done|done|lia].
  - destruct (IndexByte s c) as [m|] eqn:E; simpl; [|done]. intros [= <-].
    destruct (IH m eq_refl) as (H1 & H2 & H3). simpl. split_and!; [by f_equal| |lia].
    rewrite H2. by destruct (byte_eqb_spec d c).
Qed.

Lemma Split_nonempty c s : Split s c <> [].
Proof. destruct s as [|d s]; simpl; [done|]. destruct (d =b c); [done|]. by destruct (Split s c). Qed.

Lemma Split_no c s : no_byte c s = true -> Split s c = [s].
Proof.
  induction s as [|d s IH]; simpl; [done|].
  intros [H1%negb_true_iff H2]%andb_true_iff. by rewrite H1, IH.
Qed.

Lemma Split_app c s t : no_byte c s = true -> Split (s ++ c :: t) c = s :: Split t c.
Proof.
  induction s as [|d s IH]; simpl; [by rewrite byte_eqb_refl|].
  intros [H1%negb_true_iff H2]%andb_true_iff. by rewrite H1, IH.
Qed.

Lemma Split_parts c s : Forall (fun p => no_byte c p = true) (Split s c).
Proof.
  induction s as [|d s IH]; simpl; [by repeat constructor|].
  destruct (d =b c) eqn:E; [by constructor|].
  destruct (Split s c) as [|p ps]; [repeat constructor; simpl; by rewrite E|].
  inv IH. constructor; [|done].
  simpl. by rewrite E.
Qed.

Lemma Join_Split c s : Join (Split s c) [c] = s.
Proof.
  induction s as [|d s IH]; [done|]. cbn [Split].
  pose proof (Split_nonempty c s) as N.
  destruct (byte_eqb_spec d c) as [->|Hd]; destruct (Split s c) as [|p ps]; try done; simpl in *.
  - by rewrite <- IH.
  - destruct ps; simpl in *; by rewrite <- IH.
Qed.

Lemma Split_Join c ps :
  ps <> [] -> Forall (fun p => no_byte c p = true) ps -> Split (Join ps [c]) c = ps.
Proof.
  induction ps as [|p ps IH]; [done|]. intros _ F. inv F.
  destruct ps as [|q ps]; [by apply Split_no|].
  change (Join (p :: q :: ps) [c]) with (p ++ [c] ++ Join (q :: ps) [c]).
  cbn [app]. rewrite Split_app by done. f_equal. by apply IH.
Qed.

(** ** Lemmas: decimal numbers *)

Lemma digit_bz d : 0 <= d <= 9 -> bz (digit d) = 48 + d.
Proof. intros. unfold digit. rewrite bz_zb. apply Z.mod_small. lia. Qed.

Lemma digit_is_digit d : 0 <= d <= 9 -> is_digit (digit d) = true.
Proof. intros H. unfold is_digit, in_range. rewrite digit_bz by done. bz_consts. lia. Qed.

Lemma dec_value_snoc s c : dec_value (s ++ [c]) = dec_value s * 10 + (bz c - 48).
Proof. unfold dec_value. by rewrite fold_left_app. Qed.

Lemma dec_digits_spec fuel n :
  0 <= n -> n < 2 ^ Z.of_nat (S fuel) ->
  dec_value (dec_digits fuel n) = n /\ forallb is_digit (dec_digits fuel n) = true.
Proof.
  revert n. induction fuel as [|f IH]; intros n H0 Hn; simpl.
  - assert (n mod 10 = n) as -> by (apply Z.mod_small; lia).
    unfold dec_value. simpl. rewrite digit_bz, digit_is_digit by lia. lia.
  - destruct (Z.ltb_spec n 10) as [L|L].
    { unfold dec_value. simpl. rewrite digit_bz, digit_is_digit by lia. lia. }
    pose proof (Z.mod_pos_bound n 10 ltac:(lia)).
    rewrite Nat2Z.inj_succ, Z.pow_succ_r in Hn by lia.
    destruct (IH (n / 10)) as [Hv Hd].
    + apply Z.div_pos; lia.
    + apply Z.div_lt_upper_bound; lia.
    + rewrite dec_value_snoc, Hv, digit_bz, forallb_app, Hd by lia. simpl.
      rewrite digit_is_digit by lia. split; [|done].
      pose proof (Z_div_mod_eq_full n 10). lia.
Qed.

Lemma dec_digits_nonempty fuel n : dec_digits fuel n <> [].
Proof. destruct fuel; simpl; [done|]. destruct (n <? 10); [done|]. by destruct (dec_digits fuel _). Qed.

Lemma FormatUint_spec n :
  0 <= n -> dec_value (FormatUint n) = n /\ forallb is_digit (FormatUint n) = true.
Proof.
  intros H. apply dec_digits_spec; [done|].
  pose proof (Z.log2_nonneg n).
  destruct (decide (n = 0)) as [->|]; [done|].
  pose proof (Z.log2_spec n ltac:(lia)) as [_ L].
  eapply Z.lt_le_trans; [exact L|]. apply Z.pow_le_mono_r; lia.
Qed.

Lemma FormatUint_digits n : 0 <= n -> forallb is_digit (FormatUint n) = true.
Proof. intros. by apply FormatUint_spec. Qed.

Lemma FormatUint_nonempty n : FormatUint n <> [].
Proof. apply dec_digits_nonempty. Qed.

(** [strconv.ParseUint] inverts [strconv.FormatUint] on every value the width holds. *)
Lemma ParseUint_FormatUint n max : 0 <= n <= max -> ParseUint (FormatUint n) max = Some n.
Proof.
  intros H. unfold ParseUint. destruct (FormatUint_spec n ltac:(lia)) as [Hv Hd].
  destruct (FormatUint n) as [|c s] eqn:E; [by apply FormatUint_nonempty in E|].
  rewrite Hd, Hv. by destruct (Z.leb_spec n max); [|lia].
Qed.

Lemma fold_dec_nonneg s : forallb is_digit s = true -> forall acc, 0 <= acc ->
  0 <= fold_left (fun acc c => acc * 10 + (bz c - 48)) s acc.
Proof.
  induction s as [|c s IH]; simpl; [done|]. intros [H1 H2]%andb_true_iff acc Ha.
  apply IH; [done|]. unfold is_digit, in_range in H1. bz_consts. lia.
Qed.

Lemma ParseUint_bounds s max n : ParseUint s max = Some n -> 0 <= n <= max.
Proof.
  unfold ParseUint. destruct s as [|c s]; [done|].
  destruct (forallb is_digit (c :: s)) eqn:D; [|done].
  destruct (Z.leb_spec (dec_value (c :: s)) max); [|done]. intros [= <-].
  split; [|done]. by apply fold_dec_nonneg.
Qed.

Lemma ParseInt_bounds s n : ParseInt s = Some n -> MinInt64 <= n <= MaxInt64.
Proof.
  unfold ParseInt. destruct s as [|c s]; [done|].
  destruct (c =b "-"%byte); [|destruct (c =b "+"%byte)].
  - destruct (ParseUint s _) as [m|] eqn:E; simpl; [|done]. intros [= <-].
    apply ParseUint_bounds in E. unfold MinInt64, MaxInt64 in *. lia.
  - intros E%ParseUint_bounds. unfold MinInt64, MaxInt64 in *. lia.
  - intros E%ParseUint_bounds. unfold MinInt64, MaxInt64 in *. lia.
Qed.

(** ** Lemmas: ASCII text *)

(** A visible ASCII byte: 0x21 to 0x7e. *)
Definition is_graph (c : byte) : bool := (33 <=? bz c) && (bz c <=? 126).

Lemma runes_ascii s t :
  is_ascii s = true -> runes (s ++ t) = map (fun c => (bz c, [c])) s ++ runes t.
Proof.
  unfold is_ascii. induction s as [|c s IH]; [done|].
  intros [H1 H2]%andb_true_iff. cbn [app runes map]. rewrite H1. by rewrite IH.
Qed.

Lemma is_graph_ascii s : forallb is_graph s = true -> is_ascii s = true.
Proof. apply forallb_mono. intros c. unfold is_graph, is_ascii_byte. lia. Qed.

Lemma is_graph_not_space c : is_graph c = true -> IsSpace (bz c) = false.
Proof. unfold is_graph, IsSpace. lia. Qed.

Lemma fields_of_graph s rs acc :
  forallb is_graph s = true ->
  fields_of (map (fun c => (bz c, [c])) s ++ rs) acc = fields_of rs (acc ++ s).
Proof.
  revert acc. induction s as [|c s IH]; intros acc; cbn [forallb map app].
  { by rewrite app_nil_r. }
  intros [H1 H2]%andb_true_iff. cbn [fields_of]. rewrite is_graph_not_space by done.
  rewrite IH by done. by rewrite <- app_assoc.
Qed.

Lemma Fields_token s : forallb is_graph s = true -> s <> [] -> Fields s = [s].
Proof.
  intros H N. unfold Fields. rewrite <- (app_nil_r s) at 1.
  rewrite runes_ascii by by apply is_graph_ascii. rewrite fields_of_graph by done.
  simpl. by destruct s.
Qed.

Lemma Fields_cons s t :
  forallb is_graph s = true -> s <> [] -> Fields (s ++ SP :: t) = s :: Fields t.
Proof.
  intros H N. unfold Fields. rewrite runes_ascii by by apply is_graph_ascii.
  rewrite fields_of_graph by done.
  change (runes (SP :: t)) with ((bz SP, [SP]) :: runes t). cbn [fields_of].
  change (IsSpace (bz SP)) with true. cbn. by destruct s.
Qed.

(** Splitting on white space recovers the words that were joined with single spaces. *)
Lemma Fields_Join ws :
  Forall (fun w => forallb is_graph w = true /\ w <> []) ws -> Fields (Join ws [SP]) = ws.
Proof.
  induction 1 as [|w ws [Hg Hn] F IH]; [done|].
  destruct ws as [|v ws]; [by apply Fields_token|].
  change (Join (w :: v :: ws) [SP]) with (w ++ SP :: Join (v :: ws) [SP]).
  by rewrite Fields_cons, IH.
Qed.

Lemma ascii_upper_spec c :
  ascii_upper c = c /\ is_lower c = false \/
  is_lower c = true /\ bz (ascii_upper c) = bz c - 32.
Proof.
  unfold ascii_upper. destruct (is_lower c) eqn:E; [right|by left].
  split; [done|]. rewrite bz_zb. apply Z.mod_small.
  unfold is_lower, in_range in E. bz_consts. bz_ranges. lia.
Qed.

Lemma ascii_upper_not_lower c : is_lower (ascii_upper c) = false.
Proof.
  destruct (ascii_upper_spec c) as [[-> H]|[L H]]; [done|].
  unfold is_lower, in_range in *. bz_consts. lia.
Qed.

Lemma ascii_upper_idem c : ascii_upper (ascii_upper c) = ascii_upper c.
Proof. unfold ascii_upper at 1. by rewrite ascii_upper_not_lower. Qed.

Lemma is_ascii_upper s : is_ascii s = true -> is_ascii (map ascii_upper s) = true.
Proof.
  unfold is_ascii. induction s as [|c s IH]; simpl; [done|].
  intros [H1 H2]%andb_true_iff. rewrite IH by done. rewrite andb_true_r.
  destruct (ascii_upper_spec c) as [[-> _]|[_ E]]; [done|].
  unfold is_ascii_byte in *. lia.
Qed.

Lemma ToUpper_ascii `{Unicode} s : is_ascii s = true -> ToUpper s = map ascii_upper s.
Proof. unfold ToUpper. by intros ->. Qed.

Lemma ToUpper_idem `{Unicode} s : is_ascii s = true -> ToUpper (ToUpper s) = ToUpper s.
Proof.
  intros A. rewrite (ToUpper_ascii s) by done.
  rewrite ToUpper_ascii by by apply is_ascii_upper.
  rewrite map_map. apply map_ext. intros. apply ascii_upper_idem.
Qed.

Lemma EqualFold_ascii `{Unicode} s t :
  is_ascii s = true -> is_ascii t = true ->
  EqualFold s t = beq (map ascii_upper s) (map ascii_upper t).
Proof.
  revert t. induction s as [|c s IH]; intros [|d t]; simpl; try done.
  intros [-> ?]%andb_true_iff [-> ?]%andb_true_iff. simpl. by rewrite IH.
Qed.

Lemma EqualFold_refl `{Unicode} s : is_ascii s = true -> EqualFold s s = true.
Proof. intros A. rewrite EqualFold_ascii by done. apply beq_refl. Qed.

Lemma is_alnum_ascii c : is_alnum c = true -> is_ascii_byte c = true.
Proof. unfold is_alnum, is_upper, is_lower, is_digit, in_range, is_ascii_byte. bz_consts. lia. Qed.

Lemma is_digit_graph s : forallb is_digit s = true -> forallb is_graph s = true.
Proof. apply forallb_mono. intros c. unfold is_digit, in_range, is_graph. bz_consts. lia. Qed.

Lemma forallb_no_byte f c s :
  f c = false -> forallb f s = true -> no_byte c s = true.
Proof.
  intros Hc. apply forallb_mono. intros d Hd. destruct (byte_eqb_spec d c) as [->|]; [|done].
  by rewrite Hc in Hd.
Qed.

Lemma ContainsAny_false s set :
  ContainsAny s set = false <-> forallb (fun c => negb (mem_byte c set)) s = true.
Proof.
  unfold ContainsAny. induction s as [|c s IH]; simpl; [done|].
  rewrite orb_false_iff, andb_true_iff, negb_true_iff, IH. done.
Qed.

Lemma TrimLeft_head c s set : mem_byte c set = false -> TrimLeft (c :: s) set = c :: s.
Proof. simpl. by intros ->. Qed.

Lemma TrimLeft_suffix s set : exists p, s = p ++ TrimLeft s set.
Proof.
  induction s as [|c s [p IH]]; [by exists []|]. simpl.
  destruct (mem_byte c set); [exists (c :: p); simpl; by f_equal|by exists []].
Qed.

(** The ASCII-only instance, used where a concrete run needs the class. *)
(** The runes of a string are a segmentation of its bytes: an ASCII rune is its own byte, any other
    is made of bytes from 0x80 up. *)
Definition rune_shape (p : Z * bytes) : Prop :=
  (0 <= fst p < 128 /\ snd p = [zb (fst p)]) \/
  (128 <= fst p /\ forallb (fun c => 128 <=? bz c) (snd p) = true).

Lemma rune2_shape b0 b1 r : rune2 b0 b1 = Some r -> rune_shape (r, [b0; b1]).
Proof.
  unfold rune2, cont, in_range. destruct (_ && _) eqn:E; [|done]. intros [= <-]. right. cbn. blia.
Qed.

Lemma rune3_shape b0 b1 b2 r : rune3 b0 b1 b2 = Some r -> rune_shape (r, [b0; b1; b2]).
Proof.
  unfold rune3, cont, in_range. destruct (_ && _) eqn:E; [|done]. intros [= <-]. right. cbn.
  destruct (byte_eqb_spec b0 xe0) as [->|]; [blia|]. destruct (byte_eqb_spec b0 xed) as [->|]; blia.
Qed.

Lemma rune4_shape b0 b1 b2 b3 r : rune4 b0 b1 b2 b3 = Some r -> rune_shape (r, [b0; b1; b2; b3]).
Proof.
  unfold rune4, cont, in_range. destruct (_ && _) eqn:E; [|done]. intros [= <-]. right. cbn.
  destruct (byte_eqb_spec b0 xf0) as [->|]; [blia|]. destruct (byte_eqb_spec b0 xf4) as [->|]; blia.
Qed.

Lemma runes_shape s : Forall rune_shape (runes s) /\ concat (map snd (runes s)) = s.
Proof.
  enough (forall n s, (length s <= n)%nat -> Forall rune_shape (runes s) /\ concat (map snd (runes s)) = s)
    as E by by eapply E. clear s.
  induction n as [|n IH]; intros [|b0 s1] Hn; cbn [length] in Hn; try lia; try (by split).
  assert (forall r enc s', rune_shape (r, enc) -> b0 :: s1 = enc ++ s' -> (length s' <= n)%nat ->
    Forall rune_shape ((r, enc) :: runes s') /\ concat (map snd ((r, enc) :: runes s')) = b0 :: s1) as Step.
  { intros r enc s' Hs -> Hl. destruct (IH s' Hl) as [F C]. split; [by constructor|]. cbn. by rewrite C. }
  assert (is_ascii_byte b0 = false -> Forall rune_shape ((RuneError, [b0]) :: runes s1) /\
    concat (map snd ((RuneError, [b0]) :: runes s1)) = b0 :: s1) as Bad.
  { intros Hb. apply Step; [|done|lia]. right. unfold is_ascii_byte in Hb. cbn. unfold RuneError. lia. }
  cbn [runes]. destruct (is_ascii_byte b0) eqn:Hb.
  { apply Step; [|done|lia]. left. unfold is_ascii_byte in Hb. cbn. rewrite zb_bz.
    pose proof (bz_range b0). split; [lia|done]. }
  destruct s1 as [|b1 s2]; [by apply Bad|]. cbn [length] in Hn.
  destruct (rune2 b0 b1) eqn:E2; [apply rune2_shape in E2; apply Step; [done|done|lia]|].
  destruct s2 as [|b2 s3]; [by apply Bad|]. cbn [length] in Hn.
  destruct (rune3 b0 b1 b2) eqn:E3; [apply rune3_shape in E3; apply Step; [done|done|lia]|].
  destruct s3 as [|b3 s4]; [by apply Bad|]. cbn [length] in Hn.
  destruct (rune4 b0 b1 b2 b3) eqn:E4; [apply rune4_shape in E4; apply Step; [done|done|lia]|].
  by apply Bad.
Qed.

(** A check of every rune that accepts an ASCII rune only when its byte passes [f]. *)
Lemma runes_bytes (f : byte -> bool) s :
  Forall (fun p => 0 <= fst p < 128 -> f (zb (fst p)) = true) (runes s) ->
  forallb (fun c => f c || (128 <=? bz c)) s = true.
Proof.
  destruct (runes_shape s) as [F C]. rewrite <- C at 2. clear C. intros G.
  induction (runes s) as [|[r enc] rs IH]; [done|]. cbn. rewrite forallb_app_eq.
  apply Forall_cons in F as [S F]. apply Forall_cons in G as [Gr G]. rewrite IH by done.
  rewrite andb_true_r. destruct S as [[R E]|[R E]]; cbn in *.
  - subst enc. cbn. by rewrite Gr.
  - revert E. apply forallb_mono. intros c ->. apply orb_true_r.
Qed.

Lemma HasSuffix_inv s t : HasSuffix s t = true -> exists p, s = p ++ t.
Proof.
  unfold HasSuffix. intros [_ H]%andb_true_iff.
  destruct (beq_spec (drop (length s - length t) s) t) as [E|]; [|done].
  exists (take (length s - length t) s). rewrite <- (take_drop (length s - length t) s) at 1.
  by rewrite E.
Qed.

Lemma HasSuffix_app s t : HasSuffix (s ++ t) t = true.
Proof.
  unfold HasSuffix. rewrite length_app.
  replace (length s + length t - length t)%nat with (length s) by lia.
  rewrite drop_app_length, beq_refl. by destruct (Nat.leb_spec (length t) (length s + length t)); [|lia].
Qed.

Lemma TrimSuffix_app s t : TrimSuffix (s ++ t) t = s.
Proof.
  unfold TrimSuffix, HasSuffix. rewrite length_app.
  replace (length s + length t - length t)%nat with (length s) by lia.
  destruct (Nat.leb_spec (length t) (length s + length t)); [|lia]. cbn.
  by rewrite drop_app_length, beq_refl, take_app_length.
Qed.

Definition ascii_only_unicode : Unicode :=
  {| unicode_ToUpper s := s; unicode_EqualFold := beq |}.
