(* ===== verification/Base64.v ===== *)
(** * encoding/base64: the encodings the SASL code uses

    [StdEncoding] (padded), [RawStdEncoding] and [RawURLEncoding] (unpadded) of the Go standard
    library: three octets are the 24-bit number of four digits. [DecodeString] of the padded
    encoding skips CR and LF, is strict about length and padding and lenient about the unused bits
    of the last digit. *)
From Stdlib Require Import ZArith Lia Bool.
From stdpp Require Import base list gmap strings.
From S2P Require Import Prelude GoStrings.

Definition encodeStd : bytes := $"ABCDEFGHIJKLMNOPQRSTUVWXYZabcdefghijklmnopqrstuvwxyz0123456789+/".
Definition encodeURL : bytes := $"ABCDEFGHIJKLMNOPQRSTUVWXYZabcdefghijklmnopqrstuvwxyz0123456789-_".

Definition PAD : byte := "="%byte.

Definition digit_at (alphabet : bytes) (n : Z) : byte := nth (Z.to_nat (n mod 64)) alphabet x00.

Fixpoint encode (alphabet : bytes) (padded : bool) (s : bytes) : bytes :=
  let d := digit_at alphabet in
  let pad n := if padded then repeat PAD n else [] in
  match s with
  | [] => []
  | [a] => let v := bz a * 65536 in [d (v / 262144); d (v / 4096)] ++ pad 2%nat
  | [a; b] => let v := bz a * 65536 + bz b * 256 in [d (v / 262144); d (v / 4096); d (v / 64)] ++ pad 1%nat
  | a :: b :: c :: s' =>
      let v := bz a * 65536 + bz b * 256 + bz c in
      [d (v / 262144); d (v / 4096); d (v / 64); d v] ++ encode alphabet padded s'
  end.

Definition EncodeToString : bytes -> bytes := encode encodeStd true.
Definition RawEncodeToString : bytes -> bytes := encode encodeStd false.
Definition RawURLEncodeToString : bytes -> bytes := encode encodeURL false.

(** The value of a digit of the standard alphabet. *)
Definition digit_val (c : byte) : option Z :=
  if is_upper c then Some (bz c - 65)
  else if is_lower c then Some (bz c - 71)
  else if is_digit c then Some (bz c + 4)
  else if c =b "+"%byte then Some 62
  else if c =b "/"%byte then Some 63
  else None.

Fixpoint decode_quanta (s : bytes) : option bytes :=
  match s with
  | [] => Some []
  | a :: b :: c :: d :: s' =>
      match digit_val a, digit_val b with
      | Some x, Some y =>
          if c =b PAD then
            if (d =b PAD) && beq s' [] then Some [zb ((x * 262144 + y * 4096) / 65536)] else None
          else
            match digit_val c with
            | None => None
            | Some z =>
                let v := x * 262144 + y * 4096 + z * 64 in
                if d =b PAD then
                  if beq s' [] then Some [zb (v / 65536); zb (v / 256)] else None
                else
                  match digit_val d, decode_quanta s' with
                  | Some w, Some rest => Some (zb (v / 65536) :: zb (v / 256) :: zb (v + w) :: rest)
                  | _, _ => None
                  end
            end
      | _, _ => None
      end
  | _ => None
  end.

Definition DecodeString (s : bytes) : option bytes :=
  decode_quanta (List.filter (fun c => negb ((c =b CR) || (c =b LF))) s).

(** ** Round trip *)

Lemma digit_val_at n : digit_val (digit_at encodeStd n) = Some (n mod 64).
Proof.
  unfold digit_at. pose proof (Z.mod_pos_bound n 64 ltac:(lia)) as B.
  remember (Z.to_nat (n mod 64)) as k eqn:Hk.
  replace (n mod 64) with (Z.of_nat k) by lia. assert (k < 64)%nat as L by lia. clear - L.
  do 64 (destruct k as [|k]; [reflexivity|]). lia.
Qed.

(** A digit is neither padding nor a line break. *)
Definition is_b64 (c : byte) : bool := match digit_val c with Some _ => true | None => false end.

Lemma is_b64_at n : is_b64 (digit_at encodeStd n) = true.
Proof. unfold is_b64. by rewrite digit_val_at. Qed.

Lemma is_b64_neq c d : is_b64 c = true -> is_b64 d = false -> (c =b d) = false.
Proof. intros H D. destruct (byte_eqb_spec c d) as [->|]; congruence. Qed.

Lemma zb_eq a v : v mod 256 = bz a -> zb v = a.
Proof. intros H. apply bz_inj. by rewrite bz_zb. Qed.

Lemma triple_ind (P : bytes -> Prop) :
  P [] -> (forall a, P [a]) -> (forall a b, P [a; b]) ->
  (forall a b c s, P s -> P (a :: b :: c :: s)) -> forall s, P s.
Proof.
  intros H0 H1 H2 H3 s. enough (P s /\ (forall a, P (a :: s)) /\ (forall a b, P (a :: b :: s))) by tauto.
  induction s as [|c s (I0 & I1 & I2)]; split_and!; auto.
Qed.

(** The bytes [EncodeToString] can produce. *)
Lemma EncodeToString_chars s :
  forallb (fun c => is_b64 c || (c =b PAD)) (EncodeToString s) = true.
Proof.
  unfold EncodeToString. induction s using triple_ind; cbn [encode forallb app repeat];
    rewrite ?is_b64_at; cbn [andb orb]; [done..|]. exact IHs.
Qed.

Lemma filter_b64 s :
  forallb (fun c => is_b64 c || (c =b PAD)) s = true ->
  List.filter (fun c => negb ((c =b CR) || (c =b LF))) s = s.
Proof.
  induction s as [|c s IH]; cbn; [done|]. intros [H Hs]%andb_true_iff. rewrite (IH Hs).
  assert ((c =b CR) || (c =b LF) = false) as ->; [|done].
  apply orb_true_iff in H as [H|H].
  - by rewrite !is_b64_neq.
  - by destruct (byte_eqb_spec c PAD) as [->|].
Qed.

Lemma decode_encode s : decode_quanta (EncodeToString s) = Some s.
Proof.
  unfold EncodeToString. induction s as [| a | a b | a b c s IH] using triple_ind;
    cbn [encode app repeat decode_quanta]; rewrite ?digit_val_at, ?(is_b64_neq (digit_at _ _) PAD) by
      (apply is_b64_at || reflexivity); [done|..].
  - change (PAD =b PAD) with true. cbn [andb beq]. do 2 f_equal. apply zb_eq. pose proof (bz_range a). Z.div_mod_to_equations. lia.
  - change (PAD =b PAD) with true. cbn [beq]. pose proof (bz_range a). pose proof (bz_range b).
    do 2 f_equal; [|f_equal]; apply zb_eq; Z.div_mod_to_equations; lia.
  - rewrite IH. pose proof (bz_range a). pose proof (bz_range b). pose proof (bz_range c).
    do 2 f_equal; [|f_equal; [|f_equal]]; apply zb_eq; Z.div_mod_to_equations; lia.
Qed.

Lemma DecodeString_EncodeToString s : DecodeString (EncodeToString s) = Some s.
Proof. unfold DecodeString. rewrite filter_b64 by apply EncodeToString_chars. apply decode_encode. Qed.

Lemma EncodeToString_nil s : EncodeToString s = [] -> s = [].
Proof. intros H. pose proof (decode_encode s) as D. rewrite H in D. by injection D. Qed.

Lemma EncodeToString_no c s : is_b64 c || (c =b PAD) = false -> no_byte c (EncodeToString s) = true.
Proof. intros H. apply (forallb_no_byte (fun c => is_b64 c || (c =b PAD)) _ _ H). apply EncodeToString_chars. Qed.

Lemma RawEncodeToString_no c s : is_b64 c = false -> no_byte c (RawEncodeToString s) = true.
Proof.
  intros H. apply (forallb_no_byte is_b64 _ _ H). unfold RawEncodeToString.
  induction s using triple_ind; cbn [encode forallb app]; rewrite ?is_b64_at; done.
Qed.

Lemma RawEncodeToString_nonempty s : s <> [] -> RawEncodeToString s <> [].
Proof. by destruct s as [|a [|b [|c s]]]. Qed.

Lemma EncodeToString_nonempty s : s <> [] -> EncodeToString s <> [].
Proof. intros N H. by apply N, EncodeToString_nil. Qed.

Lemma length_encode alphabet padded s :
  (length (encode alphabet padded s) <= 4 * ((length s + 2) / 3))%nat.
Proof.
  induction s as [| a | a b | a b c s IH] using triple_ind; [done|by destruct padded; cbn; lia..|].
  cbn [encode app length]. replace (S (S (S (length s))) + 2)%nat with (length s + 2 + 1 * 3)%nat by lia.
  rewrite Nat.div_add by lia. lia.
Qed.
