(* ===== verification/Sasl.v ===== *)
(** * internal/smtpsasl: the SASL mechanisms, client and server

    sasl.go (the initiator's [Mechanism]) and responder.go (the server's [Responder]). Hashes and
    HMAC are the class [Crypto]; what crypto/rand returns is an argument ([None]: it failed). A Go
    byte slice whose nil-ness matters is an [option]. Modifying methods return the new receiver. *)
From Stdlib Require Import ZArith Lia Bool.
From stdpp Require Import base list gmap strings.
From S2P Require Import Prelude GoStrings Base64.

Inductive hash_alg : Type := MD5 | SHA1 | SHA256.

(** [h.Size()] of the standard library's implementations. *)
Definition hashSize (h : hash_alg) : nat :=
  match h with MD5 => 16 | SHA1 => 20 | SHA256 => 32 end.

(** crypto/md5, sha1, sha256 and hmac: their sums have the hash's size. *)
Class Crypto : Type := {
  Sum : hash_alg -> bytes -> bytes;
  HMAC : hash_alg -> bytes -> bytes -> bytes;
  length_Sum h x : length (Sum h x) = hashSize h;
  length_HMAC h k x : length (HMAC h k x) = hashSize h
}.

Module smtpsasl.

(** ** Shared helpers *)

Definition maxSCRAMIterations : Z := 100000.

Definition hmacSum `{Crypto} (h : hash_alg) (key input : bytes) : bytes := HMAC h key input.
Definition hashSum `{Crypto} (h : hash_alg) (input : bytes) : bytes := Sum h input.

Definition xor_byte (a b : byte) : byte := zb (Z.lxor (bz a) (bz b)).

(** The code indexes [b] by the positions of [a]; both operands have the hash's size. *)
Definition xor (a b : bytes) : bytes := zip_with xor_byte a b.

(** The iterations after the first: [n] of them, from [previous]. *)
Fixpoint hi_loop `{Crypto} (h : hash_alg) (password : bytes) (n : nat) (previous out : bytes) : bytes :=
  match n with
  | O => out
  | S n' => let next := HMAC h password previous in hi_loop h password n' next (xor out next)
  end.

Definition hi `{Crypto} (h : hash_alg) (password salt : bytes) (iterations : Z) : bytes :=
  let first := HMAC h password (salt ++ [x00; x00; x00; x01]) in
  hi_loop h password (Z.to_nat (iterations - 1)) first first.

Definition saslName (v : bytes) : bytes :=
  concat (map (fun c => if c =b "="%byte then $"=3D" else if c =b ","%byte then $"=2C" else [c]) v).

Fixpoint decodeSASLName (value : bytes) : option bytes :=
  match value with
  | [] => Some []
  | c :: rest =>
      if negb (c =b "="%byte) then cons c <$> decodeSASLName rest
      else match rest with
      | d :: e :: rest' =>
          if (d =b "2"%byte) && (e =b "C"%byte) then cons ","%byte <$> decodeSASLName rest'
          else if (d =b "3"%byte) && (e =b "D"%byte) then cons "="%byte <$> decodeSASLName rest'
          else None
      | _ => None
      end
  end.

Definition fields := gmap byte bytes.
(** A lookup in a Go map: the zero value when the key is absent. *)
Definition get (m : fields) (k : byte) : bytes := default [] (m !! k).

(** [len(field) >= 3 && field[1] == '=']: the name and the value. *)
Definition field_of (x : bytes) : option (byte * bytes) :=
  match x with
  | n :: e :: c :: v => if e =b "="%byte then Some (n, c :: v) else None
  | _ => None
  end.

(** The client's parser: malformed fields are skipped, the last of a name wins. *)
Definition parseFields (v : bytes) : fields :=
  fold_left (fun out x => match field_of x with Some (n, w) => <[n:=w]> out | None => out end)
    (Split v ","%byte) ∅.

Fixpoint scram_fields (xs : list bytes) (out : fields) : option fields :=
  match xs with
  | [] => Some out
  | x :: xs' =>
      match field_of x with
      | None => None
      | Some (n, w) =>
          match out !! n with
          | Some _ => None
          | None => scram_fields xs' (<[n:=w]> out)
          end
      end
  end.

(** The server's parser: malformed and repeated fields are errors. *)
Definition parseSCRAMFields (message : bytes) : option fields := scram_fields (Split message ","%byte) ∅.

(** ** sasl.go: the client's side *)

Record Config : Type := {
  Username : bytes;
  Password : bytes;
  AuthorizationID : bytes;
  Token : bytes;
  ChannelBinding : bytes;
  testNonce : bytes
}.

Record scram : Type := {
  s_name : bytes;
  s_cfg : Config;
  s_hash : hash_alg;
  s_plus : bool;
  s_nonce : bytes;
  s_firstBare : bytes;
  s_expected : bytes;
  s_step : nat
}.

Inductive Mechanism : Type :=
| plain (cfg : Config)
| login (cfg : Config) (step : nat)
| cramMD5 (cfg : Config)
| external (cfg : Config)
| oauthBearer (cfg : Config)
| xoauth2 (cfg : Config)
| Scram (s : scram).

Definition newSCRAM (name : bytes) (cfg : Config) (h : hash_alg) : option Mechanism :=
  if HasSuffix name ($"-PLUS") && beq (ChannelBinding cfg) [] then None
  else Some (Scram {| s_name := name; s_cfg := cfg; s_hash := h; s_plus := HasSuffix name ($"-PLUS");
                      s_nonce := []; s_firstBare := []; s_expected := []; s_step := 0 |}).

Definition New `{Unicode} (name : bytes) (cfg : Config) : option Mechanism :=
  let n := ToUpper name in
  if beq n ($"PLAIN") then Some (plain cfg)
  else if beq n ($"LOGIN") then Some (login cfg 0)
  else if beq n ($"CRAM-MD5") then Some (cramMD5 cfg)
  else if beq n ($"EXTERNAL") then Some (external cfg)
  else if beq n ($"OAUTHBEARER") then Some (oauthBearer cfg)
  else if beq n ($"XOAUTH2") then Some (xoauth2 cfg)
  else if beq n ($"SCRAM-SHA-1") || beq n ($"SCRAM-SHA-1-PLUS") then newSCRAM n cfg SHA1
  else if beq n ($"SCRAM-SHA-256") || beq n ($"SCRAM-SHA-256-PLUS") then newSCRAM n cfg SHA256
  else None.

Definition scram_gs2 (plus : bool) : bytes := if plus then $"p=tls-exporter,," else $"n,,".

Definition bearer (token : bytes) : bytes := $"auth=Bearer " ++ token ++ [x01; x01].

(** The initial response; [Some None] is a nil one, [None] an error. *)
Definition Start (random : option bytes) (m : Mechanism) : Mechanism * option (option bytes) :=
  match m with
  | plain cfg => (m, Some (Some (AuthorizationID cfg ++ x00 :: Username cfg ++ x00 :: Password cfg)))
  | login _ _ | cramMD5 _ => (m, Some None)
  | external cfg => (m, Some (Some (AuthorizationID cfg)))
  | oauthBearer cfg =>
      let a := if beq (AuthorizationID cfg) [] then Username cfg else AuthorizationID cfg in
      (m, Some (Some ($"n,a=" ++ saslName a ++ $"," ++ x01 :: bearer (Token cfg))))
  | xoauth2 cfg => (m, Some (Some ($"user=" ++ Username cfg ++ x01 :: bearer (Token cfg))))
  | Scram s =>
      let cfg := s_cfg s in
      match (if beq (testNonce cfg) [] then RawEncodeToString <$> random else Some (testNonce cfg)) with
      | None => (m, None)
      | Some nonce =>
          let firstBare := $"n=" ++ saslName (Username cfg) ++ $",r=" ++ nonce in
          (Scram {| s_name := s_name s; s_cfg := cfg; s_hash := s_hash s; s_plus := s_plus s;
                    s_nonce := nonce; s_firstBare := firstBare; s_expected := s_expected s;
                    s_step := s_step s |},
           Some (Some (scram_gs2 (s_plus s) ++ firstBare)))
      end
  end.

(** "%x" *)
Definition hex (b : bytes) : bytes :=
  concat (map (fun c => map (fun n => nth (Z.to_nat n) ($"0123456789abcdef") x00) [bz c / 16; bz c mod 16]) b).

Definition set_step (s : scram) (expected : bytes) (step : nat) : scram :=
  {| s_name := s_name s; s_cfg := s_cfg s; s_hash := s_hash s; s_plus := s_plus s; s_nonce := s_nonce s;
     s_firstBare := s_firstBare s; s_expected := expected; s_step := step |}.

(** The client-final message and the server signature it expects; [None] is an error. *)
Definition clientFinal `{Crypto} (s : scram) (serverFirst : bytes) : option (bytes * bytes) :=
  let f := parseFields serverFirst in
  let nonce := get f "r"%byte in
  let salt64 := get f "s"%byte in
  if beq nonce [] || negb (HasPrefix nonce (s_nonce s)) || beq salt64 [] then None
  else match Atoi (get f "i"%byte) with
  | None => None
  | Some iter =>
      if (iter <? 1) || (maxSCRAMIterations <? iter) then None
      else match DecodeString salt64 with
      | None => None
      | Some salt =>
          let h := s_hash s in
          let salted := hi h (Password (s_cfg s)) salt iter in
          let clientKey := hmacSum h salted ($"Client Key") in
          let stored := hashSum h clientKey in
          let cbind := if s_plus s
                       then EncodeToString ($"p=tls-exporter,," ++ ChannelBinding (s_cfg s))
                       else $"biws" in
          let withoutProof := $"c=" ++ cbind ++ $",r=" ++ nonce in
          let auth := s_firstBare s ++ $"," ++ serverFirst ++ $"," ++ withoutProof in
          let clientSig := hmacSum h stored auth in
          let proof := xor clientKey clientSig in
          let serverKey := hmacSum h salted ($"Server Key") in
          Some (withoutProof ++ $",p=" ++ EncodeToString proof, hmacSum h serverKey auth)
      end
  end.

(** The response to a challenge and whether it is the client's last; [None] is an error. *)
Definition Next `{Crypto} (m : Mechanism) (challenge : bytes) : Mechanism * option (bytes * bool) :=
  match m with
  | plain _ | external _ => (m, None)
  | login cfg step =>
      (login cfg (S step),
       match step with
       | 0%nat => Some (Username cfg, false)
       | 1%nat => Some (Password cfg, true)
       | _ => None
       end)
  | cramMD5 cfg => (m, Some (Username cfg ++ SP :: hex (HMAC MD5 (Password cfg) challenge), true))
  | oauthBearer _ | xoauth2 _ => (m, Some ([x01], true))
  | Scram s =>
      match s_step s with
      | 0%nat =>
          match clientFinal s challenge with
          | Some (response, expected) => (Scram (set_step s expected 1), Some (response, false))
          | None => (Scram (set_step s (s_expected s) 1), None)
          end
      | 1%nat =>
          (Scram (set_step s (s_expected s) 2),
           if beq (get (parseFields challenge) "v"%byte) (EncodeToString (s_expected s))
           then Some ([], true) else None)
      | _ => (m, None)
      end
  end.

(** ** responder.go: the server's side *)

Definition maxResponderPayload : Z := 16384.

Inductive sasl_err : Type :=
| ErrResponderState | ErrResponderPayload | ErrResponderAborted | ErrResponderOther.

Inductive VerificationKind : Type := VerifyCredentials | VerifyChallengeResponse | VerifySCRAMKeys.

Record Credentials : Type := {
  cr_AuthenticationID : bytes;
  cr_AuthorizationID : bytes;
  cr_Password : bytes;
  cr_Token : bytes
}.

Definition no_credentials : Credentials :=
  {| cr_AuthenticationID := []; cr_AuthorizationID := []; cr_Password := []; cr_Token := [] |}.

Record VerificationRequest : Type := {
  vr_Kind : VerificationKind;
  vr_Mechanism : bytes;
  vr_Credentials : Credentials;
  vr_Challenge : bytes;
  vr_Response : bytes
}.

Record SCRAMKeys : Type := { Salt : bytes; Iterations : Z; StoredKey : bytes; ServerKey : bytes }.

Record Verification : Type := {
  v_Accepted : bool;
  v_FailureChallenge : option bytes;
  v_Keys : option SCRAMKeys
}.

(** A step carries a challenge, a verification request or the outcome. *)
Inductive ResponderStep : Type :=
| StepChallenge (challenge : bytes)
| StepVerification (request : VerificationRequest)
| StepDone (accepted : bool).

Record ResponderConfig : Type := {
  rc_Hostname : bytes;
  rc_CRAMChallenge : option bytes;
  rc_ChannelBinding : bytes;
  rc_testNonce : bytes
}.

Inductive responderState : Type :=
| responderNew | responderPlain | responderLoginUser | responderLoginPassword | responderCRAM
| responderExternal | responderOAuth | responderOAuthDummy | responderSCRAMFirst
| responderSCRAMProof | responderSCRAMEmpty | responderVerify | responderDone.

Record Responder : Type := {
  r_name : bytes;
  r_cfg : ResponderConfig;
  r_state : responderState;
  r_request : option VerificationRequest;
  r_challenge : bytes;
  r_username : bytes;
  r_hash : hash_alg;
  r_plus : bool;
  r_gs2Header : bytes;
  r_clientFirst : bytes;
  r_serverFirst : bytes;
  r_combinedNonce : bytes;
  r_keys : option SCRAMKeys
}.

Definition set_state (r : Responder) (st : responderState) : Responder :=
  {| r_name := r_name r; r_cfg := r_cfg r; r_state := st; r_request := r_request r;
     r_challenge := r_challenge r; r_username := r_username r; r_hash := r_hash r; r_plus := r_plus r;
     r_gs2Header := r_gs2Header r; r_clientFirst := r_clientFirst r; r_serverFirst := r_serverFirst r;
     r_combinedNonce := r_combinedNonce r; r_keys := r_keys r |}.

Definition set_username (r : Responder) (u : bytes) : Responder :=
  {| r_name := r_name r; r_cfg := r_cfg r; r_state := r_state r; r_request := r_request r;
     r_challenge := r_challenge r; r_username := u; r_hash := r_hash r; r_plus := r_plus r;
     r_gs2Header := r_gs2Header r; r_clientFirst := r_clientFirst r; r_serverFirst := r_serverFirst r;
     r_combinedNonce := r_combinedNonce r; r_keys := r_keys r |}.

Definition set_challenge (r : Responder) (c : bytes) : Responder :=
  {| r_name := r_name r; r_cfg := r_cfg r; r_state := r_state r; r_request := r_request r;
     r_challenge := c; r_username := r_username r; r_hash := r_hash r; r_plus := r_plus r;
     r_gs2Header := r_gs2Header r; r_clientFirst := r_clientFirst r; r_serverFirst := r_serverFirst r;
     r_combinedNonce := r_combinedNonce r; r_keys := r_keys r |}.

Definition set_request (r : Responder) (q : option VerificationRequest) : Responder :=
  {| r_name := r_name r; r_cfg := r_cfg r; r_state := r_state r; r_request := q;
     r_challenge := r_challenge r; r_username := r_username r; r_hash := r_hash r; r_plus := r_plus r;
     r_gs2Header := r_gs2Header r; r_clientFirst := r_clientFirst r; r_serverFirst := r_serverFirst r;
     r_combinedNonce := r_combinedNonce r; r_keys := r_keys r |}.

Definition set_first (r : Responder) (gs2 bare nonce : bytes) : Responder :=
  {| r_name := r_name r; r_cfg := r_cfg r; r_state := r_state r; r_request := r_request r;
     r_challenge := r_challenge r; r_username := r_username r; r_hash := r_hash r; r_plus := r_plus r;
     r_gs2Header := gs2; r_clientFirst := bare; r_serverFirst := r_serverFirst r;
     r_combinedNonce := nonce; r_keys := r_keys r |}.

Definition set_server_first (r : Responder) (nonce first : bytes) (keys : SCRAMKeys) : Responder :=
  {| r_name := r_name r; r_cfg := r_cfg r; r_state := responderSCRAMProof; r_request := r_request r;
     r_challenge := r_challenge r; r_username := r_username r; r_hash := r_hash r; r_plus := r_plus r;
     r_gs2Header := r_gs2Header r; r_clientFirst := r_clientFirst r; r_serverFirst := first;
     r_combinedNonce := nonce; r_keys := Some keys |}.

(** What a method returns: the receiver and its step or error. *)
Definition reaction : Type := Responder * result sasl_err ResponderStep.

Definition verify (r : Responder) (request : VerificationRequest) : reaction :=
  (set_state (set_request r (Some request)) responderVerify, Ok (StepVerification request)).

Definition finish (r : Responder) (accepted : bool) : reaction :=
  (set_state r responderDone, Ok (StepDone accepted)).

Definition NewResponder `{Unicode} (name0 : bytes) (cfg : ResponderConfig) : option Responder :=
  let name := ToUpper name0 in
  let make h plus :=
    if plus && beq (rc_ChannelBinding cfg) [] then None
    else Some {| r_name := name; r_cfg := cfg; r_state := responderNew; r_request := None;
                 r_challenge := []; r_username := []; r_hash := h; r_plus := plus; r_gs2Header := [];
                 r_clientFirst := []; r_serverFirst := []; r_combinedNonce := []; r_keys := None |} in
  if beq name ($"PLAIN") || beq name ($"LOGIN") || beq name ($"CRAM-MD5") || beq name ($"EXTERNAL")
     || beq name ($"OAUTHBEARER") || beq name ($"XOAUTH2") then make MD5 false
  else if beq name ($"SCRAM-SHA-1") || beq name ($"SCRAM-SHA-1-PLUS") then make SHA1 (HasSuffix name ($"-PLUS"))
  else if beq name ($"SCRAM-SHA-256") || beq name ($"SCRAM-SHA-256-PLUS")
  then make SHA256 (HasSuffix name ($"-PLUS"))
  else None.

Definition credentials_request (r : Responder) (c : Credentials) : VerificationRequest :=
  {| vr_Kind := VerifyCredentials; vr_Mechanism := r_name r; vr_Credentials := c; vr_Challenge := [];
     vr_Response := [] |}.

Definition plain_response (r : Responder) (payload : bytes) : reaction :=
  match Split payload x00 with
  | [p0; p1; p2] =>
      if beq p1 [] then (r, Err ErrResponderPayload)
      else verify r (credentials_request r
             {| cr_AuthenticationID := p1; cr_AuthorizationID := p0; cr_Password := p2; cr_Token := [] |})
  | _ => (r, Err ErrResponderPayload)
  end.

Definition external_response (r : Responder) (payload : bytes) : reaction :=
  verify r (credentials_request r
    {| cr_AuthenticationID := []; cr_AuthorizationID := payload; cr_Password := []; cr_Token := [] |}).

(** The parts before the two empty ones an OAuth message ends with; [None] when it does not. *)
Definition oauth_parts (payload : bytes) : option (list bytes) :=
  let parts := Split payload x01 in
  if (length parts <? 3)%nat then None
  else match rev parts with
  | [] :: [] :: front => Some (rev front)
  | _ => None
  end.

Definition bearer_prefix : bytes := $"auth=Bearer ".

(** [TrimPrefix]. *)
Definition TrimPrefix (s prefix : bytes) : bytes := if HasPrefix s prefix then drop (length prefix) s else s.

Definition parseOAuthGS2 (header : bytes) : option bytes :=
  if negb (HasPrefix header ($"n,")) || negb (HasSuffix header ($",")) then None
  else
    let middle := TrimSuffix (TrimPrefix header ($"n,")) ($",") in
    match middle with
    | [] => Some []
    | _ => if HasPrefix middle ($"a=") then decodeSASLName (TrimPrefix middle ($"a=")) else None
    end.

(** The last [auth=Bearer] part. *)
Definition bearer_token (parts : list bytes) : bytes :=
  fold_left (fun token part => if HasPrefix part bearer_prefix then TrimPrefix part bearer_prefix else token)
    parts [].

Definition parseOAuthBearer (payload : bytes) : option Credentials :=
  match oauth_parts payload with
  | Some (header :: parts) =>
      match parseOAuthGS2 header with
      | None => None
      | Some authzid =>
          let token := bearer_token parts in
          if beq token [] then None
          else Some {| cr_AuthenticationID := []; cr_AuthorizationID := authzid; cr_Password := [];
                       cr_Token := token |}
      end
  | _ => None
  end.

Definition user_prefix : bytes := $"user=".

Definition parseXOAuth2 (payload : bytes) : option Credentials :=
  match oauth_parts payload with
  | None => None
  | Some parts =>
      let '(username, token) :=
        fold_left (fun '(u, t) part =>
          if HasPrefix part user_prefix then (TrimPrefix part user_prefix, t)
          else if HasPrefix part bearer_prefix then (u, TrimPrefix part bearer_prefix)
          else (u, t)) parts ([], []) in
      if beq username [] || beq token [] then None
      else Some {| cr_AuthenticationID := username; cr_AuthorizationID := []; cr_Password := [];
                   cr_Token := token |}
  end.

Definition oauth (r : Responder) (payload : bytes) : reaction :=
  match (if beq (r_name r) ($"OAUTHBEARER") then parseOAuthBearer payload else parseXOAuth2 payload) with
  | None => (r, Err ErrResponderPayload)
  | Some c => verify r (credentials_request r c)
  end.

Definition cramChallenge (r : Responder) (random : option bytes) : option bytes :=
  match rc_CRAMChallenge (r_cfg r) with
  | Some c => Some c
  | None =>
      let hostname := if beq (rc_Hostname (r_cfg r)) [] then $"localhost" else rc_Hostname (r_cfg r) in
      (fun nonce => $"<" ++ RawURLEncodeToString nonce ++ $"@" ++ hostname ++ $">") <$> random
  end.

(** The header, the bare message and the authorization identity. *)
Definition parseSCRAMClientFirst (message : bytes) (plus : bool) : option (bytes * bytes * bytes) :=
  match IndexByte message ","%byte with
  | None => None
  | Some first =>
      match IndexByte (drop (S first) message) ","%byte with
      | None => None
      | Some secondRel =>
          let second := (first + 1 + secondRel)%nat in
          let header := take (S second) message in
          let bare := drop (S second) message in
          let flag := take first message in
          let authz := take secondRel (drop (S first) message) in
          if (if plus then negb (beq flag ($"p=tls-exporter"))
              else negb (beq flag ($"n")) && negb (beq flag ($"y"))) then None
          else
            match (match authz with
                   | [] => Some []
                   | _ => if HasPrefix authz ($"a=") then decodeSASLName (TrimPrefix authz ($"a=")) else None
                   end) with
            | None => None
            | Some authzid => if beq bare [] then None else Some (header, bare, authzid)
            end
      end
  end.

Definition scramFirst (r : Responder) (payload : bytes) : reaction :=
  match parseSCRAMClientFirst payload (r_plus r) with
  | None => (r, Err ErrResponderPayload)
  | Some (gs2, bare, authzid) =>
      match parseSCRAMFields bare with
      | None => (r, Err ErrResponderPayload)
      | Some f =>
          if beq (get f "n"%byte) [] || beq (get f "r"%byte) [] || negb (beq (get f "m"%byte) [])
          then (r, Err ErrResponderPayload)
          else match decodeSASLName (get f "n"%byte) with
          | None => (r, Err ErrResponderPayload)
          | Some username =>
              verify (set_first r gs2 bare (get f "r"%byte))
                {| vr_Kind := VerifySCRAMKeys; vr_Mechanism := r_name r;
                   vr_Credentials := {| cr_AuthenticationID := username; cr_AuthorizationID := authzid;
                                        cr_Password := []; cr_Token := [] |};
                   vr_Challenge := []; vr_Response := [] |}
          end
      end
  end.

Definition scram_server_first (nonce : bytes) (keys : SCRAMKeys) : bytes :=
  $"r=" ++ nonce ++ $",s=" ++ EncodeToString (Salt keys) ++ $",i=" ++ FormatInt (Iterations keys).

Definition keys_usable (h : hash_alg) (keys : SCRAMKeys) : bool :=
  (1 <=? Iterations keys) && (Iterations keys <=? maxSCRAMIterations) && negb (beq (Salt keys) [])
  && (length (StoredKey keys) =? hashSize h)%nat && (length (ServerKey keys) =? hashSize h)%nat.

Definition scramServerFirst (r : Responder) (keys : SCRAMKeys) (random : option bytes) : reaction :=
  if negb (keys_usable (r_hash r) keys) then (r, Err ErrResponderOther)
  else
    let nonce := if beq (rc_testNonce (r_cfg r)) [] then RawEncodeToString <$> random
                 else Some (rc_testNonce (r_cfg r)) in
    match nonce with
    | None => (r, Err ErrResponderOther)
    | Some nonce =>
        let combined := r_combinedNonce r ++ nonce in
        let first := scram_server_first combined keys in
        (set_server_first r combined first keys, Ok (StepChallenge first))
    end.

(** [strings.LastIndex(s, sep)]. *)
Fixpoint LastIndex (s sep : bytes) : option nat :=
  match s with
  | [] => if beq sep [] then Some O else None
  | _ :: s' =>
      match LastIndex s' sep with
      | Some i => Some (S i)
      | None => if HasPrefix s sep then Some O else None
      end
  end.

Definition scramProof `{Crypto} (r : Responder) (message : bytes) : reaction :=
  match LastIndex message ($",p=") with
  | None => (r, Err ErrResponderPayload)
  | Some proofAt =>
      let proof64 := drop (proofAt + 3) message in
      let withoutProof := take proofAt message in
      if mem_byte ","%byte proof64 then (r, Err ErrResponderPayload)
      else match parseSCRAMFields withoutProof with
      | None => (r, Err ErrResponderPayload)
      | Some f =>
          if beq (get f "c"%byte) [] || negb (beq (get f "r"%byte) (r_combinedNonce r))
          then (r, Err ErrResponderPayload)
          else match DecodeString (get f "c"%byte) with
          | None => (r, Err ErrResponderPayload)
          | Some channel =>
              let wantChannel := r_gs2Header r ++ (if r_plus r then rc_ChannelBinding (r_cfg r) else []) in
              if negb (beq channel wantChannel) then finish r false
              else match DecodeString proof64, r_keys r with
              | Some proof, Some keys =>
                  if negb (length proof =? hashSize (r_hash r))%nat then (r, Err ErrResponderPayload)
                  else
                    let authMessage := r_clientFirst r ++ $"," ++ r_serverFirst r ++ $"," ++ withoutProof in
                    let clientSignature := hmacSum (r_hash r) (StoredKey keys) authMessage in
                    let clientKey := xor proof clientSignature in
                    if negb (beq (hashSum (r_hash r) clientKey) (StoredKey keys)) then finish r false
                    else
                      let serverSignature := hmacSum (r_hash r) (ServerKey keys) authMessage in
                      (set_state r responderSCRAMEmpty,
                       Ok (StepChallenge ($"v=" ++ EncodeToString serverSignature)))
              | _, _ => (r, Err ErrResponderPayload)
              end
          end
      end
  end.

Definition to_state (r : Responder) (st : responderState) (challenge : bytes) : reaction :=
  (set_state r st, Ok (StepChallenge challenge)).

Definition RStart (random : option bytes) (r : Responder) (initial : option bytes) : reaction :=
  match r_state r with
  | responderNew =>
      if maxResponderPayload <? Z.of_nat (length (default [] initial)) then (r, Err ErrResponderPayload)
      else if beq (default [] initial) ($"*") then (set_state r responderDone, Err ErrResponderAborted)
      else
        let n := r_name r in
        if beq n ($"PLAIN") then
          match initial with None => to_state r responderPlain [] | Some p => plain_response r p end
        else if beq n ($"LOGIN") then
          match initial with
          | None => to_state r responderLoginUser ($"Username:")
          | Some [] => (set_username r [], Err ErrResponderPayload)
          | Some u => to_state (set_username r u) responderLoginPassword ($"Password:")
          end
        else if beq n ($"CRAM-MD5") then
          match initial with
          | Some _ => (r, Err ErrResponderPayload)
          | None =>
              match cramChallenge r random with
              | None => (r, Err ErrResponderOther)
              | Some c => to_state (set_challenge r c) responderCRAM c
              end
          end
        else if beq n ($"EXTERNAL") then
          match initial with None => to_state r responderExternal [] | Some p => external_response r p end
        else if beq n ($"OAUTHBEARER") || beq n ($"XOAUTH2") then
          match initial with None => to_state r responderOAuth [] | Some p => oauth r p end
        else
          match initial with None => to_state r responderSCRAMFirst [] | Some p => scramFirst r p end
  | _ => (r, Err ErrResponderState)
  end.

Definition RNext `{Crypto} (r : Responder) (response : bytes) : reaction :=
  if beq response ($"*") then (set_state r responderDone, Err ErrResponderAborted)
  else if maxResponderPayload <? Z.of_nat (length response) then (r, Err ErrResponderPayload)
  else
    match r_state r with
    | responderPlain => plain_response r response
    | responderLoginUser =>
        match response with
        | [] => (r, Err ErrResponderPayload)
        | _ => to_state (set_username r response) responderLoginPassword ($"Password:")
        end
    | responderLoginPassword =>
        verify r (credentials_request r
          {| cr_AuthenticationID := r_username r; cr_AuthorizationID := []; cr_Password := response;
             cr_Token := [] |})
    | responderCRAM =>
        match response with
        | [] => (r, Err ErrResponderPayload)
        | _ => verify r {| vr_Kind := VerifyChallengeResponse; vr_Mechanism := r_name r;
                           vr_Credentials := no_credentials; vr_Challenge := r_challenge r;
                           vr_Response := response |}
        end
    | responderExternal => external_response r response
    | responderOAuth => oauth r response
    | responderOAuthDummy => if beq response [x01] then finish r false else (r, Err ErrResponderPayload)
    | responderSCRAMFirst => scramFirst r response
    | responderSCRAMProof => scramProof r response
    | responderSCRAMEmpty => match response with [] => finish r true | _ => (r, Err ErrResponderPayload) end
    | _ => (r, Err ErrResponderState)
    end.

Definition Continue (random : option bytes) (r : Responder) (result : Verification) : reaction :=
  match r_state r, r_request r with
  | responderVerify, Some request =>
      let r := set_request r None in
      match vr_Kind request with
      | VerifySCRAMKeys =>
          if negb (v_Accepted result) then finish r false
          else match v_Keys result with
          | None => (r, Err ErrResponderOther)
          | Some keys => scramServerFirst r keys random
          end
      | _ =>
          match v_FailureChallenge result with
          | Some c =>
              if negb (v_Accepted result)
                 && (beq (r_name r) ($"OAUTHBEARER") || beq (r_name r) ($"XOAUTH2")) then
                if maxResponderPayload <? Z.of_nat (length c)
                then (set_state r responderDone, Err ErrResponderPayload)
                else to_state r responderOAuthDummy c
              else finish r (v_Accepted result)
          | None => finish r (v_Accepted result)
          end
      end
  | _, _ => (r, Err ErrResponderState)
  end.

End smtpsasl.

(** ** Theorems *)
Module SaslFacts.
Import smtpsasl.

Lemma HasPrefix_app s t : HasPrefix (s ++ t) s = true.
Proof. induction s as [|c s IH]; [by destruct t|]. cbn [HasPrefix app]. by rewrite byte_eqb_refl. Qed.

Lemma TrimPrefix_app s t : TrimPrefix (s ++ t) s = t.
Proof. unfold TrimPrefix. by rewrite HasPrefix_app, drop_app_length. Qed.

Lemma Atoi_FormatInt n : 0 <= n <= MaxInt64 -> Atoi (FormatInt n) = Some n.
Proof.
  intros H. unfold Atoi, FormatInt. destruct (Z.ltb_spec n 0); [lia|].
  pose proof (FormatUint_digits n ltac:(lia)) as D. pose proof (ParseUint_FormatUint n MaxInt64 H) as P.
  unfold ParseInt. destruct (FormatUint n) as [|c s]; [done|].
  cbn [forallb] in D. apply andb_true_iff in D as [D _]. unfold is_digit, in_range in D.
  replace (c =b "-"%byte) with false by blia. by replace (c =b "+"%byte) with false by blia.
Qed.

Lemma no_byte_app c s t : no_byte c (s ++ t) = no_byte c s && no_byte c t.
Proof. apply forallb_app. Qed.

Lemma FormatInt_no_comma n : 0 <= n -> no_byte ","%byte (FormatInt n) = true.
Proof.
  intros H. unfold FormatInt. destruct (Z.ltb_spec n 0); [lia|].
  by apply (forallb_no_byte is_digit); [|apply FormatUint_digits].
Qed.

(** *** Names and fields *)

Lemma saslName_no_comma v : no_byte ","%byte (saslName v) = true.
Proof.
  unfold saslName. induction v as [|c v IH]; [done|]. cbn [map concat]. rewrite no_byte_app, IH, andb_true_r.
  destruct (c =b "="%byte); [done|]. destruct (c =b ","%byte) eqn:E; [done|]. cbn. by rewrite E.
Qed.

Lemma decodeSASLName_saslName v : decodeSASLName (saslName v) = Some v.
Proof.
  unfold saslName. induction v as [|c v IH]; [done|]. cbn [map concat].
  destruct (byte_eqb_spec c "="%byte) as [->|N]; [cbn; by rewrite IH|].
  destruct (byte_eqb_spec c ","%byte) as [->|N']; [cbn; by rewrite IH|].
  cbn [app decodeSASLName]. destruct (byte_eqb_spec c "="%byte); [done|]. cbn [negb]. by rewrite IH.
Qed.

Lemma saslName_nonempty v : v <> [] -> saslName v <> [].
Proof.
  unfold saslName. destruct v as [|c v]; [done|]. intros _. cbn [map concat].
  destruct (c =b "="%byte); [done|]. by destruct (c =b ","%byte).
Qed.

Lemma length_saslName v : (length (saslName v) <= 3 * length v)%nat.
Proof.
  unfold saslName. induction v as [|c v IH]; [done|]. cbn [map concat]. rewrite length_app. cbn [length].
  destruct (c =b "="%byte); [cbn; lia|]. destruct (c =b ","%byte); cbn; lia.
Qed.

(** One field [n=v]. *)
Definition fld (n : byte) (v : bytes) : bytes := n :: "="%byte :: v.

Lemma field_of_fld n v : v <> [] -> field_of (fld n v) = Some (n, v).
Proof. by destruct v. Qed.

Lemma fld_no_comma n v : n <> ","%byte -> no_byte ","%byte v = true -> no_byte ","%byte (fld n v) = true.
Proof. intros N H. unfold fld. cbn [no_byte forallb]. fold (no_byte ","%byte v). rewrite H.
  by destruct (byte_eqb_spec n ","%byte). Qed.

Lemma parseSCRAMFields_two a v b w :
  a <> ","%byte -> b <> ","%byte -> a <> b -> v <> [] -> w <> [] ->
  no_byte ","%byte v = true -> no_byte ","%byte w = true ->
  parseSCRAMFields (fld a v ++ ","%byte :: fld b w) = Some (<[b:=w]> (<[a:=v]> ∅)).
Proof.
  intros Na Nb N Hv Hw Cv Cw. unfold parseSCRAMFields.
  rewrite Split_app, Split_no by by apply fld_no_comma. cbn [scram_fields].
  rewrite !field_of_fld by done. unfold fields. rewrite lookup_empty.
  by rewrite lookup_insert_ne, lookup_empty by done.
Qed.

Lemma parseFields_three a v b w c u :
  a <> ","%byte -> b <> ","%byte -> c <> ","%byte -> v <> [] -> w <> [] -> u <> [] ->
  no_byte ","%byte v = true -> no_byte ","%byte w = true -> no_byte ","%byte u = true ->
  parseFields (fld a v ++ ","%byte :: fld b w ++ ","%byte :: fld c u) = <[c:=u]> (<[b:=w]> (<[a:=v]> ∅)).
Proof.
  intros. unfold parseFields. rewrite !Split_app, Split_no by by apply fld_no_comma.
  cbn [fold_left]. by rewrite !field_of_fld.
Qed.

Lemma LastIndex_no_comma s sep : no_byte ","%byte s = true -> LastIndex s (","%byte :: sep) = None.
Proof.
  induction s as [|c s IH]; [done|]. intros [H1 H2]%andb_true_iff. cbn [LastIndex].
  rewrite IH by exact H2. cbn [HasPrefix]. apply negb_true_iff in H1.
  destruct (byte_eqb_spec ","%byte c) as [<-|]; [by rewrite byte_eqb_refl in H1|done].
Qed.

Lemma LastIndex_proof a b : no_byte ","%byte b = true -> LastIndex (a ++ $",p=" ++ b) ($",p=") = Some (length a).
Proof.
  intros H. induction a as [|c a IH].
  - change ([] ++ $",p=" ++ b) with (","%byte :: "p"%byte :: "="%byte :: b). cbn [LastIndex length].
    rewrite LastIndex_no_comma by done. cbn. by destruct b.
  - change ((c :: a) ++ $",p=" ++ b) with (c :: (a ++ $",p=" ++ b)). cbn [LastIndex length].
    by rewrite IH.
Qed.

(** Evaluates the lookups of [get] in a map built by insertions. *)
Ltac map_get :=
  unfold get, fields;
  repeat first [rewrite lookup_insert_eq | rewrite lookup_insert_ne by done | rewrite lookup_empty];
  cbn [default from_option id].

(** *** xor *)

Lemma lxor_range x y : 0 <= x < 256 -> 0 <= y < 256 -> 0 <= Z.lxor x y < 256.
Proof.
  intros Hx Hy. assert (0 <= Z.lxor x y) as N by (apply Z.lxor_nonneg; lia). split; [done|].
  destruct (Z.eq_dec (Z.lxor x y) 0) as [->|E]; [lia|].
  change 256 with (2 ^ 8). apply Z.log2_lt_pow2; [lia|].
  pose proof (Z.log2_lxor x y ltac:(lia) ltac:(lia)).
  assert (forall z, 0 <= z < 256 -> Z.log2 z < 8) as L.
  { intros z Hz. destruct (Z.eq_dec z 0) as [->|]; [done|]. apply Z.log2_lt_pow2; lia. }
  pose proof (L x Hx). pose proof (L y Hy). lia.
Qed.

Lemma xor_byte_cancel a b : xor_byte (xor_byte a b) b = a.
Proof.
  unfold xor_byte. pose proof (bz_range a). pose proof (bz_range b).
  rewrite bz_zb, Z.mod_small by by apply lxor_range.
  by rewrite Z.lxor_assoc, Z.lxor_nilpotent, Z.lxor_0_r, zb_bz.
Qed.

Lemma xor_cancel a b : length a = length b -> xor (xor a b) b = a.
Proof.
  unfold xor. revert b. induction a as [|x a IH]; intros [|y b] H; try done. cbn.
  rewrite xor_byte_cancel. f_equal. apply IH. by injection H.
Qed.

Lemma length_xor a b : length a = length b -> length (xor a b) = length a.
Proof. intros H. unfold xor. rewrite length_zip_with. lia. Qed.

(** *** SCRAM: the client and the responder *)

(** What a server stores for a password. *)
Definition derived `{Crypto} (h : hash_alg) (password salt : bytes) (iter : Z) : SCRAMKeys :=
  let salted := hi h password salt iter in
  {| Salt := salt; Iterations := iter; StoredKey := Sum h (HMAC h salted ($"Client Key"));
     ServerKey := HMAC h salted ($"Server Key") |}.

(** The conversation from a responder's reaction on, with [answer] as the backend. It fails when
    either side reports an error, and ends with the responder's outcome. *)
Fixpoint converse `{Crypto} (fuel : nat) (random : option bytes)
    (answer : VerificationRequest -> Verification) (m : Mechanism) (s : reaction) : option bool :=
  match fuel with
  | O => None
  | S fuel' =>
      match s with
      | (_, Err _) => None
      | (_, Ok (StepDone accepted)) => Some accepted
      | (r, Ok (StepVerification q)) => converse fuel' random answer m (Continue random r (answer q))
      | (r, Ok (StepChallenge c)) =>
          match Next m c with
          | (m', Some (response, _)) => converse fuel' random answer m' (RNext r response)
          | (_, None) => None
          end
      end
  end.

Definition authenticate `{Crypto} (random_c random_s : option bytes)
    (answer : VerificationRequest -> Verification) (m : Mechanism) (r : Responder) : option bool :=
  match Start random_c m with
  | (m', Some initial) => converse 6 random_s answer m' (RStart random_s r initial)
  | (_, None) => None
  end.

Section Scram.
Context `{Crypto} (h : hash_alg) (plus : bool) (user password salt binding nc ns : bytes) (iter : Z).
Context (Huser : user <> []) (Huser_len : (length user <= 1000)%nat)
  (Hbind : (length binding <= 1000)%nat)
  (Hnc : nc <> []) (Hnc_comma : no_byte ","%byte nc = true) (Hnc_len : (length nc <= 1000)%nat)
  (Hns_comma : no_byte ","%byte ns = true) (Hns_len : (length ns <= 1000)%nat)
  (Hsalt : salt <> []) (Hiter : 1 <= iter <= maxSCRAMIterations).

Let gs2 : bytes := scram_gs2 plus.
Let bare : bytes := fld "n"%byte (saslName user) ++ ","%byte :: fld "r"%byte nc.
Let keys : SCRAMKeys := derived h password salt iter.
Let nonce : bytes := nc ++ ns.
Let first : bytes := scram_server_first nonce keys.
Let cbind : bytes := if plus then EncodeToString ($"p=tls-exporter,," ++ binding) else $"biws".
Let without : bytes := fld "c"%byte cbind ++ ","%byte :: fld "r"%byte nonce.
Let auth : bytes := bare ++ $"," ++ first ++ $"," ++ without.
Let salted : bytes := hi h password salt iter.
Let proof : bytes := xor (HMAC h salted ($"Client Key")) (HMAC h (StoredKey keys) auth).

Lemma client_first_parsed r :
  r_plus r = plus ->
  scramFirst r (gs2 ++ bare) =
  verify (set_first r gs2 bare nc)
    {| vr_Kind := VerifySCRAMKeys; vr_Mechanism := r_name r;
       vr_Credentials := {| cr_AuthenticationID := user; cr_AuthorizationID := []; cr_Password := [];
                            cr_Token := [] |};
       vr_Challenge := []; vr_Response := [] |}.
Proof.
  intros Hp. unfold scramFirst. rewrite Hp.
  replace (parseSCRAMClientFirst (gs2 ++ bare) plus) with (Some (gs2, bare, @nil byte)) by by destruct plus.
  assert (parseSCRAMFields bare = Some (<["r"%byte:=nc]> (<["n"%byte:=saslName user]> ∅))) as ->.
  { apply parseSCRAMFields_two; try done; [by apply saslName_nonempty|apply saslName_no_comma]. }
  map_get.
  rewrite decodeSASLName_saslName.
  destruct (beq_spec (saslName user) []) as [E|_]; [by apply saslName_nonempty in E|].
  destruct (beq_spec nc []); [done|]. done.
Qed.

Lemma keys_are_usable : keys_usable h keys = true.
Proof.
  unfold keys_usable, keys, derived. cbn. rewrite length_Sum, length_HMAC, Nat.eqb_refl.
  destruct (beq_spec salt []); [done|]. cbn. lia.
Qed.

Lemma nonce_no_comma : no_byte ","%byte nonce = true.
Proof. unfold nonce. by rewrite no_byte_app, Hnc_comma, Hns_comma. Qed.

Lemma nonce_nonempty : nonce <> [].
Proof. unfold nonce. by destruct nc. Qed.

Lemma client_final s :
  s_hash s = h -> s_plus s = plus -> s_nonce s = nc -> s_firstBare s = bare ->
  Password (s_cfg s) = password -> ChannelBinding (s_cfg s) = binding ->
  clientFinal s first = Some (without ++ $",p=" ++ EncodeToString proof, HMAC h (ServerKey keys) auth).
Proof.
  intros Hh Hp Hn Hb Hpw Hcb. unfold clientFinal.
  change first with (fld "r"%byte nonce ++ ","%byte :: fld "s"%byte (EncodeToString salt)
    ++ ","%byte :: fld "i"%byte (FormatInt iter)).
  rewrite parseFields_three by (done || apply nonce_no_comma || apply nonce_nonempty
    || (by apply EncodeToString_nonempty) || (by apply EncodeToString_no)
    || (apply FormatInt_no_comma; lia)
    || (unfold FormatInt; destruct (Z.ltb_spec iter 0); [lia|apply FormatUint_nonempty])).
  map_get.
  rewrite Hh, Hp, Hn, Hb, Hpw, Hcb, DecodeString_EncodeToString, Atoi_FormatInt
    by (unfold maxSCRAMIterations, MaxInt64 in *; lia).
  destruct (beq_spec nonce []) as [E|_]; [by apply nonce_nonempty in E|].
  unfold nonce at 1. rewrite HasPrefix_app.
  destruct (beq_spec (EncodeToString salt) []) as [E|_]; [by apply EncodeToString_nil in E|].
  cbn [negb orb]. destruct (Z.ltb_spec iter 1); [lia|]. destruct (Z.ltb_spec maxSCRAMIterations iter); [lia|].
  done.
Qed.

Lemma cbind_facts :
  cbind <> [] /\ no_byte ","%byte cbind = true /\
  DecodeString cbind = Some (gs2 ++ if plus then binding else []).
Proof.
  unfold cbind, gs2, scram_gs2. clear. destruct plus.
  - split_and!; [by apply EncodeToString_nonempty|by apply EncodeToString_no|].
    apply DecodeString_EncodeToString.
  - split_and!; done.
Qed.

Lemma length_proof : length proof = hashSize h.
Proof. unfold proof. by rewrite length_xor, !length_HMAC by by rewrite !length_HMAC. Qed.

Lemma server_final r :
  r_hash r = h -> r_plus r = plus -> r_gs2Header r = gs2 -> r_clientFirst r = bare ->
  r_serverFirst r = first -> r_combinedNonce r = nonce -> r_keys r = Some keys ->
  rc_ChannelBinding (r_cfg r) = binding ->
  scramProof r (without ++ $",p=" ++ EncodeToString proof) =
  (set_state r responderSCRAMEmpty, Ok (StepChallenge ($"v=" ++ EncodeToString (HMAC h (ServerKey keys) auth)))).
Proof.
  intros Hh Hp Hg Hb Hf Hn Hk Hc. unfold scramProof.
  assert (forall s, no_byte ","%byte (EncodeToString s) = true) as Enc by (intros; by apply EncodeToString_no).
  rewrite LastIndex_proof by apply Enc.
  rewrite drop_app_add, take_app_length.
  change (drop 3 ($",p=" ++ EncodeToString proof)) with (EncodeToString proof).
  replace (mem_byte ","%byte (EncodeToString proof)) with false.
  2:{ symmetry. specialize (Enc proof). unfold no_byte, mem_byte in *.
      induction (EncodeToString proof) as [|c s IH]; [done|]. cbn in *.
      apply andb_true_iff in Enc as [E1 E2]. rewrite IH by done. apply negb_true_iff in E1.
      destruct (byte_eqb_spec ","%byte c) as [<-|]; [by rewrite byte_eqb_refl in E1|done]. }
  destruct cbind_facts as (Cn & Cc & Cd).
  assert (parseSCRAMFields without = Some (<["r"%byte:=nonce]> (<["c"%byte:=cbind]> ∅))) as ->.
  { apply parseSCRAMFields_two; try done; [apply nonce_nonempty|apply nonce_no_comma]. }
  map_get. rewrite Hn, beq_refl, Cd, Hg, Hp, Hc, beq_refl, DecodeString_EncodeToString, Hk, Hh, Hb, Hf.
  destruct (beq_spec cbind []); [done|]. cbn [negb orb]. rewrite length_proof, Nat.eqb_refl. cbn [negb].
  fold auth. unfold hmacSum, hashSum. unfold proof at 1.
  rewrite xor_cancel by by rewrite !length_HMAC.
  change (Sum h (HMAC h salted ($"Client Key"))) with (StoredKey keys). by rewrite beq_refl.
Qed.

Lemma length_first_message : (maxResponderPayload <? Z.of_nat (length (gs2 ++ bare))) = false.
Proof.
  unfold maxResponderPayload, gs2, bare, fld, scram_gs2. clear - Huser_len Hnc_len.
  rewrite !length_app. cbn [length app].
  pose proof (length_saslName user). destruct plus; cbn [length]; lia.
Qed.

Lemma length_final_message :
  (maxResponderPayload <? Z.of_nat (length (without ++ $",p=" ++ EncodeToString proof))) = false.
Proof.
  unfold maxResponderPayload, without, fld, nonce. rewrite !length_app. cbn [length]. rewrite !length_app. cbn [length].
  pose proof (length_encode encodeStd true proof) as Lp. rewrite length_proof in Lp.
  assert (length cbind <= 2000)%nat as Lc.
  { unfold cbind. clear - Hbind. destruct plus; [|cbn; lia].
    pose proof (length_encode encodeStd true ($"p=tls-exporter,," ++ binding)) as L.
    rewrite length_app in L. cbn [length] in L. unfold EncodeToString.
    assert ((16 + length binding + 2) / 3 <= 400)%nat by (apply Nat.Div0.div_le_upper_bound; lia). lia. }
  unfold EncodeToString in *.
  assert (4 * ((hashSize h + 2) / 3) <= 100)%nat by (clear; by destruct h; cbn; lia). lia.
Qed.

(** The whole conversation, for records that hold the mechanism's parameters. *)
Lemma scram_conversation s r random_s :
  s_hash s = h -> s_plus s = plus -> s_step s = 0%nat -> s_nonce s = nc -> s_firstBare s = bare ->
  Password (s_cfg s) = password -> ChannelBinding (s_cfg s) = binding ->
  r_hash r = h -> r_plus r = plus -> r_state r = responderNew ->
  rc_ChannelBinding (r_cfg r) = binding ->
  rc_testNonce (r_cfg r) = [] -> RawEncodeToString <$> random_s = Some ns ->
  scramFirst r (gs2 ++ bare) = RStart random_s r (Some (gs2 ++ bare)) ->
  converse 6 random_s
    (fun q => if beq (cr_AuthenticationID (vr_Credentials q)) user
              then {| v_Accepted := true; v_FailureChallenge := None; v_Keys := Some keys |}
              else {| v_Accepted := false; v_FailureChallenge := None; v_Keys := None |})
    (Scram s) (RStart random_s r (Some (gs2 ++ bare))) = Some true.
Proof.
  intros Sh Sp Ss Sn Sb Spw Sc Rh Rp Rs Rc Rt Rn HS.
  rewrite <- HS, (client_first_parsed r Rp). cbn [converse verify].
  cbn [vr_Credentials cr_AuthenticationID]. rewrite beq_refl.
  unfold Continue. cbn [r_state r_request set_state set_request vr_Kind v_Accepted v_Keys negb].
  unfold scramServerFirst. cbn [r_hash set_request set_state set_first r_cfg r_combinedNonce].
  rewrite Rh, keys_are_usable, Rt, Rn. cbn [negb beq]. fold nonce. fold first.
  cbn [Next]. rewrite Ss, (client_final s) by done.
  unfold RNext at 1. rewrite length_final_message.
  destruct (beq_spec (without ++ $",p=" ++ EncodeToString proof) ($"*")) as [E|_].
  { apply (f_equal length) in E. rewrite !length_app in E. cbn in E. lia. }
  cbn [r_state set_server_first]. rewrite (server_final) by done.
  cbn [Next set_step s_step s_expected].
  replace (get (parseFields ($"v=" ++ EncodeToString (HMAC h (ServerKey keys) auth))) "v"%byte)
    with (EncodeToString (HMAC h (ServerKey keys) auth)).
  2:{ change ($"v=" ++ EncodeToString (HMAC h (ServerKey keys) auth)) with
        (fld "v"%byte (EncodeToString (HMAC h (ServerKey keys) auth))).
      unfold parseFields. rewrite Split_no by (apply fld_no_comma; [done|by apply EncodeToString_no]).
      cbn [fold_left]. rewrite field_of_fld; [by map_get|]. apply EncodeToString_nonempty.
      intros E. apply (f_equal length) in E. rewrite length_HMAC in E. by destruct h. }
  by rewrite beq_refl.
Qed.

End Scram.

Definition scram_names : list bytes :=
  [$"SCRAM-SHA-1"; $"SCRAM-SHA-1-PLUS"; $"SCRAM-SHA-256"; $"SCRAM-SHA-256-PLUS"].

Definition scram_hash (name : bytes) : hash_alg :=
  if beq name ($"SCRAM-SHA-1") || beq name ($"SCRAM-SHA-1-PLUS") then SHA1 else SHA256.

Lemma raw_nonce b : length b = 18%nat ->
  RawEncodeToString b <> [] /\ no_byte ","%byte (RawEncodeToString b) = true /\
  (length (RawEncodeToString b) <= 1000)%nat.
Proof.
  intros H. split_and!.
  - apply RawEncodeToString_nonempty. by intros ->.
  - by apply RawEncodeToString_no.
  - unfold RawEncodeToString. pose proof (length_encode encodeStd false b) as L. rewrite H in L. cbn in L. lia.
Qed.

(** C15: SCRAM is complete: a client and a responder that run the same SCRAM mechanism (with or without
    channel binding) over any hash functions finish with acceptance, and the client has then checked
    the server's signature, whenever the backend stores the keys derived from the client's password
    with any salt and any iteration count the code admits. *)
Theorem scram_authenticates `{Unicode} `{Crypto} name cfg rcfg m r salt iter random_c random_s :
  In name scram_names -> New name cfg = Some m -> NewResponder name rcfg = Some r ->
  testNonce cfg = [] -> rc_testNonce rcfg = [] -> rc_ChannelBinding rcfg = ChannelBinding cfg ->
  Username cfg <> [] -> (length (Username cfg) <= 1000)%nat -> (length (ChannelBinding cfg) <= 1000)%nat ->
  length random_c = 18%nat -> length random_s = 18%nat ->
  salt <> [] -> 1 <= iter <= maxSCRAMIterations ->
  authenticate (Some random_c) (Some random_s)
    (fun q => if beq (cr_AuthenticationID (vr_Credentials q)) (Username cfg)
              then {| v_Accepted := true; v_FailureChallenge := None;
                      v_Keys := Some (derived (scram_hash name) (Password cfg) salt iter) |}
              else {| v_Accepted := false; v_FailureChallenge := None; v_Keys := None |}) m r = Some true.
Proof.
  intros HN HM HR Tc Tr Cb Hu Hul Hbl Lc Ls Hs Hi.
  destruct (raw_nonce _ Lc) as (N1 & N2 & N3). destruct (raw_nonce _ Ls) as (_ & N5 & N6).
  assert (exists plus, m = Scram {| s_name := ToUpper name; s_cfg := cfg; s_hash := scram_hash name;
      s_plus := plus; s_nonce := []; s_firstBare := []; s_expected := []; s_step := 0 |} /\
    r = {| r_name := ToUpper name; r_cfg := rcfg; r_state := responderNew; r_request := None;
           r_challenge := []; r_username := []; r_hash := scram_hash name; r_plus := plus;
           r_gs2Header := []; r_clientFirst := []; r_serverFirst := []; r_combinedNonce := [];
           r_keys := None |}) as (plus & -> & ->).
  { unfold New, newSCRAM in HM. unfold NewResponder in HR.
    rewrite (ToUpper_ascii name) in * by (destruct HN as [<-|[<-|[<-|[<-|[]]]]]; done).
    destruct HN as [<-|[<-|[<-|[<-|[]]]]]; cbn in HM, HR; repeat case_match; simplify_eq;
      by eexists. }
  unfold authenticate. cbn [Start s_cfg]. rewrite Tc. cbn [beq].
  change (RawEncodeToString <$> Some random_c) with (Some (RawEncodeToString random_c)).
  cbn [s_plus s_name s_hash s_expected s_step]. cbv iota.
  match goal with |- converse _ _ _ (Scram ?s) _ = _ => set (client := s) end.
  pose proof (scram_conversation (scram_hash name) plus (Username cfg) (Password cfg) salt
    (ChannelBinding cfg) (RawEncodeToString random_c) (RawEncodeToString random_s) iter) as P.
  apply P; clear P; try done.
  unfold RStart. cbn [r_state r_name]. cbn [default from_option id].
  rewrite length_first_message by done.
  rewrite (ToUpper_ascii name) in * by (destruct HN as [<-|[<-|[<-|[<-|[]]]]]; done).
  destruct (beq_spec (scram_gs2 plus ++ fld "n"%byte (saslName (Username cfg)) ++
    ","%byte :: fld "r"%byte (RawEncodeToString random_c)) ($"*")) as [E|_]; [by destruct plus|].
  destruct HN as [<-|[<-|[<-|[<-|[]]]]]; done.
Qed.

(** *** Soundness of acceptance *)

Definition is_scram (r : Responder) : bool :=
  negb (existsb (beq (r_name r)) [$"PLAIN"; $"LOGIN"; $"CRAM-MD5"; $"EXTERNAL"; $"OAUTHBEARER"; $"XOAUTH2"]).

(** A client proof for the keys the backend supplied: it reveals a preimage of the stored key. *)
Definition proven `{Crypto} (h : hash_alg) (keys : SCRAMKeys) (first : bytes) : Prop :=
  exists proof clientFirst withoutProof,
    hashSum h (xor proof (hmacSum h (StoredKey keys) (clientFirst ++ $"," ++ first ++ $"," ++ withoutProof)))
      = StoredKey keys.

(** The last answer was an acceptance that supplied the responder's keys. *)
Definition keys_accepted (r : Responder) (v : option Verification) (keys : SCRAMKeys) : Prop :=
  exists a, v = Some a /\ v_Accepted a = true /\ v_Keys a = Some keys /\ r_keys r = Some keys.

Definition responder_inv `{Crypto} (r : Responder) (v : option Verification) : Prop :=
  match r_state r with
  | responderVerify =>
      forall q, r_request r = Some q -> vr_Kind q = VerifySCRAMKeys \/ is_scram r = false
  | responderSCRAMProof => exists keys, keys_accepted r v keys
  | responderSCRAMEmpty =>
      exists keys, keys_accepted r v keys /\ proven (r_hash r) keys (r_serverFirst r)
  | responderDone | responderNew | responderSCRAMFirst => True
  | _ => is_scram r = false
  end.

Lemma verify_inv `{Crypto} r v q :
  vr_Kind q = VerifySCRAMKeys \/ is_scram r = false ->
  responder_inv (fst (verify r q)) v.
Proof. intros Hq. unfold responder_inv, verify. cbn. intros q' [= <-]. exact Hq. Qed.

Ltac solve_reaction :=
  match goal with
  | H : verify ?r ?q = (?r', ?res) |- _ =>
      let E := fresh in assert (r' = fst (verify r q)) as E by (by rewrite H); subst r';
      apply verify_inv; cbn; auto
  | H : finish _ _ = _ |- _ => injection H as <- <-; exact I
  | H : to_state _ _ _ = _ |- _ => injection H as <- <-; cbn; auto
  | H : (_, _) = (_, _) |- _ => injection H as <- <-; cbn; auto
  end.

Lemma plain_response_inv `{Crypto} r v payload r' res :
  is_scram r = false -> responder_inv r v -> plain_response r payload = (r', res) -> responder_inv r' v.
Proof. intros S I E. unfold plain_response in E. repeat case_match; solve_reaction. Qed.

Lemma oauth_inv `{Crypto} r v payload r' res :
  is_scram r = false -> responder_inv r v -> oauth r payload = (r', res) -> responder_inv r' v.
Proof. intros S I E. unfold oauth in E. repeat case_match; solve_reaction. Qed.

Lemma scramFirst_inv `{Crypto} r v payload r' res :
  responder_inv r v -> scramFirst r payload = (r', res) -> responder_inv r' v.
Proof. intros I E. unfold scramFirst in E. repeat case_match; solve_reaction. Qed.

Lemma scramProof_inv `{Crypto} r v payload r' res :
  r_state r = responderSCRAMProof -> responder_inv r v -> scramProof r payload = (r', res) ->
  responder_inv r' v.
Proof.
  intros HS Inv E. unfold scramProof in E.
  repeat match type of E with context [match ?x with _ => _ end] => destruct x eqn:? end;
    try solve [solve_reaction].
  unfold responder_inv in *. rewrite HS in Inv. destruct Inv as (keys & K).
  injection E as <- <-. cbn.
  destruct K as (a & Ha & Acc & Hk & Hr). assert (keys = s) as <- by congruence.
  exists keys. split; [by exists a|]. eexists _, _, _.
  match goal with H : negb (beq ?x (StoredKey keys)) = false |- _ =>
    apply negb_false_iff in H; by destruct (beq_spec x (StoredKey keys)) end.
Qed.

Lemma is_scram_set_state r st : is_scram (set_state r st) = is_scram r. Proof. done. Qed.

Lemma RStart_inv `{Crypto} r v random initial r' res :
  responder_inv r v -> RStart random r initial = (r', res) -> responder_inv r' v.
Proof.
  intros Inv E. unfold RStart in E. destruct (r_state r) eqn:HS; try by injection E as <- <-.
  do 2 (case_match; [solve_reaction|]).
  destruct (is_scram r) eqn:S.
  - unfold is_scram in S. cbn [existsb] in S. btrue.
    repeat match goal with Hn : beq _ _ = false |- _ => rewrite Hn in E; clear Hn end. cbn [orb] in E.
    case_match; [by eapply scramFirst_inv|]. by injection E as <- <-.
  - repeat case_match; first [by eapply plain_response_inv | by eapply oauth_inv | by eapply scramFirst_inv
      | unfold external_response in E; solve [solve_reaction] | solve [solve_reaction]].
Qed.

Lemma RNext_inv `{Crypto} r v response r' res :
  responder_inv r v -> RNext r response = (r', res) -> responder_inv r' v.
Proof.
  intros Inv E. unfold RNext in E. do 2 (case_match; [solve_reaction|]).
  pose proof Inv as Inv'. unfold responder_inv in Inv'.
  destruct (r_state r) eqn:HS; try by injection E as <- <-.
  all: try solve [by eapply plain_response_inv | by eapply oauth_inv | by eapply scramFirst_inv
    | by eapply scramProof_inv | unfold external_response in E; solve_reaction
    | repeat case_match; solve_reaction].
Qed.

Lemma Continue_inv `{Crypto} r v random answer r' res :
  r_state r = responderVerify -> responder_inv r v -> Continue random r answer = (r', res) ->
  responder_inv r' (Some answer).
Proof.
  intros HS Inv E. unfold Continue in E. unfold responder_inv in Inv. rewrite HS in E, Inv.
  destruct (r_request r) as [q|] eqn:HQ.
  2:{ injection E as <- <-. unfold responder_inv. rewrite HS. intros q. congruence. }
  specialize (Inv q eq_refl).
  assert (forall r0 res, (set_request r None, res : result sasl_err ResponderStep) = (r', r0) ->
    responder_inv r' (Some answer)) as Same.
  { intros r0 res0 [= <- _]. unfold responder_inv. cbn. rewrite HS. done. }
  destruct (vr_Kind q).
  1-2: destruct Inv as [|S]; [done|]; repeat case_match; try solve [solve_reaction].
  destruct (v_Accepted answer) eqn:Acc; cbn [negb] in E; [|solve_reaction].
  destruct (v_Keys answer) as [keys|] eqn:HK; [|by eapply Same].
  unfold scramServerFirst in E. case_match; [by eapply Same|]. case_match; [|by eapply Same].
  injection E as <- <-. cbn. exists keys, answer. by split_and!.
Qed.

Lemma accepts_next `{Crypto} r v response r' :
  responder_inv r v -> RNext r response = (r', Ok (StepDone true)) ->
  exists keys, keys_accepted r v keys /\ proven (r_hash r) keys (r_serverFirst r).
Proof.
  intros Inv E. unfold RNext in E. do 2 (case_match; [done|]). unfold responder_inv in Inv.
  destruct (r_state r); try done; unfold plain_response, external_response, oauth, scramFirst, scramProof,
    verify, finish, to_state in E; repeat case_match; done.
Qed.

Lemma accepts_continue `{Crypto} r v random answer r' :
  r_state r = responderVerify -> responder_inv r v ->
  Continue random r answer = (r', Ok (StepDone true)) -> v_Accepted answer = true /\ is_scram r = false.
Proof.
  intros HS Inv E. unfold Continue in E. unfold responder_inv in Inv. rewrite HS in E, Inv.
  destruct (r_request r) as [q|] eqn:HQ; [|done]. specialize (Inv q eq_refl).
  unfold scramServerFirst, finish, to_state in E.
  destruct (vr_Kind q); repeat case_match; simplify_eq/=; destruct Inv; try done.
Qed.

Lemma accepts_start `{Crypto} r random initial r' : RStart random r initial <> (r', Ok (StepDone true)).
Proof.
  intros E. unfold RStart, plain_response, external_response, oauth, scramFirst, verify, to_state in E.
  repeat case_match; done.
Qed.

(** *** Delivery of credentials *)

(** The conversation up to the first verification request. *)
Fixpoint to_verification `{Crypto} (fuel : nat) (m : Mechanism) (s : reaction) : option VerificationRequest :=
  match fuel with
  | O => None
  | S fuel' =>
      match s with
      | (_, Ok (StepVerification q)) => Some q
      | (r, Ok (StepChallenge c)) =>
          match Next m c with
          | (m', Some (response, _)) => to_verification fuel' m' (RNext r response)
          | (_, None) => None
          end
      | _ => None
      end
  end.

Definition requested `{Crypto} (random : option bytes) (m : Mechanism) (r : Responder) :
    option VerificationRequest :=
  match Start random m with
  | (m', Some initial) => to_verification 4 m' (RStart random r initial)
  | (_, None) => None
  end.

(** The credentials a mechanism is to deliver, and when its message can carry them. *)
Definition delivered (name : bytes) (cfg : Config) : Credentials :=
  let c a z p t := {| cr_AuthenticationID := a; cr_AuthorizationID := z; cr_Password := p; cr_Token := t |} in
  if beq name ($"PLAIN") then c (Username cfg) (AuthorizationID cfg) (Password cfg) []
  else if beq name ($"LOGIN") then c (Username cfg) [] (Password cfg) []
  else if beq name ($"EXTERNAL") then c [] (AuthorizationID cfg) [] []
  else if beq name ($"OAUTHBEARER")
  then c [] (if beq (AuthorizationID cfg) [] then Username cfg else AuthorizationID cfg) [] (Token cfg)
  else c (Username cfg) [] [] (Token cfg).

Definition short (s : bytes) : Prop := (length s <= 1000)%nat.

Definition deliverable (name : bytes) (cfg : Config) : Prop :=
  short (Username cfg) /\ short (Password cfg) /\ short (AuthorizationID cfg) /\ short (Token cfg) /\
  if beq name ($"PLAIN") then
    Username cfg <> [] /\ no_byte x00 (Username cfg ++ AuthorizationID cfg ++ Password cfg) = true
  else if beq name ($"LOGIN") then Username cfg <> [] /\ Username cfg <> $"*" /\ Password cfg <> $"*"
  else if beq name ($"EXTERNAL") then AuthorizationID cfg <> $"*"
  else
    Token cfg <> [] /\ no_byte x01 (Username cfg ++ AuthorizationID cfg ++ Token cfg) = true /\
    (beq name ($"XOAUTH2") = true -> Username cfg <> []).

Lemma saslName_no c v : c <> "="%byte -> c <> "2"%byte -> c <> "C"%byte -> c <> "3"%byte -> c <> "D"%byte ->
  no_byte c v = true -> no_byte c (saslName v) = true.
Proof.
  intros N1 N2 N3 N4 N5. unfold saslName. induction v as [|d v IH]; [done|].
  intros [H1 H2]%andb_true_iff. cbn [map concat]. rewrite no_byte_app, IH, andb_true_r by exact H2.
  destruct (d =b "="%byte); [|destruct (d =b ","%byte)].
  3:{ cbn. by rewrite H1. }
  all: assert (forall e, c <> e -> negb (e =b c) = true) as N
    by (intros e Ne; destruct (byte_eqb_spec e c) as [->|]; done).
  all: cbn [no_byte forallb]; by rewrite !N.
Qed.

Lemma short_fits (s : bytes) : (length s <= 4999)%nat -> (maxResponderPayload <? Z.of_nat (length s)) = false.
Proof. unfold maxResponderPayload. lia. Qed.

Definition fresh_responder (name : bytes) (cfg : ResponderConfig) : Responder :=
  {| r_name := name; r_cfg := cfg; r_state := responderNew; r_request := None; r_challenge := [];
     r_username := []; r_hash := MD5; r_plus := false; r_gs2Header := []; r_clientFirst := [];
     r_serverFirst := []; r_combinedNonce := []; r_keys := None |}.

Lemma plain_delivered r authz user password :
  user <> [] -> no_byte x00 authz = true -> no_byte x00 user = true -> no_byte x00 password = true ->
  plain_response r (authz ++ x00 :: user ++ x00 :: password) =
  verify r (credentials_request r {| cr_AuthenticationID := user; cr_AuthorizationID := authz;
                                     cr_Password := password; cr_Token := [] |}).
Proof.
  intros N Hz Hu Hp. unfold plain_response. rewrite !Split_app, Split_no by done.
  by destruct (beq_spec user []).
Qed.

(** The two parts of an OAuth message. *)
Lemma oauth_parts_two p q :
  no_byte x01 p = true -> no_byte x01 q = true ->
  oauth_parts (p ++ x01 :: (q ++ [x01; x01])) = Some [p; q].
Proof.
  intros Hp Hq. unfold oauth_parts. rewrite !Split_app by done. done.
Qed.

Lemma bearer_part_no token : no_byte x01 token = true -> no_byte x01 ($"auth=Bearer " ++ token) = true.
Proof. intros H. rewrite no_byte_app, H. done. Qed.

Lemma parseOAuthGS2_sent a : parseOAuthGS2 ($"n,a=" ++ saslName a ++ $",") = Some a.
Proof.
  set (rest := $"a=" ++ saslName a ++ $",").
  change ($"n,a=" ++ saslName a ++ $",") with ($"n," ++ rest). unfold parseOAuthGS2.
  rewrite HasPrefix_app, TrimPrefix_app.
  assert (HasSuffix ($"n," ++ rest) ($",") = true) as ->.
  { replace ($"n," ++ rest) with (($"n,a=" ++ saslName a) ++ $",") by (by rewrite <- app_assoc).
    apply HasSuffix_app. }
  assert (TrimSuffix rest ($",") = $"a=" ++ saslName a) as ->.
  { unfold rest. rewrite app_assoc. apply TrimSuffix_app. }
  change (match ($"a=" ++ saslName a) with [] => Some [] | _ :: _ =>
    if HasPrefix ($"a=" ++ saslName a) ($"a=") then decodeSASLName (TrimPrefix ($"a=" ++ saslName a) ($"a="))
    else None end = Some a).
  rewrite HasPrefix_app, TrimPrefix_app. apply decodeSASLName_saslName.
Qed.

Lemma parseOAuthBearer_sent a token :
  token <> [] -> no_byte x01 a = true -> no_byte x01 token = true ->
  parseOAuthBearer ($"n,a=" ++ saslName a ++ $"," ++ x01 :: bearer token) =
  Some {| cr_AuthenticationID := []; cr_AuthorizationID := a; cr_Password := []; cr_Token := token |}.
Proof.
  intros N Ha Ht. unfold parseOAuthBearer, bearer.
  rewrite (app_assoc ($"auth=Bearer ") token).
  replace ($"n,a=" ++ saslName a ++ $"," ++ x01 :: ($"auth=Bearer " ++ token) ++ [x01; x01])
    with (($"n,a=" ++ saslName a ++ $",") ++ x01 :: ($"auth=Bearer " ++ token) ++ [x01; x01])
    by by rewrite <- !app_assoc.
  rewrite oauth_parts_two; [|rewrite !no_byte_app; by rewrite saslName_no|by apply bearer_part_no].
  rewrite parseOAuthGS2_sent. unfold bearer_token. cbn [fold_left].
  rewrite HasPrefix_app, TrimPrefix_app. by destruct (beq_spec token []).
Qed.

Lemma parseXOAuth2_sent user token :
  user <> [] -> token <> [] -> no_byte x01 user = true -> no_byte x01 token = true ->
  parseXOAuth2 ($"user=" ++ user ++ x01 :: bearer token) =
  Some {| cr_AuthenticationID := user; cr_AuthorizationID := []; cr_Password := []; cr_Token := token |}.
Proof.
  intros Nu Nt Hu Ht. unfold parseXOAuth2, bearer.
  rewrite (app_assoc ($"auth=Bearer ") token), (app_assoc ($"user=") user).
  rewrite oauth_parts_two; [|by rewrite no_byte_app, Hu|by apply bearer_part_no].
  cbn [fold_left]. unfold user_prefix, bearer_prefix. rewrite HasPrefix_app, TrimPrefix_app.
  replace (HasPrefix ($"auth=Bearer " ++ token) ($"user=")) with false by done.
  rewrite HasPrefix_app, TrimPrefix_app.
  destruct (beq_spec user []); [done|]. by destruct (beq_spec token []).
Qed.

Definition credential_names : list bytes := [$"PLAIN"; $"LOGIN"; $"EXTERNAL"; $"OAUTHBEARER"; $"XOAUTH2"].

(** the credential mechanisms deliver: when a client and a responder run PLAIN, LOGIN, EXTERNAL,
    OAUTHBEARER or XOAUTH2 against each other, the request the backend is asked to verify carries
    exactly the identities and secrets of the client's configuration, for every configuration the
    mechanism's message can carry (no separator bytes inside, the mandatory parts present). *)
Theorem credentials_delivered `{Unicode} `{Crypto} name cfg rcfg m r random :
  In name credential_names -> New name cfg = Some m -> NewResponder name rcfg = Some r ->
  deliverable name cfg ->
  requested random m r =
  Some {| vr_Kind := VerifyCredentials; vr_Mechanism := name; vr_Credentials := delivered name cfg;
          vr_Challenge := []; vr_Response := [] |}.
Proof.
  intros HN HM HR (Lu & Lp & Lz & Lt & HD). unfold short in *.
  unfold New in HM. unfold NewResponder in HR.
  rewrite (ToUpper_ascii name) in * by (repeat (destruct HN as [<-|HN]; [done|]); done).
  repeat (destruct HN as [<-|HN]); [..|done]; cbn in HM, HR, HD; injection HM as <-; injection HR as <-;
    unfold requested, delivered; cbn [Start to_verification beq Byte.eqb andb orb].
  - destruct HD as [N HD]. rewrite !no_byte_app in HD. btrue.
    unfold RStart. cbn [r_state r_name default from_option id]. rewrite short_fits.
    2:{ rewrite !length_app. cbn [length]. rewrite length_app. cbn [length]. lia. }
    rewrite plain_delivered by done.
    match goal with |- context [beq ?x ["*"%byte]] => destruct (beq_spec x ["*"%byte]) as [E|_] end; [|done].
    apply (f_equal length) in E. rewrite !length_app in E. cbn [length] in E. rewrite length_app in E.
    cbn [length] in E. lia.
  - destruct HD as (N & N1 & N2). unfold RStart. cbn [r_state r_name default from_option id length Next].
    change (maxResponderPayload <? Z.of_nat 0) with false. cbv iota. cbn [beq].
    unfold to_state at 1. cbn [Next]. unfold RNext at 1.
    destruct (beq_spec (Username cfg) ($"*")); [done|]. rewrite short_fits by lia.
    destruct (Username cfg) eqn:EU; [done|]. cbn [r_state set_state to_state set_username Next].
    unfold RNext. destruct (beq_spec (Password cfg) ($"*")); [done|]. rewrite short_fits by lia.
    done.
  - unfold RStart. cbn [r_state r_name default from_option id]. rewrite short_fits by lia.
    by destruct (beq_spec (AuthorizationID cfg) ($"*")).
  - destruct HD as (N & HD & _). rewrite !no_byte_app in HD. btrue.
    set (a := if beq (AuthorizationID cfg) [] then Username cfg else AuthorizationID cfg).
    assert (no_byte x01 a = true /\ (length a <= 1000)%nat) as [Ha La] by (unfold a; by case_match).
    unfold RStart. cbn [r_state r_name default from_option id]. rewrite short_fits.
    2:{ pose proof (length_saslName a). unfold bearer. rewrite !length_app. cbn [length].
        rewrite !length_app. cbn [length]. lia. }
    unfold oauth. cbn [r_name beq Byte.eqb andb orb]. rewrite parseOAuthBearer_sent by done. done.
  - destruct HD as (N & HD & NU). specialize (NU eq_refl). rewrite !no_byte_app in HD. btrue.
    unfold RStart. cbn [r_state r_name default from_option id]. rewrite short_fits.
    2:{ unfold bearer. rewrite !length_app. cbn [length]. rewrite !length_app. cbn [length]. lia. }
    unfold oauth. cbn [r_name beq Byte.eqb andb orb]. rewrite parseXOAuth2_sent by done. done.
Qed.

(** *** Concrete exchanges *)

(** Hash functions with the right sizes, to run the mechanisms on. *)
Definition padded (n : nat) (x : bytes) : bytes := take n (x ++ repeat x00 n).

Definition toy_crypto : Crypto.
Proof.
  refine {| Sum := fun h x => padded (hashSize h) (rev x);
            HMAC := fun h k x => padded (hashSize h) (x00 :: k ++ x) |};
    intros; unfold padded; rewrite length_take, length_app, repeat_length; lia.
Defined.

Definition sample_config : Config :=
  {| Username := $"al=ice,x"; Password := $"secret"; AuthorizationID := []; Token := $"tok";
     ChannelBinding := $"tls-exporter-bytes"; testNonce := [] |}.

Definition sample_responder : ResponderConfig :=
  {| rc_Hostname := $"mx.example"; rc_CRAMChallenge := None; rc_ChannelBinding := $"tls-exporter-bytes";
     rc_testNonce := [] |}.

Definition eighteen : bytes := $"0123456789abcdefgh".

Lemma scram_authenticates_witness :
  exists m r, @New ascii_only_unicode ($"scram-sha-256-plus") sample_config = Some m /\
    @NewResponder ascii_only_unicode ($"scram-sha-256-plus") sample_responder = Some r /\
    @authenticate toy_crypto (Some eighteen) (Some eighteen)
    (fun q => if beq (cr_AuthenticationID (vr_Credentials q)) ($"al=ice,x")
              then {| v_Accepted := true; v_FailureChallenge := None;
                      v_Keys := Some (@derived toy_crypto SHA256 ($"secret") ($"salt") 3) |}
              else {| v_Accepted := false; v_FailureChallenge := None; v_Keys := None |}) m r = Some true.
Proof.
  eexists _, _. split; [reflexivity|]. split; [reflexivity|].
  refine (@scram_authenticates ascii_only_unicode toy_crypto ($"SCRAM-SHA-256-PLUS") sample_config
    sample_responder _ _ ($"salt") 3 eighteen eighteen _ _ _ _ _ _ _ _ _ _ _ _ _);
    [cbn; tauto|reflexivity|reflexivity|reflexivity|reflexivity|reflexivity|discriminate|cbn; lia|cbn; lia
    |reflexivity|reflexivity|discriminate|unfold maxSCRAMIterations; lia].
Defined.

Lemma credentials_delivered_witness :
  exists m r, @New ascii_only_unicode ($"OAUTHBEARER") sample_config = Some m /\
    @NewResponder ascii_only_unicode ($"OAUTHBEARER") sample_responder = Some r /\
    @requested toy_crypto None m r =
      Some {| vr_Kind := VerifyCredentials; vr_Mechanism := $"OAUTHBEARER";
              vr_Credentials := {| cr_AuthenticationID := []; cr_AuthorizationID := $"al=ice,x";
                                   cr_Password := []; cr_Token := $"tok" |};
              vr_Challenge := []; vr_Response := [] |}.
Proof.
  eexists _, _. split; [reflexivity|]. split; [reflexivity|].
  refine (@credentials_delivered ascii_only_unicode toy_crypto ($"OAUTHBEARER") sample_config
    sample_responder _ _ None _ _ _ _); [cbn; tauto|reflexivity|reflexivity|].
  unfold deliverable, short. cbn. split_and!; try lia; try discriminate; reflexivity.
Defined.

(** a decoded response of one asterisk is taken for the cancellation of the exchange, whatever the
    mechanism: a LOGIN client whose password is "*" sends it base64-encoded, and the responder aborts
    instead of asking the backend. *)
Theorem asterisk_password_aborts `{Unicode} `{Crypto} cfg rcfg r random :
  NewResponder ($"LOGIN") rcfg = Some r -> Username cfg = $"user" -> Password cfg = $"*" ->
  requested random (login cfg 0) r = None /\
  exists r1, RNext r1 (Password cfg) = (set_state r1 responderDone, Err ErrResponderAborted) /\
             r_state r1 = responderLoginPassword.
Proof.
  intros HR HU HP. unfold NewResponder in HR. rewrite ToUpper_ascii in HR by done. cbn in HR.
  injection HR as <-. split.
  - unfold requested. cbn. rewrite HU. cbn. by rewrite HP.
  - exists (set_state (fresh_responder ($"LOGIN") rcfg) responderLoginPassword). by rewrite HP.
Qed.

Lemma asterisk_password_aborts_witness :
  exists r1, @RNext toy_crypto r1 ($"*") = (set_state r1 responderDone, Err ErrResponderAborted) /\
             r_state r1 = responderLoginPassword.
Proof.
  refine (proj2 (@asterisk_password_aborts ascii_only_unicode toy_crypto
    {| Username := $"user"; Password := $"*"; AuthorizationID := []; Token := []; ChannelBinding := [];
       testNonce := [] |} sample_responder (fresh_responder ($"LOGIN") sample_responder) None _ _ _));
    reflexivity.
Defined.

End SaslFacts.
