(* ===== verification/SaslAccept.v ===== *)
(** * smtpsasl/responder.go: what an acceptance of the responder rests on

    The calls made on one responder are a list, run in order ([history]), each with what it returned.
    Here: a responder that accepts has been told so by the backend, on a request it made for the
    identity the client named; with SCRAM, besides, the client's own messages in that list carry its
    nonce, the responder's nonce, the channel binding and the proof for the keys of that answer. The
    messages are described field by field, not by the code's parsers. *)
From Stdlib Require Import ZArith Lia Bool.
From stdpp Require Import base list gmap strings.
From S2P Require Import Prelude GoStrings Base64 Sasl.
Import smtpsasl SaslFacts.

Module SaslAccept.

(** ** Conversations *)






(** ** What RFC 5802 asks of the client's messages *)




(** ** The parsers against that description *)








(** ** The steps of a SCRAM responder *)

(** What the responder was made with. *)
Definition same_setup (r r' : Responder) : Prop :=
  r_name r' = r_name r /\ r_cfg r' = r_cfg r /\ r_hash r' = r_hash r /\ r_plus r' = r_plus r.




(** ** What an accepted SCRAM exchange consists of *)




Section Steps.
Context `{Crypto}.


Lemma same_setup_refl r : same_setup r r.
Proof. done. Qed.









(** ** The other mechanisms *)










End Steps.


(** ** A whole exchange *)


#[local] Existing Instances ascii_only_unicode toy_crypto.




End SaslAccept.
