(* ===== verification/Wire.v ===== *)
(** * internal/smtpwire: errors, limits and the command and parameter encoders

    [wire_err] is the package's sentinel errors; context added with [fmt.Errorf("%w ...")] keeps
    the sentinel and is not represented. [Limits] is reply.go's record of bounds. The encoders of
    encoder.go write to their [io.Writer] exactly once, after every check, so each is a function
    from its arguments to the bytes of that one write or to the error returned instead of it. *)
From Stdlib Require Import ZArith Lia Bool.
From stdpp Require Import base list gmap strings.
From S2P Require Import Prelude GoStrings.

(** ** Sentinel errors of the package *)
Inductive wire_err : Type :=
(* encoder.go *)
| ErrInvalidCommandToken | ErrEmptyKeyword | ErrInvalidKeyword | ErrInvalidParamValue
| ErrXtextTruncatedEscape | ErrXtextInvalidEscape | ErrXtextInvalidChar
(* reply.go *)
| ErrReplyLineTooLong | ErrTooManyReplyLines | ErrReplyTooLarge | ErrReplyLineTooShort
| ErrReplyCodeSyntax | ErrReplyCodeMismatch
(* reply_encoder.go *)
| ErrReplyEncodeCode | ErrReplyEncodeText | ErrEnhancedCodeSyntax | ErrEnhancedClassMismatch
(* command_decoder.go *)
| ErrCommandLineTooLong | ErrCommandBareLF | ErrCommandEmpty | ErrCommandVerbSyntax
| ErrCommandArgumentControl
(* bdat.go *)
| ErrBDATChunkTooLarge | ErrBDATSizeOverflow | ErrBDATShortSource | ErrBDATCommandSyntax
(* dotstuff.go *)
| ErrMalformedTerminator | ErrBareLFTerminator | ErrWriterClosed
(* ehlo.go, hello.go *)
| ErrEHLOEmpty | ErrEHLOEmptyKeyword | ErrHelloVerb | ErrHelloArgument | ErrEHLOEncode
(* path.go *)
| ErrPathPrefix | ErrPathSyntax | ErrPathTooLong | ErrPathUTF8Required | ErrNullForwardPath
| ErrPathParameter
(* received.go *)
| ErrReceivedField | ErrReceivedState
(* an error of the underlying transport *)
| ErrIO (e : ioerr).

#[global] Instance wire_err_eq_dec : EqDecision wire_err.
Proof. solve_decision. Defined.

(** ** reply.go: Limits *)

Record Limits : Type := {
  MaxReplyLineLength : Z;
  MaxReplyLines : Z;
  MaxReplySize : Z;
  MaxBDATChunkSize : Z;
  MaxCommandLineLength : Z;
  MaxSASLResponseLength : Z
}.

Definition DefaultLimits : Limits := {|
  MaxReplyLineLength := 8192;
  MaxReplyLines := 1000;
  MaxReplySize := Z.shiftl 1 20;
  MaxBDATChunkSize := Z.shiftl 64 20;
  MaxCommandLineLength := 4096;
  MaxSASLResponseLength := Z.shiftl 32 10
|}.

(** The zero value [Limits{}]. *)
Definition ZeroLimits : Limits := {|
  MaxReplyLineLength := 0; MaxReplyLines := 0; MaxReplySize := 0;
  MaxBDATChunkSize := 0; MaxCommandLineLength := 0; MaxSASLResponseLength := 0
|}.

Definition withDefaults (l : Limits) : Limits :=
  let pick v d := if v <=? 0 then d else v in {|
  MaxReplyLineLength := pick (MaxReplyLineLength l) (MaxReplyLineLength DefaultLimits);
  MaxReplyLines := pick (MaxReplyLines l) (MaxReplyLines DefaultLimits);
  MaxReplySize := pick (MaxReplySize l) (MaxReplySize DefaultLimits);
  MaxBDATChunkSize := pick (MaxBDATChunkSize l) (MaxBDATChunkSize DefaultLimits);
  MaxCommandLineLength := pick (MaxCommandLineLength l) (MaxCommandLineLength DefaultLimits);
  MaxSASLResponseLength := pick (MaxSASLResponseLength l) (MaxSASLResponseLength DefaultLimits)
|}.

(** ** reply.go: LineReader *)

(** The reader of a connection: the bytes still to come and the error the transport reports after
    them. A read deadline that expires is [ErrTimeout] at the end of the bytes received by then. *)
Record LineReader : Type := { unread : bytes; final : ioerr }.

Definition normalizeReadErr (e : ioerr) : ioerr :=
  match e with EOF => ErrUnexpectedEOF | e => e end.

(** ** encoder.go: commands *)

Definition validateCommandToken (s : bytes) : option wire_err :=
  fail_if (existsb is_ctl s) ErrInvalidCommandToken.

(** The bytes [EncodeCommand] writes. *)
Definition EncodeCommand (verb : bytes) (args : list bytes) : result wire_err bytes :=
  check validateCommandToken verb then
  check first_err validateCommandToken args then
  Ok (verb ++ concat (map (fun a => SP :: a) args) ++ CRLF).

(** ** encoder.go: esmtp parameters *)

Record Param : Type := { Keyword : bytes; Value : bytes }.

Definition validateKeyword (kw : bytes) : option wire_err :=
  match kw with
  | [] => Some ErrEmptyKeyword
  | c :: rest =>
      if negb (is_alnum c) then Some ErrInvalidKeyword
      else fail_if (existsb (fun d => negb (is_alnum d) && negb (d =b "-"%byte)) rest)
             ErrInvalidKeyword
  end.

Definition validateESMTPValue (v : bytes) : option wire_err :=
  match v with
  | [] => Some ErrInvalidParamValue
  | _ => fail_if (existsb (fun c => (bz c <? 33) || (126 <? bz c) || (c =b "="%byte)) v)
           ErrInvalidParamValue
  end.

Definition EncodeParam (p : Param) : result wire_err bytes :=
  check validateKeyword (Keyword p) then
  match Value p with
  | [] => Ok (Keyword p)
  | v => check validateESMTPValue v then Ok (Keyword p ++ "="%byte :: v)
  end.

(** ** encoder.go: xtext *)

Definition xtextHexDigits : bytes := $"0123456789ABCDEF".

Definition hex_at (n : Z) : byte := nth (Z.to_nat n) xtextHexDigits x00.

Definition EncodeXtext_byte (c : byte) : bytes :=
  if (c =b "+"%byte) || (c =b "="%byte) || (bz c <? 33) || (126 <? bz c)
  then ["+"%byte; hex_at (Z.shiftr (bz c) 4); hex_at (Z.land (bz c) 15)]
  else [c].

Definition EncodeXtext (raw : bytes) : bytes := concat (map EncodeXtext_byte raw).

Definition XtextParam (keyword rawValue : bytes) : Param :=
  {| Keyword := keyword; Value := EncodeXtext rawValue |}.

Definition hexVal (c : byte) : option Z :=
  if in_range "0"%byte "9"%byte c then Some (bz c - 48)
  else if in_range "A"%byte "F"%byte c then Some (bz c - 65 + 10)
  else if in_range "a"%byte "f"%byte c then Some (bz c - 97 + 10)
  else None.

Fixpoint DecodeXtext (s : bytes) : result wire_err bytes :=
  match s with
  | [] => Ok []
  | c :: s' =>
      if c =b "+"%byte then
        match s' with
        | h :: l :: s'' =>
            match hexVal h, hexVal l with
            | Some hi, Some lo =>
                let? rest := DecodeXtext s'' in
                Ok (zb (Z.lor (Z.shiftl hi 4) lo) :: rest)
            | _, _ => Err ErrXtextInvalidEscape
            end
        | _ => Err ErrXtextTruncatedEscape
        end
      else if (bz c <? 33) || (126 <? bz c) then Err ErrXtextInvalidChar
      else let? rest := DecodeXtext s' in Ok (c :: rest)
  end.

(** ** Lemmas *)

Lemma withDefaults_positive l :
  0 < MaxReplyLineLength (withDefaults l) /\ 0 < MaxReplyLines (withDefaults l) /\
  0 < MaxReplySize (withDefaults l) /\ 0 < MaxBDATChunkSize (withDefaults l) /\
  0 < MaxCommandLineLength (withDefaults l) /\ 0 < MaxSASLResponseLength (withDefaults l).
Proof.
  unfold withDefaults, DefaultLimits. cbn -[Z.leb].
  split_and!; case_match; (reflexivity || lia).
Qed.

Lemma withDefaults_idem l : withDefaults (withDefaults l) = withDefaults l.
Proof.
  pose proof (withDefaults_positive l) as (?&?&?&?&?&?).
  unfold withDefaults at 1.
  repeat match goal with |- context [?a <=? 0] => destruct (Z.leb_spec a 0); [lia|] end.
  by destruct (withDefaults l).
Qed.

Lemma validateCommandToken_None s : validateCommandToken s = None <-> existsb is_ctl s = false.
Proof. unfold validateCommandToken, fail_if. by destruct (existsb is_ctl s). Qed.

Lemma validateESMTPValue_None v :
  validateESMTPValue v = None <->
  v <> [] /\ forallb (fun c => is_graph c && negb (c =b "="%byte)) v = true.
Proof.
  unfold validateESMTPValue, fail_if. destruct v as [|c v]; [naive_solver|].
  assert (forall s, existsb (fun c => (bz c <? 33) || (126 <? bz c) || (c =b "="%byte)) s =
    negb (forallb (fun c => is_graph c && negb (c =b "="%byte)) s)) as ->.
  { induction s as [|d s IH]; cbn -[Z.ltb Z.leb Byte.eqb]; [done|]. rewrite IH.
    unfold is_graph.
    destruct (d =b "="%byte), (Z.ltb_spec (bz d) 33), (Z.ltb_spec 126 (bz d)),
      (Z.leb_spec 33 (bz d)), (Z.leb_spec (bz d) 126); simpl; try lia; done. }
  destruct (forallb _ (c :: v)); cbn; naive_solver.
Qed.

Lemma validateKeyword_None kw :
  validateKeyword kw = None ->
  kw <> [] /\ forallb (fun c => is_alnum c || (c =b "-"%byte)) kw = true.
Proof.
  unfold validateKeyword, fail_if. destruct kw as [|c kw]; [done|].
  destruct (is_alnum c) eqn:Hc; simpl; [|done].
  destruct (existsb _ kw) eqn:E; [done|]. intros _. split; [done|].
  rewrite Hc. simpl. apply forallb_forall. intros d Hd.
  destruct (is_alnum d || (d =b "-"%byte)) eqn:Ed; [done|].
  apply orb_false_iff in Ed as [E1 E2].
  rewrite <- not_true_iff_false in E. exfalso. apply E.
  apply existsb_exists. exists d. by rewrite E1, E2.
Qed.

Lemma keyword_byte_graph c : is_alnum c || (c =b "-"%byte) = true -> is_graph c = true.
Proof. unfold is_alnum, is_upper, is_lower, is_digit, in_range, is_graph. blia. Qed.

(** *** Hexadecimal escapes *)

Lemma xtext_escape_hex c :
  hexVal (hex_at (Z.shiftr (bz c) 4)) = Some (Z.shiftr (bz c) 4) /\
  hexVal (hex_at (Z.land (bz c) 15)) = Some (Z.land (bz c) 15) /\
  zb (Z.lor (Z.shiftl (Z.shiftr (bz c) 4) 4) (Z.land (bz c) 15)) = c /\
  is_graph (hex_at (Z.shiftr (bz c) 4)) && negb (hex_at (Z.shiftr (bz c) 4) =b "="%byte) = true /\
  is_graph (hex_at (Z.land (bz c) 15)) && negb (hex_at (Z.land (bz c) 15) =b "="%byte) = true.
Proof. destruct c; vm_compute; done. Qed.

Lemma DecodeXtext_EncodeXtext_app c rest :
  DecodeXtext (EncodeXtext_byte c ++ rest) = let? r := DecodeXtext rest in Ok (c :: r).
Proof.
  unfold EncodeXtext_byte. destruct (_ || _ || _ || _) eqn:E.
  - cbn [app DecodeXtext]. rewrite byte_eqb_refl.
    destruct (xtext_escape_hex c) as (-> & -> & -> & _). done.
  - apply orb_false_iff in E as [[[E1 E2]%orb_false_iff E3]%orb_false_iff E4].
    cbn [app DecodeXtext]. by rewrite E1, E3, E4.
Qed.

Lemma EncodeXtext_byte_value c :
  forallb (fun c => is_graph c && negb (c =b "="%byte)) (EncodeXtext_byte c) = true.
Proof.
  unfold EncodeXtext_byte. destruct (_ || _ || _ || _) eqn:E.
  - cbn [forallb]. destruct (xtext_escape_hex c) as (_ & _ & _ & -> & ->). done.
  - apply orb_false_iff in E as [[[E1 E2]%orb_false_iff E3]%orb_false_iff E4].
    cbn [forallb]. rewrite E2. unfold is_graph. lia.
Qed.

(** ** Properties *)

(** xtext decoding inverts xtext encoding on every byte string. *)
Theorem DecodeXtext_EncodeXtext raw : DecodeXtext (EncodeXtext raw) = Ok raw.
Proof.
  unfold EncodeXtext. induction raw as [|c raw IH]; cbn [map concat]; [done|].
  by rewrite DecodeXtext_EncodeXtext_app, IH.
Qed.

(** for a non-empty input the encoding is a valid esmtp-value, and for the empty input it is
    not: the encoder's own output is rejected by [validateESMTPValue] exactly there. *)
Theorem EncodeXtext_esmtp_value raw :
  validateESMTPValue (EncodeXtext raw) =
  match raw with [] => Some ErrInvalidParamValue | _ => None end.
Proof.
  destruct raw as [|c raw]; [done|]. apply validateESMTPValue_None. split.
  - unfold EncodeXtext. cbn. unfold EncodeXtext_byte. by case_match.
  - unfold EncodeXtext. generalize (c :: raw). clear c raw.
    induction l as [|c l IH]; cbn [map concat]; [done|].
    by rewrite forallb_app, EncodeXtext_byte_value.
Qed.
