(* ===== verification/DotStuff.v ===== *)
(** * internal/smtpwire/dotstuff.go: message transparency

    [Module Writer] is [DotStuffWriter] over any [io.Writer] (class [IOWriter]); its reference is
    [stuffed], a function of the whole content. [Module Reader] is [DotUnstuffReader] over the
    remaining bytes of the connection; its reference is [unstuff], which decodes to the end of the
    message in one pass. Both streaming filters are shown to agree with their reference however the
    caller cuts the content into calls. *)
From Stdlib Require Import ZArith Lia Bool.
From stdpp Require Import base list gmap strings.
From S2P Require Import Prelude GoStrings Wire.

(** An [io.Writer]: one call either takes all of [p] or fails. *)
Class IOWriter (W : Type) : Type := io_write : W -> bytes -> W * option ioerr.

(** A buffer that never fails. *)
#[export] Instance buffer_writer : IOWriter bytes := fun w p => (w ++ p, None).

(** A transport that fails after [budget] successful writes. *)
Record limited_writer : Type := { lim_out : bytes; lim_budget : nat }.
#[export] Instance limited_io_writer : IOWriter limited_writer := fun w p =>
  match lim_budget w with
  | O => (w, Some ErrTransport)
  | S n => ({| lim_out := lim_out w ++ p; lim_budget := n |}, None)
  end.

Definition DOT : byte := "."%byte.
Definition dotDot : bytes := $"..".
Definition terminator : bytes := DOT :: CRLF.

(** ** The reference transform *)
Module Spec.

(** Line endings normalised to CRLF: a CRLF pair, a bare CR and a bare LF are one terminator each. *)
Fixpoint norm (s : bytes) : bytes :=
  match s with
  | [] => []
  | c :: s' =>
      if c =b CR then
        match s' with
        | d :: s'' => if d =b LF then CR :: LF :: norm s'' else CR :: LF :: norm s'
        | [] => [CR; LF]
        end
      else if c =b LF then CR :: LF :: norm s'
      else c :: norm s'
  end.

(** A dot is doubled at each line start; [ls] says whether the text begins at one. *)
Fixpoint stuff (ls : bool) (s : bytes) : bytes :=
  match s with
  | [] => []
  | c :: s' => (if ls && (c =b DOT) then [DOT] else []) ++ c :: stuff (c =b LF) s'
  end.

Definition ends_line (s : bytes) : bool :=
  match last s with None => true | Some c => c =b LF end.

(** The body of the message as the receiver sees it: normalised, and ending in CRLF if non-empty. *)
Definition body (content : bytes) : bytes :=
  let n := norm content in if ends_line n then n else n ++ CRLF.

Definition stuffed (content : bytes) : bytes := stuff true (body content) ++ terminator.

End Spec.

(** ** DotStuffWriter *)
Module Writer.
Section Writer.
Context {W : Type} `{IOWriter W}.

Record DotStuffWriter : Type := {
  w : W;
  pendingCR : bool;
  atLineStart : bool;
  wroteAny : bool;
  lastByte : byte;
  closed : bool
}.

Definition NewDotStuffWriter (w0 : W) : DotStuffWriter :=
  {| w := w0; pendingCR := false; atLineStart := true; wroteAny := false; lastByte := x00;
     closed := false |}.

(** [d.w.Write(p)], with the state [f] records once it succeeded. *)
Definition emit (d : DotStuffWriter) (p : bytes) (ls : bool) (lastb : byte) :
    DotStuffWriter * option ioerr :=
  match io_write (w d) p with
  | (w', Some e) =>
      ({| w := w'; pendingCR := pendingCR d; atLineStart := atLineStart d; wroteAny := wroteAny d;
          lastByte := lastByte d; closed := closed d |}, Some e)
  | (w', None) =>
      ({| w := w'; pendingCR := pendingCR d; atLineStart := ls; wroteAny := true;
          lastByte := lastb; closed := closed d |}, None)
  end.

Definition emitCRLF (d : DotStuffWriter) : DotStuffWriter * option ioerr := emit d CRLF true LF.

Definition emitLiteral (d : DotStuffWriter) (chunk : bytes) : DotStuffWriter * option ioerr :=
  match chunk with
  | [] => (d, None)
  | c :: rest =>
      if atLineStart d && (c =b DOT) then
        match emit d dotDot false DOT with
        | (d1, Some e) => (d1, Some e)
        | (d1, None) =>
            match rest with
            | [] => (d1, None)
            | _ => emit d1 rest false (List.last rest x00)
            end
        end
      else emit d chunk false (List.last chunk x00)
  end.

(** [indexCROrLF] by the two [bytes.IndexByte] scans, with [None] for -1. *)
Definition indexCROrLF (p : bytes) : option nat :=
  match IndexByte p CR, IndexByte p LF with
  | None, lf => lf
  | cr, None => cr
  | Some cr, Some lf => if (cr <? lf)%nat then Some cr else Some lf
  end.

Definition set_pendingCR (d : DotStuffWriter) (b : bool) : DotStuffWriter :=
  {| w := w d; pendingCR := b; atLineStart := atLineStart d; wroteAny := wroteAny d;
     lastByte := lastByte d; closed := closed d |}.

(** The loop of [Write]: consumed count and error. [None] as the whole result would be an exhausted
    [fuel]; [Write] supplies two iterations per byte, which [Write_brun] shows is enough. *)
Fixpoint write_loop (fuel : nat) (d : DotStuffWriter) (p : bytes) (consumed : nat) :
    option (DotStuffWriter * nat * option ioerr) :=
  match p with
  | [] => Some (d, consumed, None)
  | c :: p' =>
    match fuel with
    | O => None
    | S fuel' =>
      if pendingCR d then
        match emitCRLF (set_pendingCR d false) with
        | (d1, Some e) => Some (d1, consumed, Some e)
        | (d1, None) =>
            if c =b LF then write_loop fuel' d1 p' (S consumed)
            else write_loop fuel' d1 p consumed
        end
      else match indexCROrLF p with
      | None =>
          match emitLiteral d p with
          | (d1, Some e) => Some (d1, consumed, Some e)
          | (d1, None) => Some (d1, (consumed + length p)%nat, None)
          end
      | Some i =>
          let after d1 consumed1 :=
            match drop i p with
            | [] => Some (d1, consumed1, None)
            | c1 :: p1 =>
                if c1 =b LF then
                  match emitCRLF d1 with
                  | (d2, Some e) => Some (d2, consumed1, Some e)
                  | (d2, None) => write_loop fuel' d2 p1 (S consumed1)
                  end
                else write_loop fuel' (set_pendingCR d1 true) p1 (S consumed1)
            end in
          if (0 <? i)%nat then
            match emitLiteral d (take i p) with
            | (d1, Some e) => Some (d1, consumed, Some e)
            | (d1, None) => after d1 (consumed + i)%nat
            end
          else after d consumed
      end
    end
  end.

Definition write_fuel (p : bytes) : nat := (2 * length p)%nat.

(** [Write]: new state, count and error; [None] if the loop ran out of iterations. *)
Definition Write (d : DotStuffWriter) (p : bytes) :
    option (DotStuffWriter * nat * option wire_err) :=
  if closed d then Some (d, O, Some ErrWriterClosed)
  else match write_loop (write_fuel p) d p O with
       | Some (d', n, e) => Some (d', n, ErrIO <$> e)
       | None => None
       end.

Definition Close (d : DotStuffWriter) : DotStuffWriter * option wire_err :=
  if closed d then (d, Some ErrWriterClosed)
  else
    let d0 := {| w := w d; pendingCR := pendingCR d; atLineStart := atLineStart d;
                 wroteAny := wroteAny d; lastByte := lastByte d; closed := true |} in
    let '(d1, e1) := if pendingCR d0 then emitCRLF (set_pendingCR d0 false) else (d0, None) in
    match e1 with
    | Some e => (d1, Some (ErrIO e))
    | None =>
        let '(w2, e2) :=
          if wroteAny d1 && negb (lastByte d1 =b LF) then io_write (w d1) CRLF
          else (w d1, None) in
        let d2 := {| w := w2; pendingCR := pendingCR d1; atLineStart := atLineStart d1;
                     wroteAny := wroteAny d1; lastByte := lastByte d1; closed := true |} in
        match e2 with
        | Some e => (d2, Some (ErrIO e))
        | None =>
            let '(w3, e3) := io_write w2 terminator in
            ({| w := w3; pendingCR := pendingCR d2; atLineStart := atLineStart d2;
                wroteAny := wroteAny d2; lastByte := lastByte d2; closed := true |}, ErrIO <$> e3)
        end
    end.

(** Writing a message in any number of calls and closing it; [None] on any error. *)
Fixpoint write_all (d : DotStuffWriter) (ps : list bytes) : option DotStuffWriter :=
  match ps with
  | [] => Some d
  | p :: ps' => match Write d p with
                | Some (d', _, None) => write_all d' ps'
                | _ => None
                end
  end.

End Writer.
Arguments DotStuffWriter : clear implicits.
End Writer.

(** ** The writer against its reference *)
Module WriterFacts.
Import Spec Writer.

(** The filter as a machine on single bytes: held CR, at line start, output so far. *)
Record bst : Type := { b_cr : bool; b_ls : bool; b_out : bytes }.

Definition bplain (ls : bool) (out : bytes) (c : byte) : bst :=
  if c =b LF then {| b_cr := false; b_ls := true; b_out := out ++ CRLF |}
  else if c =b CR then {| b_cr := true; b_ls := ls; b_out := out |}
  else {| b_cr := false; b_ls := false; b_out := out ++ (if ls && (c =b DOT) then dotDot else [c]) |}.

Definition bstep (s : bst) (c : byte) : bst :=
  if b_cr s then
    if c =b LF then {| b_cr := false; b_ls := true; b_out := b_out s ++ CRLF |}
    else bplain true (b_out s ++ CRLF) c
  else bplain (b_ls s) (b_out s) c.

Definition brun (s : bst) (p : bytes) : bst := fold_left bstep p s.

(** The state of a writer over a buffer, and the consistency of its line bookkeeping. *)
Definition abs (d : DotStuffWriter bytes) : bst :=
  {| b_cr := pendingCR d; b_ls := atLineStart d; b_out := w d |}.

Definition line_ok (d : DotStuffWriter bytes) : Prop :=
  closed d = false /\
  if atLineStart d then wroteAny d = true -> lastByte d = LF
  else wroteAny d = true /\ lastByte d <> LF.

Definition literal (p : bytes) : bool := forallb (fun c => negb (c =b CR) && negb (c =b LF)) p.

Lemma literal_cons c p :
  literal (c :: p) = true -> (c =b CR) = false /\ (c =b LF) = false /\ literal p = true.
Proof.
  cbn [literal forallb]. intros [[H1 H2]%andb_true_iff H3]%andb_true_iff.
  apply negb_true_iff in H1, H2. done.
Qed.

Lemma literal_last p : p <> [] -> literal p = true -> List.last p x00 <> LF.
Proof.
  induction p as [|c p IH]; [done|]. intros _ (H1 & H2 & H3)%literal_cons.
  destruct p as [|d p]; [|by apply IH]. simpl. intros ->. done.
Qed.

Lemma brun_literal_mid out p :
  literal p = true ->
  brun {| b_cr := false; b_ls := false; b_out := out |} p =
  {| b_cr := false; b_ls := false; b_out := out ++ p |}.
Proof.
  revert out. induction p as [|c p IH]; intros out L; [cbn; by rewrite app_nil_r|].
  apply literal_cons in L as (H1 & H2 & H3). cbn. unfold bstep, bplain. cbn.
  rewrite H1, H2. unfold brun in IH. rewrite IH by done. by rewrite <- app_assoc.
Qed.

(** Emitting a run without line terminators is the byte machine on that run. *)
Lemma emitLiteral_brun d p :
  line_ok d -> pendingCR d = false -> literal p = true ->
  exists d', emitLiteral d p = (d', None) /\ line_ok d' /\ abs d' = brun (abs d) p.
Proof.
  intros [Hc Hl] Hp L. destruct p as [|c p]; [by exists d|].
  pose proof L as (H1 & H2 & H3)%literal_cons.
  unfold emitLiteral, abs. cbn -[List.last]. rewrite Hp. unfold bstep, bplain. cbn -[List.last]. rewrite H1, H2.
  destruct (atLineStart d && (c =b DOT)) eqn:E.
  - destruct p as [|e p]; cbn -[List.last].
    + eexists; split; [done|]. unfold line_ok. cbn. done.
    + eexists; split; [done|]. unfold line_ok. cbn -[List.last]. split.
      * split_and!; [done|done|]. by apply (literal_last (e :: p)).
      * symmetry. apply (brun_literal_mid _ (e :: p)). done.
  - eexists; split; [done|]. unfold line_ok. cbn -[List.last]. split.
    * split_and!; [done|done|]. by apply (literal_last (c :: p)).
    * symmetry. rewrite (app_assoc _ [c] p : _ ++ c :: p = _). by apply brun_literal_mid.
Qed.

Lemma emitCRLF_abs d :
  line_ok d -> pendingCR d = false ->
  exists d', emitCRLF d = (d', None) /\ line_ok d' /\ pendingCR d' = false /\
    abs d' = {| b_cr := false; b_ls := true; b_out := w d ++ CRLF |}.
Proof.
  intros [Hc Hl] Hp. eexists. split; [done|]. unfold line_ok, abs. cbn. by rewrite Hp.
Qed.

(** Where the run ends: [indexCROrLF] splits off the longest literal prefix. *)
Lemma indexCROrLF_spec p :
  match indexCROrLF p with
  | None => literal p = true
  | Some i => literal (take i p) = true /\ exists c p', drop i p = c :: p' /\
      (c =b LF) || (c =b CR) = true /\ (length p = i + S (length p'))%nat
  end.
Proof.
  assert (forall q, literal q = no_byte CR q && no_byte LF q) as Lit.
  { unfold literal, no_byte. induction q as [|c q IH]; [done|]. cbn. rewrite IH.
    destruct (c =b CR), (c =b LF); cbn; by rewrite ?andb_false_r. }
  assert (forall c n m, no_byte c (take n p) = true -> (m <= n)%nat ->
    no_byte c (take m p) = true) as Sub.
  { intros c n m Hn Hm. rewrite <- (firstn_skipn m (take n p)) in Hn.
    unfold no_byte in *. rewrite forallb_app in Hn. btrue.
    by rewrite take_take, Nat.min_l in * by lia. }
  assert (forall c n, IndexByte p c = Some n -> exists p', drop n p = c :: p' /\
    (length p = n + S (length p'))%nat) as At.
  { intros c n (E & _ & Hlt)%IndexByte_Some. exists (drop (S n) p). split.
    - rewrite E at 1. rewrite drop_app_length' by (rewrite length_take; lia). done.
    - rewrite length_drop. lia. }
  unfold indexCROrLF.
  destruct (IndexByte p CR) as [cr|] eqn:Ecr; destruct (IndexByte p LF) as [lf|] eqn:Elf.
  - destruct (IndexByte_Some _ _ _ Ecr) as (_ & Ncr & _).
    destruct (IndexByte_Some _ _ _ Elf) as (_ & Nlf & _).
    destruct (Nat.ltb_spec cr lf); rewrite Lit.
    + rewrite Ncr, (Sub LF lf cr) by (done || lia). split; [done|].
      destruct (At _ _ Ecr) as (p' & Hd & Hl). eauto.
    + rewrite Nlf, (Sub CR cr lf) by (done || lia). split; [done|].
      destruct (At _ _ Elf) as (p' & Hd & Hl). eauto.
  - destruct (IndexByte_Some _ _ _ Ecr) as (_ & Ncr & _). rewrite Lit, Ncr.
    apply IndexByte_None in Elf. split; [by apply forallb_take|].
    destruct (At _ _ Ecr) as (p' & Hd & Hl). eauto.
  - destruct (IndexByte_Some _ _ _ Elf) as (_ & Nlf & _). rewrite Lit, Nlf, andb_true_r.
    apply IndexByte_None in Ecr. split; [by apply forallb_take|].
    destruct (At _ _ Elf) as (p' & Hd & Hl). eauto.
  - apply IndexByte_None in Ecr, Elf. by rewrite Lit, Ecr, Elf.
Qed.

Lemma brun_app s p q : brun s (p ++ q) = brun (brun s p) q.
Proof. apply fold_left_app. Qed.

(** The loop of [Write] consumes all of [p], never fails on a buffer, and is the byte machine. *)
Lemma write_loop_brun fuel d p k :
  line_ok d -> (2 * length p <= fuel + (if pendingCR d then 0 else 1))%nat ->
  exists d', write_loop fuel d p k = Some (d', (k + length p)%nat, None) /\ line_ok d' /\
    abs d' = brun (abs d) p.
Proof.
  revert d p k. induction fuel as [|fuel IH]; intros d p k Hd Hf.
  { destruct p as [|c [|c' p]]; cbn [length] in Hf; [|destruct (pendingCR d); lia..].
    exists d. cbn. by rewrite Nat.add_0_r. }
  destruct p as [|c p]; [exists d; cbn; by rewrite Nat.add_0_r|].
  cbn [write_loop]. destruct (pendingCR d) eqn:Hcr.
  - destruct (emitCRLF_abs (set_pendingCR d false)) as (d1 & E & Hd1 & Hp1 & A1); [done|done|].
    rewrite E. change (w (set_pendingCR d false)) with (w d) in A1.
    destruct (c =b LF) eqn:Ec.
    + destruct (IH d1 p (S k) Hd1) as (d2 & E2 & Hd2 & A2); [rewrite Hp1; cbn in Hf; lia|].
      exists d2. rewrite E2. split_and!; [do 3 f_equal; cbn; lia|done|].
      rewrite A2, A1. unfold brun. cbn [fold_left]. f_equal. unfold bstep. cbn. by rewrite Hcr, Ec.
    + destruct (IH d1 (c :: p) k Hd1) as (d2 & E2 & Hd2 & A2); [rewrite Hp1; lia|].
      exists d2. split_and!; [done|done|]. rewrite A2, A1. unfold brun. cbn [fold_left].
      f_equal. unfold bstep. cbn. by rewrite Hcr, Ec.
  - pose proof (indexCROrLF_spec (c :: p)) as HI. destruct (indexCROrLF (c :: p)) as [i|].
    + destruct HI as (Lit & c1 & p1 & Hdrop & Hc1 & Hlen). rewrite Hdrop.
      assert (exists d1, (if (0 <? i)%nat then emitLiteral d (take i (c :: p)) else (d, None)) =
        (d1, None) /\ line_ok d1 /\ abs d1 = brun (abs d) (take i (c :: p))) as (d1 & E1 & Hd1 & A1).
      { destruct (Nat.ltb_spec 0 i); [by apply emitLiteral_brun|].
        assert (i = 0%nat) as -> by lia. by exists d. }
      assert (pendingCR d1 = false) as Hp1.
      { change (b_cr (abs d1) = false). rewrite A1. destruct i; [done|].
        cbn [take] in *. unfold abs. rewrite Hcr. generalize (atLineStart d), (w d). intros ls o.
        change (c :: take i p) with ([c] ++ take i p). rewrite brun_app.
        apply literal_cons in Lit as (L1 & L2 & L3). cbn. unfold bstep, bplain. cbn.
        rewrite L1, L2, brun_literal_mid by done. done. }
      assert (brun (abs d) (c :: p) = brun (bstep (abs d1) c1) p1) as ->.
      { rewrite <- (take_drop i (c :: p)) at 1. by rewrite Hdrop, brun_app, <- A1. }
      assert (exists d', (if c1 =b LF then
          match emitCRLF d1 with
          | (d2, Some e) => Some (d2, (k + i)%nat, Some e)
          | (d2, None) => write_loop fuel d2 p1 (S (k + i))
          end
        else write_loop fuel (set_pendingCR d1 true) p1 (S (k + i))) =
        Some (d', (k + length (c :: p))%nat, None) /\ line_ok d' /\
        abs d' = brun (bstep (abs d1) c1) p1) as (d' & E' & Hd' & A').
      { destruct (c1 =b LF) eqn:Ec1.
        - destruct (emitCRLF_abs d1) as (d2 & E2 & Hd2 & Hp2 & A2); [done|done|]. rewrite E2.
          destruct (IH d2 p1 (S (k + i)) Hd2) as (d3 & E3 & Hd3 & A3); [rewrite Hp2; lia|].
          exists d3. rewrite E3. split_and!; [do 3 f_equal; lia|done|].
          rewrite A3, A2. f_equal. unfold bstep, bplain, abs. cbn. by rewrite Hp1, Ec1.
        - destruct (IH (set_pendingCR d1 true) p1 (S (k + i))) as (d3 & E3 & Hd3 & A3);
            [done|cbn; lia|].
          exists d3. rewrite E3. split_and!; [do 3 f_equal; lia|done|]. rewrite A3.
          f_equal. unfold bstep, bplain, abs. cbn. rewrite Hp1, Ec1. cbn in Hc1. by rewrite Hc1. }
      exists d'. destruct (Nat.ltb_spec 0 i).
      * by rewrite E1.
      * injection E1 as <-. assert (i = 0%nat) as -> by lia. by rewrite Nat.add_0_r in E'.
    + destruct (emitLiteral_brun d (c :: p) Hd Hcr HI) as (d' & E & Hd' & A').
      exists d'. by rewrite E.
Qed.

Lemma Write_brun d p :
  line_ok d ->
  exists d', Write d p = Some (d', length p, None) /\ line_ok d' /\ abs d' = brun (abs d) p.
Proof.
  intros Hd. destruct (write_loop_brun (write_fuel p) d p 0 Hd) as (d' & E & Hd' & A').
  { unfold write_fuel. lia. }
  exists d'. unfold Write. destruct Hd as [-> _]. by rewrite E.
Qed.

Lemma write_all_brun d ps :
  line_ok d -> exists d', write_all d ps = Some d' /\ line_ok d' /\ abs d' = brun (abs d) (concat ps).
Proof.
  revert d. induction ps as [|p ps IH]; intros d Hd; [by exists d|].
  destruct (Write_brun d p Hd) as (d1 & E1 & Hd1 & A1).
  destruct (IH d1 Hd1) as (d2 & E2 & Hd2 & A2). exists d2.
  cbn [write_all]. rewrite E1. change (concat (p :: ps)) with (p ++ concat ps).
  by rewrite brun_app, <- A1.
Qed.

(** *** The byte machine against the reference transform *)

Lemma stuff_app ls s t :
  stuff ls (s ++ t) = stuff ls s ++ stuff (match last s with None => ls | Some c => c =b LF end) t.
Proof.
  revert ls. induction s as [|c s IH]; intros ls; [done|]. cbn [app stuff].
  rewrite IH, <- !app_assoc. do 2 f_equal. cbn [app]. do 2 f_equal.
  rewrite last_cons. by destruct (last s).
Qed.

(** What closing adds to a state of the machine. *)
Definition finish (s : bst) : bytes :=
  if b_cr s then b_out s ++ CRLF
  else if b_ls s then b_out s else b_out s ++ CRLF.

(** A text completed to a whole line, [ls] being the line position before it. *)
Definition close_line (ls : bool) (n : bytes) : bytes :=
  if match last n with None => ls | Some c => c =b LF end then n else n ++ CRLF.

Lemma close_line_cons ls c n : close_line ls (c :: n) = c :: close_line (c =b LF) n.
Proof. unfold close_line. rewrite last_cons. destruct (last n) as [d|]; by case_match. Qed.

(** [norm] after a CR whose successor is the head of [s]. *)
Definition norm_cr (s : bytes) : bytes :=
  match s with d :: s' => if d =b LF then norm s' else norm s | [] => [] end.

Lemma norm_CR s : norm (CR :: s) = CR :: LF :: norm_cr s.
Proof. destruct s as [|d s]; [done|]. cbn [norm norm_cr]. rewrite byte_eqb_refl. by destruct (d =b LF). Qed.

Lemma bstep_held ls out c :
  bstep {| b_cr := true; b_ls := ls; b_out := out |} c =
  let s := {| b_cr := false; b_ls := true; b_out := out ++ CRLF |} in
  if c =b LF then s else bstep s c.
Proof. done. Qed.

Lemma finish_brun s :
  (forall ls out, finish (brun {| b_cr := false; b_ls := ls; b_out := out |} s) =
     out ++ stuff ls (close_line ls (norm s))) /\
  (forall ls out, finish (brun {| b_cr := true; b_ls := ls; b_out := out |} s) =
     out ++ CRLF ++ stuff true (close_line true (norm_cr s))).
Proof.
  induction s as [|c s [IHp IHq]].
  { split; intros [] out; cbn; by rewrite ?app_nil_r. }
  assert (forall ls out, finish (brun {| b_cr := false; b_ls := ls; b_out := out |} (c :: s)) =
     out ++ stuff ls (close_line ls (norm (c :: s)))) as P.
  { intros ls out. unfold brun. cbn [fold_left]. unfold bstep, bplain. cbn [b_cr b_ls b_out].
    fold (brun). destruct (byte_eqb_spec c LF) as [->|Hlf]; [|destruct (byte_eqb_spec c CR) as [->|Hcr]].
    - change (norm (LF :: s)) with (CR :: LF :: norm s). rewrite !close_line_cons.
      unfold brun in IHp. rewrite IHp. cbn. rewrite andb_false_r, <- app_assoc. done.
    - rewrite norm_CR, !close_line_cons. unfold brun in IHq. rewrite IHq. cbn.
      by rewrite andb_false_r.
    - assert (norm (c :: s) = c :: norm s) as ->.
      { cbn [norm]. by destruct (byte_eqb_spec c CR), (byte_eqb_spec c LF). }
      rewrite close_line_cons. unfold brun in IHp. rewrite IHp. cbn [stuff].
      destruct (byte_eqb_spec c LF); [done|]. rewrite <- app_assoc. f_equal.
      destruct (byte_eqb_spec c DOT) as [->|]; [|by rewrite andb_false_r].
      by destruct ls. }
  split; [done|]. intros ls out. specialize (P true (out ++ CRLF)). specialize (IHp true (out ++ CRLF)).
  unfold brun in *. cbn [fold_left] in *. rewrite bstep_held. cbn [norm_cr].
  destruct (c =b LF); rewrite ?IHp, ?P; by rewrite <- app_assoc.
Qed.

Lemma Close_buffer d :
  line_ok d -> exists d', Close d = (d', None) /\ w d' = finish (abs d) ++ terminator.
Proof.
  intros [Hc Hl]. unfold Close. rewrite Hc. cbn. unfold finish, abs. cbn.
  destruct (pendingCR d) eqn:Hp; cbn.
  - eexists. split; [done|]. by cbn; rewrite <- app_assoc.
  - destruct (atLineStart d).
    + destruct (wroteAny d); cbn; [rewrite Hl by done; cbn|]; eexists; by split.
    + destruct Hl as [-> Hn]. destruct (byte_eqb_spec (lastByte d) LF); [done|]. cbn.
      eexists; split; [done|]. by cbn; rewrite <- app_assoc.
Qed.

Lemma body_close content : body content = close_line true (norm content).
Proof. done. Qed.

Lemma writes_stuffed (chunks : list bytes) :
  exists d d', write_all (NewDotStuffWriter []) chunks = Some d /\ Close d = (d', None) /\
    w d' = stuffed (concat chunks).
Proof.
  destruct (write_all_brun (NewDotStuffWriter []) chunks) as (d & E & Hd & A); [done|].
  destruct (Close_buffer d Hd) as (d' & E' & W'). exists d, d'. split_and!; [done|done|].
  rewrite W', A. unfold stuffed. f_equal.
  change (abs (NewDotStuffWriter [])) with {| b_cr := false; b_ls := true; b_out := [] |}.
  destruct (finish_brun (concat chunks)) as [-> _]. by rewrite body_close.
Qed.

(** however the caller cuts the content into [Write] calls, [DotStuffWriter] accepts every
    byte, and after [Close] the bytes on the wire are the reference encoding of the whole content:
    line endings normalised to CRLF, line-leading dots doubled, terminator appended. *)
Theorem DotStuffWriter_refines (chunks : list bytes) :
  exists d d', write_all (NewDotStuffWriter []) chunks = Some d /\ Close d = (d', None) /\
    w d' = stuffed (concat chunks).
Proof. apply writes_stuffed. Qed.

(** *** No early end of data *)

(** The most permissive receiver: CR, LF and CRLF all end a line, and a line consisting of a dot
    ends the message. It returns the bytes before the dot and the bytes after the line end's first
    byte. *)
Fixpoint lenient_scan (line_start : bool) (s : bytes) : option (bytes * bytes) :=
  match s with
  | [] => None
  | d :: s' =>
      let continue :=
        match lenient_scan ((d =b CR) || (d =b LF)) s' with
        | Some (before, after) => Some (d :: before, after)
        | None => None
        end in
      match s' with
      | c :: s'' =>
          if line_start && (d =b DOT) && ((c =b CR) || (c =b LF)) then Some ([], s'') else continue
      | [] => continue
      end
  end.

(** Text in which CR and LF occur only as the pair CRLF; [cr] says that a CR precedes it. *)
Fixpoint canonical (cr : bool) (s : bytes) : bool :=
  match s with
  | [] => negb cr
  | c :: s' =>
      if cr then (c =b LF) && canonical false s'
      else negb (c =b LF) && canonical (c =b CR) s'
  end.

Lemma canonical_close ls s : canonical false (close_line ls (norm s)) = true.
Proof.
  revert ls.
  enough (forall n s, (length s <= n)%nat -> forall ls, canonical false (close_line ls (norm s)) = true)
    as E by (intros ls; by eapply E). clear s.
  induction n as [|n IH]; intros [|c s] Hn ls; cbn [length] in Hn; try lia; try (by destruct ls).
  destruct (byte_eqb_spec c CR) as [->|Hcr].
  - rewrite norm_CR, !close_line_cons. cbn. unfold norm_cr.
    destruct s as [|d s]; [done|]. destruct (d =b LF); apply IH; cbn in *; lia.
  - cbn [norm]. destruct (byte_eqb_spec c CR); [done|]. destruct (byte_eqb_spec c LF) as [->|Hlf].
    + rewrite !close_line_cons. cbn. apply IH. lia.
    + rewrite close_line_cons. cbn. destruct (byte_eqb_spec c LF), (byte_eqb_spec c CR); try done.
      apply IH. lia.
Qed.

Lemma lenient_scan_stuff n ls cr tail :
  canonical cr n = true -> (cr = true -> ls = false) ->
  match last n with None => ls | Some c => c =b LF end = true ->
  lenient_scan (ls || cr) (stuff ls n ++ terminator ++ tail) = Some (stuff ls n, LF :: tail).
Proof.
  revert ls cr. induction n as [|c n IH]; intros ls cr Hcan Hcr Hend.
  { cbn in Hcan, Hend. subst ls. by destruct cr. }
  rewrite last_cons in Hend.
  assert (match last n with None => c =b LF | Some d => d =b LF end = true) as Hend'
    by by destruct (last n).
  assert (forall pv, (pv && (c =b DOT) = false) ->
    lenient_scan ((c =b CR) || (c =b LF)) (stuff (c =b LF) n ++ terminator ++ tail) =
      Some (stuff (c =b LF) n, LF :: tail) ->
    lenient_scan pv (c :: stuff (c =b LF) n ++ terminator ++ tail) =
      Some (c :: stuff (c =b LF) n, LF :: tail)) as Skip.
  { intros pv Hpv E. cbn [lenient_scan]. rewrite E, Hpv.
    by destruct (stuff (c =b LF) n ++ terminator ++ tail). }
  destruct cr; cbn [canonical] in Hcan; apply andb_true_iff in Hcan as [Hc Hcan].
  - rewrite Hcr by done. destruct (byte_eqb_spec c LF) as [->|]; [|done]. cbn [stuff andb app].
    apply Skip; [done|]. by apply (IH true false).
  - apply negb_true_iff in Hc. rewrite Hc in *. rewrite !orb_false_r.
    assert (lenient_scan (c =b CR) (stuff false n ++ terminator ++ tail) =
      Some (stuff false n, LF :: tail)) as E by by apply (IH false (c =b CR)).
    cbn [stuff]. destruct (ls && (c =b DOT)) eqn:Hd; rewrite Hc.
    + apply andb_true_iff in Hd as [-> Hd]. destruct (byte_eqb_spec c DOT) as [->|]; [|done].
      cbn [app]. rewrite !orb_false_r in Skip.
      specialize (Skip false eq_refl E). set (X := stuff false n ++ terminator ++ tail) in *.
      change (lenient_scan true (DOT :: DOT :: X)) with
        (match lenient_scan false (DOT :: X) with
         | Some (b, a) => Some (DOT :: b, a) | None => None end).
      by rewrite Skip.
    + cbn [app]. rewrite !orb_false_r in Skip. by apply Skip.
Qed.

Lemma canonical_scan content tail :
  lenient_scan true (stuffed content ++ tail) = Some (stuff true (body content), LF :: tail).
Proof.
  unfold stuffed. rewrite <- app_assoc, body_close.
  apply (lenient_scan_stuff _ true false); [apply canonical_close|done|].
  unfold close_line. destruct (match last (norm content) with None => _ | Some c => _ end) eqn:E;
    [done|]. by rewrite last_app.
Qed.

(** An end of data that the receiver saw in a text is still there when more text follows, and it
    takes a dot and a line end of that text. *)
Lemma lenient_scan_app ls s t b a :
  lenient_scan ls s = Some (b, a) ->
  lenient_scan ls (s ++ t) = Some (b, a ++ t) /\ (length b + 2 <= length s)%nat.
Proof.
  revert ls b. induction s as [|d s IH]; intros ls b; [done|].
  destruct s as [|c s]; [done|]. intros H.
  change ((d :: c :: s) ++ t) with (d :: c :: (s ++ t)).
  cbn [lenient_scan] in H |- *.
  destruct (ls && (d =b DOT) && ((c =b CR) || (c =b LF))); [simplify_eq; cbn; split; [done|lia]|].
  change (lenient_scan ((d =b CR) || (d =b LF)) (c :: s ++ t)) with
    (lenient_scan ((d =b CR) || (d =b LF)) ((c :: s) ++ t)).
  change (match lenient_scan ((d =b CR) || (d =b LF)) (c :: s) with
          | Some (before, after) => Some (d :: before, after) | None => None end = Some (b, a)) in H.
  destruct (lenient_scan ((d =b CR) || (d =b LF)) (c :: s)) as [[b1 a1]|] eqn:E; [|done].
  simplify_eq. destruct (IH _ _ E) as [F L].
  change (match lenient_scan ((d =b CR) || (d =b LF)) ((c :: s) ++ t) with
          | Some (before, after) => Some (d :: before, after) | None => None end =
          Some (d :: b1, a ++ t) /\ (length (d :: b1) + 2 <= length (d :: c :: s))%nat).
  rewrite F. cbn in L |- *. split; [done|lia].
Qed.

(** [Close] only adds to what the writer sent: a line end where one is missing, and the
    terminator. *)
Lemma finish_extends d : exists t, finish (abs d) = w d ++ t.
Proof.
  unfold finish, abs. cbn. destruct (pendingCR d), (atLineStart d); eauto.
  exists []. by rewrite app_nil_r.
Qed.

(** C7: whatever the caller hands to [Write], in whatever pieces, and whatever follows on the
    connection, a receiver that takes CR, LF or CRLF for a line end finds the end of the message at
    the terminator [Close] wrote and nowhere else: before [Close] the bytes [Write] sent hold no
    end of data for it; after [Close] it stops exactly at the last three bytes the writer sent, and
    what it took before them is the whole content, normalised and dot-stuffed. The transport is one
    that accepts every byte. *)
Theorem Write_no_smuggling (chunks : list bytes) (tail : bytes) :
  exists d d' before, write_all (NewDotStuffWriter []) chunks = Some d /\
    lenient_scan true (w d) = None /\
    Close d = (d', None) /\ w d' = before ++ terminator /\
    before = stuff true (body (concat chunks)) /\
    lenient_scan true (w d' ++ tail) = Some (before, LF :: tail).
Proof.
  destruct (writes_stuffed chunks) as (d & d' & E & E' & W).
  exists d, d', (stuff true (body (concat chunks))).
  rewrite W, canonical_scan. split_and!; [done| |done..].
  destruct (write_all_brun (NewDotStuffWriter []) chunks) as (d1 & E1 & Hd & _); [done|].
  rewrite E in E1. injection E1 as <-.
  destruct (Close_buffer d Hd) as (d2 & E2 & W2). rewrite E' in E2. injection E2 as <-.
  destruct (finish_extends d) as [t Ht].
  destruct (lenient_scan true (w d)) as [[b a]|] eqn:Sc; [exfalso|done].
  apply (lenient_scan_app _ _ (t ++ terminator)) in Sc as [Sc L].
  assert (w d ++ t = stuff true (body (concat chunks))) as Wt.
  { rewrite W, Ht in W2. unfold stuffed in W2. by apply app_inv_tail in W2. }
  rewrite app_assoc, Wt in Sc. fold (stuffed (concat chunks)) in Sc.
  rewrite <- (app_nil_r (stuffed _)), canonical_scan in Sc. injection Sc as <- _.
  rewrite <- Wt, length_app in L. lia.
Qed.

(** Error paths: a failing transport surfaces its error, and a closed writer writes nothing. *)
Lemma Write_closed {W} `{IOWriter W} (d : DotStuffWriter W) p :
  closed d = true -> Write d p = Some (d, O, Some ErrWriterClosed).
Proof. unfold Write. by intros ->. Qed.

Lemma Close_closed {W} `{IOWriter W} (d : DotStuffWriter W) :
  closed d = true -> Close d = (d, Some ErrWriterClosed).
Proof. unfold Close. by intros ->. Qed.

Lemma Close_closes {W} `{IOWriter W} (d : DotStuffWriter W) : closed (fst (Close d)) = true.
Proof.
  unfold Close. destruct (closed d) eqn:E; [done|].
  repeat (case_match; try done); unfold emitCRLF, emit in *; cbn in *; cases.
Qed.

End WriterFacts.

(** ** DotUnstuffReader *)
Module Reader.

Record DotUnstuffReader : Type := {
  lr : LineReader;
  atLineStart : bool;
  previousCR : bool;
  done : bool;
  err : option wire_err
}.

Definition NewDotUnstuffReader (r : LineReader) : DotUnstuffReader :=
  {| lr := r; atLineStart := true; previousCR := false; done := false; err := None |}.

Definition truncated (fin : ioerr) : wire_err := ErrIO (normalizeReadErr fin).

(** After a '.' whose next byte was peeked to be CR: the bytes left and the outcome, [None] for the
    accepted ".CRLF". *)
Definition consumeTerminatorTail (s : bytes) (fin : ioerr) : bytes * option wire_err :=
  match s with
  | [] => ([], Some (truncated fin))
  | _ :: [] => ([], Some (truncated fin))
  | _ :: b :: s'' => (s'', if b =b LF then None else Some ErrMalformedTerminator)
  end.

(** What the peek after a '.' that follows a bare CR rejects. *)
Definition bareCRDot (s : bytes) (fin : ioerr) : option wire_err :=
  match s with
  | [] => Some (truncated fin)
  | c :: s' =>
      if c =b LF then Some ErrMalformedTerminator
      else if c =b CR then
        match s' with
        | [] => Some (truncated fin)
        | d :: _ => if d =b LF then Some ErrMalformedTerminator else None
        end
      else None
  end.

(** The position of the reader: bytes left, [atLineStart], [previousCR]. *)
Record pos : Type := { at_rest : bytes; at_ls : bool; at_cr : bool }.

(** The loop of [Read], with [room] bytes of the caller's buffer left: the bytes delivered, where
    it stopped, and the error it passed to [fail] if it did. Each iteration reads a byte. *)
Fixpoint read_loop (fin : ioerr) (s : bytes) (ls cr : bool) (room : nat) :
    bytes * pos * option wire_err :=
  match room with
  | O => ([], {| at_rest := s; at_ls := ls; at_cr := cr |}, None)
  | S room' =>
    let stop rest e := ([], {| at_rest := rest; at_ls := ls; at_cr := cr |}, Some e) in
    match s with
    | [] => stop [] (truncated fin)
    | b :: s' =>
      let deliver :=
        let '(out, p, e) := read_loop fin s' (b =b LF) (b =b CR) room' in (b :: out, p, e) in
      if ls then
        if b =b DOT then
          match s' with
          | [] => stop [] (truncated fin)
          | c :: _ =>
              if c =b CR then
                let '(rest, e) := consumeTerminatorTail s' fin in
                stop rest (default (ErrIO EOF) e)
              else if c =b LF then stop s' ErrBareLFTerminator
              else read_loop fin s' false cr room
          end
        else deliver
      else if cr && (b =b DOT) then
        match bareCRDot s' fin with
        | Some e => stop s' e
        | None => deliver
        end
      else deliver
    end
  end.

(** [Read] with a buffer of [len] bytes: the bytes delivered, the new state and the error. *)
Definition Read (d : DotUnstuffReader) (len : nat) : bytes * DotUnstuffReader * option wire_err :=
  if done d then ([], d, Some (default (ErrIO EOF) (err d)))
  else match len with
  | O => ([], d, None)
  | _ =>
      let '(out, p, e) :=
        read_loop (final (lr d)) (unread (lr d)) (atLineStart d) (previousCR d) len in
      let lr' := {| unread := at_rest p; final := final (lr d) |} in
      match e with
      | None =>
          (out, {| lr := lr'; atLineStart := at_ls p; previousCR := at_cr p; done := false;
                   err := err d |}, None)
      | Some e =>
          (out, {| lr := lr'; atLineStart := at_ls p; previousCR := at_cr p; done := true;
                   err := Some e |},
           match out with [] => Some e | _ => None end)
      end
  end.

(** A caller reading with buffers of the given sizes. *)
Fixpoint reads (d : DotUnstuffReader) (sizes : list nat) : bytes * DotUnstuffReader :=
  match sizes with
  | [] => ([], d)
  | n :: sizes' =>
      let '(out, d', e) := Read d n in
      match e with
      | Some _ => (out, d')
      | None => let '(out', d'') := reads d' sizes' in (out ++ out', d'')
      end
  end.

End Reader.

Module ReaderFacts.
Import Spec Reader.

(** The reference decoder: the whole message in one pass, what is left after it, and how it
    ended. *)
Fixpoint unstuff (fin : ioerr) (ls cr : bool) (s : bytes) : bytes * bytes * wire_err :=
  match s with
  | [] => ([], [], truncated fin)
  | b :: s' =>
      let deliver :=
        let '(out, rest, e) := unstuff fin (b =b LF) (b =b CR) s' in (b :: out, rest, e) in
      if ls && (b =b DOT) then
        match s' with
        | [] => ([], [], truncated fin)
        | c :: _ =>
            if c =b CR then
              let '(rest, e) := consumeTerminatorTail s' fin in ([], rest, default (ErrIO EOF) e)
            else if c =b LF then ([], s', ErrBareLFTerminator)
            else unstuff fin false cr s'
        end
      else if negb ls && cr && (b =b DOT) then
        match bareCRDot s' fin with Some e => ([], s', e) | None => deliver end
      else deliver
  end.

(** What is still to be decoded from a reader's state. *)
Definition remaining (d : DotUnstuffReader) : bytes * bytes * wire_err :=
  if done d then ([], unread (lr d), default (ErrIO EOF) (err d))
  else unstuff (final (lr d)) (atLineStart d) (previousCR d) (unread (lr d)).

Lemma read_loop_unstuff fin s ls cr room out p e D R E :
  read_loop fin s ls cr room = (out, p, e) -> unstuff fin ls cr s = (D, R, E) ->
  match e with
  | Some e' => D = out /\ R = at_rest p /\ E = e' /\ (length out < room)%nat
  | None => out = take room D /\ (room <= length D)%nat /\
            unstuff fin (at_ls p) (at_cr p) (at_rest p) = (drop room D, R, E)
  end.
Proof.
  revert ls cr room out p e D R E.
  induction s as [|b s IH]; intros ls cr [|room] out p e D R E HR HU; cbn [read_loop] in HR;
    simplify_eq; try (split_and!; [done|cbn; lia|done]).
  - cbn in HU. simplify_eq. cbn. split_and!; [done..|lia].
  - assert (forall D' R' E',
      (let '(o, p, e) := read_loop fin s (b =b LF) (b =b CR) room in (b :: o, p, e)) = (out, p, e) ->
      (let '(o, r, e) := unstuff fin (b =b LF) (b =b CR) s in (b :: o, r, e)) = (D', R', E') ->
      match e with
      | Some e' => D' = out /\ R' = at_rest p /\ E' = e' /\ (length out < S room)%nat
      | None => out = take (S room) D' /\ (S room <= length D')%nat /\
            unstuff fin (at_ls p) (at_cr p) (at_rest p) = (drop (S room) D', R', E')
      end) as Deliver.
    { intros D' R' E'.
      destruct (read_loop fin s (b =b LF) (b =b CR) room) as [[o1 p1] e1] eqn:H1.
      destruct (unstuff fin (b =b LF) (b =b CR) s) as [[o2 r2] e2] eqn:H2.
      intros ??; simplify_eq. specialize (IH _ _ _ _ _ _ _ _ _ H1 H2).
      destruct e; [|destruct IH as (-> & ? & ->)]; cbn; intuition (try lia; congruence). }
    cbn [unstuff] in HU. destruct ls; cbn [andb negb] in HU.
    + destruct (b =b DOT); [|by eapply Deliver].
      destruct s as [|c s]; [simplify_eq; cbn; split_and!; [done..|lia]|].
      destruct (c =b CR).
      { destruct (consumeTerminatorTail (c :: s) fin). simplify_eq. cbn. split_and!; [done..|lia]. }
      destruct (c =b LF); [simplify_eq; cbn; split_and!; [done..|lia]|].
      by eapply IH.
    + destruct (cr && (b =b DOT)); [|by eapply Deliver].
      destruct (bareCRDot s fin); [simplify_eq; cbn; split_and!; [done..|lia]|by eapply Deliver].
Qed.

Lemma Read_remaining d len D R E :
  remaining d = (D, R, E) ->
  let '(out, d', e) := Read d len in
  out = take len D /\ remaining d' = (drop len D, R, E) /\
  (D = [] -> (0 < len)%nat -> e = Some E /\ unread (lr d') = R) /\
  (forall e', e = Some e' -> D = [] /\ e' = E).
Proof.
  unfold remaining, Read. destruct (done d) eqn:Hd.
  { intros H; simplify_eq. rewrite Hd, take_nil, drop_nil.
    split_and!; [done..|]; intros; by simplify_eq. }
  intros HU. destruct len as [|len].
  { rewrite Hd. split_and!; [done|done|lia|done]. }
  destruct (read_loop _ _ _ _ (S len)) as [[out p] e] eqn:HR.
  pose proof (read_loop_unstuff _ _ _ _ _ _ _ _ _ _ _ HR HU) as F.
  destruct e as [e|]; cbn [done lr unread err default final atLineStart previousCR].
  - destruct F as (-> & -> & -> & L).
    rewrite take_ge, drop_ge by lia. split_and!; [done|done| |].
    + by intros ->.
    + destruct out; [|done]. intros; by simplify_eq.
  - destruct F as (-> & L & ->). split_and!; [done|done| |done].
    intros ->. cbn in L. lia.
Qed.

Lemma Read_done d len R E :
  remaining d = ([], R, E) -> (0 < len)%nat ->
  exists d', Read d len = ([], d', Some E) /\ unread (lr d') = R.
Proof.
  intros HU L. pose proof (Read_remaining d len _ _ _ HU) as F.
  destruct (Read d len) as [[o d'] e]. destruct F as (-> & _ & F & _).
  destruct (F eq_refl L) as [-> ?]. rewrite take_nil. by exists d'.
Qed.

Lemma reads_remaining d sizes len D R E :
  remaining d = (D, R, E) ->
  let '(out, d) := reads d sizes in
  out = take (list_sum sizes) D /\
  ((length D <= list_sum sizes)%nat -> (0 < len)%nat ->
   exists d', Read d len = ([], d', Some E) /\ unread (lr d') = R).
Proof.
  revert d D. induction sizes as [|n sizes IH]; intros d D HU; cbn [reads].
  - split; [done|]. intros H. destruct D; [by apply Read_done|cbn in H; lia].
  - change (list_sum (n :: sizes)) with (n + list_sum sizes)%nat.
    pose proof (Read_remaining d n _ _ _ HU) as F.
    destruct (Read d n) as [[o d'] e]. destruct F as (-> & HU' & _ & F).
    destruct e as [e|].
    + destruct (F e eq_refl) as [-> ->]. rewrite !take_nil. split; [done|].
      intros _. apply Read_done. by rewrite drop_nil in HU'.
    + specialize (IH _ _ HU'). destruct (reads d' sizes) as [out d'']. destruct IH as [-> IH].
      split; [by rewrite take_take_drop|].
      intros H. apply IH. rewrite length_drop. lia.
Qed.

(** C22: however the caller sizes its buffers, the bytes [Read] has delivered so far are a prefix of
    the reference decoding of the connection, as long as the buffers allow; once they have covered
    it, the next [Read] delivers nothing and reports how the message ended, leaving exactly the
    bytes the reference leaves for the commands that follow. *)
Theorem DotUnstuffReader_refines (r : LineReader) (sizes : list nat) (len : nat) :
  let '(D, R, E) := unstuff (final r) true false (unread r) in
  let '(out, d) := reads (NewDotUnstuffReader r) sizes in
  out = take (list_sum sizes) D /\
  ((length D <= list_sum sizes)%nat -> (0 < len)%nat ->
   exists d', Read d len = ([], d', Some E) /\ unread (lr d') = R).
Proof.
  destruct (unstuff (final r) true false (unread r)) as [[D R] E] eqn:HU.
  by apply reads_remaining.
Qed.

(** *** Round trip *)

Lemma unstuff_stuff fin n ls cr tail :
  WriterFacts.canonical cr n = true -> (cr = true -> ls = false) ->
  match last n with None => ls | Some c => c =b LF end = true ->
  unstuff fin ls cr (stuff ls n ++ terminator ++ tail) = (n, tail, ErrIO EOF).
Proof.
  revert ls cr. induction n as [|c n IH]; intros ls cr Hcan Hcr Hend.
  { cbn in Hend. by subst ls. }
  rewrite last_cons in Hend.
  assert (match last n with None => c =b LF | Some d => d =b LF end = true) as Hend'
    by by destruct (last n).
  destruct cr; cbn [WriterFacts.canonical] in Hcan; apply andb_true_iff in Hcan as [Hc Hcan].
  - rewrite Hcr by done. destruct (byte_eqb_spec c LF) as [->|]; [|done]. cbn [stuff andb app unstuff].
    change (LF =b CR) with false. change (LF =b DOT) with false. change (LF =b LF) with true in *.
    cbn [andb negb]. by rewrite (IH true false).
  - apply negb_true_iff in Hc. cbn [stuff]. rewrite Hc in *.
    assert (unstuff fin false (c =b CR) (stuff false n ++ terminator ++ tail) =
      (n, tail, ErrIO EOF)) as E by by apply (IH false (c =b CR)).
    destruct (ls && (c =b DOT)) eqn:Hd.
    + apply andb_true_iff in Hd as [-> Hd]. destruct (byte_eqb_spec c DOT) as [->|]; [|done].
      change (DOT =b CR) with false in E. cbn [app].
      set (X := stuff false n ++ terminator ++ tail) in *.
      change (unstuff fin true false (DOT :: DOT :: X)) with
        (let '(o, r, e) := unstuff fin false false X in (DOT :: o, r, e)).
      by rewrite E.
    + cbn [app unstuff]. rewrite Hd, Hc, andb_false_r. cbn [andb]. by rewrite E.
Qed.

Lemma ends_body content : ends_line (body content) = true.
Proof.
  unfold body. destruct (ends_line (norm content)) eqn:E; [done|].
  unfold ends_line. by rewrite last_app.
Qed.

Lemma unstuff_stuffed fin content tail :
  unstuff fin true false (stuffed content ++ tail) = (body content, tail, ErrIO EOF).
Proof.
  unfold stuffed. rewrite <- app_assoc.
  apply unstuff_stuff; [apply WriterFacts.canonical_close|done|apply ends_body].
Qed.

(** C3: round trip through the wire: the receiver of what [DotStuffWriter] sent, for any split of
    the content into writes and any buffer sizes, reads back the content with normalised line
    endings, then [io.EOF], and leaves the bytes that followed the message untouched. *)
Theorem dot_stuffing_roundtrip chunks tail fin sizes len d d' :
  Writer.write_all (Writer.NewDotStuffWriter []) chunks = Some d -> Writer.Close d = (d', None) ->
  (length (body (concat chunks)) <= list_sum sizes)%nat -> (0 < len)%nat ->
  let r := {| unread := Writer.w d' ++ tail; final := fin |} in
  exists rd rd', reads (NewDotUnstuffReader r) sizes = (body (concat chunks), rd) /\
    Read rd len = ([], rd', Some (ErrIO EOF)) /\ unread (lr rd') = tail.
Proof.
  intros HW HC Hs Hl r.
  assert (remaining (NewDotUnstuffReader r) = (body (concat chunks), tail, ErrIO EOF)) as HU.
  { destruct (WriterFacts.writes_stuffed chunks) as (d0 & d0' & E & E' & W).
    rewrite E in HW. injection HW as <-. rewrite E' in HC. injection HC as <-.
    unfold remaining, r. cbn. rewrite W. apply unstuff_stuffed. }
  pose proof (reads_remaining _ sizes len _ _ _ HU) as F.
  destruct (reads (NewDotUnstuffReader r) sizes) as [out rd]. destruct F as [-> F].
  destruct (F Hs Hl) as (rd' & ? & ?). exists rd, rd'. by rewrite take_ge.
Qed.

Lemma dot_stuffing_roundtrip_witness :
  exists rd rd', reads (NewDotUnstuffReader
      {| unread := $".." ++ CRLF ++ $"b" ++ CRLF ++ terminator ++ $"QUIT"; final := EOF |}) [3; 4]%nat =
      ($"." ++ CRLF ++ $"b" ++ CRLF, rd) /\
    Read rd 1 = ([], rd', Some (ErrIO EOF)) /\ unread (lr rd') = $"QUIT".
Proof.
  set (d0 := default (Writer.NewDotStuffWriter [])
       (Writer.write_all (Writer.NewDotStuffWriter []) [$"."; [LF]; $"b"])).
  refine (dot_stuffing_roundtrip [$"."; [LF]; $"b"] ($"QUIT") EOF [3; 4]%nat 1 d0
    (fst (Writer.Close d0)) _ _ _ _); [vm_compute; reflexivity..|vm_compute; lia|lia].
Defined.

(** *** What ends a message *)

(** One leading dot dropped from each line. *)
Fixpoint undot (ls : bool) (s : bytes) : bytes :=
  match s with
  | [] => []
  | c :: s' => if ls && (c =b DOT) then undot false s' else c :: undot (c =b LF) s'
  end.

(** A dot alone on a line, for a reader that starts lines after LF and after CR: what follows the
    dot is LF or CRLF. *)
Fixpoint dot_line (ls cr : bool) (s : bytes) : bool :=
  match s with
  | [] => false
  | c :: s' =>
      (ls || cr) && (c =b DOT) &&
      match s' with
      | d :: s'' => (d =b LF) || (d =b CR) && match s'' with e :: _ => e =b LF | [] => false end
      | [] => false
      end
      || dot_line (c =b LF) (c =b CR) s'
  end.

Definition ends_at (ls : bool) (s : bytes) : bool :=
  match last s with None => ls | Some c => c =b LF end.

Lemma ends_at_cons ls c s : ends_at ls (c :: s) = ends_at (c =b LF) s.
Proof. unfold ends_at. rewrite last_cons. by destruct (last s). Qed.

Lemma truncated_not_EOF fin : truncated fin <> ErrIO EOF.
Proof. by destruct fin. Qed.

Lemma bareCRDot_not_EOF s fin : bareCRDot s fin <> Some (ErrIO EOF).
Proof.
  pose proof (truncated_not_EOF fin). unfold bareCRDot. intros ?. by repeat case_match; simplify_eq.
Qed.

(** A dot at the head of the text is no dot line when the lookahead of [Read] let it pass. *)
Lemma bareCRDot_None s fin enc R :
  bareCRDot s fin = None -> s = enc ++ terminator ++ R ->
  match enc with
  | d :: s'' => (d =b LF) || (d =b CR) && match s'' with e :: _ => e =b LF | [] => false end
  | [] => false
  end = false.
Proof.
  intros HB ->. unfold bareCRDot in HB. destruct enc as [|d [|e enc]]; [done| |]; cbn in *.
  - destruct (byte_eqb_spec d LF) as [->|]; [done|]. by rewrite andb_false_r.
  - destruct (byte_eqb_spec d LF) as [->|]; [done|]. cbn. destruct (d =b CR); [|done].
    by destruct (e =b LF).
Qed.

Lemma unstuff_EOF fin s ls cr D R :
  (ls = true -> cr = false) ->
  unstuff fin ls cr s = (D, R, ErrIO EOF) ->
  exists enc, s = enc ++ terminator ++ R /\ D = undot ls enc /\ ends_at ls enc = true /\
    dot_line ls cr enc = false.
Proof.
  revert ls cr D. induction s as [|b s IH]; intros ls cr D Hlc; cbn [unstuff].
  { intros H. pose proof (truncated_not_EOF fin). simplify_eq. }
  assert (forall D', ls && (b =b DOT) = false ->
    (cr = true -> b = DOT -> bareCRDot s fin = None) ->
    (let '(o, r, e) := unstuff fin (b =b LF) (b =b CR) s in (b :: o, r, e)) = (D', R, ErrIO EOF) ->
    exists enc, b :: s = enc ++ terminator ++ R /\ D' = undot ls enc /\ ends_at ls enc = true /\
      dot_line ls cr enc = false) as Deliver.
  { intros D' Hd HB. destruct (unstuff fin (b =b LF) (b =b CR) s) as [[o r] e] eqn:HU.
    intros ?; simplify_eq.
    assert ((b =b LF) = true -> (b =b CR) = false) as Hb by by destruct (byte_eqb_spec b LF) as [->|].
    destruct (IH _ _ _ Hb HU) as (enc & Es & -> & L & N).
    exists (b :: enc). cbn [undot app dot_line]. rewrite Hd, ends_at_cons, N, orb_false_r, Es.
    split_and!; [done..|]. destruct (byte_eqb_spec b DOT) as [->|]; [|by rewrite andb_false_r].
    destruct ls; [done|]. destruct cr; [|done].
    by apply (bareCRDot_None s fin _ R (HB eq_refl eq_refl)). }
  destruct (ls && (b =b DOT)) eqn:Hd.
  - apply andb_true_iff in Hd as [-> Hd]. destruct (byte_eqb_spec b DOT) as [->|]; [|done].
    pose proof (truncated_not_EOF fin). specialize (Hlc eq_refl) as ->.
    destruct s as [|c s]; [intros; simplify_eq|].
    destruct (byte_eqb_spec c CR) as [->|Hc].
    + unfold consumeTerminatorTail. destruct s as [|e s]; [intros; simplify_eq|].
      destruct (byte_eqb_spec e LF) as [->|]; [|done]. intros; simplify_eq.
      by exists [].
    + destruct (byte_eqb_spec c LF) as [->|Hc']; [done|]. intros HU.
      
      destruct (IH false false _ (fun _ => eq_refl) HU) as (enc & E & -> & L & N). exists (DOT :: enc).
      rewrite E, ends_at_cons. cbn [dot_line]. split_and!; [done..|].
      change (DOT =b LF) with false. change (DOT =b CR) with false. rewrite N, orb_false_r.
      destruct enc as [|c' enc]; [done|]. cbn in E. simplify_eq. cbn.
      destruct (byte_eqb_spec c' LF), (byte_eqb_spec c' CR); done.
  - destruct (negb ls && cr && (b =b DOT)) eqn:Hg.
    + destruct (bareCRDot s fin) as [e|] eqn:HB; [|by apply Deliver].
      intros; simplify_eq. by apply bareCRDot_not_EOF in HB.
    + apply Deliver; [done|]. intros -> ->. destruct ls; [|done]. by specialize (Hlc eq_refl).
Qed.

(** a message ends cleanly only at a dot line: when the decoding of a connection ends with
    [io.EOF], the connection is some text [enc] ending a line, then ".CRLF", then the untouched
    rest; the delivered content is [enc] with one leading dot dropped per line, and [enc] itself
    holds no dot line even for a peer that also takes a bare CR or a bare LF as a line end, so no
    peer reads an earlier end of the message. *)
Theorem unstuff_end_of_data fin s D R :
  unstuff fin true false s = (D, R, ErrIO EOF) ->
  exists enc, s = enc ++ terminator ++ R /\ D = undot true enc /\ ends_at true enc = true /\
    dot_line true false enc = false.
Proof. by apply unstuff_EOF. Qed.

Lemma unstuff_end_of_data_witness :
  exists enc, $"..a" ++ CRLF ++ terminator ++ $"QUIT" = enc ++ terminator ++ $"QUIT" /\
    $".a" ++ CRLF = undot true enc /\ ends_at true enc = true /\ dot_line true false enc = false.
Proof.
  apply (unstuff_end_of_data EOF ($"..a" ++ CRLF ++ terminator ++ $"QUIT") ($".a" ++ CRLF) ($"QUIT")).
  vm_compute. reflexivity.
Defined.

(** The decoder over text that was encoded the proper way and is not ended yet. *)
Lemma unstuff_open fin n ls cr x :
  WriterFacts.canonical cr n = true -> (cr = true -> ls = false) ->
  unstuff fin ls cr (stuff ls n ++ x) =
  let '(o, r, e) := unstuff fin (ends_at ls n) false x in (n ++ o, r, e).
Proof.
  revert ls cr. induction n as [|c n IH]; intros ls cr Hcan Hcr.
  { cbn in Hcan. apply negb_true_iff in Hcan as ->. cbn. by destruct (unstuff fin ls false x) as [[??]?]. }
  rewrite ends_at_cons. destruct cr; cbn [WriterFacts.canonical] in Hcan; apply andb_true_iff in Hcan as [Hc Hcan].
  - rewrite Hcr by done. destruct (byte_eqb_spec c LF) as [->|]; [|done]. cbn [stuff andb app unstuff].
    change (LF =b CR) with false. change (LF =b DOT) with false. change (LF =b LF) with true in *.
    cbn [andb negb]. rewrite (IH true false) by done. by destruct (unstuff fin _ false x) as [[??]?].
  - apply negb_true_iff in Hc. cbn [stuff]. rewrite Hc in *.
    assert (unstuff fin false (c =b CR) (stuff false n ++ x) =
      let '(o, r, e) := unstuff fin (ends_at false n) false x in (n ++ o, r, e)) as E by by apply IH.
    destruct (ls && (c =b DOT)) eqn:Hd.
    + apply andb_true_iff in Hd as [-> Hd]. destruct (byte_eqb_spec c DOT) as [->|]; [|done].
      change (DOT =b CR) with false in E. cbn [app]. set (X := stuff false n ++ x) in *.
      change (unstuff fin true false (DOT :: DOT :: X)) with
        (let '(o, r, e) := unstuff fin false false X in (DOT :: o, r, e)).
      rewrite E. by destruct (unstuff fin _ false x) as [[??]?].
    + cbn [app unstuff]. rewrite Hd, Hc, andb_false_r. cbn [andb]. rewrite E.
      by destruct (unstuff fin _ false x) as [[??]?].
Qed.

Lemma canonical_norm s : WriterFacts.canonical false (norm s) = true.
Proof.
  enough (forall n s, (length s <= n)%nat -> WriterFacts.canonical false (norm s) = true) as E
    by (by eapply E). clear s.
  induction n as [|n IH]; intros [|c s] Hn; cbn [length] in Hn; try lia; try done.
  destruct (byte_eqb_spec c CR) as [->|Hcr].
  - rewrite WriterFacts.norm_CR. cbn. destruct s as [|d s]; [done|]. cbn [WriterFacts.norm_cr].
    destruct (d =b LF); apply IH; cbn in *; lia.
  - cbn [norm]. destruct (byte_eqb_spec c CR); [done|].
    destruct (byte_eqb_spec c LF) as [->|Hlf]; cbn; [apply IH; lia|].
    destruct (byte_eqb_spec c CR), (byte_eqb_spec c LF); try done. apply IH. lia.
Qed.

(** Once [Read] reported an error it reports the same one for ever, and reads nothing more. *)
Lemma Read_sticky d len d' e n :
  (0 < len)%nat -> Read d len = ([], d', Some e) -> Read d' n = ([], d', Some e).
Proof.
  unfold Read. intros L. destruct (done d) eqn:Hd; [intros; simplify_eq; by rewrite Hd|].
  destruct len; [lia|]. destruct (read_loop _ _ _ _ _) as [[out p] [e1|]]; [|done].
  intros. destruct out; simplify_eq. done.
Qed.

(** The smuggling sequences: a dot line ended by a bare LF, behind a bare LF or behind CRLF; a dot
    line behind a bare CR, ended by LF or by CRLF. With each, what a reader may still deliver of
    it, what it leaves, and its error. *)
Definition smuggled : list (bytes * (bytes * bytes * wire_err)) :=
  [ ([LF; DOT; LF], ([LF], [LF], ErrBareLFTerminator));
    (CRLF ++ [DOT; LF], (CRLF, [LF], ErrBareLFTerminator));
    ([CR; DOT; LF], ([CR], [LF], ErrMalformedTerminator));
    ([CR; DOT; CR; LF], ([CR], [CR; LF], ErrMalformedTerminator)) ].

(** C28: the smuggling sequences with a bare LF after the dot, or a bare CR before it, are
    rejected by [Read] wherever they occur in a message: after any text in the proper encoding,
    with whatever bytes behind them, and whatever buffers the caller reads with, the caller gets
    the text and the line end of the sequence, and then the error, from that [Read] and from every
    later one; the bytes behind the dot stay unread. *)
Theorem Read_rejects_smuggling fin content tail attack out left e sizes len :
  In (attack, (out, left, e)) smuggled ->
  (length (norm content ++ out) <= list_sum sizes)%nat -> (0 < len)%nat ->
  let r := {| unread := stuff true (norm content) ++ attack ++ tail; final := fin |} in
  exists d d', reads (NewDotUnstuffReader r) sizes = (norm content ++ out, d) /\
    Read d len = ([], d', Some e) /\ unread (lr d') = left ++ tail /\
    e <> ErrIO EOF /\ forall n, Read d' n = ([], d', Some e).
Proof.
  intros Hin Hs Hl r.
  assert (unstuff fin (ends_at true (norm content)) false (attack ++ tail) = (out, left ++ tail, e) /\
    e <> ErrIO EOF) as [E He].
  { unfold smuggled in Hin. destruct (ends_at true (norm content));
      cbn in Hin; decompose [or] Hin; by simplify_eq. }
  assert (remaining (NewDotUnstuffReader r) = (norm content ++ out, left ++ tail, e)) as HU.
  { unfold remaining, r. cbn. rewrite unstuff_open by (done || apply canonical_norm). by rewrite E. }
  pose proof (reads_remaining _ sizes len _ _ _ HU) as F.
  destruct (reads (NewDotUnstuffReader r) sizes) as [o d]. destruct F as [-> F].
  destruct (F Hs Hl) as (d' & HR & Hu). exists d, d'. rewrite take_ge by done.
  split_and!; [done..|]. intros n. by eapply Read_sticky.
Qed.

Lemma Read_rejects_smuggling_witness :
  exists d d', reads (NewDotUnstuffReader
      {| unread := $"..hi" ++ [CR; DOT; CR; LF] ++ $"MAIL"; final := EOF |}) [2; 2]%nat =
      ($".hi" ++ [CR], d) /\
    Read d 8 = ([], d', Some ErrMalformedTerminator) /\ unread (lr d') = CRLF ++ $"MAIL" /\
    ErrMalformedTerminator <> ErrIO EOF /\
    forall n, Read d' n = ([], d', Some ErrMalformedTerminator).
Proof.
  apply (Read_rejects_smuggling EOF ($".hi") ($"MAIL") [CR; DOT; CR; LF] [CR] [CR; LF]
    ErrMalformedTerminator [2; 2]%nat 8).
  - right. right. right. left. reflexivity.
  - vm_compute. lia.
  - lia.
Defined.

(** A dot line reached through a bare LF, <LF>.<CRLF>, does end the message: the line-start flag of
    [Read] is set by LF alone. *)
Lemma unstuff_accepts_bare_LF_dot :
  unstuff EOF true false ($"hi" ++ [LF] ++ terminator ++ $"MAIL") =
    ($"hi" ++ [LF], $"MAIL", ErrIO EOF).
Proof. reflexivity. Qed.

End ReaderFacts.
