(* ===== verification/Reply.v ===== *)
(** * internal/smtpwire: replies

    reply.go ([readLine], [parseReplyLine], [ReadReply]), reply_encoder.go ([EncodeReply]) and
    enhanced.go ([ExtractEnhancedCode]). The reader functions take the [LineReader] and return what
    is left of it beside their result, so that what a reply consumes can be stated. *)
From Stdlib Require Import ZArith Lia Bool.
From stdpp Require Import base list gmap strings.
From S2P Require Import Prelude GoStrings Wire.

(** ** Data *)

Record Reply : Type := { Code : Z; Lines : list bytes; Text : bytes }.

(** enhanced.go: EnhancedCode. *)
Record EnhancedCode : Type := { Class : Z; Subject : Z; Detail : Z; Raw : bytes }.

Inductive ReplyContext : Type := ReplyContextCommand | ReplyContextGreeting | ReplyContextHello.

#[global] Instance ReplyContext_eq_dec : EqDecision ReplyContext.
Proof. solve_decision. Defined.

Record ReplyOptions : Type := { Enhanced : option EnhancedCode; Context : ReplyContext }.

(** ** enhanced.go *)

(** The loop of [scanUpTo3Digits]: at most [k] digits, their value, their count and what follows. *)
Fixpoint scan_digits (k : nat) (s : bytes) (val : Z) (consumed : nat) : Z * nat * bytes :=
  match k, s with
  | S k', c :: s' =>
      if is_digit c then scan_digits k' s' (val * 10 + (bz c - 48)) (S consumed)
      else (val, consumed, s)
  | _, _ => (val, consumed, s)
  end.

Definition scanUpTo3Digits (s : bytes) : option (Z * nat) :=
  let '(val, i, rest) := scan_digits 3 s 0 0 in
  match i with
  | O => None
  | _ => match rest with
         | c :: _ => if is_digit c then None else Some (val, i)
         | [] => Some (val, i)
         end
  end.

(** [Some (code, rest)] is [ok = true]; [None] leaves the text unchanged. *)
Definition ExtractEnhancedCode (text : bytes) : option (EnhancedCode * bytes) :=
  match text with
  | c0 :: dot0 :: t1 =>
      if negb ((c0 =b "2"%byte) || (c0 =b "4"%byte) || (c0 =b "5"%byte)) then None
      else if negb (dot0 =b "."%byte) then None
      else match scanUpTo3Digits t1 with
      | None => None
      | Some (subject, adv1) =>
          match drop adv1 t1 with
          | dot1 :: t2 =>
              if negb (dot1 =b "."%byte) then None
              else match scanUpTo3Digits t2 with
              | None => None
              | Some (detail, adv2) =>
                  let code := {| Class := bz c0 - 48; Subject := subject; Detail := detail;
                                 Raw := take (2 + adv1 + 1 + adv2) text |} in
                  match drop adv2 t2 with
                  | [] => Some (code, [])
                  | c :: rest => if c =b SP then Some (code, rest) else None
                  end
              end
          | [] => None
          end
      end
  | _ => None
  end.

(** ** reply_encoder.go *)

Definition validReplyCode (code : Z) : bool :=
  (200 <=? code) && (code <=? 559) && ((code ÷ 10) `rem` 10 <=? 5).

Definition formatEnhancedCode (replyCode : Z) (code : EnhancedCode) : result wire_err bytes :=
  if (negb (Class code =? 2) && negb (Class code =? 4) && negb (Class code =? 5))
     || (Subject code <? 0) || (999 <? Subject code) || (Detail code <? 0) || (999 <? Detail code)
  then Err ErrEnhancedCodeSyntax
  else if negb (replyCode ÷ 100 =? Class code) then Err ErrEnhancedClassMismatch
  else Ok (Itoa (Class code) ++ $"." ++ Itoa (Subject code) ++ $"." ++ Itoa (Detail code)).

Definition bad_reply_text (line : bytes) : bool := ContainsAny line [CR; LF; x00].

Definition prefix_line (prefix line : bytes) : bytes :=
  match line with [] => prefix | _ => prefix ++ SP :: line end.

(** The lines with their enhanced status prefix, where the context calls for one. *)
Definition prefixed_lines (code : Z) (lines : list bytes) (opts : ReplyOptions) :
    result wire_err (list bytes) :=
  match Enhanced opts, Context opts with
  | Some e, ReplyContextCommand =>
      let? prefix := formatEnhancedCode code e in Ok (map (prefix_line prefix) lines)
  | _, _ => Ok lines
  end.

Fixpoint frame_lines (code : Z) (lines : list bytes) : bytes :=
  match lines with
  | [] => []
  | [line] => Itoa code ++ SP :: line ++ CRLF
  | line :: lines' => Itoa code ++ "-"%byte :: line ++ CRLF ++ frame_lines code lines'
  end.

(** The bytes [EncodeReply] writes. *)
Definition EncodeReply (reply : Reply) (opts : ReplyOptions) : result wire_err bytes :=
  if negb (validReplyCode (Code reply)) then Err ErrReplyEncodeCode
  else
    let lines := match Lines reply with [] => [Text reply] | ls => ls end in
    if existsb bad_reply_text lines then Err ErrReplyEncodeText
    else let? lines' := prefixed_lines (Code reply) lines opts in
         Ok (frame_lines (Code reply) lines').

(** ** reply.go *)

(** [readLine]: the line, or the error, and the bytes left. [buf] is the line read so far. *)
Fixpoint read_line (max : Z) (fin : ioerr) (s buf : bytes) : result wire_err bytes * bytes :=
  match s with
  | [] => (Err (ErrIO (match buf with [] => fin | _ => normalizeReadErr fin end)), [])
  | b :: s' =>
      if b =b LF then (Ok (TrimSuffix buf [CR]), s')
      else if max <=? Z.of_nat (length buf) then (Err ErrReplyLineTooLong, s')
      else read_line max fin s' (buf ++ [b])
  end.

Definition readLine (r : LineReader) (max : Z) : result wire_err bytes * LineReader :=
  let '(res, rest) := read_line max (final r) (unread r) [] in
  (res, {| unread := rest; final := final r |}).

(** code, continuation, text *)
Definition parseReplyLine (line : bytes) : result wire_err (Z * bool * bytes) :=
  match line with
  | d0 :: d1 :: d2 :: after =>
      if negb (in_range "2"%byte "5"%byte d0) || negb (in_range "0"%byte "5"%byte d1)
         || negb (is_digit d2) then Err ErrReplyCodeSyntax
      else
        let code := (bz d0 - 48) * 100 + (bz d1 - 48) * 10 + (bz d2 - 48) in
        match after with
        | [] => Ok (code, false, [])
        | c :: text =>
            if c =b "-"%byte then Ok (code, true, text)
            else if c =b SP then Ok (code, false, text)
            else Ok (code, false, after)
        end
  | _ => Err ErrReplyLineTooShort
  end.

(** The loop of [ReadReply], one line per iteration. [lines] are those read so far, [code] the
    first one's code. [None] is an exhausted [fuel]: every line read consumes a byte, so
    [ReadReply]'s fuel is enough ([ReadReply_total]). *)
Fixpoint read_reply (fuel : nat) (limits : Limits) (r : LineReader) (code : option Z)
    (lines : list bytes) (totalSize : Z) : option (result wire_err Reply * LineReader) :=
  match fuel with
  | O => None
  | S fuel' =>
      match readLine r (wrap64 (MaxReplyLineLength limits + 5)) with
      | (Err e, r') =>
          match lines, e with
          | _ :: _, ErrIO EOF => Some (Err (ErrIO ErrUnexpectedEOF), r')
          | _, _ => Some (Err e, r')
          end
      | (Ok raw, r') =>
          match parseReplyLine raw with
          | Err e => Some (Err e, r')
          | Ok (lineCode, cont, text) =>
              if MaxReplyLineLength limits <? Z.of_nat (length text)
              then Some (Err ErrReplyLineTooLong, r')
              else
                let code' := default lineCode code in
                if negb (lineCode =? code') then Some (Err ErrReplyCodeMismatch, r')
                else
                  let totalSize' := totalSize + Z.of_nat (length text) in
                  if MaxReplySize limits <? totalSize' then Some (Err ErrReplyTooLarge, r')
                  else
                    let lines' := lines ++ [text] in
                    if MaxReplyLines limits <? Z.of_nat (length lines')
                    then Some (Err ErrTooManyReplyLines, r')
                    else if cont then read_reply fuel' limits r' (Some code') lines' totalSize'
                    else Some (Ok {| Code := code'; Lines := lines'; Text := Join lines' [LF] |}, r')
          end
      end
  end.

Definition ReadReply (r : LineReader) (limits : Limits) :
    option (result wire_err Reply * LineReader) :=
  read_reply (S (length (unread r))) (withDefaults limits) r None [] 0.

(** ** Lemmas *)

Lemma read_line_rest max fin s buf res rest :
  read_line max fin s buf = (res, rest) ->
  (forall line, res = Ok line -> (length rest < length s)%nat) /\ exists used, s = used ++ rest.
Proof.
  revert buf. induction s as [|b s IH]; intros buf; cbn [read_line].
  { intros; simplify_eq. split; [done|]. by exists []. }
  destruct (b =b LF); [intros; simplify_eq; split; [cbn; lia|by exists [b]]|].
  destruct (max <=? Z.of_nat (length buf)); [intros; simplify_eq; split; [done|by exists [b]]|].
  intros (H & used & ->)%IH. split; [|by exists (b :: used)].
  intros line E. specialize (H _ E). cbn. lia.
Qed.

(** [ReadReply] always returns: no sequence of bytes makes it loop. *)
Theorem ReadReply_total r limits : exists res r', ReadReply r limits = Some (res, r').
Proof.
  unfold ReadReply. generalize (@None Z) (@nil bytes) 0 (withDefaults limits).
  assert (length (unread r) < S (length (unread r)))%nat as H by lia. revert H.
  generalize (S (length (unread r))) as fuel. intros fuel. revert r.
  induction fuel as [|fuel IH]; intros r H code lines total lims; [lia|]. cbn [read_reply].
  unfold readLine. destruct (read_line _ _ _ _) as [[raw|e] rest] eqn:E; [|by repeat case_match; eauto].
  apply read_line_rest in E as [E _]. specialize (E _ eq_refl).
  repeat (case_match; eauto). apply IH. cbn. lia.
Qed.

(** *** Codes *)

(** A property of every number of a range, by evaluation. *)
Definition all_upto (f : Z -> bool) (lo : Z) (n : nat) : bool :=
  forallb (fun k => f (lo + Z.of_nat k)) (seq 0 n).

Lemma all_upto_spec f lo n z :
  all_upto f lo n = true -> lo <= z < lo + Z.of_nat n -> f z = true.
Proof.
  unfold all_upto. rewrite forallb_forall. intros H Hz.
  specialize (H (Z.to_nat (z - lo))). rewrite Z2Nat.id in H by lia.
  replace (lo + (z - lo)) with z in H by lia. apply H, in_seq. lia.
Qed.

Definition code_ok (code : Z) : bool :=
  if validReplyCode code then
    match Itoa code with
    | [d0; d1; d2] =>
        in_range "2"%byte "5"%byte d0 && in_range "0"%byte "5"%byte d1 && is_digit d2
        && ((bz d0 - 48) * 100 + (bz d1 - 48) * 10 + (bz d2 - 48) =? code)
    | _ => false
    end
  else true.

Lemma valid_code_digits code :
  validReplyCode code = true ->
  exists d0 d1 d2, Itoa code = [d0; d1; d2] /\ in_range "2"%byte "5"%byte d0 = true /\
    in_range "0"%byte "5"%byte d1 = true /\ is_digit d2 = true /\
    (bz d0 - 48) * 100 + (bz d1 - 48) * 10 + (bz d2 - 48) = code.
Proof.
  intros H.
  assert (code_ok code = true) as E.
  { apply (all_upto_spec code_ok 200 360); [vm_compute; done|].
    unfold validReplyCode in H. lia. }
  unfold code_ok in E. rewrite H in E. destruct (Itoa code) as [|d0 [|d1 [|d2 [|? ?]]]]; try done.
  btrue. exists d0, d1, d2. split_and!; try done. lia.
Qed.

Definition no_digit_head (s : bytes) : bool :=
  match s with c :: _ => negb (is_digit c) | [] => true end.

Lemma scan_digits_app k ds rest v i :
  forallb is_digit ds = true -> (length ds <= k)%nat -> no_digit_head rest = true ->
  scan_digits k (ds ++ rest) v i =
    (fold_left (fun acc c => acc * 10 + (bz c - 48)) ds v, (i + length ds)%nat, rest).
Proof.
  revert k v i. induction ds as [|d ds IH]; intros k v i Hd Hk Hr; cbn [length app] in *.
  - rewrite Nat.add_0_r. destruct k, rest as [|c rest]; try done. cbn in *. by destruct (is_digit c).
  - destruct k as [|k]; [lia|]. apply andb_true_iff in Hd as [Hd Hds]. cbn [scan_digits fold_left].
    rewrite Hd, IH by (done || lia). f_equal. f_equal. lia.
Qed.

Definition short_field (n : Z) : bool := (length (Itoa n) <=? 3)%nat.

Lemma scanUpTo3Digits_Itoa n rest :
  0 <= n <= 999 -> no_digit_head rest = true ->
  scanUpTo3Digits (Itoa n ++ rest) = Some (n, length (Itoa n)).
Proof.
  intros Hn Hr.
  assert (short_field n = true) as L%Nat.leb_le
    by (apply (all_upto_spec short_field 0 1000); [by vm_compute|lia]).
  unfold Itoa, FormatInt in *. destruct (Z.ltb_spec n 0); [lia|].
  destruct (FormatUint_spec n ltac:(lia)) as [Hv Hd].
  unfold scanUpTo3Digits. rewrite scan_digits_app by done.
  change (fold_left _ (FormatUint n) 0) with (dec_value (FormatUint n)). rewrite Hv.
  pose proof (FormatUint_nonempty n). destruct (FormatUint n) as [|d ds]; [done|]. cbn.
  destruct rest as [|c rest]; [done|]. cbn in Hr. by destruct (is_digit c).
Qed.

(** *** One line *)

Lemma read_line_app max fin l s buf :
  no_byte LF l = true -> Z.of_nat (length buf + length l) <= max ->
  read_line max fin (l ++ s) buf = read_line max fin s (buf ++ l).
Proof.
  revert buf. induction l as [|c l IH]; intros buf Hl Hm; cbn [app] in *; [by rewrite app_nil_r|].
  cbn [no_byte forallb length] in *. apply andb_true_iff in Hl as [Hc Hl].
  apply negb_true_iff in Hc. cbn [read_line]. rewrite Hc.
  destruct (Z.leb_spec max (Z.of_nat (length buf))); [lia|].
  rewrite IH; [by rewrite <- app_assoc|done|]. rewrite length_app. cbn. lia.
Qed.

Lemma read_line_CRLF max fin l tail :
  no_byte LF l = true -> Z.of_nat (length l) + 1 <= max ->
  read_line max fin (l ++ CRLF ++ tail) [] = (Ok l, tail).
Proof.
  intros Hl Hm. unfold CRLF. change ([CR; LF] ++ tail) with ([CR] ++ LF :: tail).
  rewrite app_assoc, read_line_app.
  - cbn [read_line app]. change (LF =b LF) with true. by rewrite TrimSuffix_app.
  - unfold no_byte in *. by rewrite forallb_app_eq, Hl.
  - rewrite length_app. cbn. lia.
Qed.

Lemma parseReplyLine_frame code sep text :
  validReplyCode code = true -> (sep =b "-"%byte) || (sep =b SP) = true ->
  parseReplyLine (Itoa code ++ sep :: text) = Ok (code, sep =b "-"%byte, text).
Proof.
  intros (d0 & d1 & d2 & -> & H0 & H1 & H2 & E)%valid_code_digits Hs. cbn.
  rewrite H0, H1, H2, E. cbn. destruct (sep =b "-"%byte); [done|]. cbn in Hs. by rewrite Hs.
Qed.

Lemma Itoa_no_LF code : validReplyCode code = true -> no_byte LF (Itoa code) = true.
Proof.
  intros (d0 & d1 & d2 & -> & H0 & H1 & H2 & E)%valid_code_digits.
  unfold no_byte, in_range, is_digit in *. cbn. unfold in_range in *. bz_consts.
  repeat (apply andb_true_iff; split); try done; blia.
Qed.

Lemma valid_code_length code : validReplyCode code = true -> length (Itoa code) = 3%nat.
Proof. by intros (d0 & d1 & d2 & -> & _)%valid_code_digits. Qed.

Lemma readLine_frame code sep text tail fin max :
  validReplyCode code = true -> (sep =b "-"%byte) || (sep =b SP) = true ->
  no_byte LF text = true -> Z.of_nat (length text) + 5 <= max ->
  readLine {| unread := Itoa code ++ sep :: text ++ CRLF ++ tail; final := fin |} max =
    (Ok (Itoa code ++ sep :: text), {| unread := tail; final := fin |}).
Proof.
  intros Hc Hs Ht Hm. unfold readLine. cbn [unread final].
  replace (Itoa code ++ sep :: text ++ CRLF ++ tail)
    with ((Itoa code ++ sep :: text) ++ CRLF ++ tail) by (rewrite <- app_assoc; done).
  rewrite read_line_CRLF; [done| |].
  - pose proof (Itoa_no_LF code Hc). unfold no_byte in *. rewrite forallb_app_eq. cbn.
    apply andb_true_iff; split; [done|]. apply andb_true_iff; split; [|done].
    destruct (byte_eqb_spec sep "-"%byte) as [->|]; [done|].
    by destruct (byte_eqb_spec sep SP) as [->|].
  - rewrite length_app, valid_code_length by done. cbn. lia.
Qed.

(** *** The whole reply *)

Definition text_size (lines : list bytes) : Z := Z.of_nat (length (concat lines)).

Lemma text_size_cons l ls : text_size (l :: ls) = Z.of_nat (length l) + text_size ls.
Proof. unfold text_size. cbn. rewrite length_app. lia. Qed.

(** The reply fits the (effective) limits, and the line bound leaves room for the framing. *)
Definition fits (lims : Limits) (lines : list bytes) : Prop :=
  Forall (fun l => Z.of_nat (length l) <= MaxReplyLineLength lims) lines /\
  text_size lines <= MaxReplySize lims /\
  Z.of_nat (length lines) <= MaxReplyLines lims /\
  0 <= MaxReplyLineLength lims <= MaxInt64 - 5.

Lemma read_reply_frame code tail fin lims lines fuel got total :
  validReplyCode code = true -> lines <> [] -> Forall (fun l => no_byte LF l = true) lines ->
  fits lims lines -> (length lines <= fuel)%nat -> 0 <= total ->
  total + text_size lines <= MaxReplySize lims ->
  Z.of_nat (length got + length lines) <= MaxReplyLines lims ->
  read_reply fuel lims {| unread := frame_lines code lines ++ tail; final := fin |}
    (match got with [] => None | _ => Some code end) got total =
  Some (Ok {| Code := code; Lines := got ++ lines; Text := Join (got ++ lines) [LF] |},
        {| unread := tail; final := fin |}).
Proof.
  intros Hc. revert fuel got total.
  induction lines as [|l lines IH]; intros fuel got total Hne Hlf Hfit Hf Ht Hs Hn; [done|].
  destruct fuel as [|fuel]; [cbn in Hf; lia|].
  apply Forall_cons in Hlf as [Hl Hlf]. destruct Hfit as (F & Sz & N & M).
  apply Forall_cons in F as [Fl F]. rewrite text_size_cons in *.
  assert (0 <= text_size lines) by (unfold text_size; lia).
  assert (wrap64 (MaxReplyLineLength lims + 5) = MaxReplyLineLength lims + 5) as W
    by (apply wrap64_id; unfold MaxInt64 in M; lia).
  cbn [length] in *.
  assert (exists sep rest, frame_lines code (l :: lines) ++ tail =
      Itoa code ++ sep :: l ++ CRLF ++ rest ++ tail /\ rest = frame_lines code lines /\
      (sep =b "-"%byte) || (sep =b SP) = true /\
      (sep =b "-"%byte) = match lines with [] => false | _ => true end)
    as (sep & rest & E & -> & Hsep & Hcont).
  { destruct lines as [|l' lines]; [exists SP, []|exists "-"%byte; eexists];
      (split_and!; [|reflexivity|done|done]); cbn [frame_lines];
      rewrite <- ?app_assoc; cbn; by rewrite <- ?app_assoc. }
  rewrite E. cbn [read_reply]. rewrite W, readLine_frame by (done || lia).
  rewrite parseReplyLine_frame by done.
  destruct (Z.ltb_spec (MaxReplyLineLength lims) (Z.of_nat (length l))); [lia|].
  replace (default code (match got with [] => None | _ => Some code end)) with code
    by by destruct got.
  rewrite Z.eqb_refl. cbn [negb].
  destruct (Z.ltb_spec (MaxReplySize lims) (total + Z.of_nat (length l))); [lia|].
  rewrite length_app. cbn [length].
  destruct (Z.ltb_spec (MaxReplyLines lims) (Z.of_nat (length got + 1))); [lia|].
  rewrite Hcont. destruct lines as [|l' lines]; [done|].
  replace (Some code) with (match got ++ [l] with [] => None | _ => Some code end)
    by by destruct got.
  rewrite IH; [by rewrite <- app_assoc|done|done| |cbn in *; lia|lia|lia|].
  - split_and!; try done; cbn in *; lia.
  - rewrite length_app. cbn in *. lia.
Qed.

Lemma bad_reply_text_LF l : bad_reply_text l = false -> no_byte LF l = true.
Proof.
  unfold bad_reply_text. intros H. unfold no_byte. rewrite forallb_Forall_eq.
  apply List.Forall_forall. intros c Hc.
  unfold ContainsAny in H. destruct (byte_eqb_spec c LF) as [->|]; [|done]. exfalso.
  rewrite (proj2 (existsb_exists _ _)) in H; [done|]. by exists LF.
Qed.

Lemma digits_no_byte s c :
  is_digit c = false -> forallb is_digit s = true -> no_byte c s = true.
Proof.
  intros Hc. apply forallb_mono. intros x Hx. destruct (byte_eqb_spec x c) as [->|]; [|done].
  congruence.
Qed.

Lemma Itoa_digits n : 0 <= n -> forallb is_digit (Itoa n) = true.
Proof.
  intros H. unfold Itoa, FormatInt. destruct (Z.ltb_spec n 0); [lia|]. by apply FormatUint_digits.
Qed.

Lemma formatEnhancedCode_inv code e p :
  formatEnhancedCode code e = Ok p ->
  (Class e = 2 \/ Class e = 4 \/ Class e = 5) /\ 0 <= Subject e <= 999 /\ 0 <= Detail e <= 999 /\
  code ÷ 100 = Class e /\
  p = Itoa (Class e) ++ $"." ++ Itoa (Subject e) ++ $"." ++ Itoa (Detail e).
Proof.
  unfold formatEnhancedCode. intros H. cases_in H. split_and!; try lia. done.
Qed.

Lemma formatEnhancedCode_no_LF code e p : formatEnhancedCode code e = Ok p -> no_byte LF p = true.
Proof.
  intros (Hc & Hs & Hd & _ & ->)%formatEnhancedCode_inv. unfold no_byte.
  rewrite !forallb_app_eq.
  assert (forall n, 0 <= n -> forallb (fun d => negb (d =b LF)) (Itoa n) = true) as F
    by (intros n Hn; by apply (digits_no_byte _ LF), Itoa_digits).
  by rewrite !F by lia.
Qed.

Lemma prefixed_lines_no_LF code lines opts lines' :
  Forall (fun l => no_byte LF l = true) lines -> prefixed_lines code lines opts = Ok lines' ->
  Forall (fun l => no_byte LF l = true) lines' /\ length lines' = length lines.
Proof.
  unfold prefixed_lines. intros F H. cases_in H.
  split; [|apply length_map]. apply Forall_map. eapply Forall_impl; [done|].
  intros l Hl. cbn. unfold prefix_line.
  match goal with E : formatEnhancedCode _ _ = Ok _ |- _ => apply formatEnhancedCode_no_LF in E end.
  destruct l; [done|]. unfold no_byte in *. rewrite forallb_app_eq. apply andb_true_iff; split; [done|]. by cbn in *.
Qed.

Lemma EncodeReply_inv reply opts out :
  EncodeReply reply opts = Ok out ->
  validReplyCode (Code reply) = true /\
  exists lines, lines <> [] /\ Forall (fun l => no_byte LF l = true) lines /\
    prefixed_lines (Code reply) (match Lines reply with [] => [Text reply] | ls => ls end) opts =
      Ok lines /\
    out = frame_lines (Code reply) lines.
Proof.
  unfold EncodeReply. intros H. cases_in H. split; [by btrue|].
  match goal with E : existsb _ ?ls = false, E' : prefixed_lines _ _ _ = Ok ?l' |- _ =>
    assert (Forall (fun l => no_byte LF l = true) ls) as F;
    [|destruct (prefixed_lines_no_LF _ _ _ _ F E') as [F' L]; exists l'] end.
  { apply List.Forall_forall. intros l Hl. apply bad_reply_text_LF.
    destruct (bad_reply_text l) eqn:Hb; [|done].
    match goal with E : existsb _ _ = false |- _ => rewrite (proj2 (existsb_exists _ _)) in E by eauto end.
    done. }
  split_and!; try done. intros ->. by destruct (Lines reply).
Qed.

Lemma frame_lines_length code lines :
  validReplyCode code = true -> (length lines <= length (frame_lines code lines))%nat.
Proof.
  intros Hc%valid_code_length. induction lines as [|l [|l' lines] IH]; [done| |].
  - cbn. rewrite !length_app. cbn. lia.
  - change (frame_lines code (l :: l' :: lines)) with
      (Itoa code ++ "-"%byte :: l ++ CRLF ++ frame_lines code (l' :: lines)).
    rewrite length_app. cbn [length]. rewrite !length_app. cbn [length] in *. lia.
Qed.

Lemma read_encoded reply opts out lines limits tail fin :
  EncodeReply reply opts = Ok out ->
  prefixed_lines (Code reply) (match Lines reply with [] => [Text reply] | ls => ls end) opts =
    Ok lines ->
  fits (withDefaults limits) lines ->
  ReadReply {| unread := out ++ tail; final := fin |} limits =
    Some (Ok {| Code := Code reply; Lines := lines; Text := Join lines [LF] |},
          {| unread := tail; final := fin |}).
Proof.
  intros (Hc & lines' & Hne & Hlf & E & ->)%EncodeReply_inv E' Hfit.
  rewrite E in E'. injection E' as ->.
  unfold ReadReply. cbn [unread].
  apply (read_reply_frame (Code reply) tail fin _ lines _ [] 0); try done; try apply Hfit.
  rewrite length_app. pose proof (frame_lines_length (Code reply) lines Hc). lia.
Qed.

(** C31: a reply the server encodes is the reply the client reads: whatever follows it on the
    connection, [ReadReply] returns the code and the lines that were sent (with their enhanced
    status prefix) and leaves the rest untouched, provided the lines fit the reader's limits. *)
Theorem EncodeReply_ReadReply reply opts out lines limits tail fin :
  EncodeReply reply opts = Ok out ->
  prefixed_lines (Code reply) (match Lines reply with [] => [Text reply] | ls => ls end) opts =
    Ok lines ->
  fits (withDefaults limits) lines ->
  ReadReply {| unread := out ++ tail; final := fin |} limits =
    Some (Ok {| Code := Code reply; Lines := lines; Text := Join lines [LF] |},
          {| unread := tail; final := fin |}).
Proof. apply read_encoded. Qed.

Lemma EncodeReply_ReadReply_witness :
  ReadReply {| unread := $"250-2.1.0 a" ++ CRLF ++ $"250 2.1.0 b" ++ CRLF ++ $"354"; final := EOF |}
    ZeroLimits =
  Some (Ok {| Code := 250; Lines := [$"2.1.0 a"; $"2.1.0 b"]; Text := $"2.1.0 a" ++ LF :: $"2.1.0 b" |},
        {| unread := $"354"; final := EOF |}).
Proof.
  refine (EncodeReply_ReadReply {| Code := 250; Lines := [$"a"; $"b"]; Text := [] |}
    {| Enhanced := Some {| Class := 2; Subject := 1; Detail := 0; Raw := [] |};
       Context := ReplyContextCommand |}
    ($"250-2.1.0 a" ++ CRLF ++ $"250 2.1.0 b" ++ CRLF) [$"2.1.0 a"; $"2.1.0 b"] ZeroLimits ($"354")
    EOF _ _ _); [vm_compute; reflexivity..|].
  split_and!; try (vm_compute; congruence). repeat constructor; vm_compute; congruence.
Defined.

(** *** What a reply that was read satisfies *)

Lemma parseReplyLine_code line code cont text :
  parseReplyLine line = Ok (code, cont, text) -> validReplyCode code = true.
Proof.
  unfold parseReplyLine. destruct line as [|d0 [|d1 [|d2 line]]]; try done.
  unfold is_digit, in_range. intros H. destruct (negb _ || negb _ || negb _) eqn:B in H; [done|].
  assert (code = (bz d0 - 48) * 100 + (bz d1 - 48) * 10 + (bz d2 - 48)) as -> by by cases_in H.
  clear H. bz_consts. unfold validReplyCode.
  pose proof (bz_range d0). pose proof (bz_range d1). pose proof (bz_range d2).
  assert (((bz d0 - 48) * 100 + (bz d1 - 48) * 10 + (bz d2 - 48)) ÷ 10 =
    (bz d0 - 48) * 10 + (bz d1 - 48)) as ->.
  { rewrite Z.quot_div_nonneg by lia. symmetry. apply Z.div_unique with (bz d2 - 48); lia. }
  assert (((bz d0 - 48) * 10 + (bz d1 - 48)) `rem` 10 = bz d1 - 48) as ->.
  { rewrite Z.rem_mod_nonneg by lia. symmetry. apply Z.mod_unique with (bz d0 - 48); lia. }
  lia.
Qed.

Definition reply_ok (lims : Limits) (reply : Reply) : Prop :=
  validReplyCode (Code reply) = true /\ Lines reply <> [] /\ Text reply = Join (Lines reply) [LF] /\
  Forall (fun l => Z.of_nat (length l) <= MaxReplyLineLength lims) (Lines reply) /\
  Z.of_nat (length (Lines reply)) <= MaxReplyLines lims /\
  text_size (Lines reply) <= MaxReplySize lims.

Lemma text_size_snoc ls l : text_size (ls ++ [l]) = text_size ls + Z.of_nat (length l).
Proof. unfold text_size. rewrite concat_app, length_app. cbn. rewrite app_nil_r. lia. Qed.

Lemma read_reply_ok fuel lims r code lines reply r' :
  read_reply fuel lims r code lines (text_size lines) = Some (Ok reply, r') ->
  (forall c, code = Some c -> validReplyCode c = true) ->
  Forall (fun l => Z.of_nat (length l) <= MaxReplyLineLength lims) lines ->
  reply_ok lims reply.
Proof.
  revert r code lines. induction fuel as [|fuel IH]; intros r code lines; [done|].
  cbn [read_reply]. destruct (readLine _ _) as [[raw|e] r1]; [|by repeat case_match].
  destruct (parseReplyLine raw) as [[[lc cont] text]|] eqn:P; [|done].
  apply parseReplyLine_code in P.
  repeat (case_match; try done); intros HR Hc F;
  repeat match goal with E : (_ <? _) = false |- _ => apply Z.ltb_ge in E end;
  match goal with E : negb _ = false |- _ =>
    apply negb_false_iff, Z.eqb_eq in E; rewrite <- E in * end.
  - rewrite <- text_size_snoc in HR. eapply IH; [exact HR|intros; by simplify_eq|].
    apply Forall_app; split; [done|]. by repeat constructor.
  - simplify_eq. unfold reply_ok. cbn. rewrite text_size_snoc. split_and!; try done; try lia.
    + by destruct lines.
    + apply Forall_app; split; [done|]. by repeat constructor.
Qed.

(** C39: every reply [ReadReply] returns has a code of the grammar (200-559, middle digit at most
    5), at least one line, and respects each configured bound: line length, line count, total. *)
Theorem ReadReply_bounds r limits reply r' :
  ReadReply r limits = Some (Ok reply, r') -> reply_ok (withDefaults limits) reply.
Proof. intros H. by apply (read_reply_ok _ _ _ _ [] _ _ H). Qed.

Lemma ReadReply_bounds_witness :
  reply_ok (withDefaults ZeroLimits) {| Code := 354; Lines := [$"go"]; Text := $"go" |}.
Proof.
  apply (ReadReply_bounds {| unread := $"354 go" ++ CRLF ++ $"x"; final := EOF |} ZeroLimits _
    {| unread := $"x"; final := EOF |}). vm_compute. reflexivity.
Defined.

(** *** Enhanced codes *)

Lemma is_digit_Itoa_class n : n = 2 \/ n = 4 \/ n = 5 -> exists c, Itoa n = [c] /\ bz c - 48 = n /\
  (c =b "2"%byte) || (c =b "4"%byte) || (c =b "5"%byte) = true.
Proof. intros [->|[->| ->]]; eexists; split_and!; reflexivity. Qed.

Lemma ExtractEnhancedCode_prefix code e p rest :
  formatEnhancedCode code e = Ok p -> match rest with [] => True | c :: _ => c = SP end ->
  ExtractEnhancedCode (p ++ rest) =
    Some ({| Class := Class e; Subject := Subject e; Detail := Detail e; Raw := p |},
          match rest with [] => [] | _ :: r => r end).
Proof.
  intros (Hc & Hs & Hd & _ & ->)%formatEnhancedCode_inv Hr.
  destruct (is_digit_Itoa_class _ Hc) as (c & -> & Hcv & Hcb).
  set (S := Itoa (Subject e)) in *. set (D := Itoa (Detail e)) in *.
  replace (([c] ++ $"." ++ S ++ $"." ++ D) ++ rest) with (c :: "."%byte :: S ++ "."%byte :: D ++ rest)
    by (rewrite <- !app_assoc; cbn; by rewrite <- ?app_assoc).
  unfold ExtractEnhancedCode. rewrite Hcb. change ("."%byte =b "."%byte) with true. cbn [negb].
  unfold S at 1. rewrite scanUpTo3Digits_Itoa by done. fold S. rewrite drop_app_length.
  change ("."%byte =b "."%byte) with true. cbn [negb].
  unfold D at 1. rewrite scanUpTo3Digits_Itoa by (done || (destruct rest; by subst)). fold D.
  rewrite drop_app_length, Hcv.
  assert (take (2 + length S + 1 + length D) (c :: "."%byte :: S ++ "."%byte :: D ++ rest) =
    [c] ++ $"." ++ S ++ $"." ++ D) as ->.
  { cbn [take Nat.add app]. do 2 f_equal.
    replace (S ++ "."%byte :: D ++ rest) with ((S ++ "."%byte :: D) ++ rest)
      by by rewrite <- app_assoc.
    replace (length S + 1 + length D)%nat with (length (S ++ "."%byte :: D))
      by (rewrite length_app; cbn; lia).
    apply take_app_length. }
  destruct rest as [|c' rest]; [done|]. by subst c'.
Qed.

(** the enhanced status the server puts in front of a reply line is the one the client
    extracts from it, with the original text of the line behind it. *)
Theorem ExtractEnhancedCode_roundtrip code e p line :
  formatEnhancedCode code e = Ok p ->
  ExtractEnhancedCode (prefix_line p line) =
    Some ({| Class := Class e; Subject := Subject e; Detail := Detail e; Raw := p |}, line).
Proof.
  intros H. unfold prefix_line. destruct line as [|c line].
  - rewrite <- (app_nil_r p) at 1. by rewrite (ExtractEnhancedCode_prefix _ _ _ [] H).
  - by rewrite (ExtractEnhancedCode_prefix _ _ _ (SP :: c :: line) H).
Qed.

Lemma ExtractEnhancedCode_roundtrip_witness :
  ExtractEnhancedCode ($"5.7.12 no") =
    Some ({| Class := 5; Subject := 7; Detail := 12; Raw := $"5.7.12" |}, $"no").
Proof.
  apply (ExtractEnhancedCode_roundtrip 550 {| Class := 5; Subject := 7; Detail := 12; Raw := [] |}
    ($"5.7.12") ($"no")). vm_compute. reflexivity.
Defined.
