(* ===== verification/Command.v ===== *)
(** * internal/smtpwire: commands on the receiving side, and BDAT framing

    command_decoder.go ([ReadCommand], [ReadSASLResponse]) and bdat.go. The readers return what is
    left of the [LineReader] beside their result: the session continues from there, after errors
    too. *)
From Stdlib Require Import ZArith Lia Bool.
From stdpp Require Import base list gmap strings.
From S2P Require Import Prelude GoStrings Wire.

(** ** command_decoder.go *)

Record Command : Type := { Verb : bytes; Argument : bytes }.

(** The inner loop of [readCommandLine]: reads to the LF that ends an oversized line. The error of
    a connection that ends first is returned as it is. *)
Fixpoint drain_line (fin : ioerr) (b : byte) (s : bytes) : wire_err * bytes :=
  if b =b LF then (ErrCommandLineTooLong, s)
  else match s with
       | [] => (ErrIO fin, [])
       | b' :: s' => drain_line fin b' s'
       end.

Fixpoint read_command_line (max : Z) (fin : ioerr) (s line : bytes) (consumed : Z) :
    result wire_err bytes * bytes :=
  match s with
  | [] => (Err (ErrIO (match line with [] => fin | _ => normalizeReadErr fin end)), [])
  | b :: s' =>
      if max <? consumed + 1 then
        let '(e, rest) := drain_line fin b s' in (Err e, rest)
      else if negb (b =b LF) then read_command_line max fin s' (line ++ [b]) (consumed + 1)
      else if HasSuffix line [CR] then (Ok (TrimSuffix line [CR]), s')
      else (Err ErrCommandBareLF, s')
  end.

Definition readCommandLine (r : LineReader) (max : Z) : result wire_err bytes * LineReader :=
  let '(res, rest) := read_command_line max (final r) (unread r) [] 0 in
  (res, {| unread := rest; final := final r |}).

Definition validateCommandVerb (verb : bytes) : option wire_err :=
  match verb with
  | [] => Some ErrCommandVerbSyntax
  | _ => fail_if (existsb (fun c => negb (is_alnum c) && negb (c =b "-"%byte)) verb)
           ErrCommandVerbSyntax
  end.

(** What [ReadCommand] makes of a complete line. *)
Definition parse_command (line : bytes) : result wire_err Command :=
  match line with
  | [] => Err ErrCommandEmpty
  | _ =>
      let '(verb, argument) :=
        match IndexByte line SP with
        | None => (line, [])
        | Some sep => (take sep line, TrimLeft (drop (S sep) line) [SP])
        end in
      check validateCommandVerb verb then
      if existsb is_ctl argument then Err ErrCommandArgumentControl
      else Ok {| Verb := verb; Argument := argument |}
  end.

Definition ReadCommand (r : LineReader) (limits : Limits) : result wire_err Command * LineReader :=
  match readCommandLine r (MaxCommandLineLength (withDefaults limits)) with
  | (Err e, r') => (Err e, r')
  | (Ok line, r') => (parse_command line, r')
  end.

Definition ReadSASLResponse (r : LineReader) (limits : Limits) : result wire_err bytes * LineReader :=
  match readCommandLine r (MaxSASLResponseLength (withDefaults limits)) with
  | (Err e, r') => (Err e, r')
  | (Ok line, r') => (if existsb is_ctl line then Err ErrCommandArgumentControl else Ok line, r')
  end.

(** ** bdat.go *)

Record BDATCommand : Type := { Size : Z; Last : bool }.

Definition checkBDATSize (size : Z) (limits : Limits) : option wire_err :=
  if MaxInt64 <? size then Some ErrBDATSizeOverflow
  else fail_if (MaxBDATChunkSize (withDefaults limits) <? size) ErrBDATChunkTooLarge.

Definition ParseBDATArgument `{Unicode} (argument : bytes) (limits : Limits) :
    result wire_err BDATCommand :=
  if existsb (fun c => negb (c =b SP) && ((bz c <? 33) || (126 <? bz c))) argument
  then Err ErrBDATCommandSyntax
  else
    let parse f0 last :=
      if HasPrefix f0 ($"+") || HasPrefix f0 ($"-") || beq f0 [] then Err ErrBDATCommandSyntax
      else match ParseUint f0 MaxUint64 with
      | None => Err ErrBDATCommandSyntax
      | Some size => check checkBDATSize size limits then Ok {| Size := size; Last := last |}
      end in
    match Fields argument with
    | [f0] => parse f0 false
    | [f0; f1] => if EqualFold f1 ($"LAST") then parse f0 true else Err ErrBDATCommandSyntax
    | _ => Err ErrBDATCommandSyntax
    end.

(** The bytes [EncodeBDATCommand] writes. *)
Definition EncodeBDATCommand (size : Z) (last : bool) (limits : Limits) : result wire_err bytes :=
  check checkBDATSize size limits then
  Ok ($"BDAT " ++ FormatUint size ++ (if last then $" LAST" else []) ++ CRLF).

(** [io.CopyN]: reads of at most [cuts] bytes each (the transport decides how many arrive at once;
    beyond the list, all that is there), each handed to the writer, until [n] bytes were copied.
    Returns the writer, the unread source, the count written and the error. *)
Inductive copy_err (E : Type) : Type := CopyRead (e : ioerr) | CopyWrite (e : E).
Arguments CopyRead {E} e.
Arguments CopyWrite {E} e.

Section CopyN.
Context {W E : Type} (write : W -> bytes -> W * option E).

Fixpoint copyN (cuts : list nat) (w : W) (s : bytes) (fin : ioerr) (n written : nat) :
    W * bytes * nat * option (copy_err E) :=
  match n, s with
  | O, _ => (w, s, written, None)
  | _, [] => (w, [], written, Some (CopyRead fin))
  | _, _ =>
      match cuts with
      | [] =>
          let piece := take n s in
          match write w piece with
          | (w', Some e) => (w', drop n s, written, Some (CopyWrite e))
          | (w', None) =>
              (w', drop n s, (written + length piece)%nat,
               if (length piece =? n)%nat then None else Some (CopyRead fin))
          end
      | k :: cuts' =>
          let piece := take (Nat.min (S k) n) s in
          match write w piece with
          | (w', Some e) => (w', drop (length piece) s, written, Some (CopyWrite e))
          | (w', None) =>
              copyN cuts' w' (drop (length piece) s) fin (n - length piece)
                (written + length piece)
          end
      end
  end.

(** The error of a chunk copy: one of the package's, or the sink's. *)
Inductive chunk_err : Type := ChunkWire (e : wire_err) | ChunkSink (e : E).

Definition CopyBDATChunk (cuts : list nat) (w : W) (r : LineReader) (size : Z) (limits : Limits) :
    W * LineReader * nat * option chunk_err :=
  match checkBDATSize size limits with
  | Some e => (w, r, O, Some (ChunkWire e))
  | None =>
      let '(w', rest, n, err) := copyN cuts w (unread r) (final r) (Z.to_nat size) 0 in
      (w', {| unread := rest; final := final r |}, n,
       match err with
       | None => None
       | Some (CopyRead EOF) => Some (ChunkWire ErrBDATShortSource)
       | Some (CopyRead e) => Some (ChunkWire (ErrIO e))
       | Some (CopyWrite e) => Some (ChunkSink e)
       end)
  end.

(** [ReadBDATChunk] sets the deadline (part of [final]) and copies from the reader's buffer. *)
Definition ReadBDATChunk (cuts : list nat) (w : W) (r : LineReader) (size : Z) (limits : Limits) :=
  CopyBDATChunk cuts w r size limits.

End CopyN.
Arguments ChunkWire {E} e.
Arguments ChunkSink {E} e.

(** ** Lemmas: one command line *)

Lemma read_command_line_app max fin l s line consumed :
  no_byte LF l = true -> consumed + Z.of_nat (length l) <= max ->
  read_command_line max fin (l ++ s) line consumed =
    read_command_line max fin s (line ++ l) (consumed + Z.of_nat (length l)).
Proof.
  revert line consumed. induction l as [|c l IH]; intros line consumed Hl Hm.
  { cbn. by rewrite app_nil_r, Z.add_0_r. }
  cbn [no_byte forallb length app] in *. apply andb_true_iff in Hl as [Hc Hl].
  cbn [read_command_line]. rewrite Hc. destruct (Z.ltb_spec max (consumed + 1)); [lia|].
  rewrite IH by (done || lia). rewrite <- app_assoc. f_equal. lia.
Qed.

Lemma read_command_line_CRLF max fin l tail :
  no_byte LF l = true -> Z.of_nat (length l) + 2 <= max ->
  read_command_line max fin (l ++ CRLF ++ tail) [] 0 = (Ok l, tail).
Proof.
  intros Hl Hm. change (CRLF ++ tail) with ([CR] ++ LF :: tail).
  rewrite app_assoc, read_command_line_app.
  - cbn [read_command_line app]. rewrite length_app. cbn [length].
    destruct (Z.ltb_spec max (0 + Z.of_nat (length l + 1) + 1)); [lia|].
    change (LF =b LF) with true. cbn [negb]. by rewrite HasSuffix_app, TrimSuffix_app.
  - unfold no_byte in *. by rewrite forallb_app_eq, Hl.
  - rewrite length_app. cbn. lia.
Qed.

(** Every outcome of reading a line, by the bytes it consumed. *)
Lemma drain_line_inv fin b s e rest :
  drain_line fin b s = (e, rest) ->
  exists used, b :: s = used ++ rest /\
    ((e = ErrCommandLineTooLong /\ exists p, used = p ++ [LF] /\ no_byte LF p = true) \/
     (e = ErrIO fin /\ rest = [] /\ no_byte LF used = true)).
Proof.
  revert b. induction s as [|c s IH]; intros b; cbn [drain_line];
    destruct (byte_eqb_spec b LF) as [->|Hb]; intros H; simplify_eq.
  - exists [LF]. split; [done|]. left. split; [done|]. by exists [].
  - exists [b]. split; [done|]. right. split_and!; [done..|]. cbn. destruct (byte_eqb_spec b LF); done.
  - exists [LF]. split; [done|]. left. split; [done|]. by exists [].
  - destruct (IH c H) as (used & E & Hu). exists (b :: used). rewrite E. split; [done|].
    assert ((b =b LF) = false) as Hb' by by destruct (byte_eqb_spec b LF).
    destruct Hu as [(-> & p & -> & Hp)|(-> & -> & Hu)]; [left|right].
    + split; [done|]. exists (b :: p). split; [done|]. unfold no_byte in *. cbn. by rewrite Hb', Hp.
    + split_and!; [done..|]. unfold no_byte in *. cbn. by rewrite Hb', Hu.
Qed.

Lemma read_command_line_Ok max fin s line consumed l rest :
  read_command_line max fin s line consumed = (Ok l, rest) ->
  consumed = Z.of_nat (length line) -> no_byte LF line = true ->
  line ++ s = l ++ CRLF ++ rest /\ Z.of_nat (length l) + 2 <= max /\ no_byte LF l = true.
Proof.
  revert line consumed. induction s as [|b s IH]; intros line consumed; cbn [read_command_line]; [done|].
  destruct (Z.ltb_spec max (consumed + 1)); [by destruct (drain_line fin b s)|].
  destruct (byte_eqb_spec b LF) as [->|Hb]; cbn [negb].
  - destruct (HasSuffix line [CR]) eqn:E; [|done]. intros H0 -> Hl. simplify_eq.
    apply HasSuffix_inv in E as [p ->]. rewrite TrimSuffix_app, length_app in *. cbn in *.
    unfold no_byte in *. rewrite forallb_app_eq in Hl. btrue.
    split_and!; [by rewrite <- app_assoc|lia|done].
  - intros H0 -> Hl. destruct (IH _ _ H0) as (E & Hm & Hn).
    + rewrite length_app. cbn. lia.
    + unfold no_byte in *. rewrite forallb_app_eq, Hl. cbn. by destruct (byte_eqb_spec b LF).
    + by rewrite <- app_assoc in E.
Qed.

(** A line reader never gives back more than it had, and consumes something if there is anything. *)
Lemma drain_line_length fin b s e rest : drain_line fin b s = (e, rest) -> (length rest <= length s)%nat.
Proof.
  revert b. induction s as [|c s IH]; intros b; cbn; destruct (b =b LF); intros; simplify_eq; cbn; try lia.
  match goal with E : drain_line _ _ _ = _ |- _ => apply IH in E end. lia.
Qed.

Lemma read_command_line_length max fin s line consumed res rest :
  read_command_line max fin s line consumed = (res, rest) ->
  (length rest <= length s)%nat /\ (s <> [] -> (length rest < length s)%nat).
Proof.
  revert line consumed. induction s as [|b s IH]; intros line consumed; cbn [read_command_line].
  { intros; simplify_eq. split; [lia|done]. }
  destruct (max <? consumed + 1).
  { destruct (drain_line fin b s) as [e r] eqn:E. apply drain_line_length in E. intros; simplify_eq.
    cbn. split; [|intros _]; lia. }
  destruct (b =b LF); cbn [negb].
  - destruct (HasSuffix line [CR]); intros; simplify_eq; cbn; split; try intros _; lia.
  - intros [L _]%IH. cbn. split; [|intros _]; lia.
Qed.

Lemma ReadSASLResponse_length r limits res r' :
  ReadSASLResponse r limits = (res, r') -> (length (unread r') <= length (unread r))%nat.
Proof.
  unfold ReadSASLResponse, readCommandLine. destruct (read_command_line _ _ _ _ _) as [x rest] eqn:E.
  apply read_command_line_length in E as [L _]. destruct x; intros; by simplify_eq.
Qed.

Lemma ReadCommand_length r limits res r' :
  ReadCommand r limits = (res, r') ->
  (length (unread r') <= length (unread r))%nat /\
  (length (unread r') < length (unread r) \/ exists e, res = Err (ErrIO e))%nat.
Proof.
  unfold ReadCommand, readCommandLine. destruct (read_command_line _ _ _ _ _) as [x rest] eqn:E.
  pose proof (read_command_line_length _ _ _ _ _ _ _ E) as [L N]. intros EQ.
  assert (unread r' = rest) as -> by (destruct x; by simplify_eq). split; [done|].
  destruct (unread r) as [|b s] eqn:U; [|left; by apply N].
  right. cbn in E. simplify_eq. by eexists.
Qed.

(** The argument of a command that was read has no control bytes. *)
Lemma ReadCommand_argument r limits c r' : ReadCommand r limits = (Ok c, r') -> existsb is_ctl (Argument c) = false.
Proof.
  unfold ReadCommand. destruct (readCommandLine r _) as [[line|e] r1]; [|done]. intros [= E _]. revert E.
  unfold parse_command. destruct line as [|b line]; [done|].
  destruct (IndexByte _ _) as [i|]; destruct (validateCommandVerb _); try done;
    destruct (existsb is_ctl _) eqn:EC; try done; by intros [= <-].
Qed.

(** *** The fields of a command *)

Lemma validateCommandVerb_None verb :
  validateCommandVerb verb = None <->
  verb <> [] /\ forallb (fun c => is_alnum c || (c =b "-"%byte)) verb = true.
Proof.
  unfold validateCommandVerb, fail_if. destruct verb as [|c verb]; [by split; [|intros [? _]]|].
  set (v := c :: verb). assert (v <> []) by done.
  assert (existsb (fun c => negb (is_alnum c) && negb (c =b "-"%byte)) v =
    negb (forallb (fun c => is_alnum c || (c =b "-"%byte)) v)) as ->.
  { clear. induction v as [|d v IH]; [done|]. cbn. rewrite IH.
    by destruct (is_alnum d), (d =b "-"%byte), (forallb _ v). }
  destruct (forallb _ v); cbn; naive_solver.
Qed.

Lemma verb_no_SP verb : validateCommandVerb verb = None -> no_byte SP verb = true.
Proof.
  intros [_ H]%validateCommandVerb_None. revert H. apply forallb_mono. intros c.
  unfold is_alnum, is_upper, is_lower, is_digit, in_range. intros ?.
  destruct (byte_eqb_spec c SP) as [->|]; done.
Qed.

Definition no_leading_SP (s : bytes) : bool := match s with c :: _ => negb (c =b SP) | [] => true end.

Lemma TrimLeft_no_SP s : no_leading_SP (TrimLeft s [SP]) = true.
Proof.
  induction s as [|c s IH]; cbn; [done|]. unfold mem_byte. cbn.
  destruct (byte_eqb_spec c SP) as [->|]; cbn; [done|]. by destruct (byte_eqb_spec c SP).
Qed.

Lemma TrimLeft_spaces s : exists k, s = repeat SP k ++ TrimLeft s [SP].
Proof.
  induction s as [|c s [k IH]]; [by exists O|]. cbn. unfold mem_byte. cbn.
  destruct (byte_eqb_spec c SP) as [->|]; cbn; [|by exists O].
  exists (S k). cbn. by rewrite <- IH.
Qed.

(** C30: what [ReadCommand] accepts is strictly framed: the bytes consumed are one line of at most
    the configured length, CRLF included, without any other LF, ending in CRLF; the verb is a
    non-empty run of letters, digits and hyphens, the argument is the rest of the line behind a run
    of spaces, without control bytes; and the bytes after the CRLF stay for the next command. *)
Theorem ReadCommand_framing r limits c r' :
  ReadCommand r limits = (Ok c, r') ->
  exists k, let line := Verb c ++ repeat SP k ++ Argument c in
    unread r = line ++ CRLF ++ unread r' /\ final r' = final r /\
    Z.of_nat (length line) + 2 <= MaxCommandLineLength (withDefaults limits) /\
    no_byte LF line = true /\
    validateCommandVerb (Verb c) = None /\ existsb is_ctl (Argument c) = false /\
    no_leading_SP (Argument c) = true /\ (k = O -> Argument c = []).
Proof.
  unfold ReadCommand, readCommandLine.
  destruct (read_command_line _ _ _ _ _) as [[line|e] rest] eqn:E; [|done].
  apply read_command_line_Ok in E as (E & Hm & Hl); [|done..]. cbn in E.
  unfold parse_command. intros H. destruct line as [|b line]; [done|].
  destruct (IndexByte (b :: line) SP) as [i|] eqn:HI.
  - apply IndexByte_Some in HI as (HE & Hp & _).
    set (p := take i (b :: line)) in *. set (q := drop (S i) (b :: line)) in *.
    cases_in H. destruct (TrimLeft_spaces q) as [k Hk]. exists (S k).
    cbn [repeat app]. rewrite <- Hk, <- HE. split_and!; try done. apply TrimLeft_no_SP.
  - cases_in H. exists O. cbn. rewrite app_nil_r. by split_and!.
Qed.

Lemma ReadCommand_framing_witness :
  exists k, let line := $"MAIL" ++ repeat SP k ++ $"FROM:<>" in
    $"MAIL  FROM:<>" ++ CRLF ++ $"RCPT" = line ++ CRLF ++ $"RCPT" /\ EOF = EOF /\
    Z.of_nat (length line) + 2 <= 4096 /\ no_byte LF line = true /\
    validateCommandVerb ($"MAIL") = None /\ existsb is_ctl ($"FROM:<>") = false /\
    no_leading_SP ($"FROM:<>") = true /\ (k = O -> $"FROM:<>" = []).
Proof.
  refine (ReadCommand_framing {| unread := $"MAIL  FROM:<>" ++ CRLF ++ $"RCPT"; final := EOF |}
    ZeroLimits {| Verb := $"MAIL"; Argument := $"FROM:<>" |}
    {| unread := $"RCPT"; final := EOF |} _). vm_compute. reflexivity.
Defined.

Lemma not_ctl_no_LF s : existsb is_ctl s = false -> no_byte LF s = true.
Proof.
  induction s as [|c s IH]; [done|]. cbn. intros [Hc Hs]%orb_false_iff. unfold no_byte in IH.
  rewrite IH by done. destruct (byte_eqb_spec c LF) as [->|]; [done|]. done.
Qed.

(** The argument the peer sees: the arguments behind their separating spaces. *)
Definition sent_argument (args : list bytes) : bytes :=
  TrimLeft (concat (map (fun a => SP :: a) args)) [SP].

Lemma no_ctl_args args :
  first_err validateCommandToken args = None ->
  existsb is_ctl (concat (map (fun a => SP :: a) args)) = false.
Proof.
  rewrite first_err_None. induction 1 as [|a args Ha _ IH]; [done|]. cbn.
  rewrite existsb_app, IH. by rewrite (proj1 (validateCommandToken_None _) Ha).
Qed.

Lemma parse_command_SP verb q :
  validateCommandVerb verb = None ->
  parse_command (verb ++ SP :: q) =
    if existsb is_ctl (TrimLeft q [SP]) then Err ErrCommandArgumentControl
    else Ok {| Verb := verb; Argument := TrimLeft q [SP] |}.
Proof.
  intros Hv. pose proof (verb_no_SP _ Hv) as Hs. unfold parse_command.
  assert (exists b line, verb ++ SP :: q = b :: line) as (b & line & EL)
    by (destruct verb; by repeat eexists).
  rewrite EL, <- EL, (IndexByte_app _ _ _ Hs), take_app_length.
  by rewrite drop_app_cons, Hv.
Qed.

(** a command the client encodes is the command the server decodes, whatever follows it: with
    a well-formed verb and a line within the server's limit, [ReadCommand] returns the same verb
    and the arguments, and leaves what follows untouched. *)
Theorem ReadCommand_EncodeCommand verb args out limits tail fin :
  EncodeCommand verb args = Ok out -> validateCommandVerb verb = None ->
  Z.of_nat (length out) <= MaxCommandLineLength (withDefaults limits) ->
  ReadCommand {| unread := out ++ tail; final := fin |} limits =
    (Ok {| Verb := verb; Argument := sent_argument args |}, {| unread := tail; final := fin |}).
Proof.
  unfold EncodeCommand. intros H Hv Hm.
  destruct (validateCommandToken verb) eqn:Hv'; [done|].
  destruct (first_err validateCommandToken args) eqn:Ha; [done|]. injection H as <-.
  apply no_ctl_args in Ha. unfold sent_argument. set (A := concat _) in *.
  unfold ReadCommand, readCommandLine. cbn [unread final].
  rewrite <- app_assoc, <- app_assoc, app_assoc, read_command_line_CRLF; cycle 1.
  { apply not_ctl_no_LF. by rewrite existsb_app, (proj1 (validateCommandToken_None _) Hv'), Ha. }
  { rewrite !length_app in *. cbn [length CRLF] in *. lia. }
  assert (A = [] \/ exists q, A = SP :: q) as HA by (unfold A; destruct args; cbn; eauto).
  destruct HA as [->|[q Hq]].
  - rewrite app_nil_r. unfold parse_command. pose proof (verb_no_SP _ Hv) as Hs.
    destruct verb; [done|]. by rewrite (proj2 (IndexByte_None _ _) Hs), Hv.
  - rewrite Hq, parse_command_SP by done. change (TrimLeft (SP :: q) [SP]) with (TrimLeft q [SP]).
    destruct (existsb is_ctl (TrimLeft q [SP])) eqn:E; [|done].
    rewrite Hq in Ha. cbn in Ha. destruct (TrimLeft_spaces q) as [k Hk]. rewrite Hk, existsb_app in Ha.
    by rewrite E, orb_true_r in Ha.
Qed.

Lemma ReadCommand_EncodeCommand_witness :
  ReadCommand {| unread := $"MAIL FROM:<a@b> SIZE=3" ++ CRLF ++ $"RCPT"; final := EOF |} ZeroLimits =
    (Ok {| Verb := $"MAIL"; Argument := $"FROM:<a@b> SIZE=3" |}, {| unread := $"RCPT"; final := EOF |}).
Proof.
  refine (ReadCommand_EncodeCommand ($"MAIL") [$"FROM:<a@b>"; $"SIZE=3"]
    ($"MAIL FROM:<a@b> SIZE=3" ++ CRLF) ZeroLimits ($"RCPT") EOF _ _ _);
    [reflexivity|reflexivity|vm_compute; congruence].
Defined.

(** A line over the limit that the peer cuts short before its LF is reported with the transport's
    own error, so a plain end of stream surfaces as [io.EOF] although bytes were read. *)
Lemma ReadCommand_oversized_EOF :
  ReadCommand {| unread := repeat "A"%byte 9; final := EOF |}
    {| MaxReplyLineLength := 0; MaxReplyLines := 0; MaxReplySize := 0; MaxBDATChunkSize := 0;
       MaxCommandLineLength := 8; MaxSASLResponseLength := 0 |} =
  (Err (ErrIO EOF), {| unread := []; final := EOF |}).
Proof. reflexivity. Qed.

(** ** Lemmas: BDAT *)

Lemma checkBDATSize_None size limits :
  checkBDATSize size limits = None <->
  size <= MaxInt64 /\ size <= MaxBDATChunkSize (withDefaults limits).
Proof.
  unfold checkBDATSize, fail_if.
  destruct (Z.ltb_spec MaxInt64 size), (Z.ltb_spec (MaxBDATChunkSize (withDefaults limits)) size);
    split; try done; lia.
Qed.

(** a chunk size that [ParseBDATArgument] accepts is within the configured chunk limit and
    fits an int64, so the conversion in [CopyBDATChunk] cannot wrap. *)
Theorem ParseBDATArgument_bounds `{Unicode} argument limits c :
  ParseBDATArgument argument limits = Ok c ->
  0 <= Size c <= MaxInt64 /\ Size c <= MaxBDATChunkSize (withDefaults limits) /\
  wrap64 (Size c) = Size c.
Proof.
  unfold ParseBDATArgument. intros E.
  assert (exists f n, ParseUint f MaxUint64 = Some n /\ checkBDATSize n limits = None /\ Size c = n)
    as (f & n & P & K & ->) by (cases_in E; eauto 10).
  apply ParseUint_bounds in P. apply checkBDATSize_None in K.
  split_and!; try lia. apply wrap64_id. unfold MaxInt64 in *. lia.
Qed.

Lemma ParseBDATArgument_bounds_witness :
  0 <= 17 <= MaxInt64 /\ 17 <= MaxBDATChunkSize (withDefaults ZeroLimits) /\ wrap64 17 = 17.
Proof.
  apply (@ParseBDATArgument_bounds ascii_only_unicode ($"17 last") ZeroLimits
    {| Size := 17; Last := true |}). vm_compute. reflexivity.
Defined.

Definition bdat_argument (size : Z) (last : bool) : bytes :=
  FormatUint size ++ (if last then $" LAST" else []).

Lemma FormatUint_graph n : 0 <= n -> forallb is_graph (FormatUint n) = true.
Proof. intros. by apply is_digit_graph, FormatUint_digits. Qed.

Lemma ParseBDATArgument_printed `{Unicode} size last limits :
  0 <= size -> checkBDATSize size limits = None ->
  ParseBDATArgument (bdat_argument size last) limits = Ok {| Size := size; Last := last |}.
Proof.
  intros Hs Hc. unfold ParseBDATArgument, bdat_argument.
  pose proof (FormatUint_graph size Hs) as G. pose proof (FormatUint_nonempty size) as N.
  assert (forallb is_graph ($"LAST") = true) as GL by done.
  assert (forall s, forallb is_graph s = true ->
    existsb (fun c => negb (c =b SP) && ((bz c <? 33) || (126 <? bz c))) s = false) as X.
  { clear. induction s as [|c s IH]; [done|]. cbn. intros [G Gs]%andb_true_iff.
    rewrite IH by done. unfold is_graph in G. rewrite orb_false_r. apply andb_false_iff. right. lia. }
  assert (forallb is_digit (FormatUint size) = true) as D by by apply FormatUint_digits.
  assert (HasPrefix (FormatUint size) ($"+") || HasPrefix (FormatUint size) ($"-")
    || beq (FormatUint size) [] = false) as P.
  { destruct (FormatUint size) as [|d ds]; [done|]. cbn in *. apply andb_true_iff in D as [D _].
    assert (HasPrefix ds [] = true) as -> by by destruct ds.
    rewrite !andb_true_r, orb_false_r. unfold is_digit, in_range in D.
    apply orb_false_iff. split; blia. }
  assert (ParseUint (FormatUint size) MaxUint64 = Some size) as U.
  { apply ParseUint_FormatUint. apply checkBDATSize_None in Hc.
    unfold MaxInt64, MaxUint64 in *. lia. }
  rewrite existsb_app, (X _ G). destruct last; cbn [orb].
  - replace (existsb _ ($" LAST")) with false by reflexivity.
    change (FormatUint size ++ $" LAST") with (FormatUint size ++ SP :: $"LAST").
    rewrite Fields_cons by done. rewrite (Fields_token ($"LAST")) by done.
    rewrite EqualFold_refl by done. by rewrite P, U, Hc.
  - cbn [existsb]. rewrite app_nil_r, (Fields_token _ G N). by rewrite P, U, Hc.
Qed.

(** a BDAT command the client sends is decoded by the server to the same chunk size and LAST
    flag, whatever follows it. *)
Theorem BDAT_roundtrip `{Unicode} size last limits out tail fin :
  0 <= size -> EncodeBDATCommand size last limits = Ok out ->
  Z.of_nat (length out) <= MaxCommandLineLength (withDefaults limits) ->
  exists argument,
    ReadCommand {| unread := out ++ tail; final := fin |} limits =
      (Ok {| Verb := $"BDAT"; Argument := argument |}, {| unread := tail; final := fin |}) /\
    ParseBDATArgument argument limits = Ok {| Size := size; Last := last |}.
Proof.
  intros Hs E Hm. unfold EncodeBDATCommand in E.
  destruct (checkBDATSize size limits) eqn:Hc; [done|].
  assert (out = ($"BDAT " ++ bdat_argument size last) ++ CRLF) as ->
    by (injection E as <-; unfold bdat_argument; cbn; by rewrite <- !app_assoc).
  exists (bdat_argument size last). split; [|by apply ParseBDATArgument_printed].
  assert (existsb is_ctl (bdat_argument size last) = false) as C.
  { unfold bdat_argument. rewrite existsb_app.
    replace (existsb is_ctl (if last then $" LAST" else [])) with false by by destruct last.
    rewrite orb_false_r. pose proof (FormatUint_graph size Hs) as G. revert G.
    generalize (FormatUint size) as s. clear. induction s as [|c s IH]; [done|]. cbn.
    intros [G Gs]%andb_true_iff. rewrite IH by done. unfold is_graph, is_ctl in *.
    rewrite orb_false_r. lia. }
  unfold ReadCommand, readCommandLine. cbn [unread final].
  rewrite <- app_assoc, read_command_line_CRLF; cycle 1.
  { apply not_ctl_no_LF. by rewrite existsb_app, C. }
  { rewrite !length_app in *. cbn [length CRLF] in *. lia. }
  change ($"BDAT " ++ bdat_argument size last) with ($"BDAT" ++ SP :: bdat_argument size last).
  rewrite parse_command_SP by done.
  assert (exists d ds, bdat_argument size last = d :: ds /\ mem_byte d [SP] = false) as (d & ds & Ed & Hd).
  { unfold bdat_argument. pose proof (FormatUint_graph size Hs) as G.
    pose proof (FormatUint_nonempty size). destruct (FormatUint size) as [|d ds]; [done|].
    cbn in *. apply andb_true_iff in G as [G _]. eexists _, _. split; [done|].
    unfold mem_byte, is_graph in *. cbn. rewrite orb_false_r. blia. }
  rewrite Ed, TrimLeft_head by done. rewrite Ed in C. by rewrite C.
Qed.

Lemma BDAT_roundtrip_witness :
  exists argument,
    ReadCommand {| unread := $"BDAT 12 LAST" ++ CRLF ++ $"xyz"; final := EOF |} ZeroLimits =
      (Ok {| Verb := $"BDAT"; Argument := argument |}, {| unread := $"xyz"; final := EOF |}) /\
    @ParseBDATArgument ascii_only_unicode argument ZeroLimits = Ok {| Size := 12; Last := true |}.
Proof.
  refine (@BDAT_roundtrip ascii_only_unicode 12 true ZeroLimits ($"BDAT 12 LAST" ++ CRLF) ($"xyz") EOF
    _ _ _); [lia|reflexivity|vm_compute; congruence].
Defined.

(** *** Copying a chunk *)

Lemma copyN_buffer {E} cuts (w : bytes) s fin n k :
  copyN (fun w p => (w ++ p, @None E)) cuts w s fin n k =
    (w ++ take n s, drop n s, (k + length (take n s))%nat,
     if (n <=? length s)%nat then None else Some (CopyRead fin)).
Proof.
  revert w s n k. induction cuts as [|c cuts IH]; intros w s n k; destruct n as [|n], s as [|b s];
    try (cbn; by rewrite ?app_nil_r, ?Nat.add_0_r, ?drop_0).
  - cbn [copyN]. f_equal. rewrite length_take.
    destruct (Nat.leb_spec (S n) (length (b :: s))), (Nat.eqb_spec (S n `min` length (b :: s)) (S n));
      done || lia.
  - unfold copyN; fold (@copyN bytes E). cbv beta iota.
    set (p := take (Nat.min (S c) (S n)) (b :: s)).
    set (m := Nat.min (S c) (S n)) in *. set (t := b :: s) in *.
    assert (length p = Nat.min m (length t)) as Lp by (unfold p; apply length_take).
    rewrite IH, <- app_assoc. rewrite drop_drop, length_drop.
    assert (drop (length p) t = drop m t) as Ed.
    { destruct (decide (m <= length t)%nat); [by rewrite Lp, Nat.min_l|].
      rewrite !drop_ge by lia. done. }
    destruct (decide (m <= length t)%nat) as [Hm|Hm].
    + rewrite Lp, Nat.min_l by done. unfold p. rewrite take_take_drop.
      replace (m + (S n - m))%nat with (S n) by lia. rewrite !length_take, length_drop.
      replace (k + m + (S n - m) `min` (length t - m))%nat with (k + S n `min` length t)%nat by lia.
      destruct (Nat.leb_spec (S n - m) (length t - m)), (Nat.leb_spec (S n) (length t)); done || lia.
    + rewrite Lp, Nat.min_r by lia. unfold p.
      rewrite (drop_ge t (length t)), take_nil, app_nil_r by lia.
      rewrite !take_ge by lia. rewrite !drop_ge by (cbn in *; lia).
      rewrite Nat.sub_diag. cbn [length].
      destruct (Nat.leb_spec (S n - length t) 0), (Nat.leb_spec (S n) (length t)); try lia.
      f_equal. f_equal. lia.
Qed.

(** Copying keeps what every write keeps, and only shortens the source. *)
Lemma copyN_inv {W E} (write : W -> bytes -> W * option E) (P : W -> Prop) cuts w s fin n k w' rest m e :
  (forall w p, P w -> P (fst (write w p))) -> P w ->
  copyN write cuts w s fin n k = (w', rest, m, e) -> P w' /\ (length rest <= length s)%nat.
Proof.
  intros HW. revert w s n k. induction cuts as [|c cuts IH]; intros w s n k Hw; destruct n as [|n], s as [|b s];
    cbn [copyN]; try (intros; simplify_eq; cbn; split; [done|lia]).
  - intros E0. pose proof (HW w (take (S n) (b :: s)) Hw) as P'.
    destruct (write w (take (S n) (b :: s))) as [w1 [e1|]]; simplify_eq; (split; [exact P'|]);
      rewrite length_drop; lia.
  - intros E0. set (p := take (Nat.min (S c) (S n)) (b :: s)) in *. pose proof (HW w p Hw) as P'.
    destruct (write w p) as [w1 [e1|]].
    + simplify_eq. split; [exact P'|]. rewrite length_drop. lia.
    + destruct (IH _ _ _ _ P' E0) as [? L]. split; [done|]. rewrite length_drop in L. lia.
Qed.

Lemma ReadBDATChunk_inv {W E} (write : W -> bytes -> W * option E) (P : W -> Prop) cuts w r n lims w' r' m e :
  (forall w p, P w -> P (fst (write w p))) -> P w ->
  ReadBDATChunk write cuts w r n lims = (w', r', m, e) ->
  P w' /\ (length (unread r') <= length (unread r))%nat.
Proof.
  intros HW Hw. unfold ReadBDATChunk, CopyBDATChunk. destruct (checkBDATSize n lims).
  { intros; simplify_eq. split; [done|lia]. }
  destruct (copyN write cuts w (unread r) (final r) (Z.to_nat n) 0) as [[[w1 rest] m1] e1] eqn:E0.
  intros; simplify_eq. cbn [unread]. by eapply copyN_inv.
Qed.

(** however the transport cuts the stream, a chunk of [size] bytes reaches the sink exactly
    as sent, and the reader is left at the first byte behind it (the next pipelined command); a
    stream that ends early delivers what it had and reports [ErrBDATShortSource]. *)
Theorem CopyBDATChunk_exact {E} cuts (w : bytes) r size limits :
  0 <= size -> checkBDATSize size limits = None ->
  let n := Z.to_nat size in
  CopyBDATChunk (fun w p => (w ++ p, @None E)) cuts w r size limits =
    (w ++ take n (unread r), {| unread := drop n (unread r); final := final r |},
     Nat.min n (length (unread r)),
     if (n <=? length (unread r))%nat then None
     else Some (ChunkWire (match final r with EOF => ErrBDATShortSource | e => ErrIO e end))).
Proof.
  intros Hs Hc n. unfold CopyBDATChunk. rewrite Hc, copyN_buffer, length_take. fold n.
  destruct (n <=? length (unread r))%nat; [done|]. by destruct (final r).
Qed.

Lemma CopyBDATChunk_exact_witness :
  CopyBDATChunk (fun w p => (w ++ p, @None ioerr)) [0; 1]%nat [] {| unread := $"abcdeBDAT"; final := EOF |}
    5 ZeroLimits =
  ($"abcde", {| unread := $"BDAT"; final := EOF |}, 5%nat, None).
Proof.
  apply (@CopyBDATChunk_exact ioerr [0; 1]%nat [] {| unread := $"abcdeBDAT"; final := EOF |} 5 ZeroLimits);
    [lia|reflexivity].
Defined.
