(* ===== verification/Path.v ===== *)
(** * internal/smtpwire/path.go: reverse-paths and forward-paths

    [netip.ParseAddr] is the standard library's address parser: the class [NetIP] stands for its
    two uses, "parses as an IPv4 address" and "parses as an IPv6 address". Index loops over a
    string are recursions over its bytes, rune loops over [runes]. *)
From Stdlib Require Import ZArith Lia Bool.
From stdpp Require Import base list gmap strings.
From S2P Require Import Prelude GoStrings Wire.

Class NetIP : Type := {
  ParseAddr_Is4 : bytes -> bool;
  ParseAddr_Is6 : bytes -> bool
}.

Definition defaultMaxPathLength : Z := 4096.

Record PathOptions : Type := { SMTPUTF8 : bool; MaxPathLength : Z }.

Record Path : Type := {
  Mailbox : bytes;
  LocalPart : bytes;
  Domain : bytes;
  Null : bool;
  Postmaster : bool;
  Params : list Param
}.

(** ** Scanners *)

Definition QUOTE : byte := x22.
Definition BACKSLASH : byte := x5c.

(** The loop of [pathClosingAngle]; [i] is the index of the head of [s]. *)
Fixpoint closing_angle (s : bytes) (quoted escaped literal : bool) (i : nat) : option nat :=
  match s with
  | [] => None
  | c :: s' =>
      if escaped then closing_angle s' quoted false literal (S i)
      else if quoted then
        if c =b BACKSLASH then closing_angle s' quoted true literal (S i)
        else if c =b QUOTE then closing_angle s' false escaped literal (S i)
        else closing_angle s' quoted escaped literal (S i)
      else if c =b QUOTE then closing_angle s' true escaped literal (S i)
      else if c =b "["%byte then closing_angle s' quoted escaped true (S i)
      else if c =b "]"%byte then closing_angle s' quoted escaped false (S i)
      else if (c =b ">"%byte) && negb literal then Some i
      else closing_angle s' quoted escaped literal (S i)
  end.

Definition pathClosingAngle (rest : bytes) : result wire_err nat :=
  match closing_angle (drop 1 rest) false false false 1 with
  | Some i => Ok i
  | None => Err ErrPathSyntax
  end.

Fixpoint source_route_colon (s : bytes) (literal : bool) (i : nat) : option nat :=
  match s with
  | [] => None
  | c :: s' =>
      if c =b "["%byte then source_route_colon s' true (S i)
      else if c =b "]"%byte then source_route_colon s' false (S i)
      else if (c =b ":"%byte) && negb literal then Some i
      else source_route_colon s' literal (S i)
  end.

Definition sourceRouteColon (mailbox : bytes) : option nat := source_route_colon mailbox false 0.

(** The loop of [splitMailbox]: the state it ends in, [quoted], [escaped] and [at], or an error at
    the second unquoted '@'. *)
Fixpoint split_scan (s : bytes) (quoted escaped : bool) (at_ : option nat) (i : nat) :
    result wire_err (bool * bool * option nat) :=
  match s with
  | [] => Ok (quoted, escaped, at_)
  | c :: s' =>
      if escaped then split_scan s' quoted false at_ (S i)
      else if quoted then
        if c =b BACKSLASH then split_scan s' quoted true at_ (S i)
        else if c =b QUOTE then split_scan s' false escaped at_ (S i)
        else split_scan s' quoted escaped at_ (S i)
      else if c =b QUOTE then split_scan s' true escaped at_ (S i)
      else if c =b "@"%byte then
        match at_ with
        | Some _ => Err ErrPathSyntax
        | None => split_scan s' quoted escaped (Some i) (S i)
        end
      else split_scan s' quoted escaped at_ (S i)
  end.

(** local, domain, hasDomain *)
Definition splitMailbox (mailbox : bytes) : result wire_err (bytes * bytes * bool) :=
  let? st := split_scan mailbox false false None 0 in
  let '(quoted, escaped, at_) := st in
  if quoted || escaped then Err ErrPathSyntax
  else match at_ with
       | None => Ok (mailbox, [], false)
       | Some a => Ok (take a mailbox, drop (S a) mailbox, true)
       end.

(** ** Validators *)

Definition hasHighByte (s : bytes) : bool := existsb (fun c => 128 <=? bz c) s.

Definition isAtext (c : byte) : bool :=
  is_alnum c || mem_byte c ($"!#$%&'*+-/=?^_`{|}~").

Definition bad_quoted (c : byte) : bool :=
  (c =b CR) || (c =b LF) || (c =b x00) || (c =b x7f).

(** The quoted branch of [validateLocalPart], over the bytes between the quotes. *)
Fixpoint quoted_content (s : bytes) : option wire_err :=
  match s with
  | [] => None
  | c :: s' =>
      if c =b BACKSLASH then
        match s' with
        | [] => Some ErrPathSyntax
        | d :: s'' => if bad_quoted d then Some ErrPathSyntax else quoted_content s''
        end
      else if c =b QUOTE then Some ErrPathSyntax
      else if bad_quoted c || ((bz c <? 32) && negb (c =b x09)) then Some ErrPathSyntax
      else quoted_content s'
  end.

Definition bad_rune (r : Z) : bool := (r =? RuneError) || IsControl r || IsSpace r.

(** The dot-atom loop of [validateLocalPart]. *)
Fixpoint dot_atom (rs : list (Z * bytes)) (smtpUTF8 lastDot : bool) : option wire_err :=
  match rs with
  | [] => None
  | (r, _) :: rs' =>
      if r =? 46 then if lastDot then Some ErrPathSyntax else dot_atom rs' smtpUTF8 true
      else if r <? 128 then if isAtext (zb r) then dot_atom rs' smtpUTF8 false else Some ErrPathSyntax
      else if negb smtpUTF8 then Some ErrPathUTF8Required
      else if bad_rune r then Some ErrPathSyntax
      else dot_atom rs' smtpUTF8 false
  end.

Definition validateLocalPart (local : bytes) (smtpUTF8 : bool) : option wire_err :=
  match local with
  | [] => Some ErrPathSyntax
  | c :: rest =>
      if c =b QUOTE then
        if (length local <? 2)%nat || negb (HasSuffix local [QUOTE]) then Some ErrPathSyntax
        else quoted_content (take (length rest - 1) rest)
      else if HasSuffix local ($".") then Some ErrPathSyntax
      else dot_atom (runes local) smtpUTF8 true
  end.

Definition is_label_char (c : byte) : bool := is_alnum c || (c =b "-"%byte).

Definition validAddressLiteralTag (tag : bytes) : bool := forallb is_label_char tag.

(** The loop over one label of a domain name. *)
Fixpoint label_runes (rs : list (Z * bytes)) (smtpUTF8 : bool) : option wire_err :=
  match rs with
  | [] => None
  | (r, _) :: rs' =>
      if r <? 128 then
        if is_label_char (zb r) then label_runes rs' smtpUTF8 else Some ErrPathSyntax
      else if negb smtpUTF8 then Some ErrPathUTF8Required
      else if bad_rune r then Some ErrPathSyntax
      else label_runes rs' smtpUTF8
  end.

Definition validate_label (smtpUTF8 : bool) (label : bytes) : option wire_err :=
  if beq label [] || HasPrefix label ($"-") || HasSuffix label ($"-") then Some ErrPathSyntax
  else label_runes (runes label) smtpUTF8.

(** The bytes between the brackets of an address literal. *)
Definition validate_literal `{Unicode} `{NetIP} (inside : bytes) : option wire_err :=
  if HasPrefix (ToUpper inside) ($"IPV6:") then
    fail_if (negb (ParseAddr_Is6 (drop 5 inside))) ErrPathSyntax
  else if ParseAddr_Is4 inside then None
  else
    let '(tag, value, ok) := Cut inside ":"%byte in
    fail_if (negb ok || beq tag [] || beq value [] || negb (validAddressLiteralTag tag)
             || ContainsAny value ["["%byte; "]"%byte; BACKSLASH; CR; LF; x00] || hasHighByte value)
      ErrPathSyntax.

Definition validateDomain `{Unicode} `{NetIP} (domain : bytes) (smtpUTF8 : bool) : option wire_err :=
  match domain with
  | [] => Some ErrPathSyntax
  | c :: rest =>
      if c =b "["%byte then
        if (length domain <? 3)%nat || negb (HasSuffix domain ($"]")) then Some ErrPathSyntax
        else validate_literal (take (length rest - 1) rest)
      else first_err (validate_label smtpUTF8) (Split domain "."%byte)
  end.

(** ** Paths *)

Definition parse_path_param (field : bytes) : result wire_err Param :=
  let '(keyword, value, hasValue) := Cut field "="%byte in
  match validateKeyword keyword with
  | Some _ => Err ErrPathParameter
  | None =>
      if hasValue && match validateESMTPValue value with Some _ => true | None => false end
      then Err ErrPathParameter
      else Ok {| Keyword := keyword; Value := value |}
  end.

Fixpoint parse_path_params (fields : list bytes) : result wire_err (list Param) :=
  match fields with
  | [] => Ok []
  | f :: fields' =>
      let? p := parse_path_param f in
      let? ps := parse_path_params fields' in
      Ok (p :: ps)
  end.

Definition parsePathParams (suffix : bytes) : result wire_err (list Param) :=
  match suffix with
  | [] => Ok []
  | c :: _ =>
      if negb (c =b SP) || ContainsAny suffix [CR; LF; x00; x09] then Err ErrPathParameter
      else parse_path_params (Fields suffix)
  end.

Definition validate_hop `{Unicode} `{NetIP} (smtpUTF8 : bool) (hop : bytes) : option wire_err :=
  if (length hop <? 2)%nat || negb (HasPrefix hop ($"@")) then Some ErrPathSyntax
  else validateDomain (drop 1 hop) smtpUTF8.

Definition discardSourceRoute `{Unicode} `{NetIP} (mailbox : bytes) (smtpUTF8 : bool) :
    result wire_err bytes :=
  if negb (HasPrefix mailbox ($"@")) then Ok mailbox
  else match sourceRouteColon mailbox with
  | None => Err ErrPathSyntax
  | Some colon =>
      if (length mailbox <=? colon + 1)%nat then Err ErrPathSyntax
      else check first_err (validate_hop smtpUTF8) (Split (take colon mailbox) ","%byte) then
           Ok (drop (colon + 1) mailbox)
  end.

(** The part of [parsePathArgument] behind the parameters: the text between the angle brackets. *)
Definition parse_mailbox `{Unicode} `{NetIP} (rawMailbox : bytes) (params : list Param)
    (allowNull allowPostmaster : bool) (opts : PathOptions) : result wire_err Path :=
  match rawMailbox with
  | [] =>
      if negb allowNull then Err ErrNullForwardPath
      else Ok {| Mailbox := []; LocalPart := []; Domain := []; Null := true; Postmaster := false;
                 Params := params |}
  | _ =>
      if negb (ValidString rawMailbox) then Err ErrPathSyntax
      else if negb (SMTPUTF8 opts) && hasHighByte rawMailbox then Err ErrPathUTF8Required
      else
        let? mailbox := discardSourceRoute rawMailbox (SMTPUTF8 opts) in
        let? parts := splitMailbox mailbox in
        let '(local, domain, hasDomain) := parts in
        let path postmaster :=
          Ok {| Mailbox := mailbox; LocalPart := local; Domain := domain; Null := false;
                Postmaster := postmaster; Params := params |} in
        if allowPostmaster && EqualFold local ($"Postmaster")
           && (negb hasDomain || negb (beq domain []))
        then
          if hasDomain then check validateDomain domain (SMTPUTF8 opts) then path true
          else path true
        else if negb hasDomain || beq domain [] then Err ErrPathSyntax
        else check validateLocalPart local (SMTPUTF8 opts) then
             check validateDomain domain (SMTPUTF8 opts) then
             path false
  end.

Definition parsePathArgument `{Unicode} `{NetIP} (argument prefix : bytes)
    (allowNull allowPostmaster : bool) (opts : PathOptions) : result wire_err Path :=
  if (length argument <? length prefix)%nat
     || negb (EqualFold (take (length prefix) argument) prefix) then Err ErrPathPrefix
  else
    let rest := TrimLeft (drop (length prefix) argument) [SP] in
    if negb (HasPrefix rest ($"<")) then Err ErrPathSyntax
    else
      let? close := pathClosingAngle rest in
      let maxPath := if MaxPathLength opts <=? 0 then defaultMaxPathLength else MaxPathLength opts in
      if maxPath <? Z.of_nat close + 1 then Err ErrPathTooLong
      else
        let? params := parsePathParams (drop (close + 1) rest) in
        parse_mailbox (take (close - 1) (drop 1 rest)) params allowNull allowPostmaster opts.

Definition ParseReversePath `{Unicode} `{NetIP} (argument : bytes) (opts : PathOptions) :=
  parsePathArgument argument ($"FROM:") true false opts.

Definition ParseForwardPath `{Unicode} `{NetIP} (argument : bytes) (opts : PathOptions) :=
  parsePathArgument argument ($"TO:") false true opts.

(** ** Lemmas: the scanners *)

Lemma closing_angle_inv s q e l i j :
  closing_angle s q e l i = Some j ->
  exists a b, s = a ++ ">"%byte :: b /\ j = (i + length a)%nat.
Proof.
  revert q e l i. induction s as [|c s IH]; intros q e l i; cbn [closing_angle]; [done|].
  intros H.
  assert ((exists q e l, closing_angle s q e l (S i) = Some j) \/ (c = ">"%byte /\ i = j)) as [(?&?&?&E)|[-> ->]].
  { repeat (case_match; try (left; eauto; fail)). simplify_eq. right.
    match goal with E : _ && _ = true |- _ => apply andb_true_iff in E as [E _] end.
    destruct (byte_eqb_spec c ">"%byte); done. }
  - destruct (IH _ _ _ _ E) as (a & b & -> & ->). exists (c :: a), b. split; [done|]. cbn. lia.
  - exists [], s. split; [done|]. cbn. lia.
Qed.

Lemma pathClosingAngle_inv rest close :
  pathClosingAngle rest = Ok close -> HasPrefix rest ($"<") = true ->
  exists raw suffix, rest = "<"%byte :: raw ++ ">"%byte :: suffix /\ close = S (length raw).
Proof.
  unfold pathClosingAngle. intros H HP. destruct rest as [|c rest]; [done|].
  cbn [drop] in H. rewrite drop_0 in H.
  destruct (closing_angle rest false false false 1) eqn:E; [|done]. injection H as <-.
  apply closing_angle_inv in E as (a & b & -> & ->). exists a, b. split; [|done].
  cbn in HP. apply andb_true_iff in HP as [HP _]. f_equal.
  by destruct (byte_eqb_spec "<"%byte c).
Qed.

Lemma split_scan_at s q e at_ i q' e' a :
  split_scan s q e at_ i = Ok (q', e', Some a) ->
  at_ = Some a \/ exists x y, s = x ++ "@"%byte :: y /\ a = (i + length x)%nat.
Proof.
  revert q e at_ i. induction s as [|c s IH]; intros q e at_ i; cbn [split_scan].
  { intros; simplify_eq. by left. }
  intros H.
  assert ((exists q e, split_scan s q e at_ (S i) = Ok (q', e', Some a)) \/
    (c = "@"%byte /\ exists q e, split_scan s q e (Some i) (S i) = Ok (q', e', Some a)))
    as [(q1 & e1 & E)|(-> & q1 & e1 & E)].
  { repeat (case_match; try (left; eauto; fail); try done). right. split; [|eauto].
    by destruct (byte_eqb_spec c "@"%byte). }
  - destruct (IH _ _ _ _ E) as [?|(x & y & -> & ->)]; [by left|right].
    exists (c :: x), y. split; [done|]. cbn. lia.
  - right. destruct (IH _ _ _ _ E) as [?|(x & y & -> & ->)].
    + exists [], s. split; [done|]. simplify_eq. cbn. lia.
    + exists ("@"%byte :: x), y. split; [done|]. cbn. lia.
Qed.

Lemma splitMailbox_inv mailbox local domain hasDomain :
  splitMailbox mailbox = Ok (local, domain, hasDomain) ->
  if hasDomain then mailbox = local ++ "@"%byte :: domain else mailbox = local /\ domain = [].
Proof.
  unfold splitMailbox. destruct (split_scan _ _ _ _ _) as [[[q e] at_]|] eqn:E; [|done].
  destruct (q || e); [done|]. destruct at_ as [a|]; intros; simplify_eq; [|done].
  destruct (split_scan_at _ _ _ _ _ _ _ _ E) as [?|(x & y & -> & ->)]; [done|].
  cbn [Nat.add]. by rewrite take_app_length, drop_app_cons.
Qed.

Lemma discardSourceRoute_inv `{Unicode} `{NetIP} raw utf8 mailbox :
  discardSourceRoute raw utf8 = Ok mailbox -> exists route, raw = route ++ mailbox.
Proof.
  unfold discardSourceRoute. intros E. cases_in E; [by exists []|].
  match goal with |- exists _, _ = _ ++ drop ?k _ => exists (take k raw) end. by rewrite take_drop.
Qed.

Lemma existsb_suffix {A} (f : A -> bool) a b : existsb f (a ++ b) = false -> existsb f b = false.
Proof. rewrite existsb_app. by intros [_ ?]%orb_false_iff. Qed.

(** ** What a parsed path is *)

(** The facts about the text between the angle brackets, [raw], that a parsed path records. *)
Definition path_of `{Unicode} `{NetIP} (raw : bytes) (allowNull allowPostmaster : bool)
    (utf8 : bool) (p : Path) : Prop :=
  (Null p = true /\ raw = [] /\ allowNull = true /\ Mailbox p = [] /\ Postmaster p = false) \/
  (Null p = false /\ ValidString raw = true /\ (exists route, raw = route ++ Mailbox p) /\
   (utf8 = false -> hasHighByte (Mailbox p) = false) /\
   (Postmaster p = true ->
      allowPostmaster = true /\ EqualFold (LocalPart p) ($"Postmaster") = true) /\
   (Postmaster p = false -> validateLocalPart (LocalPart p) utf8 = None) /\
   ((Mailbox p = LocalPart p ++ "@"%byte :: Domain p /\ validateDomain (Domain p) utf8 = None) \/
    (Postmaster p = true /\ Mailbox p = LocalPart p /\ Domain p = []))).

Lemma parse_mailbox_inv `{Unicode} `{NetIP} raw params an ap opts p :
  parse_mailbox raw params an ap opts = Ok p ->
  Params p = params /\ path_of raw an ap (SMTPUTF8 opts) p.
Proof.
  unfold parse_mailbox. destruct raw as [|c raw0].
  { destruct an; [|done]. cbn. intros; simplify_eq. split; [done|]. by left. }
  remember (c :: raw0) as raw eqn:Hraw. clear Hraw. destruct (ValidString raw) eqn:HV; [|done]. cbn [negb].
  destruct (negb (SMTPUTF8 opts) && hasHighByte raw) eqn:HH; [done|].
  destruct (discardSourceRoute raw _) as [mailbox|] eqn:HD; [|done].
  destruct (splitMailbox mailbox) as [[[local domain] hasDomain]|] eqn:HS; [|done].
  apply discardSourceRoute_inv in HD. apply splitMailbox_inv in HS. intros E.
  assert (SMTPUTF8 opts = false -> hasHighByte mailbox = false) as HU.
  { intros U. rewrite U in HH. cbn in HH. destruct HD as [route HD]. rewrite HD in HH. by eapply existsb_suffix. }
  destruct (ap && EqualFold local _ && _) eqn:Hpm.
  - btrue. destruct hasDomain.
    + destruct (validateDomain domain _) eqn:HDm; [done|]. simplify_eq. split; [done|]. right.
      cbn. split_and!; try done. by left.
    + simplify_eq. split; [done|]. right. cbn. destruct HS as [-> ->]. split_and!; try done. by right.
  - destruct (negb hasDomain || beq domain []) eqn:Hd; [done|].
    destruct (validateLocalPart local _) eqn:HL; [done|].
    destruct (validateDomain domain _) eqn:HDm; [done|]. simplify_eq. split; [done|]. right.
    destruct hasDomain; [|done]. cbn. split_and!; try done. by left.
Qed.

Lemma parsePathArgument_inv `{Unicode} `{NetIP} argument prefix an ap opts p :
  parsePathArgument argument prefix an ap opts = Ok p ->
  exists pre raw suffix,
    argument = pre ++ "<"%byte :: raw ++ ">"%byte :: suffix /\
    EqualFold (take (length prefix) argument) prefix = true /\
    Z.of_nat (length raw) + 2 <=
      (if MaxPathLength opts <=? 0 then defaultMaxPathLength else MaxPathLength opts) /\
    parsePathParams suffix = Ok (Params p) /\
    path_of raw an ap (SMTPUTF8 opts) p.
Proof.
  unfold parsePathArgument.
  destruct ((length argument <? length prefix)%nat || _) eqn:HP; [done|].
  set (rest := TrimLeft (drop (length prefix) argument) [SP]).
  destruct (HasPrefix rest ($"<")) eqn:HL; [|done]. cbn [negb].
  destruct (pathClosingAngle rest) as [close|] eqn:HC; [|done].
  destruct (pathClosingAngle_inv _ _ HC HL) as (raw & suffix & HR & ->).
  destruct (_ <? _) eqn:HM; [done|]. apply Z.ltb_ge in HM. rewrite HR.
  replace (drop (S (length raw) + 1) ("<"%byte :: raw ++ ">"%byte :: suffix)) with suffix; cycle 1.
  { symmetry. change (S (length raw) + 1)%nat with (S (length raw + 1)). cbn [drop].
    apply drop_app_cons. lia. }
  destruct (parsePathParams suffix) as [params|] eqn:HPP; [|done]. cbn [drop]. rewrite drop_0.
  rewrite Nat.sub_succ, Nat.sub_0_r, take_app_length.
  intros [EP Hp]%parse_mailbox_inv. destruct (TrimLeft_suffix (drop (length prefix) argument) [SP]) as [sp Hsp].
  fold rest in Hsp. exists (take (length prefix) argument ++ sp), raw, suffix.
  rewrite EP, <- app_assoc, <- HR, <- Hsp, take_drop. split_and!; try done; [|lia].
  apply orb_false_iff in HP as [_ HP]. by apply negb_false_iff.
Qed.

(** ** Round trip *)

Definition high (c : byte) : bool := 128 <=? bz c.

Definition local_char (c : byte) : bool := isAtext c || (c =b "."%byte) || high c.
Definition domain_char (c : byte) : bool := is_label_char c || (c =b "."%byte) || high c.

Lemma dot_atom_bytes s u ld : dot_atom (runes s) u ld = None -> forallb local_char s = true.
Proof.
  intros H.
  assert (Forall (fun p => 0 <= fst p < 128 -> isAtext (zb (fst p)) || (zb (fst p) =b "."%byte) = true)
    (runes s)) as F.
  { revert ld H. generalize (runes s). intros rs. induction rs as [|[r enc] rs IH]; intros ld; cbn; [done|].
    destruct (Z.eqb_spec r 46) as [->|].
    - destruct ld; [done|]. intros E. constructor; [|by eapply IH]. intros _. done.
    - destruct (Z.ltb_spec r 128).
      + destruct (isAtext (zb r)) eqn:E; [|done]. intros E'. constructor; [|by eapply IH].
        intros _. cbn. by rewrite E.
      + destruct u; [|done]. cbn. destruct (bad_rune r); [done|].
        intros E'. constructor; [|by eapply IH]. cbn. lia. }
  apply (runes_bytes (fun c => isAtext c || (c =b "."%byte)) s F).
Qed.

Lemma label_bytes u label : validate_label u label = None ->
  forallb (fun c => is_label_char c || high c) label = true.
Proof.
  unfold validate_label. destruct (_ || _); [done|]. intros H. apply runes_bytes. revert H.
  generalize (runes label). intros rs. induction rs as [|[r enc] rs IH]; cbn; [done|].
  destruct (Z.ltb_spec r 128).
  - destruct (is_label_char (zb r)) eqn:E; [|done]. intros E'. constructor; [by intros _|by apply IH].
  - destruct u; [|done]. cbn. destruct (bad_rune r); [done|].
    intros E'. constructor; [|by apply IH]. cbn. lia.
Qed.

Lemma Join_chars (f : byte -> bool) c ps :
  f c = true -> Forall (fun p => forallb f p = true) ps -> forallb f (Join ps [c]) = true.
Proof.
  intros Hc. induction 1 as [|p ps Hp _ IH]; [done|]. destruct ps as [|q ps]; [done|].
  change (Join (p :: q :: ps) [c]) with (p ++ [c] ++ Join (q :: ps) [c]).
  rewrite !forallb_app_eq, Hp, IH. cbn. by rewrite Hc.
Qed.

Lemma domain_bytes `{Unicode} `{NetIP} u d :
  validateDomain d u = None -> head d <> Some "["%byte -> forallb domain_char d = true.
Proof.
  unfold validateDomain. destruct d as [|c d]; [done|]. intros E Hc.
  destruct (byte_eqb_spec c "["%byte) as [->|]; [done|].
  rewrite first_err_None in E. rewrite <- (Join_Split "."%byte (c :: d)).
  apply Join_chars; [done|]. eapply Forall_impl; [exact E|]. intros l Hl. cbn in Hl.
  apply label_bytes in Hl. revert Hl. apply forallb_mono. intros x. unfold domain_char.
  by destruct (is_label_char x), (x =b "."%byte).
Qed.

(** A byte that none of the scanners reacts to. *)
Definition inert (c : byte) : bool :=
  negb (c =b QUOTE) && negb (c =b "["%byte) && negb (c =b "]"%byte) && negb (c =b ">"%byte)
  && negb (c =b "@"%byte).

Lemma isAtext_inert c : isAtext c = true -> inert c = true.
Proof. by destruct c; vm_compute. Qed.

Lemma local_char_inert c : local_char c = true -> inert c = true.
Proof.
  unfold local_char, high. intros [[H|H]%orb_true_iff|H]%orb_true_iff; [by apply isAtext_inert| |].
  { apply Byte.byte_dec_bl in H. subst c. reflexivity. }
  unfold inert, QUOTE. rewrite !byte_eqb_bz. bz_consts. lia.
Qed.

Lemma domain_char_inert c : domain_char c = true -> inert c = true.
Proof.
  unfold domain_char, high, is_label_char, is_alnum, is_upper, is_lower, is_digit, in_range, inert, QUOTE.
  rewrite !byte_eqb_bz. bz_consts. lia.
Qed.

Lemma closing_angle_inert s t i :
  forallb inert s = true ->
  closing_angle (s ++ t) false false false i = closing_angle t false false false (i + length s).
Proof.
  revert i. induction s as [|c s IH]; intros i; [by rewrite Nat.add_0_r|].
  cbn [forallb app closing_angle length]. unfold inert. intros [Hc Hs]%andb_true_iff. btrue.
  repeat match goal with E : (c =b _) = false |- _ => rewrite E; clear E end. cbn [andb].
  rewrite IH by done. f_equal. lia.
Qed.

Lemma split_scan_inert s t at_ i :
  forallb inert s = true ->
  split_scan (s ++ t) false false at_ i = split_scan t false false at_ (i + length s).
Proof.
  revert i. induction s as [|c s IH]; intros i; [by rewrite Nat.add_0_r|].
  cbn [forallb app split_scan length]. unfold inert. intros [Hc Hs]%andb_true_iff. btrue.
  repeat match goal with E : (c =b _) = false |- _ => rewrite E; clear E end.
  rewrite IH by done. f_equal. lia.
Qed.

(** Inside a quoted string, up to the closing quote. *)
Lemma scan_quoted s t i at_ :
  quoted_content s = None ->
  closing_angle (s ++ QUOTE :: t) true false false i =
    closing_angle t false false false (i + length s + 1) /\
  split_scan (s ++ QUOTE :: t) true false at_ i = split_scan t false false at_ (i + length s + 1).
Proof.
  revert i. enough (forall n s, (length s <= n)%nat -> forall i, quoted_content s = None ->
    closing_angle (s ++ QUOTE :: t) true false false i =
      closing_angle t false false false (i + length s + 1) /\
    split_scan (s ++ QUOTE :: t) true false at_ i = split_scan t false false at_ (i + length s + 1))
    as E by (intros i; by eapply E). clear s.
  induction n as [|n IH]; intros [|c s] Hn i; cbn [length] in Hn; try lia;
    try (intros _; cbn; rewrite ?Nat.add_0_r, Nat.add_1_r; done).
  cbn [quoted_content]. destruct (byte_eqb_spec c BACKSLASH) as [->|Hb].
  - destruct s as [|d s]; [done|]. destruct (bad_quoted d); [done|]. intros Hq. cbn [length] in Hn.
    cbn [app closing_angle split_scan length]. change (BACKSLASH =b BACKSLASH) with true. cbn [closing_angle split_scan].
    destruct (IH s ltac:(lia) (S (S i)) Hq) as [-> ->]. split; f_equal; lia.
  - destruct (byte_eqb_spec c QUOTE) as [->|Hq]; [done|]. destruct (_ || _); [done|]. intros HQ.
    cbn [app closing_angle split_scan length].
    destruct (byte_eqb_spec c BACKSLASH), (byte_eqb_spec c QUOTE); try done.
    destruct (IH s ltac:(lia) (S i) HQ) as [-> ->]. split; f_equal; lia.
Qed.

(** A valid local part takes the scanners back to their unquoted state, and does not begin a source
    route. *)
Lemma scan_local local u t i at_ :
  validateLocalPart local u = None ->
  closing_angle (local ++ t) false false false i =
    closing_angle t false false false (i + length local) /\
  split_scan (local ++ t) false false at_ i = split_scan t false false at_ (i + length local) /\
  HasPrefix (local ++ t) ($"@") = false.
Proof.
  unfold validateLocalPart. destruct local as [|c rest]; [done|].
  destruct (byte_eqb_spec c QUOTE) as [->|Hc].
  - destruct (_ || _) eqn:E; [done|]. apply orb_false_iff in E as [L HS].
    apply negb_false_iff in HS.
    assert (exists s, rest = s ++ [QUOTE]) as [s ->].
    { destruct (HasSuffix_inv _ _ HS) as [[|x p] E]; cbn in E; simplify_eq; try done. by exists p. }
    rewrite length_app. cbn [length]. replace (length s + 1 - 1)%nat with (length s) by lia.
    rewrite take_app_length. intros HQ. cbn [app closing_angle split_scan length].
    change (QUOTE =b QUOTE) with true. cbv iota. rewrite <- !app_assoc. cbn [app].
    destruct (scan_quoted s t (S i) at_ HQ) as [-> ->].
    rewrite length_app. cbn [length]. split_and!; [f_equal; lia|f_equal; lia|done].
  - destruct (HasSuffix _ _); [done|]. intros E%dot_atom_bytes.
    assert (forallb inert (c :: rest) = true) as I by (revert E; apply forallb_mono, local_char_inert).
    split_and!; [by apply closing_angle_inert|by apply split_scan_inert|].
    cbn in I. unfold inert in I. cbn. btrue. destruct (byte_eqb_spec "@"%byte c) as [<-|]; done.
Qed.

(** *** Parameters *)

Definition print_params (encoded : list bytes) : bytes := concat (map (fun e => SP :: e) encoded).

Lemma keyword_spec kw : validateKeyword kw = None ->
  kw <> [] /\ forallb is_label_char kw = true.
Proof.
  unfold validateKeyword, fail_if. destruct kw as [|c kw]; [done|].
  destruct (is_alnum c) eqn:Hc; [|done]. cbn. destruct (existsb _ kw) eqn:E; [done|]. intros _.
  split; [done|]. unfold is_label_char at 1. rewrite Hc. cbn.
  apply forallb_forall. intros x Hx. unfold is_label_char.
  destruct (is_alnum x || (x =b "-"%byte)) eqn:F; [done|].
  rewrite (proj2 (existsb_exists _ _)) in E; [done|]. exists x. split; [done|].
  apply orb_false_iff in F as [-> ->]. done.
Qed.

Lemma label_char_graph c : is_label_char c = true -> is_graph c = true /\ (c =b "="%byte) = false.
Proof.
  unfold is_label_char, is_alnum, is_upper, is_lower, is_digit, in_range, is_graph.
  rewrite !byte_eqb_bz. bz_consts. lia.
Qed.

Lemma keyword_graph kw : forallb is_label_char kw = true ->
  forallb is_graph kw = true /\ no_byte "="%byte kw = true.
Proof.
  intros H. split; revert H; apply forallb_mono; intros c [? ?]%label_char_graph; [done|].
  by apply negb_true_iff.
Qed.

Lemma esmtp_value_graph v : validateESMTPValue v = None -> v <> [] /\ forallb is_graph v = true.
Proof.
  unfold validateESMTPValue, fail_if. destruct v as [|c v]; [done|]. intros E.
  split; [done|]. revert E. generalize (c :: v). intros s. induction s as [|d s IH]; [done|].
  cbn. destruct (existsb _ s); [by rewrite orb_true_r|]. rewrite orb_false_r.
  destruct (_ || _) eqn:B; [done|]. intros _. rewrite IH by done. unfold is_graph. lia.
Qed.

Lemma EncodeParam_parse p e :
  EncodeParam p = Ok e -> e <> [] /\ forallb is_graph e = true /\ parse_path_param e = Ok p.
Proof.
  unfold EncodeParam, parse_path_param. destruct p as [kw v]. cbn [Keyword Value].
  destruct (validateKeyword kw) eqn:Hk; [done|]. destruct (keyword_spec _ Hk) as [Hn Hc].
  destruct (keyword_graph _ Hc) as [Hg He].
  destruct v as [|c v].
  - intros [= <-]. split_and!; [done|done|]. rewrite Cut_no by done. by rewrite Hk.
  - destruct (validateESMTPValue (c :: v)) eqn:Hv; [done|].
    destruct (esmtp_value_graph _ Hv) as [_ Hgv]. intros [= <-].
    change (kw ++ $"=" ++ c :: v) with (kw ++ "="%byte :: c :: v) in *.
    split_and!.
    + by destruct kw.
    + rewrite forallb_app_eq, Hg. by cbn in *.
    + rewrite Cut_app by done. by rewrite Hk, Hv.
Qed.

Lemma graph_no_ws e c : forallb is_graph e = true -> mem_byte c [CR; LF; x00; x09] = true ->
  In c e -> False.
Proof.
  intros H Hc I. rewrite forallb_forall in H. specialize (H _ I). unfold mem_byte in Hc. cbn in Hc.
  rewrite orb_false_r in Hc. unfold is_graph, CR, LF in *. blia.
Qed.

Lemma parsePathParams_printed params encoded :
  Forall2 (fun p e => EncodeParam p = Ok e) params encoded ->
  parsePathParams (print_params encoded) = Ok params.
Proof.
  intros F. destruct F as [|p e params encoded Hp F]; [done|].
  assert (Forall (fun e => e <> [] /\ forallb is_graph e = true) (e :: encoded)) as G.
  { constructor; [by destruct (EncodeParam_parse _ _ Hp) as (?&?&_)|].
    clear -F. induction F as [|? ? ? ? H _ IH]; constructor; [|done].
    by destruct (EncodeParam_parse _ _ H) as (?&?&_). }
  assert (print_params (e :: encoded) = SP :: Join (e :: encoded) [SP]) as ->.
  { clear. unfold print_params. cbn [map concat app]. f_equal. revert e.
    induction encoded as [|e' es IH]; intros e; [by rewrite app_nil_r|].
    change (Join (e :: e' :: es) [SP]) with (e ++ [SP] ++ Join (e' :: es) [SP]).
    rewrite <- IH. done. }
  unfold parsePathParams. change (SP =b SP) with true. cbn [negb orb].
  assert (ContainsAny (SP :: Join (e :: encoded) [SP]) [CR; LF; x00; x09] = false) as ->.
  { apply ContainsAny_false. apply forallb_forall. intros c Hc. apply negb_true_iff.
    destruct (mem_byte c _) eqn:M; [|done]. exfalso. destruct Hc as [<-|Hc]; [done|].
    assert (forallb (fun c => is_graph c || (c =b SP)) (Join (e :: encoded) [SP]) = true) as J.
    { apply Join_chars; [done|]. eapply Forall_impl; [exact G|]. intros x [_ Hx]. revert Hx.
      apply forallb_mono. by intros ? ->. }
    rewrite forallb_forall in J. specialize (J _ Hc). unfold mem_byte in M. cbn in M.
    rewrite orb_false_r in M. unfold is_graph, CR, LF, SP in *. blia. }
  change (Fields (SP :: Join (e :: encoded) [SP])) with (Fields (Join (e :: encoded) [SP])).
  rewrite Fields_Join; cycle 1.
  { eapply Forall_impl; [exact G|]. by intros x [? ?]. }
  assert (Forall2 (fun p e => parse_path_param e = Ok p) (p :: params) (e :: encoded)) as P.
  { apply (Forall2_impl (fun p e => EncodeParam p = Ok e)); [by constructor|].
    intros x y Hxy. by apply EncodeParam_parse. }
  clear -P. induction P as [|x y xs ys H _ IH]; [done|]. cbn [parse_path_params]. by rewrite H, IH.
Qed.

(** a path the client prints is the path the server parses: for a valid local part and domain
    name, whatever parameters follow, parsing the printed MAIL or RCPT argument gives back the
    mailbox, its two parts and every parameter. *)
Theorem parsePathArgument_printed `{Unicode} `{NetIP} prefix an ap opts local domain params encoded :
  is_ascii prefix = true ->
  validateLocalPart local (SMTPUTF8 opts) = None -> validateDomain domain (SMTPUTF8 opts) = None ->
  head domain <> Some "["%byte ->
  let mailbox := local ++ "@"%byte :: domain in
  ValidString mailbox = true -> (SMTPUTF8 opts = false -> hasHighByte mailbox = false) ->
  Z.of_nat (length mailbox) + 2 <=
    (if MaxPathLength opts <=? 0 then defaultMaxPathLength else MaxPathLength opts) ->
  Forall2 (fun p e => EncodeParam p = Ok e) params encoded ->
  parsePathArgument (prefix ++ "<"%byte :: mailbox ++ ">"%byte :: print_params encoded) prefix an ap opts =
    Ok {| Mailbox := mailbox; LocalPart := local; Domain := domain; Null := false;
          Postmaster := ap && EqualFold local ($"Postmaster"); Params := params |}.
Proof.
  intros Hpre HL HD Hb mailbox HV HH HM HP. unfold parsePathArgument.
  assert (forallb inert domain = true) as HI
    by (apply domain_bytes in HD; [revert HD; apply forallb_mono, domain_char_inert|done]).
  rewrite length_app. destruct (Nat.ltb_spec (length prefix + length ("<"%byte :: mailbox ++ ">"%byte :: print_params encoded)) (length prefix)); [lia|].
  rewrite take_app_length, drop_app_length, EqualFold_refl by done. cbn [orb negb].
  rewrite TrimLeft_head by done. cbn [HasPrefix]. change ("<"%byte =b "<"%byte) with true.
  assert (forall s, HasPrefix s [] = true) as HN by by intros []. rewrite HN. cbn [andb negb].
  assert (pathClosingAngle ("<"%byte :: mailbox ++ ">"%byte :: print_params encoded) = Ok (S (length mailbox))) as ->.
  { unfold pathClosingAngle. cbn [drop]. rewrite drop_0. unfold mailbox. rewrite <- app_assoc. cbn [app].
    destruct (scan_local local _ ("@"%byte :: domain ++ ">"%byte :: print_params encoded) 1 None HL) as [-> _].
    cbn -[Nat.add]. rewrite closing_angle_inert by done. cbn -[Nat.add].
    rewrite length_app. cbn [length]. f_equal. lia. }
  destruct (Z.ltb_spec (if MaxPathLength opts <=? 0 then defaultMaxPathLength else MaxPathLength opts)
    (Z.of_nat (S (length mailbox)) + 1)); [lia|].
  replace (drop (S (length mailbox) + 1) ("<"%byte :: mailbox ++ ">"%byte :: print_params encoded))
    with (print_params encoded); cycle 1.
  { symmetry. change (S (length mailbox) + 1)%nat with (S (length mailbox + 1)). cbn [drop].
    apply drop_app_cons. lia. }
  rewrite (parsePathParams_printed _ _ HP). cbn [drop]. rewrite drop_0, Nat.sub_succ, Nat.sub_0_r, take_app_length.
  destruct (scan_local local _ ("@"%byte :: domain) 0 None HL) as (_ & HS & HNo).
  fold mailbox in HS, HNo. unfold parse_mailbox.
  assert (exists c m, mailbox = c :: m) as (c & m & Em)
    by (unfold mailbox; destruct local; by repeat eexists).
  rewrite Em, <- Em, HV. cbn [negb].
  replace (negb (SMTPUTF8 opts) && hasHighByte mailbox) with false
    by (destruct (SMTPUTF8 opts); [done|by rewrite HH]).
  assert (splitMailbox mailbox = Ok (local, domain, true)) as ES.
  { unfold splitMailbox. rewrite HS. cbn [split_scan app]. change ("@"%byte =b QUOTE) with false.
    change ("@"%byte =b "@"%byte) with true. cbv iota.
    pose proof (split_scan_inert domain [] (Some (0 + length local)%nat) (S (0 + length local)) HI) as HSD.
    rewrite app_nil_r in HSD. rewrite HSD. cbn [split_scan orb Nat.add]. unfold mailbox.
    by rewrite take_app_length, drop_app_cons. }
  unfold discardSourceRoute. rewrite HNo. cbn [negb]. rewrite ES.
  assert (beq domain [] = false) as -> by by destruct domain.
  cbn [negb orb]. rewrite andb_true_r.
  destruct (ap && EqualFold local _); [by rewrite HD|by rewrite HL, HD].
Qed.

#[export] Instance no_literals : NetIP :=
  {| ParseAddr_Is4 := fun _ => false; ParseAddr_Is6 := fun _ => false |}.

Lemma parsePathArgument_printed_witness :
  @parsePathArgument ascii_only_unicode no_literals
    ($"TO:" ++ "<"%byte :: ($"a.b" ++ "@"%byte :: $"x-y.org") ++ ">"%byte :: print_params [$"NOTIFY=NEVER"])
    ($"TO:") false true {| SMTPUTF8 := true; MaxPathLength := 40 |} =
  Ok {| Mailbox := $"a.b" ++ "@"%byte :: $"x-y.org"; LocalPart := $"a.b"; Domain := $"x-y.org";
        Null := false; Postmaster := false; Params := [{| Keyword := $"NOTIFY"; Value := $"NEVER" |}] |}.
Proof.
  refine (@parsePathArgument_printed ascii_only_unicode no_literals ($"TO:") false true
    {| SMTPUTF8 := true; MaxPathLength := 40 |} ($"a.b") ($"x-y.org")
    [{| Keyword := $"NOTIFY"; Value := $"NEVER" |}] [$"NOTIFY=NEVER"] _ _ _ _ _ _ _ _);
    try (vm_compute; congruence); try done.
  repeat constructor.
Defined.
