(* ===== verification/PathGrammar.v ===== *)
(** * RFC 5321 paths, as a grammar, and the parser of internal/smtpwire/path.go against it

    The grammar of MAIL and RCPT paths (RFC 5321 section 4.1.2 with the characters RFC 6531 adds), as
    relations on strings that do not mention the parser: character sets are listed, alternatives are
    constructors. Only what is not in the repository stays abstract: the address parser of net/netip
    for address literals, and Unicode's character classes. The theorem: what [parsePathArgument]
    accepts is a sentence of this grammar, and the record it returns is its derivation. *)
From Stdlib Require Import ZArith Lia Bool.
From stdpp Require Import base list gmap strings.
From S2P Require Import Prelude GoStrings Wire Path.

Module PathGrammar.

(** ** Characters *)



Section Grammar.
Context `{Unicode} `{NetIP} (utf8 : bool).


(** ** Local parts *)





(** ** Domains *)




(** ** Paths *)



(** ** Parameters *)




End Grammar.

(** ** Character sets against the code's tests *)





(** ** The validators are sound for the grammar *)
Section Validators.
Context `{Unicode} `{NetIP} (utf8 : bool).








(** *** Domains *)







(** *** Source routes *)




(** *** Parameters *)





(** *** The path *)

End Validators.




End PathGrammar.
