(* ===== verification/NetAddr.v ===== *)
(** * Network addresses

    What the server uses of packages net and net/netip: [SplitHostPort], the address a listener or
    a connection reports ([net_addr], with one constructor per type the code switches on), and
    netip's value type [Addr] with its parser and its printer. [ParseAddr_String] shows that the
    printed form of a valid address parses back to it, so that two addresses are printed alike only
    when they are equal; the server keys its per-source connection counts by that form. *)
From Stdlib Require Import ZArith Lia Bool.
From stdpp Require Import base list gmap strings.
From S2P Require Import Prelude GoStrings Wire Path.

(** ** Package net *)

(** The position after the last occurrence of a byte: text before it and text behind it. *)
Fixpoint CutLast (s : bytes) (sep : byte) : option (bytes * bytes) :=
  match s with
  | [] => None
  | c :: s' =>
      match CutLast s' sep with
      | Some (before, after) => Some (c :: before, after)
      | None => if c =b sep then Some ([], s') else None
      end
  end.

(** [net.SplitHostPort], with [None] for every error. The port starts behind the last colon; a host
    in square brackets must end just before that colon, any other host holds no colon. *)
Definition SplitHostPort (hostport : bytes) : option (bytes * bytes) :=
  match CutLast hostport ":"%byte with
  | None => None
  | Some (before, port) =>
      match hostport with
      | c :: rest =>
          if c =b "["%byte then
            let '(host, behind, found) := Cut rest "]"%byte in
            if negb found then None
            else if negb (length behind =? S (length port))%nat then None
            else if mem_byte "["%byte rest || mem_byte "]"%byte behind then None
            else Some (host, port)
          else if mem_byte ":"%byte before then None
          else if mem_byte "["%byte hostport || mem_byte "]"%byte hostport then None
          else Some (before, port)
      | [] => None
      end
  end.

(** ** Package net/netip *)

(** [netip.Addr]: the zero value, four octets, or sixteen octets with a zone ([[]] is none). *)
Inductive Addr : Type :=
| AddrInvalid
| Addr4 (octets : bytes)
| Addr6 (octets zone : bytes).

Definition AddrFromSlice (slice : bytes) : option Addr :=
  if (length slice =? 4)%nat then Some (Addr4 slice)
  else if (length slice =? 16)%nat then Some (Addr6 slice [])
  else None.

Definition IsValid (a : Addr) : bool := match a with AddrInvalid => false | _ => true end.
Definition Is4 (a : Addr) : bool := match a with Addr4 _ => true | _ => false end.
Definition Is6 (a : Addr) : bool := match a with Addr6 _ _ => true | _ => false end.

Definition mapped_prefix : bytes := replicate 10 x00 ++ [xff; xff].

Definition Is4In6 (a : Addr) : bool :=
  match a with Addr6 o _ => HasPrefix o mapped_prefix | _ => false end.

Definition Unmap (a : Addr) : Addr :=
  match a with
  | Addr6 o _ => if HasPrefix o mapped_prefix then Addr4 (drop 12 o) else a
  | _ => a
  end.

Definition WithZone (a : Addr) (zone : bytes) : Addr :=
  match a with Addr6 o _ => Addr6 o zone | _ => a end.

(** *** Parsing *)

(** [parseIPv4Fields]: [start] is "at the first byte or behind a dot". *)
Fixpoint parseIPv4Fields (s : bytes) (start : bool) (val digLen : Z) (fields : bytes) : option bytes :=
  match s with
  | [] => if (length fields <? 3)%nat then None else Some (fields ++ [zb val])
  | c :: s' =>
      if is_digit c then
        if (digLen =? 1) && (val =? 0) then None
        else let v := val * 10 + (bz c - 48) in
             if 255 <? v then None else parseIPv4Fields s' false v (digLen + 1) fields
      else if c =b "."%byte then
        if start || beq s' [] then None
        else if (length fields =? 3)%nat then None
        else parseIPv4Fields s' true 0 0 (fields ++ [zb val])
      else None
  end.

Definition parse_fields (s : bytes) : option bytes := parseIPv4Fields s true 0 0 [].

Definition hex_digit (c : byte) : option Z :=
  if is_digit c then Some (bz c - 48)
  else if in_range "a"%byte "f"%byte c then Some (bz c - 87)
  else if in_range "A"%byte "F"%byte c then Some (bz c - 55)
  else None.

(** The digits of one group: how many, their value, and what is behind them. *)
Fixpoint hex_group (s : bytes) (off : nat) (acc : Z) : option (nat * Z * bytes) :=
  match s with
  | [] => Some (off, acc, [])
  | c :: s' =>
      match hex_digit c with
      | Some d =>
          let acc' := acc * 16 + d in
          if (3 <? off)%nat then None
          else if 65535 <? acc' then None
          else hex_group s' (S off) acc'
      | None => Some (off, acc, s)
      end
  end.

(** The loop of [parseIPv6]: [k] more groups fit; octets so far, position of the ellipsis, input. *)
Fixpoint v6_groups (k : nat) (ip : bytes) (ellipsis : option nat) (s : bytes) :
    option (bytes * option nat * bytes) :=
  match k with
  | O => Some (ip, ellipsis, s)
  | S k' =>
      match hex_group s 0 0 with
      | None | Some (O, _, _) => None
      | Some (_, acc, rest) =>
          let ip' := ip ++ [zb (acc / 256); zb acc] in
          match rest with
          | [] => Some (ip', ellipsis, [])
          | c :: s1 =>
              if c =b "."%byte then
                if bool_decide (ellipsis = None) && negb (length ip =? 12)%nat then None
                else if (16 <? length ip + 4)%nat then None
                else match parse_fields s with
                     | Some f => Some (ip ++ f, ellipsis, [])
                     | None => None
                     end
              else if negb (c =b ":"%byte) then None
              else
                match s1 with
                | [] => None
                | d :: s2 =>
                    if d =b ":"%byte then
                      if bool_decide (ellipsis = None) then
                        match s2 with
                        | [] => Some (ip', Some (length ip'), [])
                        | _ => v6_groups k' ip' (Some (length ip')) s2
                        end
                      else None
                    else v6_groups k' ip' ellipsis s1
                end
          end
      end
  end.

(** What follows the loop: the ellipsis stands for at least one group. *)
Definition v6_expand (ip : bytes) (ellipsis : option nat) : option bytes :=
  if (length ip <? 16)%nat then
    match ellipsis with
    | None => None
    | Some e => Some (take e ip ++ replicate (16 - length ip) x00 ++ drop e ip)
    end
  else if bool_decide (ellipsis = None) then Some ip else None.

Definition v6_body (s : bytes) : option bytes :=
  let groups ellipsis s :=
    match v6_groups 8 [] ellipsis s with
    | Some (ip, ellipsis', []) => v6_expand ip ellipsis'
    | _ => None
    end in
  match s with
  | c :: d :: s' =>
      if (c =b ":"%byte) && (d =b ":"%byte)
      then match s' with [] => Some (replicate 16 x00) | _ => groups (Some 0%nat) s' end
      else groups None s
  | _ => groups None s
  end.

Definition parseIPv6 (text : bytes) : option Addr :=
  let '(s, zone, found) := Cut text "%"%byte in
  if found && beq zone [] then None
  else o ← v6_body s; Some (Addr6 o zone).

(** [netip.ParseAddr]: the first of '.', ':' and '%' decides the family. *)
Fixpoint addr_family (s : bytes) : option bool :=
  match s with
  | [] => None
  | c :: s' =>
      if c =b "."%byte then Some true
      else if c =b ":"%byte then Some false
      else if c =b "%"%byte then None
      else addr_family s'
  end.

Definition ParseAddr (s : bytes) : option Addr :=
  match addr_family s with
  | Some true => f ← parse_fields s; Some (Addr4 f)
  | Some false => parseIPv6 s
  | None => None
  end.

(** net/netip as the wire layer and the greeting identity use it. *)
#[export] Instance go_netip : NetIP :=
  {| ParseAddr_Is4 := fun s => match ParseAddr s with Some a => Is4 a | None => false end;
     ParseAddr_Is6 := fun s => match ParseAddr s with Some a => Is6 a | None => false end |}.

(** *** Printing *)

Definition string4 (o : bytes) : bytes := Join (map (fun c => FormatUint (bz c)) o) ($".").

Definition lower_hex (d : Z) : byte := zb (if d <? 10 then 48 + d else 87 + d).

(** [appendHex]: a group without leading zeros. *)
Definition appendHex (x : Z) : bytes :=
  (if 4096 <=? x then [lower_hex (x / 4096)] else []) ++
  (if 256 <=? x then [lower_hex (x / 256 mod 16)] else []) ++
  (if 16 <=? x then [lower_hex (x / 16 mod 16)] else []) ++
  [lower_hex (x mod 16)].

(** [v6u16]: the groups of sixteen octets. *)
Fixpoint groups_of (o : bytes) : list Z :=
  match o with
  | a :: b :: o' => bz a * 256 + bz b :: groups_of o'
  | _ => []
  end.

Fixpoint zeros (gs : list Z) : nat :=
  match gs with g :: gs' => if g =? 0 then S (zeros gs') else O | [] => O end.

(** The longest run of at least two zero groups, the leftmost one on a tie. *)
Definition longest_run (gs : list Z) : nat * nat :=
  foldl (fun best i =>
      let l := zeros (drop i gs) in
      if (2 <=? l)%nat && (best.2 - best.1 <? l)%nat then (i, (i + l)%nat) else best)
    (255%nat, 255%nat) (seq 0 8).

(** The printing loop from group [i], at most [k] groups to go. *)
Fixpoint string6_from (k i zs ze : nat) (gs : list Z) : bytes :=
  match k with
  | O => []
  | S k' =>
      if (8 <=? i)%nat then []
      else if (i =? zs)%nat then
        $"::" ++ (if (8 <=? ze)%nat then [] else appendHex (nth ze gs 0) ++ string6_from k' (S ze) zs ze gs)
      else (if (0 <? i)%nat then $":" else []) ++ appendHex (nth i gs 0) ++ string6_from k' (S i) zs ze gs
  end.

Definition zone_suffix (zone : bytes) : bytes := if beq zone [] then [] else "%"%byte :: zone.

Definition string6 (o zone : bytes) : bytes :=
  let gs := groups_of o in
  let '(zs, ze) := longest_run gs in
  string6_from 8 0 zs ze gs ++ zone_suffix zone.

Definition Addr_String (a : Addr) : bytes :=
  match a with
  | AddrInvalid => $"invalid IP"
  | Addr4 o => string4 o
  | Addr6 o zone =>
      if Is4In6 a then $"::ffff:" ++ string4 (drop 12 o) ++ zone_suffix zone else string6 o zone
  end.

(** ** net.Addr *)

(** The address a listener or a connection reports: the concrete types the server switches on, and
    any other implementation by its [Network] and [String] methods. *)
Inductive net_addr : Type :=
| TCPAddr (ip : bytes) (port : Z) (zone : bytes)
| UDPAddr (ip : bytes) (port : Z) (zone : bytes)
| IPAddr (ip : bytes) (zone : bytes)
| OtherAddr (network text : bytes).

(** [IP.String], for the addresses that print themselves through it. *)
Definition is_v4_slice (ip : bytes) : bool :=
  (length ip =? 4)%nat || ((length ip =? 16)%nat && HasPrefix ip mapped_prefix).

Definition hexString (s : bytes) : bytes :=
  concat (map (fun c => [lower_hex (bz c / 16); lower_hex (bz c mod 16)]) s).

(** [ipEmptyString]: no address is the empty string. *)
Definition ipEmptyString (ip : bytes) : bytes :=
  if (length ip =? 0)%nat then []
  else if negb ((length ip =? 4)%nat || (length ip =? 16)%nat) then "?"%byte :: hexString ip
  else if is_v4_slice ip then Addr_String (Addr4 (drop (length ip - 4) ip))
  else Addr_String (Addr6 ip []).

Definition JoinHostPort (host port : bytes) : bytes :=
  if mem_byte ":"%byte host then $"[" ++ host ++ $"]:" ++ port else host ++ $":" ++ port.

Definition net_addr_Network (a : net_addr) : bytes :=
  match a with
  | TCPAddr _ _ _ => $"tcp" | UDPAddr _ _ _ => $"udp" | IPAddr _ _ => $"ip" | OtherAddr n _ => n
  end.

Definition net_addr_String (a : net_addr) : bytes :=
  match a with
  | TCPAddr ip port zone | UDPAddr ip port zone =>
      JoinHostPort (ipEmptyString ip ++ zone_suffix zone) (Itoa port)
  | IPAddr ip zone => ipEmptyString ip ++ zone_suffix zone
  | OtherAddr _ text => text
  end.

Example parse_examples :
  ParseAddr ($"192.0.2.1") = Some (Addr4 [xc0; x00; x02; x01]) /\
  ParseAddr ($"192.0.02.1") = None /\ ParseAddr ($"1.2.3") = None /\ ParseAddr ($"1.2.3.4.") = None /\
  ParseAddr ($"::") = Some (Addr6 (replicate 16 x00) []) /\
  ParseAddr ($"fe80::1%eth0") = Some (Addr6 ([xfe; x80] ++ replicate 13 x00 ++ [x01]) ($"eth0")) /\
  ParseAddr ($"::ffff:192.0.2.1") = Some (Addr6 (mapped_prefix ++ [xc0; x00; x02; x01]) []) /\
  ParseAddr ($"1:2:3:4:5:6:7::8") = None /\ ParseAddr ($"1::2::3") = None /\ ParseAddr ($"fe80::1%") = None /\
  Addr_String (Addr6 ([x20; x01; x0d; xb8] ++ replicate 10 x00 ++ [x10; x02]) []) = $"2001:db8::1002" /\
  Addr_String (Addr6 (replicate 16 x00) []) = $"::" /\
  SplitHostPort ($"[::1]:25") = Some ($"::1", $"25") /\ SplitHostPort ($"a:b:25") = None /\
  SplitHostPort ($"host:25") = Some ($"host", $"25") /\ SplitHostPort ($"host") = None.
Proof. by vm_compute. Qed.

(** ** What is printed parses back *)

Lemma parse_octet c : exists d, forall rest fields,
  parseIPv4Fields (FormatUint (bz c) ++ rest) true 0 0 fields = parseIPv4Fields rest false (bz c) d fields.
Proof. destruct c; eexists; intros; reflexivity. Qed.

Lemma family_octet c rest : addr_family (FormatUint (bz c) ++ rest) = addr_family rest.
Proof. by destruct c. Qed.

Lemma hex_octet c : exists n acc, forall rest,
  hex_group (FormatUint (bz c) ++ "."%byte :: rest) 0 0 = Some (S n, acc, "."%byte :: rest).
Proof. destruct c; do 2 eexists; intros; reflexivity. Qed.

(** A run of octets behind dots. *)
Definition dotted (o : bytes) : bytes := concat (map (fun c => "."%byte :: FormatUint (bz c)) o).

Lemma string4_dotted c o : string4 (c :: o) = FormatUint (bz c) ++ dotted o.
Proof.
  revert c. induction o as [|d o IH]; intros c; [by rewrite app_nil_r|].
  unfold string4 in *. cbn [map Join dotted concat]. specialize (IH d). cbn [map Join] in IH.
  fold (dotted o) in *. by rewrite IH.
Qed.

Lemma FormatUint_octet_nonempty c : FormatUint (bz c) <> [].
Proof. by destruct c. Qed.

Lemma parse_dotted c d fields o :
  (length fields + length o = 3)%nat ->
  parseIPv4Fields (dotted o) false (bz c) d fields = Some (fields ++ c :: o).
Proof.
  revert c d fields. induction o as [|a o IH]; intros c d fields L; simpl in L.
  - cbn [parseIPv4Fields dotted map concat]. rewrite (proj2 (Nat.ltb_ge (length fields) 3)), zb_bz by lia. done.
  - cbn [dotted map concat]. fold (dotted o). rewrite <- app_comm_cons. cbn [parseIPv4Fields].
    change (is_digit "."%byte) with false. change ("."%byte =b "."%byte) with true. cbn [orb].
    assert (beq (FormatUint (bz a) ++ dotted o) [] = false) as ->.
    { destruct (beq_spec (FormatUint (bz a) ++ dotted o) []) as [E|]; [|done].
      apply app_eq_nil in E as [E _]. by apply FormatUint_octet_nonempty in E. }
    rewrite (proj2 (Nat.eqb_neq _ _)), zb_bz by lia.
    destruct (parse_octet a) as [e P]. rewrite P, IH; [by rewrite <- app_assoc|].
    rewrite length_app. simpl. lia.
Qed.

Lemma parse_string4 o : length o = 4%nat -> parse_fields (string4 o) = Some o.
Proof.
  destruct o as [|c o]; intros L; [done|]. rewrite string4_dotted. unfold parse_fields.
  destruct (parse_octet c) as [d P]. rewrite P, parse_dotted; [done|]. simpl in *. lia.
Qed.

(** *** Sixteen octets *)

Lemma hex_digit_lower d : 0 <= d < 16 -> hex_digit (lower_hex d) = Some d.
Proof.
  intros H. assert (In d (map Z.of_nat (seq 0 16))) as I.
  { apply List.in_map_iff. exists (Z.to_nat d). split; [lia|]. apply List.in_seq. lia. }
  vm_compute in I. by repeat (destruct I as [<-|I]; [reflexivity|]).
Qed.

(** What is behind a group: nothing, or a byte that is no hexadecimal digit. *)
Definition group_end (rest : bytes) : Prop :=
  match rest with c :: _ => hex_digit c = None | [] => True end.

Lemma hex_group_end rest off acc : group_end rest -> hex_group rest off acc = Some (off, acc, rest).
Proof. destruct rest as [|c r]; [done|]. cbn [hex_group group_end]. by intros ->. Qed.

Lemma hex_group_digit d rest off acc :
  0 <= d < 16 -> (off <= 3)%nat -> acc * 16 + d <= 65535 ->
  hex_group (lower_hex d :: rest) off acc = hex_group rest (S off) (acc * 16 + d).
Proof.
  intros Hd Ho Ha. cbn [hex_group]. rewrite hex_digit_lower by done.
  cbv zeta. rewrite (proj2 (Nat.ltb_ge _ _)), (proj2 (Z.ltb_ge _ _)) by lia. done.
Qed.

Lemma hex_group_print g rest : 0 <= g < 65536 -> group_end rest ->
  exists n, hex_group (appendHex g ++ rest) 0 0 = Some (S n, g, rest).
Proof.
  intros Hg He. unfold appendHex.
  assert (0 <= g / 4096 < 16) by (split; [apply Z.div_pos|apply Z.div_lt_upper_bound]; lia).
  pose proof (Z.mod_pos_bound (g / 256) 16 ltac:(lia)). pose proof (Z.mod_pos_bound (g / 16) 16 ltac:(lia)).
  pose proof (Z.mod_pos_bound g 16 ltac:(lia)).
  pose proof (Z.div_mod g 16 ltac:(lia)). pose proof (Z.div_mod (g / 16) 16 ltac:(lia)).
  pose proof (Z.div_mod (g / 256) 16 ltac:(lia)).
  rewrite (Z.div_div g 16 16) in * by lia. rewrite (Z.div_div g 256 16) in * by lia.
  change (16 * 16) with 256 in *. change (256 * 16) with 4096 in *.
  destruct (4096 <=? g) eqn:E1, (256 <=? g) eqn:E2, (16 <=? g) eqn:E3; try lia;
    cbn [app]; rewrite !hex_group_digit, hex_group_end by (done || lia); eexists;
    repeat f_equal; try reflexivity; try lia.
Qed.

Definition hexes (gs : list Z) : bytes := Join (map appendHex gs) ($":").
Definition octs (gs : list Z) : bytes := concat (map (fun g => [zb (g / 256); zb g]) gs).
Definition groups_ok (gs : list Z) : Prop := Forall (fun g => 0 <= g < 65536) gs.

Lemma octs_length gs : length (octs gs) = (2 * length gs)%nat.
Proof. unfold octs. induction gs as [|g gs IH]; [done|]. cbn [map concat length app]. lia. Qed.

Lemma octs_app a b : octs (a ++ b) = octs a ++ octs b.
Proof. unfold octs. by rewrite map_app, concat_app. Qed.

Lemma octs_zero n : octs (replicate n 0) = replicate (2 * n) x00.
Proof.
  induction n as [|n IH]; [done|]. replace (2 * S n)%nat with (S (S (2 * n))) by lia.
  cbn [replicate]. rewrite <- IH. done.
Qed.

Lemma group_of_octets a b :
  0 <= bz a * 256 + bz b < 65536 /\ zb ((bz a * 256 + bz b) / 256) = a /\ zb (bz a * 256 + bz b) = b.
Proof.
  pose proof (bz_range a). pose proof (bz_range b). split_and!; [lia|lia|..].
  - rewrite Z.div_add_l, (Z.div_small (bz b)), Z.add_0_r by lia. apply zb_bz.
  - apply bz_inj. rewrite bz_zb, Z.add_comm, Z.mod_add, Z.mod_small by lia. done.
Qed.

Lemma groups_of_facts n o : length o = (2 * n)%nat ->
  groups_ok (groups_of o) /\ octs (groups_of o) = o /\ length (groups_of o) = n.
Proof.
  revert o. induction n as [|n IH]; intros o L.
  - destruct o; [|simpl in L; lia]. split_and!; [constructor|done|done].
  - destruct o as [|a [|b o]]; [simpl in L; lia|simpl in L; lia|].
    destruct (IH o) as (G & O & N); [simpl in L; lia|].
    destruct (group_of_octets a b) as (R & A & B). cbn [groups_of].
    split_and!; [by constructor| |simpl; by rewrite N].
    unfold octs in *. cbn [map concat]. by rewrite O, A, B.
Qed.

Lemma appendHex_cons g : 0 <= g < 65536 -> exists d s, appendHex g = lower_hex d :: s /\ 0 <= d < 16.
Proof.
  intros H. unfold appendHex.
  assert (0 <= g / 4096 < 16) by (split; [apply Z.div_pos|apply Z.div_lt_upper_bound]; lia).
  pose proof (Z.mod_pos_bound (g / 256) 16 ltac:(lia)). pose proof (Z.mod_pos_bound (g / 16) 16 ltac:(lia)).
  pose proof (Z.mod_pos_bound g 16 ltac:(lia)).
  destruct (4096 <=? g), (256 <=? g), (16 <=? g); cbn [app]; eauto.
Qed.

Lemma lower_hex_plain d : 0 <= d < 16 ->
  (lower_hex d =b ":"%byte) = false /\ (lower_hex d =b "%"%byte) = false /\ (lower_hex d =b "."%byte) = false.
Proof.
  intros H. pose proof (hex_digit_lower d H) as E.
  split_and!; apply not_true_is_false; intros Q%Byte.byte_dec_bl; rewrite Q in E; discriminate.
Qed.

(** One turn of the parsing loop on a printed group, by what stands behind it. *)
Section Turn.
Context (k : nat) (ip : bytes) (e : option nat) (g : Z) (Hg : 0 <= g < 65536).
Let ip' := ip ++ [zb (g / 256); zb g].

Lemma turn_end : v6_groups (S k) ip e (appendHex g) = Some (ip', e, []).
Proof.
  destruct (hex_group_print g [] Hg I) as [n E]. rewrite app_nil_r in E. cbn [v6_groups]. by rewrite E.
Qed.

Lemma turn_colon c s : (c =b ":"%byte) = false ->
  v6_groups (S k) ip e (appendHex g ++ ":"%byte :: c :: s) = v6_groups k ip' e (c :: s).
Proof.
  intros Hc. destruct (hex_group_print g (":"%byte :: c :: s) Hg eq_refl) as [n E].
  cbn [v6_groups]. rewrite E. cbn [negb]. by rewrite Hc.
Qed.

Lemma turn_ellipsis s :
  v6_groups (S k) ip None (appendHex g ++ $"::" ++ s) =
  match s with [] => Some (ip', Some (length ip'), []) | _ => v6_groups k ip' (Some (length ip')) s end.
Proof.
  destruct (hex_group_print g ($"::" ++ s) Hg eq_refl) as [n E].
  cbn [v6_groups]. rewrite E. by destruct s.
Qed.
End Turn.

Lemma hexes_cons g g' gs : hexes (g :: g' :: gs) = appendHex g ++ ":"%byte :: hexes (g' :: gs).
Proof. reflexivity. Qed.

Lemma hexes_first g gs : 0 <= g < 65536 ->
  exists c s, hexes (g :: gs) = c :: s /\ (c =b ":"%byte) = false.
Proof.
  intros Hg. destruct (appendHex_cons g Hg) as (d & s & E & Hd).
  destruct gs as [|g' gs]; [|rewrite hexes_cons]; [unfold hexes; cbn [map Join]|]; rewrite E;
    do 2 eexists; (split; [reflexivity|]); by apply lower_hex_plain.
Qed.

Lemma groups_print k ip e gs : gs <> [] -> groups_ok gs -> (length gs <= k)%nat ->
  v6_groups k ip e (hexes gs) = Some (ip ++ octs gs, e, []).
Proof.
  revert k ip. induction gs as [|g gs IH]; intros k ip N G L; [done|]. apply Forall_cons in G as [Hg G].
  destruct k as [|k]; [simpl in L; lia|]. destruct gs as [|g' gs].
  - unfold hexes, octs. cbn [map Join concat]. by rewrite turn_end, app_nil_r.
  - rewrite hexes_cons. pose proof G as [Hg' _]%Forall_cons.
    destruct (hexes_first g' gs Hg') as (c & s & E & Hc). rewrite E, turn_colon, <- E, IH by (simpl in *; (done || lia)).
    unfold octs. cbn [map concat]. by rewrite <- app_assoc.
Qed.

Lemma groups_ellipsis k ip gs post : gs <> [] -> groups_ok gs -> groups_ok post ->
  (length gs + length post <= k)%nat ->
  v6_groups k ip None (hexes gs ++ $"::" ++ hexes post) =
  Some (ip ++ octs gs ++ octs post, Some (length (ip ++ octs gs)), []).
Proof.
  intros N G P. revert k ip N. induction gs as [|g gs IH]; intros k ip N L; [done|].
  apply Forall_cons in G as [Hg G]. destruct k as [|k]; [simpl in L; lia|]. destruct gs as [|g' gs].
  - change (hexes [g]) with (appendHex g). rewrite turn_ellipsis by done.
    assert (octs [g] = [zb (g / 256); zb g]) as -> by reflexivity. destruct post as [|p ps]; [by rewrite app_nil_r|].
    pose proof P as [Hp _]%Forall_cons. destruct (hexes_first p ps Hp) as (c & s & E & _). rewrite E.
    rewrite <- E, groups_print by (simpl in *; (done || lia)). by rewrite <- app_assoc.
  - rewrite hexes_cons. pose proof G as [Hg' _]%Forall_cons.
    destruct (hexes_first g' gs Hg') as (c & s & E & Hc). rewrite <- app_assoc. cbn [app].
    rewrite E. cbn [app]. rewrite turn_colon by done. rewrite (app_comm_cons s), <- E.
    rewrite (IH G k) by (simpl in *; (done || lia)).
    change (octs (g :: g' :: gs)) with ([zb (g / 256); zb g] ++ octs (g' :: gs)).
    by rewrite <- !app_assoc.
Qed.

(** *** The run of zero groups *)

Lemma zeros_take gs : take (zeros gs) gs = replicate (zeros gs) 0 /\ (zeros gs <= length gs)%nat.
Proof.
  induction gs as [|g gs [IH L]]; cbn [zeros]; [split; [done|simpl; lia]|].
  destruct (Z.eqb_spec g 0) as [->|]; cbn [take replicate length]; [|split; [done|lia]].
  split; [by rewrite IH|lia].
Qed.

(** A run the printer elides: at least two groups, all of them zero. *)
Definition is_run (gs : list Z) (r : nat * nat) : Prop :=
  (r.1 + 2 <= r.2 <= length gs)%nat /\ take (r.2 - r.1) (drop r.1 gs) = replicate (r.2 - r.1) 0.

Lemma longest_run_spec gs : longest_run gs = (255%nat, 255%nat) \/ is_run gs (longest_run gs).
Proof.
  unfold longest_run. set (f := fun (best : nat * nat) i => _).
  assert (forall l best, best = (255%nat, 255%nat) \/ is_run gs best ->
    foldl f best l = (255%nat, 255%nat) \/ is_run gs (foldl f best l)) as G; [|by apply G; left].
  induction l as [|i l IH]; intros best B; [done|]. cbn [foldl]. apply IH. unfold f.
  destruct (_ && _) eqn:E; [|done]. right. btrue.
  destruct (zeros_take (drop i gs)) as [T L]. rewrite length_drop in L.
  unfold is_run. cbn [fst snd]. replace (i + zeros (drop i gs) - i)%nat with (zeros (drop i gs)) by lia.
  split; [lia|done].
Qed.

Lemma run_split gs zs ze : is_run gs (zs, ze) ->
  gs = take zs gs ++ replicate (ze - zs) 0 ++ drop ze gs.
Proof.
  intros [B T]. cbn [fst snd] in *. rewrite <- T. rewrite <- (take_drop zs gs) at 1. f_equal.
  rewrite <- (take_drop (ze - zs) (drop zs gs)) at 1. rewrite drop_drop. do 2 f_equal. lia.
Qed.

Lemma string6_from_plain gs : length gs = 8%nat -> string6_from 8 0 255 255 gs = hexes gs.
Proof.
  destruct gs as [|g0 [|g1 [|g2 [|g3 [|g4 [|g5 [|g6 [|g7 [|]]]]]]]]]; intros L; simpl in L; try lia.
  unfold hexes. cbn -[appendHex]. by rewrite app_nil_r.
Qed.

Lemma string6_from_run gs zs ze : length gs = 8%nat -> (zs < ze <= 8)%nat ->
  string6_from 8 0 zs ze gs = hexes (take zs gs) ++ $"::" ++ hexes (drop ze gs).
Proof.
  destruct gs as [|g0 [|g1 [|g2 [|g3 [|g4 [|g5 [|g6 [|g7 [|]]]]]]]]]; intros L H; simpl in L; try lia.
  unfold hexes. do 9 (destruct zs as [|zs]; [destruct ze as [|[|[|[|[|[|[|[|[|ze]]]]]]]]]; try lia;
    cbn -[appendHex]; rewrite ?app_nil_r; repeat (rewrite <- app_assoc; cbn [app]); reflexivity|]). lia.
Qed.

(** *** Addresses *)

(** A value netip can build: the octet count of its family, and no zone but one behind an IPv6
    address. *)
Definition valid_addr (a : Addr) : Prop :=
  match a with AddrInvalid => False | Addr4 o => length o = 4%nat | Addr6 o _ => length o = 16%nat end.

Lemma hexes_plain gs c : groups_ok gs -> c = "%"%byte \/ c = "."%byte -> no_byte c (hexes gs) = true.
Proof.
  intros G C. assert (forall g, 0 <= g < 65536 -> no_byte c (appendHex g) = true) as A.
  { intros g Hg. unfold appendHex, no_byte.
    assert (0 <= g / 4096 < 16) by (split; [apply Z.div_pos|apply Z.div_lt_upper_bound]; lia).
    pose proof (Z.mod_pos_bound (g / 256) 16 ltac:(lia)). pose proof (Z.mod_pos_bound (g / 16) 16 ltac:(lia)).
    pose proof (Z.mod_pos_bound g 16 ltac:(lia)).
    assert (forall d, 0 <= d < 16 -> negb (lower_hex d =b c) = true) as D.
    { intros d Hd. destruct (lower_hex_plain d Hd) as (_ & P & Q). destruct C as [->| ->]; [by rewrite P|by rewrite Q]. }
    destruct (4096 <=? g), (256 <=? g), (16 <=? g); cbn [app forallb]; by rewrite ?D by done. }
  induction gs as [|g [|g' gs] IH]; [done|apply Forall_cons in G as [Hg _]; by apply A|].
  apply Forall_cons in G as [Hg G]. rewrite hexes_cons. unfold no_byte in *.
  rewrite forallb_app, (A g Hg). cbn [forallb]. rewrite IH by done. by destruct C as [->| ->].
Qed.

Lemma family_hexes g gs rest : groups_ok (g :: gs) ->
  addr_family (hexes (g :: gs) ++ ":"%byte :: rest) = Some false.
Proof.
  intros G.
  assert (forall s, no_byte "%"%byte s = true -> no_byte "."%byte s = true ->
    addr_family (s ++ ":"%byte :: rest) = Some false) as F.
  { intros s. induction s as [|c s IH]; [done|]. intros H1 H2. unfold no_byte in *. cbn [forallb] in *.
    apply andb_true_iff in H1 as [P1%negb_true_iff Q1]. apply andb_true_iff in H2 as [P2%negb_true_iff Q2].
    cbn [app addr_family]. rewrite P1, P2. destruct (c =b ":"%byte); [done|by apply IH]. }
  apply F; apply hexes_plain; auto.
Qed.

(** The text of an IPv6 address without its zone, as the three shapes a parser meets. *)
Definition body6 (o : bytes) : bytes :=
  let gs := groups_of o in let '(zs, ze) := longest_run gs in string6_from 8 0 zs ze gs.

Lemma string6_body o zone : string6 o zone = body6 o ++ zone_suffix zone.
Proof. unfold string6, body6. by destruct (longest_run (groups_of o)). Qed.

Lemma v6_body_plain c s ip e : (c =b ":"%byte) = false ->
  v6_groups 8 [] None (c :: s) = Some (ip, e, []) -> v6_body (c :: s) = v6_expand ip e.
Proof. intros Hc P. unfold v6_body. rewrite Hc. destruct s; cbn [andb]; by rewrite P. Qed.

Lemma parse_body6 o : length o = 16%nat ->
  v6_body (body6 o) = Some o /\ no_byte "%"%byte (body6 o) = true /\
  forall rest, addr_family (body6 o ++ rest) = Some false.
Proof.
  intros L. destruct (groups_of_facts 8 o L) as (G & O & N). unfold body6. set (gs := groups_of o) in *.
  destruct (longest_run_spec gs) as [E|R].
  - rewrite E, string6_from_plain by done. destruct gs as [|g [|g' gs']]; [done|done|].
    assert (0 <= g < 65536) as Hg by (by apply Forall_cons in G as [? _]). destruct (hexes_first g (g' :: gs') Hg) as (c & s & E' & Hc).
    split_and!; [|apply hexes_plain; auto|].
    + assert (v6_groups 8 [] None (hexes (g :: g' :: gs')) = Some (o, None, [])) as P.
      { rewrite groups_print, O by (done || lia). done. }
      rewrite E' in *. rewrite (v6_body_plain c s o None) by done. unfold v6_expand. by rewrite L.
    + intros rest. rewrite hexes_cons, <- app_assoc. cbn [app].
      change (appendHex g) with (hexes [g]). apply family_hexes. by constructor.
  - destruct (longest_run gs) as [zs ze]. pose proof (run_split gs zs ze R) as S. destruct R as [B _]. cbn [fst snd] in B.
    rewrite string6_from_run by (done || lia).
    assert (groups_ok (take zs gs)) as Gp by by apply Forall_take.
    assert (groups_ok (drop ze gs)) as Gs by by apply Forall_drop.
    set (pre := take zs gs) in *. set (post := drop ze gs) in *.
    assert (length pre = zs) as Lp by (unfold pre; rewrite length_take; lia).
    assert (length post = 8 - ze)%nat as Ls by (unfold post; rewrite length_drop; lia).
    assert (octs pre ++ replicate (2 * (ze - zs)) x00 ++ octs post = o) as Ho.
    { rewrite <- O, S at 1. by rewrite !octs_app, octs_zero. }
    split_and!.
    + rewrite <- Ho. clear Ho S. destruct pre as [|p pre].
      * cbn [hexes map Join app length] in *. destruct post as [|q post].
        { cbn [hexes map Join app]. unfold v6_body. cbn. f_equal. replace (ze - zs)%nat with 8%nat by (simpl in Ls; lia). done. }
        assert (0 <= q < 65536) as Hq by (by apply Forall_cons in Gs as [? _]).
        destruct (hexes_first q post Hq) as (c & s & E' & Hc). rewrite E'. unfold v6_body. cbn [byte_eqb_refl andb app].
        change (":"%byte =b ":"%byte) with true. cbn [andb]. rewrite <- E', groups_print by (done || simpl in *; lia).
        cbn [app]. unfold v6_expand. rewrite octs_length. rewrite (proj2 (Nat.ltb_lt _ _)) by lia.
        cbn [take drop app octs concat map]. do 3 f_equal. lia.
      * assert (0 <= p < 65536) as Hp by (by apply Forall_cons in Gp as [? _]).
        destruct (hexes_first p pre Hp) as (c & s & E' & Hc).
        assert (length (octs (p :: pre)) = 2 * zs)%nat as Lo by (by rewrite octs_length, Lp).
        pose proof (groups_ellipsis 8 [] (p :: pre) post ltac:(done) Gp Gs ltac:(lia)) as P.
        rewrite E' in P |- *. cbn [app] in P |- *. rewrite (v6_body_plain _ _ _ _ Hc P).
        unfold v6_expand. rewrite length_app, !octs_length in *.
        rewrite (proj2 (Nat.ltb_lt _ _)), take_app_length', drop_app_length' by (rewrite ?octs_length; lia).
        do 4 f_equal. lia.
    + pose proof (hexes_plain pre "%"%byte Gp (or_introl eq_refl)) as N1.
      pose proof (hexes_plain post "%"%byte Gs (or_introl eq_refl)) as N2.
      unfold no_byte in *. rewrite !forallb_app, N1, N2. done.
    + intros rest. rewrite <- !app_assoc. destruct pre as [|p pre]; [done|]. by apply family_hexes.
Qed.

(** A zone netip can carry with an address: none, or a text behind "%". *)
Lemma parse_zone body o zone : v6_body body = Some o -> no_byte "%"%byte body = true ->
  parseIPv6 (body ++ zone_suffix zone) = Some (Addr6 o zone).
Proof.
  intros P N. unfold parseIPv6, zone_suffix. destruct (beq_spec zone []) as [->|Z].
  - rewrite app_nil_r, Cut_no by done. cbn [andb]. by rewrite P.
  - rewrite Cut_app by done. cbn [andb]. destruct (beq_spec zone []); [done|]. by rewrite P.
Qed.

Lemma no_percent_string4 o : no_byte "%"%byte (string4 o) = true.
Proof.
  assert (forall c, no_byte "%"%byte (FormatUint (bz c)) = true) as F by by intros [].
  destruct o as [|c o]; [done|]. rewrite string4_dotted. unfold no_byte in *. rewrite forallb_app, F. cbn [andb].
  unfold dotted. induction o as [|d o IH]; [done|]. cbn [map concat]. by rewrite forallb_app; cbn [forallb]; rewrite F, IH.
Qed.

Lemma parse_mapped o : length o = 4%nat -> v6_body ($"::ffff:" ++ string4 o) = Some (mapped_prefix ++ o).
Proof.
  intros L. unfold v6_body. cbn [app]. change (":"%byte =b ":"%byte) with true. cbn [andb].
  pose proof (parse_string4 o L) as P. destruct o as [|c o]; [done|]. rewrite string4_dotted in *.
  destruct o as [|d o]; [done|]. cbn [dotted map concat] in *. fold (dotted o) in *.
  destruct (hex_octet c) as (n & acc & E). 
  assert (exists c' s', FormatUint (bz c) = c' :: s' /\ (c' =b ":"%byte) = false) as (c' & s' & Ec & Hc')
    by (destruct c; do 2 eexists; split; reflexivity).
  assert (forall k s, v6_groups (S k) [] (Some 0%nat) ($"ffff:" ++ c' :: s) = v6_groups k [xff; xff] (Some 0%nat) (c' :: s)) as T.
  { intros k s. assert (hex_group ($"ffff:" ++ c' :: s) 0 0 = Some (4%nat, 65535, ":"%byte :: c' :: s)) as Q by reflexivity.
    cbn [v6_groups]. rewrite Q. cbv zeta. change (":"%byte =b "."%byte) with false. change (negb (":"%byte =b ":"%byte)) with false.
    cbv iota. rewrite Hc'. reflexivity. }
  pose proof (E (FormatUint (bz d) ++ dotted o)) as E1. rewrite Ec in *. cbn [app] in *.
  rewrite T. cbn [v6_groups]. rewrite E1. cbv zeta. change ("."%byte =b "."%byte) with true. cbv iota.
  rewrite P. cbn. simpl in L. destruct o as [|e [|f [|]]]; try (simpl in L; lia). reflexivity.
Qed.

Lemma HasPrefix_inv s p : HasPrefix s p = true -> exists t, s = p ++ t.
Proof.
  revert s. induction p as [|c p IH]; intros s; [by exists s|]. destruct s as [|d s]; [done|]. cbn.
  intros [Q H]%andb_true_iff. destruct (byte_eqb_spec c d) as [->|]; [|done].
  destruct (IH s H) as [t ->]. by exists t.
Qed.

(** Every address netip can build parses back from its text. *)
Lemma ParseAddr_String a : valid_addr a -> ParseAddr (Addr_String a) = Some a.
Proof.
  destruct a as [|o|o zone]; cbn [valid_addr]; intros L; [done| |]; unfold ParseAddr.
  - pose proof (parse_string4 o L) as P. cbn [Addr_String].
    assert (addr_family (string4 o) = Some true) as ->; [|by rewrite P].
    destruct o as [|c [|d o]]; [done|simpl in L; lia|]. rewrite string4_dotted, family_octet. done.
  - cbn [Addr_String Is4In6]. destruct (HasPrefix o mapped_prefix) eqn:E.
    + assert (o = mapped_prefix ++ drop 12 o) as Ho.
      { apply HasPrefix_inv in E as [t ->]. done. }
      assert (length (drop 12 o) = 4%nat) as L4 by (rewrite length_drop; lia).
      pose proof (parse_mapped _ L4) as P. rewrite <- Ho in P.
      change (addr_family ($"::ffff:" ++ string4 (drop 12 o) ++ zone_suffix zone)) with (Some false). cbv iota.
      rewrite app_assoc. apply parse_zone; [done|]. unfold no_byte. rewrite forallb_app. apply no_percent_string4.
    + destruct (parse_body6 o L) as (P & N & F). rewrite string6_body, F. by apply parse_zone.
Qed.

(** Two valid addresses with the same text are the same address. *)
Lemma Addr_String_inj a b : valid_addr a -> valid_addr b -> Addr_String a = Addr_String b -> a = b.
Proof. intros A B E. apply ParseAddr_String in A, B. congruence. Qed.

(** *** Host and port *)

Lemma CutLast_app s c t : no_byte c t = true -> CutLast (s ++ c :: t) c = Some (s, t).
Proof.
  intros H. assert (CutLast t c = None) as N.
  { clear s. induction t as [|d t IH]; [done|]. unfold no_byte in *. cbn [forallb] in H.
    apply andb_true_iff in H as [H1%negb_true_iff H2]. cbn [CutLast]. by rewrite IH, H1. }
  induction s as [|d s IH]; cbn [CutLast app]; [by rewrite N, byte_eqb_refl|by rewrite IH].
Qed.

Lemma mem_byte_no c s : mem_byte c s = negb (no_byte c s).
Proof.
  unfold mem_byte, no_byte. induction s as [|d s IH]; [done|]. cbn [existsb forallb]. rewrite IH.
  rewrite !byte_eqb_bz, Z.eqb_sym. by destruct (bz d =? bz c).
Qed.

(** A text without the bytes that delimit hosts. *)
Definition no_brackets (s : bytes) : Prop := no_byte "["%byte s = true /\ no_byte "]"%byte s = true.

Lemma SplitHostPort_JoinHostPort host port : no_brackets host -> no_brackets port ->
  no_byte ":"%byte port = true -> SplitHostPort (JoinHostPort host port) = Some (host, port).
Proof.
  intros [H1 H2] [P1 P2] P. unfold JoinHostPort. destruct (mem_byte ":"%byte host) eqn:E.
  - assert (CutLast ($"[" ++ host ++ $"]:" ++ port) ":"%byte = Some ($"[" ++ host ++ $"]", port)) as C.
    { replace ($"[" ++ host ++ $"]:" ++ port) with (($"[" ++ host ++ $"]") ++ ":"%byte :: port)
        by (cbn [app]; by rewrite <- app_assoc). by apply CutLast_app. }
    unfold SplitHostPort. rewrite C. cbn [app]. change ("["%byte =b "["%byte) with true. cbv iota.
    rewrite Cut_app by done. cbn [negb length]. rewrite Nat.eqb_refl. cbn [negb].
    rewrite !mem_byte_no. unfold no_byte in *. rewrite forallb_app, H1. cbn [forallb]. rewrite P1, P2. done.
  - assert (CutLast (host ++ $":" ++ port) ":"%byte = Some (host, port)) as C by by apply CutLast_app.
    unfold SplitHostPort. rewrite C. rewrite !mem_byte_no in *. apply negb_false_iff in E.
    assert (forall c, c = "["%byte \/ c = "]"%byte -> no_byte c (host ++ $":" ++ port) = true) as N.
    { intros c Hc. unfold no_byte in *. rewrite forallb_app. cbn [app forallb].
      destruct Hc as [->| ->]; by rewrite ?H1, ?P1, ?H2, ?P2. }
    rewrite !N by auto. rewrite E. destruct (host ++ $":" ++ port) as [|c rest] eqn:Q; [by destruct host|].
    assert ((c =b "["%byte) = false) as ->; [|done].
    pose proof (N "["%byte (or_introl eq_refl)) as F. unfold no_byte in F. cbn [forallb] in F.
    by apply andb_true_iff in F as [F%negb_true_iff _].
Qed.
