(* ===== verification/Connections.v ===== *)
(** * smtpserver: the connection registry and the server's lifecycle

    connections.go, and from cmd_server.go and server.go the goroutines around it: the accept loop
    of [Serve], the goroutine that serves one connection, and [Shutdown]. The registry's operations
    are functions on [connectionRegistry]; [step] interleaves the goroutines. One step is what a
    goroutine does between two points where another can run: a critical section of the registry's
    mutex, an operation on a channel or a wait group, the closing of a transport. A goroutine's
    position is its program counter ([serve_pc], [handler_pc], [shutdown_pc]); what a handler does
    before its deferred calls is the subject of ServerSession and is one step here, taken whenever
    the session ends.

    Connections are numbered in the order of [Accept], which stands for the identity of the
    [net.Conn]; the transport's closing and the cancellation of the connection's context are sets
    of those numbers. *)
From Stdlib Require Import ZArith Lia Bool.
From stdpp Require Import base list gmap strings.
From S2P Require Import Prelude GoStrings Wire Reply Path NetAddr.

(** ** The source of a connection *)

Inductive source_kind : Type :=
| connectionSourceUnknown | connectionSourceIP | connectionSourceHostPort | connectionSourceAddr.

#[global] Instance source_kind_eq_dec : EqDecision source_kind.
Proof. solve_decision. Defined.
#[global] Instance source_kind_countable : Countable source_kind.
Proof.
  refine (inj_countable'
    (fun k => match k with connectionSourceUnknown => 0 | connectionSourceIP => 1
                         | connectionSourceHostPort => 2 | connectionSourceAddr => 3 end)
    (fun n => match n with 0 => connectionSourceUnknown | 1 => connectionSourceIP
                         | 2 => connectionSourceHostPort | _ => connectionSourceAddr end) _).
  by intros [].
Defined.

Record connectionSource : Type := { kind : source_kind; network : bytes; value : bytes }.

#[global] Instance connectionSource_eq_dec : EqDecision connectionSource.
Proof. solve_decision. Defined.
#[global] Instance connectionSource_countable : Countable connectionSource.
Proof.
  refine (inj_countable' (fun s => (kind s, network s, value s))
    (fun '(k, n, v) => {| kind := k; network := n; value := v |}) _).
  by intros [].
Defined.

Definition unknownConnectionSource : connectionSource :=
  {| kind := connectionSourceUnknown; network := []; value := [] |}.

Definition canonicalIPConnectionSource (address : Addr) : connectionSource :=
  let address := Unmap address in
  if negb (IsValid address) then unknownConnectionSource
  else {| kind := connectionSourceIP; network := []; value := Addr_String address |}.

Definition connectionSourceForIP (ip zone : bytes) : connectionSource :=
  match AddrFromSlice ip with
  | None => unknownConnectionSource
  | Some address =>
      let address := Unmap address in
      let address := if negb (beq zone []) && Is6 address then WithZone address zone else address in
      canonicalIPConnectionSource address
  end.

(** [None] is the nil address. *)
Definition connectionSourceForAddr (addr : option net_addr) : connectionSource :=
  match addr with
  | None => unknownConnectionSource
  | Some (TCPAddr ip _ zone) | Some (UDPAddr ip _ zone) | Some (IPAddr ip zone) =>
      connectionSourceForIP ip zone
  | Some (OtherAddr net address) =>
      if beq net [] || beq address [] then unknownConnectionSource
      else match SplitHostPort address with
           | Some (host, _) =>
               if beq host [] then unknownConnectionSource
               else match ParseAddr host with
                    | Some ip => canonicalIPConnectionSource ip
                    | None => {| kind := connectionSourceHostPort; network := net; value := host |}
                    end
           | None => {| kind := connectionSourceAddr; network := net; value := address |}
           end
  end.

(** ** The registry *)

(** The connection is the key of [active]; [cancel] cancels the context of that connection. *)
Record activeConnection : Type := { ac_conn : nat; ac_cancel : nat; ac_source : connectionSource }.

Record connectionRegistry : Type := {
  accepting : bool;
  max : Z;
  maxSource : Z;
  active : gmap nat activeConnection;
  bySource : gmap connectionSource Z;
  wait : Z
}.

Definition newConnectionRegistry (maximum maximumPerSource : Z) : connectionRegistry :=
  {| accepting := true; max := maximum; maxSource := maximumPerSource;
     active := ∅; bySource := ∅; wait := 0 |}.

(** [r.bySource[source]]: a missing key reads as zero. *)
Definition source_count (r : connectionRegistry) (s : connectionSource) : Z := default 0 (bySource r !! s).

Definition register (r : connectionRegistry) (conn cancel : nat) (source : connectionSource) :
    connectionRegistry * bool :=
  if negb (accepting r) || ((0 <? max r) && (max r <=? Z.of_nat (size (active r))))
     || (maxSource r <=? source_count r source) then (r, false)
  else if bool_decide (is_Some (active r !! conn)) then (r, false)
  else ({| accepting := accepting r; max := max r; maxSource := maxSource r;
           active := <[conn := {| ac_conn := conn; ac_cancel := cancel; ac_source := source |}]> (active r);
           bySource := <[source := source_count r source + 1]> (bySource r);
           wait := wait r + 1 |}, true).

(** [unregister] up to its unlock; the flag says whether [wait.Done] is still to come. *)
Definition unregister (r : connectionRegistry) (conn : nat) : connectionRegistry * bool :=
  match active r !! conn with
  | None => (r, false)
  | Some connection =>
      let remaining := source_count r (ac_source connection) - 1 in
      ({| accepting := accepting r; max := max r; maxSource := maxSource r;
          active := delete conn (active r);
          bySource := if remaining =? 0 then delete (ac_source connection) (bySource r)
                      else <[ac_source connection := remaining]> (bySource r);
          wait := wait r |}, true)
  end.

(** [wait.Done()] *)
Definition wait_Done (r : connectionRegistry) : connectionRegistry :=
  {| accepting := accepting r; max := max r; maxSource := maxSource r; active := active r;
     bySource := bySource r; wait := wait r - 1 |}.

(** The critical section of [shutdown]: the registry closes; the contexts to cancel are those of the
    active connections, in the order the map yields them. *)
Definition stop_accepting (r : connectionRegistry) : connectionRegistry :=
  {| accepting := false; max := max r; maxSource := maxSource r; active := active r;
     bySource := bySource r; wait := wait r |}.

Definition active_conns (r : connectionRegistry) : list nat := (map_to_list (active r)).*1.

(** ** Goroutines *)

Inductive serve_result : Type := ServeNil | ServeContext | ServeAccept.

(** The accept loop of [Serve]: not called yet; in [Accept]; with a connection to register; before
    the [go] statement; the three steps of a refusal; returned. *)
Inductive serve_pc : Type :=
| SIdle
| SAccept
| SRegister (c : nat) (source : connectionSource)
| SSpawn (c : nat)
| SCancel (c : nat)
| SLimit (c : nat)
| SClose (c : nat)
| SReturned (r : serve_result).

(** [serveConnection]: the session, then the deferred [raw.Close], [unregister] with its
    [wait.Done], and [cancel]. *)
Inductive handler_pc : Type := HRun | HClose | HUnregister | HDone | HCancel | HExit.

#[global] Instance handler_pc_eq_dec : EqDecision handler_pc.
Proof. solve_decision. Defined.

Inductive shutdown_err : Type := ListenerError | ContextError.

(** [Shutdown] under its [sync.Once]: not called; before closing the listener; before the critical
    section of [connectionRegistry.shutdown]; cancelling the snapshot; in the [select]; at
    [closeAll]; closing its snapshot; returned. *)
Inductive shutdown_pc : Type :=
| DIdle
| DListener
| DLock
| DCancel (todo : list nat)
| DWait
| DSnapshot
| DCloseAll (todo : list nat)
| DReturned (err : option shutdown_err).

Record world : Type := {
  registry : connectionRegistry;
  serve : serve_pc;
  serve_cancelled : bool;            (* the context of Serve *)
  listening : bool;
  handlers : gmap nat handler_pc;
  cancelled : gset nat;
  closed : gset nat;
  written : gmap nat bytes;          (* what the accept loop wrote to a refused connection *)
  shutdown : shutdown_pc;
  shutdownErr : option shutdown_err;
  accepted : nat
}.

Definition newWorld (maximum maximumPerSource : Z) : world :=
  {| registry := newConnectionRegistry maximum maximumPerSource; serve := SIdle; serve_cancelled := false;
     listening := true; handlers := ∅; cancelled := ∅; closed := ∅; written := ∅; shutdown := DIdle;
     shutdownErr := None; accepted := 0 |}.

(** [beginServe]: whether this call may serve, and the flag after it. *)
Definition beginServe (served : bool) : bool * bool := (true, negb served).

(** [writeConnectionLimit] *)
Definition connectionLimit : bytes :=
  match EncodeReply {| Code := 421; Lines := []; Text := $"Too many connections" |}
          {| Enhanced := Some {| Class := 4; Subject := 3; Detail := 2; Raw := [] |};
             Context := ReplyContextCommand |} with
  | Ok reply => reply
  | Err _ => []
  end.

Section Updates.
Context (w : world).

Definition set_registry (r : connectionRegistry) : world :=
  {| registry := r; serve := serve w; serve_cancelled := serve_cancelled w; listening := listening w;
     handlers := handlers w; cancelled := cancelled w; closed := closed w; written := written w;
     shutdown := shutdown w; shutdownErr := shutdownErr w; accepted := accepted w |}.
Definition set_serve (p : serve_pc) : world :=
  {| registry := registry w; serve := p; serve_cancelled := serve_cancelled w; listening := listening w;
     handlers := handlers w; cancelled := cancelled w; closed := closed w; written := written w;
     shutdown := shutdown w; shutdownErr := shutdownErr w; accepted := accepted w |}.
Definition set_serve_cancelled : world :=
  {| registry := registry w; serve := serve w; serve_cancelled := true; listening := listening w;
     handlers := handlers w; cancelled := cancelled w; closed := closed w; written := written w;
     shutdown := shutdown w; shutdownErr := shutdownErr w; accepted := accepted w |}.
Definition close_listener : world :=
  {| registry := registry w; serve := serve w; serve_cancelled := serve_cancelled w; listening := false;
     handlers := handlers w; cancelled := cancelled w; closed := closed w; written := written w;
     shutdown := shutdown w; shutdownErr := shutdownErr w; accepted := accepted w |}.
Definition set_handler (c : nat) (p : handler_pc) : world :=
  {| registry := registry w; serve := serve w; serve_cancelled := serve_cancelled w; listening := listening w;
     handlers := <[c := p]> (handlers w); cancelled := cancelled w; closed := closed w; written := written w;
     shutdown := shutdown w; shutdownErr := shutdownErr w; accepted := accepted w |}.
Definition cancel (c : nat) : world :=
  {| registry := registry w; serve := serve w; serve_cancelled := serve_cancelled w; listening := listening w;
     handlers := handlers w; cancelled := {[c]} ∪ cancelled w; closed := closed w; written := written w;
     shutdown := shutdown w; shutdownErr := shutdownErr w; accepted := accepted w |}.
Definition close_conn (c : nat) : world :=
  {| registry := registry w; serve := serve w; serve_cancelled := serve_cancelled w; listening := listening w;
     handlers := handlers w; cancelled := cancelled w; closed := {[c]} ∪ closed w; written := written w;
     shutdown := shutdown w; shutdownErr := shutdownErr w; accepted := accepted w |}.
Definition write (c : nat) (b : bytes) : world :=
  {| registry := registry w; serve := serve w; serve_cancelled := serve_cancelled w; listening := listening w;
     handlers := handlers w; cancelled := cancelled w; closed := closed w; written := <[c := b]> (written w);
     shutdown := shutdown w; shutdownErr := shutdownErr w; accepted := accepted w |}.
Definition set_shutdown (p : shutdown_pc) : world :=
  {| registry := registry w; serve := serve w; serve_cancelled := serve_cancelled w; listening := listening w;
     handlers := handlers w; cancelled := cancelled w; closed := closed w; written := written w;
     shutdown := p; shutdownErr := shutdownErr w; accepted := accepted w |}.
Definition set_shutdownErr (e : option shutdown_err) : world :=
  {| registry := registry w; serve := serve w; serve_cancelled := serve_cancelled w; listening := listening w;
     handlers := handlers w; cancelled := cancelled w; closed := closed w; written := written w;
     shutdown := shutdown w; shutdownErr := e; accepted := accepted w |}.
Definition accept_one : world :=
  {| registry := registry w; serve := serve w; serve_cancelled := serve_cancelled w; listening := listening w;
     handlers := handlers w; cancelled := cancelled w; closed := closed w; written := written w;
     shutdown := shutdown w; shutdownErr := shutdownErr w; accepted := S (accepted w) |}.
End Updates.

(** ** Steps *)

(** The accept loop. A write to a refused connection may be cut short; its error is ignored. *)
Inductive serve_step (w : world) : world -> Prop :=
| serve_call : serve w = SIdle -> serve_step w (set_serve w SAccept)
| serve_accept addr : serve w = SAccept -> listening w = true ->
    serve_step w (set_serve (accept_one w) (SRegister (accepted w) (connectionSourceForAddr addr)))
| serve_closed : serve w = SAccept -> listening w = false ->
    serve_step w (set_serve w (SReturned (if serve_cancelled w then ServeContext else ServeNil)))
| serve_failed : serve w = SAccept ->
    serve_step w (set_serve w (SReturned (if serve_cancelled w then ServeContext else ServeAccept)))
| serve_register c source : serve w = SRegister c source ->
    serve_step w (let '(r, ok) := register (registry w) c c source in
                  set_serve (set_registry w r) (if ok then SSpawn c else SCancel c))
| serve_spawn c : serve w = SSpawn c -> serve_step w (set_serve (set_handler w c HRun) SAccept)
| serve_refuse c : serve w = SCancel c -> serve_step w (set_serve (cancel w c) (SLimit c))
| serve_limit c n : serve w = SLimit c -> serve_step w (set_serve (write w c (take n connectionLimit)) (SClose c))
| serve_close c : serve w = SClose c -> serve_step w (set_serve (close_conn w c) SAccept).

(** A connection's goroutine. *)
Inductive handler_step (w : world) (c : nat) : world -> Prop :=
| handler_end : handlers w !! c = Some HRun -> handler_step w c (set_handler w c HClose)
| handler_close : handlers w !! c = Some HClose -> handler_step w c (set_handler (close_conn w c) c HUnregister)
| handler_unregister : handlers w !! c = Some HUnregister ->
    handler_step w c (let '(r, owes) := unregister (registry w) c in
                      set_handler (set_registry w r) c (if owes then HDone else HCancel))
| handler_done : handlers w !! c = Some HDone ->
    handler_step w c (set_handler (set_registry w (wait_Done (registry w))) c HCancel)
| handler_cancel : handlers w !! c = Some HCancel -> handler_step w c (set_handler (cancel w c) c HExit).

(** [Shutdown]: its context may expire at any time while it waits. A Close of the listener that reports
    an error (other than net.ErrClosed) may have closed it or not. *)
Inductive shutdown_step (w : world) : world -> Prop :=
| shutdown_call : shutdown w = DIdle -> shutdown_step w (set_shutdown w DListener)
| shutdown_listener (failed still_open : bool) : shutdown w = DListener ->
    shutdown_step w (set_shutdown (set_shutdownErr (if failed && still_open then w else close_listener w)
                       (if failed then Some ListenerError else None)) DLock)
| shutdown_lock todo : shutdown w = DLock -> todo ≡ₚ active_conns (registry w) ->
    shutdown_step w (set_shutdown (set_registry w (stop_accepting (registry w))) (DCancel todo))
| shutdown_cancel c todo : shutdown w = DCancel (c :: todo) ->
    shutdown_step w (set_shutdown (cancel w c) (DCancel todo))
| shutdown_wait : shutdown w = DCancel [] -> shutdown_step w (set_shutdown w DWait)
| shutdown_done : shutdown w = DWait -> wait (registry w) = 0 ->
    shutdown_step w (set_shutdown w (DReturned (shutdownErr w)))
| shutdown_expired : shutdown w = DWait -> shutdown_step w (set_shutdown w DSnapshot)
| shutdown_snapshot todo : shutdown w = DSnapshot -> todo ≡ₚ active_conns (registry w) ->
    shutdown_step w (set_shutdown w (DCloseAll todo))
| shutdown_close c todo : shutdown w = DCloseAll (c :: todo) ->
    shutdown_step w (set_shutdown (close_conn w c) (DCloseAll todo))
| shutdown_return : shutdown w = DCloseAll [] ->
    shutdown_step w (set_shutdown w (DReturned (Some (default ContextError (shutdownErr w))))).

(** The goroutine of [Serve] that watches its context, and the context itself. A Close that does nothing
    is no step. *)
Inductive context_step (w : world) : world -> Prop :=
| context_cancelled : context_step w (set_serve_cancelled w)
| context_watch : serve_cancelled w = true -> serve w <> SIdle -> (forall r, serve w <> SReturned r) ->
    context_step w (close_listener w).

Inductive step (w : world) : world -> Prop :=
| step_serve w' : serve_step w w' -> step w w'
| step_handler c w' : handler_step w c w' -> step w w'
| step_shutdown w' : shutdown_step w w' -> step w w'
| step_context w' : context_step w w' -> step w w'.

Definition reachable (maximum maximumPerSource : Z) (w : world) : Prop :=
  rtc step (newWorld maximum maximumPerSource) w.

Example limit_reply : connectionLimit = $"421 4.3.2 Too many connections" ++ CRLF.
Proof. reflexivity. Qed.

#[local] Set Warnings "-clear-no-such-hyp".

(** ** Counting *)

Section Count.
Context {A : Type} (P : A -> Prop) {HP : forall a, Decision (P a)}.
Implicit Types m : gmap nat A.

Definition count m : nat := size (filter (fun p => P p.2) m).

Lemma count_empty : count ∅ = 0%nat.
Proof. unfold count. by rewrite map_filter_empty, map_size_empty. Qed.

Lemma count_insert m c a : m !! c = None ->
  count (<[c := a]> m) = (count m + if decide (P a) then 1 else 0)%nat.
Proof.
  intros H. unfold count. destruct (decide (P a)) as [D|D].
  - rewrite map_filter_insert_True by done. rewrite map_size_insert_None; [lia|].
    apply map_lookup_filter_None. by left.
  - rewrite map_filter_insert_not' by (done || (intros b Hb; congruence)). lia.
Qed.

Lemma count_delete m c a : m !! c = Some a ->
  (count (delete c m) + if decide (P a) then 1 else 0)%nat = count m.
Proof.
  intros H. rewrite <- (insert_delete_id m c a H) at 2. rewrite count_insert; [done|]. apply lookup_delete_eq.
Qed.

Lemma count_update m c a b : m !! c = Some a ->
  (count (<[c := b]> m) + if decide (P a) then 1 else 0)%nat = (count m + if decide (P b) then 1 else 0)%nat.
Proof.
  intros H. rewrite <- insert_delete_eq, count_insert by apply lookup_delete_eq.
  pose proof (count_delete m c a H). lia.
Qed.

Lemma count_size m : (count m <= size m)%nat.
Proof.
  unfold count. apply map_subseteq_size. by apply map_filter_subseteq.
Qed.
End Count.

Definition from_source (s : connectionSource) (a : activeConnection) : Prop := ac_source a = s.
#[global] Instance from_source_dec s a : Decision (from_source s a).
Proof. unfold from_source. apply _. Defined.

Definition per_source (s : connectionSource) (r : connectionRegistry) : nat := count (from_source s) (active r).

(** ** The registry's invariant *)

(** The counts are those of the active connections, a source without connections has no entry, and
    both limits hold. *)
Record registry_ok (r : connectionRegistry) : Prop := {
  ok_counts s : bySource r !! s =
    if decide (per_source s r = 0%nat) then None else Some (Z.of_nat (per_source s r));
  ok_max : 0 < max r -> Z.of_nat (size (active r)) <= max r;
  ok_source s : Z.of_nat (per_source s r) <= Z.max 0 (maxSource r);
  ok_keys c a : active r !! c = Some a -> ac_conn a = c /\ ac_cancel a = c
}.

Lemma source_count_ok r s : registry_ok r -> source_count r s = Z.of_nat (per_source s r).
Proof. intros [C _ _ _]. unfold source_count. rewrite C. case_decide as D; simpl; lia. Qed.

Lemma new_registry_ok mx ms : registry_ok (newConnectionRegistry mx ms).
Proof.
  split; unfold per_source; simpl; intros; rewrite ?count_empty, ?map_size_empty; try lia; try done.
Qed.

Lemma register_ok r c source : registry_ok r -> registry_ok (register r c c source).1.
Proof.
  intros K. unfold register. destruct (_ || _) eqn:E; [done|]. case_bool_decide as N; [done|]. cbn [fst].
  apply orb_false_iff in E as [E1 E2]. apply orb_false_iff in E1 as [_ E1].
  assert (active r !! c = None) as F by by destruct (active r !! c) eqn:?; [destruct N|].
  rewrite (source_count_ok r source K) in *.
  assert (forall s, per_source s {| accepting := accepting r; max := max r; maxSource := maxSource r;
      active := <[c := {| ac_conn := c; ac_cancel := c; ac_source := source |}]> (active r);
      bySource := <[source := Z.of_nat (per_source source r) + 1]> (bySource r); wait := wait r + 1 |} =
    (per_source s r + if decide (source = s) then 1 else 0)%nat) as P.
  { intros s. unfold per_source. cbn [active]. by rewrite count_insert. }
  destruct K as [C M S Ky]. split; cbn [bySource active max maxSource].
  - intros s. rewrite P. destruct (decide (source = s)) as [<-|Ne].
    + rewrite lookup_insert_eq, decide_False by lia. f_equal. lia.
    + rewrite lookup_insert_ne, C, Nat.add_0_r by done. done.
  - intros Hm. rewrite map_size_insert_None by done. destruct (0 <? max r) eqn:Q; simpl in E1; lia.
  - intros s. rewrite P. pose proof (S s). destruct (decide (source = s)) as [<-|Ne]; lia.
  - intros c' a [[<- <-]|[_ H]]%lookup_insert_Some; [done|by apply Ky].
Qed.

Lemma unregister_ok r c : registry_ok r -> registry_ok (unregister r c).1.
Proof.
  intros K. unfold unregister. destruct (active r !! c) as [a|] eqn:E; [|done]. cbn [fst].
  rewrite (source_count_ok r _ K). set (n := Z.of_nat _ - 1).
  set (r' := Build_connectionRegistry _ _ _ _ _ _).
  assert (forall s, (per_source s r' + if decide (ac_source a = s) then 1 else 0)%nat = per_source s r) as P.
  { intros s. by apply (count_delete (from_source s) (active r) c a). }
  destruct K as [C M S Ky]. split; cbn [r' bySource active max maxSource].
  - intros s. pose proof (P s) as Ps. destruct (decide (ac_source a = s)) as [<-|Ne].
    + destruct (Z.eqb_spec n 0) as [Z0|Z0]; unfold n in *.
      * rewrite lookup_delete_eq, decide_True by lia. done.
      * rewrite lookup_insert_eq, decide_False by lia. f_equal. lia.
    + replace (per_source s r') with (per_source s r) by lia. rewrite <- C.
      destruct (n =? 0); [by rewrite lookup_delete_ne|by rewrite lookup_insert_ne].
  - intros Hm. rewrite map_size_delete_Some by eauto. specialize (M Hm). lia.
  - intros s. pose proof (S s). pose proof (P s). lia.
  - intros c' a' [_ H]%lookup_delete_Some. by apply Ky.
Qed.

(** A successful registration was within both limits; a refused one leaves the registry alone. *)
Lemma register_true r c source r' : register r c c source = (r', true) ->
  active r !! c = None /\ accepting r = true /\ accepting r' = accepting r /\
  (max r', maxSource r') = (max r, maxSource r) /\
  active r' = <[c := {| ac_conn := c; ac_cancel := c; ac_source := source |}]> (active r) /\
  wait r' = wait r + 1.
Proof.
  unfold register. destruct (_ || _) eqn:E; [done|]. case_bool_decide as N; [done|]. intros [= <-].
  apply orb_false_iff in E as [[E _]%orb_false_iff _]. apply negb_false_iff in E.
  split_and!; try done. by destruct (active r !! c) eqn:?; [destruct N|].
Qed.

Lemma register_false r c source r' : register r c c source = (r', false) -> r' = r.
Proof. unfold register. destruct (_ || _); [by intros [= <-]|]. case_bool_decide; by intros [= <-]. Qed.

(** ** The world's invariant *)

(** Positions of a handler whose connection is still registered. *)
Definition held (p : handler_pc) : bool :=
  match p with HRun | HClose | HUnregister => true | _ => false end.

(** The connection the accept loop is working on. *)
Definition busy (p : serve_pc) : option nat :=
  match p with SRegister c _ | SSpawn c | SCancel c | SLimit c | SClose c => Some c | _ => None end.

(** A connection over the limits: its context is cancelled, its transport closed, and what was
    written to it begins the 421 reply. *)
Definition refused (w : world) (c : nat) : Prop :=
  c ∈ cancelled w /\ c ∈ closed w /\ exists n, written w !! c = Some (take n connectionLimit).

(** How far the accept loop is with a connection that has no handler. *)
Definition refusal (w : world) (c : nat) : Prop :=
  match serve w with
  | SRegister c' _ | SSpawn c' | SCancel c' => c = c' \/ refused w c
  | SLimit c' => (c = c' /\ c ∈ cancelled w) \/ refused w c
  | SClose c' => (c = c' /\ c ∈ cancelled w /\ exists n, written w !! c = Some (take n connectionLimit)) \/ refused w c
  | _ => refused w c
  end.

(** What Shutdown has achieved: [pending] are the connections its current loop has still to treat. *)
Definition all_active (w : world) (P : nat -> Prop) : Prop := forall c, is_Some (active (registry w) !! c) -> P c.

(** The listener is closed, or its Close failed and Shutdown is going to say so. *)
Definition released (w : world) : Prop := listening w = false \/ shutdownErr w = Some ListenerError.

Definition shutdown_inv (w : world) : Prop :=
  match shutdown w with
  | DIdle | DListener => accepting (registry w) = true
  | DLock => accepting (registry w) = true /\ released w
  | DCancel todo => accepting (registry w) = false /\ released w /\
      all_active w (fun c => c ∈ todo \/ c ∈ cancelled w)
  | DWait | DSnapshot => accepting (registry w) = false /\ released w /\
      all_active w (fun c => c ∈ cancelled w)
  | DCloseAll todo => accepting (registry w) = false /\ released w /\
      all_active w (fun c => c ∈ cancelled w /\ (c ∈ todo \/ c ∈ closed w))
  | DReturned e => accepting (registry w) = false /\ released w /\
      all_active w (fun c => c ∈ cancelled w /\ c ∈ closed w) /\
      ((e = shutdownErr w /\ wait (registry w) = 0) \/ e = Some (default ContextError (shutdownErr w)))
  end.

Record Inv (mx ms : Z) (w : world) : Prop := {
  i_reg : registry_ok (registry w);
  i_limits : (max (registry w), maxSource (registry w)) = (mx, ms);
  i_active c : is_Some (active (registry w) !! c) <->
    (exists p, handlers w !! c = Some p /\ held p = true) \/ serve w = SSpawn c;
  i_wait : wait (registry w) = Z.of_nat (size (active (registry w)) + count (eq HDone) (handlers w));
  i_closed c p : handlers w !! c = Some p -> p <> HRun -> p <> HClose -> c ∈ closed w;
  i_fresh c : (accepted w <= c)%nat -> handlers w !! c = None;
  i_busy c : busy (serve w) = Some c -> S c = accepted w /\ handlers w !! c = None;
  i_refused c : (c < accepted w)%nat -> handlers w !! c = None -> refusal w c;
  i_shutdown : shutdown_inv w
}.

Lemma new_world_inv mx ms : Inv mx ms (newWorld mx ms).
Proof.
  split; cbn; try done; try lia; try apply new_registry_ok.
  - intros c. rewrite lookup_empty. split; [by intros []|]. intros [(p & H & _)|]; done.
Qed.

(** Steps of the other goroutines keep what Shutdown has achieved: contexts stay cancelled, transports
    closed, and once nothing registers the active connections only become fewer. *)
Lemma shutdown_mono w w' :
  shutdown w' = shutdown w -> shutdownErr w' = shutdownErr w ->
  accepting (registry w') = accepting (registry w) -> (listening w = false -> listening w' = false) ->
  (accepting (registry w) = false ->
   (forall c, is_Some (active (registry w') !! c) -> is_Some (active (registry w) !! c)) /\
   (wait (registry w) = 0 -> wait (registry w') = 0)) ->
  cancelled w ⊆ cancelled w' -> closed w ⊆ closed w' ->
  shutdown_inv w -> shutdown_inv w'.
Proof.
  intros S E A L M C D. unfold shutdown_inv, all_active.
  assert (released w -> released w') as Rel by (unfold released; rewrite E; intuition).
  rewrite S, E, A.
  destruct (shutdown w) as [| | |todo| | |todo|e]; [done|done| | | | | |].
  1: intros [H1 H2]; auto.
  all: intros (H1 & H2 & H3); destruct (M H1) as [M1 M2]; split_and!; auto;
    try (intros c Hc; specialize (H3 c (M1 c Hc)); set_solver).
  - intros c Hc. destruct H3 as [H3 _]. specialize (H3 c (M1 c Hc)). set_solver.
  - destruct H3 as [_ [[-> Hw]| ->]]; auto.
Qed.

Lemma refused_mono w w' c :
  refused w c -> cancelled w ⊆ cancelled w' -> closed w ⊆ closed w' -> written w' !! c = written w !! c ->
  refused w' c.
Proof. intros (A & B & C) HA HB E. unfold refused. rewrite E. set_solver. Qed.

(** [i_active] does not depend on the accept loop outside of its spawn position. *)
Lemma active_iff (P : Prop) p p' c : (forall c', p <> SSpawn c') -> (forall c', p' <> SSpawn c') ->
  P \/ p = SSpawn c <-> P \/ p' = SSpawn c.
Proof. intros H H'. split; intros [|E]; auto; by (destruct (H c E) || destruct (H' c E)). Qed.

Section Steps.
Context (mx ms : Z).

Ltac world_cbn := cbn [registry serve serve_cancelled listening handlers cancelled closed written shutdown
  shutdownErr accepted set_registry set_serve set_serve_cancelled close_listener set_handler cancel close_conn
  write set_shutdown set_shutdownErr accept_one busy] in *.
Ltac inv_split I := destruct I as [Ir Il Ia Iw Ic If Ib Id Is]; split; world_cbn; try done.

Lemma context_inv w w' : Inv mx ms w -> context_step w w' -> Inv mx ms w'.
Proof.
  intros I []; inv_split I. by apply (shutdown_mono w).
Qed.

(** The accept loop leaves a position at which it holds no connection, or drops one it refused. *)
Lemma serve_move w p : Inv mx ms w ->
  (forall c, serve w <> SSpawn c) -> (forall c, p <> SSpawn c) -> busy p = None ->
  (forall c, (c < accepted w)%nat -> handlers w !! c = None -> refused w c) -> Inv mx ms (set_serve w p).
Proof.
  intros I H1 H2 H3 H4. inv_split I.
  - intros c. rewrite Ia. by apply active_iff.
  - intros c. by rewrite H3.
  - intros c Hc Hh. pose proof (H4 c Hc Hh). unfold refusal. world_cbn. destruct p; auto.
Qed.

Lemma idle_refused w : Inv mx ms w -> serve w = SIdle \/ serve w = SAccept ->
  forall c, (c < accepted w)%nat -> handlers w !! c = None -> refused w c.
Proof. intros I E c Hc Hh. pose proof (i_refused _ _ _ I c Hc Hh) as R. unfold refusal in R. by destruct E as [E|E]; rewrite E in R. Qed.

Lemma serve_inv w w' : Inv mx ms w -> serve_step w w' -> Inv mx ms w'.
Proof.
  intros I [E|addr E L|E L|E|c source E|c E|c E|c n E|c E].
  - apply serve_move; rewrite ?E; try done. apply idle_refused; auto.
  - pose proof (idle_refused w I (or_intror E)) as R. inv_split I.
    + intros c. rewrite Ia, E. by apply active_iff.
    + intros c Hc. apply If. lia.
    + intros c [= <-]. split; [done|by apply If].
    + intros c Hc Hh. unfold refusal. world_cbn. destruct (decide (c = accepted w)) as [|N]; [by left|right].
      apply (refused_mono w); try done. apply R; [lia|done].
  - apply serve_move; rewrite ?E; try done. apply idle_refused; auto.
  - apply serve_move; rewrite ?E; try done. apply idle_refused; auto.
  - destruct (register _ _ _ _) as [r ok] eqn:R. pose proof (register_ok _ c source (i_reg _ _ _ I)) as RO.
    rewrite R in RO. cbn [fst] in RO. destruct (i_busy _ _ _ I c) as [Hc Hh]; [by rewrite E|]. destruct ok.
    + apply register_true in R as (F & A & A' & [= M S] & Act & W). inv_split I.
      * by rewrite M, S.
      * intros c'. rewrite Act. destruct (decide (c' = c)) as [->|N].
        { rewrite lookup_insert_eq. split; [by right|by eauto]. }
        rewrite lookup_insert_ne, Ia, E by done. split; (intros [|]; [by left|]); congruence.
      * rewrite W, Act, map_size_insert_None, Iw by done. lia.
      * by intros c' [= <-].
      * intros c' Hc' Hh'. specialize (Id c' Hc' Hh'). unfold refusal in *. rewrite E in Id. world_cbn. done.
      * unfold shutdown_inv in *. world_cbn. rewrite A in Is. rewrite A'. rewrite A.
        destruct (shutdown w); naive_solver.
    + apply register_false in R as ->. inv_split I.
      * intros c'. rewrite Ia, E. by apply active_iff.
      * by intros c' [= <-].
      * intros c' Hc' Hh'. specialize (Id c' Hc' Hh'). unfold refusal in *. by rewrite E in Id.
  - destruct (i_busy _ _ _ I c) as [Hc Hh]; [by rewrite E|]. inv_split I.
    + intros c'. rewrite Ia, E. destruct (decide (c' = c)) as [->|N].
      * rewrite lookup_insert_eq. split; [left; by exists HRun|by right].
      * rewrite lookup_insert_ne by done. split; (intros [|]; [by left|]); congruence.
    + rewrite count_insert, decide_False by done. lia.
    + intros c' p. destruct (decide (c' = c)) as [->|N]; [by rewrite lookup_insert_eq; intros [= <-]|].
      rewrite lookup_insert_ne by done. apply Ic.
    + intros c' Hc'. rewrite lookup_insert_ne by lia. by apply If.
    + intros c' Hc'. destruct (decide (c' = c)) as [->|N]; [by rewrite lookup_insert_eq|].
      rewrite lookup_insert_ne by done. intros Hh'. specialize (Id c' Hc' Hh'). unfold refusal in *.
      rewrite E in Id. world_cbn. by destruct Id.
  - destruct (i_busy _ _ _ I c) as [Hc Hh]; [by rewrite E|]. inv_split I.
    + intros c'. rewrite Ia, E. by apply active_iff.
    + by intros c' [= <-].
    + intros c' Hc' Hh'. specialize (Id c' Hc' Hh'). unfold refusal in *. rewrite E in Id. world_cbn.
      destruct Id as [->|R]; [left; set_solver|right]. apply (refused_mono w); set_solver.
    + apply (shutdown_mono w); try done. set_solver.
  - destruct (i_busy _ _ _ I c) as [Hc Hh]; [by rewrite E|]. inv_split I.
    + intros c'. rewrite Ia, E. by apply active_iff.
    + by intros c' [= <-].
    + intros c' Hc' Hh'. specialize (Id c' Hc' Hh'). unfold refusal in *. rewrite E in Id. world_cbn.
      destruct (decide (c' = c)) as [->|N].
      * left. split; [done|]. split; [by destruct Id as [[_ ?]|[? _]]|]. exists n. by rewrite lookup_insert_eq.
      * destruct Id as [[? _]|R]; [done|right]. apply (refused_mono w); try done. world_cbn. by rewrite lookup_insert_ne.
  - destruct (i_busy _ _ _ I c) as [Hc Hh]; [by rewrite E|].
    inv_split I.
    + intros c'. rewrite Ia, E. by apply active_iff.
    + intros c' p Hp H1 H2. specialize (Ic c' p Hp H1 H2). set_solver.
    + intros c' Hc' Hh'. specialize (Id c' Hc' Hh'). unfold refusal in *. rewrite E in Id. world_cbn.
      destruct Id as [(-> & A & n & B)|R]; [|apply (refused_mono w); set_solver].
      unfold refused. world_cbn. set_solver.
    + apply (shutdown_mono w); try done. set_solver.
Qed.

(** A handler moves on: nothing but its own position, its registration and its transport changes. *)
Lemma handler_move w w' c p0 p : Inv mx ms w ->
  handlers w !! c = Some p0 -> handlers w' = <[c := p]> (handlers w) ->
  (serve w', serve_cancelled w', listening w', written w', shutdown w', shutdownErr w', accepted w') =
  (serve w, serve_cancelled w, listening w, written w, shutdown w, shutdownErr w, accepted w) ->
  registry_ok (registry w') -> (max (registry w'), maxSource (registry w')) = (mx, ms) ->
  accepting (registry w') = accepting (registry w) ->
  (forall c', is_Some (active (registry w') !! c') <->
     (c' <> c /\ is_Some (active (registry w) !! c')) \/ (c' = c /\ held p = true)) ->
  wait (registry w') = Z.of_nat (size (active (registry w')) + count (eq HDone) (handlers w')) ->
  cancelled w ⊆ cancelled w' -> closed w ⊆ closed w' ->
  (p <> HRun -> p <> HClose -> c ∈ closed w') -> (held p = true -> held p0 = true) ->
  wait (registry w') <= wait (registry w) -> Inv mx ms w'.
Proof.
  intros [Ir Il Ia Iw Ic If Ib Id Is] Hc Hh [= ES EC EL EW ED EE EA] R L A Act W Can Cl P Hp Wd.
  assert (forall c', handlers w' !! c' = None <-> handlers w !! c' = None) as N.
  { intros c'. rewrite Hh. destruct (decide (c' = c)) as [->|Ne].
    - rewrite lookup_insert_eq, Hc. done.
    - by rewrite lookup_insert_ne. }
  split; try done.
  - intros c'. rewrite Act, Ia, Hh, ES. destruct (decide (c' = c)) as [->|Ne].
    + rewrite lookup_insert_eq. split.
      * intros [[? _]|[_ H]]; [done|]. left. by exists p.
      * intros [(q & [= <-] & H)|E]; [by right|]. destruct (Ib c) as [_ H]; [by rewrite E|]. congruence.
    + rewrite lookup_insert_ne by done. naive_solver.
  - intros c' q. rewrite Hh. destruct (decide (c' = c)) as [->|Ne].
    + rewrite lookup_insert_eq. by intros [= <-].
    + rewrite lookup_insert_ne by done. intros. apply Cl. by eapply Ic.
  - intros c'. rewrite EA, N. apply If.
  - intros c'. rewrite ES, EA, N. apply Ib.
  - intros c'. rewrite EA, N. intros H1 H2. specialize (Id c' H1 H2).
    assert (refused w c' -> refused w' c') as M by (intros; apply (refused_mono w); [done..|by rewrite EW]).
    unfold refusal in *. rewrite ES, EW. destruct (serve w); try (by apply M); destruct Id as [Id|Id]; auto;
      left; set_solver.
  - apply (shutdown_mono w); try done; [intros; congruence|]. intros _. split.
    + intros c'. rewrite Act, Ia. intros [[_ H]|[-> H]]; [done|]. left. exists p0. auto.
    + lia.
Qed.

Lemma count_done w c p0 p : handlers w !! c = Some p0 ->
  (count (eq HDone) (<[c := p]> (handlers w)) + if decide (HDone = p0) then 1 else 0)%nat =
  (count (eq HDone) (handlers w) + if decide (HDone = p) then 1 else 0)%nat.
Proof. intros H. by apply count_update. Qed.

Lemma held_active w c p : Inv mx ms w -> handlers w !! c = Some p ->
  is_Some (active (registry w) !! c) <-> held p = true.
Proof.
  intros I H. rewrite (i_active _ _ _ I). split.
  - intros [(q & E & Q)|E]; [congruence|]. destruct (i_busy _ _ _ I c) as [_ F]; [by rewrite E|]. congruence.
  - intros Q. left. by exists p.
Qed.

Ltac same I := try exact (i_reg _ _ _ I); try exact (i_limits _ _ _ I).

Lemma handler_inv w c w' : Inv mx ms w -> handler_step w c w' -> Inv mx ms w'.
Proof.
  intros I [E|E|E|E|E]; pose proof (held_active w c _ I E) as HA; cbn [held] in HA;
    pose proof (i_wait _ _ _ I) as W; pose proof (i_closed _ _ _ I c _ E) as Cl.
  - apply (handler_move w _ c HRun HClose); try done; same I.
    + intros c'. world_cbn. destruct (decide (c' = c)) as [->|]; naive_solver.
    + world_cbn. pose proof (count_done w c HRun HClose E) as D. rewrite !decide_False in D by done. lia.
  - apply (handler_move w _ c HClose HUnregister); try done; same I; world_cbn.
    + intros c'. destruct (decide (c' = c)) as [->|]; naive_solver.
    + pose proof (count_done w c HClose HUnregister E) as D. rewrite !decide_False in D by done. lia.
    + apply union_subseteq_r.
    + intros _ _. set_solver.
  - pose proof (unregister_ok _ c (i_reg _ _ _ I)) as RO. unfold unregister in *.
    destruct HA as [_ [a Ha]]; [done|]. rewrite Ha in *. cbn [fst] in RO.
    apply (handler_move w _ c HUnregister HDone); world_cbn; try done; same I.
    + intros c'. cbn [active]. destruct (decide (c' = c)) as [->|Ne].
      * rewrite lookup_delete_eq. split; [by intros []|]. naive_solver.
      * rewrite lookup_delete_ne by done. naive_solver.
    + cbn [active wait]. pose proof (count_done w c HUnregister HDone E) as D.
      rewrite decide_False, decide_True in D by done. rewrite map_size_delete_Some by eauto.
      assert (0 < size (active (registry w)))%nat; [|lia].
      apply Nat.neq_0_lt_0. intros Z0%map_size_empty_inv. rewrite Z0 in Ha. done.
    + intros. by apply Cl.
  - apply (handler_move w _ c HDone HCancel); world_cbn; try done; same I.
    + destruct (i_reg _ _ _ I) as [C M S Ky]. by split.
    + intros c'. cbn [active wait_Done]. destruct (decide (c' = c)) as [->|]; [|naive_solver].
      rewrite HA. naive_solver.
    + pose proof (count_done w c HDone HCancel E) as D. rewrite decide_True, decide_False in D by done.
      cbn [wait wait_Done active]. lia.
    + intros. by apply Cl.
    + cbn. lia.
  - apply (handler_move w _ c HCancel HExit); world_cbn; try done; same I.
    + intros c'. destruct (decide (c' = c)) as [->|]; [|naive_solver]. rewrite HA. naive_solver.
    + pose proof (count_done w c HCancel HExit E) as D. rewrite !decide_False in D by done. lia.
    + apply union_subseteq_r.
    + intros. by apply Cl.
Qed.

(** Steps that move only Shutdown, the listener, contexts and transports. *)
Lemma shutdown_move w w' : Inv mx ms w ->
  (serve w', handlers w', written w', accepted w') = (serve w, handlers w, written w, accepted w) ->
  registry_ok (registry w') -> (max (registry w'), maxSource (registry w')) = (mx, ms) ->
  active (registry w') = active (registry w) -> wait (registry w') = wait (registry w) ->
  cancelled w ⊆ cancelled w' -> closed w ⊆ closed w' -> shutdown_inv w' -> Inv mx ms w'.
Proof.
  intros [Ir Il Ia Iw Ic If Ib Id Is] [= ES EH EW EA] R L Act W Can Cl S. split; try done.
  - intros c. by rewrite Act, ES, EH.
  - by rewrite W, Act, EH.
  - intros c p. rewrite EH. intros. apply Cl. by eapply Ic.
  - intros c. rewrite EA, EH. apply If.
  - intros c. rewrite ES, EA, EH. apply Ib.
  - intros c. rewrite EA, EH. intros H1 H2. specialize (Id c H1 H2).
    assert (refused w c -> refused w' c) as M by (intros; apply (refused_mono w); [done..|by rewrite EW]).
    unfold refusal in *. rewrite ES, EW. destruct (serve w); try (by apply M); destruct Id as [Id|Id]; auto;
      left; set_solver.
Qed.

Lemma active_conns_elem r c : c ∈ active_conns r <-> is_Some (active r !! c).
Proof.
  unfold active_conns. rewrite list_elem_of_fmap. split.
  - intros ([c' a] & -> & H%elem_of_map_to_list). by exists a.
  - intros [a H]. exists (c, a). split; [done|]. by apply elem_of_map_to_list.
Qed.

Lemma shutdown_step_inv w w' : Inv mx ms w -> shutdown_step w w' -> Inv mx ms w'.
Proof.
  intros I S. pose proof (i_shutdown _ _ _ I) as Is. unfold shutdown_inv, all_active in Is.
  destruct S as [E|[] [] E|todo E Ht|c todo E|E|E Hw|E|todo E Ht|c todo E|E]; rewrite E in Is;
    (apply (shutdown_move w); [done|done|same I|same I|done|done|world_cbn; set_solver..|]);
    unfold shutdown_inv, all_active; world_cbn; try done; try (split; [done|by (left + right)]).
  - destruct (i_reg _ _ _ I) as [C M S Ky]. by split.
  - cbn [accepting stop_accepting active]. split_and!; [done|apply Is|]. intros c Hc. left. rewrite Ht. by apply active_conns_elem.
  - destruct Is as (A & L & H). split_and!; try done. intros c' Hc. specialize (H c' Hc). set_solver.
  - destruct Is as (A & L & H). split_and!; try done. intros c' Hc. specialize (H c' Hc). set_solver.
  - destruct Is as (A & L & H). split_and!; try done; [|by left]. intros c Hc.
    assert (size (active (registry w)) <> 0%nat) as N.
    { intros Z0%map_size_empty_inv. rewrite Z0 in Hc. by destruct Hc. }
    pose proof (i_wait _ _ _ I). lia.
  - destruct Is as (A & L & H). split_and!; try done. intros c Hc. split; [by apply H|]. left. rewrite Ht.
    by apply active_conns_elem.
  - destruct Is as (A & L & H). split_and!; try done. intros c' Hc. specialize (H c' Hc). set_solver.
  - destruct Is as (A & L & H). split_and!; try done; [|by right]. intros c' Hc. specialize (H c' Hc). set_solver.
Qed.

Lemma step_inv w w' : Inv mx ms w -> step w w' -> Inv mx ms w'.
Proof.
  intros I []; eauto using serve_inv, handler_inv, shutdown_step_inv, context_inv.
Qed.

Lemma reachable_inv w : reachable mx ms w -> Inv mx ms w.
Proof.
  intros R. unfold reachable in R. pose proof (new_world_inv mx ms) as I. induction R; eauto using step_inv.
Qed.
End Steps.

(** ** Sources *)

(** The address a source stands for: the octets with the IPv4-mapped prefix removed, and the zone of
    what is left of an IPv6 address. *)
Definition canonical_ip (ip zone : bytes) : option Addr :=
  match AddrFromSlice ip with
  | Some a => Some (if negb (beq zone []) && Is6 (Unmap a) then WithZone (Unmap a) zone else Unmap a)
  | None => None
  end.

Lemma canonical_valid ip zone a : canonical_ip ip zone = Some a -> valid_addr a /\ Unmap a = a /\ IsValid a = true.
Proof.
  unfold canonical_ip, AddrFromSlice. destruct (Nat.eqb_spec (length ip) 4) as [L|_].
  { cbn. rewrite andb_false_r. by intros [= <-]. }
  destruct (Nat.eqb_spec (length ip) 16) as [L|]; [|done]. cbn [Unmap].
  destruct (HasPrefix ip mapped_prefix) eqn:E; cbn [Is6 WithZone]; rewrite ?andb_false_r, ?andb_true_r; intros [= <-].
  - cbn. rewrite length_drop. split_and!; [lia|done..].
  - destruct (negb _); cbn [valid_addr Unmap IsValid]; by rewrite E.
Qed.

Lemma source_canonical ip zone : connectionSourceForIP ip zone =
  match canonical_ip ip zone with
  | Some a => {| kind := connectionSourceIP; network := []; value := Addr_String a |}
  | None => unknownConnectionSource
  end.
Proof.
  destruct (canonical_ip ip zone) as [a|] eqn:E.
  - destruct (canonical_valid _ _ _ E) as (_ & U & V). unfold connectionSourceForIP, canonical_ip in *.
    destruct (AddrFromSlice ip) as [b|]; [|done]. injection E as E. cbv zeta.
    rewrite E. unfold canonicalIPConnectionSource. cbv zeta. by rewrite U, V.
  - unfold connectionSourceForIP, canonical_ip in *. by destruct (AddrFromSlice ip).
Qed.

(** Two connections share a per-source budget exactly when their canonical addresses are equal,
    whatever their ports, and however each address was written. *)
Lemma source_ip_eq ip zone ip' zone' :
  connectionSourceForIP ip zone = connectionSourceForIP ip' zone' <-> canonical_ip ip zone = canonical_ip ip' zone'.
Proof.
  rewrite !source_canonical. split; [|by intros ->].
  destruct (canonical_ip ip zone) as [a|] eqn:A, (canonical_ip ip' zone') as [b|] eqn:B; try done.
  intros [= E]. f_equal. apply Addr_String_inj; [by eapply canonical_valid..|done].
Qed.

(** A custom address type that reports the same address as text is counted with it. *)
Lemma source_text ip zone a net port tcp_port :
  canonical_ip ip zone = Some a -> no_brackets (Addr_String a) -> net <> [] ->
  no_brackets port -> no_byte ":"%byte port = true ->
  connectionSourceForAddr (Some (OtherAddr net (JoinHostPort (Addr_String a) port))) =
  connectionSourceForAddr (Some (TCPAddr ip tcp_port zone)).
Proof.
  intros C B N P Q. destruct (canonical_valid _ _ _ C) as (V & U & Va). pose proof (ParseAddr_String a V) as PS.
  unfold connectionSourceForAddr at 1. destruct (beq_spec net []) as [|_]; [done|].
  destruct (beq_spec (JoinHostPort (Addr_String a) port) []) as [E|_].
  { unfold JoinHostPort in E. destruct (mem_byte _ _); [done|]. by destruct (Addr_String a). }
  cbn [orb]. rewrite SplitHostPort_JoinHostPort by done.
  destruct (beq_spec (Addr_String a) []) as [E|_]; [by rewrite E in PS|]. rewrite PS.
  unfold canonicalIPConnectionSource. cbv zeta. rewrite U, Va. cbn [negb connectionSourceForAddr].
  by rewrite source_canonical, C.
Qed.

(** ** Theorems *)

(** Connections of one IP address share one budget: two TCP addresses have the same source exactly
    when they are the same address after removing the IPv4-mapped prefix (with its zone, for IPv6),
    whatever the ports; and an address type that reports that address as host and port text has
    that source as well. *)
Theorem source_identity ip port zone ip' port' zone' :
  (connectionSourceForAddr (Some (TCPAddr ip port zone)) =
   connectionSourceForAddr (Some (TCPAddr ip' port' zone')) <-> canonical_ip ip zone = canonical_ip ip' zone') /\
  (forall a net text_port, canonical_ip ip zone = Some a -> no_brackets (Addr_String a) -> net <> [] ->
   no_brackets text_port -> no_byte ":"%byte text_port = true ->
   connectionSourceForAddr (Some (OtherAddr net (JoinHostPort (Addr_String a) text_port))) =
   connectionSourceForAddr (Some (TCPAddr ip port zone))).
Proof.
  split; [apply source_ip_eq|]. intros. by apply source_text.
Qed.

(** C13: Limits of a server in every reachable state, whatever the interleaving of Accept, handlers and
    Shutdown: the active connections stay within MaxConnections, those of each source within
    MaxConnectionsPerSource; the per-source counters are exactly the numbers of active connections
    and have no entry for a source without one; the wait group counts the active connections and the
    handlers that are between leaving the registry and [wait.Done], so it is never negative; and once
    every handler has returned, and none is about to start, the registry is empty. *)
Theorem connection_limits mx ms w : reachable mx ms w -> 0 < mx -> 0 < ms ->
  let r := registry w in
  Z.of_nat (size (active r)) <= mx /\
  (forall s, source_count r s = Z.of_nat (per_source s r) /\ source_count r s <= ms /\
             (source_count r s = 0 <-> bySource r !! s = None)) /\
  wait r = Z.of_nat (size (active r) + count (eq HDone) (handlers w)) /\
  ((forall c p, handlers w !! c = Some p -> p = HExit) -> (forall c, serve w <> SSpawn c) ->
   active r = ∅ /\ bySource r = ∅ /\ wait r = 0).
Proof.
  intros R Hmx Hms r. pose proof (reachable_inv _ _ _ R) as I. pose proof (i_reg _ _ _ I) as K.
  pose proof (i_limits _ _ _ I) as L. injection L as L1 L2. fold r in K, L1, L2.
  assert (forall s, source_count r s = 0 <-> bySource r !! s = None) as Z0.
  { intros s. rewrite (source_count_ok _ _ K), (ok_counts _ K). case_decide; split; intros; (done || lia). }
  split_and!.
  - pose proof (ok_max _ K). lia.
  - intros s. split_and!; [by apply source_count_ok| |apply Z0..]. rewrite (source_count_ok _ _ K).
    pose proof (ok_source _ K s). lia.
  - apply I.
  - intros Hx Hs. assert (active r = ∅) as E.
    { apply map_empty. intros c. destruct (active r !! c) as [a|] eqn:E; [|done].
      destruct (proj1 (i_active _ _ _ I c)) as [(p & Hp & Q)|Q]; [by exists a| |by destruct (Hs c)].
      rewrite (Hx c p Hp) in Q. done. }
    assert (count (eq HDone) (handlers w) = 0%nat) as D.
    { unfold count. apply map_size_empty_iff, map_empty. intros c. apply map_lookup_filter_None. right.
      intros p Hp. cbn. by rewrite (Hx c p Hp). }
    pose proof (i_wait _ _ _ I) as W. fold r in W.
    split_and!; [done| |by rewrite W, D, E, map_size_empty].
    apply map_empty. intros s. apply Z0. rewrite (source_count_ok _ _ K). unfold per_source. by rewrite E.
Qed.

(** C14: When Shutdown returns, in any interleaving with the accept loop and the handlers: the listener is
    closed, unless its Close reported an error, which is then what Shutdown returns (such a listener may
    go on accepting, but only to refuse); no later registration succeeds, and the transport of every
    connection that ever had a handler, or was about to get one, is closed; those still registered had
    their context cancelled.
    When it returns without an error it waited gracefully: nothing is registered, and every handler
    is past its last use of the server. *)
Theorem shutdown_complete mx ms w e : reachable mx ms w -> shutdown w = DReturned e ->
  (listening w = false \/ e = Some ListenerError) /\
  (forall c cn source, (register (registry w) c cn source).2 = false) /\
  (forall c, is_Some (handlers w !! c) \/ serve w = SSpawn c -> c ∈ closed w) /\
  (forall c, is_Some (active (registry w) !! c) -> c ∈ cancelled w) /\
  (e = None -> active (registry w) = ∅ /\ bySource (registry w) = ∅ /\
               forall c p, handlers w !! c = Some p -> p = HCancel \/ p = HExit).
Proof.
  intros R E. pose proof (reachable_inv _ _ _ R) as I. pose proof (i_shutdown _ _ _ I) as S.
  unfold shutdown_inv in S. rewrite E in S. destruct S as (A & L & Act & Fin).
  assert (forall c p, handlers w !! c = Some p -> held p = true -> is_Some (active (registry w) !! c)) as Hd.
  { intros c p Hp Q. apply (i_active _ _ _ I). left. by exists p. }
  split_and!; try done.
  - destruct L as [L|L]; [by left|right]. destruct Fin as [[-> _]| ->]; by rewrite L.
  - intros. unfold register. by rewrite A.
  - intros c [[p Hp]|Q].
    + destruct (held p) eqn:Q; [by apply Act, (Hd c p)|]. by apply (i_closed _ _ _ I c p); [done| |]; intros ->.
    + apply Act, (i_active _ _ _ I). by right.
  - intros c Hc. by apply Act.
  - intros ->. destruct Fin as [[_ W]|Q]; [|done]. pose proof (i_wait _ _ _ I) as W'. rewrite W in W'.
    assert (active (registry w) = ∅) as Em by (apply map_size_empty_iff; lia). split_and!; [done| |].
    + apply map_empty. intros s. rewrite (ok_counts _ (i_reg _ _ _ I)). unfold per_source. by rewrite Em.
    + intros c p Hp. assert (count (eq HDone) (handlers w) = 0%nat) as D by lia.
      unfold count in D. apply map_size_empty_inv in D. destruct p; auto; exfalso.
      1-3: destruct (Hd c _ Hp eq_refl) as [a Ha]; by rewrite Em in Ha.
      assert (filter (fun p => HDone = p.2) (handlers w) !! c = Some HDone) as F by by apply map_lookup_filter_Some.
      by rewrite D in F.
Qed.

(** *** Who is refused *)

(** The registry has no room for a connection from [source]: it is closing, it is at its limit, or the
    source is at its own. *)
Definition full (r : connectionRegistry) (source : connectionSource) : Prop :=
  accepting r = false \/ (0 < max r /\ max r <= Z.of_nat (size (active r))) \/
  maxSource r <= Z.of_nat (per_source source r).

Lemma register_full r c source : registry_ok r -> active r !! c = None ->
  (register r c c source).2 = true <-> ~ full r source.
Proof.
  intros K F. unfold register, full. rewrite (source_count_ok r source K), F.
  rewrite bool_decide_eq_false_2 by (by intros []).
  destruct (accepting r); cbn [negb orb]; [|split; [done|intros []; by left]].
  destruct (_ || _) eqn:E; cbn [snd].
  - split; [done|]. intros []. right. lia.
  - split; [|done]. intros _ [|[|]]; [done|lia..].
Qed.

(** The connection has a handler, or the accept loop is about to start one. *)
Definition taken (w : world) (c : nat) : Prop := is_Some (handlers w !! c) \/ serve w = SSpawn c.

Section Refusals.
Context (mx ms : Z).

(** The moment a connection was decided on. *)
Definition decided (w : world) (c : nat) : Prop :=
  exists w1 source, reachable mx ms w1 /\ serve w1 = SRegister c source /\ rtc step w1 w /\
    (taken w c <-> ~ full (registry w1) source).

Lemma taken_insert w c c' p p0 : handlers w !! c' = Some p0 ->
  is_Some (<[c' := p]> (handlers w) !! c) <-> is_Some (handlers w !! c).
Proof.
  intros E. destruct (decide (c = c')) as [->|N]; [rewrite lookup_insert_eq, E|by rewrite lookup_insert_ne].
  split; intros; by eexists.
Qed.

(** Once decided, that does not change. *)
Lemma taken_stable w w' c : Inv mx ms w -> (c < accepted w)%nat ->
  (forall source, serve w <> SRegister c source) -> step w w' -> taken w' c <-> taken w c.
Proof.
  intros I Hc Hs [w1 S|c' w1 S|w1 S|w1 S]; unfold taken.
  - destruct S as [E|addr E L|E L|E|c' source E|c' E|c' E|c' n E|c' E]; cbn [handlers serve set_serve accept_one];
      try (rewrite E; by apply active_iff).
    + assert (c' <> c) as N by (intros ->; by destruct (Hs source)).
      destruct (register _ _ _ _) as [r []]; cbn [handlers serve set_serve set_registry]; rewrite E;
        split; intros [|Q]; auto; congruence.
    + cbn [handlers set_handler]. rewrite E. destruct (decide (c = c')) as [->|N].
      * rewrite lookup_insert_eq. split; [by right|by left].
      * rewrite lookup_insert_ne by done. split; intros [|Q]; auto; congruence.
  - destruct S as [E|E|E|E|E]; try (cbn; by rewrite (taken_insert w c c' _ _ E)).
    destruct (unregister _ _) as [r owes]. cbn. by rewrite (taken_insert w c c' _ _ E).
  - destruct S as [E|[] [] E| | | | | | | |]; done.
  - by destruct S.
Qed.

Lemma reachable_decided w : reachable mx ms w ->
  forall c, (c < accepted w)%nat -> (forall source, serve w <> SRegister c source) -> decided w c.
Proof.
  revert w. apply (rtc_ind_r (fun w => forall c, (c < accepted w)%nat -> (forall source, serve w <> SRegister c source) ->
    decided w c) (newWorld mx ms)); [intros c; cbn; lia|].
  intros w w' R S IH c Hc Hs. pose proof (reachable_inv mx ms w R) as I.
  assert ((exists source, serve w = SRegister c source) \/ forall source, serve w <> SRegister c source) as [[source E]|N].
  { destruct (serve w) as [| |c' source| | | | |]; try (by right). destruct (decide (c = c')) as [->|]; [left; by eexists|].
    right. congruence. }
  - exists w, source. split_and!; [done|done|by apply rtc_once|].
    destruct (i_busy _ _ _ I c) as [Hb Hh]; [by rewrite E|].
    assert (active (registry w) !! c = None) as F.
    { destruct (active (registry w) !! c) as [a|] eqn:A; [|done].
      destruct (proj1 (i_active _ _ _ I c)) as [(p & Hp & _)|Q]; [by exists a|congruence..]. }
    rewrite <- (register_full _ c) by (done || apply I).
    destruct S as [w1 S|c' w1 S|w1 S|w1 S].
    + destruct S as [E'|? E' ?|E' ?|E'|c' source' E'|c' E'|c' E'|c' n E'|c' E']; rewrite E in E'; simplify_eq.
      destruct (register _ _ _ _) as [r []] eqn:Rg; unfold taken; cbn; rewrite Hh; split;
        [done|by right|intros [[? ?]|?]; done|done].
    + destruct (Hs source). rewrite <- E. destruct S; try done. by destruct (unregister _ _).
    + destruct (Hs source). rewrite <- E. by destruct S as [?|[] [] ?| | | | | | | |].
    + destruct (Hs source). rewrite <- E. by destruct S.
  - destruct (decide (c < accepted w)%nat) as [Lt|Ge].
    + destruct (IH c Lt N) as (w1 & source & R1 & E1 & R2 & T). exists w1, source.
      split_and!; [done|done|by eapply rtc_r|]. by rewrite (taken_stable w w').
    + exfalso. destruct S as [w1 S|c' w1 S|w1 S|w1 S].
      * destruct S as [|addr E L| | |c' source E| | | |]; cbn in *; try lia; [|destruct (register _ _ _ _); cbn in *; lia].
        apply (Hs (connectionSourceForAddr addr)). f_equal. lia.
      * destruct S; cbn in *; try lia. destruct (unregister _ _); cbn in *; lia.
      * destruct S as [?|[] [] ?| | | | | | | |]; cbn in *; lia.
      * destruct S; cbn in *; lia.
Qed.
End Refusals.

(** C26: Every connection the listener hands out, except the one the accept loop is busy with, is served
    by a handler or was refused: its context cancelled, its transport closed, and what was written to
    it is a beginning of the reply "421 4.3.2 Too many connections". And which of the two it was is
    settled by the registry when the loop came to register it: at that moment on the way to this
    state, the registry was accepting, below its limit (if it has one) and below the limit of the
    connection's source exactly when the connection is served. *)
Theorem accepted_served_or_refused mx ms w c : reachable mx ms w ->
  (c < accepted w)%nat -> busy (serve w) <> Some c ->
  (is_Some (handlers w !! c) \/ refused w c) /\
  exists w1 source, reachable mx ms w1 /\ serve w1 = SRegister c source /\ rtc step w1 w /\
    (is_Some (handlers w !! c) <->
     accepting (registry w1) = true /\ (mx <= 0 \/ Z.of_nat (size (active (registry w1))) < mx) /\
     Z.of_nat (per_source source (registry w1)) < ms).
Proof.
  intros R H B. pose proof (reachable_inv _ _ _ R) as I. split.
  - destruct (handlers w !! c) as [p|] eqn:E; [left; by exists p|].
    right. pose proof (i_refused _ _ _ I c H E) as Q. unfold refusal in Q.
    destruct (serve w) as [| |c' s|c'|c'|c'|c'|r]; auto; cbn [busy] in B; destruct Q as [Q|Q]; try done;
      exfalso; apply B; f_equal; try (symmetry; exact Q); symmetry; by destruct Q as [-> _].
  - destruct (reachable_decided mx ms w R c H) as (w1 & source & R1 & E1 & R2 & T); [intros s E; by rewrite E in B|].
    exists w1, source. split_and!; [done..|]. pose proof (i_limits _ _ _ (reachable_inv _ _ _ R1)) as L. injection L as Lm Ls.
    assert (taken w c <-> is_Some (handlers w !! c)) as <-
      by (unfold taken; split; [intros [|Q]; [done|by rewrite Q in B]|by left]).
    rewrite T. unfold full. rewrite Lm, Ls. destruct (accepting (registry w1)); split; intros F.
    + split_and!; [done|lia..].
    + lia.
    + destruct F. by left.
    + by destruct F.
Qed.





(** ** A run *)

Module Sample.
(** A server with room for two connections, one per source. Two connections come from one IPv6 host,
    under its plain and its textual address; the second is refused. Shutdown starts while the first is
    served, and returns after its handler ended. *)
Definition peer : bytes := [x20; x01; x0d; xb8] ++ replicate 11 x00 ++ [x01].
Definition first_addr : option net_addr := Some (TCPAddr peer 40000 []).
Definition second_addr : option net_addr := Some (OtherAddr ($"tcp") ($"[2001:db8::1]:40001")).

Ltac by_serve r := eapply rtc_l; [apply step_serve; eapply r; reflexivity|cbn beta iota].
Ltac by_handler r := eapply rtc_l; [eapply (step_handler _ 0%nat); apply r; reflexivity|cbn beta iota].
Ltac by_shutdown r := eapply rtc_l; [apply step_shutdown; eapply r; reflexivity|cbn beta iota].

(** Up to the refusal. *)
Definition busy_world : world :=
  {| registry := {| accepting := true; max := 2; maxSource := 1;
       active := {[0%nat := {| ac_conn := 0; ac_cancel := 0; ac_source := connectionSourceForAddr first_addr |}]};
       bySource := {[connectionSourceForAddr first_addr := 1]}; wait := 1 |};
     serve := SAccept; serve_cancelled := false; listening := true; handlers := {[0%nat := HRun]};
     cancelled := {[1%nat]}; closed := {[1%nat]}; written := {[1%nat := connectionLimit]}; shutdown := DIdle;
     shutdownErr := None; accepted := 2 |}.

Lemma busy_reachable : reachable 2 1 busy_world.
Proof.
  unfold reachable. by_serve serve_call.
  eapply rtc_l; [apply step_serve; apply (serve_accept _ first_addr); reflexivity|].
  by_serve serve_register. by_serve serve_spawn.
  eapply rtc_l; [apply step_serve; apply (serve_accept _ second_addr); reflexivity|].
  by_serve serve_register. by_serve serve_refuse.
  eapply rtc_l; [apply step_serve; eapply (serve_limit _ _ 35); reflexivity|].
  by_serve serve_close. vm_compute. apply rtc_refl.
Qed.

(** Shutdown returned without an error. *)
Definition stopped_world : world :=
  {| registry := {| accepting := false; max := 2; maxSource := 1; active := ∅; bySource := ∅; wait := 0 |};
     serve := SReturned ServeNil; serve_cancelled := false; listening := false; handlers := {[0%nat := HCancel]};
     cancelled := {[0%nat; 1%nat]}; closed := {[0%nat; 1%nat]}; written := {[1%nat := connectionLimit]};
     shutdown := DReturned None; shutdownErr := None; accepted := 2 |}.

Lemma stopped_reachable : reachable 2 1 stopped_world.
Proof.
  unfold reachable. transitivity busy_world; [exact busy_reachable|].
  by_shutdown shutdown_call.
  eapply rtc_l; [apply step_shutdown; apply (shutdown_listener _ false false); reflexivity|].
  by_serve serve_closed.
  eapply rtc_l; [apply step_shutdown; eapply (shutdown_lock _ [0%nat]); reflexivity|].
  by_shutdown shutdown_cancel. by_shutdown shutdown_wait.
  by_handler handler_end. by_handler handler_close. by_handler handler_unregister. by_handler handler_done.
  by_shutdown shutdown_done. vm_compute. apply rtc_refl.
Qed.

Lemma connection_limits_witness : reachable 2 1 busy_world /\ Z.of_nat (size (active (registry busy_world))) <= 2.
Proof.
  split; [exact busy_reachable|]. exact (proj1 (connection_limits 2 1 busy_world busy_reachable eq_refl eq_refl)).
Defined.

Lemma shutdown_complete_witness : shutdown stopped_world = DReturned None /\ listening stopped_world = false /\
  active (registry stopped_world) = ∅.
Proof.
  split; [reflexivity|].
  pose proof (shutdown_complete 2 1 stopped_world None stopped_reachable eq_refl) as (A & _ & _ & _ & B).
  split; [by destruct A|exact (proj1 (B eq_refl))].
Defined.

Lemma accepted_served_or_refused_witness : handlers busy_world !! 1%nat = None /\ refused busy_world 1.
Proof.
  split; [reflexivity|].
  destruct (accepted_served_or_refused 2 1 busy_world 1 busy_reachable (le_n 2) ltac:(done)) as [[[p H]|R] _];
    [by vm_compute in H|exact R].
Defined.

Lemma source_identity_witness :
  connectionSourceForAddr second_addr = connectionSourceForAddr first_addr.
Proof.
  exact (proj2 (source_identity peer 40000 [] peer 0 []) (Addr6 peer []) ($"tcp") ($"40001") eq_refl
    (conj eq_refl eq_refl) ltac:(done) (conj eq_refl eq_refl) eq_refl).
Defined.
End Sample.
