(* ===== verification/Ehlo.v ===== *)
(** * internal/smtpwire: the EHLO exchange and the Received field

    ehlo.go ([ParseEHLOReply], the client's side), hello.go ([ParseHelloCommand] and
    [EncodeEHLOReply], the server's side) and received.go ([FormatReceived]). *)
From Stdlib Require Import ZArith Lia Bool.
From stdpp Require Import base list gmap strings.
From S2P Require Import Prelude GoStrings Wire Reply Command.

(** ** ehlo.go *)

Record Extension : Type := { ExtKeyword : bytes; ExtParams : list bytes; ExtRaw : bytes }.

Record EHLOReply : Type := { EDomain : bytes; EGreeting : bytes; EExtensions : list Extension }.

Definition parse_ehlo_line `{Unicode} (line : bytes) : result wire_err Extension :=
  let '(kw, raw, found) := Cut line SP in
  match kw with
  | [] => Err ErrEHLOEmptyKeyword
  | _ =>
      Ok (if found then {| ExtKeyword := ToUpper kw; ExtParams := Fields raw; ExtRaw := raw |}
          else {| ExtKeyword := ToUpper kw; ExtParams := []; ExtRaw := [] |})
  end.

Fixpoint parse_ehlo_lines `{Unicode} (lines : list bytes) : result wire_err (list Extension) :=
  match lines with
  | [] => Ok []
  | line :: lines' =>
      let? ext := parse_ehlo_line line in
      let? exts := parse_ehlo_lines lines' in
      Ok (ext :: exts)
  end.

Definition ParseEHLOReply `{Unicode} (lines : list bytes) : result wire_err EHLOReply :=
  match lines with
  | [] => Err ErrEHLOEmpty
  | first :: rest =>
      let '(domain, greeting, _) := Cut first SP in
      let? exts := parse_ehlo_lines rest in
      Ok {| EDomain := domain; EGreeting := greeting; EExtensions := exts |}
  end.

(** ** hello.go *)

Record Hello : Type := { HVerb : bytes; HDomain : bytes }.

Definition ParseHelloCommand `{Unicode} (c : Command) : result wire_err Hello :=
  let verb := ToUpper (Verb c) in
  if negb (beq verb ($"HELO") || beq verb ($"EHLO") || beq verb ($"LHLO")) then Err ErrHelloVerb
  else if beq (Argument c) [] || mem_byte SP (Argument c) then Err ErrHelloArgument
  else Ok {| HVerb := verb; HDomain := Argument c |}.

Definition line_breaks : bytes := [CR; LF; x00].

(** The line of one extension of an EHLO advertisement. *)
Definition ehlo_line (ext : Extension) : result wire_err bytes :=
  match validateKeyword (ExtKeyword ext) with
  | Some _ => Err ErrEHLOEncode
  | None =>
      if negb (beq (ExtRaw ext) []) then
        if ContainsAny (ExtRaw ext) line_breaks then Err ErrEHLOEncode
        else Ok (ExtKeyword ext ++ SP :: ExtRaw ext)
      else match ExtParams ext with
      | [] => Ok (ExtKeyword ext)
      | params =>
          if existsb (fun p => beq p [] || ContainsAny p (SP :: line_breaks)) params
          then Err ErrEHLOEncode
          else Ok (ExtKeyword ext ++ SP :: Join params [SP])
      end
  end.

Fixpoint ehlo_lines (exts : list Extension) : result wire_err (list bytes) :=
  match exts with
  | [] => Ok []
  | ext :: exts' =>
      let? l := ehlo_line ext in
      let? ls := ehlo_lines exts' in
      Ok (l :: ls)
  end.

(** The lines [EncodeEHLOReply] hands to [EncodeReply]. *)
Definition ehlo_reply_lines (reply : EHLOReply) : result wire_err (list bytes) :=
  if beq (EDomain reply) [] || ContainsAny (EDomain reply) (SP :: line_breaks)
     || ContainsAny (EGreeting reply) line_breaks then Err ErrEHLOEncode
  else
    let first := EDomain reply ++ (match EGreeting reply with [] => [] | g => SP :: g end) in
    let? lines := ehlo_lines (EExtensions reply) in
    Ok (first :: lines).

Definition EncodeEHLOReply (reply : EHLOReply) : result wire_err bytes :=
  let? lines := ehlo_reply_lines reply in
  EncodeReply {| Code := 250; Lines := lines; Text := [] |}
    {| Enhanced := None; Context := ReplyContextHello |}.

(** ** received.go *)

(** [Timestamp] is the instant, already rendered by package time in the layout the code passes;
    [None] is the zero time. *)
Record ReceivedOptions : Type := {
  From : bytes;
  By : bytes;
  Extended : bool;
  LMTP : bool;
  TLS : bool;
  Authenticated : bool;
  ID : bytes;
  For : bytes;
  RecipientCount : Z;
  Timestamp : option bytes
}.

Definition receivedProtocol (o : ReceivedOptions) : result wire_err bytes :=
  if LMTP o then
    Ok (if TLS o && Authenticated o then $"LMTPSA"
        else if TLS o then $"LMTPS"
        else if Authenticated o then $"LMTPA"
        else $"LMTP")
  else if negb (Extended o) then
    if TLS o || Authenticated o then Err ErrReceivedState else Ok ($"SMTP")
  else
    Ok (if TLS o && Authenticated o then $"ESMTPSA"
        else if TLS o then $"ESMTPS"
        else if Authenticated o then $"ESMTPA"
        else $"ESMTP").

Definition received_for (o : ReceivedOptions) : result wire_err bytes :=
  if (RecipientCount o =? 1) && negb (beq (For o) []) then
    if negb (HasPrefix (For o) ($"<")) || negb (HasSuffix (For o) ($">")) then Err ErrReceivedField
    else Ok ($" for " ++ For o)
  else Ok [].

Definition FormatReceived (o : ReceivedOptions) : result wire_err bytes :=
  match Timestamp o with
  | None => Err ErrReceivedField
  | Some stamp =>
      if beq (From o) [] || beq (By o) [] || (RecipientCount o <? 0) then Err ErrReceivedField
      else if existsb (fun f => ContainsAny f line_breaks) [From o; By o; ID o; For o]
      then Err ErrReceivedField
      else
        let? with_ := receivedProtocol o in
        let? for_ := received_for o in
        Ok ($"Received: from " ++ From o ++ $" by " ++ By o ++ $" with " ++ with_
            ++ (match ID o with [] => [] | id => $" id " ++ id end)
            ++ for_ ++ $"; " ++ stamp ++ CRLF)
  end.

(** ** Lemmas *)

Lemma ContainsAny_no_byte c s set : ContainsAny s set = false -> mem_byte c set = true -> no_byte c s = true.
Proof.
  unfold ContainsAny, no_byte. intros H Hc. apply forallb_forall. intros d Hd.
  destruct (byte_eqb_spec d c) as [->|]; [|done].
  rewrite (proj2 (existsb_exists _ _)) in H; [done|]. by exists c.
Qed.

(** The canonical form the client reconstructs: keyword in upper case, parameters split. *)
Definition canonical_ext `{Unicode} (ext : Extension) : Extension :=
  let raw := match ExtRaw ext with [] => Join (ExtParams ext) [SP] | raw => raw end in
  {| ExtKeyword := ToUpper (ExtKeyword ext);
     ExtParams := match ExtRaw ext with [] => Fields (Join (ExtParams ext) [SP]) | raw => Fields raw end;
     ExtRaw := raw |}.

Lemma keyword_no_SP kw : validateKeyword kw = None -> no_byte SP kw = true /\ kw <> [].
Proof.
  unfold validateKeyword, fail_if. destruct kw as [|c kw]; [done|].
  destruct (is_alnum c) eqn:Hc; [|done]. cbn [negb]. destruct (existsb _ kw) eqn:E; [done|]. intros _.
  split; [|done]. unfold no_byte. apply forallb_forall. intros x Hx.
  destruct (byte_eqb_spec x SP) as [->|]; [|done]. destruct Hx as [->|Hx]; [done|].
  rewrite (proj2 (existsb_exists _ _)) in E; [done|]. by exists SP.
Qed.

Lemma parse_ehlo_line_printed `{Unicode} ext line :
  ehlo_line ext = Ok line -> parse_ehlo_line line = Ok (canonical_ext ext).
Proof.
  unfold ehlo_line, parse_ehlo_line, canonical_ext.
  destruct (validateKeyword (ExtKeyword ext)) eqn:Hk; [done|].
  apply keyword_no_SP in Hk as [Hk Hn]. destruct (ExtRaw ext) as [|r raw]; cbn [beq negb].
  - destruct (ExtParams ext) as [|p ps].
    + intros [= <-]. rewrite Cut_no by done. by destruct (ExtKeyword ext).
    + destruct (existsb _ _) eqn:E; [done|]. intros [= <-].
      rewrite Cut_app by done. by destruct (ExtKeyword ext).
  - destruct (ContainsAny _ _); [done|]. intros [= <-]. rewrite Cut_app by done.
    by destruct (ExtKeyword ext).
Qed.

Lemma parse_ehlo_lines_printed `{Unicode} exts lines :
  ehlo_lines exts = Ok lines -> parse_ehlo_lines lines = Ok (map canonical_ext exts).
Proof.
  revert lines. induction exts as [|ext exts IH]; intros lines; cbn [ehlo_lines]; [by intros [= <-]|].
  destruct (ehlo_line ext) as [l|] eqn:El; [|done].
  destruct (ehlo_lines exts) as [ls|]; [|done]. intros [= <-]. cbn [parse_ehlo_lines].
  by rewrite (parse_ehlo_line_printed _ _ El), (IH ls eq_refl).
Qed.

(** the capabilities a server advertises are the capabilities the client sees: parsing the
    lines of an encoded EHLO reply gives back its domain, its greeting and every extension, with
    the keyword in upper case. *)
Theorem EHLO_roundtrip `{Unicode} reply out limits tail fin :
  EncodeEHLOReply reply = Ok out ->
  (forall lines, ehlo_reply_lines reply = Ok lines -> fits (withDefaults limits) lines) ->
  exists lines,
    ReadReply {| unread := out ++ tail; final := fin |} limits =
      Some (Ok {| Code := 250; Lines := lines; Text := Join lines [LF] |},
            {| unread := tail; final := fin |}) /\
    ParseEHLOReply lines =
      Ok {| EDomain := EDomain reply; EGreeting := EGreeting reply;
            EExtensions := map canonical_ext (EExtensions reply) |}.
Proof.
  unfold EncodeEHLOReply. destruct (ehlo_reply_lines reply) as [lines|] eqn:EL; [|done].
  intros EO HF. specialize (HF _ eq_refl). exists lines.
  unfold ehlo_reply_lines in EL.
  destruct (beq (EDomain reply) [] || _ || _) eqn:HD; [done|].
  destruct (ehlo_lines (EExtensions reply)) as [ls|] eqn:Els; [|done]. injection EL as <-.
  split.
  - by apply (read_encoded _ _ out _ limits tail fin EO).
  - apply orb_false_iff in HD as [[_ HD]%orb_false_iff _].
    apply (ContainsAny_no_byte SP) in HD; [|done]. unfold ParseEHLOReply.
    rewrite (parse_ehlo_lines_printed _ _ Els).
    destruct (EGreeting reply); [by rewrite app_nil_r, Cut_no|by rewrite Cut_app].
Qed.

Lemma EHLO_roundtrip_witness :
  exists lines,
    ReadReply {| unread := $"250-mx hi" ++ CRLF ++ $"250 size 10" ++ CRLF ++ $"x"; final := EOF |} ZeroLimits =
      Some (Ok {| Code := 250; Lines := lines; Text := Join lines [LF] |},
            {| unread := $"x"; final := EOF |}) /\
    @ParseEHLOReply ascii_only_unicode lines =
      Ok {| EDomain := $"mx"; EGreeting := $"hi";
            EExtensions := [{| ExtKeyword := $"SIZE"; ExtParams := [$"10"]; ExtRaw := $"10" |}] |}.
Proof.
  refine (@EHLO_roundtrip ascii_only_unicode {| EDomain := $"mx"; EGreeting := $"hi";
    EExtensions := [{| ExtKeyword := $"size"; ExtParams := [$"10"]; ExtRaw := [] |}] |}
    ($"250-mx hi" ++ CRLF ++ $"250 size 10" ++ CRLF) ZeroLimits ($"x") EOF _ _).
  - vm_compute. reflexivity.
  - intros lines E. vm_compute in E. injection E as <-.
    split_and!; try (vm_compute; congruence). repeat constructor; vm_compute; congruence.
Defined.

(** the Received field is one header line: CR and LF occur only in its final CRLF, so neither
    the peer's greeting name, the message id nor the recipient can inject another header (given a
    rendered timestamp without line breaks); and the FOR clause is disclosed only for a sole
    recipient. *)
Theorem FormatReceived_one_line o out :
  FormatReceived o = Ok out ->
  (forall stamp, Timestamp o = Some stamp -> ContainsAny stamp line_breaks = false) ->
  (exists line, out = line ++ CRLF /\ no_byte LF line = true /\ no_byte CR line = true) /\
  (RecipientCount o <> 1 -> received_for o = Ok []).
Proof.
  unfold FormatReceived. destruct (Timestamp o) as [stamp|] eqn:ET; [|done].
  destruct (beq (From o) [] || _ || _); [done|].
  destruct (existsb _ [From o; By o; ID o; For o]) eqn:EB; [done|].
  destruct (receivedProtocol o) as [w|] eqn:EW; [|done].
  destruct (received_for o) as [f|] eqn:EF; [|done]. intros [= <-] HS. specialize (HS _ eq_refl).
  cbn [existsb] in EB. rewrite !orb_false_iff in EB. destruct EB as (B1 & B2 & B3 & B4 & _).
  assert (forall c, mem_byte c line_breaks = true ->
    no_byte c w = true /\ no_byte c f = true /\ no_byte c (match ID o with [] => [] | id => $" id " ++ id end) = true)
    as Parts.
  { intros c Hc. split_and!.
    - apply (ContainsAny_no_byte c w line_breaks); [|done]. unfold receivedProtocol in EW.
      by destruct (LMTP o), (Extended o), (TLS o), (Authenticated o); simplify_eq/=.
    - unfold received_for in EF. apply (ContainsAny_no_byte c) in B4; [|done].
      destruct (_ && _); [|by injection EF as <-]. destruct (_ || _); [done|].
      assert (f = $" for " ++ For o) as -> by congruence. unfold no_byte in *. rewrite forallb_app_eq, B4.
      rewrite andb_true_r. by apply (ContainsAny_no_byte c ($" for ") line_breaks).
    - apply (ContainsAny_no_byte c) in B3; [|done]. destruct (ID o); [done|].
      unfold no_byte in *. rewrite forallb_app_eq, B3, andb_true_r.
      by apply (ContainsAny_no_byte c ($" id ") line_breaks). }
  split.
  - exists ($"Received: from " ++ From o ++ $" by " ++ By o ++ $" with " ++ w
            ++ (match ID o with [] => [] | id => $" id " ++ id end) ++ f ++ $"; " ++ stamp).
    split; [by rewrite <- ?app_assoc; repeat (f_equal; rewrite <- ?app_assoc)|].
    assert (forall c, mem_byte c line_breaks = true ->
      no_byte c ($"Received: from " ++ From o ++ $" by " ++ By o ++ $" with " ++ w
            ++ (match ID o with [] => [] | id => $" id " ++ id end) ++ f ++ $"; " ++ stamp) = true) as All.
    { intros c Hc. destruct (Parts c Hc) as (P1 & P2 & P3). unfold no_byte in *.
      rewrite !forallb_app_eq, P1, P2, P3.
      assert (forall l, ContainsAny l line_breaks = false -> forallb (fun d => negb (d =b c)) l = true) as L
        by (intros l Hl; by apply (ContainsAny_no_byte c l line_breaks)).
      by rewrite !L. }
    split; by apply All.
  - intros Hn. rewrite <- EF. unfold received_for. by destruct (Z.eqb_spec (RecipientCount o) 1).
Qed.

Definition sample_received : ReceivedOptions :=
  {| From := $"a"; By := $"b"; Extended := true; LMTP := false; TLS := true; Authenticated := false;
     ID := $"7"; For := $"<x@y>"; RecipientCount := 2; Timestamp := Some ($"Mon, 02 Jan 2006") |}.

Lemma FormatReceived_one_line_witness :
  (exists line, $"Received: from a by b with ESMTPS id 7; Mon, 02 Jan 2006" ++ CRLF = line ++ CRLF /\
    no_byte LF line = true /\ no_byte CR line = true) /\
  (RecipientCount sample_received <> 1 -> received_for sample_received = Ok []).
Proof.
  apply (FormatReceived_one_line sample_received); [reflexivity|].
  intros stamp E. vm_compute in E. injection E as <-. reflexivity.
Defined.
