(* ===== verification/Extensions.v ===== *)
(** * Package smtp: the named extensions

    extension.go: the keywords the library names. A keyword is compared with [==], so what the client's
    parser of the EHLO reply delivers has to be exactly one of them. *)
From Stdlib Require Import ZArith Lia Bool.
From stdpp Require Import base list gmap strings.
From S2P Require Import Prelude GoStrings Wire Ehlo.

Definition ExtStartTLS : bytes := $"STARTTLS".
Definition ExtPipelining : bytes := $"PIPELINING".
Definition ExtEnhancedStatusCodes : bytes := $"ENHANCEDSTATUSCODES".
Definition ExtAuth : bytes := $"AUTH".
Definition ExtSize : bytes := $"SIZE".
Definition Ext8BitMIME : bytes := $"8BITMIME".
Definition ExtSMTPUTF8 : bytes := $"SMTPUTF8".
Definition ExtChunking : bytes := $"CHUNKING".
Definition ExtBinaryMIME : bytes := $"BINARYMIME".
Definition ExtUTF8SMTP : bytes := $"UTF8SMTP".
Definition ExtDSN : bytes := $"DSN".
Definition ExtDeliverBy : bytes := $"DELIVERBY".
Definition ExtFutureRelease : bytes := $"FUTURERELEASE".
Definition ExtMTPriority : bytes := $"MT-PRIORITY".
Definition ExtRRVS : bytes := $"RRVS".
Definition ExtRequireTLS : bytes := $"REQUIRETLS".
Definition ExtLimits : bytes := $"LIMITS".
Definition ExtBURL : bytes := $"BURL".
Definition ExtETRN : bytes := $"ETRN".
Definition ExtATRN : bytes := $"ATRN".
Definition ExtNoSoliciting : bytes := $"NO-SOLICITING".
Definition ExtMTRK : bytes := $"MTRK".
Definition ExtSubmitter : bytes := $"SUBMITTER".
Definition ExtConPerm : bytes := $"CONPERM".
Definition ExtConNeg : bytes := $"CONNEG".
Definition ExtCheckpoint : bytes := $"CHECKPOINT".
Definition ExtVerb : bytes := $"VERB".
Definition ExtOnex : bytes := $"ONEX".
Definition ExtSend : bytes := $"SEND".
Definition ExtSoml : bytes := $"SOML".
Definition ExtSaml : bytes := $"SAML".
Definition ExtTurn : bytes := $"TURN".

Definition named_extensions : list bytes :=
  [ExtStartTLS; ExtPipelining; ExtEnhancedStatusCodes; ExtAuth;
   ExtSize; Ext8BitMIME; ExtSMTPUTF8; ExtChunking; ExtBinaryMIME; ExtUTF8SMTP;
   ExtDSN; ExtDeliverBy; ExtFutureRelease; ExtMTPriority; ExtRRVS; ExtRequireTLS; ExtLimits; ExtBURL;
   ExtETRN; ExtATRN; ExtNoSoliciting; ExtMTRK; ExtSubmitter; ExtConPerm; ExtConNeg; ExtCheckpoint; ExtVerb;
   ExtOnex; ExtSend; ExtSoml; ExtSaml; ExtTurn].

(** Different names, all valid ehlo-keywords in upper case: a server can advertise each of them. *)
Lemma named_extensions_wf :
  NoDup named_extensions /\
  Forall (fun kw => validateKeyword kw = None /\ map ascii_upper kw = kw) named_extensions.
Proof. split; [apply (bool_decide_unpack _); vm_compute; exact I|repeat constructor]. Qed.

Lemma upper_keyword kw spelled : validateKeyword kw = None -> map ascii_upper spelled = kw ->
  is_ascii spelled = true /\ no_byte SP spelled = true /\ spelled <> [].
Proof.
  intros V E. destruct (validateKeyword_None kw V) as [N F]. subst kw.
  assert (forallb (fun c => is_graph (ascii_upper c)) spelled = true) as G.
  { revert F. rewrite !forallb_forall. intros F c I. apply keyword_byte_graph, F, in_map, I. }
  split_and!; [revert G; apply forallb_mono; intros c; destruct c; vm_compute; done|
    revert G; apply forallb_mono; intros c; destruct c; vm_compute; done|by intros ->].
Qed.

(** However a server spells a named keyword, the parser of the EHLO reply delivers the constant, with
    the parameters as they were sent. *)
Theorem named_extension_recognized `{Unicode} kw spelled raw :
  In kw named_extensions -> map ascii_upper spelled = kw ->
  parse_ehlo_line spelled = Ok {| ExtKeyword := kw; ExtParams := []; ExtRaw := [] |} /\
  parse_ehlo_line (spelled ++ SP :: raw) = Ok {| ExtKeyword := kw; ExtParams := Fields raw; ExtRaw := raw |}.
Proof.
  intros I E. destruct named_extensions_wf as [_ W]. rewrite List.Forall_forall in W. destruct (W kw I) as [V _].
  destruct (upper_keyword kw spelled V E) as (A & S & N). unfold parse_ehlo_line.
  rewrite Cut_no, Cut_app by done. rewrite ToUpper_ascii, E by done. by destruct spelled.
Qed.

Lemma named_extension_recognized_witness :
  @parse_ehlo_line ascii_only_unicode ($"Size") = Ok {| ExtKeyword := ExtSize; ExtParams := []; ExtRaw := [] |} /\
  @parse_ehlo_line ascii_only_unicode ($"Size 1000") =
    Ok {| ExtKeyword := ExtSize; ExtParams := [$"1000"]; ExtRaw := $"1000" |}.
Proof.
  apply (@named_extension_recognized ascii_only_unicode ExtSize ($"Size") ($"1000")); [|reflexivity].
  do 4 right. left. reflexivity.
Defined.
