(* ===== verification/Core.v ===== *)
(** * Package smtp (the repository root): the vocabulary shared by client and server

    enhanced_code.go, error.go, result.go, limits.go, param.go and xtext.go. [Module smtp] plays the
    part of the Go package: its [EnhancedCode], [Error] and [EncodeXtext] are distinct from those of
    internal/smtpwire, as in the source. *)
From Stdlib Require Import ZArith Lia Bool.
From stdpp Require Import base list gmap strings.
From S2P Require Import Prelude GoStrings Wire Reply Command.

Module smtp.

(** ** enhanced_code.go *)

Record EnhancedCode : Type := { Class : Z; Subject : Z; Detail : Z; Raw : bytes }.

Definition parseDigits (s : bytes) : option Z :=
  match s with
  | [] => None
  | _ => if forallb is_digit s then Atoi s else None
  end.

Definition ParseEnhancedCode (raw : bytes) : EnhancedCode :=
  let c := {| Class := 0; Subject := 0; Detail := 0; Raw := raw |} in
  match Split raw "."%byte with
  | [s0; s1; s2] =>
      match parseDigits s0, parseDigits s1, parseDigits s2 with
      | Some class, Some subject, Some detail =>
          {| Class := class; Subject := subject; Detail := detail; Raw := raw |}
      | _, _, _ => c
      end
  | _ => c
  end.

Definition Valid (c : EnhancedCode) : bool := (Class c =? 2) || (Class c =? 4) || (Class c =? 5).

Definition String (c : EnhancedCode) : bytes :=
  if negb (beq (Raw c) []) then Raw c
  else if (Class c =? 0) && (Subject c =? 0) && (Detail c =? 0) then []
  else Itoa (Class c) ++ $"." ++ Itoa (Subject c) ++ $"." ++ Itoa (Detail c).

Definition ZeroEnhanced : EnhancedCode := {| Class := 0; Subject := 0; Detail := 0; Raw := [] |}.

(** ** error.go *)

(** [Err] is the cause's own message, when there is a cause. *)
Record Error : Type := {
  Code : Z;
  Enhanced : EnhancedCode;
  Text : bytes;
  Command : bytes;
  Cause : option bytes
}.

(** [if body.Len() > 0 { body.WriteString(sep) }; body.WriteString(s)] *)
Definition append_part (body sep s : bytes) : bytes :=
  (match body with [] => [] | _ => body ++ sep end) ++ s.

Definition error_body (e : Error) : bytes :=
  let b0 := if Code e =? 0 then [] else Itoa (Code e) in
  let b1 :=
    if negb (beq (Raw (Enhanced e)) []) then append_part b0 [SP] (Raw (Enhanced e))
    else if Valid (Enhanced e) then append_part b0 [SP] (String (Enhanced e))
    else b0 in
  let b2 := if beq (Text e) [] then b1 else append_part b1 [SP] (Text e) in
  match Cause e with
  | None => b2
  | Some cause => append_part b2 ($": ") cause
  end.

Definition Error_string (e : Error) : bytes :=
  let body := error_body e in
  match Command e, body with
  | [], [] => $"smtp: error"
  | [], _ => body
  | cmd, [] => cmd ++ $": smtp: error"
  | cmd, _ => cmd ++ $": " ++ body
  end.

Definition IsTransient (e : Error) : bool := (400 <=? Code e) && (Code e <? 500).
Definition IsPermanent (e : Error) : bool := (500 <=? Code e) && (Code e <? 600).

(** ** result.go *)

Record RecipientResult : Type := {
  RRecipient : bytes;
  RCommand : bytes;
  RCode : Z;
  REnhanced : EnhancedCode;
  RText : bytes
}.

Definition Accepted (r : RecipientResult) : bool := (200 <=? RCode r) && (RCode r <? 300).

Definition Err_of (r : RecipientResult) : option Error :=
  if Accepted r then None
  else Some {| Code := RCode r; Enhanced := REnhanced r; Text := RText r; Command := RCommand r;
               Cause := None |}.

(** The same for [RcptResult] and [DataResult]. *)
Definition AllAccepted (d : list RecipientResult) : bool :=
  match d with
  | [] => false
  | _ => negb (existsb (fun r => negb (Accepted r)) d)
  end.

Fixpoint Errors (d : list RecipientResult) : list Error :=
  match d with
  | [] => []
  | r :: d' => match Err_of r with Some e => e :: Errors d' | None => Errors d' end
  end.

(** ** limits.go *)

Record Limits : Type := { MailMax : Z; RcptMax : Z; RcptDomainMax : Z; Extra : bytes }.

Definition limit_name_char (c : Z) : bool :=
  ((65 <=? c) && (c <=? 90)) || ((97 <=? c) && (c <=? 122)) || ((48 <=? c) && (c <=? 57))
  || (c =? 45) || (c =? 95).

Definition validLimitName (name : bytes) : bool :=
  match name with [] => false | _ => forallb (fun '(c, _) => limit_name_char c) (runes name) end.

Definition limit_value_char (c : Z) : bool :=
  ((33 <=? c) && (c <=? 58)) || ((60 <=? c) && (c <=? 126)).

Definition validLimitValue (value : bytes) : bool :=
  match value with [] => false | _ => forallb (fun '(c, _) => limit_value_char c) (runes value) end.

Definition parseLimit (s : bytes) : Z :=
  if beq s [] || (6 <? Z.of_nat (length s)) || HasPrefix s ($"0") then 0
  else match ParseUint s MaxUint32 with Some n => n | None => 0 end.

(** One field of the LIMITS parameter folded into the result. *)
Definition parse_limit_field `{Unicode} (res : Limits) (field : bytes) : option Limits :=
  let '(name, value, hasValue) := Cut field "="%byte in
  if negb (validLimitName name) || (hasValue && negb (validLimitValue value)) then None
  else
    let n := if hasValue then parseLimit value else 0 in
    let set old := if n =? 0 then old else n in
    Some (
      if beq (ToUpper name) ($"MAILMAX") then
        {| MailMax := set (MailMax res); RcptMax := RcptMax res;
           RcptDomainMax := RcptDomainMax res; Extra := Extra res |}
      else if beq (ToUpper name) ($"RCPTMAX") then
        {| MailMax := MailMax res; RcptMax := set (RcptMax res);
           RcptDomainMax := RcptDomainMax res; Extra := Extra res |}
      else if beq (ToUpper name) ($"RCPTDOMAINMAX") then
        {| MailMax := MailMax res; RcptMax := RcptMax res;
           RcptDomainMax := set (RcptDomainMax res); Extra := Extra res |}
      else
        {| MailMax := MailMax res; RcptMax := RcptMax res; RcptDomainMax := RcptDomainMax res;
           Extra := append_part (Extra res) [SP] field |}).

Fixpoint parse_limit_fields `{Unicode} (res : Limits) (fields : list bytes) : option Limits :=
  match fields with
  | [] => Some res
  | f :: fields' =>
      match parse_limit_field res f with
      | Some res' => parse_limit_fields res' fields'
      | None => None
      end
  end.

Definition ZeroLimits : Limits := {| MailMax := 0; RcptMax := 0; RcptDomainMax := 0; Extra := [] |}.

(** [None] is the error "invalid LIMITS parameter". *)
Definition ParseLimitsParam `{Unicode} (params : bytes) : option Limits :=
  match params with
  | [] => Some ZeroLimits
  | _ =>
      let fields := Fields params in
      if negb (beq (Join fields [SP]) params) then None
      else parse_limit_fields ZeroLimits fields
  end.

(** ** param.go, xtext.go *)

Record Param : Type := { Keyword : bytes; Value : bytes }.

Definition xtextHexDigits : bytes := $"0123456789ABCDEF".

(** The loop of [EncodeXtext]: the builder's contents so far and the bytes still to encode. *)
Fixpoint encode_xtext (b raw : bytes) : bytes :=
  match raw with
  | [] => b
  | c :: raw' =>
      if (c =b "+"%byte) || (c =b "="%byte) || (bz c <? 33) || (126 <? bz c) then
        encode_xtext (b ++ ["+"%byte; nth (Z.to_nat (Z.shiftr (bz c) 4)) xtextHexDigits x00;
                            nth (Z.to_nat (Z.land (bz c) 15)) xtextHexDigits x00]) raw'
      else encode_xtext (b ++ [c]) raw'
  end.

Definition EncodeXtext (raw : bytes) : bytes := encode_xtext [] raw.

End smtp.

(** ** Lemmas and theorems *)
Module CoreFacts.
Import smtp.

Lemma encode_xtext_app raw b : encode_xtext b raw = b ++ Wire.EncodeXtext raw.
Proof.
  revert b. induction raw as [|c raw IH]; intros b; cbn [encode_xtext]; [by rewrite app_nil_r|].
  change (Wire.EncodeXtext (c :: raw)) with (EncodeXtext_byte c ++ Wire.EncodeXtext raw).
  unfold EncodeXtext_byte, hex_at. destruct (_ || _); rewrite IH, <- app_assoc; done.
Qed.

(** the two xtext encoders, package smtp's and the wire package's, encode every string alike:
    the duplication the package layout forces does not drift. *)
Theorem EncodeXtext_agree raw : smtp.EncodeXtext raw = Wire.EncodeXtext raw.
Proof. apply encode_xtext_app. Qed.

Lemma parseDigits_Itoa n : 0 <= n <= MaxInt64 -> parseDigits (Itoa n) = Some n.
Proof.
  intros H. unfold parseDigits, Itoa, FormatInt. destruct (Z.ltb_spec n 0); [lia|].
  pose proof (FormatUint_digits n ltac:(lia)) as D. rewrite D.
  pose proof (ParseUint_FormatUint n MaxInt64 H) as P.
  unfold Atoi, ParseInt. pose proof (FormatUint_nonempty n) as N.
  destruct (FormatUint n) as [|c s] eqn:E; [done|]. cbn in D. apply andb_true_iff in D as [D _].
  unfold is_digit, in_range in D.
  destruct (byte_eqb_spec c "-"%byte) as [->|]; [done|]. by destruct (byte_eqb_spec c "+"%byte) as [->|].
Qed.

Lemma Itoa_no_dot n : 0 <= n -> no_byte "."%byte (Itoa n) = true.
Proof. intros H. by apply digits_no_byte, Itoa_digits. Qed.

Lemma ParseEnhancedCode_dotted a b c s0 s1 s2 :
  parseDigits s0 = Some a -> parseDigits s1 = Some b -> parseDigits s2 = Some c ->
  no_byte "."%byte s0 = true -> no_byte "."%byte s1 = true -> no_byte "."%byte s2 = true ->
  let raw := s0 ++ $"." ++ s1 ++ $"." ++ s2 in
  ParseEnhancedCode raw = {| Class := a; Subject := b; Detail := c; Raw := raw |}.
Proof.
  intros H0 H1 H2 N0 N1 N2 raw. unfold ParseEnhancedCode, raw.
  change (s0 ++ $"." ++ s1 ++ $"." ++ s2) with (s0 ++ "."%byte :: s1 ++ "."%byte :: s2).
  rewrite (Split_app _ _ _ N0), (Split_app _ _ _ N1), (Split_no _ _ N2). by rewrite H0, H1, H2.
Qed.

(** enhanced codes survive both directions: printing a parsed code gives back the wire text,
    and parsing a printed code gives back its three numbers. *)
Theorem EnhancedCode_roundtrip raw c :
  String (ParseEnhancedCode raw) = raw /\
  (Raw c = [] -> 0 <= Class c <= MaxInt64 -> 0 <= Subject c <= MaxInt64 ->
   0 <= Detail c <= MaxInt64 -> c <> ZeroEnhanced ->
   let c' := ParseEnhancedCode (String c) in
   Class c' = Class c /\ Subject c' = Subject c /\ Detail c' = Detail c /\ Raw c' = String c).
Proof.
  split.
  - assert (Raw (ParseEnhancedCode raw) = raw) as E by (unfold ParseEnhancedCode; by repeat case_match).
    unfold String. destruct raw as [|x raw].
    + reflexivity.
    + by rewrite E.
  - destruct c as [a b d r]. cbn [Class Subject Detail Raw]. intros -> Ha Hb Hd Hz.
    unfold String. cbn [Class Subject Detail Raw beq negb].
    destruct ((a =? 0) && (b =? 0) && (d =? 0)) eqn:E.
    + exfalso. apply Hz. unfold ZeroEnhanced. f_equal; lia.
    + rewrite (ParseEnhancedCode_dotted a b d) by (try apply parseDigits_Itoa; try apply Itoa_no_dot; lia).
      done.
Qed.

Lemma EnhancedCode_roundtrip_witness :
  String (ParseEnhancedCode ($"5.x")) = $"5.x" /\
  let c' := ParseEnhancedCode ($"5.7.1") in
  Class c' = 5 /\ Subject c' = 7 /\ Detail c' = 1 /\ Raw c' = $"5.7.1".
Proof.
  destruct (EnhancedCode_roundtrip ($"5.x") {| Class := 5; Subject := 7; Detail := 1; Raw := [] |}) as [A B].
  split; [exact A|]. apply B; unfold MaxInt64; cbn; try lia; done.
Defined.

(** *** The strict extractor and the permissive parser *)

Lemma scan_digits_inv k s v i v' i' r :
  scan_digits k s v i = (v', i', r) ->
  exists ds, s = ds ++ r /\ forallb is_digit ds = true /\ i' = (i + length ds)%nat /\
    v' = fold_left (fun acc c => acc * 10 + (bz c - 48)) ds v /\ (length ds <= k)%nat.
Proof.
  revert s v i. induction k as [|k IH]; intros [|c s] v i; cbn [scan_digits];
    try (intros; simplify_eq; exists []; cbn; split_and!; (done || lia)).
  destruct (is_digit c) eqn:Hc.
  - intros (ds & -> & D & -> & -> & L)%IH. exists (c :: ds). cbn. rewrite Hc, D.
    split_and!; (done || lia).
  - intros; simplify_eq. exists []. cbn. split_and!; (done || lia).
Qed.

Lemma fold_dec_bound ds v :
  forallb is_digit ds = true -> 0 <= v ->
  0 <= fold_left (fun acc c => acc * 10 + (bz c - 48)) ds v < (v + 1) * 10 ^ Z.of_nat (length ds).
Proof.
  revert v. induction ds as [|c ds IH]; intros v; cbn [forallb fold_left length]; [lia|].
  intros [Hc Hd]%andb_true_iff Hv. unfold is_digit, in_range in Hc. bz_consts.
  specialize (IH (v * 10 + (bz c - 48)) Hd ltac:(lia)).
  rewrite Nat2Z.inj_succ, Z.pow_succ_r by lia. nia.
Qed.

Lemma scanUpTo3Digits_inv s v i :
  scanUpTo3Digits s = Some (v, i) ->
  parseDigits (take i s) = Some v /\ forallb is_digit (take i s) = true /\ (i <= length s)%nat.
Proof.
  unfold scanUpTo3Digits. destruct (scan_digits 3 s 0 0) as [[v0 i0] r] eqn:E.
  apply scan_digits_inv in E as (ds & -> & D & -> & -> & L). cbn [Nat.add].
  destruct ds as [|d ds]; [done|]. set (l := d :: ds) in *. intros H.
  assert (v = fold_left (fun acc c => acc * 10 + (bz c - 48)) l 0 /\ i = length l) as [-> ->].
  { cbn [length] in H. repeat case_match; by simplify_eq. }
  rewrite take_app_length, length_app. split_and!; [|done|lia].
  unfold parseDigits, l at 1. fold l. rewrite D.
  pose proof (fold_dec_bound l 0 D ltac:(lia)) as B.
  assert (10 ^ Z.of_nat (length l) <= 10 ^ 3) as B' by (apply Z.pow_le_mono_r; lia).
  change (10 ^ 3) with 1000 in B'.
  unfold Atoi, ParseInt, l at 1. fold l.
  assert (ParseUint l MaxInt64 = Some (fold_left (fun acc c => acc * 10 + (bz c - 48)) l 0)) as P.
  { unfold ParseUint, l at 1. fold l. rewrite D.
    change (dec_value l) with (fold_left (fun acc c => acc * 10 + (bz c - 48)) l 0).
    destruct (Z.leb_spec (fold_left (fun acc c => acc * 10 + (bz c - 48)) l 0) MaxInt64); [done|].
    unfold MaxInt64 in *. lia. }
  cbn in D. apply andb_true_iff in D as [Dd _]. unfold is_digit, in_range in Dd.
  destruct (byte_eqb_spec d "-"%byte) as [->|]; [done|]. by destruct (byte_eqb_spec d "+"%byte) as [->|].
Qed.

(** whatever the wire-side extractor recognises at the start of a reply text is parsed to the
    same class, subject and detail by [ParseEnhancedCode], its class is valid, and the text is the
    code, then nothing or a space and the remainder. *)
Theorem Extract_Parse_agree text code rest :
  ExtractEnhancedCode text = Some (code, rest) ->
  let c := ParseEnhancedCode (Reply.Raw code) in
  Class c = Reply.Class code /\ Subject c = Reply.Subject code /\ Detail c = Reply.Detail code /\
  Valid c = true /\ (text = Reply.Raw code /\ rest = [] \/ text = Reply.Raw code ++ SP :: rest).
Proof.
  unfold ExtractEnhancedCode. destruct text as [|c0 [|dot0 t1]]; try done.
  destruct (_ || _ || _) eqn:Hc0; [|done]. cbn [negb].
  destruct (byte_eqb_spec dot0 "."%byte) as [->|]; [|done]. cbn [negb].
  destruct (scanUpTo3Digits t1) as [[s i1]|] eqn:E1; [|done].
  destruct (drop i1 t1) as [|dot1 t2] eqn:D1; [done|].
  destruct (byte_eqb_spec dot1 "."%byte) as [->|]; [|done]. cbn [negb].
  destruct (scanUpTo3Digits t2) as [[d i2]|] eqn:E2; [|done].
  apply scanUpTo3Digits_inv in E1 as (P1 & N1 & L1), E2 as (P2 & N2 & L2).
  set (f1 := take i1 t1) in *. set (f2 := take i2 t2) in *.
  assert (t1 = f1 ++ "."%byte :: t2) as Et1 by (rewrite <- D1; unfold f1; by rewrite take_drop).
  assert (length f1 = i1) as Lf1 by (unfold f1; rewrite length_take; lia).
  assert (length f2 = i2) as Lf2 by (unfold f2; rewrite length_take; lia).
  set (raw := [c0] ++ $"." ++ f1 ++ $"." ++ f2).
  assert (forall r, t2 = f2 ++ r -> c0 :: "."%byte :: t1 = raw ++ r /\
    take (2 + i1 + 1 + i2) (c0 :: "."%byte :: t1) = raw) as Raw_take.
  { intros r Er. assert (c0 :: "."%byte :: t1 = raw ++ r) as Eq.
    { rewrite Et1, Er. unfold raw. cbn. rewrite <- !app_assoc. cbn. by rewrite <- ?app_assoc. }
    split; [done|]. rewrite Eq. replace (2 + i1 + 1 + i2)%nat with (length raw).
    - apply take_app_length.
    - unfold raw. rewrite !length_app. cbn [length]. lia. }
  assert (parseDigits [c0] = Some (bz c0 - 48) /\ no_byte "."%byte [c0] = true /\
    ((bz c0 - 48 =? 2) || (bz c0 - 48 =? 4) || (bz c0 - 48 =? 5)) = true) as (P0 & N0 & V0).
  { apply orb_true_iff in Hc0 as [Hc0|Hc0]; [apply orb_true_iff in Hc0 as [Hc0|Hc0]|];
      apply Byte.byte_dec_bl in Hc0; subst c0; by split_and!. }
  assert (ParseEnhancedCode raw = {| Class := bz c0 - 48; Subject := s; Detail := d; Raw := raw |}) as PE.
  { apply ParseEnhancedCode_dotted; try done; by apply digits_no_byte. }
  destruct (drop i2 t2) as [|c r] eqn:D2.
  - destruct (Raw_take []) as [Eq Tk]; [rewrite <- D2; unfold f2; by rewrite take_drop|].
    intros; simplify_eq. cbn [Reply.Raw Reply.Class Reply.Subject Reply.Detail].
    rewrite Tk, PE. split_and!; try done. left. by rewrite app_nil_r in Eq.
  - destruct (Raw_take (c :: r)) as [Eq Tk]; [rewrite <- D2; unfold f2; by rewrite take_drop|].
    destruct (byte_eqb_spec c SP) as [->|]; [|done].
    intros; simplify_eq. cbn [Reply.Raw Reply.Class Reply.Subject Reply.Detail].
    rewrite Tk, PE. split_and!; try done. by right.
Qed.

Lemma Extract_Parse_agree_witness :
  let c := ParseEnhancedCode ($"4.2.0") in
  Class c = 4 /\ Subject c = 2 /\ Detail c = 0 /\ Valid c = true /\
  ($"4.2.0 later" = $"4.2.0" /\ $"later" = [] \/ $"4.2.0 later" = $"4.2.0" ++ SP :: $"later").
Proof.
  refine (Extract_Parse_agree ($"4.2.0 later")
    {| Reply.Class := 4; Reply.Subject := 2; Reply.Detail := 0; Reply.Raw := $"4.2.0" |} ($"later") _).
  reflexivity.
Defined.

(** *** Results *)

(** the result collection is consistent: [Errors] lists exactly the rejected recipients in
    order, a result is all accepted exactly when it is non-empty and has no errors, and the classes
    accepted, transient and permanent exclude each other. *)
Theorem Results_consistent d :
  Errors d = omap Err_of d /\
  (AllAccepted d = true <-> d <> [] /\ Errors d = []) /\
  Forall (fun e => (200 <=? Code e) && (Code e <? 300) = false /\
                   IsTransient e && IsPermanent e = false) (Errors d).
Proof.
  split_and!.
  - induction d as [|r d IH]; [done|]. cbn. rewrite IH. by destruct (Err_of r).
  - assert (forall d, existsb (fun r => negb (Accepted r)) d = false <-> Errors d = []) as E.
    { clear d. induction d as [|r d IH]; [done|]. cbn. unfold Err_of. destruct (Accepted r); cbn; [done|].
      by split. }
    unfold AllAccepted. destruct d as [|r d]; [by split; [|intros [? _]]|].
    rewrite negb_true_iff, E. naive_solver.
  - induction d as [|r d IH]; [done|]. cbn. unfold Err_of. destruct (Accepted r) eqn:A; [done|].
    constructor; [|done]. split; [done|]. unfold IsTransient, IsPermanent. cbn. lia.
Qed.

End CoreFacts.
