(* ===== verification/Spool.v ===== *)
(** * smtpserver/spool.go: the CHUNKING spool and its accounting

    A [spool] holds the octets of one BDAT transaction, in memory up to a bound and then in an
    unlinked temporary file; the [spoolManager] of a Server bounds what all live spools hold
    together. The operating system is the environment: [os_env] says, for one operation, whether the
    temporary file can be created, whether the memory prefix can be written to it, and how many
    bytes a failing write accepts. Mutex-protected methods are functions on the manager and the
    spool; a Server's spools are a list, and [spool_step] is one operation on any one of them. *)
From Stdlib Require Import ZArith Lia Bool.
From stdpp Require Import base list gmap strings.
From S2P Require Import Prelude GoStrings Wire.

Inductive spool_err : Type :=
| errSpoolMessageTooLarge | errSpoolTotalExhausted | errSpoolMemoryExhausted
| errSpoolConcurrentExhausted
| errSpoolClosed | errSpoolCreate | errSpoolSpill | errSpoolWrite.

#[global] Instance spool_err_eq_dec : EqDecision spool_err.
Proof. solve_decision. Defined.

Record spoolOptions : Type := {
  MaxBytes : Z;
  MaxMemoryBytes : Z;
  MaxTotalBytes : Z;
  MaxTotalMemoryBytes : Z;
  MaxConcurrent : Z
}.

Record spoolManager : Type := {
  opts : spoolOptions;
  total : Z;
  totalMemory : Z;
  concurrent : Z
}.

(** The problems [newSpoolManager] collects; the manager when there are none. *)
Definition spool_problems (o : spoolOptions) : list bytes :=
  (if MaxBytes o <=? 0 then [$"MaxBytes must be positive"] else []) ++
  (if MaxMemoryBytes o <=? 0 then [$"MaxMemoryBytes must be positive"] else []) ++
  (if MaxTotalBytes o <=? 0 then [$"MaxTotalBytes must be positive"] else []) ++
  (if MaxTotalMemoryBytes o <=? 0 then [$"MaxTotalMemoryBytes must be positive"] else []) ++
  (if MaxConcurrent o <=? 0 then [$"MaxConcurrent must be positive"] else []).

Definition joinProblems (problems : list bytes) : bytes := Join problems ($"; ").

Definition newSpoolManager (o : spoolOptions) : result bytes spoolManager :=
  match spool_problems o with
  | [] => Ok {| opts := o; total := 0; totalMemory := 0; concurrent := 0 |}
  | problems => Err ($"smtpserver: invalid spool options: " ++ joinProblems problems)
  end.

Definition set_usage (m : spoolManager) (t tm c : Z) : spoolManager :=
  {| opts := opts m; total := t; totalMemory := tm; concurrent := c |}.

Definition reserve (m : spoolManager) (t mem : Z) : spoolManager * option spool_err :=
  if MaxTotalBytes (opts m) - total m <? t then (m, Some errSpoolTotalExhausted)
  else if MaxTotalMemoryBytes (opts m) - totalMemory m <? mem then (m, Some errSpoolMemoryExhausted)
  else (set_usage m (total m + t) (totalMemory m + mem) (concurrent m), None).

Definition release (m : spoolManager) (t mem : Z) : spoolManager :=
  set_usage m (total m - t) (totalMemory m - mem) (concurrent m).

Definition releaseSpool (m : spoolManager) (t mem : Z) : spoolManager :=
  set_usage m (total m - t) (totalMemory m - mem) (concurrent m - 1).

Definition usage (m : spoolManager) : Z * Z * Z := (total m, totalMemory m, concurrent m).

Record spool : Type := {
  memory : bytes;
  file : option bytes;
  size : Z;
  reserved : Z;
  reservedMemory : Z;
  closed : bool
}.

Definition empty_spool : spool :=
  {| memory := []; file := None; size := 0; reserved := 0; reservedMemory := 0; closed := false |}.

Definition newSpool (m : spoolManager) : result spool_err (spoolManager * spool) :=
  if MaxConcurrent (opts m) <=? concurrent m then Err errSpoolConcurrentExhausted
  else Ok (set_usage m (total m) (totalMemory m) (concurrent m + 1), empty_spool).

Record os_env : Type := {
  create_ok : bool;
  spill_ok : bool;
  short_write : option nat
}.

(** An operating system on which everything works. *)
Definition os_fine : os_env := {| create_ok := true; spill_ok := true; short_write := None |}.

Definition boolBytes (mem : bool) (n : Z) : Z := if mem then n else 0.

Definition spillLocked (e : os_env) (m : spoolManager) (s : spool) :
    spoolManager * spool * option spool_err :=
  match file s with
  | Some _ => (m, s, None)
  | None =>
      if negb (create_ok e) then (m, s, Some errSpoolCreate)
      else
        match memory s with
        | [] =>
            (m, {| memory := []; file := Some []; size := size s; reserved := reserved s;
                   reservedMemory := reservedMemory s; closed := closed s |}, None)
        | mem =>
            if negb (spill_ok e) then (m, s, Some errSpoolSpill)
            else (release m 0 (reservedMemory s),
                  {| memory := []; file := Some mem; size := size s; reserved := reserved s;
                     reservedMemory := 0; closed := closed s |}, None)
        end
  end.

(** Appending [n] bytes of [p] to whichever storage the spool uses, and their accounting. *)
Definition store (s : spool) (p : bytes) (mem : bool) : spool :=
  let n := Z.of_nat (length p) in
  {| memory := match file s with None => memory s ++ p | Some _ => memory s end;
     file := match file s with None => None | Some f => Some (f ++ p) end;
     size := size s + n;
     reserved := reserved s + n;
     reservedMemory := if mem then reservedMemory s + n else reservedMemory s;
     closed := closed s |}.

(** The part of [Write] behind the reservation. *)
Definition write_reserved (e : os_env) (m : spoolManager) (s : spool) (p : bytes) (mem : bool) :
    spoolManager * spool * nat * option spool_err :=
  let n :=
    match file s, short_write e with
    | Some _, Some k => Nat.min k (length p - 1)
    | _, _ => length p
    end in
  let s' := match n with O => s | _ => store s (take n p) mem end in
  let unused := Z.of_nat (length p - n) in
  let m' := if 0 <? unused then release m unused (boolBytes mem unused) else m in
  (m', s', n, if (n =? length p)%nat then None else Some errSpoolWrite).

Definition Write (e : os_env) (m : spoolManager) (s : spool) (p : bytes) :
    spoolManager * spool * nat * option spool_err :=
  let len := Z.of_nat (length p) in
  if closed s then (m, s, O, Some errSpoolClosed)
  else match p with
  | [] => (m, s, O, None)
  | _ =>
    if MaxBytes (opts m) - size s <? len then (m, s, O, Some errSpoolMessageTooLarge)
    else
      let '(m1, s1, e1) :=
        match file s with
        | None => if MaxMemoryBytes (opts m) <? size s + len then spillLocked e m s else (m, s, None)
        | Some _ => (m, s, None)
        end in
      match e1 with
      | Some err => (m1, s1, O, Some err)
      | None =>
          let mem := match file s1 with None => true | Some _ => false end in
          match reserve m1 len (boolBytes mem len) with
          | (m2, None) => write_reserved e m2 s1 p mem
          | (m2, Some errSpoolMemoryExhausted) =>
              if mem then
                match spillLocked e m2 s1 with
                | (m3, s3, Some err) => (m3, s3, O, Some err)
                | (m3, s3, None) =>
                    match reserve m3 len 0 with
                    | (m4, Some err) => (m4, s3, O, Some err)
                    | (m4, None) => write_reserved e m4 s3 p false
                    end
                end
              else (m2, s1, O, Some errSpoolMemoryExhausted)
          | (m2, Some err) => (m2, s1, O, Some err)
          end
      end
  end.

(** The bytes a reader of the spool returns, from the start. *)
Definition Reader (s : spool) : result spool_err bytes :=
  if closed s then Err errSpoolClosed
  else Ok (match file s with None => memory s | Some f => f end).

Definition Close (m : spoolManager) (s : spool) : spoolManager * spool :=
  if closed s then (m, s)
  else (releaseSpool m (reserved s) (reservedMemory s),
        {| memory := memory s; file := file s; size := size s; reserved := 0; reservedMemory := 0;
           closed := true |}).

(** [spoolChunkWriter]: records the first storage failure and goes on consuming. [os] is the
    operating system's behaviour for each write in turn. *)
Record spoolChunkWriter : Type := {
  cw_manager : spoolManager;
  cw_spool : spool;
  cw_err : option spool_err;
  cw_ops : nat
}.

Definition chunk_write (os : nat -> os_env) (w : spoolChunkWriter) (p : bytes) :
    spoolChunkWriter * option spool_err :=
  match cw_err w with
  | Some _ => (w, None)
  | None =>
      let '(m, s, _, err) := Write (os (cw_ops w)) (cw_manager w) (cw_spool w) p in
      ({| cw_manager := m; cw_spool := s; cw_err := err; cw_ops := S (cw_ops w) |}, None)
  end.

(** ** Accounting *)
Module SpoolFacts.

(** What holds of each spool of a manager with options [o]. *)
Definition spool_ok (o : spoolOptions) (s : spool) : Prop :=
  if closed s then reserved s = 0 /\ reservedMemory s = 0
  else
    reserved s = size s /\ size s <= MaxBytes o /\
    match file s with
    | None => size s = Z.of_nat (length (memory s)) /\ reservedMemory s = size s /\
              size s <= Z.max 0 (MaxMemoryBytes o)
    | Some f => size s = Z.of_nat (length f) /\ reservedMemory s = 0 /\ memory s = []
    end.

Definition live (s : spool) : Z := if closed s then 0 else 1.
Fixpoint sum (f : spool -> Z) (ss : list spool) : Z :=
  match ss with [] => 0 | s :: ss' => f s + sum f ss' end.

(** The manager's counters are exactly what the spools hold, and within the configured bounds. *)
Definition accounted (m : spoolManager) (ss : list spool) : Prop :=
  0 < MaxBytes (opts m) /\ Forall (spool_ok (opts m)) ss /\
  total m = sum reserved ss /\ totalMemory m = sum reservedMemory ss /\ concurrent m = sum live ss /\
  total m <= MaxTotalBytes (opts m) /\ totalMemory m <= MaxTotalMemoryBytes (opts m) /\
  concurrent m <= MaxConcurrent (opts m).

Lemma sum_app f a b : sum f (a ++ b) = sum f a + sum f b.
Proof. induction a as [|x a IH]; cbn; lia. Qed.

Lemma sum_insert f ss i s s' : ss !! i = Some s -> sum f (<[i:=s']> ss) = sum f ss - f s + f s'.
Proof.
  revert i. induction ss as [|x ss IH]; intros [|i] H; [done..| |].
  - injection H as ->. change (<[0%nat:=s']> (s :: ss)) with (s' :: ss). cbn [sum]. lia.
  - change (<[S i:=s']> (x :: ss)) with (x :: <[i:=s']> ss). cbn [sum]. rewrite (IH _ H). lia.
Qed.

(** An operation on one spool seen by the manager: the counters move by exactly what the spool's
    own counters move by, and the spool stays well-formed. *)
Record moves (m m' : spoolManager) (s s' : spool) : Prop := {
  moves_opts : opts m' = opts m;
  moves_total : total m' - total m = reserved s' - reserved s;
  moves_memory : totalMemory m' - totalMemory m = reservedMemory s' - reservedMemory s;
  moves_live : concurrent m' - concurrent m = live s' - live s;
  moves_ok : spool_ok (opts m) s -> spool_ok (opts m) s'
}.

Lemma moves_refl m s : moves m m s s.
Proof. split; (done || lia). Qed.

Lemma moves_trans m1 m2 m3 s1 s2 s3 : moves m1 m2 s1 s2 -> moves m2 m3 s2 s3 -> moves m1 m3 s1 s3.
Proof. intros [O1 T1 M1 L1 K1] [O2 T2 M2 L2 K2]. split; try congruence; try lia. rewrite O1 in K2. tauto. Qed.

Lemma spillLocked_moves e m s m' s' r :
  spillLocked e m s = (m', s', r) -> closed s = false -> spool_ok (opts m) s ->
  moves m m' s s' /\ closed s' = false /\ total m' = total m /\ totalMemory m' <= totalMemory m /\
  size s' = size s /\ (r = None -> exists f, file s' = Some f).
Proof.
  unfold spillLocked. intros E Hc Hs. unfold spool_ok in Hs. rewrite Hc in Hs.
  destruct (file s) as [f|] eqn:Hf.
  { simplify_eq. split_and!; (done || apply moves_refl || lia || eauto). }
  destruct Hs as (HR & HB & HL & HM & HX).
  destruct (create_ok e); cbn [negb] in E;
    [|simplify_eq; split_and!; (done || apply moves_refl || lia)].
  destruct (memory s) as [|b mem] eqn:Hmem.
  - simplify_eq. split_and!; cbn; try done; try lia; [|eauto].
    split; cbn; [done|lia|lia|unfold live; cbn; lia|]. intros _. unfold spool_ok. cbn. rewrite Hc. cbn in *. split_and!; (done || lia).
  - destruct (spill_ok e); cbn [negb] in E; [|simplify_eq; split_and!; (done || apply moves_refl || lia)].
    simplify_eq. split_and!; cbn; try done; try lia; [|eauto].
    split; cbn; [done|lia|lia|unfold live; cbn; lia|]. intros _. unfold spool_ok. cbn. rewrite Hc. cbn in *. split_and!; (done || lia).
Qed.

Lemma reserve_Ok m t mem m' :
  reserve m t mem = (m', None) ->
  opts m' = opts m /\ total m' = total m + t /\ totalMemory m' = totalMemory m + mem /\
  concurrent m' = concurrent m /\ total m' <= MaxTotalBytes (opts m) /\
  totalMemory m' <= MaxTotalMemoryBytes (opts m).
Proof.
  unfold reserve. destruct (Z.ltb_spec (MaxTotalBytes (opts m) - total m) t); [done|].
  destruct (Z.ltb_spec (MaxTotalMemoryBytes (opts m) - totalMemory m) mem); [done|].
  intros [= <-]. cbn. split_and!; (done || lia).
Qed.

Lemma reserve_Err m t mem m' e : reserve m t mem = (m', Some e) -> m' = m.
Proof. unfold reserve. repeat case_match; intros; by simplify_eq. Qed.

(** Storing the accepted prefix after a reservation of the whole of [p]. *)
Lemma write_reserved_moves e m0 m s p mem m' s' n r :
  write_reserved e m s p mem = (m', s', n, r) ->
  opts m = opts m0 -> total m = total m0 + Z.of_nat (length p) ->
  totalMemory m = totalMemory m0 + boolBytes mem (Z.of_nat (length p)) ->
  concurrent m = concurrent m0 ->
  closed s = false -> mem = match file s with None => true | Some _ => false end ->
  (mem = true -> size s + Z.of_nat (length p) <= MaxMemoryBytes (opts m0)) ->
  size s + Z.of_nat (length p) <= MaxBytes (opts m0) ->
  moves m0 m' s s' /\ total m' <= total m /\ totalMemory m' <= totalMemory m.
Proof.
  unfold write_reserved. intros E HO HT HM HC Hc Hmem HX HB.
  remember (match file s, short_write e with
    | Some _, Some k => Nat.min k (length p - 1) | _, _ => length p end) as k eqn:Hk.
  assert (k <= length p)%nat as Lk by (subst k; destruct (file s), (short_write e); lia).
  clear Hk. assert (length (take k p) = k) as Lt by (rewrite length_take; lia).
  injection E as Em Es En Er. subst m' s' n r.
  set (s' := match k with O => s | _ => store s (take k p) mem end).
  set (m' := if 0 <? Z.of_nat (length p - k) then _ else m).
  assert (opts m' = opts m /\ total m' = total m - Z.of_nat (length p - k) /\
    totalMemory m' = totalMemory m - boolBytes mem (Z.of_nat (length p - k)) /\
    concurrent m' = concurrent m) as (O' & T' & M' & C').
  { unfold m'. destruct (Z.ltb_spec 0 (Z.of_nat (length p - k))); [done|].
    replace (Z.of_nat (length p - k)) with 0 by lia. unfold boolBytes. destruct mem; split_and!; (done || lia). }
  assert (reserved s' = reserved s + Z.of_nat k /\ size s' = size s + Z.of_nat k /\
    reservedMemory s' = reservedMemory s + boolBytes mem (Z.of_nat k) /\ closed s' = closed s)
    as (R' & S' & RM' & C'').
  { unfold s'. destruct k as [|k'] eqn:Ek; [unfold boolBytes; destruct mem; split_and!; (done || lia)|].
    cbn [store reserved size reservedMemory closed]. rewrite Lt. unfold boolBytes.
    destruct mem; split_and!; (done || lia). }
  split; [|unfold boolBytes in *; destruct mem; lia].
  split; [congruence|unfold boolBytes in *; destruct mem; lia|unfold boolBytes in *; destruct mem; lia| |].
  - unfold live. rewrite C''. lia.
  - unfold spool_ok. rewrite C'', Hc. intros (H1 & H2 & H3).
    split_and!; [lia|lia|]. rewrite S', RM'.
    assert (match file s with None => file s' = None /\ memory s' = memory s ++ take k p
      | Some f => file s' = Some (f ++ take k p) /\ memory s' = memory s end) as F.
    { unfold s'. destruct k as [|k'] eqn:Ek; cbn [take].
      - destruct (file s); by rewrite !app_nil_r.
      - cbn [store file memory]. by destruct (file s). }
    destruct (file s) as [f|]; destruct F as [-> ->]; subst mem; unfold boolBytes; cbn.
    + destruct H3 as (H3 & H4 & ->). split_and!; [rewrite length_app, Lt; lia|lia|done].
    + destruct H3 as (H3 & H4 & H5). split_and!; [rewrite length_app, Lt; lia|lia|].
      specialize (HX eq_refl). lia.
Qed.

Lemma Write_moves e m s p m' s' n r :
  Write e m s p = (m', s', n, r) -> spool_ok (opts m) s ->
  total m <= MaxTotalBytes (opts m) -> totalMemory m <= MaxTotalMemoryBytes (opts m) ->
  moves m m' s s' /\ total m' <= MaxTotalBytes (opts m) /\ totalMemory m' <= MaxTotalMemoryBytes (opts m).
Proof.
  unfold Write. intros E Hs HT HM.
  destruct (closed s) eqn:Hc; [simplify_eq; split_and!; (done || apply moves_refl)|].
  destruct p as [|b p0]; [simplify_eq; split_and!; (done || apply moves_refl)|].
  remember (b :: p0) as p eqn:Hp. clear Hp.
  destruct (Z.ltb_spec (MaxBytes (opts m) - size s) (Z.of_nat (length p)));
    [simplify_eq; split_and!; (done || apply moves_refl)|].
  match type of E with match ?x with _ => _ end = _ => destruct x as [[m1 s1] e1] eqn:E1 end.
  assert (moves m m1 s s1 /\ closed s1 = false /\ total m1 = total m /\ totalMemory m1 <= totalMemory m /\
    size s1 = size s /\ (e1 = None -> file s1 = None -> size s + Z.of_nat (length p) <= MaxMemoryBytes (opts m)))
    as (V1 & C1 & T1 & M1 & S1 & X1).
  { destruct (file s) as [f|] eqn:Hf.
    - simplify_eq. split_and!; try done; try lia; [apply moves_refl|congruence].
    - destruct (Z.ltb_spec (MaxMemoryBytes (opts m)) (size s + Z.of_nat (length p))).
      + destruct (spillLocked_moves _ _ _ _ _ _ E1 Hc Hs) as (V & C & T & M & S & X).
        split_and!; try done. intros He HN. destruct (X He) as [f Hf']. congruence.
      + simplify_eq. split_and!; try done; try lia. apply moves_refl. }
  pose proof (moves_opts _ _ _ _ V1) as O1. pose proof (moves_ok _ _ _ _ V1 Hs) as K1.
  destruct e1 as [err|]; [simplify_eq; split_and!; (done || lia)|].
  set (mem := match file s1 with None => true | Some _ => false end) in *.
  assert (mem = true -> size s1 + Z.of_nat (length p) <= MaxMemoryBytes (opts m1)) as HX.
  { rewrite O1, S1. unfold mem. destruct (file s1); [done|]. intros _. by apply X1. }
  destruct (reserve m1 _ _) as [m2 [err|]] eqn:ER.
  - pose proof (reserve_Err _ _ _ _ _ ER) as ->.
    assert (forall r0, (m1, s1, O, r0) = (m', s', n, r) -> moves m m' s s' /\
      total m' <= MaxTotalBytes (opts m) /\ totalMemory m' <= MaxTotalMemoryBytes (opts m)) as Same
      by (intros r0 ?; simplify_eq; split_and!; (done || lia)).
    destruct err; try (by eapply Same; exact E). destruct mem; [|by eapply Same; exact E].
    rewrite <- O1 in K1.
    destruct (spillLocked e m1 s1) as [[m3 s3] [e3|]] eqn:E3;
      destruct (spillLocked_moves _ _ _ _ _ _ E3 C1 K1) as (V3 & C3 & T3 & M3 & S3 & X3);
      pose proof (moves_opts _ _ _ _ V3) as O3.
    + simplify_eq. split_and!; [by eapply moves_trans|lia|lia].
    + destruct (reserve m3 _ 0) as [m4 [e4|]] eqn:E4.
      * pose proof (reserve_Err _ _ _ _ _ E4) as ->. simplify_eq.
        split_and!; [by eapply moves_trans|lia|lia].
      * destruct (reserve_Ok _ _ _ _ E4) as (O4 & T4 & M4 & L4 & B4 & B4').
        destruct (X3 eq_refl) as [f3 Hf3].
        destruct (write_reserved_moves _ m3 _ _ _ _ _ _ _ _ E) as (V5 & T5 & M5); try done;
          [by rewrite Hf3|rewrite O3, S3, S1, O1; lia|].
        split_and!; [|rewrite <- O1, <- O3; lia|rewrite <- O1, <- O3; lia].
        eapply moves_trans; [exact V1|]. by eapply moves_trans.
  - destruct (reserve_Ok _ _ _ _ ER) as (O2 & T2 & M2 & L2 & B2 & B2').
    destruct (write_reserved_moves _ m1 _ _ _ _ _ _ _ _ E) as (V5 & T5 & M5); try done;
      [rewrite S1, O1; lia|].
    split_and!; [by eapply moves_trans|rewrite <- O1; lia|rewrite <- O1; lia].
Qed.

(** ** Contents *)

Definition contents (s : spool) : bytes := match file s with None => memory s | Some f => f end.

Lemma spillLocked_contents e m s m' s' r :
  spillLocked e m s = (m', s', r) -> contents s' = contents s /\ closed s' = closed s.
Proof.
  unfold spillLocked, contents. intros E. destruct (file s) as [f|] eqn:Hf; [by simplify_eq; rewrite Hf|].
  destruct (create_ok e); cbn [negb] in E; [|simplify_eq; by rewrite Hf].
  destruct (memory s) as [|b mem] eqn:Hm; [by simplify_eq|].
  destruct (spill_ok e); cbn [negb] in E; simplify_eq; [done|]. by rewrite Hf.
Qed.

Lemma write_reserved_contents e m s p mem m' s' n r :
  write_reserved e m s p mem = (m', s', n, r) ->
  contents s' = contents s ++ take n p /\ closed s' = closed s /\ (r = None -> n = length p).
Proof.
  unfold write_reserved. intros E. injection E as Em Es En Er. subst r. rewrite En in *.
  assert (contents s' = contents s ++ take n p /\ closed s' = closed s) as [A B].
  { destruct n; subst s'; [by rewrite app_nil_r|]. unfold contents, store. cbn. by destruct (file s). }
  split_and!; [done|done|]. destruct (Nat.eqb_spec n (length p)); done.
Qed.

(** What one [Write] does to the contents, on every path. *)
Lemma Write_contents e m s p m' s' n r :
  Write e m s p = (m', s', n, r) ->
  contents s' = contents s ++ take n p /\ closed s' = closed s /\ (r = None -> n = length p).
Proof.
  unfold Write. intros E.
  destruct (closed s) eqn:Hc; [simplify_eq; by rewrite app_nil_r|].
  destruct p as [|b p0]; [simplify_eq; by rewrite app_nil_r|]. remember (b :: p0) as p eqn:Hp. clear Hp.
  destruct (_ <? _); [simplify_eq; by rewrite app_nil_r|].
  match type of E with match ?x with _ => _ end = _ => destruct x as [[m1 s1] e1] eqn:E1 end.
  assert (contents s1 = contents s /\ closed s1 = false) as [<- C1].
  { rewrite <- Hc. destruct (file s); [by simplify_eq|]. destruct (_ <? _); [|by simplify_eq].
    by eapply spillLocked_contents. }
  destruct e1; [simplify_eq; by rewrite app_nil_r|].
  destruct (reserve m1 _ _) as [m2 [err|]].
  - assert (forall r0, (m2, s1, O, Some r0) = (m', s', n, r) ->
      contents s' = contents s1 ++ take n p /\ closed s' = false /\ (r = None -> n = length p)) as Same
      by (intros; simplify_eq; by rewrite app_nil_r).
    destruct err; try (by eapply Same).
    destruct (match file s1 with None => true | Some _ => false end); [|by eapply Same].
    destruct (spillLocked e m2 s1) as [[m3 s3] [e3|]] eqn:E3;
      destruct (spillLocked_contents _ _ _ _ _ _ E3) as [K3 C3]; rewrite C1 in C3; rewrite <- K3.
    + simplify_eq. by rewrite app_nil_r.
    + destruct (reserve m3 _ 0) as [m4 [e4|]]; [simplify_eq; by rewrite app_nil_r|].
      rewrite <- C3. by eapply write_reserved_contents.
  - rewrite <- C1. by eapply write_reserved_contents.
Qed.

Lemma Write_live e m s p m' s' n r : Write e m s p = (m', s', n, r) -> live s' = live s.
Proof. intros (_ & C & _)%Write_contents. unfold live. by rewrite C. Qed.

(** ** The manager's counters *)

Lemma spool_ok_nonneg o s : spool_ok o s -> 0 <= reserved s /\ 0 <= reservedMemory s.
Proof.
  unfold spool_ok. destruct (closed s); [lia|]. destruct (file s); lia.
Qed.

Lemma spillLocked_closed e m s m' s' r : spillLocked e m s = (m', s', r) -> closed s' = closed s.
Proof. unfold spillLocked. intros E. repeat case_match; by simplify_eq. Qed.

Lemma moves_accounted m m' ss i s s' :
  accounted m ss -> ss !! i = Some s -> moves m m' s s' ->
  total m' <= MaxTotalBytes (opts m) -> totalMemory m' <= MaxTotalMemoryBytes (opts m) ->
  live s' <= live s -> accounted m' (<[i:=s']> ss).
Proof.
  intros (P & F & T & M & C & BT & BM & BC) Hi [O VT VM VL VK] HT HM HL. unfold accounted.
  rewrite O, !(sum_insert _ _ _ _ s' Hi). split_and!; try lia.
  apply Forall_insert; [done|]. apply VK. by eapply Forall_lookup_1.
Qed.

Lemma Close_moves m s m' s' :
  Close m s = (m', s') -> spool_ok (opts m) s ->
  moves m m' s s' /\ closed s' = true /\ total m' = total m - reserved s /\
  totalMemory m' = totalMemory m - reservedMemory s.
Proof.
  unfold Close. intros E Hs. unfold spool_ok in Hs. destruct (closed s) eqn:Hc; simplify_eq.
  - destruct Hs. split_and!; [apply moves_refl|done|lia|lia].
  - split_and!; [|done|done|done]. split; cbn; [done|lia|lia|unfold live; cbn; rewrite Hc; lia|done].
Qed.

(** One operation of any session on the Server's spools. *)
Inductive spool_step : spoolManager * list spool -> spoolManager * list spool -> Prop :=
| step_new m ss m' s : newSpool m = Ok (m', s) -> spool_step (m, ss) (m', ss ++ [s])
| step_write m ss i s e p m' s' n r :
    ss !! i = Some s -> Write e m s p = (m', s', n, r) -> spool_step (m, ss) (m', <[i:=s']> ss)
| step_close m ss i s m' s' :
    ss !! i = Some s -> Close m s = (m', s') -> spool_step (m, ss) (m', <[i:=s']> ss).

Lemma newSpool_accounted m ss m' s :
  accounted m ss -> newSpool m = Ok (m', s) ->
  accounted m' (ss ++ [s]) /\ opts m' = opts m.
Proof.
  intros (P & F & T & M & C & BT & BM & BC). unfold newSpool.
  destruct (Z.leb_spec (MaxConcurrent (opts m)) (concurrent m)); [done|]. intros [= <- <-].
  split; [|done]. unfold accounted. cbn [set_usage opts total totalMemory concurrent].
  rewrite !sum_app. cbn. split_and!; try lia.
  apply Forall_app. split; [done|]. constructor; [|done].
  unfold spool_ok. cbn. lia.
Qed.

(** C29: whatever operations any number of sessions perform on a Server's spools, in any order and
    whatever the operating system does, the manager's counters are exactly the bytes, the in-memory
    bytes and the number of spools that are held, and stay within the configured limits. *)
Theorem spool_accounting o m0 m ss :
  newSpoolManager o = Ok m0 -> rtc spool_step (m0, []) (m, ss) -> accounted m ss.
Proof.
  intros Hm H.
  assert (accounted m0 []) as H0.
  { unfold newSpoolManager in Hm. destruct (spool_problems o) eqn:E; [|done]. simplify_eq.
    unfold spool_problems in E. unfold accounted. cbn. repeat case_match; try done. split_and!; (done || lia). }
  remember (m0, []) as w0 eqn:E0. remember (m, ss) as w eqn:E1. revert m ss E1.
  assert (accounted w0.1 w0.2) as Hw by by subst. clear E0 H0 Hm.
  induction H as [w|w w1 w2 Hs _ IH]; intros m ss ->; [done|]. apply IH; [|done]. clear IH.
  destruct Hs as [m1 ss1 m' s Hn|m1 ss1 i s e p m' s' n r Hi HW|m1 ss1 i s m' s' Hi HC]; cbn in *.
  - by apply (newSpool_accounted m1).
  - pose proof Hw as (P & F & T & M & C & BT & BM & BC).
    pose proof (Forall_lookup_1 _ _ _ _ F Hi) as Hs.
    destruct (Write_moves _ _ _ _ _ _ _ _ HW Hs BT BM) as (V & HT & HM).
    apply (moves_accounted m1 m' ss1 i s s'); try done. by rewrite (Write_live _ _ _ _ _ _ _ _ HW).
  - pose proof Hw as (P & F & T & M & C & BT & BM & BC).
    pose proof (Forall_lookup_1 _ _ _ _ F Hi) as Hs.
    destruct (Close_moves _ _ _ _ HC Hs) as (V & HCl & HT & HM).
    assert (0 <= reserved s /\ 0 <= reservedMemory s) by by apply (spool_ok_nonneg (opts m1)).
    apply (moves_accounted m1 m' ss1 i s s'); try done; try lia.
    unfold live. rewrite HCl. destruct (closed s); lia.
Qed.

(** No spool is lost: once every spool is closed, nothing is held. *)
Lemma accounted_closed m ss :
  accounted m ss -> Forall (fun s => closed s = true) ss -> usage m = (0, 0, 0).
Proof.
  intros (P & F & T & M & C & _) H. unfold usage. rewrite T, M, C. clear -F H.
  enough (sum reserved ss = 0 /\ sum reservedMemory ss = 0 /\ sum live ss = 0) as (-> & -> & ->) by done.
  induction ss as [|s ss IH]; [done|]. apply Forall_cons in F as [Hs F], H as [Hc H].
  destruct (IH F H) as (R & M & L). unfold spool_ok in Hs. rewrite Hc in Hs. cbn.
  unfold live at 1. rewrite Hc. lia.
Qed.

Lemma spool_accounting_witness :
  let o := {| MaxBytes := 10; MaxMemoryBytes := 4; MaxTotalBytes := 20; MaxTotalMemoryBytes := 8;
              MaxConcurrent := 2 |} in
  let m := {| opts := o; total := 6; totalMemory := 0; concurrent := 1 |} in
  accounted m [{| memory := []; file := Some ($"abcdef"); size := 6; reserved := 6;
                  reservedMemory := 0; closed := false |}].
Proof.
  intros o m.
  apply (spool_accounting o {| opts := o; total := 0; totalMemory := 0; concurrent := 0 |});
    [reflexivity|].
  eapply rtc_l; [eapply step_new; reflexivity|].
  eapply rtc_l; [eapply (step_write _ _ 0 _ os_fine ($"abc")); reflexivity|].
  eapply rtc_l; [eapply (step_write _ _ 0 _ os_fine ($"def")); reflexivity|].
  apply rtc_refl.
Defined.

(** A session's chunk: the pieces in order, each through the chunk writer. *)
Definition write_pieces (os : nat -> os_env) (w : spoolChunkWriter) (pieces : list bytes) :=
  fold_left (fun w p => fst (chunk_write os w p)) pieces w.

Lemma write_pieces_err os w ps : cw_err w <> None -> write_pieces os w ps = w.
Proof.
  intros He. induction ps as [|p ps IH]; [done|]. cbn. unfold chunk_write at 2.
  by destruct (cw_err w).
Qed.

Lemma write_pieces_contents os w ps :
  closed (cw_spool w) = false ->
  let w' := write_pieces os w ps in
  closed (cw_spool w') = false /\
  (cw_err w' = None -> contents (cw_spool w') = contents (cw_spool w) ++ concat ps) /\
  (exists n, contents (cw_spool w') = contents (cw_spool w) ++ take n (concat ps)).
Proof.
  revert w. induction ps as [|p ps IH]; intros w Hc w'.
  { unfold w'. cbn. rewrite app_nil_r. split_and!; [done..|]. exists O. by rewrite app_nil_r. }
  destruct (cw_err w) as [err|] eqn:He.
  { unfold w'. rewrite write_pieces_err by by rewrite He. split_and!; [done|congruence|].
    exists O. by rewrite app_nil_r. }
  destruct (Write (os (cw_ops w)) (cw_manager w) (cw_spool w) p) as [[[m s] n] r] eqn:EW.
  destruct (Write_contents _ _ _ _ _ _ _ _ EW) as (K & C & L).
  set (w1 := {| cw_manager := m; cw_spool := s; cw_err := r; cw_ops := S (cw_ops w) |}).
  assert (w' = write_pieces os w1 ps) as ->.
  { unfold w', write_pieces. cbn [fold_left]. f_equal. unfold chunk_write. by rewrite He, EW. }
  cbn [concat].
  destruct r as [err|].
  - rewrite write_pieces_err by done. unfold w1. cbn [cw_spool cw_err].
    split_and!; [congruence|done|]. exists (Nat.min n (length p)).
    rewrite K, take_app_le by lia. f_equal.
    destruct (decide (n <= length p)%nat); [by rewrite Nat.min_l|].
    by rewrite Nat.min_r, !take_ge by lia.
  - destruct (IH w1) as (C' & A' & k & B'); [unfold w1; cbn; congruence|].
    unfold w1 in A', B' at 2. cbn [cw_spool] in *. rewrite K, (L eq_refl), firstn_all in A', B'.
    split_and!; [done|by rewrite app_assoc|]. exists (length p + k)%nat.
    by rewrite B', take_app_add, <- app_assoc.
Qed.

(** the spool is the concatenation of the chunks: after any pieces written without a recorded
    failure, what the backend reads from the spool is the former contents followed by exactly the
    pieces, whether they stayed in memory, spilled to the file midway, or started there; after a
    failure it is a prefix; and a storage failure is never reported to the framer, which goes on
    consuming the chunk. *)
Theorem spool_contents os w pieces :
  closed (cw_spool w) = false ->
  let w' := write_pieces os w pieces in
  (cw_err w' = None -> Reader (cw_spool w') = Ok (contents (cw_spool w) ++ concat pieces)) /\
  (exists n, Reader (cw_spool w') = Ok (contents (cw_spool w) ++ take n (concat pieces))) /\
  (forall p, snd (chunk_write os w' p) = None).
Proof.
  intros Hc w'. destruct (write_pieces_contents os w pieces Hc) as (C & A & n & B). fold w' in A, B, C.
  assert (forall c, contents (cw_spool w') = c -> Reader (cw_spool w') = Ok c) as R
    by (intros c <-; unfold Reader; by rewrite C).
  split_and!; [intros He; by apply R, A|exists n; by apply R|].
  intros p. unfold chunk_write. destruct (cw_err w'); [done|]. by destruct (Write _ _ _ _) as [[[? ?] ?] ?].
Qed.

Lemma spool_contents_witness :
  let o := {| MaxBytes := 10; MaxMemoryBytes := 4; MaxTotalBytes := 20; MaxTotalMemoryBytes := 8;
              MaxConcurrent := 2 |} in
  let m := {| opts := o; total := 0; totalMemory := 0; concurrent := 1 |} in
  let w := {| cw_manager := m; cw_spool := empty_spool; cw_err := None; cw_ops := 0 |} in
  Reader (cw_spool (write_pieces (fun _ => os_fine) w [$"ab"; $"cde"; $"f"])) = Ok ($"abcdef").
Proof.
  intros o m w.
  refine (proj1 (spool_contents (fun _ => os_fine) w [$"ab"; $"cde"; $"f"] _) _); reflexivity.
Defined.

End SpoolFacts.
