(* ===== verification/ServerState.v ===== *)
(** * smtpserver/state.go: the protocol state machine

    Phases, the command table and the transition table of a session. Sets of modes and phases are
    the source's bit masks. The theorems relate the two tables: a command the first admits never
    meets a transition the second refuses. *)
From Stdlib Require Import ZArith Lia Bool.
From stdpp Require Import base list gmap strings.
From S2P Require Import Prelude GoStrings.

Inductive listenerMode : Type := modeSMTP | modeLMTP.

Inductive sessionPhase : Type :=
| phaseConnected | phaseReady | phaseMail | phaseRecipients | phaseFailedBDAT | phaseClosed.

#[global] Instance listenerMode_eq_dec : EqDecision listenerMode.
Proof. solve_decision. Defined.
#[global] Instance sessionPhase_eq_dec : EqDecision sessionPhase.
Proof. solve_decision. Defined.

(** The constant's value: [iota]. *)
Definition phase_index (p : sessionPhase) : Z :=
  match p with
  | phaseConnected => 0 | phaseReady => 1 | phaseMail => 2 | phaseRecipients => 3
  | phaseFailedBDAT => 4 | phaseClosed => 5
  end.

Record protocolState : Type := {
  mode : listenerMode;
  phase : sessionPhase;
  tls : bool;
  authenticated : bool;
  hello : bytes
}.

Definition newProtocolState (m : listenerMode) : protocolState :=
  {| mode := m; phase := phaseConnected; tls := false; authenticated := false; hello := [] |}.

Inductive commandLegality : Type :=
| commandUnknown | commandAllowed | commandWrongMode | commandWrongState.

#[global] Instance commandLegality_eq_dec : EqDecision commandLegality.
Proof. solve_decision. Defined.

Definition modeSetSMTP : Z := Z.shiftl 1 0.
Definition modeSetLMTP : Z := Z.shiftl 1 1.
Definition modeSetBoth : Z := Z.lor modeSetSMTP modeSetLMTP.

Definition phases (values : list sessionPhase) : Z :=
  fold_left (fun set value => Z.lor set (Z.shiftl 1 (phase_index value))) values 0.

Definition contains (set : Z) (p : sessionPhase) : bool :=
  negb (Z.land set (Z.shiftl 1 (phase_index p)) =? 0).

Record commandRule : Type := {
  modes : Z;
  rule_phases : Z;
  requirePlaintext : bool;
  requireUnauthenticated : bool
}.

Definition rule (m : Z) (ps : list sessionPhase) : commandRule :=
  {| modes := m; rule_phases := phases ps; requirePlaintext := false;
     requireUnauthenticated := false |}.

Definition commandRules : list (bytes * commandRule) :=
  let greet := [phaseConnected; phaseReady; phaseMail; phaseRecipients] in
  let after := [phaseReady; phaseMail; phaseRecipients] in
  [ ($"HELO", rule modeSetSMTP greet);
    ($"EHLO", rule modeSetSMTP greet);
    ($"LHLO", rule modeSetLMTP greet);
    ($"MAIL", rule modeSetBoth after);
    ($"RCPT", rule modeSetBoth [phaseMail; phaseRecipients]);
    ($"DATA", rule modeSetBoth [phaseRecipients]);
    ($"BDAT", rule modeSetBoth [phaseReady; phaseMail; phaseRecipients; phaseFailedBDAT]);
    ($"RSET", rule modeSetBoth [phaseReady; phaseMail; phaseRecipients; phaseFailedBDAT]);
    ($"NOOP", rule modeSetBoth [phaseConnected; phaseReady; phaseMail; phaseRecipients; phaseFailedBDAT]);
    ($"QUIT", rule modeSetBoth [phaseConnected; phaseReady; phaseMail; phaseRecipients; phaseFailedBDAT]);
    ($"VRFY", rule modeSetBoth after);
    ($"EXPN", rule modeSetBoth after);
    ($"HELP", rule modeSetBoth after);
    ($"ETRN", rule modeSetSMTP [phaseReady]);
    ($"STARTTLS", {| modes := modeSetBoth; rule_phases := phases [phaseReady];
                     requirePlaintext := true; requireUnauthenticated := false |});
    ($"AUTH", {| modes := modeSetBoth; rule_phases := phases [phaseReady];
                 requirePlaintext := false; requireUnauthenticated := true |}) ].

(** ext_atrn.go *)
Definition extensionCommandRule (verb : bytes) : option commandRule :=
  if beq verb ($"ATRN") then Some (rule modeSetSMTP [phaseReady]) else None.

Fixpoint find_rule (verb : bytes) (rules : list (bytes * commandRule)) : option commandRule :=
  match rules with
  | [] => None
  | (v, r) :: rules' => if beq verb v then Some r else find_rule verb rules'
  end.

Definition lookup_rule (verb : bytes) : option commandRule :=
  match find_rule verb commandRules with
  | Some r => Some r
  | None => extensionCommandRule verb
  end.

Definition legality `{Unicode} (s : protocolState) (verb : bytes) : commandLegality :=
  match lookup_rule (ToUpper verb) with
  | None => commandUnknown
  | Some r =>
      let m := match mode s with modeSMTP => modeSetSMTP | modeLMTP => modeSetLMTP end in
      if Z.land (modes r) m =? 0 then commandWrongMode
      else if negb (contains (rule_phases r) (phase s)) || (requirePlaintext r && tls s)
              || (requireUnauthenticated r && authenticated s) then commandWrongState
      else commandAllowed
  end.

Inductive stateEvent : Type :=
| eventHello | eventMailAccepted | eventRecipientAccepted | eventTransactionComplete
| eventTransactionFailed | eventBDATFailed | eventReset | eventStartTLS | eventAuthenticated
| eventClose.

#[global] Instance stateEvent_eq_dec : EqDecision stateEvent.
Proof. solve_decision. Defined.

Record phaseTransition : Type := { from : Z; to : sessionPhase }.

Definition phaseTransitions (e : stateEvent) : phaseTransition :=
  match e with
  | eventHello =>
      {| from := phases [phaseConnected; phaseReady; phaseMail; phaseRecipients]; to := phaseReady |}
  | eventMailAccepted =>
      {| from := phases [phaseReady; phaseMail; phaseRecipients]; to := phaseMail |}
  | eventRecipientAccepted =>
      {| from := phases [phaseMail; phaseRecipients]; to := phaseRecipients |}
  | eventTransactionComplete => {| from := phases [phaseRecipients]; to := phaseReady |}
  | eventTransactionFailed => {| from := phases [phaseMail; phaseRecipients]; to := phaseReady |}
  | eventBDATFailed => {| from := phases [phaseRecipients]; to := phaseFailedBDAT |}
  | eventReset =>
      {| from := phases [phaseReady; phaseMail; phaseRecipients; phaseFailedBDAT]; to := phaseReady |}
  | eventStartTLS => {| from := phases [phaseReady]; to := phaseConnected |}
  | eventAuthenticated => {| from := phases [phaseReady]; to := phaseReady |}
  | eventClose =>
      {| from := phases [phaseConnected; phaseReady; phaseMail; phaseRecipients; phaseFailedBDAT];
         to := phaseClosed |}
  end.

Definition applyEvent (s : protocolState) (e : stateEvent) : protocolState :=
  match e with
  | eventHello =>
      {| mode := mode s; phase := phase s; tls := tls s; authenticated := authenticated s; hello := [] |}
  | eventStartTLS =>
      {| mode := mode s; phase := phase s; tls := true; authenticated := false; hello := [] |}
  | eventAuthenticated =>
      {| mode := mode s; phase := phase s; tls := tls s; authenticated := true; hello := hello s |}
  | eventClose =>
      {| mode := mode s; phase := phase s; tls := tls s; authenticated := authenticated s; hello := [] |}
  | _ => s
  end.

Definition set_phase (s : protocolState) (p : sessionPhase) : protocolState :=
  {| mode := mode s; phase := p; tls := tls s; authenticated := authenticated s; hello := hello s |}.

(** [None] is the error "state transition is not valid"; the state is then unchanged. *)
Definition transition (s : protocolState) (e : stateEvent) : option protocolState :=
  if negb (contains (from (phaseTransitions e)) (phase s)) then None
  else Some (applyEvent (set_phase s (to (phaseTransitions e))) e).

(** ** Theorems *)
Module StateFacts.

(** The bit-mask test is membership. *)
Lemma contains_phases p ps : contains (phases ps) p = bool_decide (p ∈ ps).
Proof.
  unfold contains, phases.
  assert (forall ps acc, Z.testbit (fold_left (fun set v => Z.lor set (Z.shiftl 1 (phase_index v))) ps acc)
    (phase_index p) = Z.testbit acc (phase_index p) || bool_decide (p ∈ ps)) as F.
  { clear ps. induction ps as [|q ps IH]; intros acc; cbn [fold_left].
    - rewrite bool_decide_eq_false_2 by apply not_elem_of_nil. by rewrite orb_false_r.
    - rewrite IH, Z.lor_spec, <- orb_assoc. f_equal.
      destruct (decide (p = q)) as [->|N].
      + rewrite (bool_decide_eq_true_2 (q ∈ q :: ps)) by apply list_elem_of_here.
        by replace (Z.testbit (Z.shiftl 1 (phase_index q)) (phase_index q)) with true by by destruct q.
      + replace (Z.testbit (Z.shiftl 1 (phase_index q)) (phase_index p)) with false
          by by destruct p, q.
        cbn [orb]. apply bool_decide_ext. rewrite elem_of_cons. naive_solver. }
  specialize (F ps 0). rewrite Z.testbit_0_l in F. cbn [orb] in F. rewrite <- F.
  set (S := fold_left _ ps 0). destruct (Z.testbit S (phase_index p)) eqn:E.
  - destruct (Z.eqb_spec (Z.land S (Z.shiftl 1 (phase_index p))) 0) as [H|]; [|done].
    assert (Z.testbit (Z.land S (Z.shiftl 1 (phase_index p))) (phase_index p) = true) as T.
    { rewrite Z.land_spec, E. by destruct p. }
    by rewrite H, Z.testbit_0_l in T.
  - destruct (Z.eqb_spec (Z.land S (Z.shiftl 1 (phase_index p))) 0) as [H|H]; [done|].
    exfalso. apply H. apply Z.bits_inj'. intros n Hn. rewrite Z.land_spec, Z.testbit_0_l.
    destruct (Z.eq_dec n (phase_index p)) as [->|N]; [by rewrite E|].
    rewrite Z.shiftl_1_l, Z.pow2_bits_false by (destruct p; cbn in *; lia). apply andb_false_r.
Qed.

Lemma transition_Some s e s' :
  transition s e = Some s' <->
  contains (from (phaseTransitions e)) (phase s) = true /\
  s' = applyEvent (set_phase s (to (phaseTransitions e))) e.
Proof. unfold transition. destruct (contains _ _); cbn; naive_solver. Qed.

Lemma applyEvent_phase s e : phase (applyEvent s e) = phase s.
Proof. by destruct e. Qed.

(** The phases an event is accepted in, decided by evaluation. *)
Lemma transition_total s e :
  contains (from (phaseTransitions e)) (phase s) = true ->
  exists s', transition s e = Some s' /\ phase s' = to (phaseTransitions e).
Proof.
  intros H. eexists. split; [by apply transition_Some|]. by rewrite applyEvent_phase.
Qed.

(** The events the handler of a verb may raise, from cmd_session.go, cmd_data.go,
    floor_extensions.go and cmd_auth.go, when the session is in phase [p]: MAIL first abandons an
    open transaction and then accepts, the content commands end or fail the transaction. *)
Definition handler_events (verb : bytes) (p : sessionPhase) : list (list stateEvent) :=
  let in_tx := bool_decide (p = phaseMail \/ p = phaseRecipients) in
  if beq verb ($"HELO") || beq verb ($"EHLO") || beq verb ($"LHLO") then [[eventHello]]
  else if beq verb ($"MAIL") then
    if in_tx then [[eventTransactionFailed]; [eventTransactionFailed; eventMailAccepted]]
    else [[eventMailAccepted]]
  else if beq verb ($"RCPT") then
    if bool_decide (p = phaseMail) then [[eventRecipientAccepted]] else []
  else if beq verb ($"DATA") then [[eventTransactionComplete]; [eventTransactionFailed]]
  else if beq verb ($"BDAT") then
    if bool_decide (p = phaseRecipients)
    then [[eventTransactionComplete]; [eventTransactionFailed]; [eventBDATFailed]] else []
  else if beq verb ($"RSET") then [[eventReset]]
  else if beq verb ($"STARTTLS") then [[eventStartTLS]]
  else if beq verb ($"AUTH") then [[eventAuthenticated]]
  else [].

Fixpoint transitions (s : protocolState) (es : list stateEvent) : option protocolState :=
  match es with
  | [] => Some s
  | e :: es' => match transition s e with Some s' => transitions s' es' | None => None end
  end.

Definition verbs : list bytes := map fst commandRules ++ [$"ATRN"].

Lemma lookup_rule_verbs v : lookup_rule v <> None -> v ∈ verbs.
Proof.
  unfold lookup_rule, extensionCommandRule, verbs. intros H. apply elem_of_app.
  destruct (find_rule v commandRules) eqn:E.
  - left. clear H. revert E. generalize commandRules. intros rules.
    induction rules as [|[w r] rules IH]; cbn; [done|]. destruct (beq_spec v w) as [->|].
    + intros _. apply list_elem_of_here.
    + intros E. apply list_elem_of_further. by apply IH.
  - right. destruct (beq_spec v ($"ATRN")) as [->|]; [apply list_elem_of_here|done].
Qed.

Definition all_phases : list sessionPhase :=
  [phaseConnected; phaseReady; phaseMail; phaseRecipients; phaseFailedBDAT; phaseClosed].

(** The agreement of the two tables, as one computation over verbs, phases and flags. *)
Definition tables_agree : bool :=
  forallb (fun v => forallb (fun p => forallb (fun m => forallb (fun t => forallb (fun a =>
    let s := {| mode := m; phase := p; tls := t; authenticated := a; hello := [] |} in
    match lookup_rule v with
    | Some r =>
        negb (contains (rule_phases r) p) ||
        forallb (fun es => match transitions s es with Some _ => true | None => false end)
          (handler_events v p)
    | None => true
    end) [true; false]) [true; false]) [modeSMTP; modeLMTP]) all_phases) verbs.

Lemma transitions_hello s s2 es :
  phase s = phase s2 -> mode s = mode s2 -> tls s = tls s2 -> authenticated s = authenticated s2 ->
  (transitions s es = None <-> transitions s2 es = None).
Proof.
  revert s s2. induction es as [|e es IH]; intros s s2 Hp Hm Ht Ha; cbn [transitions]; [done|].
  unfold transition. rewrite Hp. destruct (negb _); [done|]. apply IH; by destruct e; cbn.
Qed.

(** the command table and the transition table agree: whenever [legality] lets a command
    through, every sequence of state events its handler can raise is accepted, from every phase,
    mode and security state. *)
Theorem legality_transitions `{Unicode} s verb es :
  legality s verb = commandAllowed -> In es (handler_events (ToUpper verb) (phase s)) ->
  exists s', transitions s es = Some s'.
Proof.
  intros HL HI. unfold legality in HL. set (v := ToUpper verb) in *.
  destruct (lookup_rule v) as [r|] eqn:ER; [|done].
  destruct (Z.land _ _ =? 0); [done|].
  destruct (contains (rule_phases r) (phase s)) eqn:HC; [|done]. clear HL.
  assert (v ∈ verbs) as HV by (apply lookup_rule_verbs; congruence).
  assert (tables_agree = true) as HT by (vm_compute; reflexivity).
  unfold tables_agree in HT. rewrite forallb_forall in HT.
  specialize (HT v (proj1 (list_elem_of_In _ _) HV)). rewrite forallb_forall in HT.
  specialize (HT (phase s) ltac:(destruct (phase s); cbn; tauto)). rewrite forallb_forall in HT.
  specialize (HT (mode s) ltac:(destruct (mode s); cbn; tauto)). rewrite forallb_forall in HT.
  specialize (HT (tls s) ltac:(destruct (tls s); cbn; tauto)). rewrite forallb_forall in HT.
  specialize (HT (authenticated s) ltac:(destruct (authenticated s); cbn; tauto)).
  rewrite ER, HC in HT. cbn [negb orb] in HT. rewrite forallb_forall in HT. specialize (HT _ HI).
  destruct (transitions s es) eqn:E; [eauto|].
  apply (transitions_hello _ {| mode := mode s; phase := phase s; tls := tls s;
    authenticated := authenticated s; hello := [] |}) in E; try done. by rewrite E in HT.
Qed.

Lemma legality_transitions_witness :
  exists s', transitions
    {| mode := modeSMTP; phase := phaseRecipients; tls := true; authenticated := true; hello := $"a" |}
    [eventTransactionFailed; eventMailAccepted] = Some s'.
Proof.
  refine (@legality_transitions ascii_only_unicode
    {| mode := modeSMTP; phase := phaseRecipients; tls := true; authenticated := true; hello := $"a" |}
    ($"mail") [eventTransactionFailed; eventMailAccepted] _ _); [reflexivity|].
  vm_compute. tauto.
Defined.

End StateFacts.
