(* ===== verification/ServerData.v ===== *)
(** * smtpserver: message content

    cmd_data.go's [sizeEnforcingReader] and data.go: the reader handed to the backend's Data
    callback, the drain behind a backend that returns early, and the validation of what it
    returned. [content] is the source behind the reader: the dot-unstuffed connection for DATA, the
    spooled octets for BDAT. A backend chooses each buffer size, or to stop, after what it has read,
    and returns a function of all it read; a callback that returns reads a bounded number of times.

    A Go panic (slice bounds) is [None]. *)
From Stdlib Require Import ZArith Lia Bool.
From stdpp Require Import base list gmap strings.
From S2P Require Import Prelude GoStrings Wire DotStuff Core ServerState.
Import Reader.

Inductive data_err : Type := DWire (e : wire_err) | errMessageTooLarge.

Definition is_EOF (e : data_err) : bool := match e with DWire (ErrIO EOF) => true | _ => false end.

(** ** sizeEnforcingReader *)

Record sizeEnforcingReader : Type := {
  reader : DotUnstuffReader;
  remain : Z;
  exceeded : bool;
  reported : bool
}.

Definition newSizeEnforcingReader (d : DotUnstuffReader) (max : Z) : sizeEnforcingReader :=
  {| reader := d; remain := max; exceeded := false; reported := false |}.

(** The length of [p[:limit]] handed to the reader below; a negative limit is a slice out of
    bounds. *)
Definition read_limit (r : sizeEnforcingReader) (len : nat) : option nat :=
  let next := wrap64 (remain r + 1) in
  if next <? Z.of_nat len then if next <? 0 then None else Some (Z.to_nat next) else Some len.

Definition size_read (r : sizeEnforcingReader) (len : nat) :
    option (bytes * sizeEnforcingReader * option data_err) :=
  if exceeded r then
    let '(bs, d, e) := Read (reader r) len in
    Some (bs, {| reader := d; remain := remain r; exceeded := true; reported := reported r |},
          DWire <$> e)
  else
    match read_limit r len with
    | None => None
    | Some limit =>
        let '(bs, d, e) := Read (reader r) limit in
        if Z.of_nat (length bs) <=? remain r then
          Some (bs, {| reader := d; remain := remain r - Z.of_nat (length bs); exceeded := false;
                       reported := reported r |}, DWire <$> e)
        else
          let r' := {| reader := d; remain := 0; exceeded := true; reported := true |} in
          if negb (reported r) then Some (take (Z.to_nat (remain r)) bs, r', Some errMessageTooLarge)
          else Some ([], r', DWire <$> e)
    end.

(** ** The reader the backend gets *)

Inductive content : Type :=
| ContentData (r : sizeEnforcingReader)
| ContentSpool (rest : bytes).

Definition content_read (c : content) (len : nat) : option (bytes * content * option data_err) :=
  match c with
  | ContentData r =>
      match size_read r len with
      | Some (bs, r', e) => Some (bs, ContentData r', e)
      | None => None
      end
  | ContentSpool [] => Some ([], ContentSpool [], Some (DWire (ErrIO EOF)))
  | ContentSpool rest => Some (take len rest, ContentSpool (drop len rest), None)
  end.

(** [trackedDataReader] over [io.MultiReader(header, content)]. *)
Record trackedDataReader : Type := { header : bytes; source : content; exhausted : bool }.

Definition tracked_read (t : trackedDataReader) (len : nat) :
    option (bytes * trackedDataReader * option data_err) :=
  match header t with
  | [] =>
      match content_read (source t) len with
      | None => None
      | Some (bs, c, e) =>
          Some (bs, {| header := []; source := c;
                       exhausted := exhausted t || match e with Some e => is_EOF e | None => false end |}, e)
      end
  | h => Some (take len h, {| header := drop len h; source := source t; exhausted := exhausted t |}, None)
  end.

(** ** Backends *)

(** A backend's error: an [*smtp.Error] in its chain, or anything else. *)
Inductive backend_err : Type := Protocol (e : smtp.Error) | Opaque.

Record dataBackend : Type := {
  rounds : nat;
  next_read : list (bytes * option data_err) -> option nat;
  returns : list (bytes * option data_err) -> list smtp.RecipientResult * option backend_err
}.

(** At most [k] more reads, after the observations [obs]. *)
Fixpoint reads_from (b : dataBackend) (k : nat) (t : trackedDataReader) (obs : list (bytes * option data_err)) :
    option (list (bytes * option data_err) * trackedDataReader) :=
  match k with
  | O => Some (obs, t)
  | S k' =>
      match next_read b obs with
      | None => Some (obs, t)
      | Some n =>
          match tracked_read t n with
          | None => None
          | Some (bs, t', e) => reads_from b k' t' (obs ++ [(bs, e)])
          end
      end
  end.

Definition backend_reads (t : trackedDataReader) (b : dataBackend) :
    option (list (bytes * option data_err) * trackedDataReader) := reads_from b (rounds b) t [].

(** A callback that reads with the given buffer sizes whatever it sees. *)
Definition fixed_reads (sizes : list nat)
    (ret : list (bytes * option data_err) -> list smtp.RecipientResult * option backend_err) : dataBackend :=
  {| rounds := length sizes; next_read := fun obs => nth_error sizes (length obs); returns := ret |}.

(** The buffer of [io.Discard]'s [ReadFrom]. *)
Definition discard_buffer : nat := Z.to_nat 8192.

(** [io.Copy(io.Discard, tracked)]: reads until an error; [io.EOF] is success. *)
Fixpoint drain (fuel : nat) (t : trackedDataReader) : option (trackedDataReader * option data_err) :=
  match fuel with
  | O => None
  | S fuel' =>
      match tracked_read t discard_buffer with
      | None => None
      | Some (_, t', None) => drain fuel' t'
      | Some (_, t', Some e) => Some (t', if is_EOF e then None else Some e)
      end
  end.

Definition unread_bytes (c : content) : nat :=
  match c with
  | ContentData r => length (unread (lr (reader r)))
  | ContentSpool rest => length rest
  end.

(** Enough iterations: every read without an error delivers a byte. *)
Definition drain_fuel (t : trackedDataReader) : nat :=
  S (S (length (header t) + unread_bytes (source t))).

(** ** data.go *)

Inductive data_defect : Type :=
| DefectNoRecipients | DefectResultAndError | DefectResultCount | DefectRecipientName
| DefectEnhancedClass (i : nat) | DefectEarlySuccess.

Inductive data_cause : Type := CauseDrain (e : data_err) | CauseBackend (e : backend_err).

Record dataEvaluation : Type := {
  ev_result : list smtp.RecipientResult;
  completed : bool;
  closeConnection : bool;
  defect : list data_defect;
  cause : option data_cause
}.

(** reply.go *)
Definition normalizeEnhancedCode (code : Z) (e : smtp.EnhancedCode) : smtp.EnhancedCode * bool :=
  if beq (smtp.String e) [] || (smtp.Class e =? code ÷ 100) then (e, false)
  else
    let class := code ÷ 100 in
    if (class =? 2) || (class =? 4) || (class =? 5)
    then ({| smtp.Class := class; smtp.Subject := 0; smtp.Detail := 0; smtp.Raw := [] |}, true)
    else (e, false).

Definition normalizeRecipientResult (r : smtp.RecipientResult) : smtp.RecipientResult * bool :=
  let '(e, repaired) := normalizeEnhancedCode (smtp.RCode r) (smtp.REnhanced r) in
  ({| smtp.RRecipient := smtp.RRecipient r; smtp.RCommand := smtp.RCommand r;
      smtp.RCode := smtp.RCode r; smtp.REnhanced := e; smtp.RText := smtp.RText r |}, repaired).

Definition status (c s d : Z) : smtp.EnhancedCode :=
  {| smtp.Class := c; smtp.Subject := s; smtp.Detail := d; smtp.Raw := [] |}.

Definition temporary_result (command recipient : bytes) : smtp.RecipientResult :=
  {| smtp.RRecipient := recipient; smtp.RCommand := command; smtp.RCode := 451;
     smtp.REnhanced := status 4 3 0; smtp.RText := $"Temporary server failure" |}.

Definition temporaryDataResult (m : listenerMode) (recipients : list bytes) (command : bytes) :
    list smtp.RecipientResult :=
  match m with
  | modeLMTP => map (temporary_result command) recipients
  | modeSMTP => [temporary_result command []]
  end.

Definition invalidDataOutcome (m : listenerMode) (recipients : list bytes) (command : bytes)
    (c : option backend_err) (detail : data_defect) : dataEvaluation :=
  {| ev_result := temporaryDataResult m recipients command; completed := false;
     closeConnection := false; defect := [detail]; cause := CauseBackend <$> c |}.

Fixpoint names_match (results : list smtp.RecipientResult) (recipients : list bytes) : bool :=
  match results, recipients with
  | r :: rs, x :: xs => beq (smtp.RRecipient r) x && names_match rs xs
  | _, _ => true
  end.

Fixpoint normalize_results (i : nat) (results : list smtp.RecipientResult) :
    list smtp.RecipientResult * list data_defect :=
  match results with
  | [] => ([], [])
  | r :: rs =>
      let '(r', repaired) := normalizeRecipientResult r in
      let '(rs', ds) := normalize_results (S i) rs in
      (r' :: rs', (if repaired then [DefectEnhancedClass i] else []) ++ ds)
  end.

Definition validateDataOutcome (m : listenerMode) (recipients : list bytes) (command : bytes)
    (result : list smtp.RecipientResult) (callErr : option backend_err) : dataEvaluation :=
  match recipients with
  | [] => invalidDataOutcome m recipients command callErr DefectNoRecipients
  | _ =>
    match callErr with
    | Some err =>
        match result with
        | _ :: _ => invalidDataOutcome m recipients command callErr DefectResultAndError
        | [] => {| ev_result := temporaryDataResult m recipients command; completed := false;
                   closeConnection := false; defect := []; cause := Some (CauseBackend err) |}
        end
    | None =>
        let want := match m with modeLMTP => length recipients | modeSMTP => 1%nat end in
        if negb (length result =? want)%nat
        then invalidDataOutcome m recipients command None DefectResultCount
        else if match m with modeLMTP => negb (names_match result recipients) | modeSMTP => false end
        then invalidDataOutcome m recipients command None DefectRecipientName
        else
          let '(result', ds) := normalize_results 0 result in
          {| ev_result := result'; completed := true; closeConnection := false; defect := ds;
             cause := None |}
    end
  end.

(** A success reported before the content was consumed becomes a temporary failure. *)
Definition demote (r : smtp.RecipientResult) : smtp.RecipientResult :=
  if smtp.Accepted r then
    {| smtp.RRecipient := smtp.RRecipient r; smtp.RCommand := smtp.RCommand r; smtp.RCode := 451;
       smtp.REnhanced := status 4 3 0; smtp.RText := $"Temporary server failure" |}
  else r.

Definition drain_failed (e : data_err) : dataEvaluation :=
  {| ev_result := []; completed := false; closeConnection := true; defect := [];
     cause := Some (CauseDrain e) |}.

(** [evaluateDataCall]: the evaluation and the reader it left behind. *)
Definition evaluateDataCall (m : listenerMode) (recipients : list bytes) (command : bytes)
    (t : trackedDataReader) (b : dataBackend) : option (dataEvaluation * trackedDataReader) :=
  match backend_reads t b with
  | None => None
  | Some (obs, t1) =>
      let '(result, callErr) := returns b obs in
      let returnedEarly := negb (exhausted t1) in
      match
        (if returnedEarly then
           match drain (drain_fuel t1) t1 with
           | None => None
           | Some (t2, None) => Some (t2, None)
           | Some (t2, Some errMessageTooLarge) => drain (drain_fuel t2) t2
           | Some (t2, Some e) => Some (t2, Some e)
           end
         else Some (t1, None))
      with
      | None => None
      | Some (t2, Some e) => Some (drain_failed e, t2)
      | Some (t2, None) =>
          let evaluation := validateDataOutcome m recipients command result callErr in
          if negb returnedEarly || closeConnection evaluation then Some (evaluation, t2)
          else
            let replaced := existsb smtp.Accepted (ev_result evaluation) in
            Some ({| ev_result := map demote (ev_result evaluation);
                     completed := if replaced then false else completed evaluation;
                     closeConnection := closeConnection evaluation;
                     defect := defect evaluation ++ (if replaced then [DefectEarlySuccess] else []);
                     cause := cause evaluation |}, t2)
      end
  end.

(** ** Theorems *)
Module DataFacts.
Import ReaderFacts.

Lemma unstuff_length fin ls cr s D R E :
  unstuff fin ls cr s = (D, R, E) -> (length D <= length s)%nat.
Proof.
  revert ls cr D R E. induction s as [|b s IH]; intros ls cr D R E; cbn [unstuff].
  { intros; simplify_eq. cbn. lia. }
  assert (forall D R E, (let '(o, r, e) := unstuff fin (b =b LF) (b =b CR) s in (b :: o, r, e)) = (D, R, E) ->
    (length D <= length (b :: s))%nat) as Deliver.
  { intros D' R' E'. destruct (unstuff fin (b =b LF) (b =b CR) s) as [[o r] e] eqn:H.
    intros; simplify_eq. apply IH in H. cbn. lia. }
  destruct (ls && (b =b DOT)).
  - destruct s as [|c s]; [intros; simplify_eq; cbn; lia|].
    destruct (c =b CR); [destruct (consumeTerminatorTail _ _); intros; simplify_eq; cbn; lia|].
    destruct (c =b LF); [intros; simplify_eq; cbn; lia|]. intros H%IH. cbn in *. lia.
  - destruct (negb ls && cr && (b =b DOT)); [|by apply Deliver].
    destruct (bareCRDot s fin); [intros; simplify_eq; cbn; lia|by apply Deliver].
Qed.

Lemma remaining_length d D R E :
  remaining d = (D, R, E) -> (length D <= length (unread (lr d)))%nat.
Proof.
  unfold remaining. destruct (done d); [intros; simplify_eq; cbn; lia|]. apply unstuff_length.
Qed.

Lemma Read_spec d len D R E :
  remaining d = (D, R, E) ->
  let '(out, d', e) := Read d len in
  out = take len D /\ remaining d' = (drop len D, R, E) /\
  (e = None -> (0 < len)%nat -> D <> []) /\
  (forall e', e = Some e' -> D = [] /\ e' = E /\ unread (lr d') = R).
Proof.
  intros HU. pose proof (Read_remaining d len D R E HU) as F.
  destruct (Read d len) as [[out d'] e] eqn:HR. destruct F as (-> & HU' & HE & HS).
  split_and!; try done.
  - intros -> Hl ->. by destruct (HE eq_refl Hl).
  - intros e' ->. destruct (HS e' eq_refl) as [-> ->]. split_and!; try done.
    destruct len as [|len]; [|by apply HE; [done|lia]].
    unfold Read in HR. destruct (done d) eqn:Hd; [|done]. simplify_eq.
    unfold remaining in HU. rewrite Hd in HU. by simplify_eq.
Qed.

Lemma is_EOF_inv e : is_EOF e = true -> e = DWire (ErrIO EOF).
Proof. unfold is_EOF. repeat case_match; by intros. Qed.

Section Data.
(** The message on the connection, as the reference decoder sees it, and the size limit. *)
Context (D0 R : bytes) (E : wire_err) (max : Z) (Hmax : 0 <= max < MaxInt64).

(** The size-enforcing reader has taken the first [k] bytes of the message; over the limit it has
    taken more than the limit. *)
Definition at_pos (r : sizeEnforcingReader) (k : nat) : Prop :=
  remaining (reader r) = (drop k D0, R, E) /\ (k <= length D0)%nat /\ reported r = exceeded r /\
  if exceeded r then max < Z.of_nat (length D0) else remain r = max - Z.of_nat k /\ Z.of_nat k <= max.

(** The reader has reported the end of the message. *)
Definition at_end (r : sizeEnforcingReader) : Prop :=
  at_pos r (length D0) /\ unread (lr (reader r)) = R.

Lemma at_pos_end r k : at_pos r k -> at_pos r (length D0) -> k = length D0.
Proof.
  intros (HU & Hk & _) (HU' & _). rewrite HU in HU'. injection HU' as HD.
  apply (f_equal length) in HD. rewrite !length_drop in HD. lia.
Qed.

Lemma size_read_spec r k len :
  at_pos r k ->
  exists bs r' e k', size_read r len = Some (bs, r', e) /\ at_pos r' k' /\ (k <= k')%nat /\
    (e = None -> (0 < len)%nat -> (k < k')%nat) /\
    (forall e', e = Some e' ->
       (e' = DWire E /\ at_end r' /\ exceeded r' = exceeded r) \/
       (e' = errMessageTooLarge /\ exceeded r = false /\ exceeded r' = true)) /\
    (at_end r -> at_end r') /\ (exceeded r = true -> exceeded r' = true).
Proof.
  intros Hpos. pose proof Hpos as (HU & Hk & Hrep & Hex). unfold size_read.
  assert (forall n out d' e, Read (reader r) n = (out, d', e) ->
    out = take n (drop k D0) /\ remaining d' = (drop (Nat.min (k + n) (length D0)) D0, R, E) /\
    (e = None -> (0 < n)%nat -> (k < Nat.min (k + n) (length D0))%nat) /\
    (forall e', e = Some e' -> k = length D0 /\ e' = E /\ unread (lr d') = R) /\
    (k = length D0 -> unread (lr (reader r)) = R -> unread (lr d') = R)) as RS.
  { intros n out d' e HR. pose proof (Read_spec (reader r) n _ _ _ HU) as F. rewrite HR in F.
    destruct F as (-> & HU' & HN & HS). split_and!; [done| | | |].
    - rewrite drop_drop in HU'. destruct (decide (k + n <= length D0)%nat); [by rewrite Nat.min_l|].
      rewrite Nat.min_r by lia. rewrite (drop_ge D0 (k + n)) in HU' by lia.
      by rewrite (drop_ge D0 (length D0)) by lia.
    - intros -> Hn. specialize (HN eq_refl Hn). destruct (decide (k = length D0)) as [->|]; [|lia].
      by rewrite drop_ge in HN by lia.
    - intros e' ->. destruct (HS e' eq_refl) as (HD & -> & HR'). split_and!; try done.
      apply (f_equal length) in HD. rewrite length_drop in HD. cbn in HD. lia.
    - intros -> Hun. rewrite drop_ge in HN by lia.
      destruct e as [w|]; [by apply (HS w)|]. destruct n as [|n]; [|by destruct (HN eq_refl); [lia|]].
      unfold Read in HR. by destruct (done (reader r)); simplify_eq. }
  destruct (exceeded r) eqn:Hx; rewrite ?Hx in Hrep, Hex.
  - destruct (Read (reader r) len) as [[out d'] e] eqn:HR. destruct (RS _ _ _ _ HR) as (-> & HU' & HN & HS & HP).
    set (k' := Nat.min (k + len) (length D0)) in *.
    set (r' := {| reader := d'; remain := remain r; exceeded := true; reported := reported r |}).
    assert (at_pos r' k') as Hp' by (unfold at_pos, r'; cbn; split_and!; try done; lia).
    assert (k = length D0 -> unread (lr d') = R -> at_end r') as Hend
      by (intros -> Hun; unfold at_end; split; [by replace (length D0) with k' by lia|done]).
    exists (take len (drop k D0)), r', (DWire <$> e), k'. split_and!; [done|done|lia| | | |done].
    + intros He. apply HN. by destruct e.
    + intros e' He'. destruct e as [w|]; [|done]. cbn in He'. simplify_eq. left.
      destruct (HS w eq_refl) as (Hk' & -> & HR'). split_and!; try done. by apply Hend.
    + intros [Hp0 Hun]. assert (k = length D0) as Hk0 by by apply (at_pos_end r).
      apply Hend; [done|]. by apply HP.
  - destruct Hex as [Hrem Hle]. unfold read_limit.
    rewrite wrap64_id by (unfold MaxInt64 in Hmax; lia).
    set (limit := if remain r + 1 <? Z.of_nat len then Z.to_nat (remain r + 1) else len).
    assert ((if remain r + 1 <? Z.of_nat len then if remain r + 1 <? 0 then None else Some (Z.to_nat (remain r + 1))
      else Some len) = Some limit) as ->.
    { unfold limit. destruct (_ <? Z.of_nat len); [|done]. destruct (Z.ltb_spec (remain r + 1) 0); [lia|done]. }
    assert (Z.of_nat limit <= remain r + 1 /\ (limit <= len)%nat /\ ((0 < len)%nat -> (0 < limit)%nat))
      as (Hl1 & Hl2 & Hl3) by (unfold limit; destruct (Z.ltb_spec (remain r + 1) (Z.of_nat len)); lia).
    destruct (Read (reader r) limit) as [[out d'] e] eqn:HR.
    destruct (RS _ _ _ _ HR) as (-> & HU' & HN & HS & HP).
    assert (length (take limit (drop k D0)) = (Nat.min (k + limit) (length D0) - k)%nat) as Lo
      by (rewrite length_take, length_drop; lia).
    destruct (Z.leb_spec (Z.of_nat (length (take limit (drop k D0)))) (remain r)) as [Hfit|Hover].
    + set (k' := Nat.min (k + limit) (length D0)) in *. rewrite Lo in *.
      set (r' := {| reader := d'; remain := remain r - Z.of_nat (k' - k); exceeded := false;
                    reported := reported r |}).
      assert (at_pos r' k') as Hp' by (unfold at_pos, r'; cbn; split_and!; try done; lia).
      assert (k = length D0 -> unread (lr d') = R -> at_end r') as Hend
        by (intros -> Hun; unfold at_end; split; [by replace (length D0) with k' by lia|done]).
      exists (take limit (drop k D0)), r', (DWire <$> e), k'. split_and!; [done|done|lia| | | |congruence].
      * intros He Hlen. apply HN; [by destruct e|auto].
      * intros e' He'. destruct e as [w|]; [|done]. cbn in He'. simplify_eq. left.
        destruct (HS w eq_refl) as (Hk' & -> & HR'). split_and!; try done. by apply Hend.
      * intros [Hp0 Hun]. assert (k = length D0) as Hk0 by by apply (at_pos_end r).
        apply Hend; [done|]. by apply HP.
    + rewrite Hrep. cbn [negb]. rewrite Lo in Hover.
      eexists _, _, _, (Nat.min (k + limit) (length D0)). split; [done|]. split_and!.
      * unfold at_pos. cbn. split_and!; try done; lia.
      * lia.
      * done.
      * intros e' He'. simplify_eq. by right.
      * intros [Hp0 Hun]. assert (k = length D0) as Hk0 by by apply (at_pos_end r). lia.
      * done.
Qed.

(** *** The tracked reader *)

Definition track_pos (t : trackedDataReader) (k : nat) : Prop :=
  exists r, source t = ContentData r /\ at_pos r k /\
    (exhausted t = true -> E = ErrIO EOF /\ at_end r).

Definition over (t : trackedDataReader) : bool :=
  match source t with ContentData r => exceeded r | _ => false end.

Lemma tracked_read_spec t k len :
  track_pos t k ->
  exists bs t' e k', tracked_read t len = Some (bs, t', e) /\ track_pos t' k' /\ (k <= k')%nat /\
    (length (header t') <= length (header t))%nat /\
    (e = None -> (0 < len)%nat ->
     (length (header t') + (length D0 - k') < length (header t) + (length D0 - k))%nat) /\
    (forall e', e = Some e' ->
       (e' = DWire E /\ exists r', source t' = ContentData r' /\ at_end r') \/
       (e' = errMessageTooLarge /\ over t = false /\ over t' = true)) /\
    (over t = true -> over t' = true).
Proof.
  intros (r & Hs & Hp & He). unfold tracked_read, over. destruct (header t) as [|h hs] eqn:Hh.
  - rewrite Hs. cbn [content_read].
    destruct (size_read_spec r k len Hp) as (bs & r' & e & k' & -> & Hp' & Hk & HN & HE & Hend & Hov).
    eexists _, _, _, k'. split; [done|]. cbn [source header]. split_and!; try done.
    + eexists. split; [done|]. split; [done|]. cbn [exhausted]. intros [Hx|Hx]%orb_true_iff.
      * destruct (He Hx) as [HEE Hr]. split; [done|]. by apply Hend.
      * destruct e as [e|]; [|done]. destruct (HE e eq_refl) as [(-> & Hr & _)|(-> & _)]; [|done].
        split; [|done]. apply is_EOF_inv in Hx. congruence.
    + intros -> Hl. specialize (HN eq_refl Hl). destruct Hp' as (_ & Hk' & _). cbn. lia.
    + intros e' ->. destruct (HE e' eq_refl) as [(-> & Hr & _)|(-> & Hx)]; [left|by right].
      split; [done|]. by exists r'.
  - eexists _, _, None, k. split; [done|]. cbn [source header].
    assert (length (drop len (h :: hs)) <= length (h :: hs))%nat by (rewrite length_drop; lia).
    split_and!; try done.
    + by exists r.
    + intros _ Hl. rewrite length_drop. cbn [length]. lia.
Qed.

Lemma reads_from_spec b n t k obs0 :
  track_pos t k ->
  exists obs t' k', reads_from b n t obs0 = Some (obs, t') /\ track_pos t' k' /\
    (over t = true -> over t' = true).
Proof.
  revert t k obs0. induction n as [|n IH]; intros t k obs0 Ht; cbn [reads_from]; [by exists obs0, t, k|].
  destruct (next_read b obs0) as [len|]; [|by exists obs0, t, k].
  destruct (tracked_read_spec t k len Ht) as (bs & t1 & e & k1 & -> & Ht1 & _ & _ & _ & _ & Ho).
  destruct (IH t1 k1 (obs0 ++ [(bs, e)]) Ht1) as (obs & t' & k' & -> & Ht' & Ho'). exists obs, t', k'. auto.
Qed.

Lemma backend_reads_spec t k b :
  track_pos t k ->
  exists obs t' k', backend_reads t b = Some (obs, t') /\ track_pos t' k' /\
    (over t = true -> over t' = true).
Proof. apply reads_from_spec. Qed.

Lemma drain_spec fuel t k :
  track_pos t k -> (length (header t) + (length D0 - k) < fuel)%nat ->
  exists t' e k', drain fuel t = Some (t', e) /\ track_pos t' k' /\
    (length (header t') + (length D0 - k') <= length (header t) + (length D0 - k))%nat /\
    ((e = None /\ E = ErrIO EOF \/ e = Some (DWire E) /\ E <> ErrIO EOF) /\
       (exists r', source t' = ContentData r' /\ at_end r') \/
     e = Some errMessageTooLarge /\ over t = false /\ over t' = true).
Proof.
  revert t k. induction fuel as [|fuel IH]; intros t k Ht Hf; [lia|]. cbn [drain].
  destruct (tracked_read_spec t k discard_buffer Ht)
    as (bs & t1 & e & k1 & -> & Ht1 & Hk & Hh & HN & HE & Ho).
  destruct e as [e|].
  - destruct (HE e eq_refl) as [(-> & r' & Hr' & Hend)|(-> & Hov)].
    + eexists t1, _, k1. split; [done|]. split_and!; [done|lia|]. left. split; [|by exists r'].
      destruct (is_EOF (DWire E)) eqn:HX; [left|right]; split; try done.
      * apply is_EOF_inv in HX. congruence.
      * intros HEE. by rewrite HEE in HX.
    + eexists t1, _, k1. split; [done|]. split_and!; [done|lia|]. by right.
  - specialize (HN eq_refl ltac:(unfold discard_buffer; lia)).
    destruct (IH t1 k1 Ht1 ltac:(lia)) as (t' & e & k' & -> & Ht' & Hl & HR).
    eexists t', e, k'. split; [done|]. split_and!; [done|lia|].
    destruct HR as [HR|(-> & Hov & Hov')]; [by left|]. right. split_and!; try done.
    destruct (over t) eqn:Hx; [|done]. by rewrite Ho in Hov.
Qed.

Lemma track_fuel t k : track_pos t k -> (length (header t) + (length D0 - k) < drain_fuel t)%nat.
Proof.
  intros (r & Hs & (HU & _) & _). apply remaining_length in HU. rewrite length_drop in HU.
  unfold drain_fuel, unread_bytes. rewrite Hs. lia.
Qed.

Lemma at_end_exceeded r : at_end r -> exceeded r = (max <? Z.of_nat (length D0)).
Proof. intros [(_ & _ & _ & H) _]. destruct (exceeded r); lia. Qed.

Definition ends_with (E : wire_err) : bool := negb (is_EOF (DWire E)).

Lemma evaluate_spec m rcpts command t k b :
  track_pos t k -> exhausted t = false ->
  exists ev t' r', evaluateDataCall m rcpts command t b = Some (ev, t') /\
    source t' = ContentData r' /\ at_end r' /\ closeConnection ev = ends_with E.
Proof.
  intros Ht Hx. unfold evaluateDataCall.
  destruct (backend_reads_spec t k b Ht) as (obs & t1 & k1 & -> & Ht1 & _).
  destruct (returns b obs) as [result callErr].
  assert (forall ev r', E = ErrIO EOF -> closeConnection ev = false -> at_end r' ->
    closeConnection ev = ends_with E) as Fin by (by intros ev r' -> -> _).
  assert (closeConnection (validateDataOutcome m rcpts command result callErr) = false) as HV
    by (unfold validateDataOutcome; repeat (case_match; try done)).
  destruct (exhausted t1) eqn:Hx1; cbn [negb].
  - destruct Ht1 as (r1 & Hs1 & _ & HE). destruct (HE Hx1) as [HEE Hend].
    eexists _, t1, r1. split; [done|]. split_and!; try done. by eapply Fin.
  - assert (exists t2 e, (match drain (drain_fuel t1) t1 with
        | None => None | Some (t2, None) => Some (t2, None)
        | Some (t2, Some errMessageTooLarge) => drain (drain_fuel t2) t2
        | Some (t2, Some e) => Some (t2, Some e) end) = Some (t2, e) /\
      (e = None /\ E = ErrIO EOF \/ e = Some (DWire E) /\ E <> ErrIO EOF) /\
      exists r', source t2 = ContentData r' /\ at_end r') as (t2 & e & -> & HE & r' & Hs' & Hend).
    { destruct (drain_spec _ _ _ Ht1 (track_fuel _ _ Ht1)) as (t2 & e & k2 & -> & Ht2 & Hl & [[HE Hr]|(-> & Ho & Ho')]).
      - exists t2, e. split; [|done]. by destruct HE as [[-> _]|[-> _]].
      - destruct (drain_spec _ _ _ Ht2 (track_fuel _ _ Ht2)) as (t3 & e & k3 & -> & Ht3 & _ & [[HE Hr]|(-> & Hov & _)]).
        + by exists t3, e.
        + by rewrite Ho' in Hov. }
    destruct HE as [[-> HEE]|[-> HEE]].
    + cbn [orb]. rewrite HV. eexists _, t2, r'. split; [done|]. split_and!; try done. by eapply Fin.
    + eexists _, t2, r'. split; [done|]. split_and!; try done. cbn. unfold ends_with.
      destruct (is_EOF (DWire E)) eqn:HX; [|done]. apply is_EOF_inv in HX. congruence.
Qed.

End Data.

Lemma unstuff_rest_length fin ls cr s D R E :
  unstuff fin ls cr s = (D, R, E) -> (length R <= length s)%nat.
Proof.
  revert ls cr D R E. induction s as [|b s IH]; intros ls cr D R E; cbn [unstuff].
  { intros; simplify_eq. cbn. lia. }
  assert (forall D R E, (let '(o, r, e) := unstuff fin (b =b LF) (b =b CR) s in (b :: o, r, e)) = (D, R, E) ->
    (length R <= length (b :: s))%nat) as Deliver.
  { intros D' R' E'. destruct (unstuff fin (b =b LF) (b =b CR) s) as [[o r] e] eqn:H.
    intros; simplify_eq. apply IH in H. cbn. lia. }
  destruct (ls && (b =b DOT)).
  - destruct s as [|c s]; [intros; simplify_eq; cbn; lia|].
    destruct (c =b CR).
    { destruct (consumeTerminatorTail (c :: s) fin) as [rest e] eqn:HC. intros; simplify_eq.
      unfold consumeTerminatorTail in HC. destruct s; simplify_eq; cbn; lia. }
    destruct (c =b LF); [intros; simplify_eq; cbn; lia|]. intros H%IH. cbn in *. lia.
  - destruct (negb ls && cr && (b =b DOT)); [|by apply Deliver].
    destruct (bareCRDot s fin); [intros; simplify_eq; cbn; lia|by apply Deliver].
Qed.

Lemma evaluateDataCall_end m rcpts command h lr0 max b :
  0 <= max < MaxInt64 ->
  let '(D, R, E) := unstuff (final lr0) true false (unread lr0) in
  exists ev t r,
    evaluateDataCall m rcpts command
      {| header := h; source := ContentData (newSizeEnforcingReader (NewDotUnstuffReader lr0) max);
         exhausted := false |} b = Some (ev, t) /\
    source t = ContentData r /\ unread (lr (reader r)) = R /\
    exceeded r = (max <? Z.of_nat (length D)) /\
    closeConnection ev = negb (is_EOF (DWire E)).
Proof.
  intros Hm. destruct (unstuff _ _ _ _) as [[D R] E] eqn:HU.
  destruct (evaluate_spec D R E max Hm m rcpts command
    {| header := h; source := ContentData (newSizeEnforcingReader (NewDotUnstuffReader lr0) max);
       exhausted := false |} 0 b) as (ev & t & r & -> & Hs & Hend & HC); [|done|].
  - eexists. split; [done|]. split; [|done]. unfold at_pos. cbn. rewrite drop_0. split_and!; (done || lia).
  - exists ev, t, r. split_and!; try done; [by apply Hend|by apply (at_end_exceeded D R E)].
Qed.

(** The evaluation of a DATA message returns, and consumes from the connection only. *)
Lemma evaluateDataCall_data m rcpts command h lr0 max b :
  0 <= max < MaxInt64 ->
  exists ev t r,
    evaluateDataCall m rcpts command
      {| header := h; source := ContentData (newSizeEnforcingReader (NewDotUnstuffReader lr0) max);
         exhausted := false |} b = Some (ev, t) /\
    source t = ContentData r /\ (length (unread (lr (reader r))) <= length (unread lr0))%nat.
Proof.
  intros Hm. pose proof (evaluateDataCall_end m rcpts command h lr0 max b Hm) as F.
  destruct (unstuff _ _ _ _) as [[D R] E] eqn:HU. destruct F as (ev & t & r & E1 & E2 & E3 & _).
  exists ev, t, r. split_and!; try done. rewrite E3. by eapply unstuff_rest_length.
Qed.

(** *** Spooled content *)

Lemma spool_read t len c :
  source t = ContentSpool c ->
  exists bs t' e c', tracked_read t len = Some (bs, t', e) /\ source t' = ContentSpool c' /\
    (e = None -> (0 < len)%nat -> (length (header t') + length c' < length (header t) + length c)%nat) /\
    (forall e', e = Some e' -> is_EOF e' = true).
Proof.
  intros Hs. unfold tracked_read. destruct (header t) as [|x h].
  - rewrite Hs. cbn [content_read]. destruct c as [|y c].
    + eexists _, _, _, []. split; [done|]. split_and!; try done. by intros ? [= <-].
    + eexists _, _, _, _. split; [done|]. split_and!; try done. intros _ L. cbn [header length].
      rewrite length_drop. cbn. lia.
  - eexists _, _, _, c. split; [done|]. split_and!; try done. intros _ L. cbn [header].
    rewrite length_drop. cbn. lia.
Qed.

Lemma spool_reads_from b n t c obs0 :
  source t = ContentSpool c ->
  exists obs t' c', reads_from b n t obs0 = Some (obs, t') /\ source t' = ContentSpool c'.
Proof.
  revert t c obs0. induction n as [|n IH]; intros t c obs0 Hs; cbn [reads_from]; [by exists obs0, t, c|].
  destruct (next_read b obs0) as [len|]; [|by exists obs0, t, c].
  destruct (spool_read t len c Hs) as (bs & t1 & e & c1 & -> & Hs1 & _). by apply (IH t1 c1).
Qed.

Lemma spool_reads t b c :
  source t = ContentSpool c ->
  exists obs t' c', backend_reads t b = Some (obs, t') /\ source t' = ContentSpool c'.
Proof. apply spool_reads_from. Qed.

Lemma spool_drain fuel t c :
  source t = ContentSpool c -> (length (header t) + length c < fuel)%nat ->
  exists t', drain fuel t = Some (t', None).
Proof.
  revert t c. induction fuel as [|fuel IH]; intros t c Hs Hf; [lia|]. cbn [drain].
  destruct (spool_read t discard_buffer c Hs) as (bs & t1 & e & c1 & -> & Hs1 & HN & HE).
  destruct e as [e|]; [rewrite (HE e eq_refl); by eexists|].
  apply (IH t1 c1 Hs1). specialize (HN eq_refl ltac:(unfold discard_buffer; lia)). lia.
Qed.

(** The evaluation of a spooled message returns and leaves the connection open. *)
Lemma evaluateDataCall_spool m rcpts command h c b :
  exists ev t,
    evaluateDataCall m rcpts command {| header := h; source := ContentSpool c; exhausted := false |} b
      = Some (ev, t) /\ closeConnection ev = false.
Proof.
  unfold evaluateDataCall.
  destruct (spool_reads {| header := h; source := ContentSpool c; exhausted := false |} b c eq_refl)
    as (obs & t1 & c1 & -> & Hs1).
  destruct (returns b obs) as [result callErr].
  assert (closeConnection (validateDataOutcome m rcpts command result callErr) = false) as HV
    by (unfold validateDataOutcome; repeat (case_match; try done)).
  destruct (exhausted t1); cbn [negb]; [by eexists _, _|].
  destruct (spool_drain (drain_fuel t1) t1 c1 Hs1) as (t2 & ->).
  { unfold drain_fuel, unread_bytes. rewrite Hs1. lia. }
  cbn [orb]. rewrite HV. by eexists _, _.
Qed.

(** C21: the incomplete-reader defence: whatever the backend reads and returns, [evaluateDataCall]
    terminates with the connection at the exact end of the message, so that the next command is
    parsed from the first byte after it; the connection is to be closed exactly when the message
    did not end with a proper terminator; and the size limit is reported exceeded exactly when the
    message is longer than the limit. *)
Theorem evaluateDataCall_framing m rcpts command h lr0 max b :
  0 <= max < MaxInt64 ->
  let '(D, R, E) := unstuff (final lr0) true false (unread lr0) in
  exists ev t r,
    evaluateDataCall m rcpts command
      {| header := h; source := ContentData (newSizeEnforcingReader (NewDotUnstuffReader lr0) max);
         exhausted := false |} b = Some (ev, t) /\
    source t = ContentData r /\ unread (lr (reader r)) = R /\
    exceeded r = (max <? Z.of_nat (length D)) /\
    closeConnection ev = negb (is_EOF (DWire E)).
Proof. apply evaluateDataCall_end. Qed.

Lemma evaluateDataCall_framing_witness :
  let b := fixed_reads [4%nat] (fun _ => ([], Some Opaque)) in
  exists ev t r,
    evaluateDataCall modeSMTP [$"a@b"] ($"DATA")
      {| header := $"H"; source := ContentData (newSizeEnforcingReader
           (NewDotUnstuffReader {| unread := $"hi" ++ CRLF ++ terminator ++ $"QUIT"; final := EOF |}) 2);
         exhausted := false |} b = Some (ev, t) /\
    source t = ContentData r /\ unread (lr (reader r)) = $"QUIT" /\
    exceeded r = (2 <? Z.of_nat (length ($"hi" ++ CRLF))) /\
    closeConnection ev = negb (is_EOF (DWire (ErrIO EOF))).
Proof.
  intros b.
  refine (evaluateDataCall_framing modeSMTP [$"a@b"] ($"DATA") ($"H")
    {| unread := $"hi" ++ CRLF ++ terminator ++ $"QUIT"; final := EOF |} 2 b _).
  unfold MaxInt64. lia.
Defined.

(** *** Results *)

Lemma temporary_shape m rcpts command :
  let rs := temporaryDataResult m rcpts command in
  existsb smtp.Accepted rs = false /\
  match m with
  | modeSMTP => length rs = 1%nat
  | modeLMTP => map smtp.RRecipient rs = rcpts
  end.
Proof.
  destruct m; cbn; [done|]. split.
  - by induction rcpts.
  - rewrite map_map. apply map_id.
Qed.

Lemma normalize_results_recipients i rs :
  map smtp.RRecipient (fst (normalize_results i rs)) = map smtp.RRecipient rs /\
  map smtp.RCode (fst (normalize_results i rs)) = map smtp.RCode rs.
Proof.
  revert i. induction rs as [|r rs IH]; intros i; cbn; [done|].
  unfold normalizeRecipientResult. destruct (normalizeEnhancedCode _ _).
  specialize (IH (S i)). destruct (normalize_results (S i) rs). cbn in *. by destruct IH as [-> ->].
Qed.

Lemma names_match_spec rs xs :
  length rs = length xs -> names_match rs xs = true -> map smtp.RRecipient rs = xs.
Proof.
  revert xs. induction rs as [|r rs IH]; intros [|x xs]; cbn; try done. intros [= L] [E H]%andb_true_iff.
  destruct (beq_spec (smtp.RRecipient r) x) as [->|]; [|done]. by rewrite (IH xs).
Qed.

(** One reply for the message (SMTP), or one per recipient in RCPT order (LMTP). *)
Definition result_shape (m : listenerMode) (rcpts : list bytes) (rs : list smtp.RecipientResult) : Prop :=
  match m with
  | modeSMTP => length rs = 1%nat
  | modeLMTP => map smtp.RRecipient rs = rcpts
  end.

Lemma validate_shape m rcpts command result callErr :
  let ev := validateDataOutcome m rcpts command result callErr in
  result_shape m rcpts (ev_result ev) /\
  (completed ev = false -> existsb smtp.Accepted (ev_result ev) = false) /\
  closeConnection ev = false.
Proof.
  destruct (temporary_shape m rcpts command) as [HT HS].
  assert (forall c d, result_shape m rcpts (ev_result (invalidDataOutcome m rcpts command c d)) /\
    existsb smtp.Accepted (ev_result (invalidDataOutcome m rcpts command c d)) = false) as Inv by by intros.
  unfold validateDataOutcome. destruct rcpts as [|x xs]; [by split_and!; [apply Inv|intros; apply Inv|]|].
  set (rcpts := x :: xs) in *. destruct callErr as [e|].
  { destruct result; [by split_and!|]. by split_and!; [apply Inv|intros; apply Inv|]. }
  destruct (Nat.eqb_spec (length result) (match m with modeLMTP => length rcpts | modeSMTP => 1%nat end)) as [HL|];
    cbn [negb]; [|by split_and!; [apply Inv|intros; apply Inv|]].
  destruct (match m with modeLMTP => negb (names_match result rcpts) | modeSMTP => false end) eqn:HN;
    [by split_and!; [apply Inv|intros; apply Inv|]|].
  destruct (normalize_results 0 result) as [rs ds] eqn:HR. cbn.
  destruct (normalize_results_recipients 0 result) as [HM _]. rewrite HR in HM. cbn in HM.
  split_and!; [|done|done]. unfold result_shape. destruct m.
  - apply (f_equal length) in HM. rewrite !length_map in HM. congruence.
  - rewrite HM. apply names_match_spec; [done|]. by apply negb_false_iff.
Qed.

Lemma demote_map rs :
  map smtp.RRecipient (map demote rs) = map smtp.RRecipient rs /\ existsb smtp.Accepted (map demote rs) = false.
Proof.
  induction rs as [|r rs [IH1 IH2]]; [done|]. cbn. rewrite IH1, IH2. unfold demote.
  destruct (smtp.Accepted r) eqn:HA; [done|]. by rewrite HA.
Qed.

(** whatever the backend returns, the replies the session will send have the protocol's shape
    (one for SMTP, one per recipient in order for LMTP), and a success is only ever reported for
    content that was read to its end by the backend. *)
Theorem evaluateDataCall_results m rcpts command t b ev t' obs t1 :
  evaluateDataCall m rcpts command t b = Some (ev, t') ->
  backend_reads t b = Some (obs, t1) ->
  closeConnection ev = false ->
  result_shape m rcpts (ev_result ev) /\
  (existsb smtp.Accepted (ev_result ev) = true -> exhausted t1 = true /\ completed ev = true).
Proof.
  unfold evaluateDataCall. intros HE HB HC. rewrite HB in HE. destruct (returns b obs) as [result callErr].
  destruct (validate_shape m rcpts command result callErr) as (HS & HA & HV).
  destruct (exhausted t1) eqn:Hx; cbn [negb orb] in HE.
  - simplify_eq. split; [done|]. intros Hacc. split; [done|].
    destruct (completed _) eqn:Hco; [done|]. by rewrite HA in Hacc.
  - match type of HE with match ?x with _ => _ end = _ => destruct x as [[t2 [e|]]|]; [|..|done] end.
    { by simplify_eq. }
    rewrite HV in HE. simplify_eq. cbn.
    destruct (demote_map (ev_result (validateDataOutcome m rcpts command result callErr))) as [HD HD'].
    rewrite HD'. split; [|done]. unfold result_shape in *. destruct m; [by rewrite length_map|by rewrite HD].
Qed.

Definition accepting : dataBackend :=
  fixed_reads [9; 9; 9]%nat
    (fun _ => ([{| smtp.RRecipient := $"a@b"; smtp.RCommand := []; smtp.RCode := 250;
                   smtp.REnhanced := smtp.ZeroEnhanced; smtp.RText := [] |}], None)).

Lemma evaluateDataCall_results_witness :
  result_shape modeLMTP [$"a@b"] (fst (returns accepting [])) /\
  (existsb smtp.Accepted (fst (returns accepting [])) = true -> true = true /\ true = true).
Proof.
  refine (evaluateDataCall_results modeLMTP [$"a@b"] ($"BDAT")
    {| header := $"H"; source := ContentSpool ($"xy"); exhausted := false |} accepting
    {| ev_result := fst (returns accepting []); completed := true; closeConnection := false;
       defect := []; cause := None |}
    {| header := []; source := ContentSpool []; exhausted := true |}
    [($"H", None); ($"xy", None); ([], Some (DWire (ErrIO EOF)))]
    {| header := []; source := ContentSpool []; exhausted := true |} _ _ _); reflexivity.
Defined.

(** A limit of [math.MaxInt64] makes the slice bound wrap: the first non-empty read panics. *)
Lemma size_read_MaxInt64_panics d len :
  (0 < len)%nat -> size_read (newSizeEnforcingReader d MaxInt64) len = None.
Proof.
  intros Hl. unfold size_read, read_limit, newSizeEnforcingReader. cbn [exceeded remain].
  change (wrap64 (MaxInt64 + 1)) with (- 2 ^ 63).
  destruct (Z.ltb_spec (- 2 ^ 63) (Z.of_nat len)); [done|lia].
Qed.

End DataFacts.
