(* ===== verification/ServerParams.v ===== *)
(** * smtpserver: MAIL and RCPT parameters

    cmd_params.go and ext_params.go over the option records of package smtp (options.go). A pointer
    field that may be nil is an [option]; [seen] is the list of keywords already met. RFC 3339
    instants are package time's: [time_Parse] gives the instant, in nanoseconds since
    the epoch (RFC 3339 fractions of a second are kept, as time.Time keeps them), and [time_Format] its
    text in UTC and whole seconds. *)
From Stdlib Require Import ZArith Lia Bool.
From stdpp Require Import base list gmap strings.
From S2P Require Import Prelude GoStrings Wire Path.

Class RFC3339 : Type := {
  time_Parse : bytes -> option Z;
  time_Format : Z -> bytes
}.

(** ** options.go *)

Record TransportOptions : Type := { opt_Size : option Z; opt_Body : bytes; opt_SMTPUTF8 : bool }.
Record DSNMailOptions : Type :=
  { dsn_Return : bytes; dsn_EnvelopeID : bytes; dsn_EnvelopeIDOriginal : option Param }.
Record DeliverByOptions : Type := { by_Seconds : Z; by_Mode : bytes; by_Trace : bool }.
Record FutureReleaseOptions : Type := { fr_HoldForSeconds : Z; fr_HoldUntil : bytes }.
Record DeliveryOptions : Type := {
  del_DSN : option DSNMailOptions;
  del_DeliverBy : option DeliverByOptions;
  del_FutureRelease : option FutureReleaseOptions;
  del_MTPriority : bytes;
  del_RequireTLS : bool
}.
Record LegacyOptions : Type := {
  leg_Solicit : bytes;
  leg_TransitID : bytes;
  leg_Submitter : bytes;
  leg_SubmitterOriginal : option Param;
  leg_ConPerm : bool
}.
Record MailOptions : Type := {
  mo_Transport : option TransportOptions;
  mo_Delivery : option DeliveryOptions;
  mo_Legacy : option LegacyOptions;
  mo_Auth : bytes;
  mo_AuthOriginal : option Param;
  mo_Extra : list Param
}.

Record DSNRcptOptions : Type := {
  dr_Notify : list bytes;
  dr_OriginalType : bytes;
  dr_Original : bytes;
  dr_ORCPTOriginal : option Param
}.
Record RRVSOptions : Type := { rrvs_Timestamp : bytes; rrvs_Disposition : bytes }.
Record RecipientDeliveryOptions : Type :=
  { rd_DSN : option DSNRcptOptions; rd_RRVS : option RRVSOptions }.
Record RecipientLegacyOptions : Type := { rl_ConNeg : bool }.
Record RcptOptions : Type := {
  ro_Delivery : option RecipientDeliveryOptions;
  ro_Legacy : option RecipientLegacyOptions;
  ro_Extra : list Param
}.

Definition zero_mail : MailOptions :=
  {| mo_Transport := None; mo_Delivery := None; mo_Legacy := None; mo_Auth := [];
     mo_AuthOriginal := None; mo_Extra := [] |}.
Definition zero_rcpt : RcptOptions := {| ro_Delivery := None; ro_Legacy := None; ro_Extra := [] |}.

(** ** Updates through the ensure helpers *)

Definition ensureTransport (o : MailOptions) : TransportOptions :=
  default {| opt_Size := None; opt_Body := []; opt_SMTPUTF8 := false |} (mo_Transport o).
Definition ensureDelivery (o : MailOptions) : DeliveryOptions :=
  default {| del_DSN := None; del_DeliverBy := None; del_FutureRelease := None; del_MTPriority := [];
             del_RequireTLS := false |} (mo_Delivery o).
Definition ensureDSNMail (o : option DSNMailOptions) : DSNMailOptions :=
  default {| dsn_Return := []; dsn_EnvelopeID := []; dsn_EnvelopeIDOriginal := None |} o.
Definition ensureLegacy (o : MailOptions) : LegacyOptions :=
  default {| leg_Solicit := []; leg_TransitID := []; leg_Submitter := []; leg_SubmitterOriginal := None;
             leg_ConPerm := false |} (mo_Legacy o).
Definition ensureRecipientDelivery (o : RcptOptions) : RecipientDeliveryOptions :=
  default {| rd_DSN := None; rd_RRVS := None |} (ro_Delivery o).
Definition ensureDSNRcpt (o : option DSNRcptOptions) : DSNRcptOptions :=
  default {| dr_Notify := []; dr_OriginalType := []; dr_Original := []; dr_ORCPTOriginal := None |} o.

Definition set_transport (o : MailOptions) (t : TransportOptions) : MailOptions :=
  {| mo_Transport := Some t; mo_Delivery := mo_Delivery o; mo_Legacy := mo_Legacy o;
     mo_Auth := mo_Auth o; mo_AuthOriginal := mo_AuthOriginal o; mo_Extra := mo_Extra o |}.
Definition set_delivery (o : MailOptions) (d : DeliveryOptions) : MailOptions :=
  {| mo_Transport := mo_Transport o; mo_Delivery := Some d; mo_Legacy := mo_Legacy o;
     mo_Auth := mo_Auth o; mo_AuthOriginal := mo_AuthOriginal o; mo_Extra := mo_Extra o |}.
Definition set_legacy (o : MailOptions) (l : LegacyOptions) : MailOptions :=
  {| mo_Transport := mo_Transport o; mo_Delivery := mo_Delivery o; mo_Legacy := Some l;
     mo_Auth := mo_Auth o; mo_AuthOriginal := mo_AuthOriginal o; mo_Extra := mo_Extra o |}.
Definition set_dsn (o : MailOptions) (f : DSNMailOptions -> DSNMailOptions) : MailOptions :=
  let d := ensureDelivery o in
  set_delivery o {| del_DSN := Some (f (ensureDSNMail (del_DSN d))); del_DeliverBy := del_DeliverBy d;
                    del_FutureRelease := del_FutureRelease d; del_MTPriority := del_MTPriority d;
                    del_RequireTLS := del_RequireTLS d |}.
Definition set_dsn_rcpt (o : RcptOptions) (f : DSNRcptOptions -> DSNRcptOptions) : RcptOptions :=
  let d := ensureRecipientDelivery o in
  {| ro_Delivery := Some {| rd_DSN := Some (f (ensureDSNRcpt (rd_DSN d))); rd_RRVS := rd_RRVS d |};
     ro_Legacy := ro_Legacy o; ro_Extra := ro_Extra o |}.

(** ** Errors *)

Inductive param_cause : Type := CauseDuplicate | CauseUnavailable | CauseInvalid.
Record parameterError : Type := { pe_keyword : bytes; pe_cause : param_cause }.

Definition invalidParameter (kw : bytes) (c : param_cause) : parameterError :=
  {| pe_keyword := kw; pe_cause := c |}.
Definition unavailableParameter (kw : bytes) : parameterError := invalidParameter kw CauseUnavailable.

Definition mem (kw : bytes) (seen : list bytes) : bool := existsb (beq kw) seen.

Definition uniqueParameter (seen : list bytes) (kw : bytes) : result parameterError (list bytes) :=
  if mem kw seen then Err (invalidParameter kw CauseDuplicate) else Ok (kw :: seen).

(** The advertised extensions with their parameters; a later entry of the map replaces an earlier
    one with the same keyword. *)
Definition extensions : Type := list (bytes * bytes).

Fixpoint extensionParameter (exts : extensions) (kw : bytes) : option bytes :=
  match exts with
  | [] => None
  | (k, v) :: exts' =>
      match extensionParameter exts' kw with
      | Some v' => Some v'
      | None => if beq k kw then Some v else None
      end
  end.

(** ** Value syntax *)

Definition validSignedDecimal (value : bytes) : bool :=
  match value with
  | [] => false
  | c :: rest =>
      if (c =b "-"%byte) || (c =b "+"%byte)
      then match rest with [] => false | _ => forallb is_digit rest end
      else forallb is_digit value
  end.

Definition validExtensionValue (value : bytes) : bool :=
  negb (beq value []) && negb (ContainsAny value [SP; x09; CR; LF; x00; "="%byte]).

Definition atom_rune (r : Z) : bool :=
  (r <? 128) && (is_alnum (zb r) || mem_byte (zb r) ($"!#$%&'*+-/=?^_`{|}~")).

Definition validAtom (value : bytes) : bool :=
  negb (beq value []) && forallb (fun '(r, _) => atom_rune r) (runes value).

Definition solicit_rune (r : Z) : bool :=
  (r <? 128) && (is_alnum (zb r) || mem_byte (zb r) ($"!#$%&'*+-.^_`{|}~:")).

Definition validSolicitValue (value : bytes) : bool :=
  negb (beq value [] || (1000 <? Z.of_nat (length value)) || ContainsAny value [SP; x09; CR; LF; x00])
  && forallb (fun kw => negb (beq kw []) && forallb (fun '(r, _) => solicit_rune r) (runes kw))
       (Split value ","%byte).

Definition certifier_rune (r : Z) : bool :=
  (r <? 128) && (is_alnum (zb r) || (zb r =b "+"%byte) || (zb r =b "/"%byte)).

Definition validMTRK (value : bytes) : bool :=
  let '(certifier, timeout, hasTimeout) := Cut value ":"%byte in
  if beq certifier [] || mem_byte ":"%byte timeout then false
  else if negb (forallb (fun '(r, _) => certifier_rune r) (runes certifier)) then false
  else if negb hasTimeout then true
  else if beq timeout [] || (9 <? Z.of_nat (length timeout)) then false
  else forallb (fun '(r, _) => (48 <=? r) && (r <=? 57)) (runes timeout).

Definition validMTRKENVID (value : bytes) : bool :=
  let '(local, fqhn, ok) := Cut value "@"%byte in
  ok && negb (beq local []) && negb (beq fqhn []) && negb (mem_byte "@"%byte fqhn).

Definition validSubmitter `{Unicode} `{NetIP} (mailbox : bytes) : bool :=
  match ParseReversePath ($"FROM:<" ++ mailbox ++ $">") {| SMTPUTF8 := false; MaxPathLength := 0 |} with
  | Ok p => beq (Mailbox p) mailbox && match Params p with [] => true | _ => false end
  | Err _ => false
  end.

Definition decodeRequiredXtext (kw value : bytes) : result parameterError bytes :=
  if beq value [] then Err (invalidParameter kw CauseInvalid)
  else match DecodeXtext value with
       | Ok decoded => Ok decoded
       | Err _ => Err (invalidParameter kw CauseInvalid)
       end.

(** The helpers below return [None] for their error. *)
Definition parseDeliverBy `{Unicode} (value capability : bytes) : option DeliverByOptions :=
  match Split value ";"%byte with
  | [time; modeText] =>
      if beq time [] then None
      else if (9 <? Z.of_nat (length (TrimLeft time ["+"%byte; "-"%byte]))) || negb (validSignedDecimal time)
      then None
      else match ParseInt time with
      | None => None
      | Some seconds =>
          if (seconds <? -999999999) || (999999999 <? seconds) then None
          else
            let modeAndTrace := ToUpper modeText in
            let trace := HasSuffix modeAndTrace ($"T") in
            let mode := TrimSuffix modeAndTrace ($"T") in
            let ok := Some {| by_Seconds := seconds; by_Mode := mode; by_Trace := trace |} in
            if negb (beq mode ($"N")) && negb (beq mode ($"R")) then None
            else if beq mode ($"R") && (seconds <? 1) then None
            else if beq mode ($"R") && negb (beq capability []) then
              let '(minimumText, _, _) := Cut capability ","%byte in
              if beq minimumText [] then ok
              else match ParseInt minimumText with
                   | None => None
                   | Some minimum => if seconds <? minimum then None else ok
                   end
            else ok
      end
  | _ => None
  end.

Definition parseFutureRelease `{RFC3339} (kw value capability : bytes) : option FutureReleaseOptions :=
  match Fields capability with
  | [f0; f1] =>
      match ParseInt f0, time_Parse f1 with
      | Some maximum, Some maximumTime =>
          if beq kw ($"HOLDFOR") then
            match ParseInt value with
            | Some seconds =>
                if (seconds <? 1) || (maximum <? seconds) || negb (beq (FormatInt seconds) value) then None
                else Some {| fr_HoldForSeconds := seconds; fr_HoldUntil := [] |}
            | None => None
            end
          else
            match time_Parse value with
            | Some t => if maximumTime <? t then None
                        else Some {| fr_HoldForSeconds := 0; fr_HoldUntil := time_Format t |}
            | None => None
            end
      | _, _ => None
      end
  | _ => None
  end.

Fixpoint notify_tokens `{Unicode} (parts : list bytes) (seen : list bytes) : option (list bytes) :=
  match parts with
  | [] => Some []
  | part :: parts' =>
      let p := ToUpper part in
      if negb (validAtom p) || mem p seen then None
      else match notify_tokens parts' (p :: seen) with
           | Some ps => Some (p :: ps)
           | None => None
           end
  end.

Definition parseNotify `{Unicode} (value : bytes) : option (list bytes) :=
  if beq value [] then None
  else match notify_tokens (Split value ","%byte) [] with
       | None => None
       | Some ps => if mem ($"NEVER") ps && negb (length ps =? 1)%nat then None else Some ps
       end.

Definition parseRRVS `{Unicode} `{RFC3339} (value : bytes) : option RRVSOptions :=
  let check_time text disposition :=
    if beq text [] then None
    else match time_Parse text with
    | None => None
    | Some t =>
        if (20 <? Z.of_nat (length text)) && match nth_error text 19 with Some c => c =b "."%byte | None => false end
        then None
        else Some {| rrvs_Timestamp := time_Format t; rrvs_Disposition := disposition |}
    end in
  match Split value ";"%byte with
  | [text] => check_time text []
  | [text; disp] =>
      match check_time text (ToUpper disp) with
      | None => None
      | Some r => if beq (ToUpper disp) ($"C") || beq (ToUpper disp) ($"R") then Some r else None
      end
  | _ => None
  end.

(** ** Extension parameters *)

(** The extension that owns a MAIL keyword. *)
Definition mail_extension (kw : bytes) : option bytes :=
  if beq kw ($"RET") || beq kw ($"ENVID") then Some ($"DSN")
  else if beq kw ($"BY") then Some ($"DELIVERBY")
  else if beq kw ($"HOLDFOR") || beq kw ($"HOLDUNTIL") then Some ($"FUTURERELEASE")
  else if beq kw ($"MT-PRIORITY") then Some ($"MT-PRIORITY")
  else if beq kw ($"REQUIRETLS") then Some ($"REQUIRETLS")
  else if beq kw ($"SOLICIT") then Some ($"NO-SOLICITING")
  else if beq kw ($"MTRK") then Some ($"MTRK")
  else if beq kw ($"SUBMITTER") then Some ($"SUBMITTER")
  else if beq kw ($"CONPERM") then Some ($"CONPERM")
  else None.

Definition invalid {A} (kw : bytes) : result parameterError A := Err (invalidParameter kw CauseInvalid).

(** The second switch of [parseExtensionMailParameter]: the value of an admitted keyword stored in
    the options. [seen] already contains the keyword. *)
Definition store_mail_parameter `{Unicode} `{NetIP} `{RFC3339} (o : MailOptions) (kw : bytes) (param : Param)
    (capability : bytes) (seen : list bytes) : result parameterError MailOptions :=
  let v := Value param in
  let d := ensureDelivery o in
  let l := ensureLegacy o in
  if beq kw ($"RET") then
    if negb (validExtensionValue v) then invalid kw
    else Ok (set_dsn o (fun s => {| dsn_Return := ToUpper v; dsn_EnvelopeID := dsn_EnvelopeID s;
                                    dsn_EnvelopeIDOriginal := dsn_EnvelopeIDOriginal s |}))
  else if beq kw ($"ENVID") then
    let? decoded := decodeRequiredXtext kw v in
    Ok (set_dsn o (fun s => {| dsn_Return := dsn_Return s; dsn_EnvelopeID := decoded;
                               dsn_EnvelopeIDOriginal := Some param |}))
  else if beq kw ($"BY") then
    match parseDeliverBy v capability with
    | None => invalid kw
    | Some by_ =>
        Ok (set_delivery o {| del_DSN := del_DSN d; del_DeliverBy := Some by_;
                              del_FutureRelease := del_FutureRelease d; del_MTPriority := del_MTPriority d;
                              del_RequireTLS := del_RequireTLS d |})
    end
  else if beq kw ($"HOLDFOR") || beq kw ($"HOLDUNTIL") then
    let other := if beq kw ($"HOLDFOR") then $"HOLDUNTIL" else $"HOLDFOR" in
    if mem other seen then invalid kw
    else match parseFutureRelease kw v capability with
    | None => invalid kw
    | Some fr =>
        Ok (set_delivery o {| del_DSN := del_DSN d; del_DeliverBy := del_DeliverBy d;
                              del_FutureRelease := Some fr; del_MTPriority := del_MTPriority d;
                              del_RequireTLS := del_RequireTLS d |})
    end
  else if beq kw ($"MT-PRIORITY") then
    if negb (validSignedDecimal v) then invalid kw
    else Ok (set_delivery o {| del_DSN := del_DSN d; del_DeliverBy := del_DeliverBy d;
                               del_FutureRelease := del_FutureRelease d; del_MTPriority := v;
                               del_RequireTLS := del_RequireTLS d |})
  else if beq kw ($"REQUIRETLS") then
    if negb (beq v []) then invalid kw
    else Ok (set_delivery o {| del_DSN := del_DSN d; del_DeliverBy := del_DeliverBy d;
                               del_FutureRelease := del_FutureRelease d; del_MTPriority := del_MTPriority d;
                               del_RequireTLS := true |})
  else if beq kw ($"SOLICIT") then
    if negb (validSolicitValue v) then invalid kw
    else Ok (set_legacy o {| leg_Solicit := v; leg_TransitID := leg_TransitID l;
                             leg_Submitter := leg_Submitter l;
                             leg_SubmitterOriginal := leg_SubmitterOriginal l; leg_ConPerm := leg_ConPerm l |})
  else if beq kw ($"MTRK") then
    if negb (validMTRK v) then invalid kw
    else Ok (set_legacy o {| leg_Solicit := leg_Solicit l; leg_TransitID := v;
                             leg_Submitter := leg_Submitter l;
                             leg_SubmitterOriginal := leg_SubmitterOriginal l; leg_ConPerm := leg_ConPerm l |})
  else if beq kw ($"SUBMITTER") then
    let? decoded := decodeRequiredXtext kw v in
    if negb (validSubmitter decoded) then invalid kw
    else Ok (set_legacy o {| leg_Solicit := leg_Solicit l; leg_TransitID := leg_TransitID l;
                             leg_Submitter := decoded; leg_SubmitterOriginal := Some param;
                             leg_ConPerm := leg_ConPerm l |})
  else if negb (beq v []) then invalid kw
  else Ok (set_legacy o {| leg_Solicit := leg_Solicit l; leg_TransitID := leg_TransitID l;
                           leg_Submitter := leg_Submitter l;
                           leg_SubmitterOriginal := leg_SubmitterOriginal l; leg_ConPerm := true |}).

(** [Ok None] is "not handled"; otherwise the options and the keywords seen. *)
Definition parseExtensionMailParameter `{Unicode} `{NetIP} `{RFC3339} (o : MailOptions) (param : Param)
    (exts : extensions) (seen : list bytes) :
    result parameterError (option (MailOptions * list bytes)) :=
  let kw := ToUpper (Keyword param) in
  match mail_extension kw with
  | None => Ok None
  | Some ext =>
      match extensionParameter exts ext with
      | None => Err (unavailableParameter kw)
      | Some capability =>
          let? seen' := uniqueParameter seen kw in
          let? o' := store_mail_parameter o kw param capability seen' in
          Ok (Some (o', seen'))
      end
  end.

Definition rcpt_extension (kw : bytes) : option bytes :=
  if beq kw ($"NOTIFY") || beq kw ($"ORCPT") then Some ($"DSN")
  else if beq kw ($"RRVS") then Some ($"RRVS")
  else if beq kw ($"CONNEG") then Some ($"CONNEG")
  else None.

Definition store_rcpt_parameter `{Unicode} `{RFC3339} (o : RcptOptions) (kw : bytes) (param : Param) :
    result parameterError RcptOptions :=
  let v := Value param in
  if beq kw ($"NOTIFY") then
    match parseNotify v with
    | None => invalid kw
    | Some values =>
        Ok (set_dsn_rcpt o (fun s => {| dr_Notify := values; dr_OriginalType := dr_OriginalType s;
                                        dr_Original := dr_Original s;
                                        dr_ORCPTOriginal := dr_ORCPTOriginal s |}))
    end
  else if beq kw ($"ORCPT") then
    let '(addressType, encoded, ok) := Cut v ";"%byte in
    if negb ok || negb (validAtom addressType) || beq encoded [] then invalid kw
    else match DecodeXtext encoded with
    | Err _ => invalid kw
    | Ok decoded =>
        Ok (set_dsn_rcpt o (fun s => {| dr_Notify := dr_Notify s; dr_OriginalType := addressType;
                                        dr_Original := decoded; dr_ORCPTOriginal := Some param |}))
    end
  else if beq kw ($"RRVS") then
    match parseRRVS v with
    | None => invalid kw
    | Some r =>
        Ok {| ro_Delivery := Some {| rd_DSN := rd_DSN (ensureRecipientDelivery o); rd_RRVS := Some r |};
              ro_Legacy := ro_Legacy o; ro_Extra := ro_Extra o |}
    end
  else if negb (beq v []) then invalid kw
  else Ok {| ro_Delivery := ro_Delivery o; ro_Legacy := Some {| rl_ConNeg := true |}; ro_Extra := ro_Extra o |}.

Definition parseExtensionRcptParameter `{Unicode} `{RFC3339} (o : RcptOptions) (param : Param)
    (exts : extensions) (seen : list bytes) :
    result parameterError (option (RcptOptions * list bytes)) :=
  let kw := ToUpper (Keyword param) in
  match rcpt_extension kw with
  | None => Ok None
  | Some ext =>
      match extensionParameter exts ext with
      | None => Err (unavailableParameter kw)
      | Some _ =>
          let? seen' := uniqueParameter seen kw in
          let? o' := store_rcpt_parameter o kw param in
          Ok (Some (o', seen'))
      end
  end.

Definition validateExtensionMailPath (reversePath : bytes) (o : option MailOptions) : option parameterError :=
  match o with
  | None => None
  | Some o =>
      if beq reversePath [] && match mo_Delivery o with
                               | Some d => match del_FutureRelease d with Some _ => true | None => false end
                               | None => false end
      then Some (invalidParameter ($"FUTURERELEASE") CauseInvalid)
      else match mo_Legacy o with
      | Some l =>
          if negb (beq (leg_TransitID l) []) then
            match mo_Delivery o with
            | Some {| del_DSN := Some {| dsn_EnvelopeIDOriginal := Some original |} |} =>
                fail_if (negb (validMTRKENVID (Value original))) (invalidParameter ($"MTRK") CauseInvalid)
            | _ => Some (invalidParameter ($"MTRK") CauseInvalid)
            end
          else None
      | None => None
      end
  end.

(** ** cmd_params.go *)

Record mailParameterFeatures : Type := {
  feat_size : bool;
  feat_eightBit : bool;
  feat_binaryMIME : bool;
  feat_smtpUTF8 : bool;
  feat_auth : bool;
  feat_extensions : extensions
}.

Definition BodyType7Bit : bytes := $"7BIT".
Definition BodyType8BitMIME : bytes := $"8BITMIME".
Definition BodyTypeBinaryMIME : bytes := $"BINARYMIME".

(** The four parameters the framework itself owns; the keyword is already marked as seen. *)
Definition store_floor_parameter `{Unicode} (f : mailParameterFeatures) (o : MailOptions) (kw : bytes)
    (param : Param) : result parameterError MailOptions :=
  let v := Value param in
  let t := ensureTransport o in
  if beq kw ($"SIZE") then
    if negb (feat_size f) then Err (unavailableParameter kw)
    else if beq v [] || HasPrefix v ($"+") || HasPrefix v ($"-") then invalid kw
    else match ParseInt v with
    | None => invalid kw
    | Some size =>
        if size <? 0 then invalid kw
        else Ok (set_transport o {| opt_Size := Some size; opt_Body := opt_Body t;
                                    opt_SMTPUTF8 := opt_SMTPUTF8 t |})
    end
  else if beq kw ($"BODY") then
    let body := ToUpper v in
    let ok := Ok (set_transport o {| opt_Size := opt_Size t; opt_Body := body;
                                     opt_SMTPUTF8 := opt_SMTPUTF8 t |}) in
    if beq body BodyType7Bit || beq body BodyType8BitMIME then
      if negb (feat_eightBit f) then Err (unavailableParameter kw) else ok
    else if beq body BodyTypeBinaryMIME then
      if negb (feat_binaryMIME f) then Err (unavailableParameter kw) else ok
    else invalid kw
  else if beq kw ($"SMTPUTF8") then
    if negb (feat_smtpUTF8 f) then Err (unavailableParameter kw)
    else if negb (beq v []) then invalid kw
    else Ok (set_transport o {| opt_Size := opt_Size t; opt_Body := opt_Body t; opt_SMTPUTF8 := true |})
  else
    if negb (feat_auth f) then Err (unavailableParameter kw)
    else if beq v [] then invalid kw
    else match DecodeXtext v with
    | Err _ => invalid kw
    | Ok decoded =>
        Ok {| mo_Transport := mo_Transport o; mo_Delivery := mo_Delivery o; mo_Legacy := mo_Legacy o;
              mo_Auth := decoded; mo_AuthOriginal := Some param; mo_Extra := mo_Extra o |}
    end.

Definition floor_keyword (kw : bytes) : bool :=
  beq kw ($"SIZE") || beq kw ($"BODY") || beq kw ($"SMTPUTF8") || beq kw ($"AUTH").

Fixpoint parse_mail_parameters `{Unicode} `{NetIP} `{RFC3339} (f : mailParameterFeatures) (o : MailOptions)
    (seen : list bytes) (params : list Param) : result parameterError MailOptions :=
  match params with
  | [] => Ok o
  | param :: params' =>
      let kw := ToUpper (Keyword param) in
      if floor_keyword kw then
        let? seen' := uniqueParameter seen kw in
        let? o' := store_floor_parameter f o kw param in
        parse_mail_parameters f o' seen' params'
      else
        let? handled := parseExtensionMailParameter o param (feat_extensions f) seen in
        match handled with
        | Some (o', seen') => parse_mail_parameters f o' seen' params'
        | None =>
            parse_mail_parameters f
              {| mo_Transport := mo_Transport o; mo_Delivery := mo_Delivery o; mo_Legacy := mo_Legacy o;
                 mo_Auth := mo_Auth o; mo_AuthOriginal := mo_AuthOriginal o;
                 mo_Extra := mo_Extra o ++ [param] |} seen params'
        end
  end.

(** [Ok None] is the nil options of a command without parameters. *)
Definition parseMailParameters `{Unicode} `{NetIP} `{RFC3339} (params : list Param) (f : mailParameterFeatures) :
    result parameterError (option MailOptions) :=
  match params with
  | [] => Ok None
  | _ => let? o := parse_mail_parameters f zero_mail [] params in Ok (Some o)
  end.

Fixpoint parse_rcpt_parameters `{Unicode} `{RFC3339} (exts : extensions) (o : RcptOptions)
    (seen : list bytes) (params : list Param) : result parameterError RcptOptions :=
  match params with
  | [] => Ok o
  | param :: params' =>
      let? handled := parseExtensionRcptParameter o param exts seen in
      match handled with
      | Some (o', seen') => parse_rcpt_parameters exts o' seen' params'
      | None =>
          parse_rcpt_parameters exts
            {| ro_Delivery := ro_Delivery o; ro_Legacy := ro_Legacy o; ro_Extra := ro_Extra o ++ [param] |}
            seen params'
      end
  end.

Definition parseRcptParameters `{Unicode} `{RFC3339} (params : list Param) (exts : extensions) :
    result parameterError (option RcptOptions) :=
  match params with
  | [] => Ok None
  | _ => let? o := parse_rcpt_parameters exts zero_rcpt [] params in Ok (Some o)
  end.

(** ** Theorems *)
Module ParamFacts.
Section Params.
Context `{Unicode} `{NetIP} `{RFC3339}.

Definition kw_of (p : Param) : bytes := ToUpper (Keyword p).

(** The keywords the server interprets; all others are passed to the backend verbatim. *)
Definition known (kw : bytes) : bool :=
  floor_keyword kw || match mail_extension kw with Some _ => true | None => false end.

(** Whether the server offered what a keyword belongs to. *)
Definition offered (f : mailParameterFeatures) (kw : bytes) : Prop :=
  (kw = $"SIZE" -> feat_size f = true) /\
  (kw = $"SMTPUTF8" -> feat_smtpUTF8 f = true) /\
  (kw = $"AUTH" -> feat_auth f = true) /\
  (kw = $"BODY" -> feat_eightBit f = true \/ feat_binaryMIME f = true) /\
  (forall ext, mail_extension kw = Some ext -> extensionParameter (feat_extensions f) ext <> None).

Lemma mem_spec kw seen : mem kw seen = true <-> kw ∈ seen.
Proof.
  unfold mem. rewrite existsb_exists. split.
  - intros (x & Hx & E). destruct (beq_spec kw x) as [->|]; [|done]. by apply list_elem_of_In.
  - intros Hk%list_elem_of_In. exists kw. by rewrite beq_refl.
Qed.

Lemma uniqueParameter_inv seen kw seen' :
  uniqueParameter seen kw = Ok seen' -> seen' = kw :: seen /\ kw ∉ seen.
Proof.
  unfold uniqueParameter. destruct (mem kw seen) eqn:E; [done|]. intros [= <-]. split; [done|].
  intros Hin%mem_spec. congruence.
Qed.

(** What a value stored in the options satisfies. *)
Definition transport_ok (o : MailOptions) : Prop :=
  forall t, mo_Transport o = Some t ->
    (forall n, opt_Size t = Some n -> 0 <= n <= MaxInt64) /\
    opt_Body t ∈ [[]; BodyType7Bit; BodyType8BitMIME; BodyTypeBinaryMIME].

Definition delivery_ok (o : MailOptions) : Prop :=
  forall d, mo_Delivery o = Some d ->
    (forall b, del_DeliverBy d = Some b ->
       -999999999 <= by_Seconds b <= 999999999 /\
       (by_Mode b = $"N" \/ by_Mode b = $"R" /\ 1 <= by_Seconds b)) /\
    (forall r, del_FutureRelease d = Some r -> fr_HoldForSeconds r = 0 \/ fr_HoldUntil r = []).

Definition mail_ok (o : MailOptions) : Prop := transport_ok o /\ delivery_ok o.

Lemma mail_ok_zero : mail_ok zero_mail.
Proof. by split. Qed.

Lemma parseDeliverBy_inv value capability b :
  parseDeliverBy value capability = Some b ->
  -999999999 <= by_Seconds b <= 999999999 /\ (by_Mode b = $"N" \/ by_Mode b = $"R" /\ 1 <= by_Seconds b).
Proof.
  unfold parseDeliverBy. destruct (Split value ";"%byte) as [|time [|modeText [|]]]; try done.
  destruct (beq time []); [done|]. destruct (_ || _); [done|].
  destruct (ParseInt time) as [seconds|]; [|done].
  destruct ((seconds <? -999999999) || (999999999 <? seconds)) eqn:HB; [done|].
  set (md := TrimSuffix (ToUpper modeText) ($"T")).
  destruct (beq_spec md ($"N")) as [EN|]; destruct (beq_spec md ($"R")) as [ER|]; cbn [negb andb]; try done.
  - congruence.
  - intros E. assert (by_Seconds b = seconds /\ by_Mode b = md) as [-> ->] by by repeat case_match; simplify_eq.
    split; [lia|by left].
  - destruct (Z.ltb_spec seconds 1); [done|]. intros E.
    assert (by_Seconds b = seconds /\ by_Mode b = md) as [-> ->] by by repeat case_match; simplify_eq.
    split; [lia|by right].
Qed.

Lemma parseFutureRelease_inv kw value capability r :
  parseFutureRelease kw value capability = Some r -> fr_HoldForSeconds r = 0 \/ fr_HoldUntil r = [].
Proof. unfold parseFutureRelease. intros E. repeat case_match; simplify_eq; cbn; auto. Qed.

Lemma ensureDelivery_ok o : delivery_ok o ->
  (forall b, del_DeliverBy (ensureDelivery o) = Some b ->
     -999999999 <= by_Seconds b <= 999999999 /\ (by_Mode b = $"N" \/ by_Mode b = $"R" /\ 1 <= by_Seconds b)) /\
  (forall r, del_FutureRelease (ensureDelivery o) = Some r -> fr_HoldForSeconds r = 0 \/ fr_HoldUntil r = []).
Proof. intros D. unfold ensureDelivery. destruct (mo_Delivery o) as [d|] eqn:E; [by apply D|done]. Qed.

Lemma store_mail_parameter_inv o kw param capability seen o' :
  store_mail_parameter o kw param capability seen = Ok o' ->
  mo_Extra o' = mo_Extra o /\ (mail_ok o -> mail_ok o').
Proof.
  unfold store_mail_parameter.
  assert (forall d, (delivery_ok o -> delivery_ok (set_delivery o d)) ->
    mo_Extra (set_delivery o d) = mo_Extra o /\ (mail_ok o -> mail_ok (set_delivery o d))) as SD.
  { intros d Hd. split; [done|]. intros [T D]. by split; [|apply Hd]. }
  assert (forall l, mo_Extra (set_legacy o l) = mo_Extra o /\ (mail_ok o -> mail_ok (set_legacy o l))) as SL
    by (intros l; split; [done|by intros [T D]]).
  repeat (case_match; try done); intros E; simplify_eq; try apply SL; apply SD; clear SD SL;
    intros D; pose proof (ensureDelivery_ok _ D) as [D1 D2]; intros ? [= <-]; cbn; split; try done.
  all: intros b [= <-]; (by eapply parseDeliverBy_inv) || (by eapply parseFutureRelease_inv).
Qed.

Lemma store_floor_parameter_inv f o kw param o' :
  store_floor_parameter f o kw param = Ok o' -> floor_keyword kw = true ->
  mo_Extra o' = mo_Extra o /\ (mail_ok o -> mail_ok o') /\
  (kw = $"SIZE" -> feat_size f = true) /\ (kw = $"SMTPUTF8" -> feat_smtpUTF8 f = true) /\
  (kw = $"AUTH" -> feat_auth f = true) /\
  (kw = $"BODY" -> feat_eightBit f = true \/ feat_binaryMIME f = true).
Proof.
  unfold store_floor_parameter. intros E HF.
  assert (forall t, (transport_ok o -> transport_ok (set_transport o t)) ->
    mo_Extra (set_transport o t) = mo_Extra o /\ (mail_ok o -> mail_ok (set_transport o t))) as ST.
  { intros t Ht. split; [done|]. intros [T D]. by split; [apply Ht|]. }
  assert (transport_ok o -> (forall n, opt_Size (ensureTransport o) = Some n -> 0 <= n <= MaxInt64) /\
    opt_Body (ensureTransport o) ∈ [[]; BodyType7Bit; BodyType8BitMIME; BodyTypeBinaryMIME]) as ET.
  { intros T. unfold ensureTransport. destruct (mo_Transport o) as [t|] eqn:Et; [by apply T|].
    split; [done|apply list_elem_of_here]. }
  destruct (beq_spec kw ($"SIZE")) as [->|N1].
  { destruct (feat_size f); [|done]. cbn [negb] in E. destruct (_ || _); [done|].
    destruct (ParseInt (Value param)) as [n|] eqn:P; [|done]. destruct (Z.ltb_spec n 0); [done|]. simplify_eq.
    apply ParseInt_bounds in P. split_and!; try done; apply ST. intros T t [= <-]. cbn.
    split; [intros ? [= <-]; lia|]. by apply ET. }
  destruct (beq_spec kw ($"BODY")) as [->|N2].
  { assert (forall body, body ∈ [BodyType7Bit; BodyType8BitMIME; BodyTypeBinaryMIME] ->
      transport_ok o -> transport_ok (set_transport o {| opt_Size := opt_Size (ensureTransport o);
        opt_Body := body; opt_SMTPUTF8 := opt_SMTPUTF8 (ensureTransport o) |})) as TB.
    { intros body Hb T t [= <-]. cbn. split; [by apply ET|]. by apply list_elem_of_further. }
    destruct (beq (ToUpper (Value param)) BodyType7Bit || beq (ToUpper (Value param)) BodyType8BitMIME) eqn:HB.
    - destruct (feat_eightBit f) eqn:F8; [|done]. cbn [negb] in E. simplify_eq.
      split_and!; try done; [|by left]. apply ST, TB.
      apply orb_true_iff in HB as [HB|HB]; btrue; set_solver.
    - destruct (beq (ToUpper (Value param)) BodyTypeBinaryMIME) eqn:HB'; [|done].
      destruct (feat_binaryMIME f) eqn:F8; [|done]. cbn [negb] in E. simplify_eq.
      split_and!; try done; [|by right]. apply ST, TB. btrue. set_solver. }
  destruct (beq_spec kw ($"SMTPUTF8")) as [->|N3].
  { destruct (feat_smtpUTF8 f); [|done]. cbn [negb] in E. destruct (negb _); [done|]. simplify_eq.
    split_and!; try done; apply ST; intros T t [= <-]; cbn; by apply ET. }
  destruct (feat_auth f); [|done]. cbn [negb] in E. destruct (beq _ _); [done|].
  destruct (DecodeXtext _); [|done]. simplify_eq. by split_and!.
Qed.

Lemma mail_extension_floor kw ext : mail_extension kw = Some ext -> floor_keyword kw = false.
Proof.
  intros E. destruct (floor_keyword kw) eqn:F; [exfalso|done]. unfold floor_keyword in F.
  rewrite !orb_true_iff in F. destruct F as [[[F|F]|F]|F];
    btrue; vm_compute in E; done.
Qed.

Lemma floor_names kw : floor_keyword kw = false ->
  kw <> $"SIZE" /\ kw <> $"SMTPUTF8" /\ kw <> $"AUTH" /\ kw <> $"BODY".
Proof. intros E. split_and!; intros ->; by vm_compute in E. Qed.

Definition unknown (p : Param) : bool := negb (known (kw_of p)).

Lemma parse_mail_parameters_inv f params : forall o seen o',
  parse_mail_parameters f o seen params = Ok o' -> mail_ok o -> NoDup seen ->
  let kws := filter (fun kw => known kw = true) (map kw_of params) in
  mail_ok o' /\ NoDup (kws ++ seen) /\
  mo_Extra o' = mo_Extra o ++ filter (fun p => unknown p = true) params /\
  Forall (fun p => offered f (kw_of p)) params.
Proof.
  induction params as [|p params IH]; intros o seen o' E Ho Hs; cbn [parse_mail_parameters] in E.
  { simplify_eq. cbn. by rewrite app_nil_r. }
  fold (kw_of p) in E. cbn [map]. rewrite !filter_cons.
  assert (forall o1, mail_ok o1 -> mo_Extra o1 = mo_Extra o -> known (kw_of p) = true -> kw_of p ∉ seen ->
    offered f (kw_of p) -> parse_mail_parameters f o1 (kw_of p :: seen) params = Ok o' ->
    mail_ok o' /\ NoDup ((kw_of p :: filter (fun kw => known kw = true) (map kw_of params)) ++ seen) /\
    mo_Extra o' = mo_Extra o ++ filter (fun p => unknown p = true) params /\
    Forall (fun p => offered f (kw_of p)) (p :: params)) as Known.
  { intros o1 Ho1 Hx Hk Hn Hf E1. destruct (IH _ _ _ E1 Ho1) as (A & B & C & D); [by constructor|].
    rewrite Hx in C. split_and!; try done; [|by constructor].
    by rewrite <- Permutation_middle in B. }
  destruct (floor_keyword (kw_of p)) eqn:HF.
  - assert (known (kw_of p) = true) as HK by by unfold known; rewrite HF.
    assert (unknown p = false) as HU by by unfold unknown; rewrite HK.
    rewrite decide_True by done. rewrite HU. rewrite decide_False by done.
    destruct (uniqueParameter seen (kw_of p)) as [seen'|] eqn:EU; [|done].
    apply uniqueParameter_inv in EU as [-> Hn].
    destruct (store_floor_parameter f o (kw_of p) p) as [o1|] eqn:ES; [|done].
    destruct (store_floor_parameter_inv _ _ _ _ _ ES HF) as (Hx & Hok & F1 & F2 & F3 & F4).
    apply (Known o1); try done; [by apply Hok|]. split_and!; try done.
    intros ext Hext%mail_extension_floor. congruence.
  - destruct (parseExtensionMailParameter o p (feat_extensions f) seen) as [[[o1 seen']|]|] eqn:EX; [| |done];
      unfold parseExtensionMailParameter in EX; fold (kw_of p) in EX;
      destruct (mail_extension (kw_of p)) as [ext|] eqn:HM; try done;
      destruct (floor_names (kw_of p) HF) as (F1 & F2 & F3 & F4).
    + assert (known (kw_of p) = true) as HK by (unfold known; rewrite HF, HM; done).
      assert (unknown p = false) as HU by by unfold unknown; rewrite HK.
      rewrite decide_True by done. rewrite HU. rewrite decide_False by done.
      destruct (extensionParameter _ ext) as [capability|] eqn:HE; [|done].
      destruct (uniqueParameter seen (kw_of p)) as [seen1|] eqn:EU; [|done].
      apply uniqueParameter_inv in EU as [-> Hn].
      destruct (store_mail_parameter o (kw_of p) p capability (kw_of p :: seen)) as [o2|] eqn:ES; [|done].
      destruct (store_mail_parameter_inv _ _ _ _ _ _ ES) as (Hx & Hok). simplify_eq.
      apply (Known o1); try done; [by apply Hok|]. split_and!; try done.
      intros ext' Hext'. simplify_eq. by rewrite HE.
    + destruct (extensionParameter _ ext); [|done].
      destruct (uniqueParameter _ _); [|done]. by destruct (store_mail_parameter _ _ _ _ _).
    + assert (known (kw_of p) = false) as HK by (unfold known; rewrite HF, HM; done).
      assert (unknown p = true) as HU by by unfold unknown; rewrite HK.
      rewrite HK. rewrite decide_False by done. rewrite decide_True by done.
      destruct (IH _ _ _ E) as (A & B & C & D); [done|done|]. cbn in C. rewrite <- app_assoc in C.
      split_and!; try done. constructor; [|done]. split_and!; try done. intros ext Hext. congruence.
Qed.

(** C33: what an accepted MAIL command's parameters are: no interpreted keyword occurs twice, in
    whatever case; each one belongs to an extension the server offers; every other parameter
    reaches the backend verbatim and in order; and the stored values are in range (SIZE fits an
    int64 and is not negative, BODY is a registered value, BY is within nine digits with a mode N
    or R and a positive time for R, and only one form of future release is set). *)
Theorem parseMailParameters_sound f params o :
  parseMailParameters params f = Ok (Some o) ->
  mail_ok o /\ NoDup (filter (fun kw => known kw = true) (map kw_of params)) /\
  mo_Extra o = filter (fun p => unknown p = true) params /\
  Forall (fun p => offered f (kw_of p)) params.
Proof.
  unfold parseMailParameters. destruct params as [|p params]; [done|].
  destruct (parse_mail_parameters f zero_mail [] (p :: params)) as [o'|] eqn:E; [|done]. intros [= <-].
  destruct (parse_mail_parameters_inv _ _ _ _ _ E mail_ok_zero (NoDup_nil_2)) as (A & B & C & D).
  by rewrite app_nil_r in B.
Qed.

End Params.

Definition no_times : RFC3339 := {| time_Parse := fun _ => None; time_Format := fun _ => [] |}.

Definition sample_features : mailParameterFeatures :=
  {| feat_size := true; feat_eightBit := true; feat_binaryMIME := false; feat_smtpUTF8 := true;
     feat_auth := false; feat_extensions := [($"DELIVERBY", [])] |}.

Definition sample_params : list Param :=
  [{| Keyword := $"size"; Value := $"12" |}; {| Keyword := $"X-FOO"; Value := $"1" |};
   {| Keyword := $"BY"; Value := $"60;R" |}].

Definition sample_options : MailOptions :=
  {| mo_Transport := Some {| opt_Size := Some 12; opt_Body := []; opt_SMTPUTF8 := false |};
     mo_Delivery := Some {| del_DSN := None;
       del_DeliverBy := Some {| by_Seconds := 60; by_Mode := $"R"; by_Trace := false |};
       del_FutureRelease := None; del_MTPriority := []; del_RequireTLS := false |};
     mo_Legacy := None; mo_Auth := []; mo_AuthOriginal := None;
     mo_Extra := [{| Keyword := $"X-FOO"; Value := $"1" |}] |}.

Lemma parseMailParameters_sound_witness :
  mail_ok sample_options /\
  NoDup (filter (fun kw => known kw = true) (map (@kw_of ascii_only_unicode) sample_params)) /\
  mo_Extra sample_options = filter (fun p => @unknown ascii_only_unicode p = true) sample_params /\
  Forall (fun p => offered sample_features (@kw_of ascii_only_unicode p)) sample_params.
Proof.
  refine (@parseMailParameters_sound ascii_only_unicode no_literals no_times sample_features sample_params
    sample_options _). vm_compute. reflexivity.
Defined.

End ParamFacts.
