(* ===== verification/ServerCaps.v ===== *)
(** * smtpserver: capabilities

    capability.go, floor_extensions.go and ext_capabilities.go: what a session advertises in its
    EHLO reply, which authentication mechanisms it offers, and the validation of what a backend
    declares. [serverConfig] holds the Server's fixed options these functions read, [Session] the
    backend session's declarations: a callback the framework only tests for nil is a boolean. *)
From Stdlib Require Import ZArith Lia Bool.
From stdpp Require Import base list gmap strings.
From S2P Require Import Prelude GoStrings Wire Reply Command Path Ehlo Extensions Core ServerState.
From S2P Require Import ServerParams.

(** The options of a Server the session code reads. *)
Record serverConfig : Type := {
  identity : bytes;
  server_mode : listenerMode;
  maxMessage : Z;
  maxRcpt : Z;
  maxTransactions_opt : Z;
  chunking : bool;
  server_binaryMIME : bool;
  tlsConfigured : bool;
  requireTLS : bool;
  requireAuth : bool;
  authBefore : list bytes;
  authAfter : list bytes
}.

Record Capability : Type := { cap_Keyword : bytes; cap_Params : bytes }.

(** backend.go: Session, the parts the framework inspects without calling. *)
Record Session : Type := {
  ParameterExtensions : list Capability;
  SessionLimits : option smtp.Limits;
  has_Mail : bool;
  has_Rcpt : bool;
  has_Data : bool;
  has_Reset : bool;
  has_Close : bool;
  has_Authenticate : bool;
  has_ChallengeResponse : bool;
  has_SCRAMCredentials : bool;
  has_CommitAuth : bool;
  has_ATRN : bool
}.

(** ** Backend features *)

Definition backendAuthenticate : Z := Z.shiftl 1 0.
Definition backendChallengeResponse : Z := Z.shiftl 1 1.
Definition backendSCRAM : Z := Z.shiftl 1 2.
Definition backendATRN : Z := Z.shiftl 1 3.

Definition feature_contains (set required : Z) : bool := Z.land set required =? required.

Definition extensionBackendFeatures (s : Session) : Z := if has_ATRN s then backendATRN else 0.

Definition backendFeatures (s : Session) : Z :=
  let f0 := if has_Authenticate s then backendAuthenticate else 0 in
  let f1 := if has_ChallengeResponse s then Z.lor f0 backendChallengeResponse else f0 in
  let f2 := if has_SCRAMCredentials s then Z.lor f1 backendSCRAM else f1 in
  Z.lor f2 (extensionBackendFeatures s).

(** ** Authentication mechanisms *)

(** Whether one configured mechanism (in upper case) is usable. *)
Definition mechanism_available (name : bytes) (features : Z) (tls clientCertificate : bool) : bool :=
  if beq name ($"PLAIN") || beq name ($"LOGIN") || beq name ($"OAUTHBEARER") || beq name ($"XOAUTH2")
  then feature_contains features backendAuthenticate
  else if beq name ($"EXTERNAL")
  then feature_contains features backendAuthenticate && clientCertificate
  else if beq name ($"CRAM-MD5") then feature_contains features backendChallengeResponse
  else if beq name ($"SCRAM-SHA-1") || beq name ($"SCRAM-SHA-256")
  then feature_contains features backendSCRAM
  else if beq name ($"SCRAM-SHA-1-PLUS") || beq name ($"SCRAM-SHA-256-PLUS")
  then feature_contains features backendSCRAM && tls
  else false.

Fixpoint availableAuthMechanisms `{Unicode} (configured : list bytes) (features : Z)
    (tls clientCertificate : bool) : list bytes :=
  match configured with
  | [] => []
  | configuredName :: rest =>
      let name := ToUpper configuredName in
      let others := availableAuthMechanisms rest features tls clientCertificate in
      if mechanism_available name features tls clientCertificate then name :: others else others
  end.

(** The TLS state of a connection: whether a handshake happened and a client certificate came. *)
Record tlsState : Type := { tls_done : bool; tls_clientCertificate : bool }.

Definition authMechanisms `{Unicode} (cfg : serverConfig) (b : Session) (st : protocolState) (ts : tlsState)
    (extended : bool) : list bytes :=
  if negb extended then []
  else availableAuthMechanisms (if tls st then authAfter cfg else authBefore cfg) (backendFeatures b)
         (tls st) (tls_done ts && tls_clientCertificate ts).

Definition containsFold `{Unicode} (values : list bytes) (target : bytes) : bool :=
  existsb (fun v => EqualFold v target) values.

Definition authReachable `{Unicode} (cfg : serverConfig) (b : Session) (ts : tlsState) : bool :=
  let features := backendFeatures b in
  let nonempty (l : list bytes) := match l with [] => false | _ => true end in
  if tls_done ts
  then nonempty (availableAuthMechanisms (authAfter cfg) features true (tls_clientCertificate ts))
  else if nonempty (availableAuthMechanisms (authBefore cfg) features false false) then true
  else if negb (tlsConfigured cfg) then false
  else nonempty (availableAuthMechanisms (authAfter cfg) features true false)
       || (containsFold (authAfter cfg) ($"EXTERNAL") && feature_contains features backendAuthenticate).

(** ** capability.go *)

Inductive tlsAvailability : Type := tlsAny | tlsBefore | tlsAfter.

Record capabilityContext : Type := {
  cc_mode : listenerMode;
  cc_tls : bool;
  cc_authenticated : bool;
  cc_backend : Z
}.

Record capabilityDescriptor : Type := {
  cd_keyword : bytes;
  cd_params : option (capabilityContext -> bytes);
  cd_requiresBackend : Z;
  cd_requiresTLS : tlsAvailability;
  cd_requiresAuth : bool;
  cd_modes : Z;
  cd_available : option (capabilityContext -> bool)
}.

Definition descriptor_applies (ctx : capabilityContext) (d : capabilityDescriptor) : bool :=
  let mode := match cc_mode ctx with modeSMTP => modeSetSMTP | modeLMTP => modeSetLMTP end in
  if (Z.land (cd_modes d) mode =? 0) || negb (feature_contains (cc_backend ctx) (cd_requiresBackend d))
  then false
  else if match cd_requiresTLS d with
          | tlsAny => false | tlsBefore => cc_tls ctx | tlsAfter => negb (cc_tls ctx) end then false
  else if cd_requiresAuth d && negb (cc_authenticated ctx) then false
  else match cd_available d with Some available => available ctx | None => true end.

Fixpoint computeCapabilities (ctx : capabilityContext) (ds : list capabilityDescriptor) : list Extension :=
  match ds with
  | [] => []
  | d :: ds' =>
      if descriptor_applies ctx d then
        {| ExtKeyword := cd_keyword d; ExtParams := [];
           ExtRaw := match cd_params d with Some p => p ctx | None => [] end |}
        :: computeCapabilities ctx ds'
      else computeCapabilities ctx ds'
  end.

(** ** The descriptors of a session *)

Definition plain (kw : bytes) : capabilityDescriptor :=
  {| cd_keyword := kw; cd_params := None; cd_requiresBackend := 0; cd_requiresTLS := tlsAny;
     cd_requiresAuth := false; cd_modes := modeSetBoth; cd_available := None |}.

Definition with_params (kw params : bytes) (modes : Z) : capabilityDescriptor :=
  {| cd_keyword := kw; cd_params := Some (fun _ => params); cd_requiresBackend := 0;
     cd_requiresTLS := tlsAny; cd_requiresAuth := false; cd_modes := modes; cd_available := None |}.

Definition formatLimits (l : smtp.Limits) : bytes :=
  Join ((if smtp.MailMax l =? 0 then [] else [$"MAILMAX=" ++ FormatUint (smtp.MailMax l)]) ++
        (if smtp.RcptMax l =? 0 then [] else [$"RCPTMAX=" ++ FormatUint (smtp.RcptMax l)]) ++
        (if smtp.RcptDomainMax l =? 0 then [] else [$"RCPTDOMAINMAX=" ++ FormatUint (smtp.RcptDomainMax l)]) ++
        (if beq (smtp.Extra l) [] then [] else [smtp.Extra l])) [SP].

(** [auth] is the session's available mechanisms. *)
Definition extensionCapabilityDescriptors (b : Session) (auth : list bytes) : list capabilityDescriptor :=
  map (fun c => with_params (cap_Keyword c) (cap_Params c)
                  (if beq (cap_Keyword c) ExtFutureRelease then modeSetSMTP else modeSetBoth))
    (ParameterExtensions b) ++
  match SessionLimits b with
  | Some l => [with_params ($"LIMITS") (formatLimits l) modeSetBoth]
  | None => []
  end ++
  [{| cd_keyword := $"ATRN"; cd_params := None; cd_requiresBackend := backendATRN;
      cd_requiresTLS := tlsAny; cd_requiresAuth := false; cd_modes := modeSetSMTP;
      cd_available := Some (fun _ => match auth with [] => false | _ => true end) |}].

Definition floor_descriptors (cfg : serverConfig) (auth : list bytes) : list capabilityDescriptor :=
  [ plain ($"PIPELINING");
    with_params ($"SIZE") (FormatInt (maxMessage cfg)) modeSetBoth;
    plain ($"8BITMIME");
    plain ($"ENHANCEDSTATUSCODES");
    {| cd_keyword := $"STARTTLS"; cd_params := None; cd_requiresBackend := 0; cd_requiresTLS := tlsBefore;
       cd_requiresAuth := false; cd_modes := modeSetBoth;
       cd_available := Some (fun _ => tlsConfigured cfg) |};
    {| cd_keyword := $"AUTH"; cd_params := Some (fun _ => Join auth [SP]); cd_requiresBackend := 0;
       cd_requiresTLS := tlsAny; cd_requiresAuth := false; cd_modes := modeSetBoth;
       cd_available := Some (fun ctx => match auth with [] => false | _ => true end
                                        && negb (cc_authenticated ctx)) |};
    plain ($"SMTPUTF8");
    {| cd_keyword := $"CHUNKING"; cd_params := None; cd_requiresBackend := 0; cd_requiresTLS := tlsAny;
       cd_requiresAuth := false; cd_modes := modeSetBoth; cd_available := Some (fun _ => chunking cfg) |};
    {| cd_keyword := $"BINARYMIME"; cd_params := None; cd_requiresBackend := 0; cd_requiresTLS := tlsAny;
       cd_requiresAuth := false; cd_modes := modeSetBoth;
       cd_available := Some (fun _ => server_binaryMIME cfg && chunking cfg) |} ].

Definition capabilities `{Unicode} (cfg : serverConfig) (b : Session) (st : protocolState) (ts : tlsState)
    (extended : bool) : list Extension :=
  let auth := authMechanisms cfg b st ts extended in
  computeCapabilities
    {| cc_mode := mode st; cc_tls := tls st; cc_authenticated := authenticated st;
       cc_backend := backendFeatures b |}
    (floor_descriptors cfg auth ++ extensionCapabilityDescriptors b auth).

(** The declared extensions a MAIL or RCPT parameter may use. *)
Definition parameterExtensionMap (cfg : serverConfig) (b : Session) : extensions :=
  map (fun c => (cap_Keyword c, cap_Params c))
    (List.filter (fun c => negb (beq (cap_Keyword c) ExtFutureRelease
                                 && match server_mode cfg with modeLMTP => true | modeSMTP => false end))
       (ParameterExtensions b)).

Definition mail_parameter_features `{Unicode} (cfg : serverConfig) (b : Session) (st : protocolState)
    (ts : tlsState) (extended : bool) : mailParameterFeatures :=
  {| feat_size := extended; feat_eightBit := extended;
     feat_binaryMIME := server_binaryMIME cfg && chunking cfg; feat_smtpUTF8 := extended;
     feat_auth := match authMechanisms cfg b st ts extended with [] => false | _ => true end;
     feat_extensions := parameterExtensionMap cfg b |}.

(** ** Validation of a backend session *)

Definition frameworkCapabilities : list bytes :=
  [$"PIPELINING"; $"SIZE"; $"8BITMIME"; $"ENHANCEDSTATUSCODES"; $"STARTTLS"; $"AUTH"; $"SMTPUTF8";
   $"CHUNKING"; $"BINARYMIME"; $"LIMITS"; $"ATRN"; $"ETRN"; $"BURL"].

Definition validExtensionKeyword `{Unicode} (keyword : bytes) : bool :=
  if beq keyword [] || negb (beq keyword (ToUpper keyword)) then false
  else forallb (fun c => is_upper c || is_digit c || (c =b "-"%byte)) keyword
       && match keyword with c :: _ => is_upper c | [] => false end.

(** [strings.TrimSpace(params) != params] for a string of printable ASCII: it begins or ends with
    white space. *)
Definition space_framed (s : bytes) : bool :=
  match runes s with
  | [] => false
  | (r0, _) :: _ => IsSpace r0 || match last (runes s) with Some (r, _) => IsSpace r | None => false end
  end.

Definition validCapabilityParams (params : bytes) : bool :=
  match params with
  | [] => true
  | _ => negb (space_framed params) && forallb (fun c => (32 <=? bz c) && (bz c <=? 126)) params
  end.

(** [None] is "no problem". *)
Definition validateKnownCapabilityParams `{RFC3339} (keyword params : bytes) : bool :=
  if beq keyword ($"DELIVERBY") then
    match Split params ","%byte with
    | p0 :: tokens =>
        (beq p0 [] ||
         match ParseInt p0 with
         | Some minimum => (1 <=? minimum) && (minimum <=? 999999999) && beq (FormatInt minimum) p0
         | None => false
         end)
        && forallb (fun t => negb (beq t [] || ContainsAny t [SP; ","%byte; x09; CR; LF; x00])) tokens
    | [] => true
    end
  else if beq keyword ExtFutureRelease then
    match Fields params with
    | [f0; f1] =>
        match ParseInt f0 with
        | Some maximum => (1 <=? maximum) && (maximum <=? 999999999)
        | None => false
        end && match time_Parse f1 with Some _ => true | None => false end
    | _ => false
    end
  else if beq keyword ($"NO-SOLICITING") then beq params [] || validSolicitValue params
  else true.

Inductive session_problem : Type :=
| ProblemMissing (callback : bytes)
| ProblemKeyword (i : nat) | ProblemFramework (i : nat) | ProblemDuplicate (i : nat)
| ProblemParams (i : nat) | ProblemKnownParams (i : nat)
| ProblemMTRK | ProblemLimitSize | ProblemExtraSpacing
| ProblemLimitName (i : nat) | ProblemLimitDuplicate (i : nat) | ProblemLimitValue (i : nat)
| ProblemATRN | ProblemCommitAuth.

(** The loop over the declared capabilities: problems and the keywords seen. *)
Fixpoint check_capabilities `{Unicode} `{RFC3339} (i : nat) (caps : list Capability) (seen : list bytes) :
    list session_problem * list bytes :=
  match caps with
  | [] => ([], seen)
  | c :: caps' =>
      let kw := cap_Keyword c in
      let next p := let '(ps, s) := check_capabilities (S i) caps' seen in (p ++ ps, s) in
      let next_seen p := let '(ps, s) := check_capabilities (S i) caps' (kw :: seen) in (p ++ ps, s) in
      if negb (validExtensionKeyword kw) then next [ProblemKeyword i]
      else if mem kw frameworkCapabilities then next [ProblemFramework i]
      else if mem kw seen then next [ProblemDuplicate i]
      else if negb (validCapabilityParams (cap_Params c)) then next_seen [ProblemParams i]
      else next_seen (if validateKnownCapabilityParams kw (cap_Params c) then [] else [ProblemKnownParams i])
  end.

(** The loop over the fields of Limits.Extra. *)
Fixpoint check_limit_fields `{Unicode} (i : nat) (fields : list bytes) (names : list bytes) :
    list session_problem :=
  match fields with
  | [] => []
  | field :: fields' =>
      let '(keyword, value, hasValue) := Cut field "="%byte in
      if negb (smtp.validLimitName keyword) then ProblemLimitName i :: check_limit_fields (S i) fields' names
      else
        let canonical := ToUpper keyword in
        if mem canonical names then ProblemLimitDuplicate i :: check_limit_fields (S i) fields' names
        else (if hasValue && negb (smtp.validLimitValue value) then [ProblemLimitValue i] else [])
             ++ check_limit_fields (S i) fields' (canonical :: names)
  end.

Definition known_limits : list bytes := [$"MAILMAX"; $"RCPTMAX"; $"RCPTDOMAINMAX"].

Definition check_limits `{Unicode} (l : smtp.Limits) : list session_problem :=
  (if 999999 <? smtp.MailMax l then [ProblemLimitSize] else []) ++
  (if 999999 <? smtp.RcptMax l then [ProblemLimitSize] else []) ++
  (if 999999 <? smtp.RcptDomainMax l then [ProblemLimitSize] else []) ++
  (if beq (Join (Fields (smtp.Extra l)) [SP]) (smtp.Extra l) then [] else [ProblemExtraSpacing]) ++
  check_limit_fields 0 (Fields (smtp.Extra l)) known_limits.

Definition validateExtensionSession `{Unicode} `{RFC3339} (b : Session) : list session_problem :=
  let '(ps, seen) := check_capabilities 0 (ParameterExtensions b) [] in
  ps ++ (if mem ($"MTRK") seen && negb (mem ($"DSN") seen) then [ProblemMTRK] else []) ++
  match SessionLimits b with Some l => check_limits l | None => [] end ++
  (if has_ATRN b && negb (has_Authenticate b) && negb (has_ChallengeResponse b)
      && negb (has_SCRAMCredentials b) then [ProblemATRN] else []).

(** config.go: [validateSession] on a non-nil session. *)
Definition validateSession `{Unicode} `{RFC3339} (b : Session) : list session_problem :=
  (if has_Mail b then [] else [ProblemMissing ($"Mail")]) ++
  (if has_Rcpt b then [] else [ProblemMissing ($"Rcpt")]) ++
  (if has_Data b then [] else [ProblemMissing ($"Data")]) ++
  (if has_Reset b then [] else [ProblemMissing ($"Reset")]) ++
  (if has_Close b then [] else [ProblemMissing ($"Close")]) ++
  (if (has_Authenticate b || has_ChallengeResponse b || has_SCRAMCredentials b) && negb (has_CommitAuth b)
   then [ProblemCommitAuth] else []) ++
  validateExtensionSession b.

(** server.go: the identities a greeting may carry. *)
Definition validGreetingLabel (label : bytes) : bool :=
  negb (beq label [] || HasPrefix label ($"-") || HasSuffix label ($"-"))
  && forallb (fun c => is_alnum c || (c =b "-"%byte)) label.

Definition greeting_literal `{Unicode} `{NetIP} (inside : bytes) : bool :=
  if HasPrefix (ToUpper inside) ($"IPV6:") then ParseAddr_Is6 (drop 5 inside)
  else if ParseAddr_Is4 inside || ParseAddr_Is6 inside then ParseAddr_Is4 inside
  else
    let '(tag, value, ok) := Cut inside ":"%byte in
    ok && validGreetingLabel tag && negb (beq value [])
    && negb (ContainsAny value ["["%byte; "]"%byte; BACKSLASH]).

Definition validGreetingIdentity `{Unicode} `{NetIP} (id : bytes) : bool :=
  if beq id [] || (255 <? Z.of_nat (length id)) then false
  else if negb (forallb is_graph id) then false
  else match id with
  | c :: rest =>
      if c =b "["%byte then
        if (length id <? 3)%nat || negb (HasSuffix id ($"]")) then false
        else greeting_literal (take (length rest - 1) rest)
      else forallb (fun l => validGreetingLabel l && (Z.of_nat (length l) <=? 63)) (Split id "."%byte)
  | [] => false
  end.
