(* ===== verification/ServerSession.v ===== *)
(** * smtpserver: the session

    The state of one connection ([commandSession] with its [sessionLifecycle]) and every command
    handler: lifecycle.go, cmd_reply.go, cmd_session.go, cmd_data.go, cmd_auth.go,
    floor_extensions.go ([handleSTARTTLS]), ext_atrn.go, loop.go and the connection part of
    cmd_server.go. A handler is a computation in [M]: it passes the session state and returns a
    [commandAction] or the error that ends the connection. A Go panic, which [serveConnection]
    recovers and treats as such an error, is [SPanic].

    What is outside the program is an argument: [env] answers each interaction with the transport,
    the operating system and the clock, in turn ([clock] counts them); [backendSession] holds the
    backend's callbacks. A callback sees the log of all the calls before it, so a stateful backend
    is a function of that log. Deadlines and contexts only decide which transport operations fail;
    they are part of [env]. Error reporting to the server's log has no effect on a session and is
    left out. *)
From Stdlib Require Import ZArith Lia Bool.
From stdpp Require Import base list gmap strings.
From S2P Require Import Prelude GoStrings Base64 Sasl Wire DotStuff Reply Command Path Ehlo Core.
From S2P Require Import Spool ServerState ServerData ServerParams ServerCaps.
Import smtpsasl.

(** ** The backend *)

Inductive ResetReason : Type :=
| ResetExplicit | ResetNewMail | ResetCompleted | ResetFailed | ResetStartTLS | ResetSessionEnd.

#[global] Instance ResetReason_eq_dec : EqDecision ResetReason.
Proof. solve_decision. Defined.

Record OAuthError : Type := { oe_Status : bytes; oe_Scope : bytes; oe_OpenIDConfiguration : bytes }.
Record AuthFailure : Type := { af_Err : option smtp.Error; af_OAuth : option OAuthError }.
Record AuthResult : Type := { Identity : bytes; Failure : option AuthFailure }.

(** One call of a callback, with its arguments and, where the callback returns, its result. [Data]
    records the reads the backend performed. *)
Inductive event : Type :=
| CallMail (reversePath : bytes) (params : option MailOptions) (err : option backend_err)
| CallRcpt (forwardPath : bytes) (params : option RcptOptions) (err : option backend_err)
    (successLines : list bytes)
| CallData (observed : list (bytes * option data_err))
| CallReset (reason : ResetReason)
| CallClose
| CallVerify (address : bytes)
| CallExpand (list_ : bytes)
| CallHelp (topic : bytes)
| CallETRN (domain : bytes)
| CallATRN (domains : list bytes)
| CallTakeover
| CallAuthVerifier (request : VerificationRequest)
| CallCommitAuth (result : AuthResult).

Record backendSession : Type := {
  be_decl : Session;
  be_Mail : list event -> bytes -> option MailOptions -> option backend_err;
  be_Rcpt : list event -> bytes -> option RcptOptions -> option backend_err * list bytes;
  be_Data : list event -> dataBackend;
  be_Verify : option (list event -> bytes -> result backend_err bytes);
  be_Expand : option (list event -> bytes -> result backend_err (list bytes));
  be_Help : option (list event -> bytes -> result backend_err bytes);
  be_ETRN : option (list event -> bytes -> option backend_err);
  (** whether the result carries a Takeover callback *)
  be_ATRN : list event -> list bytes -> result backend_err bool;
  be_Authenticate : list event -> VerificationRequest -> result backend_err (option AuthResult);
  be_ChallengeResponse : list event -> VerificationRequest -> result backend_err (option AuthResult);
  be_SCRAMCredentials :
    list event -> VerificationRequest -> result backend_err (option (SCRAMKeys * AuthResult))
}.

(** ** The environment *)

Record env : Type := {
  env_write : nat -> bool;
  env_buffered : nat -> nat;
  env_cancelled : nat -> bool;
  (** the stream after the TLS handshake of STARTTLS, which a connection does at most once, and
      whether a client certificate came *)
  env_handshake : option (LineReader * bool);
  env_os : nat -> nat -> os_env;
  env_cuts : nat -> list nat;
  env_now : nat -> bytes;
  env_random : nat -> option bytes;
  env_binding : option bytes
}.

(** What is fixed for one connection. *)
Record connection : Type := {
  cn_cfg : serverConfig;
  cn_backend : backendSession;
  cn_env : env;
  cn_maxTransactions : Z;
  cn_trace : bool
}.

(** ** The session state *)

Inductive serr : Type :=
| SWire (e : wire_err) | SWrite | STransition | SNoHandler | STLS | SReceived (e : wire_err)
| SCause (c : option data_cause) | SASL (e : sasl_err) | SASLResponse | SPanic | SCancelled | SFuel.

Record commandSession : Type := {
  st : protocolState;
  tlsSt : tlsState;
  lr_ : LineReader;
  pending : list bytes;
  sent : list bytes;
  clock : nat;
  transactionOpen : bool;
  lspool : option spool;
  closeDone : bool;
  extended : bool;
  smtpUTF8 : bool;
  binaryMIME : bool;
  recipients : list bytes;
  mailAttempts : Z;
  spools : spoolManager;
  log : list event;
  traces : list bytes
}.

Definition set_st (s : commandSession) (v : protocolState) : commandSession :=
  {| st := v; tlsSt := tlsSt s; lr_ := lr_ s; pending := pending s; sent := sent s; clock := clock s;
     transactionOpen := transactionOpen s; lspool := lspool s; closeDone := closeDone s;
     extended := extended s; smtpUTF8 := smtpUTF8 s; binaryMIME := binaryMIME s;
     recipients := recipients s; mailAttempts := mailAttempts s; spools := spools s; log := log s;
     traces := traces s |}.

Definition set_io (s : commandSession) (r : LineReader) (p o : list bytes) (c : nat) : commandSession :=
  {| st := st s; tlsSt := tlsSt s; lr_ := r; pending := p; sent := o; clock := c;
     transactionOpen := transactionOpen s; lspool := lspool s; closeDone := closeDone s;
     extended := extended s; smtpUTF8 := smtpUTF8 s; binaryMIME := binaryMIME s;
     recipients := recipients s; mailAttempts := mailAttempts s; spools := spools s; log := log s;
     traces := traces s |}.

Definition set_tls (s : commandSession) (t : tlsState) : commandSession :=
  {| st := st s; tlsSt := t; lr_ := lr_ s; pending := pending s; sent := sent s; clock := clock s;
     transactionOpen := transactionOpen s; lspool := lspool s; closeDone := closeDone s;
     extended := extended s; smtpUTF8 := smtpUTF8 s; binaryMIME := binaryMIME s;
     recipients := recipients s; mailAttempts := mailAttempts s; spools := spools s; log := log s;
     traces := traces s |}.

(** The lifecycle's fields and the shared spool manager. *)
Definition set_life (s : commandSession) (o : bool) (sp : option spool) (m : spoolManager) : commandSession :=
  {| st := st s; tlsSt := tlsSt s; lr_ := lr_ s; pending := pending s; sent := sent s; clock := clock s;
     transactionOpen := o; lspool := sp; closeDone := closeDone s;
     extended := extended s; smtpUTF8 := smtpUTF8 s; binaryMIME := binaryMIME s;
     recipients := recipients s; mailAttempts := mailAttempts s; spools := m; log := log s;
     traces := traces s |}.

Definition set_closed (s : commandSession) : commandSession :=
  {| st := st s; tlsSt := tlsSt s; lr_ := lr_ s; pending := pending s; sent := sent s; clock := clock s;
     transactionOpen := transactionOpen s; lspool := lspool s; closeDone := true;
     extended := extended s; smtpUTF8 := smtpUTF8 s; binaryMIME := binaryMIME s;
     recipients := recipients s; mailAttempts := mailAttempts s; spools := spools s; log := log s;
     traces := traces s |}.

Definition set_flags (s : commandSession) (e u b : bool) (rs : list bytes) : commandSession :=
  {| st := st s; tlsSt := tlsSt s; lr_ := lr_ s; pending := pending s; sent := sent s; clock := clock s;
     transactionOpen := transactionOpen s; lspool := lspool s; closeDone := closeDone s;
     extended := e; smtpUTF8 := u; binaryMIME := b;
     recipients := rs; mailAttempts := mailAttempts s; spools := spools s; log := log s;
     traces := traces s |}.

Definition set_attempts (s : commandSession) (n : Z) : commandSession :=
  {| st := st s; tlsSt := tlsSt s; lr_ := lr_ s; pending := pending s; sent := sent s; clock := clock s;
     transactionOpen := transactionOpen s; lspool := lspool s; closeDone := closeDone s;
     extended := extended s; smtpUTF8 := smtpUTF8 s; binaryMIME := binaryMIME s;
     recipients := recipients s; mailAttempts := n; spools := spools s; log := log s;
     traces := traces s |}.

Definition add_log (s : commandSession) (e : event) : commandSession :=
  {| st := st s; tlsSt := tlsSt s; lr_ := lr_ s; pending := pending s; sent := sent s; clock := clock s;
     transactionOpen := transactionOpen s; lspool := lspool s; closeDone := closeDone s;
     extended := extended s; smtpUTF8 := smtpUTF8 s; binaryMIME := binaryMIME s;
     recipients := recipients s; mailAttempts := mailAttempts s; spools := spools s; log := log s ++ [e];
     traces := traces s |}.

Definition add_trace (s : commandSession) (l : bytes) : commandSession :=
  {| st := st s; tlsSt := tlsSt s; lr_ := lr_ s; pending := pending s; sent := sent s; clock := clock s;
     transactionOpen := transactionOpen s; lspool := lspool s; closeDone := closeDone s;
     extended := extended s; smtpUTF8 := smtpUTF8 s; binaryMIME := binaryMIME s;
     recipients := recipients s; mailAttempts := mailAttempts s; spools := spools s; log := log s;
     traces := traces s ++ [l] |}.

Definition tick (s : commandSession) : commandSession :=
  set_io s (lr_ s) (pending s) (sent s) (S (clock s)).
Definition set_reader (s : commandSession) (r : LineReader) : commandSession :=
  set_io s r (pending s) (sent s) (S (clock s)).

Definition clearTransaction (s : commandSession) : commandSession := set_flags s (extended s) false false [].

(** ** The monad *)

Definition M (A : Type) : Type := commandSession -> commandSession * result serr A.

#[global] Instance M_ret : MRet M := fun _ a s => (s, Ok a).
#[global] Instance M_bind : MBind M := fun _ _ k m s =>
  match m s with
  | (s', Ok a) => k a s'
  | (s', Err e) => (s', Err e)
  end.
Definition fail {A} (e : serr) : M A := fun s => (s, Err e).
Definition get_session : M commandSession := fun s => (s, Ok s).
Definition modify (f : commandSession -> commandSession) : M unit := fun s => (f s, Ok tt).

Record commandAction : Type := { synchronizationPoint_ : bool; act_close : bool }.
Definition continue_ : commandAction := {| synchronizationPoint_ := false; act_close := false |}.
Definition sync_ : commandAction := {| synchronizationPoint_ := true; act_close := false |}.
Definition close_ : commandAction := {| synchronizationPoint_ := true; act_close := true |}.

(** ** Replies: cmd_reply.go *)

Record wireReply : Type := {
  code : Z;
  enhanced : smtp.EnhancedCode;
  text : bytes;
  lines : list bytes;
  context : ReplyContext
}.

(** A reply with one line of text in the context of a command. *)
Definition reply_of (c : Z) (e : smtp.EnhancedCode) (t : bytes) : wireReply :=
  {| code := c; enhanced := e; text := t; lines := []; context := ReplyContextCommand |}.

Definition encodeWireReply (r : wireReply) : result wire_err bytes :=
  let e := enhanced r in
  EncodeReply {| Reply.Code := code r; Reply.Lines := lines r; Reply.Text := text r |}
    {| Enhanced := if beq (smtp.String e) [] then None
                   else Some {| Reply.Class := smtp.Class e; Reply.Subject := smtp.Subject e;
                                Reply.Detail := smtp.Detail e; Reply.Raw := [] |};
       Context := context r |}.

Definition genericEnhanced (c : Z) : smtp.EnhancedCode :=
  let class := c ÷ 100 in
  if (class =? 2) || (class =? 4) || (class =? 5) then status class 0 0 else smtp.ZeroEnhanced.

Definition errorReply (err : backend_err) (fallbackCode : Z) (fallbackText : bytes) : wireReply :=
  match err with
  | Protocol protocol =>
      if 200 <=? smtp.Code protocol then
        let e := fst (normalizeEnhancedCode (smtp.Code protocol) (smtp.Enhanced protocol)) in
        let t := if beq (smtp.Text protocol) [] then fallbackText else smtp.Text protocol in
        reply_of (smtp.Code protocol) e t
      else reply_of fallbackCode (genericEnhanced fallbackCode) fallbackText
  | Opaque => reply_of fallbackCode (genericEnhanced fallbackCode) fallbackText
  end.

(** Whether a command ends a pipelined group. *)
Definition synchronizationPoint (verb : bytes) : bool :=
  negb (beq verb ($"MAIL") || beq verb ($"RCPT") || beq verb ($"RSET") || beq verb ($"BDAT")).

Section Session.
Context `{Unicode} `{NetIP} `{RFC3339} `{Crypto} (cn : connection).

Definition cfg_ : serverConfig := cn_cfg cn.
Definition decl_ : Session := be_decl (cn_backend cn).

Definition trace_line (l : bytes) : M unit :=
  modify (fun s => if cn_trace cn then add_trace s l else s).

Definition reply_line (r : wireReply) : bytes :=
  Itoa (code r) ++ SP :: (match lines r with [] => text r | ls => Join ls [LF] end).

(** The write deadline and the buffered write fail or succeed together as [env_write]. *)
Definition writeReply (r : wireReply) : M unit := fun s =>
  if env_write (cn_env cn) (clock s) then
    match encodeWireReply r with
    | Err e => (tick s, Err (SWire e))
    | Ok bs => trace_line (reply_line r) (set_io s (lr_ s) (pending s ++ [bs]) (sent s) (S (clock s)))
    end
  else (tick s, Err SWrite).

Definition Flush : M unit := fun s =>
  if env_write (cn_env cn) (clock s)
  then (set_io s (lr_ s) [] (sent s ++ pending s) (S (clock s)), Ok tt)
  else (tick s, Err SWrite).

Definition writeResult (r : smtp.RecipientResult) : M unit :=
  let n := fst (normalizeRecipientResult r) in
  writeReply (reply_of (smtp.RCode n) (smtp.REnhanced n)
    (if beq (smtp.RText n) [] then $"OK" else smtp.RText n)).

Definition syntaxReply (name : bytes) : M commandAction :=
  writeReply (reply_of 501 (status 5 5 2) ($"Invalid " ++ name)) ;; mret sync_.

Definition policyReply (t : bytes) : M commandAction :=
  writeReply (reply_of 530 (status 5 7 0) t) ;; mret continue_.

Definition notImplementedReply (command : bytes) : M commandAction :=
  writeReply (reply_of 502 (status 5 5 1) (command ++ $" not implemented")) ;; mret sync_.

Definition backendReply (command : bytes) (err : backend_err) (fallbackCode : Z) (fallbackText : bytes) :
    M commandAction :=
  writeReply (errorReply err fallbackCode fallbackText) ;;
  mret {| synchronizationPoint_ := synchronizationPoint command; act_close := false |}.

Definition noRecipientsReply : M commandAction :=
  writeReply (reply_of 503 (status 5 5 1) ($"No valid recipients")) ;; mret sync_.

(** ** lifecycle.go *)

Definition life_reset (reason : ResetReason) (s : commandSession) : commandSession :=
  let m := match lspool s with Some sp => fst (Spool.Close (spools s) sp) | None => spools s end in
  add_log (set_life s false None m) (CallReset reason).

Definition life_resetIfOpen (reason : ResetReason) (s : commandSession) : commandSession :=
  match transactionOpen s, lspool s with
  | false, None => s
  | _, _ => life_reset reason s
  end.

Definition life_mail (reversePath : bytes) (params : option MailOptions) (s0 : commandSession) :
    commandSession * option backend_err :=
  let s := if transactionOpen s0 then life_reset ResetNewMail s0 else s0 in
  match be_Mail (cn_backend cn) (log s) reversePath params with
  | Some err => (add_log s (CallMail reversePath params (Some err)), Some err)
  | None => (set_life (add_log s (CallMail reversePath params None)) true (lspool s) (spools s), None)
  end.

(** The handler attaches a spool only where there is none. *)
Definition attachSpool (sp : spool) (s : commandSession) : commandSession :=
  set_life s (transactionOpen s) (Some sp)
    (match lspool s with Some old => fst (Spool.Close (spools s) old) | None => spools s end).

Definition life_close (s : commandSession) : commandSession :=
  if closeDone s then s
  else add_log (life_resetIfOpen ResetSessionEnd (set_closed s)) CallClose.

(** ** cmd_session.go *)

Definition transition_ (e : stateEvent) : M unit := fun s =>
  match transition (st s) e with
  | Some p => (set_st s p, Ok tt)
  | None => (s, Err STransition)
  end.

(** [_ = s.state.transition(e)]: the state is unchanged when it is refused. *)
Definition transition_ignored (e : stateEvent) (s : commandSession) : commandSession :=
  match transition (st s) e with Some p => set_st s p | None => s end.

Definition session_close (s : commandSession) : commandSession :=
  transition_ignored eventClose (life_close s).

Definition isFramedCommandSyntaxError (e : wire_err) : bool :=
  match e with
  | ErrCommandEmpty | ErrCommandVerbSyntax | ErrCommandArgumentControl => true
  | _ => false
  end.

(** [None]: the error was not handled. *)
Definition handleCommandReadError (cause : wire_err) : M (option commandAction) :=
  s ← get_session;
  match lspool s with
  | None => mret None
  | Some _ =>
      if negb (isFramedCommandSyntaxError cause) then mret None
      else
        modify (life_resetIfOpen ResetFailed) ;;
        transition_ eventBDATFailed ;;
        writeReply (reply_of 500 (status 5 5 2) ($"Command syntax error after BDAT")) ;;
        mret (Some sync_)
  end.

Definition traceCommand (verb argument : bytes) : M unit :=
  trace_line
    (match argument with
     | [] => verb
     | _ =>
         if beq verb ($"AUTH")
         then verb ++ SP :: fst (fst (Cut argument SP)) ++ $" <redacted>"
         else verb ++ SP :: argument
     end).

Definition session_mechanisms (s : commandSession) : list bytes :=
  authMechanisms cfg_ decl_ (st s) (tlsSt s) (extended s).

Definition session_capabilities (s : commandSession) : list Extension :=
  capabilities cfg_ decl_ (st s) (tlsSt s) (extended s).

Definition session_features (s : commandSession) : mailParameterFeatures :=
  mail_parameter_features cfg_ decl_ (st s) (tlsSt s) (extended s).

Definition set_hello (d : bytes) (s : commandSession) : commandSession :=
  set_st s {| mode := mode (st s); phase := phase (st s); tls := tls (st s);
              authenticated := authenticated (st s); hello := d |}.

(** The EHLO reply is written by [EncodeEHLOReply]. *)
Definition writeEHLO : M unit := fun s =>
  if env_write (cn_env cn) (clock s) then
    match EncodeEHLOReply {| EDomain := identity cfg_; EGreeting := []; EExtensions := session_capabilities s |} with
    | Err e => (tick s, Err (SWire e))
    | Ok bs => trace_line ($"250 " ++ identity cfg_)
                 (set_io s (lr_ s) (pending s ++ [bs]) (sent s) (S (clock s)))
    end
  else (tick s, Err SWrite).

Definition handleHello (command : Command) : M commandAction :=
  match ParseHelloCommand command with
  | Err _ => syntaxReply ($"HELO/EHLO/LHLO argument")
  | Ok h =>
      if negb (validGreetingIdentity (HDomain h)) then syntaxReply ($"HELO/EHLO/LHLO argument")
      else
        modify (fun s => if transactionOpen s then life_reset ResetExplicit s else s) ;;
        transition_ eventHello ;;
        modify (fun s => set_flags (set_hello (HDomain h) s) (negb (beq (HVerb h) ($"HELO"))) false false []) ;;
        s ← get_session;
        if requireAuth cfg_ && tls (st s) && negb (authenticated (st s))
           && match session_mechanisms s with [] => true | _ => false end then
          writeReply (reply_of 421 (status 4 3 0) ($"Service not available")) ;; mret close_
        else if beq (HVerb h) ($"HELO") then
          writeReply {| code := 250; enhanced := smtp.ZeroEnhanced; text := identity cfg_; lines := [];
                        context := ReplyContextHello |} ;; mret sync_
        else writeEHLO ;; mret sync_
  end.

Definition hasNonASCII (value : bytes) : bool := existsb (fun c => 128 <=? bz c) value.

Definition requested_utf8 (params : option MailOptions) : bool :=
  match params with
  | Some o => match mo_Transport o with Some t => opt_SMTPUTF8 t | None => false end
  | None => false
  end.

Definition requested_size (params : option MailOptions) : option Z :=
  match params with
  | Some o => match mo_Transport o with Some t => opt_Size t | None => None end
  | None => None
  end.

Definition requested_binary (params : option MailOptions) : bool :=
  match params with
  | Some o => match mo_Transport o with Some t => beq (opt_Body t) BodyTypeBinaryMIME | None => false end
  | None => false
  end.

Definition over_size (params : option MailOptions) : bool :=
  match requested_size params with Some n => maxMessage cfg_ <? n | None => false end.

Definition parse_options (utf8 : bool) : PathOptions := {| SMTPUTF8 := utf8; MaxPathLength := 0 |}.

(** The part of [handleMail] behind the checks of the command. *)
Definition mail_accepted (mailbox : bytes) (params : option MailOptions) : M commandAction :=
  s0 ← get_session;
  (if transactionOpen s0 then
     modify (life_reset ResetNewMail) ;; transition_ eventTransactionFailed ;; modify clearTransaction
   else mret tt) ;;
  if over_size params then
    writeReply (reply_of 552 (status 5 3 4) ($"Message size exceeds fixed maximum message size")) ;;
    mret continue_
  else
    s ← get_session;
    let '(s', err) := life_mail mailbox params s in
    modify (fun _ => s') ;;
    match err with
    | Some e =>
        modify (fun s => clearTransaction
          (match phase (st s) with
           | phaseMail | phaseRecipients => transition_ignored eventTransactionFailed s
           | _ => s
           end)) ;;
        backendReply ($"MAIL") e 451 ($"Temporary server failure")
    | None =>
        transition_ eventMailAccepted ;;
        modify (fun s => set_flags s (extended s) (requested_utf8 params) (requested_binary params) []) ;;
        writeReply (reply_of 250 (status 2 1 0) ($"Sender OK")) ;;
        mret continue_
    end.

Definition handleMail (command : Command) : M commandAction :=
  s ← get_session;
  if requireTLS cfg_ && negb (tls (st s)) then policyReply ($"TLS is required")
  else if requireAuth cfg_ && negb (authenticated (st s)) then policyReply ($"Authentication is required")
  else match ParseReversePath (Argument command) (parse_options true) with
  | Err _ => syntaxReply ($"MAIL FROM path")
  | Ok path =>
      match extended s, Params path with
      | false, p :: _ => syntaxReply (Wire.Keyword p)
      | _, _ =>
          match parseMailParameters (Params path) (session_features s) with
          | Err e => syntaxReply (pe_keyword e)
          | Ok params =>
              match validateExtensionMailPath (Mailbox path) params with
              | Some e => syntaxReply (pe_keyword e)
              | None =>
                  if hasNonASCII (Mailbox path) && negb (requested_utf8 params) then syntaxReply ($"SMTPUTF8")
                  else mail_accepted (Mailbox path) params
              end
          end
      end
  end.

Definition validateRcptSuccessLines (ls : list bytes) : bool :=
  forallb (fun l => negb (beq l [] || ContainsAny l [CR; LF; x00])) ls.

Definition rcpt_reply (successLines : list bytes) : wireReply :=
  match successLines with
  | [] => reply_of 250 (status 2 1 5) ($"Recipient OK")
  | ls => {| code := 250; enhanced := smtp.ZeroEnhanced; text := []; lines := $"Recipient OK" :: ls;
             context := ReplyContextCommand |}
  end.

(** The part of [handleRcpt] behind the syntax of the command. *)
Definition rcpt_checked (path : Path) : M commandAction :=
  s ← get_session;
  if maxRcpt cfg_ <=? Z.of_nat (length (recipients s)) then
    writeReply (reply_of 452 (status 4 5 3) ($"Too many recipients")) ;; mret continue_
  else match parseRcptParameters (Params path) (parameterExtensionMap cfg_ decl_) with
  | Err e => syntaxReply (pe_keyword e)
  | Ok params =>
      let '(err, successLines) := be_Rcpt (cn_backend cn) (log s) (Mailbox path) params in
      modify (fun s => add_log s (CallRcpt (Mailbox path) params err successLines)) ;;
      match err with
      | Some e => backendReply ($"RCPT") e 451 ($"Temporary server failure")
      | None =>
          if negb (validateRcptSuccessLines successLines)
          then backendReply ($"RCPT") Opaque 451 ($"Temporary server failure")
          else
            modify (fun s => set_flags s (extended s) (smtpUTF8 s) (binaryMIME s)
                               (recipients s ++ [Mailbox path])) ;;
            (match phase (st s) with
             | phaseMail => transition_ eventRecipientAccepted
             | _ => mret tt
             end) ;;
            writeReply (rcpt_reply successLines) ;; mret continue_
      end
  end.

Definition handleRcpt (command : Command) : M commandAction :=
  s ← get_session;
  match ParseForwardPath (Argument command) (parse_options (smtpUTF8 s)) with
  | Err _ => syntaxReply ($"RCPT TO path")
  | Ok path =>
      match extended s, Params path with
      | false, p :: _ => syntaxReply (Wire.Keyword p)
      | _, _ => rcpt_checked path
      end
  end.

Definition handleRSET (command : Command) : M commandAction :=
  if negb (beq (Argument command) []) then syntaxReply ($"RSET")
  else
    modify (life_resetIfOpen ResetExplicit) ;;
    transition_ eventReset ;;
    modify clearTransaction ;;
    writeReply (reply_of 250 (status 2 0 0) ($"Reset state")) ;;
    mret continue_.

Definition handleNOOP (command : Command) : M commandAction :=
  writeReply (reply_of 250 (status 2 0 0) ($"OK")) ;; mret sync_.

Definition handleQUIT (command : Command) : M commandAction :=
  if negb (beq (Argument command) []) then syntaxReply ($"QUIT")
  else writeReply (reply_of 221 (status 2 0 0) (identity cfg_ ++ $" closing connection")) ;; mret close_.

Definition handleVRFY (command : Command) : M commandAction :=
  if beq (Argument command) [] then syntaxReply ($"VRFY address")
  else match be_Verify (cn_backend cn) with
  | None =>
      writeReply (reply_of 252 (status 2 5 2) ($"Cannot VRFY user, but will accept message")) ;; mret sync_
  | Some verify =>
      s ← get_session;
      modify (fun s => add_log s (CallVerify (Argument command))) ;;
      match verify (log s) (Argument command) with
      | Err e => backendReply ($"VRFY") e 451 ($"Temporary server failure")
      | Ok result =>
          writeReply (reply_of 250 (status 2 1 5) (if beq result [] then Argument command else result)) ;;
          mret sync_
      end
  end.

Definition handleEXPN (command : Command) : M commandAction :=
  if beq (Argument command) [] then syntaxReply ($"EXPN list")
  else match be_Expand (cn_backend cn) with
  | None => notImplementedReply ($"EXPN")
  | Some expand =>
      s ← get_session;
      modify (fun s => add_log s (CallExpand (Argument command))) ;;
      match expand (log s) (Argument command) with
      | Err e => backendReply ($"EXPN") e 451 ($"Temporary server failure")
      | Ok addresses =>
          writeReply {| code := 250; enhanced := smtp.ZeroEnhanced; text := [];
                        lines := match addresses with [] => [$"No members"] | _ => addresses end;
                        context := ReplyContextCommand |} ;;
          mret sync_
      end
  end.

Definition handleHELP (command : Command) : M commandAction :=
  match be_Help (cn_backend cn) with
  | None => notImplementedReply ($"HELP")
  | Some help =>
      s ← get_session;
      modify (fun s => add_log s (CallHelp (Argument command))) ;;
      match help (log s) (Argument command) with
      | Err e => backendReply ($"HELP") e 451 ($"Temporary server failure")
      | Ok t => writeReply (reply_of 214 smtp.ZeroEnhanced t) ;; mret sync_
      end
  end.

Definition handleETRN (command : Command) : M commandAction :=
  if beq (Argument command) [] then syntaxReply ($"ETRN domain")
  else match be_ETRN (cn_backend cn) with
  | None => notImplementedReply ($"ETRN")
  | Some etrn =>
      s ← get_session;
      modify (fun s => add_log s (CallETRN (Argument command))) ;;
      match etrn (log s) (Argument command) with
      | Some e => backendReply ($"ETRN") e 451 ($"Temporary server failure")
      | None => writeReply (reply_of 250 (status 2 0 0) ($"Queuing started")) ;; mret sync_
      end
  end.

(** ** cmd_data.go *)

(** The loop's limits: chunks up to what an int64 holds. *)
Definition loop_limits : Wire.Limits :=
  {| MaxReplyLineLength := 0; MaxReplyLines := 0; MaxReplySize := 0; MaxBDATChunkSize := MaxInt64;
     MaxCommandLineLength := 0; MaxSASLResponseLength := 0 |}.

Definition received_options (s : commandSession) (r0 : bytes) : ReceivedOptions :=
  {| From := hello (st s); By := identity cfg_;
     Extended := extended s || tls (st s) || authenticated (st s);
     LMTP := match mode (st s) with modeLMTP => true | modeSMTP => false end;
     TLS := tls (st s); Authenticated := authenticated (st s); ID := [];
     For := $"<" ++ r0 ++ $">"; RecipientCount := Z.of_nat (length (recipients s));
     Timestamp := Some (env_now (cn_env cn) (clock s)) |}.

(** [s.recipients[0]] panics on an empty slice. Returns the evaluation and the content's reader. *)
Definition evaluateContent (command : bytes) (c : content) : M (dataEvaluation * content) := fun s =>
  match recipients s with
  | [] => (s, Err SPanic)
  | r0 :: _ =>
      match FormatReceived (received_options s r0) with
      | Err e => (tick s, Err (SReceived e))
      | Ok header =>
          let t := {| header := header; source := c; exhausted := false |} in
          let b := be_Data (cn_backend cn) (log s) in
          let observed := match backend_reads t b with Some (o, _) => o | None => [] end in
          let s1 := add_log (tick s) (CallData observed) in
          match evaluateDataCall (mode (st s)) (recipients s) command t b with
          | None => (s1, Err SPanic)
          | Some (evaluation, t') => (s1, Ok (evaluation, source t'))
          end
      end
  end.

Fixpoint write_results (rs : list smtp.RecipientResult) : M unit :=
  match rs with
  | [] => mret tt
  | r :: rs' => writeResult r ;; write_results rs'
  end.

(** The deferred reset runs after the replies, also when writing them failed. *)
Definition finishContent (evaluation : dataEvaluation) : M commandAction := fun s =>
  if closeConnection evaluation then
    (s, match cause evaluation with
        | Some c => Err (SCause (Some c))
        | None => Ok {| synchronizationPoint_ := false; act_close := true |}
        end)
  else
    let reason := if completed evaluation then ResetCompleted else ResetFailed in
    let event := if completed evaluation then eventTransactionComplete else eventTransactionFailed in
    let '(s1, r) := write_results (ev_result evaluation) s in
    let s2 := clearTransaction (life_reset reason s1) in
    match transition (st s2) event with
    | Some p => (set_st s2 p, match r with Ok _ => Ok sync_ | Err e => Err e end)
    | None => (s2, match r with Ok _ => Err STransition | Err e => Err e end)
    end.

Definition size_exceeded_result (command recipient : bytes) : smtp.RecipientResult :=
  {| smtp.RRecipient := recipient; smtp.RCommand := command; smtp.RCode := 552;
     smtp.REnhanced := status 5 3 4; smtp.RText := $"Message size exceeds fixed maximum message size" |}.

Definition sizeExceededEvaluation (command : bytes) (s : commandSession) : dataEvaluation :=
  {| ev_result := match mode (st s) with
                  | modeLMTP => map (size_exceeded_result command) (recipients s)
                  | modeSMTP => [size_exceeded_result command []]
                  end;
     completed := false; closeConnection := false; defect := []; cause := None |}.

(** What the connection's reader is after the content was read from it, and whether the limit was
    exceeded. *)
Definition after_content (c : content) (s : commandSession) : commandSession :=
  match c with ContentData r => set_reader s (DotStuff.Reader.lr (reader r)) | ContentSpool _ => s end.
Definition content_exceeded (c : content) : bool :=
  match c with ContentData r => exceeded r | ContentSpool _ => false end.

Definition handleDATA (command : Command) : M commandAction :=
  if negb (beq (Argument command) []) then syntaxReply ($"DATA")
  else
    s ← get_session;
    match recipients s with
    | [] => noRecipientsReply
    | _ =>
        if binaryMIME s then
          writeReply (reply_of 503 (status 5 5 1) ($"BINARYMIME requires BDAT")) ;; mret sync_
        else
          writeReply (reply_of 354 smtp.ZeroEnhanced ($"End data with <CRLF>.<CRLF>")) ;;
          Flush ;;
          s1 ← get_session;
          let limited := newSizeEnforcingReader (DotStuff.Reader.NewDotUnstuffReader (lr_ s1)) (maxMessage cfg_) in
          '(evaluation, c) ← evaluateContent ($"DATA") (ContentData limited);
          modify (after_content c) ;;
          s2 ← get_session;
          finishContent (if content_exceeded c then sizeExceededEvaluation ($"DATA") s2 else evaluation)
    end.

Definition chunk_serr (e : chunk_err (E := spool_err)) : serr :=
  match e with ChunkWire w => SWire w | ChunkSink _ => SWrite end.

(** [ReadBDATChunk(io.Discard, ...)] *)
Definition discard_chunk (n : Z) : M unit := fun s =>
  let '(_, r, _, err) := ReadBDATChunk (fun (u : unit) (_ : bytes) => (u, @None spool_err))
    (env_cuts (cn_env cn) (clock s)) tt (lr_ s) n loop_limits in
  (set_reader s r, match err with None => Ok tt | Some e => Err (chunk_serr e) end).

(** [ReadBDATChunk] into the lifecycle's spool: the storage error the writer recorded. *)
Definition spool_chunk (sp : spool) (n : Z) : M (option spool_err) := fun s =>
  let w0 := {| cw_manager := spools s; cw_spool := sp; cw_err := None; cw_ops := O |} in
  let '(w, r, _, err) := ReadBDATChunk (chunk_write (env_os (cn_env cn) (clock s)))
    (env_cuts (cn_env cn) (clock s)) w0 (lr_ s) n loop_limits in
  (set_life (set_reader s r) (transactionOpen s) (Some (cw_spool w)) (cw_manager w),
   match err with None => Ok (cw_err w) | Some e => Err (chunk_serr e) end).

Definition failBDAT (c : spool_err) : M commandAction :=
  modify (life_resetIfOpen ResetFailed) ;;
  transition_ eventBDATFailed ;;
  writeReply
    (match c with
     | errSpoolMessageTooLarge =>
         reply_of 552 (status 5 3 4) ($"Message size exceeds fixed maximum message size")
     | errSpoolTotalExhausted | errSpoolMemoryExhausted | errSpoolConcurrentExhausted =>
         reply_of 452 (status 4 3 1) ($"Insufficient system storage")
     | _ => reply_of 451 (status 4 3 0) ($"Temporary storage failure")
     end) ;;
  mret continue_.

(** The spool of the transaction, created on its first chunk. *)
Definition current_spool : M (result spool_err spool) :=
  s ← get_session;
  match lspool s with
  | Some sp => mret (Ok sp)
  | None =>
      match newSpool (spools s) with
      | Err e => mret (Err e)
      | Ok (m, sp) =>
          modify (fun s => attachSpool sp (set_life s (transactionOpen s) (lspool s) m)) ;; mret (Ok sp)
      end
  end.

Definition bdat_chunk (framing : BDATCommand) : M commandAction :=
  cs ← current_spool;
  match cs with
  | Err e => discard_chunk (Command.Size framing) ;; failBDAT e
  | Ok sp =>
      werr ← spool_chunk sp (Command.Size framing);
      match werr with
      | Some e => failBDAT e
      | None =>
          if negb (Command.Last framing) then
            writeReply (reply_of 250 (status 2 0 0) ($"BDAT chunk accepted")) ;; mret continue_
          else
            s ← get_session;
            match lspool s with
            | None => fail SPanic
            | Some sp' =>
                match Spool.Reader sp' with
                | Err e => failBDAT e
                | Ok contents =>
                    '(evaluation, _) ← evaluateContent ($"BDAT") (ContentSpool contents);
                    finishContent evaluation
                end
            end
      end
  end.

Definition handleBDAT (command : Command) : M commandAction :=
  s ← get_session;
  match ParseBDATArgument (Argument command) loop_limits with
  | Err ErrBDATSizeOverflow | Err ErrBDATChunkTooLarge =>
      writeReply (reply_of 501 (status 5 5 2) ($"Invalid BDAT size")) ;; mret close_
  | Err _ => syntaxReply ($"BDAT size")
  | Ok framing =>
      if negb (extended s) || negb (chunking cfg_) then notImplementedReply ($"BDAT")
      else match phase (st s), recipients s with
      | phaseFailedBDAT, _ =>
          discard_chunk (Command.Size framing) ;;
          writeReply (reply_of 503 (status 5 5 1) ($"RSET required after failed BDAT")) ;;
          mret continue_
      | _, [] => discard_chunk (Command.Size framing) ;; noRecipientsReply
      | _, _ => bdat_chunk framing
      end
  end.

(** ** floor_extensions.go and tls.go: STARTTLS *)

(** [handshakeTLS] discards what the plaintext decoder had prefetched; the stream after it is the
    environment's. *)
Definition handshakeTLS : M (LineReader * bool) := fun s =>
  match env_handshake (cn_env cn) with
  | Some r => (tick s, Ok r)
  | None => (tick s, Err STLS)
  end.

Definition handleSTARTTLS (command : Command) : M commandAction :=
  s ← get_session;
  if negb (beq (Argument command) []) then syntaxReply ($"STARTTLS")
  else if negb (extended s) then notImplementedReply ($"STARTTLS")
  else if negb (tlsConfigured cfg_) then notImplementedReply ($"STARTTLS")
  else
    writeReply (reply_of 220 (status 2 0 0) ($"Ready to start TLS")) ;;
    Flush ;;
    '(r, certificate) ← handshakeTLS;
    modify (fun s => set_tls s {| tls_done := true; tls_clientCertificate := certificate |}) ;;
    modify (life_reset ResetStartTLS) ;;
    transition_ eventStartTLS ;;
    modify (fun s => set_io (clearTransaction (set_flags s false (smtpUTF8 s) (binaryMIME s) (recipients s)))
                       r [] (sent s) (clock s)) ;;
    mret continue_.

(** ** cmd_auth.go and authentication.go *)

Definition maxSASLResponse : Z := Z.shiftl 16 10.

(** [None] is the error "invalid SASL response". *)
Definition decodeSASLResponse (value : bytes) : option bytes :=
  if beq value ($"=") || beq value [] then Some []
  else if beq value ($"*") then Some ($"*")
  else match DecodeString value with
  | Some decoded => if maxSASLResponse <? Z.of_nat (length decoded) then None else Some decoded
  | None => None
  end.

Definition json_hex (r : Z) : bytes :=
  $"\u" ++ map (fun n => nth (Z.to_nat (n mod 16)) ($"0123456789abcdef") x00)
             [r / 4096; r / 256; r / 16; r].

(** One rune of a JSON string as encoding/json writes it: HTML characters, controls and the line
    separators are escaped, an invalid sequence is the replacement character. *)
Definition json_rune (p : Z * bytes) : bytes :=
  let '(r, raw) := p in
  if (r =? 34) || (r =? 92) then BACKSLASH :: raw
  else if r =? 8 then $"\b" else if r =? 12 then $"\f" else if r =? 10 then $"\n"
  else if r =? 13 then $"\r" else if r =? 9 then $"\t"
  else if (r <? 32) || (r =? 60) || (r =? 62) || (r =? 38) then json_hex r
  else if (r =? RuneError) && (length raw =? 1)%nat then $"\ufffd"
  else if (r =? 8232) || (r =? 8233) then json_hex r
  else raw.

Definition json_string (s : bytes) : bytes := QUOTE :: concat (map json_rune (runes s)) ++ [QUOTE].

(** [json.Marshal] of the map of strings: keys in order. *)
Definition oauth_payload (e : OAuthError) : bytes :=
  $"{" ++ json_string ($"openid-configuration") ++ $":" ++ json_string (oe_OpenIDConfiguration e)
  ++ $"," ++ json_string ($"scope") ++ $":" ++ json_string (oe_Scope e)
  ++ $"," ++ json_string ($"status") ++ $":" ++ json_string (oe_Status e) ++ $"}".

Definition authVerification (r : AuthResult) : Verification :=
  {| v_Accepted := match Failure r with None => true | Some _ => false end;
     v_FailureChallenge := match Failure r with
                           | Some f => oauth_payload <$> af_OAuth f
                           | None => None
                           end;
     v_Keys := None |}.

(** [errBackendAuthContract] is an opaque error; a nil result without an error is replaced by it. *)
Definition verdict (r : result backend_err (option AuthResult)) :
    result backend_err (Verification * AuthResult) :=
  match r with
  | Err e => Err e
  | Ok None => Err Opaque
  | Ok (Some result) => Ok (authVerification result, result)
  end.

Definition verifyAUTH (q : VerificationRequest) : M (result backend_err (Verification * AuthResult)) :=
  s ← get_session;
  let called r := modify (fun s => add_log s (CallAuthVerifier q)) ;; mret r in
  match vr_Kind q with
  | VerifyCredentials =>
      if has_Authenticate decl_ then called (verdict (be_Authenticate (cn_backend cn) (log s) q))
      else mret (Err Opaque)
  | VerifyChallengeResponse =>
      if has_ChallengeResponse decl_ then called (verdict (be_ChallengeResponse (cn_backend cn) (log s) q))
      else mret (Err Opaque)
  | VerifySCRAMKeys =>
      if has_SCRAMCredentials decl_ then
        called (match be_SCRAMCredentials (cn_backend cn) (log s) q with
                | Err e => Err e
                | Ok None => Err Opaque
                | Ok (Some (keys, result)) =>
                    let v := authVerification result in
                    Ok ({| v_Accepted := v_Accepted v; v_FailureChallenge := v_FailureChallenge v;
                           v_Keys := if v_Accepted v then Some keys else None |}, result)
                end)
      else mret (Err Opaque)
  end.

Definition authFailure (r : option AuthResult) : M commandAction :=
  let t := $"Authentication credentials invalid" in
  let reply :=
    match r with
    | Some {| Failure := Some {| af_Err := Some e |} |} => errorReply (Protocol e) 535 t
    | _ => reply_of 535 (status 5 7 8) t
    end in
  writeReply reply ;; mret sync_.

Definition authExchangeError (e : sasl_err) : M commandAction :=
  match e with
  | ErrResponderAborted | ErrResponderPayload =>
      writeReply (reply_of 501 (status 5 5 2) ($"Authentication exchange cancelled or malformed")) ;;
      mret sync_
  | _ => fail (SASL e)
  end.

(** [finalizeAuthentication] after a complete exchange without a verification error: whether it
    succeeded. *)
Definition finalizeAuthentication (r : option AuthResult) : M bool :=
  match r with
  | None => mret false
  | Some result =>
      match Failure result with
      | Some _ => mret true
      | None =>
          if has_CommitAuth decl_ then modify (fun s => add_log s (CallCommitAuth result)) ;; mret true
          else mret false
      end
  end.

Definition draw_random : M (option bytes) := fun s => (tick s, Ok (env_random (cn_env cn) (clock s))).

(** What [readSASL] can end with: a line, an oversized one, another read error. *)
Definition readSASL : M (result wire_err bytes) := fun s =>
  let '(res, r) := ReadSASLResponse (lr_ s) loop_limits in (set_reader s r, Ok res).

Definition auth_done (accepted : bool) (authoritative : option AuthResult) : M commandAction :=
  if negb accepted then authFailure authoritative
  else
    ok ← finalizeAuthentication authoritative;
    if negb ok then
      writeReply (reply_of 454 (status 4 7 0) ($"Temporary authentication failure")) ;; mret sync_
    else
      transition_ eventAuthenticated ;;
      writeReply (reply_of 235 (status 2 7 0) ($"Authentication successful")) ;;
      mret sync_.

Fixpoint auth_loop (fuel : nat) (r : Responder) (step : result sasl_err ResponderStep)
    (authoritative : option AuthResult) : M commandAction :=
  match fuel with
  | O => fail SFuel
  | S fuel' =>
      match step with
      | Err e => authExchangeError e
      | Ok (StepVerification q) =>
          v ← verifyAUTH q;
          match v with
          | Err e => backendReply ($"AUTH") e 454 ($"Temporary authentication failure")
          | Ok (verification, result) =>
              random ← draw_random;
              let '(r', step') := Continue random r verification in
              auth_loop fuel' r' step' (Some result)
          end
      | Ok (StepChallenge c) =>
          writeReply (reply_of 334 smtp.ZeroEnhanced (EncodeToString c)) ;;
          Flush ;;
          line ← readSASL;
          match line with
          | Err ErrCommandLineTooLong =>
              writeReply (reply_of 500 (status 5 5 6) ($"Authentication exchange line is too long")) ;;
              mret close_
          | Err e => fail (SWire e)
          | Ok l =>
              trace_line ($"<redacted>") ;;
              match decodeSASLResponse l with
              | None => fail SASLResponse
              | Some response =>
                  let '(r', step') := RNext r response in auth_loop fuel' r' step' authoritative
              end
          end
      | Ok (StepDone accepted) => auth_done accepted authoritative
      end
  end.

(** No mechanism takes more rounds. *)
Definition auth_fuel : nat := 9.

Definition channelBinding (ts : tlsState) (mechanism : bytes) : option bytes :=
  if negb (HasSuffix (ToUpper mechanism) ($"-PLUS")) then Some []
  else if tls_done ts then env_binding (cn_env cn) else None.

Definition auth_exchange (mechanism : bytes) (initial : option (option bytes)) : M commandAction :=
  s ← get_session;
  let failed := backendReply ($"AUTH") Opaque 454 ($"Temporary authentication failure") in
  match channelBinding (tlsSt s) mechanism with
  | None => failed
  | Some binding =>
      match NewResponder mechanism
              {| rc_Hostname := identity cfg_; rc_CRAMChallenge := None; rc_ChannelBinding := binding;
                 rc_testNonce := [] |} with
      | None => failed
      | Some responder =>
          match initial with
          | None => syntaxReply ($"AUTH initial response")
          | Some initial =>
              random ← draw_random;
              let '(r, step) := RStart random responder initial in
              auth_loop auth_fuel r step None
          end
      end
  end.

Definition handleAUTH (command : Command) : M commandAction :=
  s ← get_session;
  let run name initial :=
    let mechanism := ToUpper name in
    if negb (containsFold (session_mechanisms s) mechanism) then
      writeReply (reply_of 504 (status 5 5 4) ($"Unsupported authentication mechanism")) ;; mret sync_
    else auth_exchange mechanism initial in
  match Fields (Argument command) with
  | [name] => run name (Some None)
  | [name; response] => run name (Some <$> decodeSASLResponse response)
  | _ => syntaxReply ($"AUTH mechanism and initial response")
  end.

(** ** ext_atrn.go *)

Definition validATRNLabel (label : bytes) : bool :=
  match label with
  | [] => false
  | c :: _ =>
      negb (c =b "-"%byte) && negb (HasSuffix label ($"-"))
      && forallb (fun c => is_alnum c || (c =b "-"%byte)) label
  end.

Definition validATRNDomain (domain : bytes) : bool :=
  let labels := Split domain "."%byte in
  (2 <=? length labels)%nat && forallb validATRNLabel labels.

Definition parseATRNDomains (argument : bytes) : option (list bytes) :=
  match argument with
  | [] => Some []
  | _ =>
      if ContainsAny argument [SP; x09; CR; LF; x00] then None
      else
        let parts := Split argument ","%byte in
        if forallb validATRNDomain parts then Some parts else None
  end.

(** [s.reader.Buffered()] *)
Definition Buffered : M nat := fun s =>
  (tick s, Ok (Nat.min (env_buffered (cn_env cn) (clock s)) (length (unread (lr_ s))))).

Definition handleATRN (command : Command) : M commandAction :=
  match parseATRNDomains (Argument command) with
  | None => syntaxReply ($"ATRN domains")
  | Some domains =>
      s ← get_session;
      if negb (authenticated (st s)) then
        writeReply (reply_of 530 (status 5 7 0) ($"Authentication required")) ;; mret sync_
      else if negb (has_ATRN decl_) then notImplementedReply ($"ATRN")
      else
        buffered ← Buffered;
        if negb (buffered =? 0)%nat then
          writeReply (reply_of 554 (status 5 5 0) ($"ATRN must not be pipelined")) ;; mret close_
        else
          let failed e := backendReply ($"ATRN") e 451 ($"Unable to process ATRN request now") in
          modify (fun s => add_log s (CallATRN domains)) ;;
          match be_ATRN (cn_backend cn) (log s) domains with
          | Err e => failed e
          | Ok false => failed Opaque
          | Ok true =>
              writeReply (reply_of 250 (status 2 0 0) ($"OK, reversing the connection")) ;;
              Flush ;;
              modify (fun s => add_log s CallTakeover) ;;
              mret close_
          end
  end.

Definition executeExtensionCommand (command : Command) : M commandAction :=
  if beq (ToUpper (Verb command)) ($"ATRN") then handleATRN command else fail SNoHandler.

(** ** The dispatcher *)

Definition dispatch (verb : bytes) (command : Command) : M commandAction :=
  if beq verb ($"HELO") || beq verb ($"EHLO") || beq verb ($"LHLO") then handleHello command
  else if beq verb ($"MAIL") then handleMail command
  else if beq verb ($"RCPT") then handleRcpt command
  else if beq verb ($"DATA") then handleDATA command
  else if beq verb ($"BDAT") then handleBDAT command
  else if beq verb ($"RSET") then handleRSET command
  else if beq verb ($"NOOP") then handleNOOP command
  else if beq verb ($"QUIT") then handleQUIT command
  else if beq verb ($"VRFY") then handleVRFY command
  else if beq verb ($"EXPN") then handleEXPN command
  else if beq verb ($"HELP") then handleHELP command
  else if beq verb ($"ETRN") then handleETRN command
  else if beq verb ($"STARTTLS") then handleSTARTTLS command
  else if beq verb ($"AUTH") then handleAUTH command
  else executeExtensionCommand command.

Definition execute_legal (verb : bytes) (command : Command) : M commandAction :=
  s ← get_session;
  match legality (st s) verb with
  | commandUnknown =>
      writeReply (reply_of 500 (status 5 5 1) ($"Command unrecognized")) ;; mret sync_
  | commandWrongMode =>
      writeReply (reply_of 500 (status 5 5 1) ($"Command unavailable in this protocol mode")) ;;
      mret {| synchronizationPoint_ := synchronizationPoint verb; act_close := false |}
  | commandWrongState =>
      writeReply (reply_of 503 (status 5 5 1) ($"Bad sequence of commands")) ;;
      mret {| synchronizationPoint_ := synchronizationPoint verb; act_close := false |}
  | commandAllowed => dispatch verb command
  end.

Definition execute (command : Command) : M commandAction :=
  let verb := ToUpper (Verb command) in
  traceCommand verb (Argument command) ;;
  if beq verb ($"MAIL") then
    modify (fun s => set_attempts s (mailAttempts s + 1)) ;;
    s ← get_session;
    if cn_maxTransactions cn <? mailAttempts s then
      writeReply (reply_of 421 (status 4 7 0) ($"Transaction limit reached")) ;; mret close_
    else execute_legal verb command
  else execute_legal verb command.

(** ** loop.go *)

Definition readCommand : M (result wire_err Command) := fun s =>
  let '(res, r) := ReadCommand (lr_ s) loop_limits in (set_reader s r, Ok res).

Definition flush_if (b : bool) : M unit := if b then Flush else mret tt.

Definition settle (a : commandAction) : M unit := flush_if (synchronizationPoint_ a || act_close a).

(** [Some tt] continues the loop, [None] ends it without an error. *)
Definition iteration : M (option unit) :=
  s ← get_session;
  if env_cancelled (cn_env cn) (clock s) then fail SCancelled
  else
    buffered ← Buffered;
    flush_if (buffered =? 0)%nat ;;
    res ← readCommand;
    match res with
    | Err (ErrIO EOF) => mret None
    | Err e =>
        handled ← handleCommandReadError e;
        match handled with
        | None => fail (SWire e)
        | Some a => settle a ;; mret (if act_close a then None else Some tt)
        end
    | Ok command =>
        a ← execute command;
        settle a ;; mret (if act_close a then None else Some tt)
    end.

Fixpoint run (fuel : nat) : M unit :=
  match fuel with
  | O => fail SFuel
  | S fuel' =>
      next ← iteration;
      match next with None => mret tt | Some _ => run fuel' end
  end.

(** ** cmd_server.go: the connection from the greeting on *)

(** [serveConnection] once the session is constructed: greeting, loop, and the deferred [close],
    which runs after an error or a panic too. *)
Definition serve_session (fuel : nat) (s : commandSession) : commandSession * result serr unit :=
  let '(s1, r) :=
    (writeReply {| code := 220; enhanced := smtp.ZeroEnhanced; text := identity cfg_ ++ $" Service ready";
                   lines := []; context := ReplyContextGreeting |} ;;
     Flush ;; run fuel) s in
  (session_close s1, r).

End Session.

(** [newCommandSession]: the effective transaction limit and the declaration that advertises it. *)
Definition effective (cfg : serverConfig) (b : Session) : Session * Z :=
  match SessionLimits b with
  | None => (b, maxTransactions_opt cfg)
  | Some l =>
      let n := if negb (smtp.MailMax l =? 0) && (smtp.MailMax l <? maxTransactions_opt cfg)
               then smtp.MailMax l else maxTransactions_opt cfg in
      ({| ParameterExtensions := ParameterExtensions b;
          SessionLimits := Some {| smtp.MailMax := n mod 2 ^ 32; smtp.RcptMax := smtp.RcptMax l;
                                   smtp.RcptDomainMax := smtp.RcptDomainMax l; smtp.Extra := smtp.Extra l |};
          has_Mail := has_Mail b; has_Rcpt := has_Rcpt b; has_Data := has_Data b; has_Reset := has_Reset b;
          has_Close := has_Close b; has_Authenticate := has_Authenticate b;
          has_ChallengeResponse := has_ChallengeResponse b; has_SCRAMCredentials := has_SCRAMCredentials b;
          has_CommitAuth := has_CommitAuth b; has_ATRN := has_ATRN b |}, n)
  end.

Definition set_decl (b : backendSession) (d : Session) : backendSession :=
  {| be_decl := d; be_Mail := be_Mail b; be_Rcpt := be_Rcpt b; be_Data := be_Data b;
     be_Verify := be_Verify b; be_Expand := be_Expand b; be_Help := be_Help b; be_ETRN := be_ETRN b;
     be_ATRN := be_ATRN b; be_Authenticate := be_Authenticate b;
     be_ChallengeResponse := be_ChallengeResponse b; be_SCRAMCredentials := be_SCRAMCredentials b |}.

Definition newConnection (cfg : serverConfig) (b : backendSession) (e : env) (trace : bool) : connection :=
  let '(d, n) := effective cfg (be_decl b) in
  {| cn_cfg := cfg; cn_backend := set_decl b d; cn_env := e; cn_maxTransactions := n; cn_trace := trace |}.

Definition newCommandSession (cfg : serverConfig) (ts : tlsState) (r : LineReader) (m : spoolManager) :
    commandSession :=
  let p := newProtocolState (server_mode cfg) in
  {| st := {| mode := mode p; phase := phase p; tls := tls_done ts; authenticated := authenticated p;
              hello := hello p |};
     tlsSt := ts; lr_ := r; pending := []; sent := []; clock := 0; transactionOpen := false;
     lspool := None; closeDone := false; extended := false; smtpUTF8 := false; binaryMIME := false;
     recipients := []; mailAttempts := 0; spools := m; log := []; traces := [] |}.

(** How a connection ended: refused before a session was set up, with the reply written and the
    calls made, or served. *)
Inductive outcome : Type :=
| Dropped
| Refused (reply : option bytes) (calls : list event)
| Served (s : commandSession) (r : result serr unit).

Definition writeGreetingError (err : backend_err) : option bytes :=
  let r := errorReply err 421 ($"Service not available") in
  match encodeWireReply {| code := code r; enhanced := enhanced r; text := text r; lines := lines r;
                           context := ReplyContextGreeting |} with
  | Ok bs => Some bs
  | Err _ => None
  end.

Definition unavailable (e : smtp.EnhancedCode) : backend_err :=
  Protocol {| smtp.Code := 421; smtp.Enhanced := e; smtp.Text := $"Service not available";
              smtp.Command := []; smtp.Cause := None |}.

(** [handshake]: [None] for a plaintext listener, otherwise the outcome of the implicit handshake.
    [newSession]: what the backend's NewSession returned; a nil session without an error is
    [Ok None]. *)
Definition serveConnection `{Unicode} `{NetIP} `{RFC3339} `{Crypto} (fuel : nat) (cfg : serverConfig)
    (e : env) (trace : bool) (m : spoolManager) (plaintext : LineReader)
    (handshake : option (option (LineReader * bool)))
    (newSession : result backend_err (option backendSession)) : outcome :=
  match handshake with
  | Some None => Dropped
  | _ =>
      let '(r, ts) :=
        match handshake with
        | Some (Some (r, certificate)) => (r, {| tls_done := true; tls_clientCertificate := certificate |})
        | _ => (plaintext, {| tls_done := false; tls_clientCertificate := false |})
        end in
      match newSession with
      | Err err => Refused (writeGreetingError err) []
      | Ok None => Refused (writeGreetingError (unavailable smtp.ZeroEnhanced)) []
      | Ok (Some b) =>
          match validateSession (be_decl b) with
          | _ :: _ => Refused (writeGreetingError (unavailable smtp.ZeroEnhanced))
                        (if has_Close (be_decl b) then [CallClose] else [])
          | [] =>
              if requireAuth cfg && negb (authReachable cfg (be_decl b) ts)
              then Refused (writeGreetingError (unavailable (status 4 3 0))) [CallClose]
              else
                let '(s, res) := serve_session (newConnection cfg b e trace) fuel
                                   (newCommandSession cfg ts r m) in
                Served s res
          end
      end
  end.
