(* ===== verification/SessionFacts.v ===== *)
(** * smtpserver: what a session promises its backend

    [promised] is the abstract contract of a session: the calls a backend may see, in which order,
    and under which conditions. The theorems show that every connection refines it, whatever the
    client sends, the backend answers and the environment does; that the state machine, the
    lifecycle and the backend's view stay in step; that a connection terminates; and that it returns
    every spool it reserved. Handlers are reasoned about with the weakest-precondition rules below. *)
From Stdlib Require Import ZArith Lia Bool.
From stdpp Require Import base list gmap strings.
From S2P Require Import Prelude GoStrings Base64 Sasl Wire DotStuff Reply Command Path Ehlo Core.
From S2P Require Import Spool ServerState ServerData ServerParams ServerCaps ServerSession.
Import smtpsasl SpoolFacts StateFacts.

(** ** The contract *)
Module Contract.

(** The transaction as the backend sees it: the recipients are those it accepted. *)
Inductive tx : Type := Idle | Open (accepted : list bytes) | Delivered | Closed.

Record promise : Type := {
  p_tx : tx;
  p_auth : bool;
  p_tls : bool;
  p_mails : Z
}.

Section Contract.
Context (cn : connection).

Definition set_tx (p : promise) (t : tx) : promise :=
  {| p_tx := t; p_auth := p_auth p; p_tls := p_tls p; p_mails := p_mails p |}.

(** MAIL reaches the backend only under the listener's policy, for an acceptable declared size, and
    at most as often as the transaction limit allows. *)
Definition mail_permitted (p : promise) (params : option MailOptions) : bool :=
  negb (requireTLS (cn_cfg cn) && negb (p_tls p))
  && negb (requireAuth (cn_cfg cn) && negb (p_auth p))
  && negb (over_size cn params) && (p_mails p <? cn_maxTransactions cn).

Definition recipient_accepted (err : option backend_err) (successLines : list bytes) : bool :=
  match err with None => validateRcptSuccessLines successLines | Some _ => false end.

(** One call; [None] is a broken promise. *)
Definition promise_step (p : promise) (e : event) : option promise :=
  match p_tx p, e with
  | Idle, CallMail _ params err =>
      if mail_permitted p params then
        Some {| p_tx := match err with None => Open [] | Some _ => Idle end; p_auth := p_auth p;
                p_tls := p_tls p; p_mails := p_mails p + 1 |}
      else None
  | Open rs, CallRcpt mailbox _ err ls =>
      if maxRcpt (cn_cfg cn) <=? Z.of_nat (length rs) then None
      else Some (set_tx p (Open (if recipient_accepted err ls then rs ++ [mailbox] else rs)))
  | Open (_ :: _), CallData _ => Some (set_tx p Delivered)
  | Open _, CallReset (ResetExplicit | ResetNewMail | ResetFailed | ResetSessionEnd) => Some (set_tx p Idle)
  | Delivered, CallReset (ResetCompleted | ResetFailed | ResetSessionEnd) => Some (set_tx p Idle)
  | Idle, CallReset ResetStartTLS =>
      if p_tls p then None
      else Some {| p_tx := Idle; p_auth := false; p_tls := true; p_mails := p_mails p |}
  | Idle, CallClose => Some (set_tx p Closed)
  | (Idle | Open _), (CallVerify _ | CallExpand _ | CallHelp _) => Some p
  | Idle, CallETRN _ => Some p
  | Idle, CallAuthVerifier _ => if p_auth p then None else Some p
  | Idle, CallCommitAuth r =>
      match p_auth p, Failure r with
      | false, None => Some {| p_tx := Idle; p_auth := true; p_tls := p_tls p; p_mails := p_mails p |}
      | _, _ => None
      end
  | Idle, (CallATRN _ | CallTakeover) => if p_auth p then Some p else None
  | _, _ => None
  end.

Fixpoint promised (p : promise) (calls : list event) : option promise :=
  match calls with
  | [] => Some p
  | e :: calls' => match promise_step p e with Some p' => promised p' calls' | None => None end
  end.

Lemma promised_app p a b :
  promised p (a ++ b) = match promised p a with Some q => promised q b | None => None end.
Proof. revert p. induction a as [|e a IH]; intros p; cbn; [done|]. by destruct (promise_step p e). Qed.

Lemma promised_snoc p q log e : promised p log = Some q -> promised p (log ++ [e]) = promise_step q e.
Proof. intros E. rewrite promised_app, E. cbn. by destruct (promise_step q e). Qed.

End Contract.
End Contract.
Import Contract.

(** ** The invariant *)
Module SessionInv.

(** Text that may stand in a header line. *)
Definition clean (s : bytes) : Prop := ContainsAny s line_breaks = false.

Definition in_transaction (p : sessionPhase) : bool :=
  match p with phaseMail | phaseRecipients => true | _ => false end.

(** What the session's spool holds, for the manager's counters. *)
Definition held (f : spool -> Z) (s : commandSession) : Z :=
  match lspool s with Some sp => f sp | None => 0 end.

(** The manager's counters are its initial ones plus what this session holds. *)
Definition balanced (m0 : spoolManager) (s : commandSession) : Prop :=
  opts (spools s) = opts m0 /\
  total (spools s) = total m0 + held reserved s /\
  totalMemory (spools s) = totalMemory m0 + held reservedMemory s /\
  concurrent (spools s) = concurrent m0 + held live s /\
  total (spools s) <= MaxTotalBytes (opts m0) /\
  totalMemory (spools s) <= MaxTotalMemoryBytes (opts m0) /\
  match lspool s with Some sp => spool_ok (opts m0) sp /\ closed sp = false | None => True end.

Section Inv.
Context (cn : connection) (p0 : promise) (m0 : spoolManager).

(** The octets still to come: on this stream, and on the one after STARTTLS. *)
Definition after_tls : nat :=
  match env_handshake (cn_env cn) with Some (r, _) => length (unread r) | None => 0 end.
Definition budget (s : commandSession) : nat :=
  (length (unread (lr_ s)) + if tls (st s) then 0 else after_tls)%nat.

Definition view (s : commandSession) (t : tx) (n : Z) : promise :=
  {| p_tx := t; p_auth := authenticated (st s); p_tls := tls (st s); p_mails := n |}.

(** Between two commands. [n] bounds the budget. *)
Record Inv (n : nat) (s : commandSession) : Prop := {
  inv_budget : (budget s <= n)%nat;
  inv_promise : exists k, promised cn p0 (log s) =
      Some (view s (if transactionOpen s then Open (recipients s) else Idle) k) /\
    k <= mailAttempts s;
  inv_open : transactionOpen s = in_transaction (phase (st s));
  inv_spool : lspool s <> None -> phase (st s) = phaseRecipients;
  inv_recipients :
    match phase (st s) with
    | phaseRecipients => recipients s <> []
    | phaseFailedBDAT => True
    | phaseClosed => False
    | _ => recipients s = []
    end;
  inv_hello : phase (st s) <> phaseConnected -> hello (st s) <> [];
  inv_clean : clean (hello (st s)) /\ Forall clean (recipients s);
  inv_balanced : balanced m0 s;
  inv_running : closeDone s = false
}.

(** What still holds when a handler asks for the connection to be closed or fails. *)
Record Closable (s : commandSession) : Prop := {
  cl_promise : exists p, promised cn p0 (log s) = Some p /\
    match transactionOpen s, lspool s with
    | false, None => p_tx p = Idle
    | _, _ => p_tx p = Delivered \/ exists rs, p_tx p = Open rs
    end;
  cl_balanced : balanced m0 s;
  cl_running : closeDone s = false
}.

Lemma Inv_Closable n s : Inv n s -> Closable s.
Proof.
  intros I. split; [|by eapply inv_balanced|by eapply inv_running].
  destruct (inv_promise _ _ I) as (k & E & _). eexists. split; [exact E|]. cbn.
  destruct (transactionOpen s) eqn:O; [by eauto|]. destruct (lspool s) eqn:L; [|done].
  pose proof (inv_open _ _ I) as HO. rewrite (inv_spool _ _ I) in HO by (by rewrite L). cbn in HO. congruence.
Qed.

Lemma Inv_weaken n n' s : (n <= n')%nat -> Inv n s -> Inv n' s.
Proof. intros L [B P O S R H C A D]. split; (done || lia). Qed.

(** Sessions that differ in their output, the environment's clock and the trace only. *)
Definition same (s s' : commandSession) : Prop :=
  exists p o c t, s' = {| st := st s; tlsSt := tlsSt s; lr_ := lr_ s; pending := p; sent := o; clock := c;
     transactionOpen := transactionOpen s; lspool := lspool s; closeDone := closeDone s;
     extended := extended s; smtpUTF8 := smtpUTF8 s; binaryMIME := binaryMIME s;
     recipients := recipients s; mailAttempts := mailAttempts s; spools := spools s; log := log s;
     traces := t |}.

#[global] Instance same_equiv : Equivalence same.
Proof.
  split.
  - intros []. repeat eexists.
  - intros [] ? (? & ? & ? & ? & ->). repeat eexists.
  - intros [] ? ? (? & ? & ? & ? & ->) (? & ? & ? & ? & ->). repeat eexists.
Qed.

Lemma Inv_same_impl n s s' : same s s' -> Inv n s -> Inv n s'.
Proof. intros (? & ? & ? & ? & ->) [B P O S R H C A D]. by split. Qed.

Lemma Closable_same_impl s s' : same s s' -> Closable s -> Closable s'.
Proof. intros (? & ? & ? & ? & ->) [P A D]. by split. Qed.

#[global] Instance Inv_same n : Proper (same ==> iff) (Inv n).
Proof. intros s s' E. split; apply Inv_same_impl; by try symmetry. Qed.

#[global] Instance Closable_same : Proper (same ==> iff) Closable.
Proof. intros s s' E. split; apply Closable_same_impl; by try symmetry. Qed.

End Inv.
End SessionInv.
Import SessionInv.

(** ** Weakest preconditions *)
Module Wp.
Section Wp.
Context `{Unicode} `{NetIP} `{RFC3339} `{Crypto} (cn : connection) (p0 : promise) (m0 : spoolManager).

(** Errors that would mean the framework contradicts itself: a transition its own tables refuse, a
    command without a handler, a Received field it cannot write, a panic, a loop out of fuel. *)
Definition internal (e : serr) : bool :=
  match e with
  | STransition | SNoHandler | SReceived _ | SPanic | SFuel => true
  | _ => false
  end.

Definition failed (e : serr) (s : commandSession) : Prop := internal e = false /\ Closable cn p0 m0 s.

Definition wp {A} (m : M A) (Q : A -> commandSession -> Prop) (s : commandSession) : Prop :=
  match m s with
  | (s', Ok a) => Q a s'
  | (s', Err e) => failed e s'
  end.

(** What a handler owes the loop. *)
Definition settled (n : nat) (a : commandAction) (s : commandSession) : Prop :=
  if act_close a then Closable cn p0 m0 s else Inv cn p0 m0 n s.

Lemma wp_ret {A} (a : A) Q s : Q a s -> wp (mret a) Q s.
Proof. done. Qed.

Lemma wp_bind {A B} (m : M A) (k : A -> M B) Q s : wp m (fun a => wp (k a) Q) s -> wp (m ≫= k) Q s.
Proof. unfold wp, mbind, M_bind. by destruct (m s) as [s' [a|e]]. Qed.

Lemma wp_get (Q : commandSession -> commandSession -> Prop) s : Q s s -> wp get_session Q s.
Proof. done. Qed.

Lemma wp_modify f (Q : unit -> commandSession -> Prop) s : Q tt (f s) -> wp (modify f) Q s.
Proof. done. Qed.

Lemma wp_consequence {A} (m : M A) (Q R : A -> commandSession -> Prop) s :
  wp m Q s -> (forall a s', Q a s' -> R a s') -> wp m R s.
Proof. unfold wp. destruct (m s) as [s' [a|e]]; auto. Qed.

Lemma same_io s p o c : same s (set_io s (lr_ s) p o c).
Proof. destruct s. repeat eexists. Qed.

Lemma same_tick s : same s (tick s).
Proof. apply same_io. Qed.

Lemma same_trace s l : same s (if cn_trace cn then add_trace s l else s).
Proof. destruct s, (cn_trace cn); repeat eexists. Qed.

Lemma wp_trace l (Q : unit -> commandSession -> Prop) s :
  (forall s', same s s' -> Q tt s') -> wp (trace_line cn l) Q s.
Proof. intros HQ. apply wp_modify, HQ, same_trace. Qed.

Lemma wp_write r (Q : unit -> commandSession -> Prop) s :
  Closable cn p0 m0 s -> (forall s', same s s' -> Q tt s') -> wp (writeReply cn r) Q s.
Proof.
  intros C HQ. unfold wp, writeReply. destruct (env_write _ _).
  2:{ split; [done|]. by rewrite <- (same_tick s). }
  destruct (encodeWireReply r); [|split; [done|]; by rewrite <- (same_tick s)].
  cbn. apply HQ. etrans; [apply same_io|apply same_trace].
Qed.

Lemma wp_flush (Q : unit -> commandSession -> Prop) s :
  Closable cn p0 m0 s -> (forall s', same s s' -> Q tt s') -> wp (Flush cn) Q s.
Proof.
  intros C HQ. unfold wp, Flush. destruct (env_write _ _).
  - apply HQ, same_io.
  - split; [done|]. by rewrite <- (same_tick s).
Qed.

Lemma wp_transition e (Q : unit -> commandSession -> Prop) s :
  contains (from (phaseTransitions e)) (phase (st s)) = true ->
  Q tt (set_st s (applyEvent (set_phase (st s) (to (phaseTransitions e))) e)) ->
  wp (transition_ e) Q s.
Proof. intros HC HQ. unfold wp, transition_, transition. by rewrite HC. Qed.

(** A reply ends the handler. *)
Lemma wp_reply n r a s :
  act_close a = false -> Inv cn p0 m0 n s -> wp (writeReply cn r ;; mret a) (settled n) s.
Proof.
  intros HA I. apply wp_bind, wp_write; [by eapply Inv_Closable|].
  intros s' S. apply wp_ret. unfold settled. by rewrite HA, <- S.
Qed.

Lemma wp_reply_close n r s : Closable cn p0 m0 s -> wp (writeReply cn r ;; mret close_) (settled n) s.
Proof. intros C. apply wp_bind, wp_write; [done|]. intros s' S. apply wp_ret. unfold settled. cbn. by rewrite <- S. Qed.

Lemma wp_syntax n name s : Inv cn p0 m0 n s -> wp (syntaxReply cn name) (settled n) s.
Proof. by apply wp_reply. Qed.
Lemma wp_policy n t s : Inv cn p0 m0 n s -> wp (policyReply cn t) (settled n) s.
Proof. by apply wp_reply. Qed.
Lemma wp_notImplemented n t s : Inv cn p0 m0 n s -> wp (notImplementedReply cn t) (settled n) s.
Proof. by apply wp_reply. Qed.
Lemma wp_backendReply n c e k t s : Inv cn p0 m0 n s -> wp (backendReply cn c e k t) (settled n) s.
Proof. by apply wp_reply. Qed.
Lemma wp_noRecipients n s : Inv cn p0 m0 n s -> wp (noRecipientsReply cn) (settled n) s.
Proof. by apply wp_reply. Qed.

End Wp.
End Wp.
Import Wp.

#[export] Hint Resolve wp_reply wp_reply_close wp_syntax wp_policy wp_notImplemented wp_backendReply
  wp_noRecipients : gosmtp.

(** One step of symbolic execution. *)
Ltac wp_step :=
  lazymatch goal with
  | |- wp _ _ _ (mbind _ (writeReply _ _)) _ _ => fail
  | |- wp _ _ _ (mbind _ _) _ _ => apply wp_bind
  | |- wp _ _ _ get_session _ _ => apply wp_get
  | |- wp _ _ _ (modify _) _ _ => apply wp_modify
  | |- wp _ _ _ (mret _) _ _ => apply wp_ret
  end; cbv beta.
Ltac wp_steps := repeat wp_step.
(** Case analysis on the condition a computation starts with. *)
Ltac wp_case :=
  match goal with |- wp _ _ _ (match ?x with _ => _ end) _ _ => destruct x eqn:? end.

(** ** The handlers *)
Module Handlers.
Section Handlers.
Context `{Unicode} `{NetIP} `{RFC3339} `{Crypto} (cn : connection) (p0 : promise) (m0 : spoolManager).
Abbreviation Inv := (Inv cn p0 m0).
Abbreviation Closable := (Closable cn p0 m0).
Abbreviation wp := (wp cn p0 m0).
Abbreviation settled := (settled cn p0 m0).
Implicit Types (s : commandSession) (n : nat).
(** What NewServer validates of the options used here. *)
Context (Hidentity : validGreetingIdentity (identity (cn_cfg cn)) = true)
  (Hmax : 0 <= maxMessage (cn_cfg cn) < MaxInt64) (Hspool : 0 < MaxBytes (opts m0)).

(** *** The lifecycle *)

Lemma balanced_release s m o : balanced m0 s ->
  m = match lspool s with Some sp => fst (Spool.Close (spools s) sp) | None => spools s end ->
  balanced m0 (set_life s o None m).
Proof.
  unfold balanced, held. intros (HO & HT & HM & HC & BT & BM & HS) ->. cbn [lspool spools set_life].
  destruct (lspool s) as [sp|]; [|by split_and!].
  destruct HS as [Hok Hc]. unfold Spool.Close. rewrite Hc. cbn.
  pose proof (spool_ok_nonneg _ _ Hok). unfold live in *. rewrite Hc in *.
  split_and!; (done || lia).
Qed.

Lemma balanced_reset r s : balanced m0 s -> balanced m0 (life_reset r s).
Proof. intros B. exact (balanced_release s _ false B eq_refl). Qed.

(** The session is idle for the backend: the shape of every state outside a transaction. *)
Lemma Inv_idle n s k :
  (budget cn s <= n)%nat -> promised cn p0 (log s) = Some (view s Idle k) -> k <= mailAttempts s ->
  transactionOpen s = false -> lspool s = None ->
  match phase (st s) with
  | phaseMail | phaseRecipients | phaseClosed => False
  | phaseFailedBDAT => True
  | _ => recipients s = []
  end ->
  (phase (st s) <> phaseConnected -> hello (st s) <> []) ->
  clean (hello (st s)) -> Forall clean (recipients s) -> balanced m0 s -> closeDone s = false -> Inv n s.
Proof.
  intros B P L O S R Hh C1 C2 A D. split; [done|..|done|done|done|done].
  - exists k. by rewrite O.
  - rewrite O. by destruct (phase (st s)).
  - by rewrite S.
  - by destruct (phase (st s)).
Qed.

(** What a backend was promised so far, from the invariant. *)
Lemma Inv_view n s : Inv n s -> exists k, k <= mailAttempts s /\
  promised cn p0 (log s) = Some (view s (if transactionOpen s then Open (recipients s) else Idle) k).
Proof. intros I. destruct (inv_promise _ _ _ _ _ I) as (k & ? & ?). eauto. Qed.

Definition ends_open (r : ResetReason) : bool :=
  match r with ResetExplicit | ResetNewMail | ResetFailed | ResetSessionEnd => true | _ => false end.

(** Calls that change nothing. *)
Definition neutral (e : event) : bool :=
  match e with CallVerify _ | CallExpand _ | CallHelp _ => true | _ => false end.

Lemma Inv_neutral n s e : neutral e = true -> Inv n s -> Inv n (add_log s e).
Proof.
  intros HE I. destruct (Inv_view _ _ I) as (k & L & P). destruct I as [B _ O S R Hh C A D].
  split; try done. exists k. split; [|done].
  cbn [log add_log]. rewrite (promised_snoc _ _ _ _ _ P). cbn. unfold promise_step. cbn.
  destruct (transactionOpen s), e; try done; by destruct (recipients s).
Qed.

Lemma not_ctl_clean a : existsb is_ctl a = false -> clean a.
Proof.
  intros HC. unfold clean. apply ContainsAny_false. apply forallb_forall. intros c Hc.
  apply not_true_iff_false in HC. apply negb_true_iff, not_true_iff_false. intros M. apply HC, existsb_exists.
  exists c. split; [done|]. apply existsb_exists in M as (d & Hd & E).
  destruct (byte_eqb_spec c d) as [->|]; [|done]. by destruct Hd as [<-|[<-|[<-|[]]]].
Qed.

(** *** Commands that leave the transaction alone *)

Lemma wp_NOOP n c s : Inv n s -> wp (handleNOOP cn c) (settled n) s.
Proof. unfold handleNOOP. auto with gosmtp. Qed.

Lemma wp_QUIT n c s : Inv n s -> wp (handleQUIT cn c) (settled n) s.
Proof.
  intros I. unfold handleQUIT. case_match; [auto with gosmtp|]. apply wp_reply_close. by eapply Inv_Closable.
Qed.

Lemma wp_VRFY n c s : Inv n s -> wp (handleVRFY cn c) (settled n) s.
Proof.
  intros I. unfold handleVRFY. case_match; [auto with gosmtp|]. case_match; [|auto with gosmtp].
  wp_steps. assert (Inv n (add_log s (CallVerify (Argument c)))) by by apply Inv_neutral.
  case_match; auto with gosmtp.
Qed.

Lemma wp_EXPN n c s : Inv n s -> wp (handleEXPN cn c) (settled n) s.
Proof.
  intros I. unfold handleEXPN. case_match; [auto with gosmtp|]. case_match; [|auto with gosmtp].
  wp_steps. assert (Inv n (add_log s (CallExpand (Argument c)))) by by apply Inv_neutral.
  case_match; auto with gosmtp.
Qed.

Lemma wp_HELP n c s : Inv n s -> wp (handleHELP cn c) (settled n) s.
Proof.
  intros I. unfold handleHELP. case_match; [|auto with gosmtp].
  wp_steps. assert (Inv n (add_log s (CallHelp (Argument c)))) by by apply Inv_neutral.
  case_match; auto with gosmtp.
Qed.

(** *** Leaving a transaction *)

(** The lifecycle is idle and nothing else changed. *)
Record abandoned (s s' : commandSession) : Prop := {
  ab_promise : exists k, k <= mailAttempts s /\ promised cn p0 (log s') = Some (view s Idle k);
  ab_open : transactionOpen s' = false;
  ab_spool : lspool s' = None;
  ab_balanced : balanced m0 s';
  ab_st : st s' = st s;
  ab_lr : lr_ s' = lr_ s;
  ab_recipients : recipients s' = recipients s;
  ab_attempts : mailAttempts s' = mailAttempts s;
  ab_running : closeDone s' = closeDone s
}.

Lemma promise_reset p q l r :
  promised cn p l = Some q -> (exists rs, p_tx q = Open rs) -> ends_open r = true ->
  promised cn p (l ++ [CallReset r]) = Some (set_tx q Idle).
Proof.
  intros E (rs & HT) HR. rewrite (promised_snoc _ _ _ _ _ E). unfold promise_step. rewrite HT.
  by destruct rs, r.
Qed.

Lemma Inv_abandon n s r : ends_open r = true -> Inv n s -> abandoned s (life_resetIfOpen r s).
Proof.
  intros HR I. destruct (Inv_view _ _ I) as (k & L & P).
  pose proof (inv_balanced _ _ _ _ _ I) as B. unfold life_resetIfOpen.
  destruct (transactionOpen s) eqn:O.
  - split; try done; [|by apply balanced_reset]. exists k. split; [done|].
    unfold life_reset. cbn [log add_log set_life].
    rewrite (promise_reset _ _ _ _ P); [done|by eexists|done].
  - destruct (lspool s) eqn:S; [|split; eauto].
    pose proof (inv_open _ _ _ _ _ I) as HO. rewrite (inv_spool _ _ _ _ _ I) in HO by by rewrite S.
    cbn in HO. congruence.
Qed.

Lemma reset_if_open n s r :
  Inv n s -> (if transactionOpen s then life_reset r s else s) = life_resetIfOpen r s.
Proof.
  intros I. unfold life_resetIfOpen. destruct (transactionOpen s) eqn:O; [done|].
  destruct (lspool s) eqn:S; [|done].
  pose proof (inv_open _ _ _ _ _ I) as HO. rewrite (inv_spool _ _ _ _ _ I) in HO by by rewrite S.
  cbn in HO. congruence.
Qed.

(** An abandoned transaction and a transition to a phase without one. *)
Lemma abandoned_idle n s s' s'' :
  Inv n s -> abandoned s s' ->
  transactionOpen s'' = transactionOpen s' -> lspool s'' = lspool s' -> spools s'' = spools s' ->
  log s'' = log s' -> mailAttempts s'' = mailAttempts s' -> closeDone s'' = closeDone s' ->
  lr_ s'' = lr_ s' -> tls (st s'') = tls (st s) -> authenticated (st s'') = authenticated (st s) ->
  match phase (st s'') with
  | phaseMail | phaseRecipients | phaseClosed => False
  | phaseFailedBDAT => True
  | _ => recipients s'' = []
  end ->
  (phase (st s'') <> phaseConnected -> hello (st s'') <> []) ->
  clean (hello (st s'')) -> Forall clean (recipients s'') -> Inv n s''.
Proof.
  intros I [(k & L & P) O S B St Lr Rc At Rn] E1 E2 E3 E4 E5 E6 E7 E8 E9 R Hh C1 C2.
  pose proof (inv_budget _ _ _ _ _ I) as HB. pose proof (inv_running _ _ _ _ _ I).
  apply (Inv_idle n s'' k); try done.
  - unfold budget in *. by rewrite E7, Lr, E8.
  - rewrite E4, P. unfold view. by rewrite E8, E9.
  - congruence.
  - congruence.
  - congruence.
  - unfold balanced, held in *. by rewrite E2, E3.
  - congruence.
Qed.

Lemma contains_from e p : contains (from (phaseTransitions e)) p =
  match e, p with
  | eventHello, (phaseConnected | phaseReady | phaseMail | phaseRecipients) => true
  | (eventMailAccepted), (phaseReady | phaseMail | phaseRecipients) => true
  | eventRecipientAccepted, (phaseMail | phaseRecipients) => true
  | eventTransactionComplete, phaseRecipients => true
  | eventTransactionFailed, (phaseMail | phaseRecipients) => true
  | eventBDATFailed, phaseRecipients => true
  | eventReset, (phaseReady | phaseMail | phaseRecipients | phaseFailedBDAT) => true
  | (eventStartTLS | eventAuthenticated), phaseReady => true
  | eventClose, (phaseConnected | phaseReady | phaseMail | phaseRecipients | phaseFailedBDAT) => true
  | _, _ => false
  end.
Proof. by destruct e, p. Qed.

Definition after_greeting (p : sessionPhase) : bool :=
  match p with phaseReady | phaseMail | phaseRecipients => true | _ => false end.

Lemma wp_RSET n c s :
  after_greeting (phase (st s)) || bool_decide (phase (st s) = phaseFailedBDAT) = true ->
  Inv n s -> wp (handleRSET cn c) (settled n) s.
Proof.
  intros HP I. unfold handleRSET. case_match; [auto with gosmtp|]. wp_steps.
  pose proof (Inv_abandon n s ResetExplicit eq_refl I) as Ab. apply wp_transition.
  { rewrite contains_from, (ab_st _ _ Ab). by destruct (phase (st s)). }
  wp_steps. apply wp_reply; [done|].
  eapply (abandoned_idle n s); try done; cbn; rewrite (ab_st _ _ Ab); try done.
  - intros _. apply (inv_hello _ _ _ _ _ I). by destruct (phase (st s)).
  - apply (inv_clean _ _ _ _ _ I).
Qed.

Lemma wp_EHLO (Q : unit -> commandSession -> Prop) s :
  Closable s -> (forall s', same s s' -> Q tt s') -> wp (writeEHLO cn) Q s.
Proof.
  intros C HQ. unfold Wp.wp, writeEHLO. destruct (env_write _ _).
  2:{ split; [done|]. by rewrite <- (same_tick s). }
  destruct (EncodeEHLOReply _); [|split; [done|]; by rewrite <- (same_tick s)].
  cbn. apply HQ. etrans; [apply same_io|apply same_trace].
Qed.

Lemma wp_Hello n c s :
  existsb is_ctl (Argument c) = false ->
  after_greeting (phase (st s)) || bool_decide (phase (st s) = phaseConnected) = true ->
  Inv n s -> wp (handleHello cn c) (settled n) s.
Proof.
  intros HA HP I. unfold handleHello.
  destruct (ParseHelloCommand c) as [h|] eqn:EH; [|auto with gosmtp].
  assert (HDomain h = Argument c /\ Argument c <> []) as [HD HN].
  { unfold ParseHelloCommand in EH. repeat case_match; try done. injection EH as <-.
    split; [done|]. intros E. by rewrite E in *. }
  case_match; [auto with gosmtp|]. wp_steps.
  rewrite (reset_if_open n s ResetExplicit I).
  pose proof (Inv_abandon n s ResetExplicit eq_refl I) as Ab. apply wp_transition.
  { rewrite contains_from, (ab_st _ _ Ab). by destruct (phase (st s)). }
  wp_steps.
  match goal with |- context [session_mechanisms _ ?x] => set (s' := x) end.
  assert (Inv n s') as I'.
  { eapply (abandoned_idle n s); try done; cbn; rewrite ?(ab_st _ _ Ab); try done; rewrite HD; [done|].
    by apply not_ctl_clean. }
  clearbody s'. wp_case; [apply wp_reply_close; by eapply Inv_Closable|].
  wp_case; [by apply wp_reply|].
  apply wp_bind, wp_EHLO; [by eapply Inv_Closable|]. intros s1 S. apply wp_ret.
  unfold Wp.settled. cbn. by rewrite <- S.
Qed.

(** *** MAIL *)

(** The backend has seen fewer MAIL calls than the client made attempts. *)
Definition mails_left (s : commandSession) : Prop :=
  exists k, promised cn p0 (log s) =
      Some (view s (if transactionOpen s then Open (recipients s) else Idle) k) /\
    k < mailAttempts s.

(** Ready for a transaction. *)
Definition ready (n : nat) (s0 s : commandSession) : Prop :=
  Inv n s /\ phase (st s) = phaseReady /\ transactionOpen s = false /\ mails_left s /\
  mailAttempts s = mailAttempts s0 /\ tls (st s) = tls (st s0) /\
  authenticated (st s) = authenticated (st s0).

Lemma wp_new_mail n s :
  after_greeting (phase (st s)) = true -> mails_left s -> Inv n s ->
  wp (if transactionOpen s then
        modify (life_reset ResetNewMail) ;; transition_ eventTransactionFailed ;; modify clearTransaction
      else mret tt) (fun _ => ready n s) s.
Proof.
  intros HP (k & P & Lk) I. pose proof (inv_open _ _ _ _ _ I) as HO.
  destruct (transactionOpen s) eqn:O.
  2:{ apply wp_ret. split_and!; try done.
      - rewrite HO in O. by destruct (phase (st s)).
      - exists k. by rewrite O. }
  wp_steps. replace (life_reset ResetNewMail s) with (life_resetIfOpen ResetNewMail s)
    by (unfold life_resetIfOpen; by rewrite O).
  pose proof (Inv_abandon n s ResetNewMail eq_refl I) as Ab. apply wp_transition.
  { rewrite contains_from, (ab_st _ _ Ab). by destruct (phase (st s)). }
  apply wp_modify. rewrite (ab_st _ _ Ab).
  assert (promised cn p0 (log (life_resetIfOpen ResetNewMail s)) = Some (view s Idle k)) as P'.
  { unfold life_resetIfOpen. rewrite O. unfold life_reset. cbn [log add_log set_life].
    rewrite (promise_reset _ _ _ _ P); [done|by eexists|done]. }
  match goal with |- ready n s ?x => set (s' := x) end.
  assert (transactionOpen s' = false) as O' by apply Ab.
  split_and!; try done.
  - eapply (abandoned_idle n s); try done; cbn.
    + intros _. apply (inv_hello _ _ _ _ _ I). by destruct (phase (st s)).
    + apply (inv_clean _ _ _ _ _ I).
  - exists k. rewrite O'. split; [exact P'|]. cbn. by rewrite (ab_attempts _ _ Ab).
  - apply Ab.
Qed.

Lemma wp_mail_accepted n s mailbox params :
  after_greeting (phase (st s)) = true -> mails_left s -> mailAttempts s <= cn_maxTransactions cn ->
  (requireTLS (cn_cfg cn) = true -> tls (st s) = true) ->
  (requireAuth (cn_cfg cn) = true -> authenticated (st s) = true) ->
  Inv n s -> wp (mail_accepted cn mailbox params) (settled n) s.
Proof.
  intros HP HM HX HT HA I. unfold mail_accepted. wp_steps.
  eapply wp_consequence; [by apply wp_new_mail|]. clear I HM HP. cbv beta. intros _ s1 R.
  destruct R as (I & HP & HO & (k & P & Lk) & Ea & Et & Eu).
  wp_case; [by apply wp_reply|]. wp_steps. rewrite HO in P. unfold life_mail. rewrite HO.
  assert (forall err, promised cn p0 (log s1 ++ [CallMail mailbox params err]) =
    Some (view s1 (match err with None => Open [] | Some _ => Idle end) (k + 1))) as P'.
  { intros err. rewrite (promised_snoc _ _ _ _ _ P). unfold promise_step. cbn [p_tx view].
    unfold mail_permitted. cbn [p_tls p_auth p_mails view].
    replace (negb (requireTLS (cn_cfg cn) && negb (tls (st s1)))) with true
      by (destruct (requireTLS (cn_cfg cn)); [by rewrite Et, HT|done]).
    replace (negb (requireAuth (cn_cfg cn) && negb (authenticated (st s1)))) with true
      by (destruct (requireAuth (cn_cfg cn)); [by rewrite Eu, HA|done]).
    replace (negb (over_size cn params)) with true by (by destruct (over_size cn params)).
    destruct (Z.ltb_spec k (cn_maxTransactions cn)); [done|lia]. }
  pose proof (inv_hello _ _ _ _ _ I) as Hh. rewrite HP in Hh. specialize (Hh ltac:(done)).
  pose proof (inv_recipients _ _ _ _ _ I) as HR. rewrite HP in HR.
  pose proof (inv_clean _ _ _ _ _ I) as [C1 _]. pose proof (inv_budget _ _ _ _ _ I) as HB.
  pose proof (inv_balanced _ _ _ _ _ I) as BA. pose proof (inv_running _ _ _ _ _ I) as Rn.
  assert (lspool s1 = None) as LS.
  { destruct (lspool s1) eqn:E; [|done]. pose proof (inv_spool _ _ _ _ _ I) as S. rewrite E, HP in S.
    by specialize (S ltac:(done)). }
  destruct (be_Mail _ _ _ _) as [e|]; wp_steps.
  - cbn [st add_log]. rewrite HP. apply wp_backendReply.
    apply (Inv_idle n _ (k + 1)); cbn; rewrite ?HP; try done; first [apply (P' (Some e)) | lia].
  - apply wp_transition; [rewrite contains_from; cbn; by rewrite HP|]. wp_steps. apply wp_reply; [done|].
    split; cbn; try done.
    exists (k + 1). split; [apply (P' None)|lia].
Qed.

Lemma wp_Mail n c s :
  after_greeting (phase (st s)) = true -> mails_left s -> mailAttempts s <= cn_maxTransactions cn ->
  Inv n s -> wp (handleMail cn c) (settled n) s.
Proof.
  intros HP HM HX I. unfold handleMail. wp_steps. wp_case; [by apply wp_policy|].
  wp_case; [by apply wp_policy|]. wp_case; [|by apply wp_syntax].
  destruct (extended s); [|wp_case; [|by apply wp_syntax]].
  all: wp_case; [|by apply wp_syntax]. all: wp_case; [by apply wp_syntax|]. all: wp_case; [by apply wp_syntax|].
  all: apply wp_mail_accepted; try done; intros Hr; unfold cfg_ in *; rewrite Hr in *; cbn [andb] in *; by btrue.
Qed.

(** *** RCPT *)

(** A parsed mailbox is a substring of the argument. *)
Lemma mailbox_clean argument prefix an ap o path :
  parsePathArgument argument prefix an ap o = Ok path -> existsb is_ctl argument = false ->
  clean (Mailbox path).
Proof.
  intros (pre & raw & suffix & -> & _ & _ & _ & HM)%parsePathArgument_inv HC. apply not_ctl_clean.
  rewrite existsb_app in HC. apply orb_false_iff in HC as [_ HC]. cbn [existsb] in HC.
  apply orb_false_iff in HC as [_ HC]. rewrite existsb_app in HC. apply orb_false_iff in HC as [HC _].
  destruct HM as [(_ & _ & _ & -> & _)|(_ & _ & (route & ->) & _)]; [done|].
  rewrite existsb_app in HC. by apply orb_false_iff in HC as [_ HC].
Qed.

Lemma wp_rcpt_checked n path s :
  clean (Mailbox path) -> in_transaction (phase (st s)) = true ->
  Inv n s -> wp (rcpt_checked cn path) (settled n) s.
Proof.
  intros HC HP I. unfold rcpt_checked. wp_steps.
  wp_case; [by apply wp_reply|]. wp_case; [|by apply wp_syntax].
  destruct (be_Rcpt _ _ _ _) as [err ls]. wp_steps.
  destruct (Inv_view _ _ I) as (k & L & P). pose proof (inv_open _ _ _ _ _ I) as HO. rewrite HP in HO.
  rewrite HO in P.
  assert (promised cn p0 (log s ++ [CallRcpt (Mailbox path) a err ls]) =
    Some (view s (Open (if recipient_accepted err ls then recipients s ++ [Mailbox path] else recipients s)) k)) as P'.
  { rewrite (promised_snoc _ _ _ _ _ P). unfold promise_step. cbn [p_tx view].
    unfold cfg_ in *. match goal with E : (maxRcpt _ <=? _) = false |- _ => rewrite E end.
    by destruct (recipients s). }
  destruct I as [B _ O S R Hh [C1 C2] A D].
  assert (recipient_accepted err ls = false -> Inv n (add_log s (CallRcpt (Mailbox path) a err ls))) as Rejected.
  { intros E. rewrite E in P'. split; try done. exists k. cbn. by rewrite HO. }
  destruct err as [e|]; [by apply wp_backendReply, Rejected|].
  cbn [recipient_accepted] in *. destruct (validateRcptSuccessLines ls); cbn [negb];
    [|by apply wp_backendReply, Rejected].
  wp_steps.
  assert (Forall clean (recipients s ++ [Mailbox path])) as C2'
    by (apply Forall_app; split; [done|by constructor]).
  destruct (phase (st s)) eqn:EP; try done; [apply wp_transition; [rewrite contains_from; cbn; by rewrite EP|]|wp_steps].
  all: apply wp_reply; [done|]; split; cbn; rewrite ?EP; try done;
    first [exists k; by rewrite HO | by rewrite HO | by destruct (recipients s) | intros _; by apply Hh].
Qed.

Lemma wp_Rcpt n c s :
  existsb is_ctl (Argument c) = false -> in_transaction (phase (st s)) = true ->
  Inv n s -> wp (handleRcpt cn c) (settled n) s.
Proof.
  intros HA HP I. unfold handleRcpt. wp_steps. wp_case; [|by apply wp_syntax].
  assert (clean (Mailbox a)) as HC by by eapply mailbox_clean.
  destruct (extended s); [by apply wp_rcpt_checked|].
  destruct (Params a); [by apply wp_rcpt_checked|by apply wp_syntax].
Qed.

(** *** Commands of the ready phase *)

Lemma ready_closed n s : phase (st s) = phaseReady -> Inv n s ->
  transactionOpen s = false /\ lspool s = None /\ recipients s = [].
Proof.
  intros HP [B P O S R Hh C A D]. rewrite HP in *. split_and!; try done.
  destruct (lspool s); [|done]. by specialize (S ltac:(done)).
Qed.

Lemma Inv_ready_call n s e :
  phase (st s) = phaseReady -> (forall k, promise_step cn (view s Idle k) e = Some (view s Idle k)) ->
  Inv n s -> Inv n (add_log s e).
Proof.
  intros HP HE I. destruct (ready_closed n s HP I) as (O & _ & _).
  destruct (Inv_view _ _ I) as (k & L & P). destruct I as [B _ O' S R Hh C A D].
  split; try done. exists k. cbn [log add_log transactionOpen]. rewrite O in *.
  rewrite (promised_snoc _ _ _ _ _ P). by rewrite HE.
Qed.

Lemma wp_ETRN n c s : phase (st s) = phaseReady -> Inv n s -> wp (handleETRN cn c) (settled n) s.
Proof.
  intros HP I. unfold handleETRN. wp_case; [by apply wp_syntax|]. wp_case; [|by apply wp_notImplemented].
  wp_steps. assert (Inv n (add_log s (CallETRN (Argument c)))) by by apply Inv_ready_call.
  wp_case; auto with gosmtp.
Qed.

Lemma wp_Buffered (Q : nat -> commandSession -> Prop) s :
  (forall k s', same s s' -> Q k s') -> wp (Buffered cn) Q s.
Proof. intros HQ. unfold Wp.wp, Buffered. apply HQ, same_tick. Qed.

Lemma wp_ATRN n c s : phase (st s) = phaseReady -> Inv n s -> wp (handleATRN cn c) (settled n) s.
Proof.
  intros HP I. unfold handleATRN. wp_case; [|by apply wp_syntax]. wp_steps.
  wp_case; [by apply wp_reply|]. wp_case; [by apply wp_notImplemented|].
  apply wp_bind, wp_Buffered. intros k s1 S.
  assert (Inv n s1) as I1 by by rewrite <- S.
  assert (phase (st s1) = phaseReady /\ authenticated (st s1) = true) as [HP1 HA1].
  { btrue. by destruct S as (? & ? & ? & ? & ->). }
  wp_case; [apply wp_reply_close; by eapply Inv_Closable|]. wp_steps.
  assert (forall e, match e with CallATRN _ | CallTakeover => True | _ => False end ->
    forall s', phase (st s') = phaseReady -> authenticated (st s') = true -> Inv n s' -> Inv n (add_log s' e)) as Call.
  { intros e He s' P' A' I'. apply Inv_ready_call; [done| |done].
    intros j. unfold promise_step. cbn [p_tx p_auth view]. rewrite A'. by destruct e. }
  specialize (Call (CallATRN l) Logic.I s1 HP1 HA1 I1) as I2.
  wp_case; [|by apply wp_backendReply]. wp_case; [|by apply wp_backendReply].
  apply wp_bind, wp_write; [by eapply Inv_Closable|]. intros s2 S2. apply wp_bind.
  assert (Inv n s2) as I3 by by rewrite <- S2.
  apply wp_flush; [by eapply Inv_Closable|]. intros s3 S3. wp_steps. unfold Wp.settled. cbn.
  apply (Inv_Closable cn p0 m0 n). apply Call; [done|..].
  - destruct S2 as (? & ? & ? & ? & ->), S3 as (? & ? & ? & ? & ->). done.
  - destruct S2 as (? & ? & ? & ? & ->), S3 as (? & ? & ? & ? & ->). done.
  - by rewrite <- S3.
Qed.

Lemma wp_STARTTLS n c s :
  phase (st s) = phaseReady -> tls (st s) = false -> Inv n s -> wp (handleSTARTTLS cn c) (settled n) s.
Proof.
  intros HP HT I. unfold handleSTARTTLS. wp_steps. wp_case; [by apply wp_syntax|].
  wp_case; [by apply wp_notImplemented|]. wp_case; [by apply wp_notImplemented|].
  apply wp_bind, wp_write; [by eapply Inv_Closable|]. intros s1 S1. apply wp_bind.
  assert (Inv n s1) as I1 by by rewrite <- S1.
  apply wp_flush; [by eapply Inv_Closable|]. intros s2 S2. apply wp_bind.
  assert (Inv n s2) as I2 by by rewrite <- S2.
  assert (phase (st s2) = phaseReady /\ tls (st s2) = false) as [HP2 HT2].
  { destruct S1 as (? & ? & ? & ? & ->), S2 as (? & ? & ? & ? & ->). done. }
  clear S1 S2 I1. unfold Wp.wp at 1, handshakeTLS.
  destruct (env_handshake (cn_env cn)) as [[r cert]|] eqn:EH.
  2:{ split; [done|]. rewrite <- (same_tick s2). by eapply Inv_Closable. }
  wp_steps. destruct (ready_closed n s2 HP2 I2) as (O & LS & R).
  apply wp_transition; [rewrite contains_from; unfold life_reset; cbn; by rewrite HP2|]. wp_steps.
  unfold Wp.settled. cbn [act_close continue_].
  destruct (Inv_view _ _ I2) as (k & L & P). rewrite O in P.
  pose proof (inv_budget _ _ _ _ _ I2) as HB. unfold budget, after_tls in HB. rewrite HT2, EH in HB.
  apply (Inv_idle n _ k); cbn; try done; try (by apply (inv_running _ _ _ _ _ I2)).
  - unfold budget. cbn. lia.
  - unfold life_reset. cbn [log add_log set_life set_tls tick set_io].
    rewrite (promised_snoc _ _ _ _ _ P). unfold promise_step. cbn [p_tx p_tls view]. by rewrite HT2.
  - pose proof (inv_balanced _ _ _ _ _ I2) as B. unfold balanced, held in *. cbn. by rewrite LS in *.
Qed.

(** *** Message content *)

(** The message has been handed to the backend; the transaction is still open. *)
Record delivering (n : nat) (s : commandSession) : Prop := {
  de_budget : (budget cn s <= n)%nat;
  de_promise : exists k, promised cn p0 (log s) = Some (view s Delivered k) /\ k <= mailAttempts s;
  de_open : transactionOpen s = true;
  de_phase : phase (st s) = phaseRecipients;
  de_hello : hello (st s) <> [];
  de_clean : clean (hello (st s));
  de_balanced : balanced m0 s;
  de_running : closeDone s = false
}.

Lemma delivering_Closable n s : delivering n s -> Closable s.
Proof.
  intros [B (k & P & L) O HP Hh C A D]. split; [|done|done]. eexists. split; [exact P|].
  rewrite O. cbn. by left.
Qed.

Lemma delivering_same n s s' : same s s' -> delivering n s -> delivering n s'.
Proof. intros (? & ? & ? & ? & ->) [B P O HP Hh C A D]. by split. Qed.

Lemma greeting_clean id : validGreetingIdentity id = true -> id <> [] /\ clean id.
Proof.
  unfold validGreetingIdentity. intros HV. destruct (beq id [] || _) eqn:E1; [done|]. btrue.
  destruct (forallb is_graph id) eqn:E2; [|done]. split; [by intros ->|].
  apply ContainsAny_false. eapply forallb_mono; [|exact E2]. intros c Hc.
  apply negb_true_iff, not_true_iff_false. intros M. apply existsb_exists in M as (d & Hd & E).
  destruct (byte_eqb_spec c d) as [->|]; [|done]. by destruct Hd as [<-|[<-|[<-|[]]]].
Qed.

Lemma received_ok s r0 rs :
  hello (st s) <> [] -> clean (hello (st s)) -> recipients s = r0 :: rs -> clean r0 ->
  exists h, FormatReceived (received_options cn s r0) = Ok h.
Proof.
  intros Hh Ch HR Cr. destruct (greeting_clean _ Hidentity) as [Hi Ci].
  unfold FormatReceived. cbn [Timestamp received_options From By ID For RecipientCount].
  unfold cfg_. destruct (beq_spec (hello (st s)) []); [done|]. destruct (beq_spec (identity (cn_cfg cn)) []); [done|].
  destruct (Z.ltb_spec (Z.of_nat (length (recipients s))) 0); [lia|]. cbn [orb existsb].
  unfold clean in *. rewrite Ch, Ci. change (ContainsAny [] line_breaks) with false.
  assert (ContainsAny ($"<" ++ r0 ++ $">") line_breaks = false) as ->.
  { apply ContainsAny_false. apply ContainsAny_false in Cr. rewrite !forallb_app, Cr. done. }
  cbn [orb].
  assert (exists w, receivedProtocol (received_options cn s r0) = Ok w) as [w ->].
  { unfold receivedProtocol. cbn [LMTP Extended TLS Authenticated received_options].
    destruct (mode (st s)), (extended s), (tls (st s)), (authenticated (st s)); eexists; reflexivity. }
  assert (exists f, received_for (received_options cn s r0) = Ok f) as [f ->].
  { unfold received_for. cbn [RecipientCount For received_options].
    destruct (_ && _); [|by eexists]. rewrite app_assoc, HasSuffix_app.
    change (HasPrefix (($"<" ++ r0) ++ $">") ($"<")) with (HasPrefix (r0 ++ $">") []).
    destruct (r0 ++ $">"); by eexists. }
  by eexists.
Qed.

Lemma wp_evaluate n s command c (Q : dataEvaluation * content -> commandSession -> Prop) :
  phase (st s) = phaseRecipients -> Inv n s ->
  (forall m rs h b, exists ev t, evaluateDataCall m rs command {| header := h; source := c; exhausted := false |} b
     = Some (ev, t) /\ (forall s', delivering n s' -> lr_ s' = lr_ s -> Q (ev, source t) s')) ->
  wp (evaluateContent cn command c) Q s.
Proof.
  intros HP I HQ. pose proof (inv_recipients _ _ _ _ _ I) as HR. rewrite HP in HR.
  pose proof (inv_hello _ _ _ _ _ I) as Hh. rewrite HP in Hh. specialize (Hh ltac:(done)).
  pose proof (inv_clean _ _ _ _ _ I) as [C1 C2]. pose proof (inv_open _ _ _ _ _ I) as O. rewrite HP in O.
  destruct (Inv_view _ _ I) as (k & L & P). rewrite O in P. cbn in P.
  unfold Wp.wp, evaluateContent. destruct (recipients s) as [|r0 rs] eqn:ER; [done|].
  inversion_clear C2 as [|? ? Cr _]. destruct (received_ok s r0 rs Hh C1 ER Cr) as [h ->].
  set (obs := match backend_reads _ _ with Some (o, _) => o | None => [] end).
  destruct (HQ (mode (st s)) (r0 :: rs) h (be_Data (cn_backend cn) (log s))) as (ev & t & -> & HQ').
  apply HQ'; [|done].
  split; try done; cbn; try (by apply (inv_budget _ _ _ _ _ I)); try (by apply (inv_balanced _ _ _ _ _ I));
    try (by apply (inv_running _ _ _ _ _ I)).
  exists k. split; [|done]. rewrite (promised_snoc _ _ _ _ _ P). done.
Qed.

Lemma writeReply_same r s s' res :
  writeReply cn r s = (s', res) -> same s s' /\ (forall e, res = Err e -> internal e = false).
Proof.
  unfold writeReply. destruct (env_write _ _); [destruct (encodeWireReply r)|]; cbn; intros E; injection E as <- <-.
  - split; [|done]. etrans; [apply same_io|apply same_trace].
  - split; [apply same_tick|]. by intros e' [= <-].
  - split; [apply same_tick|]. by intros e' [= <-].
Qed.

Lemma write_results_same rs s s' res :
  write_results cn rs s = (s', res) -> same s s' /\ (forall e, res = Err e -> internal e = false).
Proof.
  revert s. induction rs as [|r rs IH]; intros s; cbn [write_results].
  { intros [= <- <-]. split; [done|]. done. }
  unfold mbind, M_bind. destruct (writeResult cn r s) as [s1 [u|e]] eqn:E1; apply writeReply_same in E1 as [S1 F1].
  - intros E. apply IH in E as [S2 F2]. split; [by etrans|done].
  - intros [= <- <-]. split; [done|]. intros e' [= <-]. by apply F1.
Qed.

Lemma wp_finish n ev s : delivering n s -> wp (finishContent cn ev) (settled n) s.
Proof.
  intros DL. unfold Wp.wp, finishContent. destruct (closeConnection ev).
  { pose proof (delivering_Closable n s DL). by destruct (cause ev). }
  destruct (write_results cn (ev_result ev) s) as [s1 r] eqn:EW.
  apply write_results_same in EW as [S1 F1].
  pose proof (delivering_same n s s1 S1 DL) as [B (k & P & L) O HP Hh C A D].
  set (reason := if completed ev then ResetCompleted else ResetFailed).
  assert (contains (from (phaseTransitions (if completed ev then eventTransactionComplete
    else eventTransactionFailed))) (phase (st s1)) = true) as HC by (rewrite HP; by destruct (completed ev)).
  unfold transition. cbn [st clearTransaction life_reset set_flags add_log set_life].
  rewrite HC. cbn [negb].
  match goal with |- context [set_st ?a ?b] => set (s2 := set_st a b) end.
  assert (Inv n s2) as I2.
  { apply (Inv_idle n _ k); unfold s2; cbn; try done.
    - unfold budget in *. cbn. by destruct (completed ev).
    - rewrite (promised_snoc _ _ _ _ _ P). unfold promise_step, reason. cbn [p_tx view].
      unfold view, set_tx. cbn. by destruct (completed ev).
    - by destruct (completed ev).
    - by destruct (completed ev).
    - by destruct (completed ev).
    - pose proof (balanced_reset reason s1 A) as A'. exact A'. }
  destruct r as [u|e].
  - unfold Wp.settled. by destruct (completed ev).
  - split; [by apply F1|by eapply Inv_Closable].
Qed.

Lemma wp_DATA n c s : phase (st s) = phaseRecipients -> Inv n s -> wp (handleDATA cn c) (settled n) s.
Proof.
  intros HP I. unfold handleDATA. wp_case; [by apply wp_syntax|]. wp_steps.
  wp_case; [by apply wp_noRecipients|]. wp_case; [by apply wp_reply|].
  apply wp_bind, wp_write; [by eapply Inv_Closable|]. intros s1 S1. apply wp_bind.
  assert (Inv n s1) as I1 by by rewrite <- S1.
  apply wp_flush; [by eapply Inv_Closable|]. intros s2 S2. wp_steps.
  assert (Inv n s2) as I2 by by rewrite <- S2.
  assert (phase (st s2) = phaseRecipients) as HP2.
  { destruct S1 as (? & ? & ? & ? & ->), S2 as (? & ? & ? & ? & ->). done. }
  apply (wp_evaluate n); [done|done|]. intros m rs h b.
  destruct (DataFacts.evaluateDataCall_data m rs ($"DATA") h (lr_ s2) (maxMessage (cn_cfg cn)) b Hmax)
    as (ev & t & r & HE & Hs & Hl).
  exists ev, t. split; [exact HE|]. intros s3 D3 E3. rewrite Hs. wp_steps. apply wp_finish.
  destruct D3 as [B P O HP3 Hh C A D]. split; try done. unfold after_content, budget in *. cbn.
  rewrite E3 in B. lia.
Qed.

(** *** BDAT *)

(** The connection's reader has moved on; nothing else changed. *)
Lemma Inv_read n s r : (length (unread r) <= length (unread (lr_ s)))%nat -> Inv n s -> Inv n (set_reader s r).
Proof. intros HL [B P O S R Hh C A D]. split; try done. unfold budget in *. cbn. lia. Qed.

Lemma wp_discard n k (Q : unit -> commandSession -> Prop) s :
  Inv n s -> (forall r, Inv n (set_reader s r) -> Q tt (set_reader s r)) -> wp (discard_chunk cn k) Q s.
Proof.
  intros I HQ. unfold Wp.wp, discard_chunk.
  destruct (ReadBDATChunk _ _ _ _ _ _) as [[[u r] j] err] eqn:E.
  apply (ReadBDATChunk_inv _ (fun _ => True)) in E as [_ L]; [|done|done].
  pose proof (Inv_read n s r L I) as I'. destruct err as [e|]; [|by apply HQ].
  split; [by destruct e|by eapply Inv_Closable].
Qed.

Lemma wp_failBDAT n e s : phase (st s) = phaseRecipients -> Inv n s -> wp (failBDAT cn e) (settled n) s.
Proof.
  intros HP I. unfold failBDAT. wp_steps. pose proof (Inv_abandon n s ResetFailed eq_refl I) as Ab.
  apply wp_transition; [by rewrite contains_from, (ab_st _ _ Ab), HP|]. apply wp_reply; [done|].
  eapply (abandoned_idle n s); try done; cbn; rewrite ?(ab_st _ _ Ab), ?(ab_recipients _ _ Ab); try done.
  - intros _. apply (inv_hello _ _ _ _ _ I). by rewrite HP.
  - apply (inv_clean _ _ _ _ _ I).
  - apply (inv_clean _ _ _ _ _ I).
Qed.

(** The chunk writer keeps the manager's counters in step with its spool. *)
Definition writer_ok (w : spoolChunkWriter) : Prop :=
  opts (cw_manager w) = opts m0 /\
  total (cw_manager w) = total m0 + reserved (cw_spool w) /\
  totalMemory (cw_manager w) = totalMemory m0 + reservedMemory (cw_spool w) /\
  concurrent (cw_manager w) = concurrent m0 + live (cw_spool w) /\
  total (cw_manager w) <= MaxTotalBytes (opts m0) /\
  totalMemory (cw_manager w) <= MaxTotalMemoryBytes (opts m0) /\
  spool_ok (opts m0) (cw_spool w) /\ closed (cw_spool w) = false.

Lemma chunk_write_ok os w p : writer_ok w -> writer_ok (fst (chunk_write os w p)).
Proof.
  intros (HO & HT & HM & HC & BT & BM & HS & Hc). unfold chunk_write.
  destruct (cw_err w); [by split_and!|].
  destruct (Spool.Write (os (cw_ops w)) (cw_manager w) (cw_spool w) p) as [[[m' s'] k] r] eqn:EW.
  pose proof (Write_contents _ _ _ _ _ _ _ _ EW) as (_ & C' & _).
  apply Write_moves in EW as ([VO VT VM VL VK] & T' & M'); rewrite HO in *; try done.
  unfold writer_ok. cbn. split_and!; try done; try lia; first [by apply VK | congruence].
Qed.

Lemma Inv_spool n s o sp m :
  phase (st s) = phaseRecipients -> o = transactionOpen s ->
  writer_ok {| cw_manager := m; cw_spool := sp; cw_err := None; cw_ops := 0 |} ->
  Inv n s -> Inv n (set_life s o (Some sp) m).
Proof.
  intros HP -> W [B P O S R Hh C A D]. split; try done.
Qed.

Lemma wp_spool_chunk n sp k (Q : option spool_err -> commandSession -> Prop) s :
  phase (st s) = phaseRecipients -> lspool s = Some sp -> Inv n s ->
  (forall e s', phase (st s') = phaseRecipients -> lspool s' <> None -> Inv n s' -> Q e s') ->
  wp (spool_chunk cn sp k) Q s.
Proof.
  intros HP LS I HQ. unfold Wp.wp, spool_chunk.
  destruct (ReadBDATChunk _ _ _ _ _ _) as [[[w r] j] err] eqn:E.
  apply (ReadBDATChunk_inv _ writer_ok) in E as [W L].
  3:{ pose proof (inv_balanced _ _ _ _ _ I) as BA. unfold balanced, held in BA. rewrite LS in BA.
      destruct BA as (? & ? & ? & ? & ? & ? & ? & ?). by split_and!. }
  2:{ intros w0 p. apply chunk_write_ok. }
  assert (Inv n (set_life (set_reader s r) (transactionOpen s) (Some (cw_spool w)) (cw_manager w))) as I'.
  { apply Inv_spool; [done|done|exact W|by apply Inv_read]. }
  destruct err as [e|]; [|by apply HQ].
  split; [by destruct e|by eapply Inv_Closable].
Qed.

Lemma wp_current_spool n (Q : result spool_err spool -> commandSession -> Prop) s :
  phase (st s) = phaseRecipients -> Inv n s ->
  (forall e, Q (Err e) s) ->
  (forall sp s', phase (st s') = phaseRecipients -> lspool s' = Some sp -> Inv n s' -> Q (Ok sp) s') ->
  wp current_spool Q s.
Proof.
  intros HP I HE HQ. unfold current_spool. wp_steps. destruct (lspool s) as [sp|] eqn:LS; [by apply wp_ret, HQ|].
  destruct (newSpool (spools s)) as [[m sp]|e] eqn:EN; [|by apply wp_ret]. wp_steps. apply HQ; [done|done|].
  pose proof (inv_balanced _ _ _ _ _ I) as BA. unfold balanced, held in BA. rewrite LS in BA.
  unfold newSpool in EN. destruct (_ <=? _) in EN; [done|]. injection EN as <- <-.
  unfold attachSpool. cbn [lspool set_life transactionOpen spools]. rewrite LS.
  apply (Inv_spool n s); [done|done| |done]. destruct BA as (? & ? & ? & ? & ? & ? & _).
  unfold writer_ok. cbn. split_and!; try done; lia.
Qed.

Lemma wp_bdat_chunk n framing s :
  phase (st s) = phaseRecipients -> Inv n s -> wp (bdat_chunk cn framing) (settled n) s.
Proof.
  intros HP I. unfold bdat_chunk. wp_steps. apply (wp_current_spool n); [done|done|..].
  { intros e. apply wp_bind, (wp_discard n); [done|]. intros r I'. by apply wp_failBDAT. }
  intros sp s1 HP1 LS1 I1. apply wp_bind, (wp_spool_chunk n); [done|done|done|].
  intros [e|] s2 HP2 LS2 I2; [by apply wp_failBDAT|].
  wp_case; [by apply wp_reply|]. wp_steps. destruct (lspool s2) as [sp2|] eqn:ES; [|done].
  pose proof (inv_balanced _ _ _ _ _ I2) as BA. unfold balanced in BA. rewrite ES in BA.
  destruct BA as (_ & _ & _ & _ & _ & _ & _ & Hc). unfold Spool.Reader. rewrite Hc. wp_steps.
  apply (wp_evaluate n); [done|done|]. intros m rs h b.
  destruct (DataFacts.evaluateDataCall_spool m rs ($"BDAT") h (match file sp2 with None => memory sp2 | Some f => f end) b)
    as (ev & t & HE & _).
  exists ev, t. split; [exact HE|]. intros s3 D3 _. by apply wp_finish.
Qed.

Lemma wp_BDAT n c s : Inv n s -> wp (handleBDAT cn c) (settled n) s.
Proof.
  intros I. unfold handleBDAT. wp_steps. destruct (ParseBDATArgument _ _) as [framing|e].
  2:{ destruct e; try (by apply wp_syntax); apply wp_reply_close; by eapply Inv_Closable. }
  wp_case; [by apply wp_notImplemented|].
  pose proof (inv_recipients _ _ _ _ _ I) as HR.
  assert (phase (st s) = phaseRecipients -> wp (bdat_chunk cn framing) (settled n) s) as Chunk
    by (intros; by apply wp_bdat_chunk).
  destruct (phase (st s)) eqn:HP; try rewrite HR.
  1-3: apply wp_bind, (wp_discard n); [done|]; intros r I'; by apply wp_noRecipients.
  3: done.
  - destruct (recipients s); [done|by apply Chunk].
  - apply wp_bind, (wp_discard n); [done|]. intros r I'. by apply wp_reply.
Qed.

Lemma wp_read_error n cause s :
  Inv n s ->
  wp (handleCommandReadError cn cause)
    (fun a s' => match a with
                 | Some a => act_close a = false /\ isFramedCommandSyntaxError cause = true /\ Inv n s'
                 | None => Closable s'
                 end) s.
Proof.
  intros I. unfold handleCommandReadError. wp_steps.
  destruct (lspool s) eqn:LS; [|apply wp_ret; by eapply Inv_Closable].
  wp_case; [apply wp_ret; by eapply Inv_Closable|]. wp_steps.
  assert (phase (st s) = phaseRecipients) as HP by (apply (inv_spool _ _ _ _ _ I); by rewrite LS).
  pose proof (Inv_abandon n s ResetFailed eq_refl I) as Ab.
  apply wp_transition; [by rewrite contains_from, (ab_st _ _ Ab), HP|].
  match goal with |- context [set_st ?a ?b] => set (s' := set_st a b) end.
  assert (Inv n s') as I'.
  { eapply (abandoned_idle n s); try done; cbn; rewrite ?(ab_st _ _ Ab), ?(ab_recipients _ _ Ab); try done.
    - intros _. apply (inv_hello _ _ _ _ _ I). by rewrite HP.
    - apply (inv_clean _ _ _ _ _ I).
    - apply (inv_clean _ _ _ _ _ I). }
  apply wp_bind, wp_write; [by eapply Inv_Closable|]. intros s1 S1. apply wp_ret. btrue.
  split_and!; [done|done|]. by rewrite <- S1.
Qed.

(** *** AUTH *)

(** An exchange is under way. *)
Definition authing (n : nat) (s : commandSession) : Prop :=
  Inv n s /\ phase (st s) = phaseReady /\ authenticated (st s) = false.

Lemma authing_same n s s' : same s s' -> authing n s -> authing n s'.
Proof. intros S (I & P & A). split; [by rewrite <- S|]. by destruct S as (? & ? & ? & ? & ->). Qed.

Lemma wp_verify n q s :
  authing n s ->
  wp (verifyAUTH cn q)
    (fun r s' => authing n s' /\
       match r with Ok (v, result) => v_Accepted v = true -> Failure result = None | Err _ => True end) s.
Proof.
  intros (I & HP & HA).
  assert (authing n (add_log s (CallAuthVerifier q))) as A1.
  { split_and!; try done. apply Inv_ready_call; [done| |done]. intros k. unfold promise_step. cbn. by rewrite HA. }
  assert (forall x v result, verdict x = Ok (v, result) -> v_Accepted v = true -> Failure result = None) as V.
  { intros x v result E. unfold verdict in E. repeat case_match; simplify_eq. cbn. by destruct (Failure result). }
  unfold verifyAUTH. wp_steps.
  destruct (vr_Kind q).
  - wp_case; wp_steps; (split; [done|]); [|done]. destruct (verdict _) as [[v result]|] eqn:E; [|done]. by eapply V.
  - wp_case; wp_steps; (split; [done|]); [|done]. destruct (verdict _) as [[v result]|] eqn:E; [|done]. by eapply V.
  - wp_case; wp_steps; (split; [done|]); [|done].
    destruct (be_SCRAMCredentials _ _ _) as [[[keys result]|]|]; try done. cbn. by destruct (Failure result).
Qed.

(** The rounds a responder can still take. *)
Definition rank (st : responderState) : nat :=
  match st with
  | responderDone => 0
  | responderSCRAMEmpty | responderOAuthDummy => 1
  | responderSCRAMProof => 2
  | responderVerify => 3
  | responderLoginUser => 5
  | responderNew => 6
  | _ => 4
  end.

(** A step, its responder and the backend's last answer fit together. *)
Record step_ok (bound : nat) (r : Responder) (step : result sasl_err ResponderStep)
    (v : option Verification) : Prop := {
  so_inv : SaslFacts.responder_inv r v;
  so_verify : forall q, step = Ok (StepVerification q) -> r_state r = responderVerify;
  so_done : step = Ok (StepDone true) -> exists a, v = Some a /\ v_Accepted a = true;
  so_rank : match step with Ok (StepDone _) | Err _ => True | _ => (rank (r_state r) < bound)%nat end
}.

Ltac reaction_cases E :=
  unfold plain_response, external_response, oauth, scramFirst, scramProof, scramServerFirst, verify, finish,
    to_state in E;
  repeat match type of E with context [match ?x with _ => _ end] => destruct x eqn:?; try done end;
  injection E as <- <-.

Lemma RStart_step random r initial r' step :
  r_state r = responderNew -> RStart random r initial = (r', step) ->
  step_ok 6 r' step None.
Proof.
  intros HS E. assert (SaslFacts.responder_inv r None) as I0 by (unfold SaslFacts.responder_inv; by rewrite HS).
  split.
  - by eapply SaslFacts.RStart_inv.
  - intros q ->. unfold RStart in E. rewrite HS in E. reaction_cases E; done.
  - intros ->. by apply SaslFacts.accepts_start in E.
  - unfold RStart in E. rewrite HS in E. reaction_cases E; cbn; try done; lia.
Qed.

Lemma RNext_step r v response r' step :
  SaslFacts.responder_inv r v -> RNext r response = (r', step) -> step_ok (rank (r_state r)) r' step v.
Proof.
  intros I0 E. split.
  - by eapply SaslFacts.RNext_inv.
  - intros q ->. unfold RNext in E. do 2 (case_match; [done|]).
    destruct (r_state r); try done; reaction_cases E; done.
  - intros ->. destruct (SaslFacts.accepts_next _ _ _ _ I0 E) as (keys & (a & -> & Acc & _) & _). eauto.
  - unfold RNext in E. do 2 (case_match; [by injection E as <- <-|]).
    destruct (r_state r); try (by injection E as <- <-); reaction_cases E; cbn; try done; lia.
Qed.

Lemma Continue_step random r v answer r' step :
  r_state r = responderVerify -> SaslFacts.responder_inv r v -> Continue random r answer = (r', step) ->
  step_ok 3 r' step (Some answer).
Proof.
  intros HS I0 E. split.
  - by eapply SaslFacts.Continue_inv.
  - intros q ->. unfold Continue in E. rewrite HS in E. reaction_cases E; done.
  - intros ->. destruct (SaslFacts.accepts_continue _ _ _ _ _ HS I0 E). eauto.
  - unfold Continue in E. rewrite HS in E. reaction_cases E; cbn; try done; lia.
Qed.

(** The framework's result for the backend's last answer. *)
Definition agrees (authoritative : option AuthResult) (v : option Verification) : Prop :=
  match v with
  | None => True
  | Some a => exists result, authoritative = Some result /\ (v_Accepted a = true -> Failure result = None)
  end.

Lemma wp_auth_done n accepted authoritative v s :
  authing n s -> agrees authoritative v -> (accepted = true -> exists a, v = Some a /\ v_Accepted a = true) ->
  wp (auth_done cn accepted authoritative) (settled n) s.
Proof.
  intros (I & HP & HA) AG HD. unfold auth_done. destruct accepted; cbn [negb].
  2:{ unfold authFailure. by apply wp_reply. }
  destruct (HD eq_refl) as (a & -> & Acc). destruct AG as (result & -> & F). specialize (F Acc).
  wp_steps. unfold finalizeAuthentication. rewrite F. wp_case; wp_steps; cbn [negb]; [|by apply wp_reply].
  destruct (ready_closed n s HP I) as (O & LS & R). destruct (Inv_view _ _ I) as (k & L & P). rewrite O in P.
  apply wp_bind, wp_transition; [rewrite contains_from; cbn; by rewrite HP|]. apply wp_reply; [done|].
  destruct I as [B _ O' S R' Hh [C1 C2] A D]. rewrite HP in Hh. specialize (Hh ltac:(done)).
  apply (Inv_idle n _ k); cbn; try done.
  rewrite (promised_snoc _ _ _ _ _ P). unfold promise_step. cbn. by rewrite HA, F.
Qed.

Lemma wp_exchange_error n e s : Inv n s -> wp (authExchangeError cn e) (settled n) s.
Proof.
  intros I. unfold authExchangeError. destruct e; try by apply wp_reply.
  all: split; [done|by eapply Inv_Closable].
Qed.

Lemma wp_readSASL n (Q : result wire_err bytes -> commandSession -> Prop) s :
  authing n s -> (forall l s', authing n s' -> Q l s') -> wp readSASL Q s.
Proof.
  intros (I & HP & HA) HQ. unfold Wp.wp, readSASL. destruct (ReadSASLResponse _ _) as [res r] eqn:E.
  apply ReadSASLResponse_length in E. apply HQ. split_and!; try done. by apply Inv_read.
Qed.

Lemma wp_auth_loop n fuel r step authoritative v s :
  (0 < fuel)%nat -> step_ok (pred fuel) r step v -> agrees authoritative v -> authing n s ->
  wp (auth_loop cn fuel r step authoritative) (settled n) s.
Proof.
  revert r step authoritative v s. induction fuel as [|fuel IH]; intros r step auth v s Hf SO AG HS; [lia|].
  cbn [auth_loop]. pose proof HS as (I & HP & HA). destruct SO as [SI SV SD SR].
  destruct step as [[c|q|accepted]|e]; [| | |by apply wp_exchange_error].
  - apply wp_bind, wp_write; [by eapply Inv_Closable|]. intros s1 S1. apply wp_bind.
    pose proof (authing_same n s s1 S1 HS) as HS1.
    apply wp_flush; [by eapply (Inv_Closable cn p0 m0 n), HS1|]. intros s2 S2. apply wp_bind.
    apply (wp_readSASL n); [by eapply authing_same|]. intros l s3 HS3. pose proof HS3 as (I3 & _).
    destruct l as [l|e].
    2:{ destruct e; try (by split; [done|eapply Inv_Closable]). apply wp_reply_close. by eapply Inv_Closable. }
    apply wp_bind, wp_trace. intros s4 S4. pose proof (authing_same n s3 s4 S4 HS3) as HS4.
    destruct (decodeSASLResponse l) as [response|]; [|split; [done|by eapply (Inv_Closable cn p0 m0 n), HS4]].
    destruct (RNext r response) as [r' step'] eqn:ER. pose proof (RNext_step r v _ _ _ SI ER) as SO'.
    cbn in SR.
    apply (IH r' step' auth v); [lia| |done|done].
    destruct SO' as [? ? ? SR']. split; try done. destruct step' as [[]|]; cbn in *; try done; lia.
  - apply wp_bind. eapply wp_consequence; [by apply wp_verify|]. intros [[ver result]|e] s1 [HS1 HV].
    2:{ by apply wp_backendReply, HS1. }
    apply wp_bind. unfold draw_random. apply (wp_consequence _ _ _ _ (fun _ s' => authing n s')).
    { unfold Wp.wp. eapply authing_same; [apply same_tick|done]. }
    intros random s2 HS2. destruct (Continue random r ver) as [r' step'] eqn:EC.
    assert (r_state r = responderVerify) as HR by by eapply SV.
    pose proof (Continue_step _ _ v _ _ _ HR SI EC) as SO'. rewrite HR in SR. cbn in SR.
    apply (IH r' step' (Some result) (Some ver)); [lia| |by eexists|done].
    destruct SO' as [? ? ? SR']. split; try done. destruct step' as [[]|]; cbn in *; try done; lia.
  - apply (wp_auth_done n accepted auth v); [done|done|]. intros ->. by apply SD.
Qed.

Lemma wp_auth_exchange n mechanism initial s :
  authing n s -> wp (auth_exchange cn mechanism initial) (settled n) s.
Proof.
  intros HS. pose proof HS as (I & _). unfold auth_exchange. wp_steps.
  wp_case; [|by apply wp_backendReply]. wp_case; [|by apply wp_backendReply].
  wp_case; [|by apply wp_syntax]. apply wp_bind. unfold draw_random.
  apply (wp_consequence _ _ _ _ (fun _ s' => authing n s')).
  { unfold Wp.wp. eapply authing_same; [apply same_tick|done]. }
  intros random s1 HS1. destruct (RStart random _ _) as [r' step] eqn:ER.
  apply (wp_auth_loop n _ _ _ _ None); [unfold auth_fuel; lia| |done|done].
  assert (r_state r = responderNew) as HR.
  { match goal with E : NewResponder _ _ = Some r |- _ => unfold NewResponder in E end.
    repeat case_match; by simplify_eq. }
  destruct (RStart_step _ _ _ _ _ HR ER) as [? ? ? SR]. split; try done.
  destruct step as [[]|]; cbn in *; try done; unfold auth_fuel; lia.
Qed.

Lemma wp_AUTH n c s :
  phase (st s) = phaseReady -> authenticated (st s) = false -> Inv n s ->
  wp (handleAUTH cn c) (settled n) s.
Proof.
  intros HP HA I. unfold handleAUTH. wp_steps.
  destruct (Fields (Argument c)) as [|x [|y [|z l]]]; try by apply wp_syntax.
  all: wp_case; [by apply wp_reply|by apply wp_auth_exchange].
Qed.

End Handlers.
End Handlers.
