(* ===== verification/SessionContract.v ===== *)
(** * smtpserver: a whole connection

    The dispatcher, the command loop and [serveConnection], from the handlers' specifications of
    SessionFacts: a connection refines the contract with its backend, never runs into an error of
    its own making, terminates, and returns its spool. *)
From Stdlib Require Import ZArith Lia Bool.
From stdpp Require Import base list gmap strings.
From S2P Require Import Prelude GoStrings Base64 Sasl Wire DotStuff Reply Command Path Ehlo Core.
From S2P Require Import Spool ServerState ServerData ServerParams ServerCaps ServerSession.
From S2P Require Import SessionFacts.
Import smtpsasl SpoolFacts StateFacts Contract SessionInv Wp Handlers.

Module Loop.
Section Loop.
Context `{Unicode} `{NetIP} `{RFC3339} `{Crypto} (cn : connection) (p0 : promise) (m0 : spoolManager).
Abbreviation Inv := (Inv cn p0 m0).
Abbreviation Closable := (Closable cn p0 m0).
Abbreviation wp := (wp cn p0 m0).
Abbreviation settled := (settled cn p0 m0).
Context (Hidentity : validGreetingIdentity (identity (cn_cfg cn)) = true)
  (Hmax : 0 <= maxMessage (cn_cfg cn) < MaxInt64) (Hspool : 0 < MaxBytes (opts m0)).
Implicit Types (s : commandSession) (n : nat).

(** *** The dispatcher *)

Lemma legality_rule p v :
  legality p v = commandAllowed ->
  exists r, lookup_rule (ToUpper v) = Some r /\ contains (rule_phases r) (phase p) = true /\
    (requirePlaintext r = true -> tls p = false) /\
    (requireUnauthenticated r = true -> authenticated p = false).
Proof.
  unfold legality. destruct (lookup_rule _) as [r|]; [|done]. intros E. exists r.
  destruct (Z.land _ _ =? 0); [done|]. destruct (contains _ _); [|done]. cbn [negb orb] in E.
  split_and!; try done; intros Hr; rewrite Hr in E; cbn in E.
  - by destruct (tls p).
  - destruct (requirePlaintext r && tls p); [done|]. by destruct (authenticated p).
Qed.

(** The rule of a verb, by evaluation of the table. *)
Ltac verb_rule HL :=
  apply legality_rule in HL as (r & Hr & Hc & Hplain & Hauth);
  rewrite ToUpper_ascii in Hr by done; cbn in Hr; injection Hr as <-;
  cbn [rule_phases requirePlaintext requireUnauthenticated rule] in *.

Ltac verb_phase :=
  match goal with Hc : contains _ ?p = true |- _ =>
    destruct p eqn:?; try done; exfalso; revert Hc; vm_compute; discriminate
  end.

Ltac next_verb HW :=
  match goal with |- Wp.wp _ _ _ (if beq ?v ?w then _ else _) _ _ =>
    let E := fresh "E" in let HL := fresh "HL'" in
    destruct (beq v w) eqn:E; [pose proof (HW w E) as HL; verb_rule HL|] end.

Lemma wp_dispatch n c s :
  existsb is_ctl (Argument c) = false -> is_ascii (Verb c) = true ->
  legality (st s) (ToUpper (Verb c)) = commandAllowed ->
  (beq (ToUpper (Verb c)) ($"MAIL") = true -> mails_left cn p0 s /\ mailAttempts s <= cn_maxTransactions cn) ->
  Inv n s -> wp (dispatch cn (ToUpper (Verb c)) c) (settled n) s.
Proof.
  intros HA HV HL HM I. unfold dispatch.
  pose proof (lookup_rule_verbs (ToUpper (ToUpper (Verb c)))) as HVB.
  rewrite ToUpper_idem in HVB by done.
  set (v := ToUpper (Verb c)) in *.
  assert (forall w, beq v w = true -> legality (st s) w = commandAllowed) as HW.
  { intros w E. destruct (beq_spec v w) as [Ew|]; [by rewrite <- Ew|done]. }
  destruct (beq v ($"HELO") || beq v ($"EHLO") || beq v ($"LHLO")) eqn:E1.
  { apply wp_Hello; try done.
    repeat (apply orb_true_iff in E1 as [E1|E1]); apply HW in E1; verb_rule E1; verb_phase. }
  next_verb HW. { destruct (HM eq_refl) as [M1 M2]. apply wp_Mail; try done. verb_phase. }
  next_verb HW. { apply wp_Rcpt; try done. verb_phase. }
  next_verb HW. { apply wp_DATA; try done. verb_phase. }
  next_verb HW. { by apply wp_BDAT. }
  next_verb HW. { apply wp_RSET; try done. verb_phase. }
  next_verb HW. { by apply wp_NOOP. }
  next_verb HW. { by apply wp_QUIT. }
  next_verb HW. { by apply wp_VRFY. }
  next_verb HW. { by apply wp_EXPN. }
  next_verb HW. { by apply wp_HELP. }
  next_verb HW. { apply wp_ETRN; try done. verb_phase. }
  next_verb HW. { apply wp_STARTTLS; try done; [verb_phase|by apply Hplain]. }
  next_verb HW. { apply wp_AUTH; try done; [verb_phase|by apply Hauth]. }
  unfold executeExtensionCommand. fold v.
  next_verb HW. { apply wp_ATRN; try done. verb_phase. }
  exfalso. destruct (legality_rule _ _ HL) as (r & Hr & _).
  assert (v ∈ verbs) as Hin by (apply HVB; unfold v in *; rewrite ToUpper_idem in Hr by done; congruence).
  repeat (apply orb_false_iff in E1 as [E1 ?]). clearbody v. clear - Hin E E0 E1 E2 E3 E4 E5 E6 E7 E8 E9 E10 E11 E12 E13 H3 H4.
  unfold verbs in Hin. cbn in Hin.
  repeat (apply elem_of_cons in Hin as [->|Hin]; [discriminate|]). by apply elem_of_nil in Hin.
Qed.

Lemma wp_execute_legal n c s :
  existsb is_ctl (Argument c) = false -> is_ascii (Verb c) = true ->
  (beq (ToUpper (Verb c)) ($"MAIL") = true -> mails_left cn p0 s /\ mailAttempts s <= cn_maxTransactions cn) ->
  Inv n s -> wp (execute_legal cn (ToUpper (Verb c)) c) (settled n) s.
Proof.
  intros HA HV HM I. unfold execute_legal. wp_steps.
  destruct (legality _ _) eqn:HL; [by apply wp_reply|by apply wp_dispatch|by apply wp_reply..].
Qed.

Lemma wp_execute n c s :
  existsb is_ctl (Argument c) = false -> is_ascii (Verb c) = true ->
  Inv n s -> wp (execute cn c) (settled n) s.
Proof.
  intros HA HV I. unfold execute. apply wp_bind. unfold traceCommand. apply wp_trace. intros s1 S1.
  assert (Inv n s1) as I1 by by rewrite <- S1. clear S1.
  destruct (beq (ToUpper (Verb c)) ($"MAIL")) eqn:EM; [|apply wp_execute_legal; (done || by rewrite EM)].
  wp_steps.
  assert (Inv n (set_attempts s1 (mailAttempts s1 + 1))) as I2.
  { destruct I1 as [B (k & P & L) O S R Hh C A D]. split; try done. exists k. cbn. split; [done|lia]. }
  wp_case; [apply wp_reply_close; by eapply Inv_Closable|].
  apply wp_execute_legal; try done. intros _. cbn [mailAttempts set_attempts] in *. split; [|lia].
  destruct (inv_promise _ _ _ _ _ I1) as (k & P & L). exists k. cbn. split; [done|lia].
Qed.

(** *** The loop *)

Lemma ReadCommand_verb r limits c r' : ReadCommand r limits = (Ok c, r') -> is_ascii (Verb c) = true.
Proof.
  unfold ReadCommand. destruct (readCommandLine r _) as [[line|e] r1]; [|done]. intros [= E _]. revert E.
  unfold parse_command. destruct line as [|b line]; [done|].
  destruct (IndexByte _ _) as [i|]; destruct (validateCommandVerb _) eqn:EV; try done;
    destruct (existsb is_ctl _) eqn:EC; try done; intros [= <-]; cbn [Verb];
    apply validateCommandVerb_None in EV as [_ EV]; revert EV; apply forallb_mono; intros d;
    unfold is_alnum, is_upper, is_lower, is_digit, in_range, is_ascii_byte; intros Hd; blia.
Qed.

Lemma wp_settle a (Q : unit -> commandSession -> Prop) s :
  Closable s -> (forall s', same s s' -> Q tt s') -> wp (settle cn a) Q s.
Proof.
  intros C HQ. unfold settle, flush_if. destruct (_ || _); [by apply wp_flush|]. apply wp_ret, HQ. done.
Qed.

Lemma wp_iteration n s :
  Inv n s ->
  wp (iteration cn) (fun next s' => match next with
                                    | None => Closable s'
                                    | Some _ => (0 < n)%nat /\ Inv (pred n) s'
                                    end) s.
Proof.
  intros I. unfold iteration. wp_steps. wp_case; [split; [done|by eapply Inv_Closable]|].
  apply wp_bind, wp_Buffered. intros k s1 S1. assert (Inv n s1) as I1 by by rewrite <- S1.
  apply wp_bind.
  assert (forall Q : unit -> commandSession -> Prop, (forall s2, Inv n s2 -> Q tt s2) ->
    wp (flush_if cn (k =? 0)%nat) Q s1) as Flushed.
  { intros Q HQ. unfold flush_if. destruct (k =? 0)%nat; [|by apply wp_ret, HQ].
    apply wp_flush; [by eapply Inv_Closable|]. intros s2 S2. apply HQ. by rewrite <- S2. }
  apply Flushed. clear I I1 S1 s s1 Heqb Flushed. intros s I. apply wp_bind.
  unfold Wp.wp at 1, readCommand. destruct (ReadCommand (lr_ s) loop_limits) as [res r] eqn:ER.
  pose proof (ReadCommand_length _ _ _ _ ER) as [L LS].
  assert (Inv n (set_reader s r)) as I' by (by eapply Inv_read).
  assert ((length (unread r) < length (unread (lr_ s)))%nat -> (0 < n)%nat /\ Inv (pred n) (set_reader s r)) as Less.
  { intros Lt. destruct I as [B P O S R Hh C A D]. unfold budget in B. split; [lia|]. split; try done.
    unfold budget. cbn. lia. }
  assert (forall a s', settled (pred n) a s' -> (0 < n)%nat ->
    wp (settle cn a ;; mret (if act_close a then None else Some tt))
      (fun next s' => match next with None => Closable s' | Some _ => (0 < n)%nat /\ Inv (pred n) s' end) s') as Settled.
  { intros a s' ST Hn. apply wp_bind. unfold Wp.settled in ST. apply wp_settle.
    - destruct (act_close a); [done|by eapply Inv_Closable].
    - intros s2 S2. apply wp_ret. destruct (act_close a); [by rewrite <- S2|]. split; [done|]. by rewrite <- S2. }
  destruct res as [c|e].
  - destruct LS as [Lt|[? ?]]; [|done]. destruct (Less Lt) as [Hn I2]. apply wp_bind.
    eapply wp_consequence; [eapply wp_execute; [by eapply ReadCommand_argument|by eapply ReadCommand_verb|exact I2]|].
    intros a s' ST. by apply Settled.
  - assert (wp (handled ← handleCommandReadError cn e;
                match handled with
                | None => fail (SWire e)
                | Some a => settle cn a ;; mret (if act_close a then None else Some tt)
                end) (fun next s' => match next with None => Closable s' | Some _ => (0 < n)%nat /\ Inv (pred n) s' end)
              (set_reader s r)) as Handled.
    { destruct LS as [Lt|[io EQ]]; [|injection EQ as ->].
      - destruct (Less Lt) as [Hn I2]. apply wp_bind. eapply wp_consequence; [eapply wp_read_error; try done; exact I2|].
        intros [a|] s' HS; [|by split]. destruct HS as (HC & _ & I3). apply Settled; [|done].
        unfold Wp.settled. by rewrite HC.
      - apply wp_bind. eapply wp_consequence; [eapply wp_read_error; try done; exact I'|].
        intros [a|] s' HS; [|by split]. by destruct HS as (_ & HF & _). }
    destruct e; try exact Handled. destruct e;
      try exact Handled. apply wp_ret. by eapply Inv_Closable.
Qed.

Lemma wp_run fuel n s : (n < fuel)%nat -> Inv n s -> wp (run cn fuel) (fun _ => Closable) s.
Proof.
  revert n s. induction fuel as [|fuel IH]; intros n s Hf I; [lia|]. cbn [run]. apply wp_bind.
  eapply wp_consequence; [by apply wp_iteration|]. intros [[]|] s' HS; [|by apply wp_ret].
  destruct HS as [Hn I']. apply (IH (pred n)); [lia|done].
Qed.

(** *** The end of a connection *)

Lemma manager_eq (a b : spoolManager) : opts a = opts b -> total a = total b -> totalMemory a = totalMemory b ->
  concurrent a = concurrent b -> a = b.
Proof. destruct a, b. cbn. by intros -> -> -> ->. Qed.

Lemma close_contract s :
  Closable s ->
  exists p, promised cn p0 (log (life_close s)) = Some p /\ p_tx p = Closed /\
    spools (life_close s) = m0 /\ lspool (life_close s) = None.
Proof.
  intros [(p & P & HT) BA Hc]. unfold life_close. rewrite Hc. unfold life_resetIfOpen.
  cbn [transactionOpen lspool set_closed].
  destruct (transactionOpen s) eqn:O; [|destruct (lspool s) eqn:LS].
  3:{ exists (set_tx p Closed). cbn. rewrite (promised_snoc _ _ _ _ _ P). unfold promise_step. rewrite HT.
      split_and!; try done. unfold balanced, held in BA. rewrite LS in BA.
      destruct BA as (HO & T & M & C & _). apply manager_eq; [done|lia..]. }
  1-2: exists (set_tx (set_tx p Idle) Closed); cbn [log add_log life_reset set_closed set_life];
    rewrite (promised_snoc _ _ (set_tx p Idle));
    [|rewrite (promised_snoc _ _ _ _ _ P); unfold promise_step; destruct HT as [HT|[rs HT]]; rewrite HT;
      [done|by destruct rs]].
  all: split_and!; try done.
  all: assert (balanced m0 (life_reset ResetSessionEnd (set_closed s))) as B' by
    (apply (balanced_reset cn); try done); unfold balanced, held in B'; cbn [lspool add_log life_reset set_life] in B';
    destruct B' as (HO & T & M & C & _); cbn [spools add_log life_reset set_life] in *; apply manager_eq; [done|lia..].
Qed.

End Loop.
End Loop.
Import Loop.

(** ** Theorems *)
Module ServeFacts.

(** What NewServer validates, and a spool manager within its own bounds. *)
Definition configured `{Unicode} `{NetIP} (cfg : serverConfig) (m : spoolManager) : Prop :=
  validGreetingIdentity (identity cfg) = true /\ 0 <= maxMessage cfg < MaxInt64 /\
  0 < MaxBytes (opts m) /\ total m <= MaxTotalBytes (opts m) /\
  totalMemory m <= MaxTotalMemoryBytes (opts m).

(** A session before its first call. *)
Definition start (tls : bool) : promise := {| p_tx := Idle; p_auth := false; p_tls := tls; p_mails := 0 |}.

Lemma new_session_inv cfg b e trace ts r m n :
  (length (unread r) + after_tls (newConnection cfg b e trace) <= n)%nat ->
  total m <= MaxTotalBytes (opts m) -> totalMemory m <= MaxTotalMemoryBytes (opts m) ->
  Inv (newConnection cfg b e trace) (start (tls_done ts)) m n (newCommandSession cfg ts r m).
Proof.
  intros HB HT HM. split; try done.
  - unfold budget. cbn. destruct (tls_done ts); lia.
  - by exists 0.
  - unfold balanced, held. cbn. split_and!; (done || lia).
Qed.

Lemma serve_session_ok `{Unicode} `{NetIP} `{RFC3339} `{Crypto} cn p0 m n fuel s0 :
  configured (cn_cfg cn) m -> (n < fuel)%nat -> Inv cn p0 m n s0 ->
  let '(s, res) := serve_session cn fuel s0 in
  (exists p, promised cn p0 (log s) = Some p /\ p_tx p = Closed) /\
  spools s = m /\ lspool s = None /\
  (forall e, res = Err e -> internal e = false).
Proof.
  intros (H1' & H2' & H3' & _) Hf I. unfold serve_session.
  match goal with |- context [(?a ;; Flush cn ;; run cn fuel) s0] => set (body := (a ;; Flush cn ;; run cn fuel)) end.
  assert (wp cn p0 m body (fun _ => Closable cn p0 m) s0) as W.
  { unfold body. apply wp_bind, wp_write; [by eapply Inv_Closable|]. intros s1 S1. apply wp_bind.
    assert (Inv cn p0 m n s1) as I1 by by rewrite <- S1.
    apply wp_flush; [by eapply Inv_Closable|]. intros s2 S2. eapply wp_run; try done. by rewrite <- S2. }
  unfold wp in W. destruct (body s0) as [s1 res].
  assert (Closable cn p0 m s1 /\ forall e, res = Err e -> internal e = false) as [C HE].
  { destruct res as [u|e]; [by split|]. destruct W. split; [done|]. by intros e' [= <-]. }
  destruct (close_contract cn p0 m H1' s1 C) as (p & P & HT & HU & HL).
  assert (forall s, log (transition_ignored eventClose s) = log s /\
    spools (transition_ignored eventClose s) = spools s /\
    lspool (transition_ignored eventClose s) = lspool s) as TI.
  { intros s. unfold transition_ignored. by destruct (transition _ _). }
  unfold session_close. destruct (TI (life_close s1)) as (-> & -> & ->).
  split_and!; try done. by exists p.
Qed.

(** The stream the session reads, and whether it starts encrypted. *)
Definition session_stream (plaintext : LineReader) (handshake : option (option (LineReader * bool))) : LineReader :=
  match handshake with Some (Some (r, _)) => r | _ => plaintext end.
Definition starts_tls (handshake : option (option (LineReader * bool))) : bool :=
  match handshake with Some (Some _) => true | _ => false end.

(** Fuel for every octet that can arrive. *)
Definition enough_fuel (fuel : nat) (e : env) (plaintext : LineReader)
    (handshake : option (option (LineReader * bool))) : Prop :=
  (length (unread (session_stream plaintext handshake)) +
   match env_handshake e with Some (r, _) => length (unread r) | None => 0 end < fuel)%nat.

Section Serve.
Context `{Unicode} `{NetIP} `{RFC3339} `{Crypto} (fuel : nat) (cfg : serverConfig) (e : env) (trace : bool)
  (m : spoolManager) (plaintext : LineReader) (handshake : option (option (LineReader * bool)))
  (newSession : result backend_err (option backendSession)).

(** What is known of a connection that was served. *)
Lemma served s res :
  configured cfg m -> enough_fuel fuel e plaintext handshake ->
  serveConnection fuel cfg e trace m plaintext handshake newSession = Served s res ->
  exists b, newSession = Ok (Some b) /\
  (exists p, promised (newConnection cfg b e trace) (start (starts_tls handshake)) (log s) = Some p /\
             p_tx p = Closed) /\
  spools s = m /\ lspool s = None /\
  (forall err, res = Err err -> internal err = false).
Proof.
  intros HC HF. unfold serveConnection, enough_fuel in *.
  destruct handshake as [[[r cert]|]|]; [|done|].
  all: destruct newSession as [[b|]|]; try done; destruct (validateSession (be_decl b)); [|done];
    destruct (requireAuth cfg && _); [done|]; cbn [session_stream starts_tls] in *;
    match goal with |- context [serve_session ?cn fuel ?s0] =>
      pose proof (serve_session_ok cn (start (tls (st s0))) m (pred fuel) fuel s0) as F;
      destruct (serve_session cn fuel s0) as [s1 res1] end;
    intros [= <- <-]; exists b; (split; [done|]); apply F.
  all: try (unfold newConnection; by destruct (effective cfg (be_decl b))).
  all: try lia.
  all: apply (new_session_inv cfg b e trace {| tls_done := _; tls_clientCertificate := _ |});
    [|apply HC..]; unfold after_tls, newConnection; destruct (effective cfg (be_decl b)); cbn [cn_env]; lia.
Qed.

End Serve.
End ServeFacts.
