(* ===== verification/SessionTheorems.v ===== *)
(** * smtpserver: what every connection guarantees

    The refinement of SessionContract, stated as the guarantees a backend and an operator rely on:
    the order of callbacks, the listener's TLS and AUTH policy, the recipients of a message, the
    transaction limit, termination, and the release of spools. The samples at the end are a
    configuration, a backend and client inputs on which the theorems are applied and on which the
    runs of SessionRuns are evaluated. *)
From Stdlib Require Import ZArith Lia Bool.
From stdpp Require Import base list gmap strings.
From S2P Require Import Prelude GoStrings Base64 Sasl Wire DotStuff Reply Command Path Ehlo Core.
From S2P Require Import Spool ServerState ServerData ServerParams ServerCaps ServerSession.
From S2P Require Import SessionFacts SessionContract.
Import smtpsasl SpoolFacts Contract SessionInv Wp ServeFacts.

(** ** Reading a log off the contract *)
Module Logs.

Definition is_mail (e : event) : bool := match e with CallMail _ _ _ => true | _ => false end.

(** The calls a backend may see inside a transaction, between MAIL and DATA or a reset. *)
Definition within (e : event) : Prop :=
  match e with CallRcpt _ _ _ _ | CallVerify _ | CallExpand _ | CallHelp _ => True | _ => False end.

(** The recipient a call made part of the transaction. *)
Definition accepts (e : event) : list bytes :=
  match e with CallRcpt mailbox _ err ls => if recipient_accepted err ls then [mailbox] else [] | _ => [] end.

Definition accepted (calls : list event) : list bytes := flat_map accepts calls.

(** Authentication that still counts: committed, and not discarded by STARTTLS since. *)
Definition authenticated_by (calls : list event) : Prop :=
  exists a r b, calls = a ++ CallCommitAuth r :: b /\ Failure r = None /\ CallReset ResetStartTLS ∉ b.

Section Logs.
Context (cn : connection).
Implicit Types (p q : promise) (l : list event).

Lemma promised_split p l1 e l2 q :
  promised cn p (l1 ++ e :: l2) = Some q ->
  exists p1 p2, promised cn p l1 = Some p1 /\ promise_step cn p1 e = Some p2 /\ promised cn p2 l2 = Some q.
Proof.
  rewrite promised_app. destruct (promised cn p l1) as [p1|]; [|done]. cbn.
  destruct (promise_step cn p1 e) as [p2|] eqn:E; [|done]. intros. by exists p1, p2.
Qed.

Lemma promised_last p l e q :
  promised cn p (l ++ [e]) = Some q -> exists p1, promised cn p l = Some p1 /\ promise_step cn p1 e = Some q.
Proof. intros E. apply promised_split in E as (p1 & p2 & E1 & E2 & [= <-]). eauto. Qed.

(** A call that was promised, by the transaction's state and the call. *)
Ltac step_cases E :=
  unfold promise_step in E;
  match type of E with context [p_tx ?p] => destruct (p_tx p) as [|[|? ?]| |] eqn:? end;
  try discriminate E;
  match type of E with context [match ?e with _ => _ end] => destruct e as [| | |[]| | | | | | | | |] end;
  try discriminate E;
  repeat match type of E with context [match ?x with _ => _ end] => destruct x eqn:? end;
  try discriminate E; injection E as <-.

Lemma promised_mails p l q :
  promised cn p l = Some q -> p_mails q = p_mails p + Z.of_nat (length (List.filter is_mail l)).
Proof.
  revert q. induction l as [|e l IH] using rev_ind; intros q; [intros [= ->]; cbn; lia|].
  intros E. apply promised_last in E as (p1 & E1 & E2). rewrite List.filter_app, length_app, Nat2Z.inj_add.
  specialize (IH _ E1). clear E1. step_cases E2; cbn in *; lia.
Qed.

Lemma promised_tls p l q :
  promised cn p l = Some q -> p_tls q = true -> p_tls p = true \/ CallReset ResetStartTLS ∈ l.
Proof.
  revert q. induction l as [|e l IH] using rev_ind; intros q; [intros [= ->]; by left|].
  intros E HT. apply promised_last in E as (p1 & E1 & E2).
  assert (p_tls p1 = true \/ e = CallReset ResetStartTLS) as [H1| ->].
  { clear IH E1. step_cases E2; cbn in *; auto. }
  - destruct (IH _ E1 H1); [by left|right]. apply elem_of_app. by left.
  - right. apply elem_of_app. right. apply list_elem_of_here.
Qed.

Lemma promised_auth p l q :
  promised cn p l = Some q -> p_auth q = true -> p_auth p = false -> authenticated_by l.
Proof.
  revert q. induction l as [|e l IH] using rev_ind; intros q; [intros [= ->]; congruence|].
  intros E HT HF. apply promised_last in E as (p1 & E1 & E2).
  assert ((p_auth p1 = true /\ e <> CallReset ResetStartTLS) \/
          exists r, e = CallCommitAuth r /\ Failure r = None) as [[H1 H2]|(r & -> & Hr)].
  { clear IH E1. step_cases E2; cbn in *; try (by left); try congruence; right; eauto. }
  - destruct (IH _ E1 H1 HF) as (a & r & b & -> & Hr & Hb). exists a, r, (b ++ [e]).
    split_and!; [by rewrite <- app_assoc|done|]. rewrite elem_of_app, list_elem_of_singleton. intros [?|?]; [done|congruence].
  - exists l, r, []. split_and!; [done|done|by apply not_elem_of_nil].
Qed.

(** A transaction the contract calls open was opened by an accepted MAIL, and its recipients are
    those accepted since. *)
Lemma promised_open p l q rs :
  promised cn p l = Some q -> p_tx p = Idle -> p_tx q = Open rs ->
  exists a reversePath params mid, l = a ++ CallMail reversePath params None :: mid /\
    Forall within mid /\ accepted mid = rs /\
    (rs = [] \/ Z.of_nat (length rs) <= maxRcpt (cn_cfg cn)).
Proof.
  revert q rs. induction l as [|e l IH] using rev_ind; intros q rs; [intros [= ->]; congruence|].
  intros E HI HO. apply promised_last in E as (p1 & E1 & E2).
  assert ((exists reversePath params, e = CallMail reversePath params None /\ rs = []) \/
    exists rs1, p_tx p1 = Open rs1 /\ rs = rs1 ++ accepts e /\ within e /\
      (accepts e = [] \/ Z.of_nat (length rs) <= maxRcpt (cn_cfg cn))) as [(rp & ps & -> & ->)|(rs1 & H1 & -> & W & L)].
  { clear IH E1.
    step_cases E2; cbn in *; try congruence;
      try (left; simplify_eq; by eauto); right; eexists; (split; [done|]).
    all: try match goal with A : p_tx ?c = Open ?x, B : p_tx ?c = Open ?y |- _ =>
      assert (x = y) as <- by congruence end.
    all: unfold accepts; try injection HO as <-; destruct (recipient_accepted _ _) || idtac;
      rewrite ?app_nil_r; split_and!; try done; cbn; try (by left); right; cbn; rewrite ?length_app; cbn in *; lia. }
  - exists l, rp, ps, []. split_and!; try done. by left.
  - destruct (IH _ _ E1 HI H1) as (a & rp & ps & mid & -> & Wm & Am & Lm).
    exists a, rp, ps, (mid ++ [e]). split_and!.
    + by rewrite <- app_assoc.
    + apply Forall_app. split; [done|]. by constructor.
    + unfold accepted in *. rewrite flat_map_app, Am. cbn. by rewrite app_nil_r.
    + destruct L as [->|L]; [by rewrite app_nil_r|by right].
Qed.

(** Nothing follows Close. *)
Lemma promised_closed p l q :
  promised cn p l = Some q -> p_tx p = Idle -> p_tx q = Closed ->
  exists l', l = l' ++ [CallClose] /\ CallClose ∉ l'.
Proof.
  assert (forall p l q, promised cn p l = Some q -> p_tx q <> Closed -> CallClose ∉ l) as NC.
  { clear. intros p l. induction l as [|e l IH] using rev_ind; intros q; [intros; by apply not_elem_of_nil|].
    intros E HN. apply promised_last in E as (p1 & E1 & E2).
    rewrite elem_of_app, list_elem_of_singleton. intros [?|<-].
    - apply (IH _ E1); [|done]. intros HC. unfold promise_step in E2. by rewrite HC in E2.
    - unfold promise_step in E2. destruct (p_tx p1) as [|[|]| |]; try done. injection E2 as <-. by apply HN. }
  destruct l as [|e l' _] using rev_ind; [intros [= ->]; congruence|].
  intros E HI HC. apply promised_last in E as (p1 & E1 & E2).
  exists l'. assert (e = CallClose /\ p_tx p1 <> Closed) as [-> HN].
  { clear NC E1. step_cases E2; cbn in *; try congruence; split; congruence. }
  split; [done|]. by eapply NC.
Qed.

End Logs.
End Logs.
Import Logs.

(** ** A configuration, a backend and an environment *)
Module Samples.

(** A listener that requires AUTH, and one that does not. *)
Definition config (max : Z) (auth : bool) : serverConfig :=
  {| identity := $"mx.example"; server_mode := modeSMTP; maxMessage := max; maxRcpt := 2;
     maxTransactions_opt := 5; chunking := true; server_binaryMIME := true; tlsConfigured := true;
     requireTLS := false; requireAuth := auth; authBefore := [$"PLAIN"]; authAfter := [$"PLAIN"; $"LOGIN"] |}.

Definition declaration : Session :=
  {| ParameterExtensions := []; SessionLimits := None; has_Mail := true; has_Rcpt := true; has_Data := true;
     has_Reset := true; has_Close := true; has_Authenticate := true; has_ChallengeResponse := false;
     has_SCRAMCredentials := false; has_CommitAuth := true; has_ATRN := false |}.

Definition queued : smtp.RecipientResult :=
  {| smtp.RRecipient := []; smtp.RCommand := []; smtp.RCode := 250; smtp.REnhanced := status 2 0 0;
     smtp.RText := $"queued" |}.

(** A backend that accepts everything and reads a message to its end. *)
Definition backend : backendSession :=
  {| be_decl := declaration; be_Mail := fun _ _ _ => None; be_Rcpt := fun _ _ _ => (None, []);
     be_Data := fun _ => fixed_reads [100; 100; 100]%nat (fun _ => ([queued], None));
     be_Verify := None; be_Expand := None; be_Help := None; be_ETRN := None;
     be_ATRN := fun _ _ => Ok false;
     be_Authenticate := fun _ _ => Ok (Some {| Identity := $"u"; Failure := None |});
     be_ChallengeResponse := fun _ _ => Err Opaque; be_SCRAMCredentials := fun _ _ => Err Opaque |}.

(** A transport on which nothing fails and nothing is read ahead. *)
Definition quiet : env :=
  {| env_write := fun _ => true; env_buffered := fun _ => 0%nat; env_cancelled := fun _ => false;
     env_handshake := None; env_os := fun _ _ => os_fine; env_cuts := fun _ => [];
     env_now := fun _ => $"Thu, 01 Jan 1970 00:00:00 +0000"; env_random := fun _ => None; env_binding := None |}.

Definition spools0 : spoolManager :=
  {| opts := {| MaxBytes := 100; MaxMemoryBytes := 10; MaxTotalBytes := 1000; MaxTotalMemoryBytes := 1000;
                MaxConcurrent := 3 |}; total := 0; totalMemory := 0; concurrent := 0 |}.

Definition lines_of (ls : list bytes) : bytes := concat (map (fun l => l ++ CRLF) ls).

Definition input (ls : list bytes) : LineReader := {| unread := lines_of ls; final := EOF |}.

Definition serve (cfg : serverConfig) (trace : bool) (r : LineReader) : outcome :=
  @serveConnection ascii_only_unicode no_literals ParamFacts.no_times SaslFacts.toy_crypto 300 cfg quiet trace
    spools0 r None (Ok (Some backend)).

(** AUTH, a message by DATA, one by BDAT, QUIT. *)
Definition dialogue : list bytes :=
  [$"EHLO me.example"; $"AUTH PLAIN AHUAcA=="; $"MAIL FROM:<a@b.c>"; $"RCPT TO:<d@e.f>"; $"DATA"; $"hi"; $".";
   $"MAIL FROM:<x@b.c>"; $"RCPT TO:<d@e.f>"; $"BDAT 5 LAST"; $"abcQUIT"; $"QUIT"].

(** The final state of a served connection. *)
Definition final_of (o : outcome) : commandSession :=
  match o with
  | Served s _ => s
  | _ => newCommandSession (config 0 false) {| tls_done := false; tls_clientCertificate := false |}
           (input []) spools0
  end.
Definition result_of (o : outcome) : result serr unit := match o with Served _ r => r | _ => Err SFuel end.

Definition is_served (o : outcome) : bool := match o with Served _ _ => true | _ => false end.

Lemma served_result o : is_served o = true -> o = Served (final_of o) (result_of o).
Proof. by destruct o. Qed.

Lemma served_ok o : result_of o = Ok tt -> o = Served (final_of o) (Ok tt).
Proof. destruct o; cbn; congruence. Qed.

End Samples.

(** ** The guarantees *)
Module Guarantees.

(** The calls a connection made on the session the backend created. *)
Definition calls (o : outcome) : list event :=
  match o with Dropped => [] | Refused _ cs => cs | Served s _ => log s end.

Section Guarantees.
Context `{Unicode} `{NetIP} `{RFC3339} `{Crypto} (fuel : nat) (cfg : serverConfig) (e : env) (trace : bool)
  (m : spoolManager) (plaintext : LineReader) (handshake : option (option (LineReader * bool)))
  (newSession : result backend_err (option backendSession)).
Abbreviation connection_outcome := (serveConnection fuel cfg e trace m plaintext handshake newSession).

Lemma effective_bound b : cn_maxTransactions (newConnection cfg b e trace) <= maxTransactions_opt cfg.
Proof.
  unfold newConnection, effective. destruct (SessionLimits _); cbn; [|lia].
  destruct (_ && _) eqn:E; cbn; [|lia]. apply andb_true_iff in E as [_ E]. lia.
Qed.

Lemma newConnection_cfg b : cn_cfg (newConnection cfg b e trace) = cfg.
Proof. unfold newConnection. by destruct (effective _ _). Qed.

(** C1: Refinement: the calls of a served connection are a run of the contract, from a fresh session to a
    closed one, whatever the client sends, the backend answers and the environment does. *)
Theorem serve_refines_contract s res :
  configured cfg m -> enough_fuel fuel e plaintext handshake -> connection_outcome = Served s res ->
  exists b p, newSession = Ok (Some b) /\
    promised (newConnection cfg b e trace) (start (starts_tls handshake)) (log s) = Some p /\ p_tx p = Closed.
Proof. intros HC HF E. destruct (served _ _ _ _ _ _ _ _ _ _ HC HF E) as (b & -> & (p & P & T) & _). by exists b, p. Qed.

(** C8: Termination and absence of internal errors: a connection never ends in a transition its own
    tables refuse, a command without a handler, a panic, a Received field that cannot be formatted, or
    for lack of fuel. The side conditions: a configuration with a valid greeting identity and a
    maximum message size from 0 up to, but not including, the largest 64-bit integer (NewServer also
    accepts that one, and with it the first read of a message's content panics, as
    [size_read_MaxInt64_panics] shows); a spool manager within its own limits; and fuel for every
    octet the client can send. *)
Theorem serve_terminates s res :
  configured cfg m -> enough_fuel fuel e plaintext handshake -> connection_outcome = Served s res ->
  match res with Ok _ => True | Err err => internal err = false end.
Proof.
  intros HC HF E. destruct (served _ _ _ _ _ _ _ _ _ _ HC HF E) as (b & _ & _ & _ & _ & HI).
  destruct res; [done|by apply HI].
Qed.

(** Whatever happens on a connection, it leaves the shared spool manager as it found it: every byte,
    every memory byte and every spool it reserved is released. *)
Theorem serve_releases_spool s res :
  configured cfg m -> enough_fuel fuel e plaintext handshake -> connection_outcome = Served s res ->
  spools s = m /\ lspool s = None.
Proof. intros HC HF E. by destruct (served _ _ _ _ _ _ _ _ _ _ HC HF E) as (b & _ & _ & HU & HL & _). Qed.

(** C20: Every session the backend constructs, with a Close callback, is closed exactly once, by its last
    call; without a session the backend is not called. *)
Theorem serve_closes_once :
  configured cfg m -> enough_fuel fuel e plaintext handshake -> handshake <> Some None ->
  match newSession with
  | Ok (Some b) => has_Close (be_decl b) = true ->
      exists l, calls connection_outcome = l ++ [CallClose] /\ CallClose ∉ l
  | _ => calls connection_outcome = []
  end.
Proof.
  intros HC HF HH. pose proof (served fuel cfg e trace m plaintext handshake newSession) as F.
  destruct newSession as [[b|]|]; [intros Hclose| |]; cycle 1.
  1-2: unfold serveConnection; by destruct handshake as [[[]|]|].
  destruct (serveConnection _ _ _ _ _ _ _ _) as [|reply cs|s res] eqn:ES.
  - revert ES. unfold serveConnection. destruct handshake as [[[]|]|]; try done.
    all: destruct (validateSession _); [|done]; destruct (_ && _); [done|]; by destruct (serve_session _ _ _).
  - exists []. split; [|by apply not_elem_of_nil]. revert ES. unfold serveConnection.
    destruct handshake as [[[]|]|]; try done.
    all: destruct (validateSession _); [|rewrite Hclose; by intros [= <- <-]];
      destruct (_ && _); [by intros [= <- <-]|]; by destruct (serve_session _ _ _).
  - destruct (F s res HC HF eq_refl) as (b' & _ & (p & P & T) & _). cbn [calls].
    by apply (promised_closed _ _ _ _ P).
Qed.

(** C4: Policy: every MAIL the backend sees came over TLS when the listener requires TLS, after a
    committed authentication that no STARTTLS discarded when it requires AUTH, declared no size above
    the maximum, and was preceded by fewer MAILs than the transaction limit. *)
Theorem serve_mail_policy s res before reversePath params err after :
  configured cfg m -> enough_fuel fuel e plaintext handshake -> connection_outcome = Served s res ->
  log s = before ++ CallMail reversePath params err :: after ->
  (requireTLS cfg = true -> starts_tls handshake = true \/ CallReset ResetStartTLS ∈ before) /\
  (requireAuth cfg = true -> authenticated_by before) /\
  (forall n, requested_size params = Some n -> n <= maxMessage cfg) /\
  Z.of_nat (length (List.filter is_mail before)) < maxTransactions_opt cfg.
Proof.
  intros HC HF E EL. destruct (served _ _ _ _ _ _ _ _ _ _ HC HF E) as (b & _ & (p & P & _) & _).
  rewrite EL in P. apply promised_split in P as (p1 & p2 & P1 & P2 & _).
  pose proof (promised_tls _ _ _ _ P1) as HT. pose proof (promised_auth _ _ _ _ P1) as HA.
  pose proof (promised_mails _ _ _ _ P1) as HM. pose proof (effective_bound b) as HE.
  unfold promise_step in P2. destruct (p_tx p1) as [|[]| |]; try done.
  destruct (mail_permitted _ _ _) eqn:MP; [|done]. unfold mail_permitted, over_size, cfg_ in MP.
  rewrite newConnection_cfg in MP. repeat (apply andb_true_iff in MP as [MP ?]).
  cbn [start p_tls p_auth p_mails] in *.
  split_and!.
  - intros R. rewrite R in MP. apply HT. by destruct (p_tls p1).
  - intros R. rewrite R in *. apply HA; [|done]. by destruct (p_auth p1).
  - intros n R. rewrite R in *. destruct (Z.ltb_spec (maxMessage cfg) n); [done|lia].
  - lia.
Qed.

(** C17: A message: every DATA the backend sees follows an accepted MAIL with nothing but recipients and
    queries between, and has at least one and at most the configured number of accepted recipients. *)
Theorem serve_data_recipients s res before observed after :
  configured cfg m -> enough_fuel fuel e plaintext handshake -> connection_outcome = Served s res ->
  log s = before ++ CallData observed :: after ->
  exists earlier reversePath params mid,
    before = earlier ++ CallMail reversePath params None :: mid /\ Forall within mid /\
    accepted mid <> [] /\ Z.of_nat (length (accepted mid)) <= maxRcpt cfg.
Proof.
  intros HC HF E EL. destruct (served _ _ _ _ _ _ _ _ _ _ HC HF E) as (b & _ & (p & P & _) & _).
  rewrite EL in P. apply promised_split in P as (p1 & p2 & P1 & P2 & _).
  unfold promise_step in P2. destruct (p_tx p1) as [|[|r rs]| |] eqn:ET; try done.
  destruct (promised_open _ _ _ _ _ P1 eq_refl ET) as (a & rp & ps & mid & -> & W & A & L).
  rewrite newConnection_cfg in L. exists a, rp, ps, mid. rewrite A. split_and!; try done. by destruct L.
Qed.

End Guarantees.

(** *** On the sample dialogue *)
Import Samples.

#[local] Existing Instances ascii_only_unicode no_literals ParamFacts.no_times SaslFacts.toy_crypto.

Abbreviation sample_run :=
  (serveConnection 300 (config 20 true) quiet false spools0 (input dialogue) None (Ok (Some backend))).

Lemma sample_configured :
  configured (config 20 true) spools0 /\
  enough_fuel 300 quiet (input dialogue) None /\
  sample_run = Served (final_of sample_run) (Ok tt).
Proof.
  split; [|split; [vm_compute; lia|apply served_ok; vm_compute; reflexivity]].
  unfold configured. split; [vm_compute; reflexivity|]. cbn. unfold MaxInt64. lia.
Qed.

Definition sample_log : list event := log (final_of sample_run).

Lemma split_at {A} (d : A) l n : (n < length l)%nat -> l = take n l ++ nth n l d :: drop (S n) l.
Proof.
  intros L. rewrite <- (take_drop n l) at 1. f_equal. revert n L. induction l as [|x l IH]; intros [|n] L; cbn in *;
    [lia..|done|]. apply IH. lia.
Qed.

Definition is_data (e : event) : bool := match e with CallData _ => true | _ => false end.

Lemma mail_at l n : is_mail (nth n l CallClose) = true ->
  exists reversePath params err, l = take n l ++ CallMail reversePath params err :: drop (S n) l.
Proof.
  intros E. destruct (decide (n < length l)%nat) as [L|L].
  - pose proof (split_at CallClose l n L) as HL. destruct (nth n l CallClose); try done. eauto.
  - rewrite nth_overflow in E by lia. done.
Qed.

Lemma data_at l n : is_data (nth n l CallClose) = true ->
  exists observed, l = take n l ++ CallData observed :: drop (S n) l.
Proof.
  intros E. destruct (decide (n < length l)%nat) as [L|L].
  - pose proof (split_at CallClose l n L) as HL. destruct (nth n l CallClose); try done. eauto.
  - rewrite nth_overflow in E by lia. done.
Qed.

Lemma serve_refines_contract_witness :
  exists b p, @Ok backend_err _ (Some backend) = Ok (Some b) /\
    promised (newConnection (config 20 true) b quiet false) (start false) sample_log = Some p /\ p_tx p = Closed.
Proof.
  destruct sample_configured as (HC & HF & HS).
  exact (serve_refines_contract 300 (config 20 true) quiet false spools0 (input dialogue) None
           (Ok (Some backend)) _ _ HC HF HS).
Defined.

(** A client that disappears in the middle of a command. *)
Definition cut_short : LineReader := {| unread := $"NOOP"; final := EOF |}.

Abbreviation cut_run :=
  (serveConnection 300 (config 20 true) quiet false spools0 cut_short None (Ok (Some backend))).

Lemma cut_served : cut_run = Served (final_of cut_run) (result_of cut_run).
Proof. apply served_result. vm_compute. reflexivity. Qed.

Lemma serve_terminates_witness :
  match result_of cut_run with Ok _ => True | Err err => internal err = false end.
Proof.
  destruct sample_configured as (HC & _ & _).
  refine (serve_terminates 300 (config 20 true) quiet false spools0 cut_short None
           (Ok (Some backend)) _ _ HC _ cut_served). vm_compute. lia.
Defined.

Lemma serve_releases_spool_witness :
  spools (final_of sample_run) = spools0 /\ lspool (final_of sample_run) = None.
Proof.
  destruct sample_configured as (HC & HF & HS).
  exact (serve_releases_spool 300 (config 20 true) quiet false spools0 (input dialogue) None
           (Ok (Some backend)) _ _ HC HF HS).
Defined.

Lemma serve_closes_once_witness : exists l, calls sample_run = l ++ [CallClose] /\ CallClose ∉ l.
Proof.
  destruct sample_configured as (HC & HF & HS).
  refine (serve_closes_once 300 (config 20 true) quiet false spools0 (input dialogue) None
           (Ok (Some backend)) HC HF _ eq_refl). discriminate.
Defined.

Lemma serve_mail_policy_witness :
  authenticated_by (take 6 sample_log) /\ Z.of_nat (length (List.filter is_mail (take 6 sample_log))) < 5.
Proof.
  destruct sample_configured as (HC & HF & HS).
  destruct (mail_at sample_log 6 eq_refl) as (rp & ps & err & HL).
  destruct (serve_mail_policy 300 (config 20 true) quiet false spools0 (input dialogue) None
           (Ok (Some backend)) _ _ _ _ _ _ _ HC HF HS HL) as (_ & HA & _ & HM).
  split; [by apply HA|exact HM].
Defined.

Lemma serve_data_recipients_witness :
  exists earlier reversePath params mid,
    take 8 sample_log = earlier ++ CallMail reversePath params None :: mid /\ Forall within mid /\
    accepted mid <> [] /\ Z.of_nat (length (accepted mid)) <= 2.
Proof.
  destruct sample_configured as (HC & HF & HS).
  destruct (data_at sample_log 8 eq_refl) as (observed & HL).
  exact (serve_data_recipients 300 (config 20 true) quiet false spools0 (input dialogue) None
           (Ok (Some backend)) _ _ _ _ _ HC HF HS HL).
Defined.

End Guarantees.
