(* ===== verification/SessionLog.v ===== *)
(** * smtpserver: the log of a session records what the backend answered

    The contract of SessionFacts speaks of the answers recorded with each call. Here: the recorded
    answer of Mail and Rcpt is the one the backend gave, called with exactly the calls before it, and
    the reads recorded for Data are those its callback makes ([recorded]). Every computation of the
    session keeps that ([keeps]), whatever it does otherwise, so it holds of every connection. *)
From Stdlib Require Import ZArith Lia Bool.
From stdpp Require Import base list gmap strings.
From S2P Require Import Prelude GoStrings Base64 Sasl Wire DotStuff Reply Command Path Ehlo Core.
From S2P Require Import Spool ServerState ServerData ServerParams ServerCaps ServerSession.
From S2P Require Import SessionFacts SessionContract SessionTheorems.
Import smtpsasl Guarantees.

(** The reads a callback makes on a reader. *)
Definition observed (t : trackedDataReader) (b : dataBackend) : list (bytes * option data_err) :=
  match backend_reads t b with Some (obs, _) => obs | None => [] end.

(** The answer recorded with a call is the backend's, after the calls [l]. *)
Definition answered (b : backendSession) (l : list event) (e : event) : Prop :=
  match e with
  | CallMail reversePath params err => err = be_Mail b l reversePath params
  | CallRcpt recipient params err successLines => (err, successLines) = be_Rcpt b l recipient params
  | CallData obs => exists t, exhausted t = false /\ obs = observed t (be_Data b l)
  | _ => True
  end.

Inductive recorded (b : backendSession) : list event -> Prop :=
| recorded_nil : recorded b []
| recorded_snoc l e : recorded b l -> answered b l e -> recorded b (l ++ [e]).

Lemma recorded_last b l e : recorded b (l ++ [e]) -> recorded b l /\ answered b l e.
Proof.
  intros R. inversion R as [Q|l' e' R' A Q]; [by destruct l|]. by apply app_inj_tail in Q as [-> ->].
Qed.

Lemma recorded_split b l e l' : recorded b (l ++ e :: l') -> recorded b l /\ answered b l e.
Proof.
  induction l' as [|x l' IH] using rev_ind; [apply recorded_last|].
  rewrite app_comm_cons, app_assoc. intros [R _]%recorded_last. by apply IH.
Qed.

(** A backend that differs in its declaration only answers alike. *)
Lemma recorded_decl b d l : recorded (set_decl b d) l -> recorded b l.
Proof. induction 1; by constructor. Qed.

Section Keeps.
Context `{Unicode} `{NetIP} `{RFC3339} `{Crypto} (cn : connection).
Let b := cn_backend cn.

Definition ok (s : commandSession) : Prop := recorded b (log s).
Definition keeps {A} (m : M A) : Prop := forall s, ok s -> ok (fst (m s)).

(** Calls whose recorded answer says nothing. *)
Definition quiet_call (e : event) : Prop :=
  match e with CallMail _ _ _ | CallRcpt _ _ _ _ | CallData _ => False | _ => True end.

Lemma ok_log s s' : ok s -> log s' = log s -> ok s'.
Proof. unfold ok. by intros ? ->. Qed.

Lemma ok_quiet s s' e : ok s -> quiet_call e -> log s' = log s ++ [e] -> ok s'.
Proof. unfold ok. intros K Q ->. constructor; [done|by destruct e]. Qed.

Lemma keeps_ret {A} (a : A) : keeps (mret a).
Proof. by intros s. Qed.

Lemma keeps_fail {A} (e : serr) : keeps (@fail A e).
Proof. by intros s. Qed.

Lemma keeps_bind {A B} (m : M A) (k : A -> M B) : keeps m -> (forall a, keeps (k a)) -> keeps (m ≫= k).
Proof.
  intros Hm Hk s K. specialize (Hm s K). unfold mbind, M_bind. destruct (m s) as [s' [a|e]]; [by apply Hk|done].
Qed.

(** Reading the state: the rest may know that it is the state it runs in. *)
Lemma keeps_get {A} (k : commandSession -> M A) : (forall s, ok s -> ok (fst (k s s))) -> keeps (get_session ≫= k).
Proof. intros Hk s K. by apply Hk. Qed.

Lemma keeps_modify f : (forall s, ok s -> ok (f s)) -> keeps (modify f).
Proof. intros Hf s K. by apply Hf. Qed.

(** A computation run after an update of the state. *)
Lemma ok_then {A} f (k : M A) s : ok (f s) -> keeps k -> ok (fst ((modify f ;; k) s)).
Proof. intros K Hk. by apply Hk. Qed.

Lemma life_reset_ok reason s : ok s -> ok (life_reset reason s).
Proof. intros K. by apply (ok_quiet s _ (CallReset reason)). Qed.

Lemma life_resetIfOpen_ok reason s : ok s -> ok (life_resetIfOpen reason s).
Proof. intros K. unfold life_resetIfOpen. destruct (transactionOpen s), (lspool s); try done; by apply life_reset_ok. Qed.

Lemma life_mail_ok reversePath params s : ok s -> ok (fst (life_mail cn reversePath params s)).
Proof.
  intros K. unfold life_mail. set (s0 := if transactionOpen s then life_reset ResetNewMail s else s).
  assert (ok s0) as K0 by (unfold s0; destruct (transactionOpen s); [by apply life_reset_ok|done]).
  destruct (be_Mail _ _ _ _) eqn:E; unfold ok; cbn; (constructor; [done|exact (eq_sym E)]).
Qed.

Lemma transition_ok e s : ok s -> ok (transition_ignored e s).
Proof. intros K. unfold transition_ignored. by destruct (transition _ _). Qed.

Lemma session_close_ok s : ok s -> ok (session_close s).
Proof.
  intros K. apply transition_ok. unfold life_close. destruct (closeDone s); [done|].
  eapply (ok_quiet (life_resetIfOpen ResetSessionEnd (set_closed s)) _ CallClose); [by apply life_resetIfOpen_ok|done|done].
Qed.

(** *** The tactic: straight-line computations and their branches *)
Ltac state_step :=
  match goal with
  | |- ok (life_reset _ _) => apply life_reset_ok
  | |- ok (life_resetIfOpen _ _) => apply life_resetIfOpen_ok
  | |- ok (transition_ignored _ _) => apply transition_ok
  | |- ok (if ?c then _ else _) => destruct c
  | |- ok (match ?c with _ => _ end) => destruct c
  | K : ok ?s |- ok ?s => exact K
  | K : ok ?s |- ok _ => apply (ok_log s); [exact K|reflexivity]
  | K : ok ?s |- ok _ => eapply (ok_quiet s); [exact K| |reflexivity]; exact I
  | |- ok (after_content ?c _) => is_var c; destruct c
  | |- ok (clearTransaction ?x) => apply (ok_log x); [|reflexivity]
  | |- ok (set_flags ?x _ _ _ _) => apply (ok_log x); [|reflexivity]
  | |- ok (set_io ?x _ _ _ _) => apply (ok_log x); [|reflexivity]
  | |- ok (set_st ?x _) => apply (ok_log x); [|reflexivity]
  end.

Create HintDb keeps.
Ltac keeps_step :=
  lazymatch goal with
  | |- keeps (match ?x with _ => _ end) => destruct x
  | |- keeps (_ ≫= _) => apply keeps_bind; [|intros]
  | |- keeps (mret _) => apply keeps_ret
  | |- keeps (fail _) => apply keeps_fail
  | |- keeps (modify _) => apply keeps_modify; let s := fresh "s" in let K := fresh "K" in intros s K; repeat state_step
  | |- keeps _ => solve [eauto with keeps nocore]
  end.
Ltac keeps_go := repeat keeps_step.

Lemma keeps_get_session : keeps get_session.
Proof. by intros s. Qed.
Hint Resolve keeps_get_session : keeps.

Lemma keeps_trace_line l : keeps (trace_line cn l).
Proof. unfold trace_line. keeps_go. Qed.
Hint Resolve keeps_trace_line : keeps.

Lemma keeps_writeReply r : keeps (writeReply cn r).
Proof.
  intros s K. unfold writeReply. destruct (env_write _ _); [|by apply (ok_log s)].
  destruct (encodeWireReply r); [|by apply (ok_log s)]. apply keeps_trace_line. by apply (ok_log s).
Qed.
Hint Resolve keeps_writeReply : keeps.

Lemma keeps_writeEHLO : keeps (writeEHLO cn).
Proof.
  intros s K. unfold writeEHLO. destruct (env_write _ _); [|by apply (ok_log s)].
  destruct (EncodeEHLOReply _); [|by apply (ok_log s)]. apply keeps_trace_line. by apply (ok_log s).
Qed.
Lemma keeps_Flush : keeps (Flush cn).
Proof. intros s K. unfold Flush. destruct (env_write _ _); by apply (ok_log s). Qed.
Hint Resolve keeps_Flush keeps_writeEHLO : keeps.

Lemma keeps_transition e : keeps (transition_ e).
Proof. intros s K. unfold transition_. destruct (transition _ _); [by apply (ok_log s)|done]. Qed.
Lemma keeps_writeResult r : keeps (writeResult cn r).
Proof. unfold writeResult. keeps_go. Qed.
Lemma keeps_syntaxReply n : keeps (syntaxReply cn n).
Proof. unfold syntaxReply. keeps_go. Qed.
Lemma keeps_policyReply n : keeps (policyReply cn n).
Proof. unfold policyReply. keeps_go. Qed.
Lemma keeps_notImplementedReply n : keeps (notImplementedReply cn n).
Proof. unfold notImplementedReply. keeps_go. Qed.
Lemma keeps_backendReply n e c t : keeps (backendReply cn n e c t).
Proof. unfold backendReply. keeps_go. Qed.
Lemma keeps_noRecipientsReply : keeps (noRecipientsReply cn).
Proof. unfold noRecipientsReply. keeps_go. Qed.
Hint Resolve keeps_transition keeps_writeResult keeps_syntaxReply keeps_policyReply keeps_notImplementedReply
  keeps_backendReply keeps_noRecipientsReply : keeps.

Lemma keeps_handleCommandReadError e : keeps (handleCommandReadError cn e).
Proof. unfold handleCommandReadError. keeps_go. Qed.
Lemma keeps_traceCommand v a : keeps (traceCommand cn v a).
Proof. unfold traceCommand. keeps_go. Qed.
Hint Resolve keeps_handleCommandReadError keeps_traceCommand : keeps.

Lemma keeps_handleHello c : keeps (handleHello cn c).
Proof. unfold handleHello. keeps_go. Qed.
Lemma keeps_handleRSET c : keeps (handleRSET cn c).
Proof. unfold handleRSET. keeps_go. Qed.
Lemma keeps_handleNOOP c : keeps (handleNOOP cn c).
Proof. unfold handleNOOP. keeps_go. Qed.
Lemma keeps_handleQUIT c : keeps (handleQUIT cn c).
Proof. unfold handleQUIT. keeps_go. Qed.
Lemma keeps_handleVRFY c : keeps (handleVRFY cn c).
Proof. unfold handleVRFY. keeps_go. Qed.
Lemma keeps_handleEXPN c : keeps (handleEXPN cn c).
Proof. unfold handleEXPN. keeps_go. Qed.
Lemma keeps_handleHELP c : keeps (handleHELP cn c).
Proof. unfold handleHELP. keeps_go. Qed.
Lemma keeps_handleETRN c : keeps (handleETRN cn c).
Proof. unfold handleETRN. keeps_go. Qed.
Hint Resolve keeps_handleHello keeps_handleRSET keeps_handleNOOP keeps_handleQUIT keeps_handleVRFY
  keeps_handleEXPN keeps_handleHELP keeps_handleETRN : keeps.

Lemma keeps_mail_accepted m params : keeps (mail_accepted cn m params).
Proof.
  unfold mail_accepted. apply keeps_bind; [keeps_go|intros s0]. apply keeps_bind; [keeps_go|intros _].
  destruct (over_size cn params); [keeps_go|]. apply keeps_get. intros s K.
  pose proof (life_mail_ok m params s K) as L. destruct (life_mail cn m params s) as [s' err].
  apply ok_then; [exact L|]. keeps_go.
Qed.
Hint Resolve keeps_mail_accepted : keeps.

Lemma keeps_handleMail c : keeps (handleMail cn c).
Proof. unfold handleMail. keeps_go. Qed.

Lemma keeps_rcpt_checked p : keeps (rcpt_checked cn p).
Proof.
  unfold rcpt_checked. apply keeps_get. intros s K.
  destruct (maxRcpt _ <=? _); [by apply (keeps_bind _ _ (keeps_writeReply _)); [intros; apply keeps_ret|]|].
  destruct (parseRcptParameters _ _) as [params|e]; [|by apply keeps_syntaxReply].
  destruct (be_Rcpt _ _ _ _) as [err ls] eqn:E. apply ok_then; [|keeps_go].
  unfold ok. cbn. constructor; [done|exact (eq_sym E)].
Qed.
Hint Resolve keeps_rcpt_checked : keeps.

Lemma keeps_handleRcpt c : keeps (handleRcpt cn c).
Proof. unfold handleRcpt. keeps_go. Qed.
Hint Resolve keeps_handleMail keeps_handleRcpt : keeps.

Lemma keeps_evaluateContent v c : keeps (evaluateContent cn v c).
Proof.
  intros s K. unfold evaluateContent. destruct (recipients s) as [|r0 rs]; [done|].
  destruct (FormatReceived _) as [h|e]; [|by apply (ok_log s)].
  set (t := {| header := h; source := c; exhausted := false |}).
  assert (ok (add_log (tick s) (CallData (observed t (be_Data (cn_backend cn) (log s)))))) as K'.
  { unfold ok. cbn. constructor; [done|]. by exists t. }
  by destruct (evaluateDataCall _ _ _ _ _) as [[ev t']|].
Qed.

Lemma keeps_write_results rs : keeps (write_results cn rs).
Proof. induction rs as [|r rs IH]; cbn [write_results]; keeps_go; exact IH. Qed.

Lemma keeps_finishContent ev : keeps (finishContent cn ev).
Proof.
  intros s K. unfold finishContent. destruct (closeConnection ev); [done|].
  pose proof (keeps_write_results (ev_result ev) s K) as W. destruct (write_results cn _ s) as [s1 r]. cbn [fst] in W.
  assert (forall reason, ok (clearTransaction (life_reset reason s1))) as C.
  { intros reason. apply (ok_log (life_reset reason s1)); [by apply life_reset_ok|done]. }
  specialize (C (if completed ev then ResetCompleted else ResetFailed)).
  destruct (transition _ _); [by apply (ok_log _ _ C)|exact C].
Qed.
Hint Resolve keeps_evaluateContent keeps_finishContent : keeps.

Lemma keeps_handleDATA c : keeps (handleDATA cn c).
Proof. unfold handleDATA. keeps_go. Qed.

Lemma keeps_discard_chunk n : keeps (discard_chunk cn n).
Proof. intros s K. unfold discard_chunk. destruct (ReadBDATChunk _ _ _ _ _ _) as [[[u r] k] err]. by apply (ok_log s). Qed.
Lemma keeps_spool_chunk sp n : keeps (spool_chunk cn sp n).
Proof. intros s K. unfold spool_chunk. destruct (ReadBDATChunk _ _ _ _ _ _) as [[[u r] k] err]. by apply (ok_log s). Qed.
Lemma keeps_failBDAT e : keeps (failBDAT cn e).
Proof. unfold failBDAT. keeps_go. Qed.
Lemma keeps_current_spool : keeps current_spool.
Proof. unfold current_spool. keeps_go. Qed.
Hint Resolve keeps_handleDATA keeps_discard_chunk keeps_spool_chunk keeps_failBDAT keeps_current_spool : keeps.

Lemma keeps_bdat_chunk f : keeps (bdat_chunk cn f).
Proof. unfold bdat_chunk. keeps_go. Qed.
Hint Resolve keeps_bdat_chunk : keeps.

Lemma keeps_handleBDAT c : keeps (handleBDAT cn c).
Proof. unfold handleBDAT. keeps_go. Qed.

Lemma keeps_handshakeTLS : keeps (handshakeTLS cn).
Proof. intros s K. unfold handshakeTLS. destruct (env_handshake _); by apply (ok_log s). Qed.
Hint Resolve keeps_handleBDAT keeps_handshakeTLS : keeps.

Lemma keeps_handleSTARTTLS c : keeps (handleSTARTTLS cn c).
Proof. unfold handleSTARTTLS. keeps_go. Qed.

Lemma keeps_verifyAUTH q : keeps (verifyAUTH cn q).
Proof. unfold verifyAUTH. keeps_go. Qed.
Lemma keeps_authFailure r : keeps (authFailure cn r).
Proof. unfold authFailure. cbv zeta. keeps_go. Qed.
Lemma keeps_authExchangeError e : keeps (authExchangeError cn e).
Proof. unfold authExchangeError. keeps_go. Qed.
Lemma keeps_finalize r : keeps (finalizeAuthentication cn r).
Proof. unfold finalizeAuthentication. keeps_go. Qed.
Lemma keeps_draw_random : keeps (draw_random cn).
Proof. intros s K. by apply (ok_log s). Qed.
Lemma keeps_readSASL : keeps readSASL.
Proof. intros s K. unfold readSASL. destruct (ReadSASLResponse _ _). by apply (ok_log s). Qed.
Hint Resolve keeps_handleSTARTTLS keeps_verifyAUTH keeps_authFailure keeps_authExchangeError keeps_finalize
  keeps_draw_random keeps_readSASL : keeps.

Lemma keeps_auth_done a r : keeps (auth_done cn a r).
Proof. unfold auth_done. keeps_go. Qed.
Hint Resolve keeps_auth_done : keeps.

Lemma keeps_auth_loop fuel r step a : keeps (auth_loop cn fuel r step a).
Proof.
  revert r step a. induction fuel as [|fuel IH]; intros r step a; cbn [auth_loop]; [keeps_go|].
  destruct step as [[c|q|acc]|e]; keeps_go.
  all: destruct (Continue _ _ _) || destruct (RNext _ _); apply IH.
Qed.
Hint Resolve keeps_auth_loop : keeps.

Lemma keeps_auth_exchange m i : keeps (auth_exchange cn m i).
Proof. unfold auth_exchange. cbv zeta. keeps_go. Qed.
Hint Resolve keeps_auth_exchange : keeps.

Lemma keeps_handleAUTH c : keeps (handleAUTH cn c).
Proof. unfold handleAUTH. cbv zeta. keeps_go. Qed.

Lemma keeps_Buffered : keeps (Buffered cn).
Proof. intros s K. by apply (ok_log s). Qed.
Hint Resolve keeps_handleAUTH keeps_Buffered : keeps.

Lemma keeps_handleATRN c : keeps (handleATRN cn c).
Proof. unfold handleATRN. cbv zeta. keeps_go. Qed.
Hint Resolve keeps_handleATRN : keeps.

Lemma keeps_executeExtensionCommand c : keeps (executeExtensionCommand cn c).
Proof. unfold executeExtensionCommand. keeps_go. Qed.
Hint Resolve keeps_executeExtensionCommand : keeps.

Lemma keeps_dispatch v c : keeps (dispatch cn v c).
Proof. unfold dispatch. keeps_go. Qed.
Hint Resolve keeps_dispatch : keeps.

Lemma keeps_execute_legal v c : keeps (execute_legal cn v c).
Proof. unfold execute_legal. keeps_go. Qed.
Hint Resolve keeps_execute_legal : keeps.

Lemma keeps_execute c : keeps (execute cn c).
Proof. unfold execute. cbv zeta. keeps_go. Qed.

Lemma keeps_readCommand : keeps readCommand.
Proof. intros s K. unfold readCommand. destruct (ReadCommand _ _). by apply (ok_log s). Qed.
Lemma keeps_flush_if x : keeps (flush_if cn x).
Proof. unfold flush_if. keeps_go. Qed.
Lemma keeps_settle a : keeps (settle cn a).
Proof. apply keeps_flush_if. Qed.
Hint Resolve keeps_execute keeps_readCommand keeps_flush_if keeps_settle : keeps.

Lemma keeps_iteration : keeps (iteration cn).
Proof. unfold iteration. keeps_go. Qed.
Hint Resolve keeps_iteration : keeps.

Lemma keeps_run fuel : keeps (run cn fuel).
Proof. induction fuel as [|fuel IH]; cbn [run]; keeps_go. Qed.
Hint Resolve keeps_run : keeps.

Lemma serve_session_recorded fuel s : ok s -> ok (fst (serve_session cn fuel s)).
Proof.
  intros K. unfold serve_session.
  match goal with |- context [(?a ;; Flush cn ;; run cn fuel) s] =>
    assert (keeps (a ;; Flush cn ;; run cn fuel)) as B by keeps_go; specialize (B s K);
    destruct ((a ;; Flush cn ;; run cn fuel) s) as [s1 r] end.
  cbn [fst] in *. by apply session_close_ok.
Qed.
End Keeps.

(** ** The theorem *)

Section Served.
Context `{Unicode} `{NetIP} `{RFC3339} `{Crypto} (fuel : nat) (cfg : serverConfig) (e : env) (trace : bool)
  (m : spoolManager) (plaintext : LineReader) (handshake : option (option (LineReader * bool)))
  (newSession : result backend_err (option backendSession)).
Abbreviation connection_outcome := (serveConnection fuel cfg e trace m plaintext handshake newSession).

Lemma served_recorded s res : connection_outcome = Served s res ->
  exists b, newSession = Ok (Some b) /\ recorded b (log s).
Proof.
  unfold serveConnection. intros E.
  assert (forall b r ts, serve_session (newConnection cfg b e trace) fuel (newCommandSession cfg ts r m) = (s, res) ->
    recorded b (log s)) as R.
  { intros b r ts Q. pose proof (serve_session_recorded (newConnection cfg b e trace) fuel (newCommandSession cfg ts r m)
      ltac:(constructor)) as K. rewrite Q in K. unfold ok, newConnection in K.
    destruct (effective cfg (be_decl b)). by apply (recorded_decl _ _ _ K). }
  destruct handshake as [[[r cert]|]|]; [|done|].
  all: destruct newSession as [[b|]|]; try done; destruct (validateSession (be_decl b)); [|done];
    destruct (requireAuth cfg && _); [done|];
    match type of E with context [serve_session ?cn ?f ?s0] => destruct (serve_session cn f s0) as [s1 r1] eqn:Q end;
    injection E as <- <-; exists b; (split; [done|]); by eapply R.
Qed.

End Served.
