(* ===== verification/ServerConfig.v ===== *)
(** * smtpserver: options, validation and construction of a server

    config.go, NewServer with its helpers of server.go, and the composition of a constructed server
    with the session it serves on a connection (serveConnection, publicMode). Problems are the texts
    the code reports, collected in its order. The name of the host, which [os.Hostname] may fail to
    give, is an argument; a [tls.Config] is only tested for nil. The allowlists of mechanisms are
    slices that [validateAuthMechanisms] rewrites in upper case, so the validation returns them. *)
From Stdlib Require Import ZArith Lia Bool.
From stdpp Require Import base list gmap strings.
From S2P Require Import Prelude GoStrings Wire Reply Path NetAddr Sasl Core Spool ServerState ServerData ServerParams ServerCaps.
From S2P Require Import ServerSession SessionFacts SessionContract SessionTheorems Connections.
Import smtpsasl Contract SessionInv Wp Samples.

(** ** Options *)

Definition ModeSMTP : bytes := $"smtp".
Definition ModeLMTP : bytes := $"lmtp".

(** backend.go: what a backend is told about a connection; the TLS state as of the call. *)
Record ConnInfo : Type := {
  ci_Mode : bytes;
  ci_LocalAddr : option net_addr;
  ci_RemoteAddr : option net_addr;
  ci_TLSState : option tlsState
}.

(** A backend; [None] is a nil callback. *)
Record Backend : Type := { NewSession : option (ConnInfo -> result backend_err (option backendSession)) }.

(** The addresses a [net.Listener] reports; accepting is the subject of Connections. *)
Record Listener : Type := { listener_Addr : net_addr }.

Record ServerOptions : Type := {
  o_Listener : option Listener;
  o_Backend : option Backend;
  o_Mode : bytes;
  o_TLSConfig : bool;
  o_ImplicitTLS : bool;
  o_EnableCHUNKING : bool;
  o_EnableBINARYMIME : bool;
  o_MaxSpoolBytes : Z;
  o_MaxSpoolMemoryBytes : Z;
  o_MaxTotalSpoolBytes : Z;
  o_MaxTotalSpoolMemoryBytes : Z;
  o_MaxConcurrentSpools : Z;
  o_MaxConnections : Z;
  o_MaxConnectionsPerSource : Z;
  o_GreetingIdentity : bytes;
  o_CommandTimeout : Z;
  o_DataTimeout : Z;
  o_MaxMessageBytes : Z;
  o_MaxRecipients : Z;
  o_MaxTransactions : Z;
  o_RequireTLS : bool;
  o_RequireAuth : bool;
  o_AuthMechanismsBeforeTLS : option (list bytes);
  o_AuthMechanismsAfterTLS : option (list bytes);
  o_Trace : bool
}.

(** The zero value, which stands for nil options. *)
Definition ZeroServerOptions : ServerOptions :=
  {| o_Listener := None; o_Backend := None; o_Mode := []; o_TLSConfig := false; o_ImplicitTLS := false;
     o_EnableCHUNKING := false; o_EnableBINARYMIME := false; o_MaxSpoolBytes := 0; o_MaxSpoolMemoryBytes := 0;
     o_MaxTotalSpoolBytes := 0; o_MaxTotalSpoolMemoryBytes := 0; o_MaxConcurrentSpools := 0;
     o_MaxConnections := 0; o_MaxConnectionsPerSource := 0; o_GreetingIdentity := []; o_CommandTimeout := 0;
     o_DataTimeout := 0; o_MaxMessageBytes := 0; o_MaxRecipients := 0; o_MaxTransactions := 0;
     o_RequireTLS := false; o_RequireAuth := false; o_AuthMechanismsBeforeTLS := None;
     o_AuthMechanismsAfterTLS := None; o_Trace := false |}.

Definition minute : Z := 60 * 1000 * 1000 * 1000.

Definition defaultMaxConnections : Z := 1000.
Definition defaultMaxConnectionsPerSource : Z := 32.
Definition defaultMaxMessageBytes : Z := Z.shiftl 64 20.
Definition defaultMaxRecipients : Z := 100.
Definition defaultMaxTransactions : Z := 100.
Definition defaultCommandTimeout : Z := 5 * minute.
Definition defaultDataTimeout : Z := 10 * minute.

Definition defaultAuthMechanismsAfterTLS : list bytes :=
  [$"SCRAM-SHA-256-PLUS"; $"SCRAM-SHA-256"; $"SCRAM-SHA-1-PLUS"; $"SCRAM-SHA-1"; $"CRAM-MD5";
   $"OAUTHBEARER"; $"XOAUTH2"; $"EXTERNAL"; $"PLAIN"; $"LOGIN"].

(** ** config.go *)

Record constructionConfig : Type := {
  c_listener : option Listener;
  c_mode : listenerMode;
  c_backendNewSession : bool;
  c_chunking : bool;
  c_binaryMIME : bool;
  c_maxSpoolBytes : Z;
  c_maxSpoolMemoryBytes : Z;
  c_maxTotalSpoolBytes : Z;
  c_maxTotalSpoolMemory : Z;
  c_maxConcurrentSpools : Z;
  c_maxConnections : Z;
  c_greetingIdentity : bytes;
  c_commandTimeout : Z;
  c_dataTimeout : Z;
  c_maxMessageBytes : Z;
  c_maxRecipients : Z;
  c_maxTransactions : Z;
  c_authBefore : list bytes;
  c_authAfter : list bytes
}.

Definition listenerPort (addr : net_addr) : Z :=
  match addr with
  | TCPAddr _ port _ => port
  | _ =>
      match SplitHostPort (net_addr_String addr) with
      | Some (_, port) => default 0 (Atoi port)
      | None => 0
      end
  end.

Definition mechanism_rune (r : Z) : bool :=
  ((65 <=? r) && (r <=? 90)) || ((48 <=? r) && (r <=? 57)) || (r =? 45).

(** [if cond { problems = append(problems, text) }] *)
Definition problem (cond : bool) (text : bytes) : list bytes := if cond then [text] else [].

(** The loop of [validateAuthMechanisms] from index [i]: the problems, and the slice as rewritten. *)
Fixpoint check_mechanisms `{Unicode} (field : bytes) (i : nat) (mechanisms seen : list bytes) :
    list bytes * list bytes :=
  match mechanisms with
  | [] => ([], [])
  | mechanism :: rest =>
      let name := ToUpper mechanism in
      if beq name [] then
        let '(problems, rest') := check_mechanisms field (S i) rest seen in
        ((field ++ $" contains an empty mechanism") :: problems, mechanism :: rest')
      else
        let '(problems, rest') := check_mechanisms field (S i) rest (name :: seen) in
        (problem (negb (forallb (fun p => mechanism_rune (fst p)) (runes name)))
           (field ++ $" contains an invalid mechanism at index " ++ Itoa (Z.of_nat i)) ++
         problem (mem name seen) (field ++ $" contains duplicate mechanism " ++ name) ++ problems,
         name :: rest')
  end.

Definition validateAuthMechanisms `{Unicode} (field : bytes) (mechanisms : list bytes) : list bytes * list bytes :=
  check_mechanisms field 0 mechanisms [].

Definition invalid_options (problems : list bytes) : bytes :=
  $"smtpserver: invalid server options: " ++ joinProblems problems.

Section Validation.
Context `{Unicode} `{NetIP}.

Definition construction_problems (config : constructionConfig) : list bytes :=
  problem (bool_decide (c_listener config = None)) ($"Listener is required") ++
  problem (negb (c_backendNewSession config)) ($"Backend.NewSession is required") ++
  problem (match c_mode config, c_listener config with
           | modeLMTP, Some l => listenerPort (listener_Addr l) =? 25
           | _, _ => false
           end) ($"LMTP must not use TCP port 25") ++
  problem (c_binaryMIME config && negb (c_chunking config)) ($"BINARYMIME requires CHUNKING") ++
  problem (negb (validGreetingIdentity (c_greetingIdentity config)))
    ($"GreetingIdentity must be a domain or address-literal without whitespace") ++
  problem (c_commandTimeout config <=? 0) ($"CommandTimeout must be positive") ++
  problem (c_dataTimeout config <=? 0) ($"DataTimeout must be positive") ++
  problem (c_maxMessageBytes config <=? 0) ($"MaxMessageBytes must be positive") ++
  problem (c_maxRecipients config <? 100) ($"MaxRecipients must be at least 100") ++
  problem ((c_maxTransactions config <? 0) || (999999 <? c_maxTransactions config))
    ($"MaxTransactions must be between 0 and 999999") ++
  fst (validateAuthMechanisms ($"AuthMechanismsBeforeTLS") (c_authBefore config)) ++
  fst (validateAuthMechanisms ($"AuthMechanismsAfterTLS") (c_authAfter config)) ++
  (if c_chunking config then
     problem (c_maxSpoolBytes config <=? 0) ($"MaxSpoolBytes must be positive when CHUNKING is enabled") ++
     problem (c_maxSpoolMemoryBytes config <=? 0) ($"MaxSpoolMemoryBytes must be positive when CHUNKING is enabled") ++
     problem (c_maxTotalSpoolBytes config <=? 0) ($"MaxTotalSpoolBytes must be positive when CHUNKING is enabled") ++
     problem (c_maxTotalSpoolMemory config <=? 0)
       ($"MaxTotalSpoolMemoryBytes must be positive when CHUNKING is enabled") ++
     problem (c_maxConcurrentSpools config <=? 0) ($"MaxConcurrentSpools must be positive when CHUNKING is enabled")
   else []).

(** [validateConstruction]: the error ([None] is nil). *)
Definition validateConstruction (config : constructionConfig) : option bytes :=
  match construction_problems config with
  | [] => None
  | problems => Some (invalid_options problems)
  end.

(** ** NewServer *)

Definition internalMode (m : bytes) : listenerMode * bytes :=
  if beq m [] || beq m ModeSMTP then (modeSMTP, [])
  else if beq m ModeLMTP then (modeLMTP, [])
  else (modeSMTP, $"Mode must be smtp or lmtp").

(** [hostname] is what [os.Hostname] returns, [None] its error. *)
Definition localHostname (hostname : option bytes) : bytes :=
  match hostname with
  | Some h => if validGreetingIdentity h then h else $"localhost"
  | None => $"localhost"
  end.

(** [appendOptionProblem], also where NewServer writes it out. *)
Definition appendOptionProblem (current : option bytes) (text : bytes) : option bytes :=
  match current with
  | None => Some ($"smtpserver: invalid server options: " ++ text)
  | Some err => Some (err ++ $"; " ++ text)
  end.

Definition append_if (cond : bool) (current : option bytes) (text : bytes) : option bytes :=
  if cond then appendOptionProblem current text else current.

Record serverTimeouts : Type := { t_command : Z; t_data : Z }.

(** The Server; [srv_config] are the fields its sessions read. *)
Record Server : Type := {
  srv_listener : option Listener;
  srv_backend : option Backend;
  srv_config : serverConfig;
  srv_implicitTLS : bool;
  srv_spools : option spoolManager;
  srv_connections : connectionRegistry;
  srv_trace : bool;
  srv_timeouts : serverTimeouts;
  srv_served : bool
}.

Definition or_default (v d : Z) : Z := if v =? 0 then d else v.

(** The first part of NewServer: a copy of the options with the defaults filled in. *)
Definition with_defaults (hostname : option bytes) (value : ServerOptions) : ServerOptions :=
  {| o_Listener := o_Listener value; o_Backend := o_Backend value; o_Mode := o_Mode value;
     o_TLSConfig := o_TLSConfig value; o_ImplicitTLS := o_ImplicitTLS value;
     o_EnableCHUNKING := o_EnableCHUNKING value; o_EnableBINARYMIME := o_EnableBINARYMIME value;
     o_MaxSpoolBytes := o_MaxSpoolBytes value; o_MaxSpoolMemoryBytes := o_MaxSpoolMemoryBytes value;
     o_MaxTotalSpoolBytes := o_MaxTotalSpoolBytes value;
     o_MaxTotalSpoolMemoryBytes := o_MaxTotalSpoolMemoryBytes value;
     o_MaxConcurrentSpools := o_MaxConcurrentSpools value;
     o_MaxConnections := or_default (o_MaxConnections value) defaultMaxConnections;
     o_MaxConnectionsPerSource := or_default (o_MaxConnectionsPerSource value) defaultMaxConnectionsPerSource;
     o_GreetingIdentity :=
       if beq (o_GreetingIdentity value) [] then localHostname hostname else o_GreetingIdentity value;
     o_CommandTimeout := or_default (o_CommandTimeout value) defaultCommandTimeout;
     o_DataTimeout := or_default (o_DataTimeout value) defaultDataTimeout;
     o_MaxMessageBytes := or_default (o_MaxMessageBytes value) defaultMaxMessageBytes;
     o_MaxRecipients := or_default (o_MaxRecipients value) defaultMaxRecipients;
     o_MaxTransactions := or_default (o_MaxTransactions value) defaultMaxTransactions;
     o_RequireTLS := o_RequireTLS value; o_RequireAuth := o_RequireAuth value;
     o_AuthMechanismsBeforeTLS := Some (default [] (o_AuthMechanismsBeforeTLS value));
     o_AuthMechanismsAfterTLS := Some (default defaultAuthMechanismsAfterTLS (o_AuthMechanismsAfterTLS value));
     o_Trace := o_Trace value |}.

Definition mechanisms_before (value : ServerOptions) : list bytes := default [] (o_AuthMechanismsBeforeTLS value).
Definition mechanisms_after (value : ServerOptions) : list bytes := default [] (o_AuthMechanismsAfterTLS value).

Definition construction_config (value : ServerOptions) (mode : listenerMode) : constructionConfig :=
  {| c_listener := o_Listener value; c_mode := mode;
     c_backendNewSession := match o_Backend value with Some {| NewSession := Some _ |} => true | _ => false end;
     c_chunking := o_EnableCHUNKING value; c_binaryMIME := o_EnableBINARYMIME value;
     c_maxSpoolBytes := o_MaxSpoolBytes value; c_maxSpoolMemoryBytes := o_MaxSpoolMemoryBytes value;
     c_maxTotalSpoolBytes := o_MaxTotalSpoolBytes value; c_maxTotalSpoolMemory := o_MaxTotalSpoolMemoryBytes value;
     c_maxConcurrentSpools := o_MaxConcurrentSpools value; c_maxConnections := o_MaxConnections value;
     c_greetingIdentity := o_GreetingIdentity value; c_commandTimeout := o_CommandTimeout value;
     c_dataTimeout := o_DataTimeout value; c_maxMessageBytes := o_MaxMessageBytes value;
     c_maxRecipients := o_MaxRecipients value; c_maxTransactions := o_MaxTransactions value;
     c_authBefore := mechanisms_before value; c_authAfter := mechanisms_after value |}.

Definition spool_options (value : ServerOptions) : spoolOptions :=
  {| MaxBytes := o_MaxSpoolBytes value; MaxMemoryBytes := o_MaxSpoolMemoryBytes value;
     MaxTotalBytes := o_MaxTotalSpoolBytes value; MaxTotalMemoryBytes := o_MaxTotalSpoolMemoryBytes value;
     MaxConcurrent := o_MaxConcurrentSpools value |}.

(** The lists as [validateAuthMechanisms] leaves them. *)
Definition upper_before (value : ServerOptions) : list bytes :=
  snd (validateAuthMechanisms ($"AuthMechanismsBeforeTLS") (mechanisms_before value)).
Definition upper_after (value : ServerOptions) : list bytes :=
  snd (validateAuthMechanisms ($"AuthMechanismsAfterTLS") (mechanisms_after value)).

(** The message limit exceeds the spool. *)
Definition over_spool (value : ServerOptions) : bool :=
  o_EnableCHUNKING value && (0 <? o_MaxSpoolBytes value) && (o_MaxSpoolBytes value <? o_MaxMessageBytes value).

(** [hostname] is what [os.Hostname] returns. *)
Definition NewServer (hostname : option bytes) (given : option ServerOptions) : result bytes Server :=
  let original := default ZeroServerOptions given in
  let messageLimitExplicit := negb (o_MaxMessageBytes original =? 0) in
  let value := with_defaults hostname original in
  let '(mode, modeProblem) := internalMode (o_Mode value) in
  let err := validateConstruction (construction_config value mode) in
  let err := append_if (negb (beq modeProblem [])) err modeProblem in
  let err := append_if (o_ImplicitTLS value && negb (o_TLSConfig value)) err
               ($"TLSConfig is required for implicit TLS") in
  let err := append_if (o_RequireTLS value && negb (o_TLSConfig value)) err
               ($"TLSConfig is required when RequireTLS is enabled") in
  let err := append_if (o_RequireAuth value && (length (upper_before value) =? 0)%nat &&
                        (negb (o_TLSConfig value) || (length (upper_after value) =? 0)%nat)) err
               ($"RequireAuth needs an AUTH mechanism before TLS or an available TLS-authentication path") in
  let err := append_if (o_MaxConnections value <? 0) err ($"MaxConnections must not be negative") in
  let err := append_if (o_MaxConnectionsPerSource value <? 0) err
               ($"MaxConnectionsPerSource must not be negative") in
  let err := append_if (over_spool value && messageLimitExplicit) err
               ($"MaxMessageBytes must not exceed MaxSpoolBytes when CHUNKING is enabled") in
  let maxMessage :=
    if over_spool value && negb messageLimitExplicit then o_MaxSpoolBytes value else o_MaxMessageBytes value in
  match err with
  | Some e => Err e
  | None =>
      let? spools :=
        if o_EnableCHUNKING value then let? m := newSpoolManager (spool_options value) in Ok (Some m)
        else Ok None in
      Ok {| srv_listener := o_Listener value; srv_backend := o_Backend value;
            srv_config :=
              {| identity := o_GreetingIdentity value; server_mode := mode; ServerCaps.maxMessage := maxMessage;
                 maxRcpt := o_MaxRecipients value; maxTransactions_opt := o_MaxTransactions value;
                 chunking := o_EnableCHUNKING value; server_binaryMIME := o_EnableBINARYMIME value;
                 tlsConfigured := o_TLSConfig value; requireTLS := o_RequireTLS value;
                 requireAuth := o_RequireAuth value; authBefore := upper_before value;
                 authAfter := upper_after value |};
            srv_implicitTLS := o_ImplicitTLS value; srv_spools := spools;
            srv_connections := newConnectionRegistry (o_MaxConnections value) (o_MaxConnectionsPerSource value);
            srv_trace := o_Trace value;
            srv_timeouts := {| t_command := o_CommandTimeout value; t_data := o_DataTimeout value |};
            srv_served := false |}
  end.

(** ** Serving a connection *)

Definition publicMode (m : listenerMode) : bytes := match m with modeLMTP => ModeLMTP | modeSMTP => ModeSMTP end.

(** The handshake of an implicit-TLS listener, before the session; a plain listener has none. *)
Definition implicit_handshake (s : Server) (handshake : option (LineReader * bool)) :
    option (option (LineReader * bool)) :=
  if srv_implicitTLS s then Some handshake else None.

(** What the backend is told. *)
Definition conn_info (s : Server) (handshake : option (LineReader * bool)) (local remote : option net_addr) : ConnInfo :=
  {| ci_Mode := publicMode (server_mode (srv_config s)); ci_LocalAddr := local; ci_RemoteAddr := remote;
     ci_TLSState := match implicit_handshake s handshake with
                    | Some (Some (_, certificate)) => Some {| tls_done := true; tls_clientCertificate := certificate |}
                    | _ => None end |}.

(** [Server.serveConnection]: the session runs with the server's options. A server without CHUNKING
    has no spool manager: [unused] stands for the nil pointer its sessions carry and never use. A
    server from NewServer has a backend, so the last case (a nil dereference) does not arise. *)
Definition serve_connection `{RFC3339} `{Crypto} (s : Server) (fuel : nat) (e : env) (unused : spoolManager)
    (plaintext : LineReader) (handshake : option (LineReader * bool)) (local remote : option net_addr) : outcome :=
  match srv_backend s with
  | Some {| NewSession := Some newSession |} =>
      serveConnection fuel (srv_config s) e (srv_trace s) (default unused (srv_spools s)) plaintext
        (implicit_handshake s handshake) (newSession (conn_info s handshake local remote))
  | _ => Dropped
  end.

(** The server once a session has ended: the sessions of a server share its spool manager. *)
Definition after_session (s : Server) (st : commandSession) : Server :=
  {| srv_listener := srv_listener s; srv_backend := srv_backend s; srv_config := srv_config s;
     srv_implicitTLS := srv_implicitTLS s;
     srv_spools := match srv_spools s with Some _ => Some (spools st) | None => None end;
     srv_connections := srv_connections s; srv_trace := srv_trace s; srv_timeouts := srv_timeouts s;
     srv_served := srv_served s |}.
End Validation.

(** ** Every problem is reported *)

(** The accumulated error of a list of problems. *)
Definition errors_of (problems : list bytes) : option bytes :=
  match problems with [] => None | p :: ps => Some (invalid_options (p :: ps)) end.

Lemma join_snoc (ps : list bytes) t : ps <> [] -> joinProblems (ps ++ [t]) = joinProblems ps ++ $"; " ++ t.
Proof.
  unfold joinProblems. induction ps as [|p [|q ps] IH]; intros N; [done|done|].
  change (Join ((p :: q :: ps) ++ [t]) ($"; ")) with (p ++ $"; " ++ Join ((q :: ps) ++ [t]) ($"; ")).
  rewrite IH by done. change (Join (p :: q :: ps) ($"; ")) with (p ++ $"; " ++ Join (q :: ps) ($"; ")).
  by rewrite <- !app_assoc.
Qed.

Lemma append_errors cond ps t : append_if cond (errors_of ps) t = errors_of (ps ++ problem cond t).
Proof.
  unfold append_if, problem. destruct cond; [|by rewrite app_nil_r]. destruct ps as [|p ps]; [done|].
  cbn [errors_of appendOptionProblem app]. unfold invalid_options. rewrite app_comm_cons, join_snoc by done.
  by rewrite app_assoc.
Qed.

Section Construction.
Context `{Unicode} `{NetIP} (hostname : option bytes).

(** The checks of NewServer, in its order, as one list. *)
Definition option_problems (original : ServerOptions) : list bytes :=
  let value := with_defaults hostname original in
  let explicit := negb (o_MaxMessageBytes original =? 0) in
  let '(mode, modeProblem) := internalMode (o_Mode value) in
  construction_problems (construction_config value mode) ++
  problem (negb (beq modeProblem [])) modeProblem ++
  problem (o_ImplicitTLS value && negb (o_TLSConfig value)) ($"TLSConfig is required for implicit TLS") ++
  problem (o_RequireTLS value && negb (o_TLSConfig value)) ($"TLSConfig is required when RequireTLS is enabled") ++
  problem (o_RequireAuth value && (length (upper_before value) =? 0)%nat &&
           (negb (o_TLSConfig value) || (length (upper_after value) =? 0)%nat))
    ($"RequireAuth needs an AUTH mechanism before TLS or an available TLS-authentication path") ++
  problem (o_MaxConnections value <? 0) ($"MaxConnections must not be negative") ++
  problem (o_MaxConnectionsPerSource value <? 0) ($"MaxConnectionsPerSource must not be negative") ++
  problem (over_spool value && explicit)
    ($"MaxMessageBytes must not exceed MaxSpoolBytes when CHUNKING is enabled").

Lemma problem_nil cond t : problem cond t = [] <-> cond = false.
Proof. unfold problem. by destruct cond. Qed.

Lemma app_nil_iff {A} (a b : list A) : a ++ b = [] <-> a = [] /\ b = [].
Proof. split; [apply app_eq_nil|by intros [-> ->]]. Qed.

(** With CHUNKING the validation includes what the spool manager validates. *)
Lemma construction_spool value m : construction_problems (construction_config value m) = [] ->
  o_EnableCHUNKING value = true -> spool_problems (spool_options value) = [].
Proof.
  unfold construction_problems, spool_problems. intros P C. cbn [c_chunking construction_config] in P. rewrite C in P.
  do 12 (apply app_nil_iff in P as [_ P]). rewrite !app_nil_iff, !problem_nil in P. cbn in P |- *.
  destruct P as (-> & -> & -> & -> & ->). done.
Qed.

(** The server NewServer builds when there is no problem. *)
Definition built (original : ServerOptions) : Server :=
  let value := with_defaults hostname original in
  {| srv_listener := o_Listener value; srv_backend := o_Backend value;
     srv_config :=
       {| identity := o_GreetingIdentity value; server_mode := fst (internalMode (o_Mode value));
          ServerCaps.maxMessage :=
            if over_spool value && (o_MaxMessageBytes original =? 0) then o_MaxSpoolBytes value
            else o_MaxMessageBytes value;
          maxRcpt := o_MaxRecipients value; maxTransactions_opt := o_MaxTransactions value;
          chunking := o_EnableCHUNKING value; server_binaryMIME := o_EnableBINARYMIME value;
          tlsConfigured := o_TLSConfig value; requireTLS := o_RequireTLS value;
          requireAuth := o_RequireAuth value; authBefore := upper_before value; authAfter := upper_after value |};
     srv_implicitTLS := o_ImplicitTLS value;
     srv_spools := if o_EnableCHUNKING value
                   then Some {| opts := spool_options value; total := 0; totalMemory := 0; concurrent := 0 |} else None;
     srv_connections := newConnectionRegistry (o_MaxConnections value) (o_MaxConnectionsPerSource value);
     srv_trace := o_Trace value;
     srv_timeouts := {| t_command := o_CommandTimeout value; t_data := o_DataTimeout value |};
     srv_served := false |}.

Lemma NewServer_result given :
  NewServer hostname given =
  match option_problems (default ZeroServerOptions given) with
  | [] => Ok (built (default ZeroServerOptions given))
  | problems => Err (invalid_options problems)
  end.
Proof.
  set (original := default ZeroServerOptions given). unfold NewServer, option_problems. fold original. cbv zeta.
  unfold built. destruct (internalMode _) as [mode modeProblem] eqn:EM. cbn [fst].
  set (value := with_defaults hostname original) in *.
  change (validateConstruction (construction_config value mode))
    with (errors_of (construction_problems (construction_config value mode))).
  rewrite !append_errors, <- !app_assoc. rewrite negb_involutive.
  match goal with |- context [errors_of ?l] => destruct l as [|p ps] eqn:E end; [|done]. cbn [errors_of].
  apply app_nil_iff in E as [E _]. destruct (o_EnableCHUNKING value) eqn:C; [|done].
  unfold newSpoolManager. by rewrite (construction_spool _ _ E C).
Qed.
End Construction.

(** ** What a constructed server satisfies *)

Definition mechanism_byte (c : byte) : bool := is_upper c || is_digit c || (c =b "-"%byte).

(** A usable allowlist: names over the SASL alphabet, none twice. *)
Definition mechanisms_ok (l : list bytes) : Prop :=
  Forall (fun m => m <> [] /\ forallb mechanism_byte m = true) l /\ NoDup l.

Lemma mechanism_runes s : forallb (fun p => mechanism_rune (fst p)) (runes s) = true -> forallb mechanism_byte s = true.
Proof.
  destruct (runes_shape s) as [F C]. rewrite <- C at 2. clear C. intros G.
  induction (runes s) as [|[r enc] rs IH]; [done|]. cbn in *. rewrite forallb_app_eq.
  apply Forall_cons in F as [S F]. apply andb_true_iff in G as [Gr G]. rewrite IH by done. rewrite andb_true_r.
  unfold mechanism_rune in Gr. destruct S as [[R E]|[R E]]; cbn in *; [|lia].
  subst enc. cbn. rewrite andb_true_r. unfold mechanism_byte, is_upper, is_digit, in_range.
  assert (bz (zb r) = r) as B by (rewrite bz_zb, Z.mod_small; lia). rewrite byte_eqb_bz, B. blia.
Qed.

Lemma mem_iff x l : mem x l = true <-> x ∈ l.
Proof.
  unfold mem. rewrite existsb_exists. split.
  - intros (y & Hy & E). destruct (beq_spec x y) as [->|]; [|done]. by apply list_elem_of_In.
  - intros Hx. exists x. split; [by apply list_elem_of_In|apply beq_refl].
Qed.

Lemma check_mechanisms_ok `{Unicode} field i l seen : fst (check_mechanisms field i l seen) = [] ->
  let l' := snd (check_mechanisms field i l seen) in
  Forall (fun m => m <> [] /\ forallb mechanism_byte m = true) l' /\ NoDup l' /\
  (forall m, m ∈ l' -> m ∉ seen) /\ l' = map ToUpper l.
Proof.
  revert i seen. induction l as [|x l IH]; intros i seen P; [by cbn; split_and!; try constructor; intros m ?%elem_of_nil|].
  cbn [check_mechanisms] in *. destruct (beq_spec (ToUpper x) []) as [E|N]; [by destruct (check_mechanisms _ _ l seen)|].
  specialize (IH (S i) (ToUpper x :: seen)). destruct (check_mechanisms field (S i) l _) as [ps l'] eqn:C.
  cbn [fst snd] in *. apply app_nil_iff in P as [P1 P]. apply app_nil_iff in P as [P2 P3].
  apply problem_nil in P1, P2. apply negb_false_iff in P1. destruct (IH P3) as (F & D & S & E).
  split_and!.
  - constructor; [split; [done|by apply mechanism_runes]|done].
  - constructor; [|done]. intros X%S. apply X. by left.
  - intros m [->|Hm]%elem_of_cons.
    + intros X%mem_iff. by rewrite X in P2.
    + intros X. apply (S m Hm). by right.
  - by rewrite E.
Qed.

Lemma validated_mechanisms `{Unicode} field l : fst (validateAuthMechanisms field l) = [] ->
  mechanisms_ok (snd (validateAuthMechanisms field l)).
Proof. intros P. by destruct (check_mechanisms_ok field 0 l [] P) as (F & D & _). Qed.

Record server_ok `{Unicode} `{NetIP} (s : Server) : Prop := {
  s_identity : validGreetingIdentity (identity (srv_config s)) = true;
  s_timeouts : 0 < t_command (srv_timeouts s) /\ 0 < t_data (srv_timeouts s);
  s_message : 0 < ServerCaps.maxMessage (srv_config s);
  s_rcpt : 100 <= maxRcpt (srv_config s);
  s_transactions : 0 < maxTransactions_opt (srv_config s) <= 999999;
  s_before : mechanisms_ok (authBefore (srv_config s));
  s_after : mechanisms_ok (authAfter (srv_config s));
  s_listener : exists l, srv_listener s = Some l /\
    (server_mode (srv_config s) = modeLMTP -> listenerPort (listener_Addr l) <> 25);
  s_backend : exists f, srv_backend s = Some {| NewSession := Some f |};
  s_binary : server_binaryMIME (srv_config s) = true -> chunking (srv_config s) = true;
  s_requireTLS : requireTLS (srv_config s) = true -> tlsConfigured (srv_config s) = true;
  s_implicitTLS : srv_implicitTLS s = true -> tlsConfigured (srv_config s) = true;
  s_requireAuth : requireAuth (srv_config s) = true ->
    authBefore (srv_config s) <> [] \/ (tlsConfigured (srv_config s) = true /\ authAfter (srv_config s) <> []);
  s_spools :
    if chunking (srv_config s) then
      exists m, srv_spools s = Some m /\ newSpoolManager (opts m) = Ok m /\
                ServerCaps.maxMessage (srv_config s) <= MaxBytes (opts m)
    else srv_spools s = None;
  s_connections : exists mx ms, 0 < mx /\ 0 < ms /\ srv_connections s = newConnectionRegistry mx ms
}.

Section Accepted.
Context `{Unicode} `{NetIP}.

Lemma or_default_nonzero v d : 0 < d -> or_default v d <> 0.
Proof. unfold or_default. destruct (Z.eqb_spec v 0); lia. Qed.

Lemma built_ok hostname original : option_problems hostname original = [] -> server_ok (built hostname original).
Proof.
  unfold option_problems. set (value := with_defaults hostname original).
  destruct (internalMode (o_Mode value)) as [m mp] eqn:EM. intros P.
  apply app_nil_iff in P as [PC P]. pose proof (construction_spool value m PC) as SP.
  unfold construction_problems in PC.
  apply app_nil_iff in PC as [PL PC]. apply app_nil_iff in PC as [PB PC]. apply app_nil_iff in PC as [PLM PC].
  apply app_nil_iff in PC as [PBM PC]. apply app_nil_iff in PC as [PID PC]. apply app_nil_iff in PC as [PCT PC].
  apply app_nil_iff in PC as [PDT PC]. apply app_nil_iff in PC as [PMM PC]. apply app_nil_iff in PC as [PMR PC].
  apply app_nil_iff in PC as [PMT PC]. apply app_nil_iff in PC as [PAB PC]. apply app_nil_iff in PC as [PAA _].
  apply app_nil_iff in P as [_ P]. apply app_nil_iff in P as [PIT P]. apply app_nil_iff in P as [PRT P].
  apply app_nil_iff in P as [PRA P]. apply app_nil_iff in P as [PMC P]. apply app_nil_iff in P as [PMS PO].
  apply problem_nil in PL, PB, PLM, PBM, PID, PCT, PDT, PMM, PMR, PMT, PIT, PRT, PRA, PMC, PMS, PO.
  cbn [construction_config c_listener c_mode c_backendNewSession c_chunking c_binaryMIME c_greetingIdentity
       c_commandTimeout c_dataTimeout c_maxMessageBytes c_maxRecipients c_maxTransactions c_authBefore c_authAfter] in *.
  assert (0 < defaultMaxConnections /\ 0 < defaultMaxConnectionsPerSource /\ 0 < defaultMaxTransactions) as (D1 & D2 & D3)
    by done.
  assert (o_MaxConnections value <> 0 /\ o_MaxConnectionsPerSource value <> 0 /\ o_MaxTransactions value <> 0) as (N1 & N2 & N3)
    by (unfold value; cbn [o_MaxConnections o_MaxConnectionsPerSource o_MaxTransactions with_defaults]; split_and!; by apply or_default_nonzero).
  clear D1 D2 D3.
  assert (0 < o_CommandTimeout value /\ 0 < o_DataTimeout value /\ 0 < o_MaxMessageBytes value /\
    100 <= o_MaxRecipients value /\ 0 < o_MaxTransactions value <= 999999 /\ 0 < o_MaxConnections value /\
    0 < o_MaxConnectionsPerSource value) as (B1 & B2 & B3 & B4 & B5 & B6 & B7)
    by (clear - PCT PDT PMM PMR PMT PMC PMS N1 N2 N3; lia).
  split; unfold built; fold value;
    cbn [srv_config identity srv_timeouts t_command t_data ServerCaps.maxMessage maxRcpt maxTransactions_opt authBefore
         authAfter srv_listener server_mode srv_backend server_binaryMIME chunking requireTLS tlsConfigured
         srv_implicitTLS requireAuth srv_spools srv_connections].
  - by apply negb_false_iff in PID.
  - done.
  - unfold over_spool. destruct (Z.ltb_spec 0 (o_MaxSpoolBytes value)); [|by rewrite andb_false_r].
    by destruct (o_EnableCHUNKING value && _ && _ && _).
  - done.
  - done.
  - by apply validated_mechanisms.
  - by apply validated_mechanisms.
  - destruct (o_Listener value) as [l|]; [|done]. exists l. split; [done|]. rewrite EM. cbn [fst]. intros ->. clear - PLM. lia.
  - destruct (o_Backend value) as [[[f|]]|]; try done. by exists f.
  - intros E. rewrite E in PBM. cbn in PBM. by apply negb_false_iff in PBM.
  - intros E. rewrite E in PRT. cbn in PRT. by apply negb_false_iff in PRT.
  - intros E. rewrite E in PIT. cbn in PIT. by apply negb_false_iff in PIT.
  - intros E. rewrite E in PRA. cbn in PRA. destruct (upper_before value); [right|by left]. cbn in PRA.
    apply orb_false_iff in PRA as [T A]. apply negb_false_iff in T. split; [done|]. by destruct (upper_after value).
  - destruct (o_EnableCHUNKING value) eqn:C; [|done]. eexists. split; [reflexivity|]. split.
    + unfold newSpoolManager. cbn [opts]. by rewrite (SP eq_refl).
    + cbn [opts spool_options MaxBytes]. unfold over_spool in *. rewrite C in *. cbn [andb] in *.
      specialize (SP eq_refl). unfold spool_problems in SP. apply app_nil_iff in SP as [SP _].
      destruct (MaxBytes (spool_options value) <=? 0) eqn:Q; [done|]. cbn [spool_options MaxBytes] in Q.
      clear - Q PO. rewrite (proj2 (Z.ltb_lt 0 (o_MaxSpoolBytes value))) in * by lia. cbn [andb] in *.
      destruct (Z.ltb_spec (o_MaxSpoolBytes value) (o_MaxMessageBytes value)); [|done].
      cbn [andb] in *. by destruct (o_MaxMessageBytes original =? 0).
  - by exists (o_MaxConnections value), (o_MaxConnectionsPerSource value).
Qed.
End Accepted.

(** ** Theorems *)

Section Theorems.
Context `{Unicode} `{NetIP} (hostname : option bytes) (given : option ServerOptions).

(** C6: Type: a server NewServer returns is well formed: a valid greeting identity, positive timeouts and
    limits, a transaction limit RFC 9422 can announce, allowlists over the SASL alphabet without
    duplicates, a listener and a backend, no LMTP on port 25, BINARYMIME only with CHUNKING, TLS
    configured wherever it is required, some path to authentication where that is required, and with
    CHUNKING an idle spool manager whose options are valid and whose spool can hold the largest
    message. *)
Theorem NewServer_well_formed s : NewServer hostname given = Ok s -> server_ok s.
Proof.
  rewrite NewServer_result. destruct (option_problems _ _) eqn:E; [|done]. intros [= <-]. by apply built_ok.
Qed.

(** Errors: NewServer fails exactly when some check fails, with one error whose text lists the
    complaint of every failing check, in the order of the code. *)
Theorem NewServer_reports e :
  NewServer hostname given = Err e <->
  option_problems hostname (default ZeroServerOptions given) <> [] /\
  e = invalid_options (option_problems hostname (default ZeroServerOptions given)).
Proof.
  rewrite NewServer_result. destruct (option_problems _ _) as [|p ps]; [by split; [|intros [? _]]|].
  split; [by intros [= <-]|]. by intros [_ ->].
Qed.

Lemma idle_manager m : newSpoolManager (opts m) = Ok m ->
  0 < MaxBytes (opts m) /\ total m <= MaxTotalBytes (opts m) /\ totalMemory m <= MaxTotalMemoryBytes (opts m).
Proof.
  unfold newSpoolManager. destruct (spool_problems (opts m)) eqn:E; [|done]. intros [= Q].
  unfold spool_problems in E. rewrite <- Q. cbn [total totalMemory opts].
  destruct (Z.leb_spec (MaxBytes (opts m)) 0), (Z.leb_spec (MaxTotalBytes (opts m)) 0),
    (Z.leb_spec (MaxTotalMemoryBytes (opts m)) 0); try (by destruct (MaxMemoryBytes (opts m) <=? 0));
    split_and!; try lia; done.
Qed.

(** C5: The composition: on every connection of a server NewServer returned (with MaxMessageBytes below
    the largest int64), whatever the client sends, the backend answers and the transport does, the
    backend's session is the one it constructed for the connection's mode, addresses and TLS state,
    its calls are a run of the contract that ends closed, the session ends without an internal error,
    and the server is left as it was: everything taken from the spool manager was returned. *)
Theorem NewServer_serves `{RFC3339} `{Crypto} s fuel e unused plaintext handshake local remote st res :
  NewServer hostname given = Ok s -> ServerCaps.maxMessage (srv_config s) < MaxInt64 ->
  newSpoolManager (opts unused) = Ok unused ->
  ServeFacts.enough_fuel fuel e plaintext (implicit_handshake s handshake) ->
  serve_connection s fuel e unused plaintext handshake local remote = Served st res ->
  (exists f b p, srv_backend s = Some {| NewSession := Some f |} /\
    f (conn_info s handshake local remote) = Ok (Some b) /\
    promised (newConnection (srv_config s) b e (srv_trace s))
      (ServeFacts.start (ServeFacts.starts_tls (implicit_handshake s handshake))) (log st) = Some p /\ p_tx p = Closed) /\
  after_session s st = s /\ (forall err, res = Err err -> internal err = false).
Proof.
  intros N HM HU HF E. assert (server_ok s) as K.
  { rewrite NewServer_result in N. destruct (option_problems _ _) eqn:P; [|done]. injection N as <-. by apply built_ok. }
  destruct (s_backend _ K) as [f B]. unfold serve_connection in E. rewrite B in E.
  set (m := default unused (srv_spools s)) in *.
  assert (newSpoolManager (opts m) = Ok m) as Hm.
  { pose proof (s_spools _ K) as S. destruct (chunking _); [destruct S as (m' & S & Hm & _)|]; unfold m; by rewrite S. }
  assert (ServeFacts.configured (srv_config s) m) as C.
  { destruct (idle_manager m Hm) as (M1 & M2 & M3). split; [by apply K|]. pose proof (s_message _ K).
    split_and!; (done || lia). }
  destruct (ServeFacts.served _ _ _ _ _ _ _ _ _ _ C HF E) as (b & HB & (p & P & T) & S & _ & I).
  split_and!; [by exists f, b, p| |done].
  unfold after_session. rewrite S. unfold m. by destruct s as [? ? ? ? []].
Qed.
End Theorems.

(** ** A server *)

Module ServerSample.
#[local] Existing Instances ascii_only_unicode go_netip ParamFacts.no_times SaslFacts.toy_crypto.

Definition sample_options : ServerOptions :=
  {| o_Listener := Some {| listener_Addr := TCPAddr [x7f; x00; x00; x01] 2525 [] |};
     o_Backend := Some {| NewSession := Some (fun _ => Ok (Some backend)) |}; o_Mode := []; o_TLSConfig := true;
     o_ImplicitTLS := false; o_EnableCHUNKING := true; o_EnableBINARYMIME := true; o_MaxSpoolBytes := 4096;
     o_MaxSpoolMemoryBytes := 10; o_MaxTotalSpoolBytes := 10000; o_MaxTotalSpoolMemoryBytes := 100;
     o_MaxConcurrentSpools := 3; o_MaxConnections := 0; o_MaxConnectionsPerSource := 2;
     o_GreetingIdentity := $"[IPv6:2001:db8::1]"; o_CommandTimeout := 0; o_DataTimeout := 0; o_MaxMessageBytes := 0;
     o_MaxRecipients := 0; o_MaxTransactions := 0; o_RequireTLS := false; o_RequireAuth := true;
     o_AuthMechanismsBeforeTLS := Some [$"plain"]; o_AuthMechanismsAfterTLS := None; o_Trace := false |}.

Definition sample_server : Server := built None sample_options.

Lemma sample_accepted : NewServer None (Some sample_options) = Ok sample_server.
Proof. vm_compute. reflexivity. Qed.

(** The defaults, the limit reduced to the spool, and the allowlist in upper case. *)
Example sample_fields :
  ServerCaps.maxMessage (srv_config sample_server) = 4096 /\ maxRcpt (srv_config sample_server) = 100 /\
  authBefore (srv_config sample_server) = [$"PLAIN"] /\
  srv_connections sample_server = newConnectionRegistry 1000 2.
Proof. by vm_compute. Qed.

(** Nil options: everything missing is named at once. *)
Example nil_options :
  NewServer (Some ($"mail_host")) None =
  Err ($"smtpserver: invalid server options: Listener is required; Backend.NewSession is required").
Proof. by vm_compute. Qed.

Example bad_options :
  NewServer None (Some {| o_Listener := Some {| listener_Addr := OtherAddr ($"tcp") ($"[::]:25") |};
     o_Backend := Some {| NewSession := Some (fun _ => Ok (Some backend)) |}; o_Mode := ModeLMTP; o_TLSConfig := false;
     o_ImplicitTLS := false; o_EnableCHUNKING := false; o_EnableBINARYMIME := true; o_MaxSpoolBytes := 0;
     o_MaxSpoolMemoryBytes := 0; o_MaxTotalSpoolBytes := 0; o_MaxTotalSpoolMemoryBytes := 0;
     o_MaxConcurrentSpools := 0; o_MaxConnections := -1; o_MaxConnectionsPerSource := 0;
     o_GreetingIdentity := []; o_CommandTimeout := 0; o_DataTimeout := 0; o_MaxMessageBytes := 0;
     o_MaxRecipients := 99; o_MaxTransactions := 0; o_RequireTLS := true; o_RequireAuth := false;
     o_AuthMechanismsBeforeTLS := Some [$"PLAIN"; []; $"plain"; $"X Y"]; o_AuthMechanismsAfterTLS := None;
     o_Trace := false |}) =
  Err ($"smtpserver: invalid server options: LMTP must not use TCP port 25; BINARYMIME requires CHUNKING; " ++
       $"MaxRecipients must be at least 100; AuthMechanismsBeforeTLS contains an empty mechanism; " ++
       $"AuthMechanismsBeforeTLS contains duplicate mechanism PLAIN; " ++
       $"AuthMechanismsBeforeTLS contains an invalid mechanism at index 3; " ++
       $"TLSConfig is required when RequireTLS is enabled; MaxConnections must not be negative").
Proof. by vm_compute. Qed.

Lemma NewServer_well_formed_witness :
  NewServer None (Some sample_options) = Ok sample_server /\ server_ok sample_server.
Proof. split; [exact sample_accepted|]. exact (NewServer_well_formed None (Some sample_options) _ sample_accepted). Defined.

Abbreviation sample_outcome :=
  (serve_connection sample_server 300 quiet spools0 (input dialogue) None None
     (Some (TCPAddr [x7f; x00; x00; x01] 40000 []))).

Lemma sample_outcome_served : sample_outcome = Served (final_of sample_outcome) (Ok tt).
Proof. apply served_ok. vm_compute. reflexivity. Qed.

Lemma NewServer_serves_witness :
  newSpoolManager (opts spools0) = Ok spools0 /\ after_session sample_server (final_of sample_outcome) = sample_server.
Proof.
  split; [reflexivity|].
  assert (ServeFacts.enough_fuel 300 quiet (input dialogue) None) as HF by (vm_compute; lia).
  exact (proj1 (proj2 (NewServer_serves None (Some sample_options) sample_server 300 quiet spools0 (input dialogue) None
    None (Some (TCPAddr [x7f; x00; x00; x01] 40000 [])) _ _ sample_accepted eq_refl eq_refl HF sample_outcome_served))).
Defined.
End ServerSample.
