(* ===== verification/Memory.v ===== *)
(** * smtpserver/memory: the in-memory sink

    memory.go: the backend the repository ships for tests and development, as a [backendSession] of
    the server's model. The closures of a session share [sessionState]; in the model a callback sees
    the log of the calls before it, so the state is what those calls made of it ([mem_step] folds
    them), and a call's own effect is recorded by its event. The sink is a mutex-protected list all
    sessions append to: [snd] of the fold is what one session appended, in order. [room] is the
    free capacity [io.ReadAll] reads into, which the runtime chooses, and [bound] is more reads than
    it makes. *)
From Stdlib Require Import ZArith Lia Bool.
From stdpp Require Import base list gmap strings.
From S2P Require Import Prelude GoStrings Wire DotStuff Sasl Reply Command Path Core ServerState ServerData ServerParams.
From S2P Require Import ServerCaps ServerSession Spool SessionFacts SessionContract SessionTheorems SessionLog ServerConfig.
Import Contract Logs ServeFacts Guarantees Samples DotStuff.Spec DotStuff.Reader ReaderFacts DataFacts.

(** ** The sink *)

Record Message : Type := {
  m_Mode : listenerMode;
  ReversePath : bytes;
  Recipients : list bytes;
  Data : bytes
}.

Record sessionState : Type := {
  ms_mode : listenerMode;
  reverse : bytes;
  ms_recipients : list bytes;
  ms_open : bool;
  ms_closed : bool
}.

(** [newSession]: the state and an untouched sink. *)
Definition new_state (mode : listenerMode) : sessionState :=
  {| ms_mode := mode; reverse := []; ms_recipients := []; ms_open := false; ms_closed := false |}.

Definition observations : Type := list (bytes * option data_err).

(** [io.ReadAll] on what its reads returned: everything up to the first error, which [io.EOF] makes
    a success. *)
Definition ReadAll (obs : observations) : option bytes :=
  match last obs with
  | Some (_, Some e) => if is_EOF e then Some (concat (map fst obs)) else None
  | _ => None
  end.

(** [!s.open || len(s.recipients) == 0] *)
Definition no_recipient (st : sessionState) : bool := negb (ms_open st) || (length (ms_recipients st) =? 0)%nat.

Definition mem_mail (st : sessionState) (reversePath : bytes) : sessionState * option backend_err :=
  if ms_closed st then (st, Some Opaque)
  else ({| ms_mode := ms_mode st; reverse := reversePath; ms_recipients := []; ms_open := true;
           ms_closed := ms_closed st |}, None).

Definition mail_required : smtp.Error :=
  {| smtp.Code := 503; smtp.Enhanced := status 5 5 1; smtp.Text := $"MAIL required"; smtp.Command := $"RCPT";
     smtp.Cause := None |}.

Definition mem_rcpt (st : sessionState) (recipient : bytes) : sessionState * option backend_err :=
  if negb (ms_open st) then (st, Some (Protocol mail_required))
  else ({| ms_mode := ms_mode st; reverse := reverse st; ms_recipients := ms_recipients st ++ [recipient];
           ms_open := ms_open st; ms_closed := ms_closed st |}, None).

(** One reply of a delivery. *)
Definition mem_ok (recipient : bytes) : smtp.RecipientResult :=
  {| smtp.RRecipient := recipient; smtp.RCommand := $"DATA"; smtp.RCode := 250; smtp.REnhanced := status 2 0 0;
     smtp.RText := $"OK" |}.

Definition mem_results (st : sessionState) : list smtp.RecipientResult :=
  match ms_mode st with modeLMTP => map mem_ok (ms_recipients st) | modeSMTP => [mem_ok []] end.

(** [data] once it has read: the message for the sink, and what it returns. *)
Definition mem_data (st : sessionState) (obs : observations) :
    option Message * (list smtp.RecipientResult * option backend_err) :=
  if no_recipient st then (None, ([], Some Opaque))
  else match ReadAll obs with
       | None => (None, ([], Some Opaque))
       | Some data =>
           (Some {| m_Mode := ms_mode st; ReversePath := reverse st; Recipients := ms_recipients st; Data := data |},
            (mem_results st, None))
       end.

Definition mem_reset (st : sessionState) : sessionState :=
  {| ms_mode := ms_mode st; reverse := []; ms_recipients := []; ms_open := false; ms_closed := ms_closed st |}.

Definition mem_close (st : sessionState) : sessionState :=
  if ms_closed st then st
  else {| ms_mode := ms_mode st; reverse := []; ms_recipients := []; ms_open := false; ms_closed := true |}.

(** What a call made of the session's state and of the sink. *)
Definition mem_step (w : sessionState * list Message) (e : event) : sessionState * list Message :=
  let '(st, sink) := w in
  match e with
  | CallMail reversePath _ _ => (fst (mem_mail st reversePath), sink)
  | CallRcpt recipient _ _ _ => (fst (mem_rcpt st recipient), sink)
  | CallData obs =>
      (st, match fst (mem_data st obs) with Some m => sink ++ [m] | None => sink end)
  | CallReset _ => (mem_reset st, sink)
  | CallClose => (mem_close st, sink)
  | _ => w
  end.

Section Backend.
Context (mode : listenerMode) (room : observations -> nat) (bound : nat).

Definition mem_run (calls : list event) : sessionState * list Message :=
  fold_left mem_step calls (new_state mode, []).
Definition state_of (calls : list event) : sessionState := fst (mem_run calls).
Definition stored (calls : list event) : list Message := snd (mem_run calls).

Definition read_failed (obs : observations) : bool :=
  match last obs with Some (_, Some _) => true | _ => false end.

(** [data]: reads to the first error, unless it refuses at once. *)
Definition mem_dataBackend (st : sessionState) : dataBackend :=
  {| rounds := bound;
     next_read := fun obs => if no_recipient st || read_failed obs then None else Some (room obs);
     returns := fun obs => snd (mem_data st obs) |}.

Definition mem_declaration : Session :=
  {| ParameterExtensions := []; SessionLimits := None; has_Mail := true; has_Rcpt := true; has_Data := true;
     has_Reset := true; has_Close := true; has_Authenticate := false; has_ChallengeResponse := false;
     has_SCRAMCredentials := false; has_CommitAuth := false; has_ATRN := false |}.

(** The session [Sink.newSession] returns. *)
Definition memory_session : backendSession :=
  {| be_decl := mem_declaration;
     be_Mail := fun calls reversePath _ => snd (mem_mail (state_of calls) reversePath);
     be_Rcpt := fun calls recipient _ => (snd (mem_rcpt (state_of calls) recipient), []);
     be_Data := fun calls => mem_dataBackend (state_of calls);
     be_Verify := None; be_Expand := None; be_Help := None; be_ETRN := None;
     be_ATRN := fun _ _ => Err Opaque; be_Authenticate := fun _ _ => Err Opaque;
     be_ChallengeResponse := fun _ _ => Err Opaque; be_SCRAMCredentials := fun _ _ => Err Opaque |}.

(** [Sink.newSession]: the mode is that of the connection; every comparison in the package is with
    [ModeLMTP], so any other text counts as SMTP. *)
Definition mem_mode (info : ConnInfo) : listenerMode := if beq (ci_Mode info) ModeLMTP then modeLMTP else modeSMTP.

Lemma mem_run_snoc calls e : mem_run (calls ++ [e]) = mem_step (mem_run calls) e.
Proof. unfold mem_run. by rewrite fold_left_app. Qed.
End Backend.

Definition newSession (room : observations -> nat) (bound : nat) (info : ConnInfo) :
    result backend_err (option backendSession) := Ok (Some (memory_session (mem_mode info) room bound)).

(** [New]: the backend over a fresh sink. *)
Definition memory_backend (room : observations -> nat) (bound : nat) : Backend :=
  {| NewSession := Some (newSession room bound) |}.

(** ** Reading to the end *)

(** A reader that yields [s] and then ends with [E]: [P] relates it to what is left. *)
Section ReadAll.
Context (P : trackedDataReader -> bytes -> Prop) (E : data_err).
Context (Hstep : forall t s len, P t s -> (0 < len)%nat ->
  exists bs t' e, tracked_read t len = Some (bs, t', e) /\
    match e with
    | None => bs <> [] /\ exists s', s = bs ++ s' /\ P t' s'
    | Some e => bs = [] /\ s = [] /\ e = E /\ (is_EOF E = true -> exhausted t' = true)
    end).
Context (st : sessionState) (room : observations -> nat) (bound : nat) (Hroom : forall obs, (0 < room obs)%nat)
  (Hrcpt : no_recipient st = false).
Let b := mem_dataBackend room bound st.

Lemma reads_to_end n t s obs0 : P t s -> (length s < n)%nat -> read_failed obs0 = false ->
  exists obs t', reads_from b n t obs0 = Some (obs0 ++ obs, t') /\ concat (map fst obs) = s /\
    last (obs0 ++ obs) = Some ([], Some E) /\ (is_EOF E = true -> exhausted t' = true).
Proof.
  revert t s obs0. induction n as [|n IH]; intros t s obs0 Ht L F; [lia|]. cbn [reads_from next_read b mem_dataBackend].
  rewrite Hrcpt, F. cbn [orb]. destruct (Hstep t s (room obs0) Ht (Hroom obs0)) as (bs & t' & [e|] & -> & H).
  - destruct H as (-> & -> & -> & Hx). exists [([], Some E)], t'. split_and!; [|done|by rewrite last_snoc|done].
    destruct n as [|n]; cbn [reads_from next_read b mem_dataBackend]; [done|].
    unfold read_failed. rewrite last_snoc, orb_true_r. done.
  - destruct H as (N & s' & -> & Ht'). rewrite length_app in L. destruct bs as [|c bs]; [done|].
    destruct (IH t' s' (obs0 ++ [(c :: bs, None)]) Ht' ltac:(cbn in L; lia)) as (obs & t2 & -> & C & La & Hx).
    { unfold read_failed. by rewrite last_snoc. }
    exists ((c :: bs, None) :: obs), t2. rewrite <- app_assoc in La. cbn [app] in La.
    split_and!; [by rewrite <- app_assoc| |done|done]. cbn [map concat fst]. by rewrite C.
Qed.

Lemma backend_reads_all t s : P t s -> (length s < bound)%nat ->
  exists obs t', backend_reads t b = Some (obs, t') /\ concat (map fst obs) = s /\
    last obs = Some ([], Some E) /\ (is_EOF E = true -> exhausted t' = true).
Proof. intros Ht L. exact (reads_to_end bound t s [] Ht L eq_refl). Qed.
End ReadAll.

(** *** BDAT: spooled octets behind the Received field *)

Definition spool_left (t : trackedDataReader) (s : bytes) : Prop :=
  exists c, source t = ContentSpool c /\ s = header t ++ c.

Lemma take_drop_split {A} (l : list A) n : (0 < n)%nat -> l <> [] -> take n l <> [] /\ l = take n l ++ drop n l.
Proof. intros H N. split; [destruct l, n; (done || lia)|by rewrite take_drop]. Qed.

Lemma spool_left_step t s len : spool_left t s -> (0 < len)%nat ->
  exists bs t' e, tracked_read t len = Some (bs, t', e) /\
    match e with
    | None => bs <> [] /\ exists s', s = bs ++ s' /\ spool_left t' s'
    | Some e => bs = [] /\ s = [] /\ e = DWire (ErrIO EOF) /\ (is_EOF (DWire (ErrIO EOF)) = true -> exhausted t' = true)
    end.
Proof.
  intros (c & Hs & ->) Hl. unfold tracked_read, spool_left. destruct (header t) as [|h hs] eqn:Hh.
  - rewrite Hs. unfold content_read. destruct c as [|x c].
    + do 3 eexists. split; [done|]. split_and!; try done. intros _. cbn. apply orb_true_r.
    + destruct (take_drop_split (x :: c) len Hl ltac:(done)) as [N S].
      do 3 eexists. split; [done|]. split; [done|]. exists (drop len (x :: c)). split; [exact S|]. by eexists.
  - destruct (take_drop_split (h :: hs) len Hl ltac:(done)) as [N S].
    do 3 eexists. split; [done|]. split; [done|]. exists (drop len (h :: hs) ++ c).
    split; [by rewrite app_assoc, <- S|]. exists c. by rewrite Hs.
Qed.

(** *** DATA: the unstuffed message within the size limit *)
Section Limit.
Context (D0 R : bytes) (E : wire_err) (max : Z) (Hmax : 0 <= max < MaxInt64).

Lemma size_read_within r k len : at_pos D0 R E max r k -> exceeded r = false -> Z.of_nat (length D0) <= max ->
  (0 < len)%nat ->
  exists bs r' e, size_read r len = Some (bs, r', e) /\ exceeded r' = false /\
    match e with
    | None => bs <> [] /\ exists k', at_pos D0 R E max r' k' /\ drop k D0 = bs ++ drop k' D0
    | Some e => bs = [] /\ drop k D0 = [] /\ e = DWire E
    end.
Proof.
  intros Hp Hx HD Hl. destruct (size_read_spec D0 R E max Hmax r k len Hp) as (bs & r' & e & k' & HR & Hp' & Hk & HN & HE & _).
  exists bs, r', e. split; [done|].
  assert (exceeded r' = false) as Hx'.
  { destruct (exceeded r') eqn:Q; [|done]. destruct Hp' as (_ & _ & _ & B). rewrite Q in B. lia. }
  split; [done|]. destruct Hp as (HU & Hk0 & _ & B). rewrite Hx in B. destruct B as [B1 B2].
  unfold size_read in HR. rewrite Hx in HR. destruct (read_limit r len) as [limit|] eqn:HL; [|done].
  pose proof (Read_spec (reader r) limit _ _ _ HU) as F. destruct (Read (reader r) limit) as [[out d'] e0].
  destruct F as (-> & HU' & HN' & HS').
  destruct (Z.leb_spec (Z.of_nat (length (take limit (drop k D0)))) (remain r)) as [Q|Q].
  - injection HR as <- <- <-. destruct e0 as [w|]; cbn [fmap option_fmap option_map].
    + destruct (HS' w eq_refl) as (-> & -> & _). split_and!; try done. by rewrite take_nil.
    + assert (drop k D0 <> []) as ND.
      { apply HN'; [done|]. unfold read_limit in HL. rewrite wrap64_id in HL by (unfold MaxInt64 in Hmax; lia).
        repeat case_match; simplify_eq; lia. }
      assert (0 < limit)%nat as L0.
      { unfold read_limit in HL. rewrite wrap64_id in HL by (unfold MaxInt64 in Hmax; lia).
        repeat case_match; simplify_eq; lia. }
      destruct (take_drop_split (drop k D0) limit L0 ND) as [N S]. split; [done|].
      assert (drop limit (drop k D0) = drop (Nat.min (k + limit) (length D0)) D0) as DM.
      { rewrite drop_drop. destruct (decide (k + limit <= length D0)%nat); [by rewrite Nat.min_l|].
        rewrite Nat.min_r by lia. rewrite !drop_ge; (done || lia). }
      exists (Nat.min (k + limit) (length D0)). split.
      * unfold at_pos. cbn [reader exceeded remain reported]. rewrite HU', DM. split_and!.
        -- done.
        -- lia.
        -- destruct Hp' as (_ & _ & Q' & _). cbn in Q'. by rewrite Q'.
        -- rewrite length_take, length_drop in *. lia.
        -- lia.
      * rewrite S at 1. by rewrite DM.
  - rewrite length_take, length_drop in Q. exfalso. clear HR.
    assert (Z.of_nat limit <= remain r + 1); [|lia].
    unfold read_limit in HL. rewrite wrap64_id in HL by (unfold MaxInt64 in Hmax; lia).
    repeat case_match; simplify_eq; lia.
Qed.

(** What is left of a message, within the limit. *)
Definition data_left (t : trackedDataReader) (s : bytes) : Prop :=
  exists r k, source t = ContentData r /\ at_pos D0 R E max r k /\ exceeded r = false /\ s = header t ++ drop k D0.

Lemma data_left_step t s len : Z.of_nat (length D0) <= max -> data_left t s -> (0 < len)%nat ->
  exists bs t' e, tracked_read t len = Some (bs, t', e) /\
    match e with
    | None => bs <> [] /\ exists s', s = bs ++ s' /\ data_left t' s'
    | Some e => bs = [] /\ s = [] /\ e = DWire E /\ (is_EOF (DWire E) = true -> exhausted t' = true)
    end.
Proof.
  intros HD (r & k & Hs & Hp & Hx & ->) Hl. unfold tracked_read. destruct (header t) as [|h hs] eqn:Hh.
  - rewrite Hs. cbn [content_read]. destruct (size_read_within r k len Hp Hx HD Hl) as (bs & r' & e & -> & Hx' & H).
    do 3 eexists. split; [done|]. destruct e as [e|].
    + destruct H as (-> & Q & ->). split_and!; try done. intros ->. cbn. apply orb_true_r.
    + destruct H as (N & k' & Hp' & S). split; [done|]. exists (drop k' D0). split; [done|]. by exists r', k'.
  - destruct (take_drop_split (h :: hs) len Hl ltac:(done)) as [N S].
    do 3 eexists. split; [done|]. split; [done|]. exists (drop len (h :: hs) ++ drop k D0).
    split; [by rewrite app_assoc, <- S|]. exists r, k. by rewrite Hs.
Qed.
End Limit.

(** ** What a delivery does *)

Lemma mem_step_mode w e : ms_mode (fst (mem_step w e)) = ms_mode (fst w).
Proof.
  destruct w as [st sink], e; try done; cbn; unfold mem_mail, mem_rcpt, mem_close; repeat case_match; done.
Qed.

Lemma state_of_mode mode calls : ms_mode (state_of mode calls) = mode.
Proof.
  unfold state_of. induction calls as [|e calls IH] using rev_ind; [done|].
  by rewrite mem_run_snoc, mem_step_mode.
Qed.

Lemma stored_data mode calls obs :
  stored mode (calls ++ [CallData obs]) =
  stored mode calls ++ match fst (mem_data (state_of mode calls) obs) with Some m => [m] | None => [] end.
Proof.
  unfold stored, state_of. rewrite mem_run_snoc. destruct (mem_run mode calls) as [st sink]. cbn.
  destruct (fst (mem_data st obs)); [done|by rewrite app_nil_r].
Qed.

Lemma normalize_ok i rs : normalize_results i (map mem_ok rs) = (map mem_ok rs, []).
Proof.
  revert i. induction rs as [|r rs IH]; intros i; [done|]. cbn [map normalize_results]. by rewrite IH.
Qed.

Lemma names_match_ok rs : names_match (map mem_ok rs) rs = true.
Proof. induction rs as [|r rs IH]; [done|]. cbn. by rewrite beq_refl, IH. Qed.

Section Delivery.
Context (mode : listenerMode) (room : observations -> nat) (bound : nat) (calls : list event) (command : bytes).
Context (Hroom : forall obs, (0 < room obs)%nat).
Let st := state_of mode calls.
Let b := be_Data (memory_session mode room bound) calls.
Context (Hrcpt : no_recipient st = false).

Lemma mem_delivered t obs t1 data :
  backend_reads t b = Some (obs, t1) -> ReadAll obs = Some data -> exhausted t1 = true ->
  exists ev, evaluateDataCall mode (ms_recipients st) command t b = Some (ev, t1) /\
    completed ev = true /\ closeConnection ev = false /\ defect ev = [] /\ ev_result ev = mem_results st /\
    stored mode (calls ++ [CallData obs]) =
      stored mode calls ++ [{| m_Mode := mode; ReversePath := reverse st; Recipients := ms_recipients st; Data := data |}].
Proof.
  intros HB HR Hx. unfold evaluateDataCall. rewrite HB. cbn [returns b be_Data memory_session mem_dataBackend].
  rewrite stored_data. fold st. unfold mem_data. rewrite Hrcpt, HR. cbn [fst snd]. rewrite Hx. cbn [negb orb].
  unfold no_recipient in Hrcpt. destruct (ms_recipients st) as [|r rs] eqn:ER; [by rewrite orb_true_r in Hrcpt|].
  assert (ms_mode st = mode) as EM by apply state_of_mode. unfold mem_results, validateDataOutcome. rewrite EM, ER.
  destruct mode.
  - by eexists.
  - rewrite length_map, Nat.eqb_refl. cbn [negb]. rewrite names_match_ok. cbn [negb]. rewrite normalize_ok.
    by eexists.
Qed.

Lemma mem_undelivered t obs t1 ev t' :
  backend_reads t b = Some (obs, t1) -> ReadAll obs = None ->
  evaluateDataCall mode (ms_recipients st) command t b = Some (ev, t') ->
  existsb smtp.Accepted (ev_result ev) = false /\ completed ev = false /\
  stored mode (calls ++ [CallData obs]) = stored mode calls.
Proof.
  intros HB HR HE. unfold evaluateDataCall in HE. rewrite HB in HE.
  cbn [returns b be_Data memory_session mem_dataBackend] in HE.
  rewrite stored_data. fold st in HE |- *. unfold mem_data in *. rewrite Hrcpt, HR in *. cbn [fst snd] in *. rewrite app_nil_r.
  unfold no_recipient in Hrcpt. destruct (ms_recipients st) as [|r rs] eqn:ER; [by rewrite orb_true_r in Hrcpt|].
  cbv beta iota zeta in HE. unfold validateDataOutcome in HE. cbn [closeConnection] in HE.
  match type of HE with match ?x with _ => _ end = _ => destruct x as [[t2 [e|]]|]; [by injection HE as <- <-| |done] end.
  destruct (negb (exhausted t1)); cbn [orb] in HE; injection HE as <- <-; cbn [ev_result completed].
  - split_and!; [apply demote_map|by destruct (existsb _ _)|done].
  - split_and!; [apply temporary_shape|done|done].
Qed.
End Delivery.

(** ** Theorems *)

Section Theorems.
Context (mode : listenerMode) (room : observations -> nat) (bound : nat) (calls : list event).
Context (Hroom : forall obs, (0 < room obs)%nat).
Abbreviation st := (state_of mode calls).
Abbreviation sink_data := (be_Data (memory_session mode room bound) calls).

(** A read that is not the end of a proper message within the limit stops [io.ReadAll] with an error. *)
Lemma readall_fails D0 R E max n t k obs0 obs t1 : 0 <= max < MaxInt64 ->
  track_pos D0 R E max t k -> over t = false -> E <> ErrIO EOF \/ max < Z.of_nat (length D0) ->
  read_failed obs0 = false -> no_recipient st = false ->
  reads_from sink_data n t obs0 = Some (obs, t1) -> ReadAll obs = None.
Proof.
  intros Hm Ht Ho HE F HN. revert t k obs0 Ht Ho F. induction n as [|n IH]; intros t k obs0 Ht Ho F H; cbn [reads_from] in H.
  - injection H as <- <-. unfold ReadAll, read_failed in *. by destruct (last obs0) as [[bs [e|]]|].
  - cbn [next_read be_Data memory_session mem_dataBackend] in H. rewrite HN, F in H. cbn [orb] in H.
    destruct (tracked_read_spec D0 R E max Hm t k (room obs0) Ht) as (bs & t2 & e & k2 & HT & Ht2 & _ & _ & _ & HEr & _).
    rewrite HT in H. destruct e as [e|].
    + assert (is_EOF e = false) as NE.
      { destruct (HEr e eq_refl) as [(-> & r' & Hr' & Hend)|(-> & _)]; [|done].
        destruct HE as [HE|HE]; [destruct (is_EOF (DWire E)) eqn:Q; [apply is_EOF_inv in Q; congruence|done]|].
        exfalso. pose proof (at_end_exceeded D0 R E max _ Hend) as X.
        revert HT. destruct Ht as (r & Hs & Hp & _). unfold tracked_read, over in *. rewrite Hs in *.
        destruct (header t); [|done]. cbn [content_read].
        destruct (size_read_spec D0 R E max Hm r k (room obs0) Hp) as (bs' & r2 & e2 & k' & -> & _ & _ & _ & HE2 & _).
        intros [= -> <- ->]. cbn in Hr'. injection Hr' as ->.
        destruct (HE2 _ eq_refl) as [(_ & _ & Q)|(Q & _)]; [|done]. rewrite Q, Ho in X. lia. }
      assert (obs = obs0 ++ [(bs, Some e)]) as ->.
      { destruct n as [|n]; cbn [reads_from next_read be_Data memory_session mem_dataBackend] in H; [by injection H|].
        unfold read_failed in H. rewrite last_snoc, orb_true_r in H. by injection H. }
      unfold ReadAll. by rewrite last_snoc, NE.
    + apply (IH t2 k2 (obs0 ++ [(bs, None)])); try done; [|unfold read_failed; by rewrite last_snoc].
      revert HT. unfold tracked_read, over in *. destruct Ht as (r & Hs & Hp & _). rewrite Hs in *.
      destruct (header t); [|by intros [= _ <-]]. cbn [content_read].
      destruct (size_read r (room obs0)) as [[[bs' r2] e2]|] eqn:HS; [|done]. intros [= -> <- ->]. cbn [source].
      unfold size_read in HS. rewrite Ho in HS. destruct (read_limit r (room obs0)); [|done].
      destruct (Read (reader r) n0) as [[out d] e3]. destruct (_ <=? _); [by injection HS as _ <- _|].
      destruct (negb (reported r)) eqn:Rp; [done|]. destruct Hp as (_ & _ & Q & _). rewrite Q, Ho in Rp. done.
Qed.

(** A message delivered by DATA: the sink appends it exactly when it ended properly and is within the
    size limit, with the session's mode, the reverse path and the recipients of the transaction in
    RCPT order, and the Received field followed by the unstuffed content; every recipient is then
    answered 250. Otherwise nothing is stored and no recipient is told success. *)
Theorem memory_stores_DATA h lr0 max : 0 <= max < MaxInt64 -> no_recipient st = false ->
  let '(D, R, E) := unstuff (final lr0) true false (unread lr0) in
  (length h + length D < bound)%nat ->
  let t := {| header := h; source := ContentData (newSizeEnforcingReader (NewDotUnstuffReader lr0) max);
              exhausted := false |} in
  exists ev t' obs t1,
    evaluateDataCall mode (ms_recipients st) ($"DATA") t sink_data = Some (ev, t') /\
    backend_reads t sink_data = Some (obs, t1) /\
    if is_EOF (DWire E) && (Z.of_nat (length D) <=? max) then
      ev_result ev = mem_results st /\ completed ev = true /\ defect ev = [] /\
      stored mode (calls ++ [CallData obs]) =
        stored mode calls ++ [{| m_Mode := mode; ReversePath := reverse st; Recipients := ms_recipients st; Data := h ++ D |}]
    else existsb smtp.Accepted (ev_result ev) = false /\ stored mode (calls ++ [CallData obs]) = stored mode calls.
Proof.
  intros Hm HN. destruct (unstuff _ _ _ _) as [[D R] E] eqn:HU. intros HB t.
  assert (at_pos D R E max (newSizeEnforcingReader (NewDotUnstuffReader lr0) max) 0) as Hp.
  { unfold at_pos. cbn. rewrite drop_0. split_and!; (done || lia). }
  assert (track_pos D R E max t 0) as Ht by by eexists.
  destruct (evaluate_spec D R E max Hm mode (ms_recipients st) ($"DATA") t 0 sink_data Ht eq_refl) as (ev & t' & _ & HE & _).
  destruct (backend_reads_spec D R E max Hm t 0 sink_data Ht) as (obs & t1 & k1 & HR & _).
  destruct (is_EOF (DWire E)) eqn:EE, (Z.leb_spec (Z.of_nat (length D)) max) as [L|L]; cbn [andb].
  2-4: exists ev, t', obs, t1; split_and!; try done;
    assert (ReadAll obs = None) as RA by
      (apply (readall_fails D R E max bound t 0 [] obs t1); try done; (by right) || (left; by intros ->));
    by destruct (mem_undelivered mode room bound calls ($"DATA") HN t obs t1 ev t' HR RA HE) as (A & _ & S).
  destruct (backend_reads_all (data_left D R E max) (DWire E) (fun t s len => data_left_step D R E max Hm t s len L)
    st room bound Hroom HN t (h ++ D)) as (obs' & t1' & HR' & C & La & Hx); [|rewrite length_app; lia|].
  { exists (newSizeEnforcingReader (NewDotUnstuffReader lr0) max), 0%nat. cbn [t source header]. by rewrite drop_0. }
  change (backend_reads t (mem_dataBackend room bound st)) with (backend_reads t sink_data) in HR'.
  rewrite HR in HR'. injection HR' as <- <-.
  destruct (mem_delivered mode room bound calls ($"DATA") HN t obs t1 (h ++ D) HR) as (ev' & HE' & Co & _ & Df & Rs & St).
  { unfold ReadAll. by rewrite La, EE, C. }
  { by apply Hx. }
  rewrite HE in HE'. injection HE' as <- ->. exists ev, t1, obs, t1. done.
Qed.

(** A message delivered by BDAT: the spooled octets, unchanged, behind the Received field. *)
Theorem memory_stores_BDAT h c : no_recipient st = false -> (length h + length c < bound)%nat ->
  let t := {| header := h; source := ContentSpool c; exhausted := false |} in
  exists ev t' obs,
    evaluateDataCall mode (ms_recipients st) ($"BDAT") t sink_data = Some (ev, t') /\
    backend_reads t sink_data = Some (obs, t') /\
    ev_result ev = mem_results st /\ defect ev = [] /\
    stored mode (calls ++ [CallData obs]) =
      stored mode calls ++ [{| m_Mode := mode; ReversePath := reverse st; Recipients := ms_recipients st; Data := h ++ c |}].
Proof.
  intros HN HB t.
  destruct (backend_reads_all spool_left (DWire (ErrIO EOF)) spool_left_step st room bound Hroom HN t (h ++ c))
    as (obs & t1 & HR & C & La & Hx); [by exists c|rewrite length_app; lia|].
  destruct (mem_delivered mode room bound calls ($"BDAT") HN t obs t1 (h ++ c) HR) as (ev & HE & _ & _ & Df & Rs & St).
  { unfold ReadAll. by rewrite La, C. }
  { by apply Hx. }
  by exists ev, t1, obs.
Qed.
End Theorems.

(** ** The sink behind the server *)

Section Tracking.
Context (mode : listenerMode) (room : observations -> nat) (bound : nat) (cn : connection) (p0 : promise).
Abbreviation sink := (memory_session mode room bound).

(** The session state of the sink and the transaction of the contract agree. *)
Definition tracks (p : promise) (st : sessionState) : Prop :=
  match p_tx p with
  | Idle => ms_open st = false /\ ms_recipients st = [] /\ ms_closed st = false
  | Open rs => ms_open st = true /\ ms_recipients st = rs /\ ms_closed st = false
  | Delivered => ms_closed st = false
  | Closed => True
  end.

Lemma tracks_step l e p q : tracks p (state_of mode l) -> answered sink l e -> promise_step cn p e = Some q ->
  tracks q (state_of mode (l ++ [e])).
Proof.
  unfold state_of at 2. rewrite mem_run_snoc. unfold tracks, answered, state_of. destruct (mem_run mode l) as [st ms] eqn:ER.
  cbn [fst]. intros T A E. unfold promise_step in E.
  destruct (p_tx p) as [|rs| |] eqn:EP; destruct e as [rp ps err|fp ps err ls|obs|reason| |ad|ls|tp|dm|dms| |rq|res]; try discriminate E;
    try (destruct rs; discriminate E).
  - destruct (mail_permitted _ _ _); [|done]. injection E as <-. destruct T as (T1 & T2 & T3). cbn [p_tx].
    cbn [be_Mail memory_session] in A. unfold state_of in A. rewrite ER in A. unfold mem_mail in A. cbn [fst] in A.
    rewrite T3 in A. subst err. cbn. unfold mem_mail. by rewrite T3.
  - destruct reason; try done. destruct (p_tls p); [done|]. injection E as <-. cbn. by destruct T as (T1 & T2 & T3).
  - by injection E as <-.
  - injection E as <-. by rewrite EP.
  - injection E as <-. by rewrite EP.
  - injection E as <-. by rewrite EP.
  - injection E as <-. by rewrite EP.
  - destruct (p_auth p); [injection E as <-; by rewrite EP|done].
  - destruct (p_auth p); [injection E as <-; by rewrite EP|done].
  - destruct (p_auth p); [done|injection E as <-; by rewrite EP].
  - destruct (p_auth p), (Failure res); try done. by injection E as <-.
  - destruct (maxRcpt _ <=? _); [by destruct rs|]. destruct T as (T1 & T2 & T3).
    cbn [be_Rcpt memory_session] in A. unfold state_of in A. rewrite ER in A. unfold mem_rcpt in A. cbn [fst] in A.
    rewrite T1 in A. cbn [negb snd] in A. injection A as -> ->.
    assert (q = set_tx p (Open (rs ++ [fp]))) as -> by (by destruct rs; injection E as <-).
    cbn [set_tx p_tx]. cbn. unfold mem_rcpt. rewrite T1. cbn. by rewrite T2.
  - destruct rs; [done|]. injection E as <-. cbn. by destruct T as (_ & _ & T3).
  - destruct T as (_ & _ & T3). destruct rs, reason; try done; injection E as <-; cbn; by rewrite T3.
  - destruct rs; injection E as <-; by rewrite EP.
  - destruct rs; injection E as <-; by rewrite EP.
  - destruct rs; injection E as <-; by rewrite EP.
  - destruct reason; try done; injection E as <-; cbn; by rewrite T.
Qed.

Lemma tracks_run l q : recorded sink l -> p_tx p0 = Idle -> promised cn p0 l = Some q -> tracks q (state_of mode l).
Proof.
  intros R HI. revert q. induction l as [|e l IH] using rev_ind; intros q P.
  - injection P as <-. unfold tracks. by rewrite HI.
  - apply recorded_last in R as [R A]. apply promised_last in P as (p1 & P1 & P2).
    apply (tracks_step l e p1); [by apply IH|done|done].
Qed.

Lemma within_reverse e : within e -> forall w, reverse (fst (mem_step w e)) = reverse (fst w).
Proof. intros W [st ms]. destruct e; try done. cbn. unfold mem_rcpt. by destruct (negb (ms_open st)). Qed.

Lemma run_reverse l mid : Forall within mid -> reverse (state_of mode (l ++ mid)) = reverse (state_of mode l).
Proof.
  unfold state_of. induction mid as [|e mid IH] using rev_ind; intros F; [by rewrite app_nil_r|].
  apply Forall_app in F as [F W]. apply Forall_cons in W as [W _]. rewrite app_assoc, mem_run_snoc, (within_reverse e W). by apply IH.
Qed.

(** A Data call of the contract, as the sink sees it. *)
Lemma data_transaction l obs q : recorded sink l -> p_tx p0 = Idle -> promised cn p0 (l ++ [CallData obs]) = Some q ->
  exists earlier reversePath params mid,
    l = earlier ++ CallMail reversePath params None :: mid /\ Forall within mid /\ accepted mid <> [] /\
    Z.of_nat (length (accepted mid)) <= maxRcpt (cn_cfg cn) /\
    no_recipient (state_of mode l) = false /\ reverse (state_of mode l) = reversePath /\
    ms_recipients (state_of mode l) = accepted mid.
Proof.
  intros R HI P. apply promised_last in P as (p1 & P1 & P2). pose proof (tracks_run l p1 R HI P1) as T.
  unfold promise_step in P2. destruct (p_tx p1) as [|rs| |] eqn:EP; try discriminate P2. destruct rs as [|r rs]; [discriminate P2|].
  destruct (promised_open cn p0 l p1 (r :: rs) P1 HI EP) as (earlier & rp & ps & mid & EL & W & A & Lm).
  unfold tracks in T. rewrite EP in T. destruct T as (T1 & T2 & _).
  exists earlier, rp, ps, mid. split_and!; try done; [by rewrite A|by rewrite A; destruct Lm| | |by rewrite A].
  - unfold no_recipient. by rewrite T1, T2.
  - subst l. rewrite (cons_middle _ earlier mid), (app_assoc earlier), run_reverse by done.
    apply promised_split in P1 as (pa & pb & Pa & Pb & _).
    assert (recorded sink earlier) as Ra by by apply recorded_split in R as [Ra _].
    pose proof (tracks_run earlier pa Ra HI Pa) as Ta. unfold promise_step in Pb. unfold tracks in Ta.
    unfold state_of in *. rewrite mem_run_snoc. destruct (mem_run mode earlier) as [st ms]. cbn [fst] in Ta.
    destruct (p_tx pa) as [|rs'| |]; try done; [|by destruct rs'].
    destruct Ta as (_ & _ & Tc). cbn. unfold mem_mail. by rewrite Tc.
Qed.

Lemma stored_other l e : (forall obs, e <> CallData obs) -> stored mode (l ++ [e]) = stored mode l.
Proof.
  intros N. unfold stored. rewrite mem_run_snoc. destruct (mem_run mode l) as [st ms], e as [| |obs| | | | | | | | | |]; try done.
  by destruct (N obs).
Qed.
End Tracking.

(** What every stored message satisfies. *)
Definition message_ok (mode : listenerMode) (maximum : Z) (m : Message) : Prop :=
  m_Mode m = mode /\ Recipients m <> [] /\ Z.of_nat (length (Recipients m)) <= maximum.

Section OverServer.
Context `{Unicode} `{NetIP} `{RFC3339} `{Crypto} (fuel : nat) (cfg : serverConfig) (e : env) (trace : bool)
  (m : spoolManager) (plaintext : LineReader) (handshake : option (option (LineReader * bool))).
Context (mode : listenerMode) (room : observations -> nat) (bound : nat).

(** C18: The sink behind the server, on any connection of a well-formed configuration: Data is only
    called in a transaction that an accepted MAIL began and in which, since then, at least one and at
    most the maximum number of recipients were accepted, and the sink then knows it has a recipient;
    a completely read message is stored with the reverse path of the transaction's MAIL and exactly the
    recipients accepted since, in order and with duplicates, and an incompletely read one is not; no
    other call touches the sink; and everything stored has between one and the maximum number of
    recipients. *)
Theorem memory_transactions s res :
  configured cfg m -> enough_fuel fuel e plaintext handshake ->
  serveConnection fuel cfg e trace m plaintext handshake (Ok (Some (memory_session mode room bound))) = Served s res ->
  (forall before obs after, log s = before ++ CallData obs :: after ->
     exists earlier reversePath params mid,
       before = earlier ++ CallMail reversePath params None :: mid /\ Forall within mid /\
       accepted mid <> [] /\ Z.of_nat (length (accepted mid)) <= maxRcpt cfg /\
       no_recipient (state_of mode before) = false /\
       stored mode (before ++ [CallData obs]) = stored mode before ++
         match ReadAll obs with
         | Some data => [{| m_Mode := mode; ReversePath := reversePath; Recipients := accepted mid; Data := data |}]
         | None => []
         end) /\
  (forall before ev after, log s = before ++ ev :: after -> (forall obs, ev <> CallData obs) ->
     stored mode (before ++ [ev]) = stored mode before) /\
  Forall (message_ok mode (maxRcpt cfg)) (stored mode (log s)).
Proof.
  intros HC HF E.
  destruct (served _ _ _ _ _ _ _ _ _ _ HC HF E) as (b & [= <-] & (p & P & _) & _).
  destruct (served_recorded _ _ _ _ _ _ _ _ _ _ E) as (b & [= <-] & R).
  set (cn := newConnection _ _ _ _) in P.
  assert (maxRcpt (cn_cfg cn) = maxRcpt cfg) as HM by (unfold cn; by rewrite newConnection_cfg).
  assert (forall before obs after, log s = before ++ CallData obs :: after ->
    exists q, recorded (memory_session mode room bound) before /\
      promised cn (start (starts_tls handshake)) (before ++ [CallData obs]) = Some q) as Split.
  { intros before obs after EL. rewrite EL in P, R. apply recorded_split in R as [R _].
    apply promised_split in P as (p1 & p2 & P1 & P2 & _). exists p2. split; [done|].
    by rewrite (promised_snoc _ _ _ _ _ P1). }
  assert (forall before obs after, log s = before ++ CallData obs :: after ->
    exists earlier reversePath params mid,
      before = earlier ++ CallMail reversePath params None :: mid /\ Forall within mid /\ accepted mid <> [] /\
      Z.of_nat (length (accepted mid)) <= maxRcpt cfg /\ no_recipient (state_of mode before) = false /\
      stored mode (before ++ [CallData obs]) = stored mode before ++
        match ReadAll obs with
        | Some data => [{| m_Mode := mode; ReversePath := reversePath; Recipients := accepted mid; Data := data |}]
        | None => []
        end) as Delivery.
  { intros before obs after EL. destruct (Split before obs after EL) as (q & Rb & Pq).
    destruct (data_transaction mode room bound cn (start (starts_tls handshake)) before obs q Rb eq_refl Pq)
      as (earlier & rp & ps & mid & Eb & W & A & Lm & NR & RV & RC).
    exists earlier, rp, ps, mid. rewrite HM in Lm. split_and!; try done.
    rewrite stored_data. unfold mem_data. rewrite NR, RV, RC, state_of_mode. by destruct (ReadAll obs). }
  split_and!.
  - intros before obs after EL. destruct (Delivery before obs after EL) as (a & rp & ps & mid & D).
    by exists a, rp, ps, mid.
  - intros before ev after _ N. by apply stored_other.
  - assert (forall l l', log s = l ++ l' -> Forall (message_ok mode (maxRcpt cfg)) (stored mode l)) as F;
      [|apply (F (log s) []); by rewrite app_nil_r].
    intros l. induction l as [|ev l IH] using rev_ind; intros l' EL; [constructor|].
    rewrite <- app_assoc in EL. cbn [app] in EL. specialize (IH _ EL).
    destruct ev as [| |obs| | | | | | | | | |]; try (rewrite stored_other; done).
    destruct (Delivery _ _ _ EL) as (a & rp & ps & mid & _ & _ & NE & Lm & _ & ->).
    apply Forall_app. split; [done|]. destruct (ReadAll obs); [|done]. by constructor.
Qed.
End OverServer.

(** ** Samples *)

Module Sample.
#[local] Existing Instances ascii_only_unicode no_literals ParamFacts.no_times SaslFacts.toy_crypto.

(** Reads of 512 octets, as the first one of [io.ReadAll]. *)
Definition room512 (obs : observations) : nat := 512.

Definition transaction : list event :=
  [CallMail ($"a@b.c") None None; CallRcpt ($"d@e.f") None None []; CallRcpt ($"g@h.i") None None []].

Lemma memory_stores_DATA_witness :
  exists ev t' obs t1,
    evaluateDataCall modeLMTP [$"d@e.f"; $"g@h.i"] ($"DATA")
      {| header := $"H"; source := ContentData (newSizeEnforcingReader
           (NewDotUnstuffReader {| unread := $"..hi" ++ CRLF ++ $"." ++ CRLF ++ $"QUIT"; final := EOF |}) 20);
         exhausted := false |} (be_Data (memory_session modeLMTP room512 100) transaction) = Some (ev, t') /\
    backend_reads {| header := $"H"; source := ContentData (newSizeEnforcingReader
           (NewDotUnstuffReader {| unread := $"..hi" ++ CRLF ++ $"." ++ CRLF ++ $"QUIT"; final := EOF |}) 20);
         exhausted := false |} (be_Data (memory_session modeLMTP room512 100) transaction) = Some (obs, t1) /\
    (ev_result ev = [mem_ok ($"d@e.f"); mem_ok ($"g@h.i")] /\ completed ev = true /\ defect ev = [] /\
     stored modeLMTP (transaction ++ [CallData obs]) =
       [{| m_Mode := modeLMTP; ReversePath := $"a@b.c"; Recipients := [$"d@e.f"; $"g@h.i"];
           Data := $"H.hi" ++ CRLF |}]).
Proof.
  refine (memory_stores_DATA modeLMTP room512 100 transaction _ ($"H")
    {| unread := $"..hi" ++ CRLF ++ $"." ++ CRLF ++ $"QUIT"; final := EOF |} 20 _ eq_refl _);
    [intros obs; unfold room512; lia|unfold MaxInt64; lia|vm_compute; lia].
Defined.

Lemma memory_stores_BDAT_witness :
  exists ev t' obs,
    evaluateDataCall modeSMTP [$"d@e.f"; $"g@h.i"] ($"BDAT")
      {| header := $"H"; source := ContentSpool ($"raw"); exhausted := false |}
      (be_Data (memory_session modeSMTP room512 100) transaction) = Some (ev, t') /\
    backend_reads {| header := $"H"; source := ContentSpool ($"raw"); exhausted := false |}
      (be_Data (memory_session modeSMTP room512 100) transaction) = Some (obs, t') /\
    ev_result ev = [mem_ok []] /\ defect ev = [] /\
    stored modeSMTP (transaction ++ [CallData obs]) =
      [{| m_Mode := modeSMTP; ReversePath := $"a@b.c"; Recipients := [$"d@e.f"; $"g@h.i"]; Data := $"Hraw" |}].
Proof.
  refine (memory_stores_BDAT modeSMTP room512 100 transaction _ ($"H") ($"raw") eq_refl _);
    [intros obs; unfold room512; lia|vm_compute; lia].
Defined.

Definition memory_input : LineReader :=
  input [$"EHLO me.example"; $"MAIL FROM:<a@b.c>"; $"RCPT TO:<d@e.f>"; $"RCPT TO:<g@h.i>"; $"DATA"; $"hi"; $".";
         $"MAIL FROM:<>"; $"RSET"; $"QUIT"].

Abbreviation memory_outcome :=
  (serveConnection 300 (config 60 false) quiet false spools0 memory_input None
    (Ok (Some (memory_session modeSMTP room512 500)))).

Lemma memory_served : memory_outcome = Served (final_of memory_outcome) (Ok tt).
Proof. apply served_ok. vm_compute. reflexivity. Qed.

Abbreviation stored_messages := (stored modeSMTP (log (final_of memory_outcome))).

(** One message, with the Received field in front. *)
Example stored_one :
  map Recipients stored_messages = [[$"d@e.f"; $"g@h.i"]] /\
  map (fun msg => HasSuffix (Data msg) (CRLF ++ $"hi" ++ CRLF)) stored_messages = [true].
Proof. by vm_compute. Qed.

Lemma memory_transactions_witness :
  configured (config 60 false) spools0 /\ Forall (message_ok modeSMTP (maxRcpt (config 60 false))) stored_messages.
Proof.
  assert (configured (config 60 false) spools0) as HC.
  { unfold configured. split; [vm_compute; reflexivity|]. cbn. unfold MaxInt64. lia. }
  assert (enough_fuel 300 quiet memory_input None) as HF by (vm_compute; lia).
  split; [exact HC|].
  exact (proj2 (proj2 (memory_transactions 300 (config 60 false) quiet false spools0 memory_input None modeSMTP room512 500
    _ _ HC HF memory_served))).
Defined.

End Sample.
