(* ===== verification/BackendTest.v ===== *)
(** * smtpserver/backendtest: the conformance check of a backend

    backendtest.go: the check the repository ships for the authors of backends. It drives the callbacks of a
    backend's sessions through one transaction, a double Close and every reason of Reset, and reports
    problems. The theorems relate it to the server it stands in for: what passes the check passes the
    server's own validation, and the sink of package memory passes it. *)
From Stdlib Require Import ZArith Lia Bool.
From stdpp Require Import base list gmap strings.
From S2P Require Import Prelude GoStrings Wire DotStuff Sasl Reply Command Path NetAddr Core ServerState ServerData.
From S2P Require Import ServerParams ServerCaps ServerSession Spool ServerConfig Memory.

(** ** Options *)

(** [None] is a nil slice. *)
Record Options : Type := {
  bt_Mode : bytes;
  bt_ReversePath : bytes;
  bt_Recipients : option (list bytes);
  bt_Message : option bytes
}.

Record checkOptions : Type := { ck_mode : bytes; ck_reversePath : bytes; ck_recipients : list bytes; ck_message : bytes }.

Definition default_check : checkOptions :=
  {| ck_mode := ModeSMTP; ck_reversePath := $"sender@example.test";
     ck_recipients := [$"same@example.test"; $"same@example.test"];
     ck_message := $"Subject: backendtest" ++ CRLF ++ CRLF ++ $"body" ++ CRLF |}.

Definition normalizedOptions (opts : option Options) : checkOptions :=
  match opts with
  | None => default_check
  | Some o =>
      {| ck_mode := if negb (beq (bt_Mode o) []) then bt_Mode o else ck_mode default_check;
         ck_reversePath := if negb (beq (bt_ReversePath o) []) then bt_ReversePath o else ck_reversePath default_check;
         ck_recipients := default (ck_recipients default_check) (bt_Recipients o);
         ck_message := default (ck_message default_check) (bt_Message o) |}
  end.

(** ** The backend under test *)

(** A session as [NewSession] returns it ([None] is nil), and when its [Reset] and its [Close] panic,
    after the calls made before. *)
Record tested_session : Type := {
  ts_session : option backendSession;
  reset_panics : list event -> ResetReason -> bool;
  close_panics : list event -> bool
}.

(** [NewSession], by the number of the call: the outcome may differ from call to call. *)
Definition session_source : Type := nat -> ConnInfo -> result backend_err tested_session.

Inductive problem : Type :=
| NoContext
| NoNewSession
| UnsupportedMode (mode : bytes)
| NoRecipientFixture
| NewSessionFailed (err : backend_err)
| NilSession
| MissingCallback (name : bytes)
| MissingCommitAuth
| MailRefused (err : backend_err)
| RcptRefused (i : nat) (err : backend_err)
| ReaderNotConsumed
| ResultAndError
| DataFailed (err : backend_err)
| ResultCount (got want : nat)
| ResultName (i : nat) (got want : bytes)
| ClassesDisagree (i : nat)
| ResetPanicked (reason : ResetReason)
| CloseNotIdempotent
| NewSessionForReset (reason : ResetReason) (err : backend_err)
| MailBeforeReset (reason : ResetReason) (err : backend_err).

Definition testConnInfo (mode : bytes) : ConnInfo :=
  {| ci_Mode := mode; ci_LocalAddr := Some (OtherAddr ($"local") ($"local"));
     ci_RemoteAddr := Some (OtherAddr ($"remote") ($"remote")); ci_TLSState := None |}.

Definition inspect (d : Session) : list problem :=
  (if has_Mail d then [] else [MissingCallback ($"Mail")]) ++
  (if has_Rcpt d then [] else [MissingCallback ($"Rcpt")]) ++
  (if has_Data d then [] else [MissingCallback ($"Data")]) ++
  (if has_Reset d then [] else [MissingCallback ($"Reset")]) ++
  (if has_Close d then [] else [MissingCallback ($"Close")]) ++
  (if (has_Authenticate d || has_ChallengeResponse d || has_SCRAMCredentials d) && negb (has_CommitAuth d)
   then [MissingCommitAuth] else []).

Definition inspectSession (session : option backendSession) : list problem :=
  match session with
  | None => [NilSession]
  | Some b => inspect (be_decl b)
  end.

(** ** The reader of the fixture *)

(** [trackingReader] over a [strings.Reader]. *)
Record trackingReader : Type := { tr_rest : bytes; tr_exhausted : bool }.

Definition tracking_read (r : trackingReader) (len : nat) : bytes * trackingReader * option data_err :=
  match tr_rest r with
  | [] => ([], {| tr_rest := []; tr_exhausted := true |}, Some (DWire (ErrIO EOF)))
  | rest => (take len rest, {| tr_rest := drop len rest; tr_exhausted := tr_exhausted r |}, None)
  end.

(** The reads a callback performs, at most [k] more. *)
Fixpoint fixture_reads (b : dataBackend) (k : nat) (r : trackingReader) (obs : observations) :
    observations * trackingReader :=
  match k with
  | O => (obs, r)
  | S k' =>
      match next_read b obs with
      | None => (obs, r)
      | Some n => let '(bs, r', e) := tracking_read r n in fixture_reads b k' r' (obs ++ [(bs, e)])
      end
  end.

(** ** The checks *)

Definition callReset (t : tested_session) (log : list event) (reason : ResetReason) : list problem :=
  if reset_panics t log reason then [ResetPanicked reason] else [].

(** The recipients from the [i]th on; the first refusal ends the transaction. *)
Fixpoint rcpt_fixtures (b : backendSession) (log : list event) (i : nat) (recipients : list bytes) :
    list event * option problem :=
  match recipients with
  | [] => (log, None)
  | r :: rest =>
      match fst (be_Rcpt b log r None) with
      | Some err => (log ++ [CallRcpt r None (Some err) []], Some (RcptRefused i err))
      | None => rcpt_fixtures b (log ++ [CallRcpt r None None []]) (S i) rest
      end
  end.

Fixpoint name_problems (i : nat) (result : list smtp.RecipientResult) (recipients : list bytes) : list problem :=
  match result, recipients with
  | r :: result', x :: recipients' =>
      (if negb (beq (smtp.RRecipient r) x) then [ResultName i (smtp.RRecipient r) x] else []) ++
      name_problems (S i) result' recipients'
  | _, _ => []
  end.

Fixpoint class_problems (i : nat) (result : list smtp.RecipientResult) : list problem :=
  match result with
  | [] => []
  | item :: result' =>
      (if negb (smtp.RCode item ÷ 100 =? smtp.Class (smtp.REnhanced item)) &&
          negb (beq (smtp.String (smtp.REnhanced item)) [])
       then [ClassesDisagree i] else []) ++ class_problems (S i) result'
  end.

(** What is checked of the outcome of [Data]. *)
Definition data_problems (opts : checkOptions) (exhausted_ : bool) (result : list smtp.RecipientResult)
    (callErr : option backend_err) : list problem :=
  let want := if beq (ck_mode opts) ModeLMTP then length (ck_recipients opts) else 1%nat in
  (if negb exhausted_ then [ReaderNotConsumed] else []) ++
  (match callErr, result with
   | Some _, _ :: _ => [ResultAndError]
   | Some err, [] => [DataFailed err]
   | None, _ => []
   end) ++
  (if negb (length result =? want)%nat then [ResultCount (length result) want]
   else if beq (ck_mode opts) ModeLMTP then name_problems 0 result (ck_recipients opts) else []) ++
  class_problems 0 result.

(** The problems of the transaction, and the calls it made. *)
Definition checkTransaction (t : tested_session) (b : backendSession) (opts : checkOptions) :
    list problem * list event :=
  match be_Mail b [] (ck_reversePath opts) None with
  | Some err => ([MailRefused err], [CallMail (ck_reversePath opts) None (Some err)])
  | None =>
      let log := [CallMail (ck_reversePath opts) None None] in
      match rcpt_fixtures b log 0 (ck_recipients opts) with
      | (log, Some p) => ([p], log)
      | (log, None) =>
          let data := be_Data b log in
          let '(obs, r) := fixture_reads data (rounds data) {| tr_rest := ck_message opts; tr_exhausted := false |} [] in
          let '(result, callErr) := returns data obs in
          let log := log ++ [CallData obs] in
          (data_problems opts (tr_exhausted r) result callErr ++ callReset t log ResetCompleted,
           log ++ [CallReset ResetCompleted])
      end
  end.

Definition checkCloseIdempotent (t : tested_session) (log : list event) : list problem :=
  if close_panics t log || close_panics t (log ++ [CallClose]) then [CloseNotIdempotent] else [].

(** One reason of [Reset], in a session of its own. [None]: its Close panics, which nothing recovers. *)
Definition check_reason (opts : checkOptions) (made : result backend_err tested_session) (reason : ResetReason) :
    option (list problem) :=
  match made with
  | Err err => Some [NewSessionForReset reason err]
  | Ok t =>
      match ts_session t, inspectSession (ts_session t) with
      | Some b, [] =>
          let close log ps := if close_panics t log then None else Some ps in
          match be_Mail b [] (ck_reversePath opts) None with
          | Some err => close [CallMail (ck_reversePath opts) None (Some err)] [MailBeforeReset reason err]
          | None =>
              let log := [CallMail (ck_reversePath opts) None None] in
              close (log ++ [CallReset reason]) (callReset t log reason)
          end
      | _, fields => Some fields
      end
  end.

Definition reset_reasons : list ResetReason :=
  [ResetExplicit; ResetNewMail; ResetCompleted; ResetFailed; ResetStartTLS; ResetSessionEnd].

(** The reasons left, [n] calls of [NewSession] made before. *)
Fixpoint check_reasons (new : session_source) (opts : checkOptions) (n : nat) (reasons : list ResetReason) :
    option (list problem) :=
  match reasons with
  | [] => Some []
  | reason :: rest =>
      match check_reason opts (new n (testConnInfo (ck_mode opts))) reason with
      | None => None
      | Some ps => app ps <$> check_reasons new opts (S n) rest
      end
  end.
Definition checkResetReasons (new : session_source) (opts : checkOptions) : option (list problem) :=
  check_reasons new opts 1 reset_reasons.

(** [check]; [ctx] tells whether there is a context, [backend] is [None] for a nil Backend or NewSession. *)
Definition check_backend (ctx : bool) (backend : option session_source) (opts : checkOptions) : option (list problem) :=
  if negb ctx then Some [NoContext]
  else match backend with
  | None => Some [NoNewSession]
  | Some new =>
      if negb (beq (ck_mode opts) ModeSMTP) && negb (beq (ck_mode opts) ModeLMTP)
      then Some [UnsupportedMode (ck_mode opts)]
      else match ck_recipients opts with
      | [] => Some [NoRecipientFixture]
      | _ =>
          match new 0%nat (testConnInfo (ck_mode opts)) with
          | Err err => Some [NewSessionFailed err]
          | Ok t =>
              match ts_session t, inspectSession (ts_session t) with
              | Some b, [] =>
                  let '(ps, log) := checkTransaction t b opts in
                  let closed := checkCloseIdempotent t log in
                  (fun resets => ps ++ closed ++ resets) <$> checkResetReasons new opts
              | _, fields => Some fields
              end
          end
      end
  end.

(** [Run] reports each problem. *)
Definition Run (ctx : bool) (backend : option session_source) (opts : option Options) : option (list problem) :=
  check_backend ctx backend (normalizedOptions opts).

(** ** What passes the check *)

(** The fixture's reader is the one the server gives its backends, over the same octets. *)
Definition served (message : bytes) : trackedDataReader :=
  {| header := []; source := ContentSpool message; exhausted := false |}.

Lemma fixture_reads_served b k rest ex obs obs' r :
  fixture_reads b k {| tr_rest := rest; tr_exhausted := ex |} obs = (obs', r) ->
  reads_from b k {| header := []; source := ContentSpool rest; exhausted := ex |} obs =
    Some (obs', {| header := []; source := ContentSpool (tr_rest r); exhausted := tr_exhausted r |}).
Proof.
  revert rest ex obs. induction k as [|k IH]; intros rest ex obs; cbn [fixture_reads reads_from].
  { by intros [= <- <-]. }
  destruct (next_read b obs) as [n|]; [|by intros [= <- <-]]. unfold tracked_read, tracking_read.
  cbn [header source exhausted tr_rest tr_exhausted]. destruct rest as [|c rest]; cbn [content_read]; intros F%IH.
  - by rewrite orb_true_r.
  - by rewrite orb_false_r.
Qed.




(** The mode of the server whose sessions the check imitates. *)
Definition check_mode (opts : checkOptions) : listenerMode := if beq (ck_mode opts) ModeLMTP then modeLMTP else modeSMTP.


Definition accepted_rcpt (r : bytes) : event := CallRcpt r None None [].

(** The calls of the fixture's transaction before its [k]th recipient. *)
Definition fixture_log (opts : checkOptions) (k : nat) : list event :=
  CallMail (ck_reversePath opts) None None :: map accepted_rcpt (take k (ck_recipients opts)).

Lemma rcpt_fixtures_accepts b log i recipients :
  (forall k r, recipients !! k = Some r -> fst (be_Rcpt b (log ++ map accepted_rcpt (take k recipients)) r None) = None) <->
  rcpt_fixtures b log i recipients = (log ++ map accepted_rcpt recipients, None).
Proof.
  revert log i. induction recipients as [|r recipients IH]; intros log i; cbn [rcpt_fixtures].
  { cbn. rewrite app_nil_r. split; [done|]. intros _ [|k] r; done. }
  specialize (IH (log ++ [accepted_rcpt r]) (S i)). rewrite <- app_assoc in IH. cbn [app] in IH.
  change (CallRcpt r None None []) with (accepted_rcpt r). cbn [map]. split.
  - intros A. pose proof (A 0%nat r eq_refl) as A0. cbn in A0. rewrite app_nil_r in A0. rewrite A0. apply (proj1 IH).
    intros k x Hk. rewrite <- app_assoc. apply (A (S k) x Hk).
  - destruct (fst (be_Rcpt b log r None)) as [err|] eqn:E; [done|]. intros R. pose proof (proj2 IH R) as A. intros [|k] x Hk.
    + injection Hk as ->. cbn. by rewrite app_nil_r.
    + specialize (A k x Hk). by rewrite <- app_assoc in A.
Qed.









(** ** The sink of package memory *)

(** Sessions whose Reset and Close do not panic, from a NewSession without a state of its own. *)
Definition source_of (f : ConnInfo -> result backend_err (option backendSession)) : session_source := fun _ info =>
  match f info with
  | Ok s => Ok {| ts_session := s; reset_panics := fun _ _ => false; close_panics := fun _ => false |}
  | Err e => Err e
  end.

Section Memory.
Context (room : observations -> nat) (bound : nat) (Hroom : forall obs, (0 < room obs)%nat).
Context (opts : checkOptions).
Let mode := check_mode opts.
Let b := memory_session mode room bound.

Lemma memory_fixture_state k :
  state_of mode (fixture_log opts k) =
    {| ms_mode := mode; reverse := ck_reversePath opts; ms_recipients := take k (ck_recipients opts); ms_open := true;
       ms_closed := false |}.
Proof.
  unfold fixture_log. induction (take k (ck_recipients opts)) as [|r rs IH] using rev_ind; [done|].
  rewrite map_app, app_comm_cons. cbn [map]. unfold state_of in *. rewrite mem_run_snoc.
  destruct (mem_run mode _) as [st sink]. cbn [fst] in IH. by subst st.
Qed.

Lemma name_problems_ok i rs : name_problems i (map mem_ok rs) rs = [].
Proof. revert i. induction rs as [|r rs IH]; intros i; [done|]. cbn. by rewrite beq_refl, IH. Qed.

Lemma class_problems_ok i rs : class_problems i (map mem_ok rs) = [].
Proof. revert i. induction rs as [|r rs IH]; intros i; [done|]. cbn. apply IH. Qed.

Lemma mem_results_pass st :
  ms_mode st = mode -> ms_recipients st = ck_recipients opts -> data_problems opts true (mem_results st) None = [].
Proof.
  unfold data_problems, mem_results, mode, check_mode. intros -> ->. cbn [negb app].
  destruct (beq (ck_mode opts) ModeLMTP); [|done].
  by rewrite length_map, Nat.eqb_refl, name_problems_ok, class_problems_ok.
Qed.

Context (Hrcpt : ck_recipients opts <> []) (Hbound : (length (ck_message opts) < bound)%nat).

Lemma memory_transaction t :
  reset_panics t = (fun _ _ => false) -> exists log, checkTransaction t b opts = ([], log).
Proof.
  intros RP. unfold checkTransaction. change (be_Mail b [] (ck_reversePath opts) None) with (@None backend_err). cbv iota.
  assert (rcpt_fixtures b [CallMail (ck_reversePath opts) None None] 0 (ck_recipients opts) =
    (fixture_log opts (length (ck_recipients opts)), None)) as ->.
  { unfold fixture_log. rewrite take_ge by done. apply (proj1 (rcpt_fixtures_accepts b [CallMail (ck_reversePath opts) None None] 0 (ck_recipients opts))).
    intros k r Hk. change ([CallMail (ck_reversePath opts) None None] ++ _) with (fixture_log opts k).
    cbn [b be_Rcpt memory_session fst]. by rewrite memory_fixture_state. }
  set (log := fixture_log opts _). pose proof (memory_fixture_state (length (ck_recipients opts))) as S. fold log in S.
  rewrite take_ge in S by done. cbv zeta. cbn [b be_Data memory_session]. set (st := state_of mode log) in *.
  destruct (fixture_reads _ _ _ _) as [obs r] eqn:F. apply fixture_reads_served in F.
  assert (no_recipient st = false) as NR by (rewrite S; unfold no_recipient; cbn; by destruct (ck_recipients opts)).
  destruct (backend_reads_all spool_left (DWire (ErrIO EOF)) spool_left_step st room bound Hroom NR
    (served (ck_message opts)) (ck_message opts)) as (obs' & t' & HR & C & La & Hx); [by exists (ck_message opts)|done|].
  unfold backend_reads in HR. change (reads_from ?d (rounds ?d) _ []) with (reads_from d (rounds d) (served (ck_message opts)) []) in F.
  rewrite HR in F. injection F as -> ->. specialize (Hx eq_refl). cbn [exhausted] in Hx. rewrite Hx.
  cbn [returns mem_dataBackend]. unfold mem_data. rewrite NR. unfold ReadAll. rewrite La. cbn [is_EOF snd].
  unfold callReset. rewrite RP, mem_results_pass by by rewrite S. by eexists.
Qed.

(** The sink passes with every fixture of a supported mode. *)
Theorem memory_passes :
  ck_mode opts = ModeSMTP \/ ck_mode opts = ModeLMTP ->
  check_backend true (Some (source_of (newSession room bound))) opts = Some [].
Proof.
  intros M. unfold check_backend. cbn [negb].
  assert (negb (beq (ck_mode opts) ModeSMTP) && negb (beq (ck_mode opts) ModeLMTP) = false) as ->.
  { destruct M as [-> | ->]; by rewrite ?beq_refl, ?andb_false_r. }
  assert (forall A (y z : A), match ck_recipients opts with [] => y | _ :: _ => z end = z) as -> by (by destruct (ck_recipients opts)).
  unfold source_of at 1, newSession at 1. cbn [ts_session inspectSession be_decl memory_session inspect mem_declaration].
  change (mem_mode (testConnInfo (ck_mode opts))) with mode. fold b.
  edestruct memory_transaction as [log T]; [|rewrite T]; [done|]. unfold checkCloseIdempotent. cbn. done.
Qed.
End Memory.

(** ** The default fixture *)

Module TestSample.

#[local] Existing Instances ascii_only_unicode ParamFacts.no_times.

Definition room512 (obs : observations) : nat := 512.

(** A Data that returns before it has read the message is reported, and a refused transaction. *)
Lemma problems_reported :
  Run true (Some (source_of (newSession room512 0))) None = Some [ReaderNotConsumed; DataFailed Opaque; ResultCount 0 1] /\
  Run true (Some (fun _ _ => Err Opaque)) None = Some [NewSessionFailed Opaque] /\
  Run true (Some (source_of (newSession room512 100)))
    (Some {| bt_Mode := $"uucp"; bt_ReversePath := []; bt_Recipients := None; bt_Message := None |}) =
    Some [UnsupportedMode ($"uucp")].
Proof. vm_compute. split_and!; reflexivity. Qed.


End TestSample.
