(* ===== verification/Dialogue.v ===== *)
(** * A message through the server

    What a client and a server say to each other when a message is submitted by EHLO, MAIL, RCPT for each
    recipient, DATA and QUIT, and the server's half of it: a session of ServerSession.v with the sink of
    Memory.v behind it, run on the client's octets. The configuration is fixed and the transport loses
    nothing; the mailboxes are those of [plain], their number is up to the listener's limit, and every
    octet string within its size limit is admitted as content. *)
From Stdlib Require Import ZArith Lia Bool.
From stdpp Require Import base list gmap strings.
From S2P Require Import Prelude GoStrings Base64 Sasl Wire DotStuff Reply Command Path Ehlo Core.
From S2P Require Import Spool ServerState ServerData ServerParams ServerCaps ServerSession.
From S2P Require Import SessionFacts SessionContract SessionTheorems SessionLog ServerConfig Memory.

#[local] Existing Instances ascii_only_unicode no_literals ParamFacts.no_times SaslFacts.toy_crypto.

(** ** What both sides say *)
Module Dialogue.

Definition crlf_lines (ls : list bytes) : bytes := concat (map (fun l => l ++ CRLF) ls).

Definition hello_line : bytes := $"EHLO me" ++ CRLF.
Definition mail_line (a : bytes) : bytes := $"MAIL FROM:<" ++ a ++ $">" ++ CRLF.
Definition rcpt_line (a : bytes) : bytes := $"RCPT TO:<" ++ a ++ $">" ++ CRLF.
Definition data_line : bytes := $"DATA" ++ CRLF.
Definition quit_line : bytes := $"QUIT" ++ CRLF.

Definition greeting : bytes := $"220 mx.example Service ready" ++ CRLF.
Definition hello_reply : bytes := crlf_lines [$"250-mx.example"; $"250-PIPELINING"; $"250-SIZE 1000000"; $"250-8BITMIME";
  $"250-ENHANCEDSTATUSCODES"; $"250-STARTTLS"; $"250-SMTPUTF8"; $"250-CHUNKING"; $"250 BINARYMIME"].
Definition mail_reply : bytes := $"250 2.1.0 Sender OK" ++ CRLF.
Definition rcpt_reply : bytes := $"250 2.1.5 Recipient OK" ++ CRLF.
Definition data_reply : bytes := $"354 End data with <CRLF>.<CRLF>" ++ CRLF.
Definition stored_reply : bytes := $"250 2.0.0 OK" ++ CRLF.
Definition bye : bytes := $"221 2.0.0 mx.example closing connection" ++ CRLF.

(** The client's octets and the server's, for a sender, recipients and content. *)
Definition submission (from_ : bytes) (to_ : list bytes) (content : bytes) : bytes :=
  hello_line ++ mail_line from_ ++ concat (map rcpt_line to_) ++ data_line ++ Spec.stuffed content ++ quit_line.
Definition replies (n : nat) : bytes :=
  greeting ++ hello_reply ++ mail_reply ++ concat (replicate n rcpt_reply) ++ data_reply ++ stored_reply ++ bye.

(** A mailbox both sides carry without parameters: a local part and a domain name in ASCII, without
    controls and angle brackets, of at most 4000 octets. *)
Record plain (a : bytes) : Prop := {
  plain_parts : exists local domain, a = local ++ "@"%byte :: domain /\
    (forall u, validateLocalPart local u = None /\ validateDomain domain u = None) /\ head domain <> Some "["%byte;
  plain_path : ContainsAny a [CR; LF; x00; "<"%byte; ">"%byte] = false;
  plain_ctl : existsb is_ctl a = false;
  plain_valid : ValidString a = true;
  plain_ascii : hasHighByte a = false;
  plain_length : Z.of_nat (length a) <= 4000
}.

Lemma plain_nonempty a : plain a -> a <> [].
Proof. intros P ->. destruct (plain_parts _ P) as ([|] & ? & ? & _); done. Qed.

Lemma encode_path verb pre a : validateCommandToken verb = None -> existsb is_ctl pre = false -> plain a ->
  EncodeCommand verb [pre ++ "<"%byte :: a ++ $">"] = Ok (verb ++ SP :: (pre ++ "<"%byte :: a ++ $">") ++ CRLF).
Proof.
  intros V P A. apply plain_ctl in A. unfold EncodeCommand. rewrite V. cbn [first_err map concat]. unfold validateCommandToken at 1.
  rewrite existsb_app. cbn [existsb]. rewrite P, existsb_app, A. cbn [existsb orb fail_if]. rewrite app_nil_r. reflexivity.
Qed.

Lemma encode_mail a : plain a -> EncodeCommand ($"MAIL") [$"FROM:" ++ "<"%byte :: a ++ $">"] = Ok (mail_line a).
Proof. intros P. rewrite encode_path; [|reflexivity..|done]. unfold mail_line. cbn. by rewrite <- app_assoc. Qed.
Lemma encode_rcpt a : plain a -> EncodeCommand ($"RCPT") [$"TO:" ++ "<"%byte :: a ++ $">"] = Ok (rcpt_line a).
Proof. intros P. rewrite encode_path; [|reflexivity..|done]. unfold rcpt_line. cbn. by rewrite <- app_assoc. Qed.

(** The argument the server sees. *)
Lemma sent_path c pre a : c <> SP -> sent_argument [(c :: pre) ++ "<"%byte :: a ++ $">"] = (c :: pre) ++ "<"%byte :: a ++ $">".
Proof.
  intros N. unfold sent_argument. cbn [map concat app]. rewrite app_nil_r.
  change (SP :: c :: pre ++ "<"%byte :: a ++ $">") with ([SP] ++ c :: pre ++ "<"%byte :: a ++ $">").
  cbn [app TrimLeft]. change (mem_byte SP [SP]) with true. cbv iota. unfold mem_byte. cbn [existsb].
  by destruct (byte_eqb_spec c SP).
Qed.

Lemma mail_line_length a : plain a -> Z.of_nat (length (mail_line a)) <= 4096.
Proof. intros P. pose proof (plain_length _ P). unfold mail_line. rewrite !length_app. cbn [length CRLF]. lia. Qed.
Lemma rcpt_line_length a : plain a -> Z.of_nat (length (rcpt_line a)) <= 4096.
Proof. intros P. pose proof (plain_length _ P). unfold rcpt_line. rewrite !length_app. cbn [length CRLF]. lia. Qed.

(** The server's parser takes the printed path for the mailbox. *)
Lemma parse_plain prefix an ap u a : is_ascii prefix = true -> plain a ->
  exists p, parsePathArgument (prefix ++ "<"%byte :: a ++ $">") prefix an ap (parse_options u) = Ok p /\ Mailbox p = a /\ Params p = [].
Proof.
  intros A P. destruct (plain_parts _ P) as (local & domain & E & V & H). destruct (V u) as [VL VD]. eexists. split.
  - pose proof (parsePathArgument_printed prefix an ap (parse_options u) local domain [] [] A VL VD H) as Q. cbv zeta in Q.
    rewrite <- E in Q. change (print_params []) with (@nil Init.Byte.byte) in Q. apply Q.
    + apply (plain_valid _ P).
    + intros _. apply (plain_ascii _ P).
    + pose proof (plain_length _ P). change (if MaxPathLength (parse_options u) <=? 0 then defaultMaxPathLength else _) with 4096. lia.
    + constructor.
  - by subst.
Qed.

End Dialogue.

(** ** The server *)
Module ServerSide.
Import Contract Logs ServeFacts Guarantees Samples DotStuff.Spec DotStuff.Reader ReaderFacts DataFacts Dialogue.

(** A listener without AUTH or TLS policy, for messages of a million octets and a hundred recipients. *)
Definition listener : serverConfig :=
  {| identity := $"mx.example"; server_mode := modeSMTP; maxMessage := 1000000; maxRcpt := 100;
     maxTransactions_opt := 5; chunking := true; server_binaryMIME := true; tlsConfigured := true;
     requireTLS := false; requireAuth := false; authBefore := [$"PLAIN"]; authAfter := [$"PLAIN"; $"LOGIN"] |}.

Section Server.
Context (room : observations -> nat) (bound : nat).
Let cn := newConnection listener (memory_session modeSMTP room bound) quiet false.
(** A session of the listener after EHLO. *)
Definition ses (ph : sessionPhase) (op : bool) (rs : list bytes) (att : Z) (input : LineReader) (k : nat) (out pend : list bytes) (lg : list event) : commandSession :=
  {| st := {| mode := modeSMTP; phase := ph; tls := false; authenticated := false; hello := $"me" |};
     tlsSt := {| tls_done := false; tls_clientCertificate := false |};
     lr_ := input; pending := pend; sent := out; clock := k;
     transactionOpen := op; lspool := None; closeDone := false; extended := true; smtpUTF8 := false; binaryMIME := false;
     recipients := rs; mailAttempts := att; spools := spools0; log := lg; traces := [] |}.


(** What an iteration does with a command that can be read. *)
Lemma iteration_command line verb arguments ph op rs att input fin k out pend lg :
  EncodeCommand verb arguments = Ok line -> validateCommandVerb verb = None ->
  Z.of_nat (length line) <= MaxCommandLineLength (withDefaults loop_limits) ->
  iteration cn (ses ph op rs att {| unread := line ++ input; final := fin |} k out pend lg) =
  (a ← execute cn {| Verb := verb; Argument := sent_argument arguments |}; settle cn a;; mret (if act_close a then None else Some tt))
    (ses ph op rs att {| unread := input; final := fin |} (S (S (S k))) (out ++ pend) [] lg).
Proof.
  intros E V L. pose proof (ReadCommand_EncodeCommand verb arguments line loop_limits input fin E V) as R.
  unfold iteration. cbv [get_session mbind M_bind]. cbn [env_cancelled cn_env cn newConnection].
  change (env_cancelled (cn_env cn) _) with false. cbv iota.
  unfold Buffered at 1. change (env_buffered (cn_env cn) _) with 0%nat. cbn [Nat.min].
  change ((0 =? 0)%nat) with true. unfold flush_if at 1. unfold Flush at 1. change (env_write (cn_env cn) _) with true. cbv iota.
  unfold readCommand at 1. cbn [lr_ tick set_io ses]. rewrite R. reflexivity.
  exact L.
Qed.

Lemma mail_step a path k input out :
  ParseReversePath ($"FROM:" ++ "<"%byte :: a ++ $">") (parse_options true) = Ok path -> Mailbox path = a -> Params path = [] ->
  hasNonASCII a = false ->
  (a0 ← execute cn {| Verb := $"MAIL"; Argument := $"FROM:" ++ "<"%byte :: a ++ $">" |}; settle cn a0;; mret (if act_close a0 then None else Some tt))
    (ses phaseReady false [] 0 input k out [] []) =
  (ses phaseMail true [] 1 input (S k) out [mail_reply] [CallMail a None None], Ok (Some tt)).
Proof.
  intros P M R N. destruct path as [mb lp dm nl pm pr]. cbn in M, R. subst mb pr.
  unfold mbind at 1, M_bind at 1.
  assert (execute cn {| Verb := $"MAIL"; Argument := $"FROM:" ++ "<"%byte :: a ++ $">" |} (ses phaseReady false [] 0 input k out [] []) =
    handleMail cn {| Verb := $"MAIL"; Argument := $"FROM:" ++ "<"%byte :: a ++ $">" |} (ses phaseReady false [] 1 input k out [] [])) as ->.
  { cbv - [handleMail parsePathArgument ses]. reflexivity. }
  unfold handleMail. unfold mbind at 1, M_bind at 1, get_session. cbn [Argument]. change (requireTLS (cfg_ cn)) with false.
  change (requireAuth (cfg_ cn)) with false.
  cbn [andb]. rewrite P. cbn [extended ses Params Mailbox]. rewrite N. vm_compute. reflexivity.
Qed.

Definition rcpt_call (r : bytes) : event := CallRcpt r None None [].
Definition transaction_log (a : bytes) (rs : list bytes) : list event := CallMail a None None :: map rcpt_call rs.

Lemma transaction_run a rs :
  mem_run modeSMTP (transaction_log a rs) =
    ({| ms_mode := modeSMTP; reverse := a; ms_recipients := rs; ms_open := true; ms_closed := false |}, []).
Proof.
  induction rs as [|r rs IH] using rev_ind; [done|]. unfold transaction_log in *. rewrite map_app. cbn [map].
  by rewrite app_comm_cons, mem_run_snoc, IH.
Qed.

Definition phase_of (rs : list bytes) : sessionPhase := match rs with [] => phaseMail | _ => phaseRecipients end.

Lemma rcpt_step a rs r path k input out :
  ParseForwardPath ($"TO:" ++ "<"%byte :: r ++ $">") (parse_options false) = Ok path -> Mailbox path = r -> Params path = [] ->
  (length rs < 100)%nat ->
  (a0 ← execute cn {| Verb := $"RCPT"; Argument := $"TO:" ++ "<"%byte :: r ++ $">" |}; settle cn a0;; mret (if act_close a0 then None else Some tt))
    (ses (phase_of rs) true rs 1 input k out [] (transaction_log a rs)) =
  (ses phaseRecipients true (rs ++ [r]) 1 input (S k) out [rcpt_reply] (transaction_log a (rs ++ [r])), Ok (Some tt)).
Proof.
  intros P M R L. destruct path as [mb lp dm nl pm pr]. cbn in M, R. subst mb pr.
  unfold mbind at 1, M_bind at 1.
  assert (execute cn {| Verb := $"RCPT"; Argument := $"TO:" ++ "<"%byte :: r ++ $">" |} (ses (phase_of rs) true rs 1 input k out [] (transaction_log a rs)) =
    handleRcpt cn {| Verb := $"RCPT"; Argument := $"TO:" ++ "<"%byte :: r ++ $">" |} (ses (phase_of rs) true rs 1 input k out [] (transaction_log a rs))) as ->.
  { destruct rs; cbv - [handleRcpt parsePathArgument ses transaction_log]; reflexivity. }
  unfold handleRcpt. unfold mbind at 1, M_bind at 1, get_session. cbn [Argument smtpUTF8 ses]. rewrite P. cbn [extended ses Params].
  unfold rcpt_checked. unfold mbind at 1, M_bind at 1, get_session. cbn [recipients ses Params Mailbox].
  change (maxRcpt (cfg_ cn)) with 100. destruct (Z.leb_spec 100 (Z.of_nat (length rs))); [lia|].
  change (parseRcptParameters [] _) with (@Ok parameterError (option RcptOptions) None).
  cbn [log ses]. change (be_Rcpt (cn_backend cn) (transaction_log a rs) r None) with (snd (mem_rcpt (state_of modeSMTP (transaction_log a rs)) r), @nil bytes).
  unfold state_of. rewrite transaction_run.
  assert (transaction_log a (rs ++ [r]) = transaction_log a rs ++ [rcpt_call r]) as -> by (unfold transaction_log; by rewrite map_app).
  destruct rs; vm_compute; reflexivity.
Qed.

Definition data_cmd : Command := {| Verb := $"DATA"; Argument := [] |}.

Context (Hroom : forall obs, (0 < room obs)%nat).

Lemma execute_data a r rs input k out :
  execute cn data_cmd (ses phaseRecipients true (r :: rs) 1 input k out [] (transaction_log a (r :: rs))) =
  (let s0 := ses phaseRecipients true (r :: rs) 1 input (S (S k)) (out ++ [data_reply]) [] (transaction_log a (r :: rs)) in
   ('(evaluation, c) ← evaluateContent cn ($"DATA") (ContentData (newSizeEnforcingReader (NewDotUnstuffReader input) 1000000));
   modify (after_content c) ;;
   s2 ← get_session;
   finishContent cn (if content_exceeded c then sizeExceededEvaluation ($"DATA") s2 else evaluation)) s0).
Proof. cbv - [finishContent evaluateContent transaction_log sizeExceededEvaluation]. reflexivity. Qed.

(** The Received field of a message for [rs], the first of which is [r]. *)
Definition trace_options (r : bytes) (rs : list bytes) : ReceivedOptions :=
  {| From := $"me"; By := $"mx.example"; Extended := true; LMTP := false; TLS := false; Authenticated := false; ID := [];
     For := $"<" ++ r ++ $">"; RecipientCount := Z.of_nat (length rs); Timestamp := Some (env_now quiet 0) |}.
Definition trace_field (rs : list bytes) : bytes :=
  match rs with
  | [] => []
  | r :: _ => match FormatReceived (trace_options r rs) with Ok h => h | Err _ => [] end
  end.

Lemma data_step a r rs content h input k out :
  let s k := ses phaseRecipients true (r :: rs) 1 {| unread := stuffed content ++ input; final := EOF |} k out [] (transaction_log a (r :: rs)) in
  FormatReceived (trace_options r (r :: rs)) = Ok h ->
  Z.of_nat (length (body content)) <= 1000000 -> (length h + length (body content) < bound)%nat ->
  exists obs k' fin,
  (a0 ← execute cn data_cmd; settle cn a0;; mret (if act_close a0 then None else Some tt)) (s k) =
  (ses phaseReady false [] 1 {| unread := input; final := fin |} k' ((out ++ [data_reply]) ++ [stored_reply]) []
     ((transaction_log a (r :: rs) ++ [CallData obs]) ++ [CallReset ResetCompleted]), Ok (Some tt)) /\
  stored modeSMTP (transaction_log a (r :: rs) ++ [CallData obs]) =
    [{| m_Mode := modeSMTP; ReversePath := a; Recipients := r :: rs; Data := h ++ body content |}].
Proof.
  intros s HF HM HB. unfold s in *. clear s.
  set (lg := transaction_log a (r :: rs)) in *.
  assert (state_of modeSMTP lg =
    {| ms_mode := modeSMTP; reverse := a; ms_recipients := r :: rs; ms_open := true; ms_closed := false |}) as ST
    by (unfold state_of, lg; by rewrite transaction_run).
  set (lr0 := {| unread := stuffed content ++ input; final := EOF |}) in *.
  set (t := {| header := h; source := ContentData (newSizeEnforcingReader (NewDotUnstuffReader lr0) 1000000); exhausted := false |}).
  set (b := be_Data (memory_session modeSMTP room bound) lg).
  assert (exists ev t' obs rd, evaluateDataCall modeSMTP (r :: rs) ($"DATA") t b = Some (ev, t') /\
    (exists t1, backend_reads t b = Some (obs, t1)) /\ source t' = ContentData rd /\ unread (lr (reader rd)) = input /\
    exceeded rd = false /\ closeConnection ev = false /\ completed ev = true /\ ev_result ev = [mem_ok []] /\
    stored modeSMTP (lg ++ [CallData obs]) = stored modeSMTP lg ++
      [{| m_Mode := modeSMTP; ReversePath := a; Recipients := r :: rs; Data := h ++ body content |}])
    as (ev & t' & obs & rd & HE & (t1 & HR) & Hs & Hu & Hx & Hc & Co & Ev & HS).
  { pose proof (memory_stores_DATA modeSMTP room bound lg Hroom h lr0 1000000) as MS.
    pose proof (evaluateDataCall_end modeSMTP (r :: rs) ($"DATA") h lr0 1000000 b) as EE.
    cbn [final unread lr0] in MS, EE. rewrite unstuff_stuffed in MS, EE. rewrite !ST in MS.
    destruct MS as (ev & t' & obs & t1 & HE & HR & HO); [unfold MaxInt64; lia|done|lia|].
    destruct EE as (ev2 & t2 & rd & HE2 & Hs & Hu & Hx & Hc); [unfold MaxInt64; lia|].
    cbn [ms_recipients] in HE. fold t in HE, HE2, HR. unfold b in HE2. rewrite HE in HE2. injection HE2 as <- <-.
    destruct (Z.leb_spec (Z.of_nat (length (body content))) 1000000); [|lia].
    destruct (Z.ltb_spec 1000000 (Z.of_nat (length (body content)))); [lia|].
    change (is_EOF (DWire (ErrIO EOF))) with true in HO, Hc. cbn [andb negb] in HO, Hc. destruct HO as (Ev & Co & _ & HS).
    exists ev, t', obs, rd. split_and!; try done. by exists t1. }
  assert (evaluateContent cn ($"DATA") (ContentData (newSizeEnforcingReader (NewDotUnstuffReader lr0) 1000000))
      (ses phaseRecipients true (r :: rs) 1 lr0 (S (S k)) (out ++ [data_reply]) [] lg) =
    (ses phaseRecipients true (r :: rs) 1 lr0 (S (S (S k))) (out ++ [data_reply]) [] (lg ++ [CallData obs]), Ok (ev, ContentData rd))) as HC.
  { unfold evaluateContent. cbn [recipients ses].
    change (received_options cn (ses phaseRecipients true (r :: rs) 1 lr0 (S (S k)) (out ++ [data_reply]) [] lg) r)
      with (trace_options r (r :: rs)).
    rewrite HF. fold t. change (be_Data (cn_backend cn) (log (ses phaseRecipients true (r :: rs) 1 lr0 (S (S k)) (out ++ [data_reply]) [] lg))) with b.
    change (mode (st (ses phaseRecipients true (r :: rs) 1 lr0 (S (S k)) (out ++ [data_reply]) [] lg))) with modeSMTP.
    rewrite HR, HE, Hs. reflexivity. }
  destruct rd as [[[un fi]]]. cbn in Hu. subst un. exists obs. eexists _, fi. split.
  - unfold mbind at 1, M_bind at 1. unfold lg. rewrite execute_data. fold lg. cbv zeta.
    unfold mbind at 1, M_bind at 1. rewrite HC. cbv beta iota.
    unfold mbind at 1, M_bind at 1, modify, after_content. unfold mbind at 1, M_bind at 1, get_session.
    unfold content_exceeded. rewrite Hx. unfold finishContent. rewrite Hc, Co, Ev. clearbody lg.
    vm_compute. reflexivity.
  - rewrite HS. unfold stored, lg. by rewrite transaction_run.
Qed.


Lemma quit_step input fin k out lg :
  iteration cn (ses phaseReady false [] 1 {| unread := quit_line ++ input; final := fin |} k out [] lg) =
  (ses phaseReady false [] 1 {| unread := input; final := fin |} (S (S (S (S (S k))))) (out ++ [bye]) [] lg, Ok None).
Proof. 
  rewrite (iteration_command _ ($"QUIT") []); [|reflexivity..|vm_compute; congruence]. rewrite app_nil_r.
  vm_compute. reflexivity.
Qed.

(** The loop goes on, and ends. *)
Lemma run_more fuel s s' : iteration cn s = (s', Ok (Some tt)) -> run cn (S fuel) s = run cn fuel s'.
Proof. intros E. cbn [run]. unfold mbind, M_bind. by rewrite E. Qed.
Lemma run_last fuel s s' : iteration cn s = (s', Ok None) -> run cn (S fuel) s = (s', Ok tt).
Proof. intros E. cbn [run]. unfold mbind, M_bind. by rewrite E. Qed.

(** The replies written so far, sent or not. *)
Lemma run_rcpts a todo rest fuel : forall rs k out pend,
  Forall plain todo -> (length rs + length todo <= 100)%nat ->
  exists k' out' pend',
    run cn (length todo + fuel) (ses (phase_of rs) true rs 1 {| unread := concat (map rcpt_line todo) ++ rest; final := EOF |} k out pend (transaction_log a rs)) =
    run cn fuel (ses (phase_of (rs ++ todo)) true (rs ++ todo) 1 {| unread := rest; final := EOF |} k' out' pend' (transaction_log a (rs ++ todo))) /\
    out' ++ pend' = (out ++ pend) ++ replicate (length todo) rcpt_reply.
Proof.
  induction todo as [|r todo IH]; intros rs k out pend F L.
  - exists k, out, pend. cbn. by rewrite !app_nil_r.
  - apply Forall_cons in F as [P F]. cbn [length map concat Nat.add]. rewrite <- app_assoc.
    destruct (parse_plain ($"TO:") false true false r eq_refl P) as (p & Ep & Em & Er).
    erewrite run_more; cycle 1.
    { rewrite (iteration_command _ _ _ _ _ _ _ _ _ _ _ _ _ (encode_rcpt r P) eq_refl (rcpt_line_length r P)), sent_path by done.
      apply (rcpt_step a rs r p); [exact Ep|done|done|cbn in L; lia]. }
    assert (phaseRecipients = phase_of (rs ++ [r])) as -> by (by destruct rs).
    destruct (IH (rs ++ [r]) (S (S (S (S k)))) (out ++ pend) [rcpt_reply] F) as (k' & out' & pend' & E & W).
    { rewrite length_app. cbn in *. lia. }
    rewrite <- app_assoc in E. cbn [app] in E. exists k', out', pend'. split; [exact E|].
    rewrite W. cbn [replicate]. by rewrite <- app_assoc.
Qed.

Lemma trace_formatted r rs : plain r -> FormatReceived (trace_options r (r :: rs)) = Ok (trace_field (r :: rs)).
Proof.
  intros P. unfold trace_field. set (s := ses phaseRecipients true (r :: rs) 1 {| unread := []; final := EOF |} 0 [] [] []).
  destruct (Handlers.received_ok cn eq_refl s r rs) as [h E]; [done|reflexivity|reflexivity| |].
  - unfold SessionInv.clean. apply ContainsAny_false. pose proof (plain_path _ P) as Q. apply ContainsAny_false in Q. revert Q. apply forallb_mono.
    intros c Q. unfold mem_byte, line_breaks in *. cbn [existsb] in *. by destruct (c =b CR), (c =b LF), (c =b x00).
  - change (received_options cn s r) with (trace_options r (r :: rs)) in E. by rewrite E.
Qed.

(** The connection after the greeting. *)
Definition greeted_session (input : LineReader) : commandSession :=
  set_io (newCommandSession listener {| tls_done := false; tls_clientCertificate := false |} input spools0) input [] [greeting] 2.

Lemma hello_step input :
  iteration cn (greeted_session {| unread := hello_line ++ input; final := EOF |}) =
  (ses phaseReady false [] 0 {| unread := input; final := EOF |} 7 [greeting; hello_reply] [] [], Ok (Some tt)).
Proof. vm_compute. reflexivity. Qed.

(** The session on a whole submission: every reply of the dialogue, and the message in the sink. *)
Lemma submission_served a r rs content fuel :
  plain a -> Forall plain (r :: rs) -> (length (r :: rs) <= 100)%nat -> Z.of_nat (length (body content)) <= 1000000 ->
  (length (trace_field (r :: rs)) + length (body content) < bound)%nat -> (length (r :: rs) + 4 <= fuel)%nat ->
  exists s, serveConnection fuel listener quiet false spools0 {| unread := submission a (r :: rs) content; final := EOF |} None
      (Ok (Some (memory_session modeSMTP room bound))) = Served s (Ok tt) /\
    concat (sent s) = replies (length (r :: rs)) /\
    stored modeSMTP (log s) =
      [{| m_Mode := modeSMTP; ReversePath := a; Recipients := r :: rs; Data := trace_field (r :: rs) ++ body content |}] /\
    unread (lr_ s) = [].
Proof.
  intros Pa Pr Ln Lb Lt Lf. pose proof (Forall_inv Pr) as Pr0.
  assert (exists more, fuel = S (S (length (r :: rs) + S (S more)))) as [more ->] by (exists (fuel - (length rs + 5))%nat; cbn in *; lia).
  assert (exists k fin out lg, run cn (S (S (length (r :: rs) + S (S more)))) (greeted_session {| unread := submission a (r :: rs) content; final := EOF |}) =
    (ses phaseReady false [] 1 {| unread := []; final := fin |} k out [] lg, Ok tt) /\ concat out = replies (length (r :: rs)) /\
    stored modeSMTP lg = [{| m_Mode := modeSMTP; ReversePath := a; Recipients := r :: rs; Data := trace_field (r :: rs) ++ body content |}])
    as (k & fin & out & lg & E & Out & St).
  { unfold submission. erewrite run_more; [|apply hello_step].
    destruct (parse_plain ($"FROM:") true false true a eq_refl Pa) as (p & Ep & Em & Er).
    erewrite run_more; cycle 1.
    { rewrite (iteration_command _ _ _ _ _ _ _ _ _ _ _ _ _ (encode_mail a Pa) eq_refl (mail_line_length a Pa)), sent_path by done.
      apply (mail_step a p); [exact Ep|done|done|apply (plain_ascii _ Pa)]. }
    destruct (run_rcpts a (r :: rs) (data_line ++ stuffed content ++ quit_line) (S (S more)) [] 11 ([greeting; hello_reply] ++ []) [mail_reply] Pr Ln)
      as (k1 & out1 & pend1 & E1 & W1).
    destruct (data_step a r rs content (trace_field (r :: rs)) quit_line (S (S (S k1))) (out1 ++ pend1) (trace_formatted r rs Pr0) Lb Lt)
      as (obs & k2 & fin & E2 & St).
    eexists _, _, _, _. split; [etrans; [exact E1|]|].
    - erewrite run_more; cycle 1.
      { rewrite (iteration_command data_line ($"DATA") []); [|reflexivity..|vm_compute; congruence]. exact E2. }
      apply run_last, (quit_step []).
    - split; [|by rewrite stored_other].
      rewrite W1. unfold replies. rewrite !concat_app. cbn [concat]. rewrite !app_nil_r. by rewrite <- !app_assoc. }
  exists (session_close (ses phaseReady false [] 1 {| unread := []; final := fin |} k out [] lg)). split_and!.
  - unfold serveConnection, serve_session. change (newConnection listener (memory_session modeSMTP room bound) quiet false) with cn.
    set (s0 := newCommandSession listener _ _ _).
    assert (forall fuel, (writeReply cn {| code := 220; enhanced := smtp.ZeroEnhanced; text := identity (cfg_ cn) ++ $" Service ready"; lines := [];
      context := ReplyContextGreeting |} ;; Flush cn ;; run cn fuel) s0 = run cn fuel (greeted_session {| unread := submission a (r :: rs) content; final := EOF |})) as G
      by reflexivity.
    rewrite G, E. reflexivity.
  - exact Out.
  - change (log (session_close _)) with (lg ++ [CallClose]). by rewrite stored_other.
  - reflexivity.
Qed.
End Server.
End ServerSide.
