(* ===== verification/SessionRuns.v ===== *)
(** * smtpserver: runs that show where the code departs from its documents

    Each lemma evaluates one connection of the samples of SessionTheorems and states what the client,
    the backend or the tracer sees. *)
From Stdlib Require Import ZArith Lia Bool.
From stdpp Require Import base list gmap strings.
From S2P Require Import Prelude GoStrings Base64 Sasl Wire DotStuff Reply Command Path Ehlo Core Spool.
From S2P Require Import ServerState ServerData ServerParams ServerCaps ServerSession SessionFacts.
From S2P Require Import SessionContract SessionTheorems.
Import Samples.

Definition stream (b : bytes) : LineReader := {| unread := b; final := EOF |}.

Definition replies (o : outcome) : list bytes := sent (final_of o).

(** The content the backend read of each message, without the Received field. *)
Definition contents_read (o : outcome) : list bytes :=
  omap (fun e => match e with CallData reads => Some (concat (drop 1 (map fst reads))) | _ => None end)
    (log (final_of o)).

Definition opening : list bytes := [$"EHLO me"; $"MAIL FROM:<a@b.c>"; $"RCPT TO:<d@e.f>"].

(** A message that ends in a framing error: dot, CR and another octet behind a bare LF. *)
Definition broken_message : bytes :=
  lines_of (opening ++ [$"DATA"; $"0123456789"]) ++ [LF] ++ $"." ++ [CR] ++ $"X" ++ lines_of [$"NOOP"; $"QUIT"].

(** Within the size limit, the broken end of the message closes the connection, and nothing behind it
    is taken for a command. *)
Lemma broken_message_closes :
  drop 4 (replies (serve (config 50 false) false (stream broken_message))) =
    [$"354 End data with <CRLF>.<CRLF>" ++ CRLF].
Proof. vm_compute. reflexivity. Qed.

(** Above the size limit it does not: [handleDATA] replaces the evaluation that asked for the
    connection to be closed, and the octets behind the broken end are executed as commands. *)
Lemma oversized_broken_message_continues :
  drop 4 (replies (serve (config 5 false) false (stream broken_message))) =
    [$"354 End data with <CRLF>.<CRLF>" ++ CRLF;
     $"552 5.3.4 Message size exceeds fixed maximum message size" ++ CRLF;
     $"250 2.0.0 OK" ++ CRLF;
     $"221 2.0.0 mx.example closing connection" ++ CRLF].
Proof. vm_compute. reflexivity. Qed.

(** DATA after BDAT: the chunk that was acknowledged is dropped, and the message is delivered without
    it. *)
Lemma DATA_discards_chunks :
  let o := serve (config 50 false) false
             (stream (lines_of (opening ++ [$"BDAT 5"]) ++ $"CHUNK" ++ lines_of [$"DATA"; $"hi"; $"."; $"QUIT"])) in
  drop 4 (replies o) =
    [$"250 2.0.0 BDAT chunk accepted" ++ CRLF; $"354 End data with <CRLF>.<CRLF>" ++ CRLF;
     $"250 2.0.0 queued" ++ CRLF; $"221 2.0.0 mx.example closing connection" ++ CRLF] /\
  contents_read o = [$"hi" ++ CRLF].
Proof. vm_compute. split; reflexivity. Qed.

(** The tracer sees a credential: an AUTH whose initial response follows a no-break space is traced in
    full, and accepted. *)
Lemma trace_leaks_credentials :
  let argument := $"PLAIN" ++ [xc2; xa0] ++ $"AHUAcA==" in
  let o := serve (config 50 false) true (input [$"EHLO me"; $"AUTH " ++ argument]) in
  nth 3 (traces (final_of o)) [] = $"AUTH " ++ argument ++ $" <redacted>" /\
  drop 2 (replies o) = [$"235 2.7.0 Authentication successful" ++ CRLF].
Proof. vm_compute. split; reflexivity. Qed.

(** Malformed base64 in the middle of an exchange ends the connection without a reply. *)
Lemma malformed_response_drops :
  let o := serve (config 50 false) false (input [$"EHLO me"; $"AUTH PLAIN"; $"!!!"; $"NOOP"]) in
  drop 2 (replies o) = [$"334 " ++ CRLF] /\ result_of o = Err SASLResponse.
Proof. vm_compute. split; reflexivity. Qed.
