(* ===== verification/NormTables.v ===== *)
(** * internal/unicodenorm: the tables

    tables.go, transcribed: the canonical combining classes, the canonical and compatibility
    decompositions and the primary composites of Unicode 15.0.0, as parallel arrays sorted by key. *)
From Stdlib Require Import ZArith List.
Import ListNotations.
Local Open Scope Z_scope.

Definition cccKey : list Z := [
  768; 769; 770; 771; 772; 773; 774; 775; 776; 777; 778; 779; 780; 781; 782; 783; 784; 785; 786; 787; 788;
  789; 790; 791; 792; 793; 794; 795; 796; 797; 798; 799; 800; 801; 802; 803; 804; 805; 806; 807; 808; 809;
  810; 811; 812; 813; 814; 815; 816; 817; 818; 819; 820; 821; 822; 823; 824; 825; 826; 827; 828; 829; 830;
  831; 832; 833; 834; 835; 836; 837; 838; 839; 840; 841; 842; 843; 844; 845; 846; 848; 849; 850; 851; 852;
  853; 854; 855; 856; 857; 858; 859; 860; 861; 862; 863; 864; 865; 866; 867; 868; 869; 870; 871; 872; 873;
  874; 875; 876; 877; 878; 879; 1155; 1156; 1157; 1158; 1159; 1425; 1426; 1427; 1428; 1429; 1430; 1431;
  1432; 1433; 1434; 1435; 1436; 1437; 1438; 1439; 1440; 1441; 1442; 1443; 1444; 1445; 1446; 1447; 1448;
  1449; 1450; 1451; 1452; 1453; 1454; 1455; 1456; 1457; 1458; 1459; 1460; 1461; 1462; 1463; 1464; 1465;
  1466; 1467; 1468; 1469; 1471; 1473; 1474; 1476; 1477; 1479; 1552; 1553; 1554; 1555; 1556; 1557; 1558;
  1559; 1560; 1561; 1562; 1611; 1612; 1613; 1614; 1615; 1616; 1617; 1618; 1619; 1620; 1621; 1622; 1623;
  1624; 1625; 1626; 1627; 1628; 1629; 1630; 1631; 1648; 1750; 1751; 1752; 1753; 1754; 1755; 1756; 1759;
  1760; 1761; 1762; 1763; 1764; 1767; 1768; 1770; 1771; 1772; 1773; 1809; 1840; 1841; 1842; 1843; 1844;
  1845; 1846; 1847; 1848; 1849; 1850; 1851; 1852; 1853; 1854; 1855; 1856; 1857; 1858; 1859; 1860; 1861;
  1862; 1863; 1864; 1865; 1866; 2027; 2028; 2029; 2030; 2031; 2032; 2033; 2034; 2035; 2045; 2070; 2071;
  2072; 2073; 2075; 2076; 2077; 2078; 2079; 2080; 2081; 2082; 2083; 2085; 2086; 2087; 2089; 2090; 2091;
  2092; 2093; 2137; 2138; 2139; 2200; 2201; 2202; 2203; 2204; 2205; 2206; 2207; 2250; 2251; 2252; 2253;
  2254; 2255; 2256; 2257; 2258; 2259; 2260; 2261; 2262; 2263; 2264; 2265; 2266; 2267; 2268; 2269; 2270;
  2271; 2272; 2273; 2275; 2276; 2277; 2278; 2279; 2280; 2281; 2282; 2283; 2284; 2285; 2286; 2287; 2288;
  2289; 2290; 2291; 2292; 2293; 2294; 2295; 2296; 2297; 2298; 2299; 2300; 2301; 2302; 2303; 2364; 2381;
  2385; 2386; 2387; 2388; 2492; 2509; 2558; 2620; 2637; 2748; 2765; 2876; 2893; 3021; 3132; 3149; 3157;
  3158; 3260; 3277; 3387; 3388; 3405; 3530; 3640; 3641; 3642; 3656; 3657; 3658; 3659; 3768; 3769; 3770;
  3784; 3785; 3786; 3787; 3864; 3865; 3893; 3895; 3897; 3953; 3954; 3956; 3962; 3963; 3964; 3965; 3968;
  3970; 3971; 3972; 3974; 3975; 4038; 4151; 4153; 4154; 4237; 4957; 4958; 4959; 5908; 5909; 5940; 6098;
  6109; 6313; 6457; 6458; 6459; 6679; 6680; 6752; 6773; 6774; 6775; 6776; 6777; 6778; 6779; 6780; 6783;
  6832; 6833; 6834; 6835; 6836; 6837; 6838; 6839; 6840; 6841; 6842; 6843; 6844; 6845; 6847; 6848; 6849;
  6850; 6851; 6852; 6853; 6854; 6855; 6856; 6857; 6858; 6859; 6860; 6861; 6862; 6964; 6980; 7019; 7020;
  7021; 7022; 7023; 7024; 7025; 7026; 7027; 7082; 7083; 7142; 7154; 7155; 7223; 7376; 7377; 7378; 7380;
  7381; 7382; 7383; 7384; 7385; 7386; 7387; 7388; 7389; 7390; 7391; 7392; 7394; 7395; 7396; 7397; 7398;
  7399; 7400; 7405; 7412; 7416; 7417; 7616; 7617; 7618; 7619; 7620; 7621; 7622; 7623; 7624; 7625; 7626;
  7627; 7628; 7629; 7630; 7631; 7632; 7633; 7634; 7635; 7636; 7637; 7638; 7639; 7640; 7641; 7642; 7643;
  7644; 7645; 7646; 7647; 7648; 7649; 7650; 7651; 7652; 7653; 7654; 7655; 7656; 7657; 7658; 7659; 7660;
  7661; 7662; 7663; 7664; 7665; 7666; 7667; 7668; 7669; 7670; 7671; 7672; 7673; 7674; 7675; 7676; 7677;
  7678; 7679; 8400; 8401; 8402; 8403; 8404; 8405; 8406; 8407; 8408; 8409; 8410; 8411; 8412; 8417; 8421;
  8422; 8423; 8424; 8425; 8426; 8427; 8428; 8429; 8430; 8431; 8432; 11503; 11504; 11505; 11647; 11744;
  11745; 11746; 11747; 11748; 11749; 11750; 11751; 11752; 11753; 11754; 11755; 11756; 11757; 11758; 11759;
  11760; 11761; 11762; 11763; 11764; 11765; 11766; 11767; 11768; 11769; 11770; 11771; 11772; 11773; 11774;
  11775; 12330; 12331; 12332; 12333; 12334; 12335; 12441; 12442; 42607; 42612; 42613; 42614; 42615; 42616;
  42617; 42618; 42619; 42620; 42621; 42654; 42655; 42736; 42737; 43014; 43052; 43204; 43232; 43233; 43234;
  43235; 43236; 43237; 43238; 43239; 43240; 43241; 43242; 43243; 43244; 43245; 43246; 43247; 43248; 43249;
  43307; 43308; 43309; 43347; 43443; 43456; 43696; 43698; 43699; 43700; 43703; 43704; 43710; 43711; 43713;
  43766; 44013; 64286; 65056; 65057; 65058; 65059; 65060; 65061; 65062; 65063; 65064; 65065; 65066; 65067;
  65068; 65069; 65070; 65071; 66045; 66272; 66422; 66423; 66424; 66425; 66426; 68109; 68111; 68152; 68153;
  68154; 68159; 68325; 68326; 68900; 68901; 68902; 68903; 69291; 69292; 69373; 69374; 69375; 69446; 69447;
  69448; 69449; 69450; 69451; 69452; 69453; 69454; 69455; 69456; 69506; 69507; 69508; 69509; 69702; 69744;
  69759; 69817; 69818; 69888; 69889; 69890; 69939; 69940; 70003; 70080; 70090; 70197; 70198; 70377; 70378;
  70459; 70460; 70477; 70502; 70503; 70504; 70505; 70506; 70507; 70508; 70512; 70513; 70514; 70515; 70516;
  70722; 70726; 70750; 70850; 70851; 71103; 71104; 71231; 71350; 71351; 71467; 71737; 71738; 71997; 71998;
  72003; 72160; 72244; 72263; 72345; 72767; 73026; 73028; 73029; 73111; 73537; 73538; 92912; 92913; 92914;
  92915; 92916; 92976; 92977; 92978; 92979; 92980; 92981; 92982; 94192; 94193; 113822; 119141; 119142;
  119143; 119144; 119145; 119149; 119150; 119151; 119152; 119153; 119154; 119163; 119164; 119165; 119166;
  119167; 119168; 119169; 119170; 119173; 119174; 119175; 119176; 119177; 119178; 119179; 119210; 119211;
  119212; 119213; 119362; 119363; 119364; 122880; 122881; 122882; 122883; 122884; 122885; 122886; 122888;
  122889; 122890; 122891; 122892; 122893; 122894; 122895; 122896; 122897; 122898; 122899; 122900; 122901;
  122902; 122903; 122904; 122907; 122908; 122909; 122910; 122911; 122912; 122913; 122915; 122916; 122918;
  122919; 122920; 122921; 122922; 123023; 123184; 123185; 123186; 123187; 123188; 123189; 123190; 123566;
  123628; 123629; 123630; 123631; 124140; 124141; 124142; 124143; 125136; 125137; 125138; 125139; 125140;
  125141; 125142; 125252; 125253; 125254; 125255; 125256; 125257; 125258].

Definition cccVal : list Z := [
  230; 230; 230; 230; 230; 230; 230; 230; 230; 230; 230; 230; 230; 230; 230; 230; 230; 230; 230; 230; 230;
  232; 220; 220; 220; 220; 232; 216; 220; 220; 220; 220; 220; 202; 202; 220; 220; 220; 220; 202; 202; 220;
  220; 220; 220; 220; 220; 220; 220; 220; 220; 220; 1; 1; 1; 1; 1; 220; 220; 220; 220; 230; 230; 230; 230;
  230; 230; 230; 230; 240; 230; 220; 220; 220; 230; 230; 230; 220; 220; 230; 230; 230; 220; 220; 220; 220;
  230; 232; 220; 220; 230; 233; 234; 234; 233; 234; 234; 233; 230; 230; 230; 230; 230; 230; 230; 230; 230;
  230; 230; 230; 230; 230; 230; 230; 230; 230; 220; 230; 230; 230; 230; 220; 230; 230; 230; 222; 220; 230;
  230; 230; 230; 230; 230; 220; 220; 220; 220; 220; 220; 230; 230; 220; 230; 230; 222; 228; 230; 10; 11;
  12; 13; 14; 15; 16; 17; 18; 19; 19; 20; 21; 22; 23; 24; 25; 230; 220; 18; 230; 230; 230; 230; 230; 230;
  230; 230; 30; 31; 32; 27; 28; 29; 30; 31; 32; 33; 34; 230; 230; 220; 220; 230; 230; 230; 230; 230; 220;
  230; 230; 220; 35; 230; 230; 230; 230; 230; 230; 230; 230; 230; 230; 230; 220; 230; 230; 230; 220; 230;
  230; 220; 36; 230; 220; 230; 230; 220; 230; 230; 220; 220; 220; 230; 220; 220; 230; 220; 230; 230; 230;
  220; 230; 220; 230; 220; 230; 220; 230; 230; 230; 230; 230; 230; 230; 230; 230; 220; 230; 220; 230; 230;
  230; 230; 230; 230; 230; 230; 230; 230; 230; 230; 230; 230; 230; 230; 230; 230; 230; 230; 230; 220; 220;
  220; 230; 220; 220; 220; 230; 230; 230; 230; 230; 230; 230; 230; 230; 220; 220; 220; 220; 220; 230; 230;
  230; 230; 230; 230; 230; 230; 230; 230; 230; 230; 230; 230; 220; 230; 230; 220; 230; 230; 220; 230; 230;
  230; 220; 220; 220; 27; 28; 29; 230; 230; 230; 220; 230; 230; 220; 220; 230; 230; 230; 230; 230; 7; 9;
  230; 220; 230; 230; 7; 9; 230; 7; 9; 7; 9; 7; 9; 9; 7; 9; 84; 91; 7; 9; 9; 9; 9; 9; 103; 103; 9; 107;
  107; 107; 107; 118; 118; 9; 122; 122; 122; 122; 220; 220; 220; 220; 216; 129; 130; 132; 130; 130; 130;
  130; 130; 230; 230; 9; 230; 230; 220; 7; 9; 9; 220; 230; 230; 230; 9; 9; 9; 9; 230; 228; 222; 230; 220;
  230; 220; 9; 230; 230; 230; 230; 230; 230; 230; 230; 220; 230; 230; 230; 230; 230; 220; 220; 220; 220;
  220; 220; 230; 230; 220; 220; 220; 230; 230; 220; 220; 230; 230; 230; 230; 230; 220; 230; 230; 230; 230;
  7; 9; 230; 220; 230; 230; 230; 230; 230; 230; 230; 9; 9; 7; 9; 9; 7; 230; 230; 230; 1; 220; 220; 220;
  220; 220; 230; 230; 220; 220; 220; 220; 230; 1; 1; 1; 1; 1; 1; 1; 220; 230; 230; 230; 230; 230; 220; 230;
  230; 230; 230; 230; 230; 230; 220; 230; 230; 234; 214; 220; 202; 230; 230; 230; 230; 230; 230; 230; 230;
  230; 230; 230; 230; 230; 230; 230; 230; 230; 230; 230; 230; 230; 230; 230; 230; 230; 230; 230; 230; 230;
  230; 230; 230; 230; 230; 230; 230; 230; 232; 228; 228; 220; 218; 230; 233; 220; 230; 220; 230; 230; 1; 1;
  230; 230; 230; 230; 1; 1; 1; 230; 230; 230; 1; 1; 230; 220; 230; 1; 1; 220; 220; 220; 220; 230; 230; 230;
  230; 9; 230; 230; 230; 230; 230; 230; 230; 230; 230; 230; 230; 230; 230; 230; 230; 230; 230; 230; 230;
  230; 230; 230; 230; 230; 230; 230; 230; 230; 230; 230; 230; 230; 218; 228; 232; 222; 224; 224; 8; 8; 230;
  230; 230; 230; 230; 230; 230; 230; 230; 230; 230; 230; 230; 230; 230; 9; 9; 9; 230; 230; 230; 230; 230;
  230; 230; 230; 230; 230; 230; 230; 230; 230; 230; 230; 230; 230; 220; 220; 220; 9; 7; 9; 230; 230; 230;
  220; 230; 230; 230; 230; 230; 9; 9; 26; 230; 230; 230; 230; 230; 230; 230; 220; 220; 220; 220; 220; 220;
  220; 230; 230; 220; 220; 230; 230; 230; 230; 230; 220; 230; 230; 1; 220; 9; 230; 220; 230; 230; 230; 230;
  230; 230; 220; 220; 220; 220; 220; 230; 230; 230; 220; 230; 220; 220; 220; 220; 230; 220; 230; 220; 9; 9;
  9; 9; 7; 230; 230; 230; 9; 9; 7; 9; 7; 9; 7; 7; 9; 7; 7; 9; 230; 230; 230; 230; 230; 230; 230; 230; 230;
  230; 230; 230; 9; 7; 230; 9; 7; 9; 7; 9; 9; 7; 9; 9; 7; 9; 9; 7; 9; 9; 9; 9; 9; 7; 9; 9; 9; 9; 9; 1; 1;
  1; 1; 1; 230; 230; 230; 230; 230; 230; 230; 6; 6; 1; 216; 216; 1; 1; 1; 226; 216; 216; 216; 216; 216;
  220; 220; 220; 220; 220; 220; 220; 220; 230; 230; 230; 230; 230; 220; 220; 230; 230; 230; 230; 230; 230;
  230; 230; 230; 230; 230; 230; 230; 230; 230; 230; 230; 230; 230; 230; 230; 230; 230; 230; 230; 230; 230;
  230; 230; 230; 230; 230; 230; 230; 230; 230; 230; 230; 230; 230; 230; 230; 230; 230; 230; 230; 230; 230;
  230; 230; 230; 230; 230; 230; 230; 230; 230; 230; 232; 232; 220; 230; 220; 220; 220; 220; 220; 220; 220;
  230; 230; 230; 230; 230; 230; 7].

Definition decompKey : list Z := [
  192; 193; 194; 195; 196; 197; 199; 200; 201; 202; 203; 204; 205; 206; 207; 209; 210; 211; 212; 213; 214;
  217; 218; 219; 220; 221; 224; 225; 226; 227; 228; 229; 231; 232; 233; 234; 235; 236; 237; 238; 239; 241;
  242; 243; 244; 245; 246; 249; 250; 251; 252; 253; 255; 256; 257; 258; 259; 260; 261; 262; 263; 264; 265;
  266; 267; 268; 269; 270; 271; 274; 275; 276; 277; 278; 279; 280; 281; 282; 283; 284; 285; 286; 287; 288;
  289; 290; 291; 292; 293; 296; 297; 298; 299; 300; 301; 302; 303; 304; 308; 309; 310; 311; 313; 314; 315;
  316; 317; 318; 323; 324; 325; 326; 327; 328; 332; 333; 334; 335; 336; 337; 340; 341; 342; 343; 344; 345;
  346; 347; 348; 349; 350; 351; 352; 353; 354; 355; 356; 357; 360; 361; 362; 363; 364; 365; 366; 367; 368;
  369; 370; 371; 372; 373; 374; 375; 376; 377; 378; 379; 380; 381; 382; 416; 417; 431; 432; 461; 462; 463;
  464; 465; 466; 467; 468; 469; 470; 471; 472; 473; 474; 475; 476; 478; 479; 480; 481; 482; 483; 486; 487;
  488; 489; 490; 491; 492; 493; 494; 495; 496; 500; 501; 504; 505; 506; 507; 508; 509; 510; 511; 512; 513;
  514; 515; 516; 517; 518; 519; 520; 521; 522; 523; 524; 525; 526; 527; 528; 529; 530; 531; 532; 533; 534;
  535; 536; 537; 538; 539; 542; 543; 550; 551; 552; 553; 554; 555; 556; 557; 558; 559; 560; 561; 562; 563;
  832; 833; 835; 836; 884; 894; 901; 902; 903; 904; 905; 906; 908; 910; 911; 912; 938; 939; 940; 941; 942;
  943; 944; 970; 971; 972; 973; 974; 979; 980; 1024; 1025; 1027; 1031; 1036; 1037; 1038; 1049; 1081; 1104;
  1105; 1107; 1111; 1116; 1117; 1118; 1142; 1143; 1217; 1218; 1232; 1233; 1234; 1235; 1238; 1239; 1242;
  1243; 1244; 1245; 1246; 1247; 1250; 1251; 1252; 1253; 1254; 1255; 1258; 1259; 1260; 1261; 1262; 1263;
  1264; 1265; 1266; 1267; 1268; 1269; 1272; 1273; 1570; 1571; 1572; 1573; 1574; 1728; 1730; 1747; 2345;
  2353; 2356; 2392; 2393; 2394; 2395; 2396; 2397; 2398; 2399; 2507; 2508; 2524; 2525; 2527; 2611; 2614;
  2649; 2650; 2651; 2654; 2888; 2891; 2892; 2908; 2909; 2964; 3018; 3019; 3020; 3144; 3264; 3271; 3272;
  3274; 3275; 3402; 3403; 3404; 3546; 3548; 3549; 3550; 3907; 3917; 3922; 3927; 3932; 3945; 3955; 3957;
  3958; 3960; 3969; 3987; 3997; 4002; 4007; 4012; 4025; 4134; 6918; 6920; 6922; 6924; 6926; 6930; 6971;
  6973; 6976; 6977; 6979; 7680; 7681; 7682; 7683; 7684; 7685; 7686; 7687; 7688; 7689; 7690; 7691; 7692;
  7693; 7694; 7695; 7696; 7697; 7698; 7699; 7700; 7701; 7702; 7703; 7704; 7705; 7706; 7707; 7708; 7709;
  7710; 7711; 7712; 7713; 7714; 7715; 7716; 7717; 7718; 7719; 7720; 7721; 7722; 7723; 7724; 7725; 7726;
  7727; 7728; 7729; 7730; 7731; 7732; 7733; 7734; 7735; 7736; 7737; 7738; 7739; 7740; 7741; 7742; 7743;
  7744; 7745; 7746; 7747; 7748; 7749; 7750; 7751; 7752; 7753; 7754; 7755; 7756; 7757; 7758; 7759; 7760;
  7761; 7762; 7763; 7764; 7765; 7766; 7767; 7768; 7769; 7770; 7771; 7772; 7773; 7774; 7775; 7776; 7777;
  7778; 7779; 7780; 7781; 7782; 7783; 7784; 7785; 7786; 7787; 7788; 7789; 7790; 7791; 7792; 7793; 7794;
  7795; 7796; 7797; 7798; 7799; 7800; 7801; 7802; 7803; 7804; 7805; 7806; 7807; 7808; 7809; 7810; 7811;
  7812; 7813; 7814; 7815; 7816; 7817; 7818; 7819; 7820; 7821; 7822; 7823; 7824; 7825; 7826; 7827; 7828;
  7829; 7830; 7831; 7832; 7833; 7835; 7840; 7841; 7842; 7843; 7844; 7845; 7846; 7847; 7848; 7849; 7850;
  7851; 7852; 7853; 7854; 7855; 7856; 7857; 7858; 7859; 7860; 7861; 7862; 7863; 7864; 7865; 7866; 7867;
  7868; 7869; 7870; 7871; 7872; 7873; 7874; 7875; 7876; 7877; 7878; 7879; 7880; 7881; 7882; 7883; 7884;
  7885; 7886; 7887; 7888; 7889; 7890; 7891; 7892; 7893; 7894; 7895; 7896; 7897; 7898; 7899; 7900; 7901;
  7902; 7903; 7904; 7905; 7906; 7907; 7908; 7909; 7910; 7911; 7912; 7913; 7914; 7915; 7916; 7917; 7918;
  7919; 7920; 7921; 7922; 7923; 7924; 7925; 7926; 7927; 7928; 7929; 7936; 7937; 7938; 7939; 7940; 7941;
  7942; 7943; 7944; 7945; 7946; 7947; 7948; 7949; 7950; 7951; 7952; 7953; 7954; 7955; 7956; 7957; 7960;
  7961; 7962; 7963; 7964; 7965; 7968; 7969; 7970; 7971; 7972; 7973; 7974; 7975; 7976; 7977; 7978; 7979;
  7980; 7981; 7982; 7983; 7984; 7985; 7986; 7987; 7988; 7989; 7990; 7991; 7992; 7993; 7994; 7995; 7996;
  7997; 7998; 7999; 8000; 8001; 8002; 8003; 8004; 8005; 8008; 8009; 8010; 8011; 8012; 8013; 8016; 8017;
  8018; 8019; 8020; 8021; 8022; 8023; 8025; 8027; 8029; 8031; 8032; 8033; 8034; 8035; 8036; 8037; 8038;
  8039; 8040; 8041; 8042; 8043; 8044; 8045; 8046; 8047; 8048; 8049; 8050; 8051; 8052; 8053; 8054; 8055;
  8056; 8057; 8058; 8059; 8060; 8061; 8064; 8065; 8066; 8067; 8068; 8069; 8070; 8071; 8072; 8073; 8074;
  8075; 8076; 8077; 8078; 8079; 8080; 8081; 8082; 8083; 8084; 8085; 8086; 8087; 8088; 8089; 8090; 8091;
  8092; 8093; 8094; 8095; 8096; 8097; 8098; 8099; 8100; 8101; 8102; 8103; 8104; 8105; 8106; 8107; 8108;
  8109; 8110; 8111; 8112; 8113; 8114; 8115; 8116; 8118; 8119; 8120; 8121; 8122; 8123; 8124; 8126; 8129;
  8130; 8131; 8132; 8134; 8135; 8136; 8137; 8138; 8139; 8140; 8141; 8142; 8143; 8144; 8145; 8146; 8147;
  8150; 8151; 8152; 8153; 8154; 8155; 8157; 8158; 8159; 8160; 8161; 8162; 8163; 8164; 8165; 8166; 8167;
  8168; 8169; 8170; 8171; 8172; 8173; 8174; 8175; 8178; 8179; 8180; 8182; 8183; 8184; 8185; 8186; 8187;
  8188; 8189; 8192; 8193; 8486; 8490; 8491; 8602; 8603; 8622; 8653; 8654; 8655; 8708; 8713; 8716; 8740;
  8742; 8769; 8772; 8775; 8777; 8800; 8802; 8813; 8814; 8815; 8816; 8817; 8820; 8821; 8824; 8825; 8832;
  8833; 8836; 8837; 8840; 8841; 8876; 8877; 8878; 8879; 8928; 8929; 8930; 8931; 8938; 8939; 8940; 8941;
  9001; 9002; 10972; 12364; 12366; 12368; 12370; 12372; 12374; 12376; 12378; 12380; 12382; 12384; 12386;
  12389; 12391; 12393; 12400; 12401; 12403; 12404; 12406; 12407; 12409; 12410; 12412; 12413; 12436; 12446;
  12460; 12462; 12464; 12466; 12468; 12470; 12472; 12474; 12476; 12478; 12480; 12482; 12485; 12487; 12489;
  12496; 12497; 12499; 12500; 12502; 12503; 12505; 12506; 12508; 12509; 12532; 12535; 12536; 12537; 12538;
  12542; 63744; 63745; 63746; 63747; 63748; 63749; 63750; 63751; 63752; 63753; 63754; 63755; 63756; 63757;
  63758; 63759; 63760; 63761; 63762; 63763; 63764; 63765; 63766; 63767; 63768; 63769; 63770; 63771; 63772;
  63773; 63774; 63775; 63776; 63777; 63778; 63779; 63780; 63781; 63782; 63783; 63784; 63785; 63786; 63787;
  63788; 63789; 63790; 63791; 63792; 63793; 63794; 63795; 63796; 63797; 63798; 63799; 63800; 63801; 63802;
  63803; 63804; 63805; 63806; 63807; 63808; 63809; 63810; 63811; 63812; 63813; 63814; 63815; 63816; 63817;
  63818; 63819; 63820; 63821; 63822; 63823; 63824; 63825; 63826; 63827; 63828; 63829; 63830; 63831; 63832;
  63833; 63834; 63835; 63836; 63837; 63838; 63839; 63840; 63841; 63842; 63843; 63844; 63845; 63846; 63847;
  63848; 63849; 63850; 63851; 63852; 63853; 63854; 63855; 63856; 63857; 63858; 63859; 63860; 63861; 63862;
  63863; 63864; 63865; 63866; 63867; 63868; 63869; 63870; 63871; 63872; 63873; 63874; 63875; 63876; 63877;
  63878; 63879; 63880; 63881; 63882; 63883; 63884; 63885; 63886; 63887; 63888; 63889; 63890; 63891; 63892;
  63893; 63894; 63895; 63896; 63897; 63898; 63899; 63900; 63901; 63902; 63903; 63904; 63905; 63906; 63907;
  63908; 63909; 63910; 63911; 63912; 63913; 63914; 63915; 63916; 63917; 63918; 63919; 63920; 63921; 63922;
  63923; 63924; 63925; 63926; 63927; 63928; 63929; 63930; 63931; 63932; 63933; 63934; 63935; 63936; 63937;
  63938; 63939; 63940; 63941; 63942; 63943; 63944; 63945; 63946; 63947; 63948; 63949; 63950; 63951; 63952;
  63953; 63954; 63955; 63956; 63957; 63958; 63959; 63960; 63961; 63962; 63963; 63964; 63965; 63966; 63967;
  63968; 63969; 63970; 63971; 63972; 63973; 63974; 63975; 63976; 63977; 63978; 63979; 63980; 63981; 63982;
  63983; 63984; 63985; 63986; 63987; 63988; 63989; 63990; 63991; 63992; 63993; 63994; 63995; 63996; 63997;
  63998; 63999; 64000; 64001; 64002; 64003; 64004; 64005; 64006; 64007; 64008; 64009; 64010; 64011; 64012;
  64013; 64016; 64018; 64021; 64022; 64023; 64024; 64025; 64026; 64027; 64028; 64029; 64030; 64032; 64034;
  64037; 64038; 64042; 64043; 64044; 64045; 64046; 64047; 64048; 64049; 64050; 64051; 64052; 64053; 64054;
  64055; 64056; 64057; 64058; 64059; 64060; 64061; 64062; 64063; 64064; 64065; 64066; 64067; 64068; 64069;
  64070; 64071; 64072; 64073; 64074; 64075; 64076; 64077; 64078; 64079; 64080; 64081; 64082; 64083; 64084;
  64085; 64086; 64087; 64088; 64089; 64090; 64091; 64092; 64093; 64094; 64095; 64096; 64097; 64098; 64099;
  64100; 64101; 64102; 64103; 64104; 64105; 64106; 64107; 64108; 64109; 64112; 64113; 64114; 64115; 64116;
  64117; 64118; 64119; 64120; 64121; 64122; 64123; 64124; 64125; 64126; 64127; 64128; 64129; 64130; 64131;
  64132; 64133; 64134; 64135; 64136; 64137; 64138; 64139; 64140; 64141; 64142; 64143; 64144; 64145; 64146;
  64147; 64148; 64149; 64150; 64151; 64152; 64153; 64154; 64155; 64156; 64157; 64158; 64159; 64160; 64161;
  64162; 64163; 64164; 64165; 64166; 64167; 64168; 64169; 64170; 64171; 64172; 64173; 64174; 64175; 64176;
  64177; 64178; 64179; 64180; 64181; 64182; 64183; 64184; 64185; 64186; 64187; 64188; 64189; 64190; 64191;
  64192; 64193; 64194; 64195; 64196; 64197; 64198; 64199; 64200; 64201; 64202; 64203; 64204; 64205; 64206;
  64207; 64208; 64209; 64210; 64211; 64212; 64213; 64214; 64215; 64216; 64217; 64285; 64287; 64298; 64299;
  64300; 64301; 64302; 64303; 64304; 64305; 64306; 64307; 64308; 64309; 64310; 64312; 64313; 64314; 64315;
  64316; 64318; 64320; 64321; 64323; 64324; 64326; 64327; 64328; 64329; 64330; 64331; 64332; 64333; 64334;
  69786; 69788; 69803; 69934; 69935; 70475; 70476; 70843; 70844; 70846; 71098; 71099; 71992; 119134;
  119135; 119136; 119137; 119138; 119139; 119140; 119227; 119228; 119229; 119230; 119231; 119232; 194560;
  194561; 194562; 194563; 194564; 194565; 194566; 194567; 194568; 194569; 194570; 194571; 194572; 194573;
  194574; 194575; 194576; 194577; 194578; 194579; 194580; 194581; 194582; 194583; 194584; 194585; 194586;
  194587; 194588; 194589; 194590; 194591; 194592; 194593; 194594; 194595; 194596; 194597; 194598; 194599;
  194600; 194601; 194602; 194603; 194604; 194605; 194606; 194607; 194608; 194609; 194610; 194611; 194612;
  194613; 194614; 194615; 194616; 194617; 194618; 194619; 194620; 194621; 194622; 194623; 194624; 194625;
  194626; 194627; 194628; 194629; 194630; 194631; 194632; 194633; 194634; 194635; 194636; 194637; 194638;
  194639; 194640; 194641; 194642; 194643; 194644; 194645; 194646; 194647; 194648; 194649; 194650; 194651;
  194652; 194653; 194654; 194655; 194656; 194657; 194658; 194659; 194660; 194661; 194662; 194663; 194664;
  194665; 194666; 194667; 194668; 194669; 194670; 194671; 194672; 194673; 194674; 194675; 194676; 194677;
  194678; 194679; 194680; 194681; 194682; 194683; 194684; 194685; 194686; 194687; 194688; 194689; 194690;
  194691; 194692; 194693; 194694; 194695; 194696; 194697; 194698; 194699; 194700; 194701; 194702; 194703;
  194704; 194705; 194706; 194707; 194708; 194709; 194710; 194711; 194712; 194713; 194714; 194715; 194716;
  194717; 194718; 194719; 194720; 194721; 194722; 194723; 194724; 194725; 194726; 194727; 194728; 194729;
  194730; 194731; 194732; 194733; 194734; 194735; 194736; 194737; 194738; 194739; 194740; 194741; 194742;
  194743; 194744; 194745; 194746; 194747; 194748; 194749; 194750; 194751; 194752; 194753; 194754; 194755;
  194756; 194757; 194758; 194759; 194760; 194761; 194762; 194763; 194764; 194765; 194766; 194767; 194768;
  194769; 194770; 194771; 194772; 194773; 194774; 194775; 194776; 194777; 194778; 194779; 194780; 194781;
  194782; 194783; 194784; 194785; 194786; 194787; 194788; 194789; 194790; 194791; 194792; 194793; 194794;
  194795; 194796; 194797; 194798; 194799; 194800; 194801; 194802; 194803; 194804; 194805; 194806; 194807;
  194808; 194809; 194810; 194811; 194812; 194813; 194814; 194815; 194816; 194817; 194818; 194819; 194820;
  194821; 194822; 194823; 194824; 194825; 194826; 194827; 194828; 194829; 194830; 194831; 194832; 194833;
  194834; 194835; 194836; 194837; 194838; 194839; 194840; 194841; 194842; 194843; 194844; 194845; 194846;
  194847; 194848; 194849; 194850; 194851; 194852; 194853; 194854; 194855; 194856; 194857; 194858; 194859;
  194860; 194861; 194862; 194863; 194864; 194865; 194866; 194867; 194868; 194869; 194870; 194871; 194872;
  194873; 194874; 194875; 194876; 194877; 194878; 194879; 194880; 194881; 194882; 194883; 194884; 194885;
  194886; 194887; 194888; 194889; 194890; 194891; 194892; 194893; 194894; 194895; 194896; 194897; 194898;
  194899; 194900; 194901; 194902; 194903; 194904; 194905; 194906; 194907; 194908; 194909; 194910; 194911;
  194912; 194913; 194914; 194915; 194916; 194917; 194918; 194919; 194920; 194921; 194922; 194923; 194924;
  194925; 194926; 194927; 194928; 194929; 194930; 194931; 194932; 194933; 194934; 194935; 194936; 194937;
  194938; 194939; 194940; 194941; 194942; 194943; 194944; 194945; 194946; 194947; 194948; 194949; 194950;
  194951; 194952; 194953; 194954; 194955; 194956; 194957; 194958; 194959; 194960; 194961; 194962; 194963;
  194964; 194965; 194966; 194967; 194968; 194969; 194970; 194971; 194972; 194973; 194974; 194975; 194976;
  194977; 194978; 194979; 194980; 194981; 194982; 194983; 194984; 194985; 194986; 194987; 194988; 194989;
  194990; 194991; 194992; 194993; 194994; 194995; 194996; 194997; 194998; 194999; 195000; 195001; 195002;
  195003; 195004; 195005; 195006; 195007; 195008; 195009; 195010; 195011; 195012; 195013; 195014; 195015;
  195016; 195017; 195018; 195019; 195020; 195021; 195022; 195023; 195024; 195025; 195026; 195027; 195028;
  195029; 195030; 195031; 195032; 195033; 195034; 195035; 195036; 195037; 195038; 195039; 195040; 195041;
  195042; 195043; 195044; 195045; 195046; 195047; 195048; 195049; 195050; 195051; 195052; 195053; 195054;
  195055; 195056; 195057; 195058; 195059; 195060; 195061; 195062; 195063; 195064; 195065; 195066; 195067;
  195068; 195069; 195070; 195071; 195072; 195073; 195074; 195075; 195076; 195077; 195078; 195079; 195080;
  195081; 195082; 195083; 195084; 195085; 195086; 195087; 195088; 195089; 195090; 195091; 195092; 195093;
  195094; 195095; 195096; 195097; 195098; 195099; 195100; 195101].

Definition decompOffset : list Z := [
  0; 2; 4; 6; 8; 10; 12; 14; 16; 18; 20; 22; 24; 26; 28; 30; 32; 34; 36; 38; 40; 42; 44; 46; 48; 50; 52;
  54; 56; 58; 60; 62; 64; 66; 68; 70; 72; 74; 76; 78; 80; 82; 84; 86; 88; 90; 92; 94; 96; 98; 100; 102;
  104; 106; 108; 110; 112; 114; 116; 118; 120; 122; 124; 126; 128; 130; 132; 134; 136; 138; 140; 142; 144;
  146; 148; 150; 152; 154; 156; 158; 160; 162; 164; 166; 168; 170; 172; 174; 176; 178; 180; 182; 184; 186;
  188; 190; 192; 194; 196; 198; 200; 202; 204; 206; 208; 210; 212; 214; 216; 218; 220; 222; 224; 226; 228;
  230; 232; 234; 236; 238; 240; 242; 244; 246; 248; 250; 252; 254; 256; 258; 260; 262; 264; 266; 268; 270;
  272; 274; 276; 278; 280; 282; 284; 286; 288; 290; 292; 294; 296; 298; 300; 302; 304; 306; 308; 310; 312;
  314; 316; 318; 320; 322; 324; 326; 328; 330; 332; 334; 336; 338; 340; 342; 344; 346; 349; 352; 355; 358;
  361; 364; 367; 370; 373; 376; 379; 382; 384; 386; 388; 390; 392; 394; 396; 398; 401; 404; 406; 408; 410;
  412; 414; 416; 418; 421; 424; 426; 428; 430; 432; 434; 436; 438; 440; 442; 444; 446; 448; 450; 452; 454;
  456; 458; 460; 462; 464; 466; 468; 470; 472; 474; 476; 478; 480; 482; 484; 486; 488; 490; 492; 494; 496;
  498; 500; 503; 506; 509; 512; 514; 516; 519; 522; 524; 526; 527; 528; 529; 531; 532; 533; 535; 537; 538;
  540; 542; 544; 546; 548; 550; 553; 555; 557; 559; 561; 563; 565; 568; 570; 572; 574; 576; 578; 580; 582;
  584; 586; 588; 590; 592; 594; 596; 598; 600; 602; 604; 606; 608; 610; 612; 614; 616; 618; 620; 622; 624;
  626; 628; 630; 632; 634; 636; 638; 640; 642; 644; 646; 648; 650; 652; 654; 656; 658; 660; 662; 664; 666;
  668; 670; 672; 674; 676; 678; 680; 682; 684; 686; 688; 690; 692; 694; 696; 698; 700; 702; 704; 706; 708;
  710; 712; 714; 716; 718; 720; 722; 724; 726; 728; 730; 732; 734; 736; 738; 740; 742; 744; 746; 748; 750;
  752; 754; 756; 758; 760; 762; 764; 766; 768; 770; 772; 774; 777; 779; 781; 783; 785; 787; 790; 792; 794;
  796; 798; 800; 802; 804; 806; 808; 810; 812; 814; 816; 818; 820; 822; 824; 826; 828; 830; 832; 834; 836;
  838; 840; 842; 844; 846; 848; 850; 852; 854; 856; 858; 860; 862; 864; 866; 869; 872; 874; 876; 878; 880;
  882; 884; 886; 888; 890; 892; 895; 898; 901; 904; 906; 908; 910; 912; 915; 918; 920; 922; 924; 926; 928;
  930; 932; 934; 936; 938; 940; 942; 944; 946; 948; 950; 953; 956; 958; 960; 962; 964; 966; 968; 970; 972;
  975; 978; 980; 982; 984; 986; 988; 990; 992; 994; 996; 998; 1000; 1002; 1004; 1006; 1008; 1010; 1012;
  1014; 1017; 1020; 1023; 1026; 1029; 1032; 1035; 1038; 1040; 1042; 1044; 1046; 1048; 1050; 1052; 1054;
  1057; 1060; 1062; 1064; 1066; 1068; 1070; 1072; 1075; 1078; 1081; 1084; 1087; 1090; 1092; 1094; 1096;
  1098; 1100; 1102; 1104; 1106; 1108; 1110; 1112; 1114; 1116; 1118; 1121; 1124; 1127; 1130; 1132; 1134;
  1136; 1138; 1140; 1142; 1144; 1146; 1148; 1150; 1152; 1154; 1156; 1158; 1160; 1162; 1164; 1166; 1168;
  1170; 1172; 1174; 1176; 1178; 1180; 1182; 1184; 1186; 1188; 1190; 1192; 1194; 1196; 1198; 1200; 1203;
  1206; 1209; 1212; 1215; 1218; 1221; 1224; 1227; 1230; 1233; 1236; 1239; 1242; 1245; 1248; 1251; 1254;
  1257; 1260; 1262; 1264; 1266; 1268; 1270; 1272; 1275; 1278; 1281; 1284; 1287; 1290; 1293; 1296; 1299;
  1302; 1304; 1306; 1308; 1310; 1312; 1314; 1316; 1318; 1321; 1324; 1327; 1330; 1333; 1336; 1339; 1342;
  1345; 1348; 1351; 1354; 1357; 1360; 1363; 1366; 1369; 1372; 1375; 1378; 1380; 1382; 1384; 1386; 1389;
  1392; 1395; 1398; 1401; 1404; 1407; 1410; 1413; 1416; 1418; 1420; 1422; 1424; 1426; 1428; 1430; 1432;
  1434; 1436; 1439; 1442; 1445; 1448; 1451; 1454; 1456; 1458; 1461; 1464; 1467; 1470; 1473; 1476; 1478;
  1480; 1483; 1486; 1489; 1492; 1494; 1496; 1499; 1502; 1505; 1508; 1510; 1512; 1515; 1518; 1521; 1524;
  1527; 1530; 1532; 1534; 1537; 1540; 1543; 1546; 1549; 1552; 1554; 1556; 1559; 1562; 1565; 1568; 1571;
  1574; 1576; 1578; 1581; 1584; 1587; 1590; 1593; 1596; 1598; 1600; 1603; 1606; 1609; 1612; 1614; 1616;
  1619; 1622; 1625; 1628; 1630; 1632; 1635; 1638; 1641; 1644; 1647; 1650; 1652; 1655; 1658; 1661; 1663;
  1665; 1668; 1671; 1674; 1677; 1680; 1683; 1685; 1687; 1690; 1693; 1696; 1699; 1702; 1705; 1707; 1709;
  1711; 1713; 1715; 1717; 1719; 1721; 1723; 1725; 1727; 1729; 1731; 1733; 1736; 1739; 1743; 1747; 1751;
  1755; 1759; 1763; 1766; 1769; 1773; 1777; 1781; 1785; 1789; 1793; 1796; 1799; 1803; 1807; 1811; 1815;
  1819; 1823; 1826; 1829; 1833; 1837; 1841; 1845; 1849; 1853; 1856; 1859; 1863; 1867; 1871; 1875; 1879;
  1883; 1886; 1889; 1893; 1897; 1901; 1905; 1909; 1913; 1915; 1917; 1920; 1922; 1925; 1927; 1930; 1932;
  1934; 1936; 1938; 1940; 1941; 1943; 1946; 1948; 1951; 1953; 1956; 1958; 1960; 1962; 1964; 1966; 1968;
  1970; 1972; 1974; 1976; 1979; 1982; 1984; 1987; 1989; 1991; 1993; 1995; 1997; 1999; 2001; 2003; 2005;
  2008; 2011; 2013; 2015; 2017; 2020; 2022; 2024; 2026; 2028; 2030; 2032; 2034; 2035; 2038; 2040; 2043;
  2045; 2048; 2050; 2052; 2054; 2056; 2058; 2059; 2060; 2061; 2062; 2063; 2065; 2067; 2069; 2071; 2073;
  2075; 2077; 2079; 2081; 2083; 2085; 2087; 2089; 2091; 2093; 2095; 2097; 2099; 2101; 2103; 2105; 2107;
  2109; 2111; 2113; 2115; 2117; 2119; 2121; 2123; 2125; 2127; 2129; 2131; 2133; 2135; 2137; 2139; 2141;
  2143; 2145; 2147; 2149; 2151; 2153; 2154; 2155; 2157; 2159; 2161; 2163; 2165; 2167; 2169; 2171; 2173;
  2175; 2177; 2179; 2181; 2183; 2185; 2187; 2189; 2191; 2193; 2195; 2197; 2199; 2201; 2203; 2205; 2207;
  2209; 2211; 2213; 2215; 2217; 2219; 2221; 2223; 2225; 2227; 2229; 2231; 2233; 2235; 2237; 2239; 2241;
  2243; 2245; 2247; 2249; 2251; 2253; 2255; 2257; 2259; 2261; 2263; 2265; 2267; 2269; 2271; 2273; 2274;
  2275; 2276; 2277; 2278; 2279; 2280; 2281; 2282; 2283; 2284; 2285; 2286; 2287; 2288; 2289; 2290; 2291;
  2292; 2293; 2294; 2295; 2296; 2297; 2298; 2299; 2300; 2301; 2302; 2303; 2304; 2305; 2306; 2307; 2308;
  2309; 2310; 2311; 2312; 2313; 2314; 2315; 2316; 2317; 2318; 2319; 2320; 2321; 2322; 2323; 2324; 2325;
  2326; 2327; 2328; 2329; 2330; 2331; 2332; 2333; 2334; 2335; 2336; 2337; 2338; 2339; 2340; 2341; 2342;
  2343; 2344; 2345; 2346; 2347; 2348; 2349; 2350; 2351; 2352; 2353; 2354; 2355; 2356; 2357; 2358; 2359;
  2360; 2361; 2362; 2363; 2364; 2365; 2366; 2367; 2368; 2369; 2370; 2371; 2372; 2373; 2374; 2375; 2376;
  2377; 2378; 2379; 2380; 2381; 2382; 2383; 2384; 2385; 2386; 2387; 2388; 2389; 2390; 2391; 2392; 2393;
  2394; 2395; 2396; 2397; 2398; 2399; 2400; 2401; 2402; 2403; 2404; 2405; 2406; 2407; 2408; 2409; 2410;
  2411; 2412; 2413; 2414; 2415; 2416; 2417; 2418; 2419; 2420; 2421; 2422; 2423; 2424; 2425; 2426; 2427;
  2428; 2429; 2430; 2431; 2432; 2433; 2434; 2435; 2436; 2437; 2438; 2439; 2440; 2441; 2442; 2443; 2444;
  2445; 2446; 2447; 2448; 2449; 2450; 2451; 2452; 2453; 2454; 2455; 2456; 2457; 2458; 2459; 2460; 2461;
  2462; 2463; 2464; 2465; 2466; 2467; 2468; 2469; 2470; 2471; 2472; 2473; 2474; 2475; 2476; 2477; 2478;
  2479; 2480; 2481; 2482; 2483; 2484; 2485; 2486; 2487; 2488; 2489; 2490; 2491; 2492; 2493; 2494; 2495;
  2496; 2497; 2498; 2499; 2500; 2501; 2502; 2503; 2504; 2505; 2506; 2507; 2508; 2509; 2510; 2511; 2512;
  2513; 2514; 2515; 2516; 2517; 2518; 2519; 2520; 2521; 2522; 2523; 2524; 2525; 2526; 2527; 2528; 2529;
  2530; 2531; 2532; 2533; 2534; 2535; 2536; 2537; 2538; 2539; 2540; 2541; 2542; 2543; 2544; 2545; 2546;
  2547; 2548; 2549; 2550; 2551; 2552; 2553; 2554; 2555; 2556; 2557; 2558; 2559; 2560; 2561; 2562; 2563;
  2564; 2565; 2566; 2567; 2568; 2569; 2570; 2571; 2572; 2573; 2574; 2575; 2576; 2577; 2578; 2579; 2580;
  2581; 2582; 2583; 2584; 2585; 2586; 2587; 2588; 2589; 2590; 2591; 2592; 2593; 2594; 2595; 2596; 2597;
  2598; 2599; 2600; 2601; 2602; 2603; 2604; 2605; 2606; 2607; 2608; 2609; 2610; 2611; 2612; 2613; 2614;
  2615; 2616; 2617; 2618; 2619; 2620; 2621; 2622; 2623; 2624; 2625; 2626; 2627; 2628; 2629; 2630; 2631;
  2632; 2633; 2634; 2635; 2636; 2637; 2638; 2639; 2640; 2641; 2642; 2643; 2644; 2645; 2646; 2647; 2648;
  2649; 2650; 2651; 2652; 2653; 2654; 2655; 2656; 2657; 2658; 2659; 2660; 2661; 2662; 2663; 2664; 2665;
  2666; 2667; 2668; 2669; 2670; 2671; 2672; 2673; 2674; 2675; 2676; 2677; 2678; 2679; 2680; 2681; 2682;
  2683; 2684; 2685; 2686; 2687; 2688; 2689; 2690; 2691; 2692; 2693; 2694; 2695; 2696; 2697; 2698; 2699;
  2700; 2701; 2702; 2703; 2704; 2705; 2706; 2707; 2708; 2709; 2710; 2711; 2712; 2713; 2714; 2715; 2716;
  2717; 2718; 2719; 2720; 2721; 2722; 2723; 2724; 2725; 2726; 2727; 2728; 2729; 2730; 2731; 2732; 2733;
  2735; 2737; 2739; 2741; 2744; 2747; 2749; 2751; 2753; 2755; 2757; 2759; 2761; 2763; 2765; 2767; 2769;
  2771; 2773; 2775; 2777; 2779; 2781; 2783; 2785; 2787; 2789; 2791; 2793; 2795; 2797; 2799; 2801; 2803;
  2805; 2807; 2809; 2811; 2813; 2815; 2817; 2819; 2821; 2823; 2825; 2827; 2829; 2831; 2833; 2836; 2839;
  2842; 2845; 2848; 2850; 2852; 2855; 2858; 2861; 2864; 2865; 2866; 2867; 2868; 2869; 2870; 2871; 2872;
  2873; 2874; 2875; 2876; 2877; 2878; 2879; 2880; 2881; 2882; 2883; 2884; 2885; 2886; 2887; 2888; 2889;
  2890; 2891; 2892; 2893; 2894; 2895; 2896; 2897; 2898; 2899; 2900; 2901; 2902; 2903; 2904; 2905; 2906;
  2907; 2908; 2909; 2910; 2911; 2912; 2913; 2914; 2915; 2916; 2917; 2918; 2919; 2920; 2921; 2922; 2923;
  2924; 2925; 2926; 2927; 2928; 2929; 2930; 2931; 2932; 2933; 2934; 2935; 2936; 2937; 2938; 2939; 2940;
  2941; 2942; 2943; 2944; 2945; 2946; 2947; 2948; 2949; 2950; 2951; 2952; 2953; 2954; 2955; 2956; 2957;
  2958; 2959; 2960; 2961; 2962; 2963; 2964; 2965; 2966; 2967; 2968; 2969; 2970; 2971; 2972; 2973; 2974;
  2975; 2976; 2977; 2978; 2979; 2980; 2981; 2982; 2983; 2984; 2985; 2986; 2987; 2988; 2989; 2990; 2991;
  2992; 2993; 2994; 2995; 2996; 2997; 2998; 2999; 3000; 3001; 3002; 3003; 3004; 3005; 3006; 3007; 3008;
  3009; 3010; 3011; 3012; 3013; 3014; 3015; 3016; 3017; 3018; 3019; 3020; 3021; 3022; 3023; 3024; 3025;
  3026; 3027; 3028; 3029; 3030; 3031; 3032; 3033; 3034; 3035; 3036; 3037; 3038; 3039; 3040; 3041; 3042;
  3043; 3044; 3045; 3046; 3047; 3048; 3049; 3050; 3051; 3052; 3053; 3054; 3055; 3056; 3057; 3058; 3059;
  3060; 3061; 3062; 3063; 3064; 3065; 3066; 3067; 3068; 3069; 3070; 3071; 3072; 3073; 3074; 3075; 3076;
  3077; 3078; 3079; 3080; 3081; 3082; 3083; 3084; 3085; 3086; 3087; 3088; 3089; 3090; 3091; 3092; 3093;
  3094; 3095; 3096; 3097; 3098; 3099; 3100; 3101; 3102; 3103; 3104; 3105; 3106; 3107; 3108; 3109; 3110;
  3111; 3112; 3113; 3114; 3115; 3116; 3117; 3118; 3119; 3120; 3121; 3122; 3123; 3124; 3125; 3126; 3127;
  3128; 3129; 3130; 3131; 3132; 3133; 3134; 3135; 3136; 3137; 3138; 3139; 3140; 3141; 3142; 3143; 3144;
  3145; 3146; 3147; 3148; 3149; 3150; 3151; 3152; 3153; 3154; 3155; 3156; 3157; 3158; 3159; 3160; 3161;
  3162; 3163; 3164; 3165; 3166; 3167; 3168; 3169; 3170; 3171; 3172; 3173; 3174; 3175; 3176; 3177; 3178;
  3179; 3180; 3181; 3182; 3183; 3184; 3185; 3186; 3187; 3188; 3189; 3190; 3191; 3192; 3193; 3194; 3195;
  3196; 3197; 3198; 3199; 3200; 3201; 3202; 3203; 3204; 3205; 3206; 3207; 3208; 3209; 3210; 3211; 3212;
  3213; 3214; 3215; 3216; 3217; 3218; 3219; 3220; 3221; 3222; 3223; 3224; 3225; 3226; 3227; 3228; 3229;
  3230; 3231; 3232; 3233; 3234; 3235; 3236; 3237; 3238; 3239; 3240; 3241; 3242; 3243; 3244; 3245; 3246;
  3247; 3248; 3249; 3250; 3251; 3252; 3253; 3254; 3255; 3256; 3257; 3258; 3259; 3260; 3261; 3262; 3263;
  3264; 3265; 3266; 3267; 3268; 3269; 3270; 3271; 3272; 3273; 3274; 3275; 3276; 3277; 3278; 3279; 3280;
  3281; 3282; 3283; 3284; 3285; 3286; 3287; 3288; 3289; 3290; 3291; 3292; 3293; 3294; 3295; 3296; 3297;
  3298; 3299; 3300; 3301; 3302; 3303; 3304; 3305; 3306; 3307; 3308; 3309; 3310; 3311; 3312; 3313; 3314;
  3315; 3316; 3317; 3318; 3319; 3320; 3321; 3322; 3323; 3324; 3325; 3326; 3327; 3328; 3329; 3330; 3331;
  3332; 3333; 3334; 3335; 3336; 3337; 3338; 3339; 3340; 3341; 3342; 3343; 3344; 3345; 3346; 3347; 3348;
  3349; 3350; 3351; 3352; 3353; 3354; 3355; 3356; 3357; 3358; 3359; 3360; 3361; 3362; 3363; 3364; 3365;
  3366; 3367; 3368; 3369; 3370; 3371; 3372; 3373; 3374; 3375; 3376; 3377; 3378; 3379; 3380; 3381; 3382;
  3383; 3384; 3385; 3386; 3387; 3388; 3389; 3390; 3391; 3392; 3393; 3394; 3395; 3396; 3397; 3398; 3399;
  3400; 3401; 3402; 3403; 3404; 3405; 3406].

Definition decompData : list Z := [
  65; 768; 65; 769; 65; 770; 65; 771; 65; 776; 65; 778; 67; 807; 69; 768; 69; 769; 69; 770; 69; 776; 73;
  768; 73; 769; 73; 770; 73; 776; 78; 771; 79; 768; 79; 769; 79; 770; 79; 771; 79; 776; 85; 768; 85; 769;
  85; 770; 85; 776; 89; 769; 97; 768; 97; 769; 97; 770; 97; 771; 97; 776; 97; 778; 99; 807; 101; 768; 101;
  769; 101; 770; 101; 776; 105; 768; 105; 769; 105; 770; 105; 776; 110; 771; 111; 768; 111; 769; 111; 770;
  111; 771; 111; 776; 117; 768; 117; 769; 117; 770; 117; 776; 121; 769; 121; 776; 65; 772; 97; 772; 65;
  774; 97; 774; 65; 808; 97; 808; 67; 769; 99; 769; 67; 770; 99; 770; 67; 775; 99; 775; 67; 780; 99; 780;
  68; 780; 100; 780; 69; 772; 101; 772; 69; 774; 101; 774; 69; 775; 101; 775; 69; 808; 101; 808; 69; 780;
  101; 780; 71; 770; 103; 770; 71; 774; 103; 774; 71; 775; 103; 775; 71; 807; 103; 807; 72; 770; 104; 770;
  73; 771; 105; 771; 73; 772; 105; 772; 73; 774; 105; 774; 73; 808; 105; 808; 73; 775; 74; 770; 106; 770;
  75; 807; 107; 807; 76; 769; 108; 769; 76; 807; 108; 807; 76; 780; 108; 780; 78; 769; 110; 769; 78; 807;
  110; 807; 78; 780; 110; 780; 79; 772; 111; 772; 79; 774; 111; 774; 79; 779; 111; 779; 82; 769; 114; 769;
  82; 807; 114; 807; 82; 780; 114; 780; 83; 769; 115; 769; 83; 770; 115; 770; 83; 807; 115; 807; 83; 780;
  115; 780; 84; 807; 116; 807; 84; 780; 116; 780; 85; 771; 117; 771; 85; 772; 117; 772; 85; 774; 117; 774;
  85; 778; 117; 778; 85; 779; 117; 779; 85; 808; 117; 808; 87; 770; 119; 770; 89; 770; 121; 770; 89; 776;
  90; 769; 122; 769; 90; 775; 122; 775; 90; 780; 122; 780; 79; 795; 111; 795; 85; 795; 117; 795; 65; 780;
  97; 780; 73; 780; 105; 780; 79; 780; 111; 780; 85; 780; 117; 780; 85; 776; 772; 117; 776; 772; 85; 776;
  769; 117; 776; 769; 85; 776; 780; 117; 776; 780; 85; 776; 768; 117; 776; 768; 65; 776; 772; 97; 776; 772;
  65; 775; 772; 97; 775; 772; 198; 772; 230; 772; 71; 780; 103; 780; 75; 780; 107; 780; 79; 808; 111; 808;
  79; 808; 772; 111; 808; 772; 439; 780; 658; 780; 106; 780; 71; 769; 103; 769; 78; 768; 110; 768; 65; 778;
  769; 97; 778; 769; 198; 769; 230; 769; 216; 769; 248; 769; 65; 783; 97; 783; 65; 785; 97; 785; 69; 783;
  101; 783; 69; 785; 101; 785; 73; 783; 105; 783; 73; 785; 105; 785; 79; 783; 111; 783; 79; 785; 111; 785;
  82; 783; 114; 783; 82; 785; 114; 785; 85; 783; 117; 783; 85; 785; 117; 785; 83; 806; 115; 806; 84; 806;
  116; 806; 72; 780; 104; 780; 65; 775; 97; 775; 69; 807; 101; 807; 79; 776; 772; 111; 776; 772; 79; 771;
  772; 111; 771; 772; 79; 775; 111; 775; 79; 775; 772; 111; 775; 772; 89; 772; 121; 772; 768; 769; 787;
  776; 769; 697; 59; 168; 769; 913; 769; 183; 917; 769; 919; 769; 921; 769; 927; 769; 933; 769; 937; 769;
  953; 776; 769; 921; 776; 933; 776; 945; 769; 949; 769; 951; 769; 953; 769; 965; 776; 769; 953; 776; 965;
  776; 959; 769; 965; 769; 969; 769; 978; 769; 978; 776; 1045; 768; 1045; 776; 1043; 769; 1030; 776; 1050;
  769; 1048; 768; 1059; 774; 1048; 774; 1080; 774; 1077; 768; 1077; 776; 1075; 769; 1110; 776; 1082; 769;
  1080; 768; 1091; 774; 1140; 783; 1141; 783; 1046; 774; 1078; 774; 1040; 774; 1072; 774; 1040; 776; 1072;
  776; 1045; 774; 1077; 774; 1240; 776; 1241; 776; 1046; 776; 1078; 776; 1047; 776; 1079; 776; 1048; 772;
  1080; 772; 1048; 776; 1080; 776; 1054; 776; 1086; 776; 1256; 776; 1257; 776; 1069; 776; 1101; 776; 1059;
  772; 1091; 772; 1059; 776; 1091; 776; 1059; 779; 1091; 779; 1063; 776; 1095; 776; 1067; 776; 1099; 776;
  1575; 1619; 1575; 1620; 1608; 1620; 1575; 1621; 1610; 1620; 1749; 1620; 1729; 1620; 1746; 1620; 2344;
  2364; 2352; 2364; 2355; 2364; 2325; 2364; 2326; 2364; 2327; 2364; 2332; 2364; 2337; 2364; 2338; 2364;
  2347; 2364; 2351; 2364; 2503; 2494; 2503; 2519; 2465; 2492; 2466; 2492; 2479; 2492; 2610; 2620; 2616;
  2620; 2582; 2620; 2583; 2620; 2588; 2620; 2603; 2620; 2887; 2902; 2887; 2878; 2887; 2903; 2849; 2876;
  2850; 2876; 2962; 3031; 3014; 3006; 3015; 3006; 3014; 3031; 3142; 3158; 3263; 3285; 3270; 3285; 3270;
  3286; 3270; 3266; 3270; 3266; 3285; 3398; 3390; 3399; 3390; 3398; 3415; 3545; 3530; 3545; 3535; 3545;
  3535; 3530; 3545; 3551; 3906; 4023; 3916; 4023; 3921; 4023; 3926; 4023; 3931; 4023; 3904; 4021; 3953;
  3954; 3953; 3956; 4018; 3968; 4019; 3968; 3953; 3968; 3986; 4023; 3996; 4023; 4001; 4023; 4006; 4023;
  4011; 4023; 3984; 4021; 4133; 4142; 6917; 6965; 6919; 6965; 6921; 6965; 6923; 6965; 6925; 6965; 6929;
  6965; 6970; 6965; 6972; 6965; 6974; 6965; 6975; 6965; 6978; 6965; 65; 805; 97; 805; 66; 775; 98; 775; 66;
  803; 98; 803; 66; 817; 98; 817; 67; 807; 769; 99; 807; 769; 68; 775; 100; 775; 68; 803; 100; 803; 68;
  817; 100; 817; 68; 807; 100; 807; 68; 813; 100; 813; 69; 772; 768; 101; 772; 768; 69; 772; 769; 101; 772;
  769; 69; 813; 101; 813; 69; 816; 101; 816; 69; 807; 774; 101; 807; 774; 70; 775; 102; 775; 71; 772; 103;
  772; 72; 775; 104; 775; 72; 803; 104; 803; 72; 776; 104; 776; 72; 807; 104; 807; 72; 814; 104; 814; 73;
  816; 105; 816; 73; 776; 769; 105; 776; 769; 75; 769; 107; 769; 75; 803; 107; 803; 75; 817; 107; 817; 76;
  803; 108; 803; 76; 803; 772; 108; 803; 772; 76; 817; 108; 817; 76; 813; 108; 813; 77; 769; 109; 769; 77;
  775; 109; 775; 77; 803; 109; 803; 78; 775; 110; 775; 78; 803; 110; 803; 78; 817; 110; 817; 78; 813; 110;
  813; 79; 771; 769; 111; 771; 769; 79; 771; 776; 111; 771; 776; 79; 772; 768; 111; 772; 768; 79; 772; 769;
  111; 772; 769; 80; 769; 112; 769; 80; 775; 112; 775; 82; 775; 114; 775; 82; 803; 114; 803; 82; 803; 772;
  114; 803; 772; 82; 817; 114; 817; 83; 775; 115; 775; 83; 803; 115; 803; 83; 769; 775; 115; 769; 775; 83;
  780; 775; 115; 780; 775; 83; 803; 775; 115; 803; 775; 84; 775; 116; 775; 84; 803; 116; 803; 84; 817; 116;
  817; 84; 813; 116; 813; 85; 804; 117; 804; 85; 816; 117; 816; 85; 813; 117; 813; 85; 771; 769; 117; 771;
  769; 85; 772; 776; 117; 772; 776; 86; 771; 118; 771; 86; 803; 118; 803; 87; 768; 119; 768; 87; 769; 119;
  769; 87; 776; 119; 776; 87; 775; 119; 775; 87; 803; 119; 803; 88; 775; 120; 775; 88; 776; 120; 776; 89;
  775; 121; 775; 90; 770; 122; 770; 90; 803; 122; 803; 90; 817; 122; 817; 104; 817; 116; 776; 119; 778;
  121; 778; 383; 775; 65; 803; 97; 803; 65; 777; 97; 777; 65; 770; 769; 97; 770; 769; 65; 770; 768; 97;
  770; 768; 65; 770; 777; 97; 770; 777; 65; 770; 771; 97; 770; 771; 65; 803; 770; 97; 803; 770; 65; 774;
  769; 97; 774; 769; 65; 774; 768; 97; 774; 768; 65; 774; 777; 97; 774; 777; 65; 774; 771; 97; 774; 771;
  65; 803; 774; 97; 803; 774; 69; 803; 101; 803; 69; 777; 101; 777; 69; 771; 101; 771; 69; 770; 769; 101;
  770; 769; 69; 770; 768; 101; 770; 768; 69; 770; 777; 101; 770; 777; 69; 770; 771; 101; 770; 771; 69; 803;
  770; 101; 803; 770; 73; 777; 105; 777; 73; 803; 105; 803; 79; 803; 111; 803; 79; 777; 111; 777; 79; 770;
  769; 111; 770; 769; 79; 770; 768; 111; 770; 768; 79; 770; 777; 111; 770; 777; 79; 770; 771; 111; 770;
  771; 79; 803; 770; 111; 803; 770; 79; 795; 769; 111; 795; 769; 79; 795; 768; 111; 795; 768; 79; 795; 777;
  111; 795; 777; 79; 795; 771; 111; 795; 771; 79; 795; 803; 111; 795; 803; 85; 803; 117; 803; 85; 777; 117;
  777; 85; 795; 769; 117; 795; 769; 85; 795; 768; 117; 795; 768; 85; 795; 777; 117; 795; 777; 85; 795; 771;
  117; 795; 771; 85; 795; 803; 117; 795; 803; 89; 768; 121; 768; 89; 803; 121; 803; 89; 777; 121; 777; 89;
  771; 121; 771; 945; 787; 945; 788; 945; 787; 768; 945; 788; 768; 945; 787; 769; 945; 788; 769; 945; 787;
  834; 945; 788; 834; 913; 787; 913; 788; 913; 787; 768; 913; 788; 768; 913; 787; 769; 913; 788; 769; 913;
  787; 834; 913; 788; 834; 949; 787; 949; 788; 949; 787; 768; 949; 788; 768; 949; 787; 769; 949; 788; 769;
  917; 787; 917; 788; 917; 787; 768; 917; 788; 768; 917; 787; 769; 917; 788; 769; 951; 787; 951; 788; 951;
  787; 768; 951; 788; 768; 951; 787; 769; 951; 788; 769; 951; 787; 834; 951; 788; 834; 919; 787; 919; 788;
  919; 787; 768; 919; 788; 768; 919; 787; 769; 919; 788; 769; 919; 787; 834; 919; 788; 834; 953; 787; 953;
  788; 953; 787; 768; 953; 788; 768; 953; 787; 769; 953; 788; 769; 953; 787; 834; 953; 788; 834; 921; 787;
  921; 788; 921; 787; 768; 921; 788; 768; 921; 787; 769; 921; 788; 769; 921; 787; 834; 921; 788; 834; 959;
  787; 959; 788; 959; 787; 768; 959; 788; 768; 959; 787; 769; 959; 788; 769; 927; 787; 927; 788; 927; 787;
  768; 927; 788; 768; 927; 787; 769; 927; 788; 769; 965; 787; 965; 788; 965; 787; 768; 965; 788; 768; 965;
  787; 769; 965; 788; 769; 965; 787; 834; 965; 788; 834; 933; 788; 933; 788; 768; 933; 788; 769; 933; 788;
  834; 969; 787; 969; 788; 969; 787; 768; 969; 788; 768; 969; 787; 769; 969; 788; 769; 969; 787; 834; 969;
  788; 834; 937; 787; 937; 788; 937; 787; 768; 937; 788; 768; 937; 787; 769; 937; 788; 769; 937; 787; 834;
  937; 788; 834; 945; 768; 945; 769; 949; 768; 949; 769; 951; 768; 951; 769; 953; 768; 953; 769; 959; 768;
  959; 769; 965; 768; 965; 769; 969; 768; 969; 769; 945; 787; 837; 945; 788; 837; 945; 787; 768; 837; 945;
  788; 768; 837; 945; 787; 769; 837; 945; 788; 769; 837; 945; 787; 834; 837; 945; 788; 834; 837; 913; 787;
  837; 913; 788; 837; 913; 787; 768; 837; 913; 788; 768; 837; 913; 787; 769; 837; 913; 788; 769; 837; 913;
  787; 834; 837; 913; 788; 834; 837; 951; 787; 837; 951; 788; 837; 951; 787; 768; 837; 951; 788; 768; 837;
  951; 787; 769; 837; 951; 788; 769; 837; 951; 787; 834; 837; 951; 788; 834; 837; 919; 787; 837; 919; 788;
  837; 919; 787; 768; 837; 919; 788; 768; 837; 919; 787; 769; 837; 919; 788; 769; 837; 919; 787; 834; 837;
  919; 788; 834; 837; 969; 787; 837; 969; 788; 837; 969; 787; 768; 837; 969; 788; 768; 837; 969; 787; 769;
  837; 969; 788; 769; 837; 969; 787; 834; 837; 969; 788; 834; 837; 937; 787; 837; 937; 788; 837; 937; 787;
  768; 837; 937; 788; 768; 837; 937; 787; 769; 837; 937; 788; 769; 837; 937; 787; 834; 837; 937; 788; 834;
  837; 945; 774; 945; 772; 945; 768; 837; 945; 837; 945; 769; 837; 945; 834; 945; 834; 837; 913; 774; 913;
  772; 913; 768; 913; 769; 913; 837; 953; 168; 834; 951; 768; 837; 951; 837; 951; 769; 837; 951; 834; 951;
  834; 837; 917; 768; 917; 769; 919; 768; 919; 769; 919; 837; 8127; 768; 8127; 769; 8127; 834; 953; 774;
  953; 772; 953; 776; 768; 953; 776; 769; 953; 834; 953; 776; 834; 921; 774; 921; 772; 921; 768; 921; 769;
  8190; 768; 8190; 769; 8190; 834; 965; 774; 965; 772; 965; 776; 768; 965; 776; 769; 961; 787; 961; 788;
  965; 834; 965; 776; 834; 933; 774; 933; 772; 933; 768; 933; 769; 929; 788; 168; 768; 168; 769; 96; 969;
  768; 837; 969; 837; 969; 769; 837; 969; 834; 969; 834; 837; 927; 768; 927; 769; 937; 768; 937; 769; 937;
  837; 180; 8194; 8195; 937; 75; 65; 778; 8592; 824; 8594; 824; 8596; 824; 8656; 824; 8660; 824; 8658; 824;
  8707; 824; 8712; 824; 8715; 824; 8739; 824; 8741; 824; 8764; 824; 8771; 824; 8773; 824; 8776; 824; 61;
  824; 8801; 824; 8781; 824; 60; 824; 62; 824; 8804; 824; 8805; 824; 8818; 824; 8819; 824; 8822; 824; 8823;
  824; 8826; 824; 8827; 824; 8834; 824; 8835; 824; 8838; 824; 8839; 824; 8866; 824; 8872; 824; 8873; 824;
  8875; 824; 8828; 824; 8829; 824; 8849; 824; 8850; 824; 8882; 824; 8883; 824; 8884; 824; 8885; 824; 12296;
  12297; 10973; 824; 12363; 12441; 12365; 12441; 12367; 12441; 12369; 12441; 12371; 12441; 12373; 12441;
  12375; 12441; 12377; 12441; 12379; 12441; 12381; 12441; 12383; 12441; 12385; 12441; 12388; 12441; 12390;
  12441; 12392; 12441; 12399; 12441; 12399; 12442; 12402; 12441; 12402; 12442; 12405; 12441; 12405; 12442;
  12408; 12441; 12408; 12442; 12411; 12441; 12411; 12442; 12358; 12441; 12445; 12441; 12459; 12441; 12461;
  12441; 12463; 12441; 12465; 12441; 12467; 12441; 12469; 12441; 12471; 12441; 12473; 12441; 12475; 12441;
  12477; 12441; 12479; 12441; 12481; 12441; 12484; 12441; 12486; 12441; 12488; 12441; 12495; 12441; 12495;
  12442; 12498; 12441; 12498; 12442; 12501; 12441; 12501; 12442; 12504; 12441; 12504; 12442; 12507; 12441;
  12507; 12442; 12454; 12441; 12527; 12441; 12528; 12441; 12529; 12441; 12530; 12441; 12541; 12441; 35912;
  26356; 36554; 36040; 28369; 20018; 21477; 40860; 40860; 22865; 37329; 21895; 22856; 25078; 30313; 32645;
  34367; 34746; 35064; 37007; 27138; 27931; 28889; 29662; 33853; 37226; 39409; 20098; 21365; 27396; 29211;
  34349; 40478; 23888; 28651; 34253; 35172; 25289; 33240; 34847; 24266; 26391; 28010; 29436; 37070; 20358;
  20919; 21214; 25796; 27347; 29200; 30439; 32769; 34310; 34396; 36335; 38706; 39791; 40442; 30860; 31103;
  32160; 33737; 37636; 40575; 35542; 22751; 24324; 31840; 32894; 29282; 30922; 36034; 38647; 22744; 23650;
  27155; 28122; 28431; 32047; 32311; 38475; 21202; 32907; 20956; 20940; 31260; 32190; 33777; 38517; 35712;
  25295; 27138; 35582; 20025; 23527; 24594; 29575; 30064; 21271; 30971; 20415; 24489; 19981; 27852; 25976;
  32034; 21443; 22622; 30465; 33865; 35498; 27578; 36784; 27784; 25342; 33509; 25504; 30053; 20142; 20841;
  20937; 26753; 31975; 33391; 35538; 37327; 21237; 21570; 22899; 24300; 26053; 28670; 31018; 38317; 39530;
  40599; 40654; 21147; 26310; 27511; 36706; 24180; 24976; 25088; 25754; 28451; 29001; 29833; 31178; 32244;
  32879; 36646; 34030; 36899; 37706; 21015; 21155; 21693; 28872; 35010; 35498; 24265; 24565; 25467; 27566;
  31806; 29557; 20196; 22265; 23527; 23994; 24604; 29618; 29801; 32666; 32838; 37428; 38646; 38728; 38936;
  20363; 31150; 37300; 38584; 24801; 20102; 20698; 23534; 23615; 26009; 27138; 29134; 30274; 34044; 36988;
  40845; 26248; 38446; 21129; 26491; 26611; 27969; 28316; 29705; 30041; 30827; 32016; 39006; 20845; 25134;
  38520; 20523; 23833; 28138; 36650; 24459; 24900; 26647; 29575; 38534; 21033; 21519; 23653; 26131; 26446;
  26792; 27877; 29702; 30178; 32633; 35023; 35041; 37324; 38626; 21311; 28346; 21533; 29136; 29848; 34298;
  38563; 40023; 40607; 26519; 28107; 33256; 31435; 31520; 31890; 29376; 28825; 35672; 20160; 33590; 21050;
  20999; 24230; 25299; 31958; 23429; 27934; 26292; 36667; 34892; 38477; 35211; 24275; 20800; 21952; 22618;
  26228; 20958; 29482; 30410; 31036; 31070; 31077; 31119; 38742; 31934; 32701; 34322; 35576; 36920; 37117;
  39151; 39164; 39208; 40372; 37086; 38583; 20398; 20711; 20813; 21193; 21220; 21329; 21917; 22022; 22120;
  22592; 22696; 23652; 23662; 24724; 24936; 24974; 25074; 25935; 26082; 26257; 26757; 28023; 28186; 28450;
  29038; 29227; 29730; 30865; 31038; 31049; 31048; 31056; 31062; 31069; 31117; 31118; 31296; 31361; 31680;
  32244; 32265; 32321; 32626; 32773; 33261; 33401; 33401; 33879; 35088; 35222; 35585; 35641; 36051; 36104;
  36790; 36920; 38627; 38911; 38971; 24693; 148206; 33304; 20006; 20917; 20840; 20352; 20805; 20864; 21191;
  21242; 21917; 21845; 21913; 21986; 22618; 22707; 22852; 22868; 23138; 23336; 24274; 24281; 24425; 24493;
  24792; 24910; 24840; 24974; 24928; 25074; 25140; 25540; 25628; 25682; 25942; 26228; 26391; 26395; 26454;
  27513; 27578; 27969; 28379; 28363; 28450; 28702; 29038; 30631; 29237; 29359; 29482; 29809; 29958; 30011;
  30237; 30239; 30410; 30427; 30452; 30538; 30528; 30924; 31409; 31680; 31867; 32091; 32244; 32574; 32773;
  33618; 33775; 34681; 35137; 35206; 35222; 35519; 35576; 35531; 35585; 35582; 35565; 35641; 35722; 36104;
  36664; 36978; 37273; 37494; 38524; 38627; 38742; 38875; 38911; 38923; 38971; 39698; 40860; 141386;
  141380; 144341; 15261; 16408; 16441; 152137; 154832; 163539; 40771; 40846; 1497; 1460; 1522; 1463; 1513;
  1473; 1513; 1474; 1513; 1468; 1473; 1513; 1468; 1474; 1488; 1463; 1488; 1464; 1488; 1468; 1489; 1468;
  1490; 1468; 1491; 1468; 1492; 1468; 1493; 1468; 1494; 1468; 1496; 1468; 1497; 1468; 1498; 1468; 1499;
  1468; 1500; 1468; 1502; 1468; 1504; 1468; 1505; 1468; 1507; 1468; 1508; 1468; 1510; 1468; 1511; 1468;
  1512; 1468; 1513; 1468; 1514; 1468; 1493; 1465; 1489; 1471; 1499; 1471; 1508; 1471; 69785; 69818; 69787;
  69818; 69797; 69818; 69937; 69927; 69938; 69927; 70471; 70462; 70471; 70487; 70841; 70842; 70841; 70832;
  70841; 70845; 71096; 71087; 71097; 71087; 71989; 71984; 119127; 119141; 119128; 119141; 119128; 119141;
  119150; 119128; 119141; 119151; 119128; 119141; 119152; 119128; 119141; 119153; 119128; 119141; 119154;
  119225; 119141; 119226; 119141; 119225; 119141; 119150; 119226; 119141; 119150; 119225; 119141; 119151;
  119226; 119141; 119151; 20029; 20024; 20033; 131362; 20320; 20398; 20411; 20482; 20602; 20633; 20711;
  20687; 13470; 132666; 20813; 20820; 20836; 20855; 132380; 13497; 20839; 20877; 132427; 20887; 20900;
  20172; 20908; 20917; 168415; 20981; 20995; 13535; 21051; 21062; 21106; 21111; 13589; 21191; 21193; 21220;
  21242; 21253; 21254; 21271; 21321; 21329; 21338; 21363; 21373; 21375; 21375; 21375; 133676; 28784; 21450;
  21471; 133987; 21483; 21489; 21510; 21662; 21560; 21576; 21608; 21666; 21750; 21776; 21843; 21859; 21892;
  21892; 21913; 21931; 21939; 21954; 22294; 22022; 22295; 22097; 22132; 20999; 22766; 22478; 22516; 22541;
  22411; 22578; 22577; 22700; 136420; 22770; 22775; 22790; 22810; 22818; 22882; 136872; 136938; 23020;
  23067; 23079; 23000; 23142; 14062; 14076; 23304; 23358; 23358; 137672; 23491; 23512; 23527; 23539;
  138008; 23551; 23558; 24403; 23586; 14209; 23648; 23662; 23744; 23693; 138724; 23875; 138726; 23918;
  23915; 23932; 24033; 24034; 14383; 24061; 24104; 24125; 24169; 14434; 139651; 14460; 24240; 24243; 24246;
  24266; 172946; 24318; 140081; 140081; 33281; 24354; 24354; 14535; 144056; 156122; 24418; 24427; 14563;
  24474; 24525; 24535; 24569; 24705; 14650; 14620; 24724; 141012; 24775; 24904; 24908; 24910; 24908; 24954;
  24974; 25010; 24996; 25007; 25054; 25074; 25078; 25104; 25115; 25181; 25265; 25300; 25424; 142092; 25405;
  25340; 25448; 25475; 25572; 142321; 25634; 25541; 25513; 14894; 25705; 25726; 25757; 25719; 14956; 25935;
  25964; 143370; 26083; 26360; 26185; 15129; 26257; 15112; 15076; 20882; 20885; 26368; 26268; 32941; 17369;
  26391; 26395; 26401; 26462; 26451; 144323; 15177; 26618; 26501; 26706; 26757; 144493; 26766; 26655;
  26900; 15261; 26946; 27043; 27114; 27304; 145059; 27355; 15384; 27425; 145575; 27476; 15438; 27506;
  27551; 27578; 27579; 146061; 138507; 146170; 27726; 146620; 27839; 27853; 27751; 27926; 27966; 28023;
  27969; 28009; 28024; 28037; 146718; 27956; 28207; 28270; 15667; 28363; 28359; 147153; 28153; 28526;
  147294; 147342; 28614; 28729; 28702; 28699; 15766; 28746; 28797; 28791; 28845; 132389; 28997; 148067;
  29084; 148395; 29224; 29237; 29264; 149000; 29312; 29333; 149301; 149524; 29562; 29579; 16044; 29605;
  16056; 16056; 29767; 29788; 29809; 29829; 29898; 16155; 29988; 150582; 30014; 150674; 30064; 139679;
  30224; 151457; 151480; 151620; 16380; 16392; 30452; 151795; 151794; 151833; 151859; 30494; 30495; 30495;
  30538; 16441; 30603; 16454; 16534; 152605; 30798; 30860; 30924; 16611; 153126; 31062; 153242; 153285;
  31119; 31211; 16687; 31296; 31306; 31311; 153980; 154279; 154279; 31470; 16898; 154539; 31686; 31689;
  16935; 154752; 31954; 17056; 31976; 31971; 32000; 155526; 32099; 17153; 32199; 32258; 32325; 17204;
  156200; 156231; 17241; 156377; 32634; 156478; 32661; 32762; 32773; 156890; 156963; 32864; 157096; 32880;
  144223; 17365; 32946; 33027; 17419; 33086; 23221; 157607; 157621; 144275; 144284; 33281; 33284; 36766;
  17515; 33425; 33419; 33437; 21171; 33457; 33459; 33469; 33510; 158524; 33509; 33565; 33635; 33709; 33571;
  33725; 33767; 33879; 33619; 33738; 33740; 33756; 158774; 159083; 158933; 17707; 34033; 34035; 34070;
  160714; 34148; 159532; 17757; 17761; 159665; 159954; 17771; 34384; 34396; 34407; 34409; 34473; 34440;
  34574; 34530; 34681; 34600; 34667; 34694; 17879; 34785; 34817; 17913; 34912; 34915; 161383; 35031; 35038;
  17973; 35066; 13499; 161966; 162150; 18110; 18119; 35488; 35565; 35722; 35925; 162984; 36011; 36033;
  36123; 36215; 163631; 133124; 36299; 36284; 36336; 133342; 36564; 36664; 165330; 165357; 37012; 37105;
  37137; 165678; 37147; 37432; 37591; 37592; 37500; 37881; 37909; 166906; 38283; 18837; 38327; 167287;
  18918; 38595; 23986; 38691; 168261; 168474; 19054; 19062; 38880; 168970; 19122; 169110; 38923; 38923;
  38953; 169398; 39138; 19251; 39209; 39335; 39362; 39422; 19406; 170800; 39698; 40000; 40189; 19662;
  19693; 40295; 172238; 19704; 172293; 172558; 172689; 40635; 19798; 40697; 40702; 40709; 40719; 40726;
  40763; 173568].

Definition compatDecompKey : list Z := [
  160; 168; 170; 175; 178; 179; 180; 181; 184; 185; 186; 188; 189; 190; 192; 193; 194; 195; 196; 197; 199;
  200; 201; 202; 203; 204; 205; 206; 207; 209; 210; 211; 212; 213; 214; 217; 218; 219; 220; 221; 224; 225;
  226; 227; 228; 229; 231; 232; 233; 234; 235; 236; 237; 238; 239; 241; 242; 243; 244; 245; 246; 249; 250;
  251; 252; 253; 255; 256; 257; 258; 259; 260; 261; 262; 263; 264; 265; 266; 267; 268; 269; 270; 271; 274;
  275; 276; 277; 278; 279; 280; 281; 282; 283; 284; 285; 286; 287; 288; 289; 290; 291; 292; 293; 296; 297;
  298; 299; 300; 301; 302; 303; 304; 306; 307; 308; 309; 310; 311; 313; 314; 315; 316; 317; 318; 319; 320;
  323; 324; 325; 326; 327; 328; 329; 332; 333; 334; 335; 336; 337; 340; 341; 342; 343; 344; 345; 346; 347;
  348; 349; 350; 351; 352; 353; 354; 355; 356; 357; 360; 361; 362; 363; 364; 365; 366; 367; 368; 369; 370;
  371; 372; 373; 374; 375; 376; 377; 378; 379; 380; 381; 382; 383; 416; 417; 431; 432; 452; 453; 454; 455;
  456; 457; 458; 459; 460; 461; 462; 463; 464; 465; 466; 467; 468; 469; 470; 471; 472; 473; 474; 475; 476;
  478; 479; 480; 481; 482; 483; 486; 487; 488; 489; 490; 491; 492; 493; 494; 495; 496; 497; 498; 499; 500;
  501; 504; 505; 506; 507; 508; 509; 510; 511; 512; 513; 514; 515; 516; 517; 518; 519; 520; 521; 522; 523;
  524; 525; 526; 527; 528; 529; 530; 531; 532; 533; 534; 535; 536; 537; 538; 539; 542; 543; 550; 551; 552;
  553; 554; 555; 556; 557; 558; 559; 560; 561; 562; 563; 688; 689; 690; 691; 692; 693; 694; 695; 696; 728;
  729; 730; 731; 732; 733; 736; 737; 738; 739; 740; 832; 833; 835; 836; 884; 890; 894; 900; 901; 902; 903;
  904; 905; 906; 908; 910; 911; 912; 938; 939; 940; 941; 942; 943; 944; 970; 971; 972; 973; 974; 976; 977;
  978; 979; 980; 981; 982; 1008; 1009; 1010; 1012; 1013; 1017; 1024; 1025; 1027; 1031; 1036; 1037; 1038;
  1049; 1081; 1104; 1105; 1107; 1111; 1116; 1117; 1118; 1142; 1143; 1217; 1218; 1232; 1233; 1234; 1235;
  1238; 1239; 1242; 1243; 1244; 1245; 1246; 1247; 1250; 1251; 1252; 1253; 1254; 1255; 1258; 1259; 1260;
  1261; 1262; 1263; 1264; 1265; 1266; 1267; 1268; 1269; 1272; 1273; 1415; 1570; 1571; 1572; 1573; 1574;
  1653; 1654; 1655; 1656; 1728; 1730; 1747; 2345; 2353; 2356; 2392; 2393; 2394; 2395; 2396; 2397; 2398;
  2399; 2507; 2508; 2524; 2525; 2527; 2611; 2614; 2649; 2650; 2651; 2654; 2888; 2891; 2892; 2908; 2909;
  2964; 3018; 3019; 3020; 3144; 3264; 3271; 3272; 3274; 3275; 3402; 3403; 3404; 3546; 3548; 3549; 3550;
  3635; 3763; 3804; 3805; 3852; 3907; 3917; 3922; 3927; 3932; 3945; 3955; 3957; 3958; 3959; 3960; 3961;
  3969; 3987; 3997; 4002; 4007; 4012; 4025; 4134; 4348; 6918; 6920; 6922; 6924; 6926; 6930; 6971; 6973;
  6976; 6977; 6979; 7468; 7469; 7470; 7472; 7473; 7474; 7475; 7476; 7477; 7478; 7479; 7480; 7481; 7482;
  7484; 7485; 7486; 7487; 7488; 7489; 7490; 7491; 7492; 7493; 7494; 7495; 7496; 7497; 7498; 7499; 7500;
  7501; 7503; 7504; 7505; 7506; 7507; 7508; 7509; 7510; 7511; 7512; 7513; 7514; 7515; 7516; 7517; 7518;
  7519; 7520; 7521; 7522; 7523; 7524; 7525; 7526; 7527; 7528; 7529; 7530; 7544; 7579; 7580; 7581; 7582;
  7583; 7584; 7585; 7586; 7587; 7588; 7589; 7590; 7591; 7592; 7593; 7594; 7595; 7596; 7597; 7598; 7599;
  7600; 7601; 7602; 7603; 7604; 7605; 7606; 7607; 7608; 7609; 7610; 7611; 7612; 7613; 7614; 7615; 7680;
  7681; 7682; 7683; 7684; 7685; 7686; 7687; 7688; 7689; 7690; 7691; 7692; 7693; 7694; 7695; 7696; 7697;
  7698; 7699; 7700; 7701; 7702; 7703; 7704; 7705; 7706; 7707; 7708; 7709; 7710; 7711; 7712; 7713; 7714;
  7715; 7716; 7717; 7718; 7719; 7720; 7721; 7722; 7723; 7724; 7725; 7726; 7727; 7728; 7729; 7730; 7731;
  7732; 7733; 7734; 7735; 7736; 7737; 7738; 7739; 7740; 7741; 7742; 7743; 7744; 7745; 7746; 7747; 7748;
  7749; 7750; 7751; 7752; 7753; 7754; 7755; 7756; 7757; 7758; 7759; 7760; 7761; 7762; 7763; 7764; 7765;
  7766; 7767; 7768; 7769; 7770; 7771; 7772; 7773; 7774; 7775; 7776; 7777; 7778; 7779; 7780; 7781; 7782;
  7783; 7784; 7785; 7786; 7787; 7788; 7789; 7790; 7791; 7792; 7793; 7794; 7795; 7796; 7797; 7798; 7799;
  7800; 7801; 7802; 7803; 7804; 7805; 7806; 7807; 7808; 7809; 7810; 7811; 7812; 7813; 7814; 7815; 7816;
  7817; 7818; 7819; 7820; 7821; 7822; 7823; 7824; 7825; 7826; 7827; 7828; 7829; 7830; 7831; 7832; 7833;
  7834; 7835; 7840; 7841; 7842; 7843; 7844; 7845; 7846; 7847; 7848; 7849; 7850; 7851; 7852; 7853; 7854;
  7855; 7856; 7857; 7858; 7859; 7860; 7861; 7862; 7863; 7864; 7865; 7866; 7867; 7868; 7869; 7870; 7871;
  7872; 7873; 7874; 7875; 7876; 7877; 7878; 7879; 7880; 7881; 7882; 7883; 7884; 7885; 7886; 7887; 7888;
  7889; 7890; 7891; 7892; 7893; 7894; 7895; 7896; 7897; 7898; 7899; 7900; 7901; 7902; 7903; 7904; 7905;
  7906; 7907; 7908; 7909; 7910; 7911; 7912; 7913; 7914; 7915; 7916; 7917; 7918; 7919; 7920; 7921; 7922;
  7923; 7924; 7925; 7926; 7927; 7928; 7929; 7936; 7937; 7938; 7939; 7940; 7941; 7942; 7943; 7944; 7945;
  7946; 7947; 7948; 7949; 7950; 7951; 7952; 7953; 7954; 7955; 7956; 7957; 7960; 7961; 7962; 7963; 7964;
  7965; 7968; 7969; 7970; 7971; 7972; 7973; 7974; 7975; 7976; 7977; 7978; 7979; 7980; 7981; 7982; 7983;
  7984; 7985; 7986; 7987; 7988; 7989; 7990; 7991; 7992; 7993; 7994; 7995; 7996; 7997; 7998; 7999; 8000;
  8001; 8002; 8003; 8004; 8005; 8008; 8009; 8010; 8011; 8012; 8013; 8016; 8017; 8018; 8019; 8020; 8021;
  8022; 8023; 8025; 8027; 8029; 8031; 8032; 8033; 8034; 8035; 8036; 8037; 8038; 8039; 8040; 8041; 8042;
  8043; 8044; 8045; 8046; 8047; 8048; 8049; 8050; 8051; 8052; 8053; 8054; 8055; 8056; 8057; 8058; 8059;
  8060; 8061; 8064; 8065; 8066; 8067; 8068; 8069; 8070; 8071; 8072; 8073; 8074; 8075; 8076; 8077; 8078;
  8079; 8080; 8081; 8082; 8083; 8084; 8085; 8086; 8087; 8088; 8089; 8090; 8091; 8092; 8093; 8094; 8095;
  8096; 8097; 8098; 8099; 8100; 8101; 8102; 8103; 8104; 8105; 8106; 8107; 8108; 8109; 8110; 8111; 8112;
  8113; 8114; 8115; 8116; 8118; 8119; 8120; 8121; 8122; 8123; 8124; 8125; 8126; 8127; 8128; 8129; 8130;
  8131; 8132; 8134; 8135; 8136; 8137; 8138; 8139; 8140; 8141; 8142; 8143; 8144; 8145; 8146; 8147; 8150;
  8151; 8152; 8153; 8154; 8155; 8157; 8158; 8159; 8160; 8161; 8162; 8163; 8164; 8165; 8166; 8167; 8168;
  8169; 8170; 8171; 8172; 8173; 8174; 8175; 8178; 8179; 8180; 8182; 8183; 8184; 8185; 8186; 8187; 8188;
  8189; 8190; 8192; 8193; 8194; 8195; 8196; 8197; 8198; 8199; 8200; 8201; 8202; 8209; 8215; 8228; 8229;
  8230; 8239; 8243; 8244; 8246; 8247; 8252; 8254; 8263; 8264; 8265; 8279; 8287; 8304; 8305; 8308; 8309;
  8310; 8311; 8312; 8313; 8314; 8315; 8316; 8317; 8318; 8319; 8320; 8321; 8322; 8323; 8324; 8325; 8326;
  8327; 8328; 8329; 8330; 8331; 8332; 8333; 8334; 8336; 8337; 8338; 8339; 8340; 8341; 8342; 8343; 8344;
  8345; 8346; 8347; 8348; 8360; 8448; 8449; 8450; 8451; 8453; 8454; 8455; 8457; 8458; 8459; 8460; 8461;
  8462; 8463; 8464; 8465; 8466; 8467; 8469; 8470; 8473; 8474; 8475; 8476; 8477; 8480; 8481; 8482; 8484;
  8486; 8488; 8490; 8491; 8492; 8493; 8495; 8496; 8497; 8499; 8500; 8501; 8502; 8503; 8504; 8505; 8507;
  8508; 8509; 8510; 8511; 8512; 8517; 8518; 8519; 8520; 8521; 8528; 8529; 8530; 8531; 8532; 8533; 8534;
  8535; 8536; 8537; 8538; 8539; 8540; 8541; 8542; 8543; 8544; 8545; 8546; 8547; 8548; 8549; 8550; 8551;
  8552; 8553; 8554; 8555; 8556; 8557; 8558; 8559; 8560; 8561; 8562; 8563; 8564; 8565; 8566; 8567; 8568;
  8569; 8570; 8571; 8572; 8573; 8574; 8575; 8585; 8602; 8603; 8622; 8653; 8654; 8655; 8708; 8713; 8716;
  8740; 8742; 8748; 8749; 8751; 8752; 8769; 8772; 8775; 8777; 8800; 8802; 8813; 8814; 8815; 8816; 8817;
  8820; 8821; 8824; 8825; 8832; 8833; 8836; 8837; 8840; 8841; 8876; 8877; 8878; 8879; 8928; 8929; 8930;
  8931; 8938; 8939; 8940; 8941; 9001; 9002; 9312; 9313; 9314; 9315; 9316; 9317; 9318; 9319; 9320; 9321;
  9322; 9323; 9324; 9325; 9326; 9327; 9328; 9329; 9330; 9331; 9332; 9333; 9334; 9335; 9336; 9337; 9338;
  9339; 9340; 9341; 9342; 9343; 9344; 9345; 9346; 9347; 9348; 9349; 9350; 9351; 9352; 9353; 9354; 9355;
  9356; 9357; 9358; 9359; 9360; 9361; 9362; 9363; 9364; 9365; 9366; 9367; 9368; 9369; 9370; 9371; 9372;
  9373; 9374; 9375; 9376; 9377; 9378; 9379; 9380; 9381; 9382; 9383; 9384; 9385; 9386; 9387; 9388; 9389;
  9390; 9391; 9392; 9393; 9394; 9395; 9396; 9397; 9398; 9399; 9400; 9401; 9402; 9403; 9404; 9405; 9406;
  9407; 9408; 9409; 9410; 9411; 9412; 9413; 9414; 9415; 9416; 9417; 9418; 9419; 9420; 9421; 9422; 9423;
  9424; 9425; 9426; 9427; 9428; 9429; 9430; 9431; 9432; 9433; 9434; 9435; 9436; 9437; 9438; 9439; 9440;
  9441; 9442; 9443; 9444; 9445; 9446; 9447; 9448; 9449; 9450; 10764; 10868; 10869; 10870; 10972; 11388;
  11389; 11631; 11935; 12019; 12032; 12033; 12034; 12035; 12036; 12037; 12038; 12039; 12040; 12041; 12042;
  12043; 12044; 12045; 12046; 12047; 12048; 12049; 12050; 12051; 12052; 12053; 12054; 12055; 12056; 12057;
  12058; 12059; 12060; 12061; 12062; 12063; 12064; 12065; 12066; 12067; 12068; 12069; 12070; 12071; 12072;
  12073; 12074; 12075; 12076; 12077; 12078; 12079; 12080; 12081; 12082; 12083; 12084; 12085; 12086; 12087;
  12088; 12089; 12090; 12091; 12092; 12093; 12094; 12095; 12096; 12097; 12098; 12099; 12100; 12101; 12102;
  12103; 12104; 12105; 12106; 12107; 12108; 12109; 12110; 12111; 12112; 12113; 12114; 12115; 12116; 12117;
  12118; 12119; 12120; 12121; 12122; 12123; 12124; 12125; 12126; 12127; 12128; 12129; 12130; 12131; 12132;
  12133; 12134; 12135; 12136; 12137; 12138; 12139; 12140; 12141; 12142; 12143; 12144; 12145; 12146; 12147;
  12148; 12149; 12150; 12151; 12152; 12153; 12154; 12155; 12156; 12157; 12158; 12159; 12160; 12161; 12162;
  12163; 12164; 12165; 12166; 12167; 12168; 12169; 12170; 12171; 12172; 12173; 12174; 12175; 12176; 12177;
  12178; 12179; 12180; 12181; 12182; 12183; 12184; 12185; 12186; 12187; 12188; 12189; 12190; 12191; 12192;
  12193; 12194; 12195; 12196; 12197; 12198; 12199; 12200; 12201; 12202; 12203; 12204; 12205; 12206; 12207;
  12208; 12209; 12210; 12211; 12212; 12213; 12214; 12215; 12216; 12217; 12218; 12219; 12220; 12221; 12222;
  12223; 12224; 12225; 12226; 12227; 12228; 12229; 12230; 12231; 12232; 12233; 12234; 12235; 12236; 12237;
  12238; 12239; 12240; 12241; 12242; 12243; 12244; 12245; 12288; 12342; 12344; 12345; 12346; 12364; 12366;
  12368; 12370; 12372; 12374; 12376; 12378; 12380; 12382; 12384; 12386; 12389; 12391; 12393; 12400; 12401;
  12403; 12404; 12406; 12407; 12409; 12410; 12412; 12413; 12436; 12443; 12444; 12446; 12447; 12460; 12462;
  12464; 12466; 12468; 12470; 12472; 12474; 12476; 12478; 12480; 12482; 12485; 12487; 12489; 12496; 12497;
  12499; 12500; 12502; 12503; 12505; 12506; 12508; 12509; 12532; 12535; 12536; 12537; 12538; 12542; 12543;
  12593; 12594; 12595; 12596; 12597; 12598; 12599; 12600; 12601; 12602; 12603; 12604; 12605; 12606; 12607;
  12608; 12609; 12610; 12611; 12612; 12613; 12614; 12615; 12616; 12617; 12618; 12619; 12620; 12621; 12622;
  12623; 12624; 12625; 12626; 12627; 12628; 12629; 12630; 12631; 12632; 12633; 12634; 12635; 12636; 12637;
  12638; 12639; 12640; 12641; 12642; 12643; 12644; 12645; 12646; 12647; 12648; 12649; 12650; 12651; 12652;
  12653; 12654; 12655; 12656; 12657; 12658; 12659; 12660; 12661; 12662; 12663; 12664; 12665; 12666; 12667;
  12668; 12669; 12670; 12671; 12672; 12673; 12674; 12675; 12676; 12677; 12678; 12679; 12680; 12681; 12682;
  12683; 12684; 12685; 12686; 12690; 12691; 12692; 12693; 12694; 12695; 12696; 12697; 12698; 12699; 12700;
  12701; 12702; 12703; 12800; 12801; 12802; 12803; 12804; 12805; 12806; 12807; 12808; 12809; 12810; 12811;
  12812; 12813; 12814; 12815; 12816; 12817; 12818; 12819; 12820; 12821; 12822; 12823; 12824; 12825; 12826;
  12827; 12828; 12829; 12830; 12832; 12833; 12834; 12835; 12836; 12837; 12838; 12839; 12840; 12841; 12842;
  12843; 12844; 12845; 12846; 12847; 12848; 12849; 12850; 12851; 12852; 12853; 12854; 12855; 12856; 12857;
  12858; 12859; 12860; 12861; 12862; 12863; 12864; 12865; 12866; 12867; 12868; 12869; 12870; 12871; 12880;
  12881; 12882; 12883; 12884; 12885; 12886; 12887; 12888; 12889; 12890; 12891; 12892; 12893; 12894; 12895;
  12896; 12897; 12898; 12899; 12900; 12901; 12902; 12903; 12904; 12905; 12906; 12907; 12908; 12909; 12910;
  12911; 12912; 12913; 12914; 12915; 12916; 12917; 12918; 12919; 12920; 12921; 12922; 12923; 12924; 12925;
  12926; 12928; 12929; 12930; 12931; 12932; 12933; 12934; 12935; 12936; 12937; 12938; 12939; 12940; 12941;
  12942; 12943; 12944; 12945; 12946; 12947; 12948; 12949; 12950; 12951; 12952; 12953; 12954; 12955; 12956;
  12957; 12958; 12959; 12960; 12961; 12962; 12963; 12964; 12965; 12966; 12967; 12968; 12969; 12970; 12971;
  12972; 12973; 12974; 12975; 12976; 12977; 12978; 12979; 12980; 12981; 12982; 12983; 12984; 12985; 12986;
  12987; 12988; 12989; 12990; 12991; 12992; 12993; 12994; 12995; 12996; 12997; 12998; 12999; 13000; 13001;
  13002; 13003; 13004; 13005; 13006; 13007; 13008; 13009; 13010; 13011; 13012; 13013; 13014; 13015; 13016;
  13017; 13018; 13019; 13020; 13021; 13022; 13023; 13024; 13025; 13026; 13027; 13028; 13029; 13030; 13031;
  13032; 13033; 13034; 13035; 13036; 13037; 13038; 13039; 13040; 13041; 13042; 13043; 13044; 13045; 13046;
  13047; 13048; 13049; 13050; 13051; 13052; 13053; 13054; 13055; 13056; 13057; 13058; 13059; 13060; 13061;
  13062; 13063; 13064; 13065; 13066; 13067; 13068; 13069; 13070; 13071; 13072; 13073; 13074; 13075; 13076;
  13077; 13078; 13079; 13080; 13081; 13082; 13083; 13084; 13085; 13086; 13087; 13088; 13089; 13090; 13091;
  13092; 13093; 13094; 13095; 13096; 13097; 13098; 13099; 13100; 13101; 13102; 13103; 13104; 13105; 13106;
  13107; 13108; 13109; 13110; 13111; 13112; 13113; 13114; 13115; 13116; 13117; 13118; 13119; 13120; 13121;
  13122; 13123; 13124; 13125; 13126; 13127; 13128; 13129; 13130; 13131; 13132; 13133; 13134; 13135; 13136;
  13137; 13138; 13139; 13140; 13141; 13142; 13143; 13144; 13145; 13146; 13147; 13148; 13149; 13150; 13151;
  13152; 13153; 13154; 13155; 13156; 13157; 13158; 13159; 13160; 13161; 13162; 13163; 13164; 13165; 13166;
  13167; 13168; 13169; 13170; 13171; 13172; 13173; 13174; 13175; 13176; 13177; 13178; 13179; 13180; 13181;
  13182; 13183; 13184; 13185; 13186; 13187; 13188; 13189; 13190; 13191; 13192; 13193; 13194; 13195; 13196;
  13197; 13198; 13199; 13200; 13201; 13202; 13203; 13204; 13205; 13206; 13207; 13208; 13209; 13210; 13211;
  13212; 13213; 13214; 13215; 13216; 13217; 13218; 13219; 13220; 13221; 13222; 13223; 13224; 13225; 13226;
  13227; 13228; 13229; 13230; 13231; 13232; 13233; 13234; 13235; 13236; 13237; 13238; 13239; 13240; 13241;
  13242; 13243; 13244; 13245; 13246; 13247; 13248; 13249; 13250; 13251; 13252; 13253; 13254; 13255; 13256;
  13257; 13258; 13259; 13260; 13261; 13262; 13263; 13264; 13265; 13266; 13267; 13268; 13269; 13270; 13271;
  13272; 13273; 13274; 13275; 13276; 13277; 13278; 13279; 13280; 13281; 13282; 13283; 13284; 13285; 13286;
  13287; 13288; 13289; 13290; 13291; 13292; 13293; 13294; 13295; 13296; 13297; 13298; 13299; 13300; 13301;
  13302; 13303; 13304; 13305; 13306; 13307; 13308; 13309; 13310; 13311; 42652; 42653; 42864; 42994; 42995;
  42996; 43000; 43001; 43868; 43869; 43870; 43871; 43881; 63744; 63745; 63746; 63747; 63748; 63749; 63750;
  63751; 63752; 63753; 63754; 63755; 63756; 63757; 63758; 63759; 63760; 63761; 63762; 63763; 63764; 63765;
  63766; 63767; 63768; 63769; 63770; 63771; 63772; 63773; 63774; 63775; 63776; 63777; 63778; 63779; 63780;
  63781; 63782; 63783; 63784; 63785; 63786; 63787; 63788; 63789; 63790; 63791; 63792; 63793; 63794; 63795;
  63796; 63797; 63798; 63799; 63800; 63801; 63802; 63803; 63804; 63805; 63806; 63807; 63808; 63809; 63810;
  63811; 63812; 63813; 63814; 63815; 63816; 63817; 63818; 63819; 63820; 63821; 63822; 63823; 63824; 63825;
  63826; 63827; 63828; 63829; 63830; 63831; 63832; 63833; 63834; 63835; 63836; 63837; 63838; 63839; 63840;
  63841; 63842; 63843; 63844; 63845; 63846; 63847; 63848; 63849; 63850; 63851; 63852; 63853; 63854; 63855;
  63856; 63857; 63858; 63859; 63860; 63861; 63862; 63863; 63864; 63865; 63866; 63867; 63868; 63869; 63870;
  63871; 63872; 63873; 63874; 63875; 63876; 63877; 63878; 63879; 63880; 63881; 63882; 63883; 63884; 63885;
  63886; 63887; 63888; 63889; 63890; 63891; 63892; 63893; 63894; 63895; 63896; 63897; 63898; 63899; 63900;
  63901; 63902; 63903; 63904; 63905; 63906; 63907; 63908; 63909; 63910; 63911; 63912; 63913; 63914; 63915;
  63916; 63917; 63918; 63919; 63920; 63921; 63922; 63923; 63924; 63925; 63926; 63927; 63928; 63929; 63930;
  63931; 63932; 63933; 63934; 63935; 63936; 63937; 63938; 63939; 63940; 63941; 63942; 63943; 63944; 63945;
  63946; 63947; 63948; 63949; 63950; 63951; 63952; 63953; 63954; 63955; 63956; 63957; 63958; 63959; 63960;
  63961; 63962; 63963; 63964; 63965; 63966; 63967; 63968; 63969; 63970; 63971; 63972; 63973; 63974; 63975;
  63976; 63977; 63978; 63979; 63980; 63981; 63982; 63983; 63984; 63985; 63986; 63987; 63988; 63989; 63990;
  63991; 63992; 63993; 63994; 63995; 63996; 63997; 63998; 63999; 64000; 64001; 64002; 64003; 64004; 64005;
  64006; 64007; 64008; 64009; 64010; 64011; 64012; 64013; 64016; 64018; 64021; 64022; 64023; 64024; 64025;
  64026; 64027; 64028; 64029; 64030; 64032; 64034; 64037; 64038; 64042; 64043; 64044; 64045; 64046; 64047;
  64048; 64049; 64050; 64051; 64052; 64053; 64054; 64055; 64056; 64057; 64058; 64059; 64060; 64061; 64062;
  64063; 64064; 64065; 64066; 64067; 64068; 64069; 64070; 64071; 64072; 64073; 64074; 64075; 64076; 64077;
  64078; 64079; 64080; 64081; 64082; 64083; 64084; 64085; 64086; 64087; 64088; 64089; 64090; 64091; 64092;
  64093; 64094; 64095; 64096; 64097; 64098; 64099; 64100; 64101; 64102; 64103; 64104; 64105; 64106; 64107;
  64108; 64109; 64112; 64113; 64114; 64115; 64116; 64117; 64118; 64119; 64120; 64121; 64122; 64123; 64124;
  64125; 64126; 64127; 64128; 64129; 64130; 64131; 64132; 64133; 64134; 64135; 64136; 64137; 64138; 64139;
  64140; 64141; 64142; 64143; 64144; 64145; 64146; 64147; 64148; 64149; 64150; 64151; 64152; 64153; 64154;
  64155; 64156; 64157; 64158; 64159; 64160; 64161; 64162; 64163; 64164; 64165; 64166; 64167; 64168; 64169;
  64170; 64171; 64172; 64173; 64174; 64175; 64176; 64177; 64178; 64179; 64180; 64181; 64182; 64183; 64184;
  64185; 64186; 64187; 64188; 64189; 64190; 64191; 64192; 64193; 64194; 64195; 64196; 64197; 64198; 64199;
  64200; 64201; 64202; 64203; 64204; 64205; 64206; 64207; 64208; 64209; 64210; 64211; 64212; 64213; 64214;
  64215; 64216; 64217; 64256; 64257; 64258; 64259; 64260; 64261; 64262; 64275; 64276; 64277; 64278; 64279;
  64285; 64287; 64288; 64289; 64290; 64291; 64292; 64293; 64294; 64295; 64296; 64297; 64298; 64299; 64300;
  64301; 64302; 64303; 64304; 64305; 64306; 64307; 64308; 64309; 64310; 64312; 64313; 64314; 64315; 64316;
  64318; 64320; 64321; 64323; 64324; 64326; 64327; 64328; 64329; 64330; 64331; 64332; 64333; 64334; 64335;
  64336; 64337; 64338; 64339; 64340; 64341; 64342; 64343; 64344; 64345; 64346; 64347; 64348; 64349; 64350;
  64351; 64352; 64353; 64354; 64355; 64356; 64357; 64358; 64359; 64360; 64361; 64362; 64363; 64364; 64365;
  64366; 64367; 64368; 64369; 64370; 64371; 64372; 64373; 64374; 64375; 64376; 64377; 64378; 64379; 64380;
  64381; 64382; 64383; 64384; 64385; 64386; 64387; 64388; 64389; 64390; 64391; 64392; 64393; 64394; 64395;
  64396; 64397; 64398; 64399; 64400; 64401; 64402; 64403; 64404; 64405; 64406; 64407; 64408; 64409; 64410;
  64411; 64412; 64413; 64414; 64415; 64416; 64417; 64418; 64419; 64420; 64421; 64422; 64423; 64424; 64425;
  64426; 64427; 64428; 64429; 64430; 64431; 64432; 64433; 64467; 64468; 64469; 64470; 64471; 64472; 64473;
  64474; 64475; 64476; 64477; 64478; 64479; 64480; 64481; 64482; 64483; 64484; 64485; 64486; 64487; 64488;
  64489; 64490; 64491; 64492; 64493; 64494; 64495; 64496; 64497; 64498; 64499; 64500; 64501; 64502; 64503;
  64504; 64505; 64506; 64507; 64508; 64509; 64510; 64511; 64512; 64513; 64514; 64515; 64516; 64517; 64518;
  64519; 64520; 64521; 64522; 64523; 64524; 64525; 64526; 64527; 64528; 64529; 64530; 64531; 64532; 64533;
  64534; 64535; 64536; 64537; 64538; 64539; 64540; 64541; 64542; 64543; 64544; 64545; 64546; 64547; 64548;
  64549; 64550; 64551; 64552; 64553; 64554; 64555; 64556; 64557; 64558; 64559; 64560; 64561; 64562; 64563;
  64564; 64565; 64566; 64567; 64568; 64569; 64570; 64571; 64572; 64573; 64574; 64575; 64576; 64577; 64578;
  64579; 64580; 64581; 64582; 64583; 64584; 64585; 64586; 64587; 64588; 64589; 64590; 64591; 64592; 64593;
  64594; 64595; 64596; 64597; 64598; 64599; 64600; 64601; 64602; 64603; 64604; 64605; 64606; 64607; 64608;
  64609; 64610; 64611; 64612; 64613; 64614; 64615; 64616; 64617; 64618; 64619; 64620; 64621; 64622; 64623;
  64624; 64625; 64626; 64627; 64628; 64629; 64630; 64631; 64632; 64633; 64634; 64635; 64636; 64637; 64638;
  64639; 64640; 64641; 64642; 64643; 64644; 64645; 64646; 64647; 64648; 64649; 64650; 64651; 64652; 64653;
  64654; 64655; 64656; 64657; 64658; 64659; 64660; 64661; 64662; 64663; 64664; 64665; 64666; 64667; 64668;
  64669; 64670; 64671; 64672; 64673; 64674; 64675; 64676; 64677; 64678; 64679; 64680; 64681; 64682; 64683;
  64684; 64685; 64686; 64687; 64688; 64689; 64690; 64691; 64692; 64693; 64694; 64695; 64696; 64697; 64698;
  64699; 64700; 64701; 64702; 64703; 64704; 64705; 64706; 64707; 64708; 64709; 64710; 64711; 64712; 64713;
  64714; 64715; 64716; 64717; 64718; 64719; 64720; 64721; 64722; 64723; 64724; 64725; 64726; 64727; 64728;
  64729; 64730; 64731; 64732; 64733; 64734; 64735; 64736; 64737; 64738; 64739; 64740; 64741; 64742; 64743;
  64744; 64745; 64746; 64747; 64748; 64749; 64750; 64751; 64752; 64753; 64754; 64755; 64756; 64757; 64758;
  64759; 64760; 64761; 64762; 64763; 64764; 64765; 64766; 64767; 64768; 64769; 64770; 64771; 64772; 64773;
  64774; 64775; 64776; 64777; 64778; 64779; 64780; 64781; 64782; 64783; 64784; 64785; 64786; 64787; 64788;
  64789; 64790; 64791; 64792; 64793; 64794; 64795; 64796; 64797; 64798; 64799; 64800; 64801; 64802; 64803;
  64804; 64805; 64806; 64807; 64808; 64809; 64810; 64811; 64812; 64813; 64814; 64815; 64816; 64817; 64818;
  64819; 64820; 64821; 64822; 64823; 64824; 64825; 64826; 64827; 64828; 64829; 64848; 64849; 64850; 64851;
  64852; 64853; 64854; 64855; 64856; 64857; 64858; 64859; 64860; 64861; 64862; 64863; 64864; 64865; 64866;
  64867; 64868; 64869; 64870; 64871; 64872; 64873; 64874; 64875; 64876; 64877; 64878; 64879; 64880; 64881;
  64882; 64883; 64884; 64885; 64886; 64887; 64888; 64889; 64890; 64891; 64892; 64893; 64894; 64895; 64896;
  64897; 64898; 64899; 64900; 64901; 64902; 64903; 64904; 64905; 64906; 64907; 64908; 64909; 64910; 64911;
  64914; 64915; 64916; 64917; 64918; 64919; 64920; 64921; 64922; 64923; 64924; 64925; 64926; 64927; 64928;
  64929; 64930; 64931; 64932; 64933; 64934; 64935; 64936; 64937; 64938; 64939; 64940; 64941; 64942; 64943;
  64944; 64945; 64946; 64947; 64948; 64949; 64950; 64951; 64952; 64953; 64954; 64955; 64956; 64957; 64958;
  64959; 64960; 64961; 64962; 64963; 64964; 64965; 64966; 64967; 65008; 65009; 65010; 65011; 65012; 65013;
  65014; 65015; 65016; 65017; 65018; 65019; 65020; 65040; 65041; 65042; 65043; 65044; 65045; 65046; 65047;
  65048; 65049; 65072; 65073; 65074; 65075; 65076; 65077; 65078; 65079; 65080; 65081; 65082; 65083; 65084;
  65085; 65086; 65087; 65088; 65089; 65090; 65091; 65092; 65095; 65096; 65097; 65098; 65099; 65100; 65101;
  65102; 65103; 65104; 65105; 65106; 65108; 65109; 65110; 65111; 65112; 65113; 65114; 65115; 65116; 65117;
  65118; 65119; 65120; 65121; 65122; 65123; 65124; 65125; 65126; 65128; 65129; 65130; 65131; 65136; 65137;
  65138; 65140; 65142; 65143; 65144; 65145; 65146; 65147; 65148; 65149; 65150; 65151; 65152; 65153; 65154;
  65155; 65156; 65157; 65158; 65159; 65160; 65161; 65162; 65163; 65164; 65165; 65166; 65167; 65168; 65169;
  65170; 65171; 65172; 65173; 65174; 65175; 65176; 65177; 65178; 65179; 65180; 65181; 65182; 65183; 65184;
  65185; 65186; 65187; 65188; 65189; 65190; 65191; 65192; 65193; 65194; 65195; 65196; 65197; 65198; 65199;
  65200; 65201; 65202; 65203; 65204; 65205; 65206; 65207; 65208; 65209; 65210; 65211; 65212; 65213; 65214;
  65215; 65216; 65217; 65218; 65219; 65220; 65221; 65222; 65223; 65224; 65225; 65226; 65227; 65228; 65229;
  65230; 65231; 65232; 65233; 65234; 65235; 65236; 65237; 65238; 65239; 65240; 65241; 65242; 65243; 65244;
  65245; 65246; 65247; 65248; 65249; 65250; 65251; 65252; 65253; 65254; 65255; 65256; 65257; 65258; 65259;
  65260; 65261; 65262; 65263; 65264; 65265; 65266; 65267; 65268; 65269; 65270; 65271; 65272; 65273; 65274;
  65275; 65276; 65281; 65282; 65283; 65284; 65285; 65286; 65287; 65288; 65289; 65290; 65291; 65292; 65293;
  65294; 65295; 65296; 65297; 65298; 65299; 65300; 65301; 65302; 65303; 65304; 65305; 65306; 65307; 65308;
  65309; 65310; 65311; 65312; 65313; 65314; 65315; 65316; 65317; 65318; 65319; 65320; 65321; 65322; 65323;
  65324; 65325; 65326; 65327; 65328; 65329; 65330; 65331; 65332; 65333; 65334; 65335; 65336; 65337; 65338;
  65339; 65340; 65341; 65342; 65343; 65344; 65345; 65346; 65347; 65348; 65349; 65350; 65351; 65352; 65353;
  65354; 65355; 65356; 65357; 65358; 65359; 65360; 65361; 65362; 65363; 65364; 65365; 65366; 65367; 65368;
  65369; 65370; 65371; 65372; 65373; 65374; 65375; 65376; 65377; 65378; 65379; 65380; 65381; 65382; 65383;
  65384; 65385; 65386; 65387; 65388; 65389; 65390; 65391; 65392; 65393; 65394; 65395; 65396; 65397; 65398;
  65399; 65400; 65401; 65402; 65403; 65404; 65405; 65406; 65407; 65408; 65409; 65410; 65411; 65412; 65413;
  65414; 65415; 65416; 65417; 65418; 65419; 65420; 65421; 65422; 65423; 65424; 65425; 65426; 65427; 65428;
  65429; 65430; 65431; 65432; 65433; 65434; 65435; 65436; 65437; 65438; 65439; 65440; 65441; 65442; 65443;
  65444; 65445; 65446; 65447; 65448; 65449; 65450; 65451; 65452; 65453; 65454; 65455; 65456; 65457; 65458;
  65459; 65460; 65461; 65462; 65463; 65464; 65465; 65466; 65467; 65468; 65469; 65470; 65474; 65475; 65476;
  65477; 65478; 65479; 65482; 65483; 65484; 65485; 65486; 65487; 65490; 65491; 65492; 65493; 65494; 65495;
  65498; 65499; 65500; 65504; 65505; 65506; 65507; 65508; 65509; 65510; 65512; 65513; 65514; 65515; 65516;
  65517; 65518; 67457; 67458; 67459; 67460; 67461; 67463; 67464; 67465; 67466; 67467; 67468; 67469; 67470;
  67471; 67472; 67473; 67474; 67475; 67476; 67477; 67478; 67479; 67480; 67481; 67482; 67483; 67484; 67485;
  67486; 67487; 67488; 67489; 67490; 67491; 67492; 67493; 67494; 67495; 67496; 67497; 67498; 67499; 67500;
  67501; 67502; 67503; 67504; 67506; 67507; 67508; 67509; 67510; 67511; 67512; 67513; 67514; 69786; 69788;
  69803; 69934; 69935; 70475; 70476; 70843; 70844; 70846; 71098; 71099; 71992; 119134; 119135; 119136;
  119137; 119138; 119139; 119140; 119227; 119228; 119229; 119230; 119231; 119232; 119808; 119809; 119810;
  119811; 119812; 119813; 119814; 119815; 119816; 119817; 119818; 119819; 119820; 119821; 119822; 119823;
  119824; 119825; 119826; 119827; 119828; 119829; 119830; 119831; 119832; 119833; 119834; 119835; 119836;
  119837; 119838; 119839; 119840; 119841; 119842; 119843; 119844; 119845; 119846; 119847; 119848; 119849;
  119850; 119851; 119852; 119853; 119854; 119855; 119856; 119857; 119858; 119859; 119860; 119861; 119862;
  119863; 119864; 119865; 119866; 119867; 119868; 119869; 119870; 119871; 119872; 119873; 119874; 119875;
  119876; 119877; 119878; 119879; 119880; 119881; 119882; 119883; 119884; 119885; 119886; 119887; 119888;
  119889; 119890; 119891; 119892; 119894; 119895; 119896; 119897; 119898; 119899; 119900; 119901; 119902;
  119903; 119904; 119905; 119906; 119907; 119908; 119909; 119910; 119911; 119912; 119913; 119914; 119915;
  119916; 119917; 119918; 119919; 119920; 119921; 119922; 119923; 119924; 119925; 119926; 119927; 119928;
  119929; 119930; 119931; 119932; 119933; 119934; 119935; 119936; 119937; 119938; 119939; 119940; 119941;
  119942; 119943; 119944; 119945; 119946; 119947; 119948; 119949; 119950; 119951; 119952; 119953; 119954;
  119955; 119956; 119957; 119958; 119959; 119960; 119961; 119962; 119963; 119964; 119966; 119967; 119970;
  119973; 119974; 119977; 119978; 119979; 119980; 119982; 119983; 119984; 119985; 119986; 119987; 119988;
  119989; 119990; 119991; 119992; 119993; 119995; 119997; 119998; 119999; 120000; 120001; 120002; 120003;
  120005; 120006; 120007; 120008; 120009; 120010; 120011; 120012; 120013; 120014; 120015; 120016; 120017;
  120018; 120019; 120020; 120021; 120022; 120023; 120024; 120025; 120026; 120027; 120028; 120029; 120030;
  120031; 120032; 120033; 120034; 120035; 120036; 120037; 120038; 120039; 120040; 120041; 120042; 120043;
  120044; 120045; 120046; 120047; 120048; 120049; 120050; 120051; 120052; 120053; 120054; 120055; 120056;
  120057; 120058; 120059; 120060; 120061; 120062; 120063; 120064; 120065; 120066; 120067; 120068; 120069;
  120071; 120072; 120073; 120074; 120077; 120078; 120079; 120080; 120081; 120082; 120083; 120084; 120086;
  120087; 120088; 120089; 120090; 120091; 120092; 120094; 120095; 120096; 120097; 120098; 120099; 120100;
  120101; 120102; 120103; 120104; 120105; 120106; 120107; 120108; 120109; 120110; 120111; 120112; 120113;
  120114; 120115; 120116; 120117; 120118; 120119; 120120; 120121; 120123; 120124; 120125; 120126; 120128;
  120129; 120130; 120131; 120132; 120134; 120138; 120139; 120140; 120141; 120142; 120143; 120144; 120146;
  120147; 120148; 120149; 120150; 120151; 120152; 120153; 120154; 120155; 120156; 120157; 120158; 120159;
  120160; 120161; 120162; 120163; 120164; 120165; 120166; 120167; 120168; 120169; 120170; 120171; 120172;
  120173; 120174; 120175; 120176; 120177; 120178; 120179; 120180; 120181; 120182; 120183; 120184; 120185;
  120186; 120187; 120188; 120189; 120190; 120191; 120192; 120193; 120194; 120195; 120196; 120197; 120198;
  120199; 120200; 120201; 120202; 120203; 120204; 120205; 120206; 120207; 120208; 120209; 120210; 120211;
  120212; 120213; 120214; 120215; 120216; 120217; 120218; 120219; 120220; 120221; 120222; 120223; 120224;
  120225; 120226; 120227; 120228; 120229; 120230; 120231; 120232; 120233; 120234; 120235; 120236; 120237;
  120238; 120239; 120240; 120241; 120242; 120243; 120244; 120245; 120246; 120247; 120248; 120249; 120250;
  120251; 120252; 120253; 120254; 120255; 120256; 120257; 120258; 120259; 120260; 120261; 120262; 120263;
  120264; 120265; 120266; 120267; 120268; 120269; 120270; 120271; 120272; 120273; 120274; 120275; 120276;
  120277; 120278; 120279; 120280; 120281; 120282; 120283; 120284; 120285; 120286; 120287; 120288; 120289;
  120290; 120291; 120292; 120293; 120294; 120295; 120296; 120297; 120298; 120299; 120300; 120301; 120302;
  120303; 120304; 120305; 120306; 120307; 120308; 120309; 120310; 120311; 120312; 120313; 120314; 120315;
  120316; 120317; 120318; 120319; 120320; 120321; 120322; 120323; 120324; 120325; 120326; 120327; 120328;
  120329; 120330; 120331; 120332; 120333; 120334; 120335; 120336; 120337; 120338; 120339; 120340; 120341;
  120342; 120343; 120344; 120345; 120346; 120347; 120348; 120349; 120350; 120351; 120352; 120353; 120354;
  120355; 120356; 120357; 120358; 120359; 120360; 120361; 120362; 120363; 120364; 120365; 120366; 120367;
  120368; 120369; 120370; 120371; 120372; 120373; 120374; 120375; 120376; 120377; 120378; 120379; 120380;
  120381; 120382; 120383; 120384; 120385; 120386; 120387; 120388; 120389; 120390; 120391; 120392; 120393;
  120394; 120395; 120396; 120397; 120398; 120399; 120400; 120401; 120402; 120403; 120404; 120405; 120406;
  120407; 120408; 120409; 120410; 120411; 120412; 120413; 120414; 120415; 120416; 120417; 120418; 120419;
  120420; 120421; 120422; 120423; 120424; 120425; 120426; 120427; 120428; 120429; 120430; 120431; 120432;
  120433; 120434; 120435; 120436; 120437; 120438; 120439; 120440; 120441; 120442; 120443; 120444; 120445;
  120446; 120447; 120448; 120449; 120450; 120451; 120452; 120453; 120454; 120455; 120456; 120457; 120458;
  120459; 120460; 120461; 120462; 120463; 120464; 120465; 120466; 120467; 120468; 120469; 120470; 120471;
  120472; 120473; 120474; 120475; 120476; 120477; 120478; 120479; 120480; 120481; 120482; 120483; 120484;
  120485; 120488; 120489; 120490; 120491; 120492; 120493; 120494; 120495; 120496; 120497; 120498; 120499;
  120500; 120501; 120502; 120503; 120504; 120505; 120506; 120507; 120508; 120509; 120510; 120511; 120512;
  120513; 120514; 120515; 120516; 120517; 120518; 120519; 120520; 120521; 120522; 120523; 120524; 120525;
  120526; 120527; 120528; 120529; 120530; 120531; 120532; 120533; 120534; 120535; 120536; 120537; 120538;
  120539; 120540; 120541; 120542; 120543; 120544; 120545; 120546; 120547; 120548; 120549; 120550; 120551;
  120552; 120553; 120554; 120555; 120556; 120557; 120558; 120559; 120560; 120561; 120562; 120563; 120564;
  120565; 120566; 120567; 120568; 120569; 120570; 120571; 120572; 120573; 120574; 120575; 120576; 120577;
  120578; 120579; 120580; 120581; 120582; 120583; 120584; 120585; 120586; 120587; 120588; 120589; 120590;
  120591; 120592; 120593; 120594; 120595; 120596; 120597; 120598; 120599; 120600; 120601; 120602; 120603;
  120604; 120605; 120606; 120607; 120608; 120609; 120610; 120611; 120612; 120613; 120614; 120615; 120616;
  120617; 120618; 120619; 120620; 120621; 120622; 120623; 120624; 120625; 120626; 120627; 120628; 120629;
  120630; 120631; 120632; 120633; 120634; 120635; 120636; 120637; 120638; 120639; 120640; 120641; 120642;
  120643; 120644; 120645; 120646; 120647; 120648; 120649; 120650; 120651; 120652; 120653; 120654; 120655;
  120656; 120657; 120658; 120659; 120660; 120661; 120662; 120663; 120664; 120665; 120666; 120667; 120668;
  120669; 120670; 120671; 120672; 120673; 120674; 120675; 120676; 120677; 120678; 120679; 120680; 120681;
  120682; 120683; 120684; 120685; 120686; 120687; 120688; 120689; 120690; 120691; 120692; 120693; 120694;
  120695; 120696; 120697; 120698; 120699; 120700; 120701; 120702; 120703; 120704; 120705; 120706; 120707;
  120708; 120709; 120710; 120711; 120712; 120713; 120714; 120715; 120716; 120717; 120718; 120719; 120720;
  120721; 120722; 120723; 120724; 120725; 120726; 120727; 120728; 120729; 120730; 120731; 120732; 120733;
  120734; 120735; 120736; 120737; 120738; 120739; 120740; 120741; 120742; 120743; 120744; 120745; 120746;
  120747; 120748; 120749; 120750; 120751; 120752; 120753; 120754; 120755; 120756; 120757; 120758; 120759;
  120760; 120761; 120762; 120763; 120764; 120765; 120766; 120767; 120768; 120769; 120770; 120771; 120772;
  120773; 120774; 120775; 120776; 120777; 120778; 120779; 120782; 120783; 120784; 120785; 120786; 120787;
  120788; 120789; 120790; 120791; 120792; 120793; 120794; 120795; 120796; 120797; 120798; 120799; 120800;
  120801; 120802; 120803; 120804; 120805; 120806; 120807; 120808; 120809; 120810; 120811; 120812; 120813;
  120814; 120815; 120816; 120817; 120818; 120819; 120820; 120821; 120822; 120823; 120824; 120825; 120826;
  120827; 120828; 120829; 120830; 120831; 122928; 122929; 122930; 122931; 122932; 122933; 122934; 122935;
  122936; 122937; 122938; 122939; 122940; 122941; 122942; 122943; 122944; 122945; 122946; 122947; 122948;
  122949; 122950; 122951; 122952; 122953; 122954; 122955; 122956; 122957; 122958; 122959; 122960; 122961;
  122962; 122963; 122964; 122965; 122966; 122967; 122968; 122969; 122970; 122971; 122972; 122973; 122974;
  122975; 122976; 122977; 122978; 122979; 122980; 122981; 122982; 122983; 122984; 122985; 122986; 122987;
  122988; 122989; 126464; 126465; 126466; 126467; 126469; 126470; 126471; 126472; 126473; 126474; 126475;
  126476; 126477; 126478; 126479; 126480; 126481; 126482; 126483; 126484; 126485; 126486; 126487; 126488;
  126489; 126490; 126491; 126492; 126493; 126494; 126495; 126497; 126498; 126500; 126503; 126505; 126506;
  126507; 126508; 126509; 126510; 126511; 126512; 126513; 126514; 126516; 126517; 126518; 126519; 126521;
  126523; 126530; 126535; 126537; 126539; 126541; 126542; 126543; 126545; 126546; 126548; 126551; 126553;
  126555; 126557; 126559; 126561; 126562; 126564; 126567; 126568; 126569; 126570; 126572; 126573; 126574;
  126575; 126576; 126577; 126578; 126580; 126581; 126582; 126583; 126585; 126586; 126587; 126588; 126590;
  126592; 126593; 126594; 126595; 126596; 126597; 126598; 126599; 126600; 126601; 126603; 126604; 126605;
  126606; 126607; 126608; 126609; 126610; 126611; 126612; 126613; 126614; 126615; 126616; 126617; 126618;
  126619; 126625; 126626; 126627; 126629; 126630; 126631; 126632; 126633; 126635; 126636; 126637; 126638;
  126639; 126640; 126641; 126642; 126643; 126644; 126645; 126646; 126647; 126648; 126649; 126650; 126651;
  127232; 127233; 127234; 127235; 127236; 127237; 127238; 127239; 127240; 127241; 127242; 127248; 127249;
  127250; 127251; 127252; 127253; 127254; 127255; 127256; 127257; 127258; 127259; 127260; 127261; 127262;
  127263; 127264; 127265; 127266; 127267; 127268; 127269; 127270; 127271; 127272; 127273; 127274; 127275;
  127276; 127277; 127278; 127280; 127281; 127282; 127283; 127284; 127285; 127286; 127287; 127288; 127289;
  127290; 127291; 127292; 127293; 127294; 127295; 127296; 127297; 127298; 127299; 127300; 127301; 127302;
  127303; 127304; 127305; 127306; 127307; 127308; 127309; 127310; 127311; 127338; 127339; 127340; 127376;
  127488; 127489; 127490; 127504; 127505; 127506; 127507; 127508; 127509; 127510; 127511; 127512; 127513;
  127514; 127515; 127516; 127517; 127518; 127519; 127520; 127521; 127522; 127523; 127524; 127525; 127526;
  127527; 127528; 127529; 127530; 127531; 127532; 127533; 127534; 127535; 127536; 127537; 127538; 127539;
  127540; 127541; 127542; 127543; 127544; 127545; 127546; 127547; 127552; 127553; 127554; 127555; 127556;
  127557; 127558; 127559; 127560; 127568; 127569; 130032; 130033; 130034; 130035; 130036; 130037; 130038;
  130039; 130040; 130041; 194560; 194561; 194562; 194563; 194564; 194565; 194566; 194567; 194568; 194569;
  194570; 194571; 194572; 194573; 194574; 194575; 194576; 194577; 194578; 194579; 194580; 194581; 194582;
  194583; 194584; 194585; 194586; 194587; 194588; 194589; 194590; 194591; 194592; 194593; 194594; 194595;
  194596; 194597; 194598; 194599; 194600; 194601; 194602; 194603; 194604; 194605; 194606; 194607; 194608;
  194609; 194610; 194611; 194612; 194613; 194614; 194615; 194616; 194617; 194618; 194619; 194620; 194621;
  194622; 194623; 194624; 194625; 194626; 194627; 194628; 194629; 194630; 194631; 194632; 194633; 194634;
  194635; 194636; 194637; 194638; 194639; 194640; 194641; 194642; 194643; 194644; 194645; 194646; 194647;
  194648; 194649; 194650; 194651; 194652; 194653; 194654; 194655; 194656; 194657; 194658; 194659; 194660;
  194661; 194662; 194663; 194664; 194665; 194666; 194667; 194668; 194669; 194670; 194671; 194672; 194673;
  194674; 194675; 194676; 194677; 194678; 194679; 194680; 194681; 194682; 194683; 194684; 194685; 194686;
  194687; 194688; 194689; 194690; 194691; 194692; 194693; 194694; 194695; 194696; 194697; 194698; 194699;
  194700; 194701; 194702; 194703; 194704; 194705; 194706; 194707; 194708; 194709; 194710; 194711; 194712;
  194713; 194714; 194715; 194716; 194717; 194718; 194719; 194720; 194721; 194722; 194723; 194724; 194725;
  194726; 194727; 194728; 194729; 194730; 194731; 194732; 194733; 194734; 194735; 194736; 194737; 194738;
  194739; 194740; 194741; 194742; 194743; 194744; 194745; 194746; 194747; 194748; 194749; 194750; 194751;
  194752; 194753; 194754; 194755; 194756; 194757; 194758; 194759; 194760; 194761; 194762; 194763; 194764;
  194765; 194766; 194767; 194768; 194769; 194770; 194771; 194772; 194773; 194774; 194775; 194776; 194777;
  194778; 194779; 194780; 194781; 194782; 194783; 194784; 194785; 194786; 194787; 194788; 194789; 194790;
  194791; 194792; 194793; 194794; 194795; 194796; 194797; 194798; 194799; 194800; 194801; 194802; 194803;
  194804; 194805; 194806; 194807; 194808; 194809; 194810; 194811; 194812; 194813; 194814; 194815; 194816;
  194817; 194818; 194819; 194820; 194821; 194822; 194823; 194824; 194825; 194826; 194827; 194828; 194829;
  194830; 194831; 194832; 194833; 194834; 194835; 194836; 194837; 194838; 194839; 194840; 194841; 194842;
  194843; 194844; 194845; 194846; 194847; 194848; 194849; 194850; 194851; 194852; 194853; 194854; 194855;
  194856; 194857; 194858; 194859; 194860; 194861; 194862; 194863; 194864; 194865; 194866; 194867; 194868;
  194869; 194870; 194871; 194872; 194873; 194874; 194875; 194876; 194877; 194878; 194879; 194880; 194881;
  194882; 194883; 194884; 194885; 194886; 194887; 194888; 194889; 194890; 194891; 194892; 194893; 194894;
  194895; 194896; 194897; 194898; 194899; 194900; 194901; 194902; 194903; 194904; 194905; 194906; 194907;
  194908; 194909; 194910; 194911; 194912; 194913; 194914; 194915; 194916; 194917; 194918; 194919; 194920;
  194921; 194922; 194923; 194924; 194925; 194926; 194927; 194928; 194929; 194930; 194931; 194932; 194933;
  194934; 194935; 194936; 194937; 194938; 194939; 194940; 194941; 194942; 194943; 194944; 194945; 194946;
  194947; 194948; 194949; 194950; 194951; 194952; 194953; 194954; 194955; 194956; 194957; 194958; 194959;
  194960; 194961; 194962; 194963; 194964; 194965; 194966; 194967; 194968; 194969; 194970; 194971; 194972;
  194973; 194974; 194975; 194976; 194977; 194978; 194979; 194980; 194981; 194982; 194983; 194984; 194985;
  194986; 194987; 194988; 194989; 194990; 194991; 194992; 194993; 194994; 194995; 194996; 194997; 194998;
  194999; 195000; 195001; 195002; 195003; 195004; 195005; 195006; 195007; 195008; 195009; 195010; 195011;
  195012; 195013; 195014; 195015; 195016; 195017; 195018; 195019; 195020; 195021; 195022; 195023; 195024;
  195025; 195026; 195027; 195028; 195029; 195030; 195031; 195032; 195033; 195034; 195035; 195036; 195037;
  195038; 195039; 195040; 195041; 195042; 195043; 195044; 195045; 195046; 195047; 195048; 195049; 195050;
  195051; 195052; 195053; 195054; 195055; 195056; 195057; 195058; 195059; 195060; 195061; 195062; 195063;
  195064; 195065; 195066; 195067; 195068; 195069; 195070; 195071; 195072; 195073; 195074; 195075; 195076;
  195077; 195078; 195079; 195080; 195081; 195082; 195083; 195084; 195085; 195086; 195087; 195088; 195089;
  195090; 195091; 195092; 195093; 195094; 195095; 195096; 195097; 195098; 195099; 195100; 195101].

Definition compatDecompOffset : list Z := [
  0; 1; 3; 4; 6; 7; 8; 10; 11; 13; 14; 15; 18; 21; 24; 26; 28; 30; 32; 34; 36; 38; 40; 42; 44; 46; 48; 50;
  52; 54; 56; 58; 60; 62; 64; 66; 68; 70; 72; 74; 76; 78; 80; 82; 84; 86; 88; 90; 92; 94; 96; 98; 100; 102;
  104; 106; 108; 110; 112; 114; 116; 118; 120; 122; 124; 126; 128; 130; 132; 134; 136; 138; 140; 142; 144;
  146; 148; 150; 152; 154; 156; 158; 160; 162; 164; 166; 168; 170; 172; 174; 176; 178; 180; 182; 184; 186;
  188; 190; 192; 194; 196; 198; 200; 202; 204; 206; 208; 210; 212; 214; 216; 218; 220; 222; 224; 226; 228;
  230; 232; 234; 236; 238; 240; 242; 244; 246; 248; 250; 252; 254; 256; 258; 260; 262; 264; 266; 268; 270;
  272; 274; 276; 278; 280; 282; 284; 286; 288; 290; 292; 294; 296; 298; 300; 302; 304; 306; 308; 310; 312;
  314; 316; 318; 320; 322; 324; 326; 328; 330; 332; 334; 336; 338; 340; 342; 344; 346; 348; 350; 352; 354;
  356; 357; 359; 361; 363; 365; 368; 371; 374; 376; 378; 380; 382; 384; 386; 388; 390; 392; 394; 396; 398;
  400; 402; 405; 408; 411; 414; 417; 420; 423; 426; 429; 432; 435; 438; 440; 442; 444; 446; 448; 450; 452;
  454; 457; 460; 462; 464; 466; 468; 470; 472; 474; 476; 478; 480; 483; 486; 488; 490; 492; 494; 496; 498;
  500; 502; 504; 506; 508; 510; 512; 514; 516; 518; 520; 522; 524; 526; 528; 530; 532; 534; 536; 538; 540;
  542; 544; 546; 548; 550; 552; 554; 556; 558; 560; 562; 565; 568; 571; 574; 576; 578; 581; 584; 586; 588;
  589; 590; 591; 592; 593; 594; 595; 596; 597; 599; 601; 603; 605; 607; 609; 610; 611; 612; 613; 614; 615;
  616; 617; 619; 620; 622; 623; 625; 628; 630; 631; 633; 635; 637; 639; 641; 643; 646; 648; 650; 652; 654;
  656; 658; 661; 663; 665; 667; 669; 671; 672; 673; 674; 676; 678; 679; 680; 681; 682; 683; 684; 685; 686;
  688; 690; 692; 694; 696; 698; 700; 702; 704; 706; 708; 710; 712; 714; 716; 718; 720; 722; 724; 726; 728;
  730; 732; 734; 736; 738; 740; 742; 744; 746; 748; 750; 752; 754; 756; 758; 760; 762; 764; 766; 768; 770;
  772; 774; 776; 778; 780; 782; 784; 786; 788; 790; 792; 794; 796; 798; 800; 802; 804; 806; 808; 810; 812;
  814; 816; 818; 820; 822; 824; 826; 828; 830; 832; 834; 836; 838; 840; 842; 844; 846; 848; 850; 852; 854;
  856; 858; 860; 862; 864; 866; 868; 870; 872; 874; 876; 878; 880; 882; 884; 886; 888; 891; 893; 895; 897;
  899; 901; 904; 906; 908; 910; 912; 914; 915; 917; 919; 921; 923; 925; 927; 929; 931; 933; 936; 938; 941;
  943; 945; 947; 949; 951; 953; 955; 957; 958; 960; 962; 964; 966; 968; 970; 972; 974; 976; 978; 980; 981;
  982; 983; 984; 985; 986; 987; 988; 989; 990; 991; 992; 993; 994; 995; 996; 997; 998; 999; 1000; 1001;
  1002; 1003; 1004; 1005; 1006; 1007; 1008; 1009; 1010; 1011; 1012; 1013; 1014; 1015; 1016; 1017; 1018;
  1019; 1020; 1021; 1022; 1023; 1024; 1025; 1026; 1027; 1028; 1029; 1030; 1031; 1032; 1033; 1034; 1035;
  1036; 1037; 1038; 1039; 1040; 1041; 1042; 1043; 1044; 1045; 1046; 1047; 1048; 1049; 1050; 1051; 1052;
  1053; 1054; 1055; 1056; 1057; 1058; 1059; 1060; 1061; 1062; 1063; 1064; 1065; 1066; 1067; 1068; 1069;
  1070; 1071; 1072; 1073; 1074; 1075; 1076; 1077; 1078; 1080; 1082; 1084; 1086; 1088; 1090; 1092; 1094;
  1097; 1100; 1102; 1104; 1106; 1108; 1110; 1112; 1114; 1116; 1118; 1120; 1123; 1126; 1129; 1132; 1134;
  1136; 1138; 1140; 1143; 1146; 1148; 1150; 1152; 1154; 1156; 1158; 1160; 1162; 1164; 1166; 1168; 1170;
  1172; 1174; 1176; 1178; 1181; 1184; 1186; 1188; 1190; 1192; 1194; 1196; 1198; 1200; 1203; 1206; 1208;
  1210; 1212; 1214; 1216; 1218; 1220; 1222; 1224; 1226; 1228; 1230; 1232; 1234; 1236; 1238; 1240; 1242;
  1245; 1248; 1251; 1254; 1257; 1260; 1263; 1266; 1268; 1270; 1272; 1274; 1276; 1278; 1280; 1282; 1285;
  1288; 1290; 1292; 1294; 1296; 1298; 1300; 1303; 1306; 1309; 1312; 1315; 1318; 1320; 1322; 1324; 1326;
  1328; 1330; 1332; 1334; 1336; 1338; 1340; 1342; 1344; 1346; 1349; 1352; 1355; 1358; 1360; 1362; 1364;
  1366; 1368; 1370; 1372; 1374; 1376; 1378; 1380; 1382; 1384; 1386; 1388; 1390; 1392; 1394; 1396; 1398;
  1400; 1402; 1404; 1406; 1408; 1410; 1412; 1414; 1416; 1418; 1420; 1422; 1424; 1426; 1428; 1430; 1433;
  1436; 1439; 1442; 1445; 1448; 1451; 1454; 1457; 1460; 1463; 1466; 1469; 1472; 1475; 1478; 1481; 1484;
  1487; 1490; 1492; 1494; 1496; 1498; 1500; 1502; 1505; 1508; 1511; 1514; 1517; 1520; 1523; 1526; 1529;
  1532; 1534; 1536; 1538; 1540; 1542; 1544; 1546; 1548; 1551; 1554; 1557; 1560; 1563; 1566; 1569; 1572;
  1575; 1578; 1581; 1584; 1587; 1590; 1593; 1596; 1599; 1602; 1605; 1608; 1610; 1612; 1614; 1616; 1619;
  1622; 1625; 1628; 1631; 1634; 1637; 1640; 1643; 1646; 1648; 1650; 1652; 1654; 1656; 1658; 1660; 1662;
  1664; 1666; 1669; 1672; 1675; 1678; 1681; 1684; 1686; 1688; 1691; 1694; 1697; 1700; 1703; 1706; 1708;
  1710; 1713; 1716; 1719; 1722; 1724; 1726; 1729; 1732; 1735; 1738; 1740; 1742; 1745; 1748; 1751; 1754;
  1757; 1760; 1762; 1764; 1767; 1770; 1773; 1776; 1779; 1782; 1784; 1786; 1789; 1792; 1795; 1798; 1801;
  1804; 1806; 1808; 1811; 1814; 1817; 1820; 1823; 1826; 1828; 1830; 1833; 1836; 1839; 1842; 1844; 1846;
  1849; 1852; 1855; 1858; 1860; 1862; 1865; 1868; 1871; 1874; 1877; 1880; 1882; 1885; 1888; 1891; 1893;
  1895; 1898; 1901; 1904; 1907; 1910; 1913; 1915; 1917; 1920; 1923; 1926; 1929; 1932; 1935; 1937; 1939;
  1941; 1943; 1945; 1947; 1949; 1951; 1953; 1955; 1957; 1959; 1961; 1963; 1966; 1969; 1973; 1977; 1981;
  1985; 1989; 1993; 1996; 1999; 2003; 2007; 2011; 2015; 2019; 2023; 2026; 2029; 2033; 2037; 2041; 2045;
  2049; 2053; 2056; 2059; 2063; 2067; 2071; 2075; 2079; 2083; 2086; 2089; 2093; 2097; 2101; 2105; 2109;
  2113; 2116; 2119; 2123; 2127; 2131; 2135; 2139; 2143; 2145; 2147; 2150; 2152; 2155; 2157; 2160; 2162;
  2164; 2166; 2168; 2170; 2172; 2173; 2175; 2177; 2180; 2183; 2185; 2188; 2190; 2193; 2195; 2197; 2199;
  2201; 2203; 2206; 2209; 2212; 2214; 2216; 2219; 2222; 2224; 2227; 2229; 2231; 2233; 2235; 2238; 2241;
  2244; 2246; 2248; 2251; 2254; 2256; 2258; 2260; 2263; 2265; 2267; 2269; 2271; 2273; 2276; 2279; 2280;
  2283; 2285; 2288; 2290; 2293; 2295; 2297; 2299; 2301; 2303; 2305; 2307; 2308; 2309; 2310; 2311; 2312;
  2313; 2314; 2315; 2316; 2317; 2318; 2319; 2321; 2322; 2324; 2327; 2328; 2330; 2333; 2335; 2338; 2340;
  2342; 2344; 2346; 2348; 2352; 2353; 2354; 2355; 2356; 2357; 2358; 2359; 2360; 2361; 2362; 2363; 2364;
  2365; 2366; 2367; 2368; 2369; 2370; 2371; 2372; 2373; 2374; 2375; 2376; 2377; 2378; 2379; 2380; 2381;
  2382; 2383; 2384; 2385; 2386; 2387; 2388; 2389; 2390; 2391; 2392; 2393; 2394; 2395; 2397; 2400; 2403;
  2404; 2406; 2409; 2412; 2413; 2415; 2416; 2417; 2418; 2419; 2420; 2421; 2422; 2423; 2424; 2425; 2426;
  2428; 2429; 2430; 2431; 2432; 2433; 2435; 2438; 2440; 2441; 2442; 2443; 2444; 2446; 2447; 2448; 2449;
  2450; 2451; 2452; 2453; 2454; 2455; 2456; 2457; 2458; 2461; 2462; 2463; 2464; 2465; 2466; 2467; 2468;
  2469; 2470; 2471; 2474; 2477; 2481; 2484; 2487; 2490; 2493; 2496; 2499; 2502; 2505; 2508; 2511; 2514;
  2517; 2519; 2520; 2522; 2525; 2527; 2528; 2530; 2533; 2537; 2539; 2540; 2542; 2545; 2546; 2547; 2548;
  2549; 2550; 2552; 2555; 2557; 2558; 2560; 2563; 2567; 2569; 2570; 2572; 2575; 2576; 2577; 2578; 2579;
  2582; 2584; 2586; 2588; 2590; 2592; 2594; 2596; 2598; 2600; 2602; 2604; 2606; 2609; 2611; 2614; 2616;
  2618; 2620; 2622; 2624; 2626; 2628; 2630; 2632; 2634; 2636; 2638; 2640; 2642; 2644; 2646; 2648; 2650;
  2652; 2654; 2656; 2658; 2660; 2662; 2664; 2666; 2668; 2670; 2672; 2674; 2676; 2678; 2680; 2681; 2682;
  2683; 2684; 2685; 2686; 2687; 2688; 2689; 2690; 2691; 2693; 2695; 2697; 2699; 2701; 2703; 2705; 2707;
  2709; 2711; 2713; 2716; 2719; 2722; 2725; 2728; 2731; 2734; 2737; 2740; 2744; 2748; 2752; 2756; 2760;
  2764; 2768; 2772; 2776; 2780; 2784; 2786; 2788; 2790; 2792; 2794; 2796; 2798; 2800; 2802; 2805; 2808;
  2811; 2814; 2817; 2820; 2823; 2826; 2829; 2832; 2835; 2838; 2841; 2844; 2847; 2850; 2853; 2856; 2859;
  2862; 2865; 2868; 2871; 2874; 2877; 2880; 2883; 2886; 2889; 2892; 2895; 2898; 2901; 2904; 2907; 2910;
  2913; 2914; 2915; 2916; 2917; 2918; 2919; 2920; 2921; 2922; 2923; 2924; 2925; 2926; 2927; 2928; 2929;
  2930; 2931; 2932; 2933; 2934; 2935; 2936; 2937; 2938; 2939; 2940; 2941; 2942; 2943; 2944; 2945; 2946;
  2947; 2948; 2949; 2950; 2951; 2952; 2953; 2954; 2955; 2956; 2957; 2958; 2959; 2960; 2961; 2962; 2963;
  2964; 2965; 2966; 2970; 2973; 2975; 2978; 2980; 2981; 2982; 2983; 2984; 2985; 2986; 2987; 2988; 2989;
  2990; 2991; 2992; 2993; 2994; 2995; 2996; 2997; 2998; 2999; 3000; 3001; 3002; 3003; 3004; 3005; 3006;
  3007; 3008; 3009; 3010; 3011; 3012; 3013; 3014; 3015; 3016; 3017; 3018; 3019; 3020; 3021; 3022; 3023;
  3024; 3025; 3026; 3027; 3028; 3029; 3030; 3031; 3032; 3033; 3034; 3035; 3036; 3037; 3038; 3039; 3040;
  3041; 3042; 3043; 3044; 3045; 3046; 3047; 3048; 3049; 3050; 3051; 3052; 3053; 3054; 3055; 3056; 3057;
  3058; 3059; 3060; 3061; 3062; 3063; 3064; 3065; 3066; 3067; 3068; 3069; 3070; 3071; 3072; 3073; 3074;
  3075; 3076; 3077; 3078; 3079; 3080; 3081; 3082; 3083; 3084; 3085; 3086; 3087; 3088; 3089; 3090; 3091;
  3092; 3093; 3094; 3095; 3096; 3097; 3098; 3099; 3100; 3101; 3102; 3103; 3104; 3105; 3106; 3107; 3108;
  3109; 3110; 3111; 3112; 3113; 3114; 3115; 3116; 3117; 3118; 3119; 3120; 3121; 3122; 3123; 3124; 3125;
  3126; 3127; 3128; 3129; 3130; 3131; 3132; 3133; 3134; 3135; 3136; 3137; 3138; 3139; 3140; 3141; 3142;
  3143; 3144; 3145; 3146; 3147; 3148; 3149; 3150; 3151; 3152; 3153; 3154; 3155; 3156; 3157; 3158; 3159;
  3160; 3161; 3162; 3163; 3164; 3165; 3166; 3167; 3168; 3169; 3170; 3171; 3172; 3173; 3174; 3175; 3176;
  3177; 3178; 3179; 3180; 3181; 3182; 3183; 3184; 3185; 3186; 3187; 3188; 3189; 3190; 3191; 3192; 3193;
  3194; 3195; 3196; 3197; 3198; 3199; 3200; 3201; 3202; 3203; 3204; 3206; 3208; 3210; 3212; 3214; 3216;
  3218; 3220; 3222; 3224; 3226; 3228; 3230; 3232; 3234; 3236; 3238; 3240; 3242; 3244; 3246; 3248; 3250;
  3252; 3254; 3256; 3258; 3260; 3262; 3264; 3266; 3268; 3270; 3272; 3274; 3276; 3278; 3280; 3282; 3284;
  3286; 3288; 3290; 3292; 3294; 3296; 3298; 3300; 3302; 3304; 3306; 3308; 3310; 3312; 3314; 3316; 3318;
  3320; 3322; 3324; 3326; 3328; 3329; 3330; 3331; 3332; 3333; 3334; 3335; 3336; 3337; 3338; 3339; 3340;
  3341; 3342; 3343; 3344; 3345; 3346; 3347; 3348; 3349; 3350; 3351; 3352; 3353; 3354; 3355; 3356; 3357;
  3358; 3359; 3360; 3361; 3362; 3363; 3364; 3365; 3366; 3367; 3368; 3369; 3370; 3371; 3372; 3373; 3374;
  3375; 3376; 3377; 3378; 3379; 3380; 3381; 3382; 3383; 3384; 3385; 3386; 3387; 3388; 3389; 3390; 3391;
  3392; 3393; 3394; 3395; 3396; 3397; 3398; 3399; 3400; 3401; 3402; 3403; 3404; 3405; 3406; 3407; 3408;
  3409; 3410; 3411; 3412; 3413; 3414; 3415; 3416; 3417; 3418; 3419; 3420; 3421; 3422; 3423; 3424; 3425;
  3426; 3427; 3428; 3429; 3430; 3431; 3432; 3433; 3434; 3435; 3436; 3439; 3442; 3445; 3448; 3451; 3454;
  3457; 3460; 3463; 3466; 3469; 3472; 3475; 3478; 3482; 3486; 3490; 3494; 3498; 3502; 3506; 3510; 3514;
  3518; 3522; 3526; 3530; 3534; 3538; 3545; 3551; 3554; 3557; 3560; 3563; 3566; 3569; 3572; 3575; 3578;
  3581; 3584; 3587; 3590; 3593; 3596; 3599; 3602; 3605; 3608; 3611; 3614; 3617; 3620; 3623; 3626; 3629;
  3632; 3635; 3638; 3641; 3644; 3647; 3650; 3653; 3656; 3659; 3660; 3661; 3662; 3663; 3666; 3668; 3670;
  3672; 3674; 3676; 3678; 3680; 3682; 3684; 3686; 3688; 3690; 3692; 3694; 3696; 3697; 3698; 3699; 3700;
  3701; 3702; 3703; 3704; 3705; 3706; 3707; 3708; 3709; 3710; 3712; 3714; 3716; 3718; 3720; 3722; 3724;
  3726; 3728; 3730; 3732; 3734; 3736; 3738; 3743; 3747; 3749; 3750; 3751; 3752; 3753; 3754; 3755; 3756;
  3757; 3758; 3759; 3760; 3761; 3762; 3763; 3764; 3765; 3766; 3767; 3768; 3769; 3770; 3771; 3772; 3773;
  3774; 3775; 3776; 3777; 3778; 3779; 3780; 3781; 3782; 3783; 3784; 3785; 3786; 3787; 3788; 3789; 3790;
  3791; 3792; 3793; 3794; 3795; 3796; 3797; 3798; 3800; 3802; 3804; 3806; 3808; 3810; 3812; 3814; 3816;
  3818; 3820; 3822; 3824; 3826; 3828; 3830; 3832; 3834; 3836; 3838; 3840; 3842; 3844; 3846; 3849; 3852;
  3855; 3857; 3860; 3862; 3865; 3866; 3867; 3868; 3869; 3870; 3871; 3872; 3873; 3874; 3875; 3876; 3877;
  3878; 3879; 3880; 3881; 3882; 3883; 3884; 3885; 3886; 3887; 3888; 3889; 3890; 3891; 3892; 3893; 3894;
  3895; 3896; 3897; 3898; 3899; 3900; 3901; 3902; 3903; 3904; 3905; 3906; 3907; 3908; 3909; 3910; 3911;
  3912; 3914; 3919; 3923; 3928; 3931; 3936; 3939; 3942; 3948; 3952; 3955; 3958; 3961; 3965; 3969; 3973;
  3977; 3981; 3985; 3989; 3995; 3997; 4003; 4009; 4014; 4018; 4024; 4030; 4034; 4037; 4040; 4044; 4048;
  4053; 4058; 4061; 4064; 4068; 4071; 4074; 4076; 4078; 4081; 4084; 4090; 4094; 4099; 4105; 4109; 4112;
  4115; 4121; 4125; 4131; 4134; 4139; 4142; 4146; 4149; 4153; 4158; 4162; 4167; 4171; 4173; 4178; 4181;
  4184; 4188; 4191; 4194; 4197; 4202; 4206; 4208; 4214; 4217; 4222; 4226; 4230; 4233; 4236; 4240; 4242;
  4246; 4251; 4253; 4259; 4262; 4264; 4266; 4268; 4270; 4272; 4274; 4276; 4278; 4280; 4282; 4285; 4288;
  4291; 4294; 4297; 4300; 4303; 4306; 4309; 4312; 4315; 4318; 4321; 4324; 4327; 4330; 4332; 4334; 4337;
  4339; 4341; 4343; 4346; 4349; 4351; 4353; 4355; 4357; 4359; 4363; 4365; 4367; 4369; 4371; 4373; 4375;
  4377; 4379; 4382; 4386; 4388; 4390; 4392; 4394; 4396; 4398; 4400; 4403; 4406; 4409; 4412; 4414; 4416;
  4418; 4420; 4422; 4424; 4426; 4428; 4430; 4432; 4435; 4438; 4440; 4443; 4446; 4449; 4451; 4454; 4457;
  4461; 4463; 4466; 4469; 4472; 4475; 4480; 4486; 4488; 4490; 4492; 4494; 4496; 4498; 4500; 4502; 4504;
  4506; 4508; 4510; 4512; 4514; 4516; 4518; 4520; 4522; 4526; 4528; 4530; 4532; 4536; 4539; 4541; 4543;
  4545; 4547; 4549; 4551; 4553; 4555; 4557; 4559; 4562; 4564; 4566; 4569; 4572; 4574; 4578; 4581; 4583;
  4585; 4587; 4589; 4592; 4595; 4597; 4599; 4601; 4603; 4605; 4607; 4609; 4611; 4613; 4616; 4619; 4622;
  4625; 4628; 4631; 4634; 4637; 4640; 4643; 4646; 4649; 4652; 4655; 4658; 4661; 4664; 4667; 4670; 4673;
  4676; 4679; 4682; 4683; 4684; 4685; 4686; 4687; 4688; 4689; 4690; 4691; 4692; 4693; 4694; 4695; 4696;
  4697; 4698; 4699; 4700; 4701; 4702; 4703; 4704; 4705; 4706; 4707; 4708; 4709; 4710; 4711; 4712; 4713;
  4714; 4715; 4716; 4717; 4718; 4719; 4720; 4721; 4722; 4723; 4724; 4725; 4726; 4727; 4728; 4729; 4730;
  4731; 4732; 4733; 4734; 4735; 4736; 4737; 4738; 4739; 4740; 4741; 4742; 4743; 4744; 4745; 4746; 4747;
  4748; 4749; 4750; 4751; 4752; 4753; 4754; 4755; 4756; 4757; 4758; 4759; 4760; 4761; 4762; 4763; 4764;
  4765; 4766; 4767; 4768; 4769; 4770; 4771; 4772; 4773; 4774; 4775; 4776; 4777; 4778; 4779; 4780; 4781;
  4782; 4783; 4784; 4785; 4786; 4787; 4788; 4789; 4790; 4791; 4792; 4793; 4794; 4795; 4796; 4797; 4798;
  4799; 4800; 4801; 4802; 4803; 4804; 4805; 4806; 4807; 4808; 4809; 4810; 4811; 4812; 4813; 4814; 4815;
  4816; 4817; 4818; 4819; 4820; 4821; 4822; 4823; 4824; 4825; 4826; 4827; 4828; 4829; 4830; 4831; 4832;
  4833; 4834; 4835; 4836; 4837; 4838; 4839; 4840; 4841; 4842; 4843; 4844; 4845; 4846; 4847; 4848; 4849;
  4850; 4851; 4852; 4853; 4854; 4855; 4856; 4857; 4858; 4859; 4860; 4861; 4862; 4863; 4864; 4865; 4866;
  4867; 4868; 4869; 4870; 4871; 4872; 4873; 4874; 4875; 4876; 4877; 4878; 4879; 4880; 4881; 4882; 4883;
  4884; 4885; 4886; 4887; 4888; 4889; 4890; 4891; 4892; 4893; 4894; 4895; 4896; 4897; 4898; 4899; 4900;
  4901; 4902; 4903; 4904; 4905; 4906; 4907; 4908; 4909; 4910; 4911; 4912; 4913; 4914; 4915; 4916; 4917;
  4918; 4919; 4920; 4921; 4922; 4923; 4924; 4925; 4926; 4927; 4928; 4929; 4930; 4931; 4932; 4933; 4934;
  4935; 4936; 4937; 4938; 4939; 4940; 4941; 4942; 4943; 4944; 4945; 4946; 4947; 4948; 4949; 4950; 4951;
  4952; 4953; 4954; 4955; 4956; 4957; 4958; 4959; 4960; 4961; 4962; 4963; 4964; 4965; 4966; 4967; 4968;
  4969; 4970; 4971; 4972; 4973; 4974; 4975; 4976; 4977; 4978; 4979; 4980; 4981; 4982; 4983; 4984; 4985;
  4986; 4987; 4988; 4989; 4990; 4991; 4992; 4993; 4994; 4995; 4996; 4997; 4998; 4999; 5000; 5001; 5002;
  5003; 5004; 5005; 5006; 5007; 5008; 5009; 5010; 5011; 5012; 5013; 5014; 5015; 5016; 5017; 5018; 5019;
  5020; 5021; 5022; 5023; 5024; 5025; 5026; 5027; 5028; 5029; 5030; 5031; 5032; 5033; 5034; 5035; 5036;
  5037; 5038; 5039; 5040; 5041; 5042; 5043; 5044; 5045; 5046; 5047; 5048; 5049; 5050; 5051; 5052; 5053;
  5054; 5055; 5056; 5057; 5058; 5059; 5060; 5061; 5062; 5063; 5064; 5065; 5066; 5067; 5068; 5069; 5070;
  5071; 5072; 5073; 5074; 5075; 5076; 5077; 5078; 5079; 5080; 5081; 5082; 5083; 5084; 5085; 5086; 5087;
  5088; 5089; 5090; 5091; 5092; 5093; 5094; 5095; 5096; 5097; 5098; 5099; 5100; 5101; 5102; 5103; 5104;
  5105; 5106; 5107; 5108; 5109; 5110; 5111; 5112; 5113; 5114; 5115; 5116; 5117; 5118; 5119; 5120; 5121;
  5122; 5123; 5124; 5125; 5126; 5127; 5128; 5129; 5130; 5131; 5132; 5133; 5134; 5135; 5136; 5137; 5138;
  5139; 5140; 5141; 5142; 5143; 5144; 5145; 5146; 5147; 5148; 5149; 5150; 5151; 5152; 5153; 5154; 5155;
  5157; 5159; 5161; 5164; 5167; 5169; 5171; 5173; 5175; 5177; 5179; 5181; 5183; 5185; 5186; 5187; 5188;
  5189; 5190; 5191; 5192; 5193; 5194; 5195; 5197; 5199; 5202; 5205; 5207; 5209; 5211; 5213; 5215; 5217;
  5219; 5221; 5223; 5225; 5227; 5229; 5231; 5233; 5235; 5237; 5239; 5241; 5243; 5245; 5247; 5249; 5251;
  5253; 5255; 5257; 5259; 5261; 5263; 5264; 5265; 5266; 5267; 5268; 5269; 5270; 5271; 5272; 5273; 5274;
  5275; 5276; 5277; 5278; 5279; 5280; 5281; 5282; 5283; 5284; 5285; 5286; 5287; 5288; 5289; 5290; 5291;
  5292; 5293; 5294; 5295; 5296; 5297; 5298; 5299; 5300; 5301; 5302; 5303; 5304; 5305; 5306; 5307; 5308;
  5309; 5310; 5311; 5312; 5313; 5314; 5315; 5316; 5317; 5318; 5319; 5320; 5321; 5322; 5323; 5324; 5325;
  5326; 5327; 5328; 5329; 5330; 5331; 5332; 5333; 5334; 5335; 5336; 5337; 5338; 5339; 5340; 5341; 5342;
  5343; 5344; 5345; 5346; 5347; 5349; 5351; 5352; 5353; 5354; 5355; 5356; 5357; 5358; 5359; 5360; 5361;
  5363; 5365; 5366; 5367; 5368; 5369; 5370; 5371; 5372; 5373; 5374; 5375; 5377; 5378; 5379; 5380; 5381;
  5382; 5383; 5384; 5385; 5386; 5387; 5388; 5389; 5392; 5395; 5398; 5401; 5404; 5407; 5410; 5413; 5416;
  5419; 5422; 5425; 5428; 5431; 5434; 5437; 5440; 5443; 5444; 5445; 5446; 5447; 5450; 5453; 5456; 5459;
  5462; 5464; 5466; 5468; 5470; 5472; 5474; 5476; 5478; 5480; 5482; 5484; 5486; 5488; 5490; 5492; 5494;
  5496; 5498; 5500; 5502; 5504; 5506; 5508; 5510; 5512; 5514; 5516; 5518; 5520; 5522; 5524; 5526; 5528;
  5530; 5532; 5534; 5536; 5538; 5540; 5542; 5544; 5546; 5548; 5550; 5552; 5554; 5556; 5558; 5560; 5562;
  5564; 5566; 5568; 5570; 5572; 5574; 5576; 5578; 5580; 5582; 5584; 5586; 5588; 5590; 5592; 5594; 5596;
  5598; 5600; 5602; 5604; 5606; 5608; 5610; 5612; 5614; 5616; 5618; 5620; 5622; 5624; 5626; 5628; 5630;
  5632; 5634; 5636; 5638; 5640; 5643; 5646; 5649; 5652; 5655; 5658; 5661; 5664; 5667; 5670; 5673; 5676;
  5678; 5680; 5682; 5684; 5686; 5688; 5690; 5692; 5694; 5696; 5698; 5700; 5702; 5704; 5706; 5708; 5710;
  5712; 5714; 5716; 5718; 5720; 5722; 5724; 5726; 5728; 5730; 5732; 5734; 5736; 5738; 5740; 5742; 5744;
  5746; 5748; 5750; 5752; 5754; 5756; 5758; 5760; 5762; 5764; 5766; 5769; 5772; 5775; 5778; 5781; 5783;
  5785; 5787; 5789; 5791; 5793; 5795; 5797; 5799; 5801; 5803; 5805; 5807; 5809; 5811; 5813; 5815; 5817;
  5819; 5821; 5823; 5825; 5827; 5829; 5831; 5833; 5835; 5837; 5839; 5841; 5843; 5845; 5847; 5849; 5851;
  5853; 5855; 5857; 5859; 5861; 5863; 5865; 5867; 5869; 5871; 5873; 5875; 5877; 5879; 5881; 5883; 5885;
  5887; 5889; 5891; 5893; 5895; 5897; 5899; 5901; 5903; 5905; 5907; 5909; 5911; 5913; 5915; 5918; 5921;
  5923; 5925; 5927; 5929; 5931; 5933; 5935; 5937; 5939; 5941; 5943; 5945; 5947; 5949; 5951; 5953; 5955;
  5958; 5961; 5964; 5966; 5968; 5970; 5972; 5974; 5976; 5978; 5980; 5982; 5984; 5986; 5988; 5990; 5992;
  5994; 5996; 5998; 6000; 6002; 6004; 6006; 6008; 6010; 6012; 6014; 6016; 6018; 6020; 6022; 6024; 6026;
  6028; 6030; 6032; 6034; 6036; 6038; 6040; 6042; 6044; 6046; 6048; 6050; 6052; 6054; 6056; 6058; 6060;
  6062; 6064; 6066; 6068; 6070; 6072; 6074; 6076; 6078; 6080; 6082; 6084; 6086; 6088; 6090; 6092; 6094;
  6096; 6098; 6100; 6102; 6104; 6106; 6108; 6110; 6113; 6116; 6119; 6122; 6125; 6128; 6131; 6134; 6137;
  6140; 6143; 6146; 6149; 6152; 6155; 6158; 6161; 6164; 6167; 6170; 6173; 6176; 6179; 6182; 6185; 6188;
  6191; 6194; 6197; 6200; 6203; 6206; 6209; 6212; 6215; 6218; 6221; 6224; 6227; 6230; 6233; 6236; 6239;
  6242; 6245; 6248; 6251; 6254; 6257; 6260; 6263; 6266; 6269; 6272; 6275; 6278; 6281; 6284; 6287; 6290;
  6293; 6296; 6299; 6302; 6305; 6308; 6311; 6314; 6317; 6320; 6323; 6326; 6329; 6332; 6335; 6338; 6341;
  6344; 6347; 6350; 6353; 6356; 6359; 6362; 6365; 6368; 6371; 6374; 6377; 6380; 6383; 6386; 6389; 6392;
  6395; 6398; 6401; 6404; 6407; 6410; 6413; 6416; 6419; 6422; 6425; 6428; 6431; 6434; 6437; 6440; 6443;
  6446; 6449; 6452; 6455; 6458; 6461; 6464; 6467; 6470; 6474; 6478; 6482; 6486; 6490; 6494; 6498; 6501;
  6519; 6527; 6531; 6532; 6533; 6534; 6535; 6536; 6537; 6538; 6539; 6540; 6543; 6545; 6546; 6547; 6548;
  6549; 6550; 6551; 6552; 6553; 6554; 6555; 6556; 6557; 6558; 6559; 6560; 6561; 6562; 6563; 6564; 6565;
  6566; 6567; 6569; 6571; 6573; 6575; 6576; 6577; 6578; 6579; 6580; 6581; 6582; 6583; 6584; 6585; 6586;
  6587; 6588; 6589; 6590; 6591; 6592; 6593; 6594; 6595; 6596; 6597; 6598; 6599; 6600; 6601; 6602; 6603;
  6604; 6606; 6608; 6610; 6612; 6614; 6616; 6618; 6620; 6622; 6624; 6626; 6628; 6630; 6632; 6633; 6635;
  6637; 6639; 6641; 6643; 6645; 6647; 6649; 6651; 6653; 6655; 6657; 6658; 6659; 6660; 6661; 6662; 6663;
  6664; 6665; 6666; 6667; 6668; 6669; 6670; 6671; 6672; 6673; 6674; 6675; 6676; 6677; 6678; 6679; 6680;
  6681; 6682; 6683; 6684; 6685; 6686; 6687; 6688; 6689; 6690; 6691; 6692; 6693; 6694; 6695; 6696; 6697;
  6698; 6699; 6700; 6701; 6702; 6703; 6704; 6705; 6706; 6707; 6708; 6709; 6710; 6711; 6712; 6713; 6714;
  6715; 6716; 6717; 6718; 6719; 6720; 6721; 6722; 6723; 6724; 6725; 6726; 6727; 6728; 6729; 6730; 6731;
  6732; 6733; 6734; 6735; 6736; 6737; 6738; 6739; 6740; 6741; 6742; 6743; 6744; 6745; 6746; 6747; 6748;
  6749; 6750; 6751; 6752; 6753; 6754; 6755; 6756; 6757; 6758; 6759; 6760; 6761; 6764; 6767; 6770; 6773;
  6776; 6779; 6781; 6783; 6784; 6785; 6786; 6787; 6788; 6789; 6790; 6791; 6792; 6793; 6794; 6795; 6796;
  6797; 6798; 6799; 6800; 6801; 6802; 6803; 6804; 6805; 6806; 6807; 6808; 6809; 6810; 6811; 6812; 6813;
  6814; 6815; 6816; 6817; 6818; 6819; 6820; 6821; 6822; 6823; 6824; 6825; 6826; 6827; 6828; 6829; 6830;
  6831; 6832; 6833; 6834; 6835; 6836; 6837; 6838; 6839; 6840; 6841; 6842; 6843; 6844; 6845; 6846; 6847;
  6848; 6849; 6850; 6851; 6852; 6853; 6854; 6855; 6856; 6857; 6858; 6859; 6860; 6861; 6862; 6863; 6864;
  6865; 6866; 6867; 6868; 6869; 6870; 6871; 6872; 6873; 6874; 6875; 6876; 6877; 6878; 6879; 6880; 6881;
  6882; 6883; 6884; 6885; 6886; 6887; 6888; 6889; 6890; 6891; 6892; 6893; 6894; 6895; 6896; 6897; 6898;
  6899; 6900; 6901; 6902; 6903; 6904; 6905; 6906; 6907; 6908; 6909; 6910; 6911; 6912; 6913; 6914; 6915;
  6916; 6917; 6918; 6919; 6920; 6921; 6922; 6923; 6924; 6925; 6926; 6927; 6928; 6929; 6930; 6931; 6932;
  6933; 6934; 6935; 6936; 6937; 6938; 6939; 6940; 6941; 6942; 6943; 6944; 6945; 6946; 6947; 6948; 6949;
  6950; 6951; 6952; 6953; 6954; 6955; 6956; 6957; 6958; 6959; 6960; 6961; 6962; 6963; 6964; 6965; 6966;
  6967; 6968; 6969; 6970; 6971; 6972; 6973; 6974; 6975; 6976; 6977; 6978; 6979; 6980; 6981; 6982; 6983;
  6984; 6985; 6986; 6987; 6988; 6989; 6990; 6991; 6992; 6993; 6994; 6995; 6996; 6997; 6999; 7000; 7001;
  7002; 7003; 7004; 7005; 7006; 7007; 7008; 7009; 7010; 7011; 7012; 7013; 7014; 7015; 7016; 7017; 7018;
  7019; 7020; 7021; 7022; 7023; 7024; 7025; 7026; 7027; 7028; 7029; 7030; 7031; 7032; 7033; 7034; 7035;
  7036; 7037; 7038; 7039; 7040; 7041; 7042; 7043; 7044; 7045; 7046; 7047; 7048; 7049; 7050; 7051; 7052;
  7053; 7054; 7055; 7056; 7057; 7058; 7059; 7060; 7061; 7062; 7063; 7064; 7065; 7067; 7069; 7071; 7073;
  7075; 7077; 7079; 7081; 7083; 7085; 7087; 7089; 7091; 7093; 7095; 7098; 7101; 7104; 7107; 7110; 7112;
  7114; 7117; 7120; 7123; 7126; 7127; 7128; 7129; 7130; 7131; 7132; 7133; 7134; 7135; 7136; 7137; 7138;
  7139; 7140; 7141; 7142; 7143; 7144; 7145; 7146; 7147; 7148; 7149; 7150; 7151; 7152; 7153; 7154; 7155;
  7156; 7157; 7158; 7159; 7160; 7161; 7162; 7163; 7164; 7165; 7166; 7167; 7168; 7169; 7170; 7171; 7172;
  7173; 7174; 7175; 7176; 7177; 7178; 7179; 7180; 7181; 7182; 7183; 7184; 7185; 7186; 7187; 7188; 7189;
  7190; 7191; 7192; 7193; 7194; 7195; 7196; 7197; 7198; 7199; 7200; 7201; 7202; 7203; 7204; 7205; 7206;
  7207; 7208; 7209; 7210; 7211; 7212; 7213; 7214; 7215; 7216; 7217; 7218; 7219; 7220; 7221; 7222; 7223;
  7224; 7225; 7226; 7227; 7228; 7229; 7230; 7231; 7232; 7233; 7234; 7235; 7236; 7237; 7238; 7239; 7240;
  7241; 7242; 7243; 7244; 7245; 7246; 7247; 7248; 7249; 7250; 7251; 7252; 7253; 7254; 7255; 7256; 7257;
  7258; 7259; 7260; 7261; 7262; 7263; 7264; 7265; 7266; 7267; 7268; 7269; 7270; 7271; 7272; 7273; 7274;
  7275; 7276; 7277; 7278; 7279; 7280; 7281; 7282; 7283; 7284; 7285; 7286; 7287; 7288; 7289; 7290; 7291;
  7292; 7293; 7294; 7295; 7296; 7297; 7298; 7299; 7300; 7301; 7302; 7303; 7304; 7305; 7306; 7307; 7308;
  7309; 7310; 7311; 7312; 7313; 7314; 7315; 7316; 7317; 7318; 7319; 7320; 7321; 7322; 7323; 7324; 7325;
  7326; 7327; 7328; 7329; 7330; 7331; 7332; 7333; 7334; 7335; 7336; 7337; 7338; 7339; 7340; 7341; 7342;
  7343; 7344; 7345; 7346; 7347; 7348; 7349; 7350; 7351; 7352; 7353; 7354; 7355; 7356; 7357; 7358; 7359;
  7360; 7361; 7362; 7363; 7364; 7365; 7366; 7367; 7368; 7369; 7370; 7371; 7372; 7373; 7374; 7375; 7376;
  7377; 7378; 7379; 7380; 7381; 7382; 7383; 7384; 7385; 7386; 7387; 7388; 7389; 7390; 7391; 7392; 7393;
  7394; 7395; 7396; 7397; 7398; 7399; 7400; 7401; 7402; 7403; 7404; 7405; 7406; 7407; 7408; 7409; 7410;
  7411; 7412; 7413; 7414; 7415; 7416; 7417; 7418; 7419; 7420; 7421; 7422; 7423; 7424; 7425; 7426; 7427;
  7428; 7429; 7430; 7431; 7432; 7433; 7434; 7435; 7436; 7437; 7438; 7439; 7440; 7441; 7442; 7443; 7444;
  7445; 7446; 7447; 7448; 7449; 7450; 7451; 7452; 7453; 7454; 7455; 7456; 7457; 7458; 7459; 7460; 7461;
  7462; 7463; 7464; 7465; 7466; 7467; 7468; 7469; 7470; 7471; 7472; 7473; 7474; 7475; 7476; 7477; 7478;
  7479; 7480; 7481; 7482; 7483; 7484; 7485; 7486; 7487; 7488; 7489; 7490; 7491; 7492; 7493; 7494; 7495;
  7496; 7497; 7498; 7499; 7500; 7501; 7502; 7503; 7504; 7505; 7506; 7507; 7508; 7509; 7510; 7511; 7512;
  7513; 7514; 7515; 7516; 7517; 7518; 7519; 7520; 7521; 7522; 7523; 7524; 7525; 7526; 7527; 7528; 7529;
  7530; 7531; 7532; 7533; 7534; 7535; 7536; 7537; 7538; 7539; 7540; 7541; 7542; 7543; 7544; 7545; 7546;
  7547; 7548; 7549; 7550; 7551; 7552; 7553; 7554; 7555; 7556; 7557; 7558; 7559; 7560; 7561; 7562; 7563;
  7564; 7565; 7566; 7567; 7568; 7569; 7570; 7571; 7572; 7573; 7574; 7575; 7576; 7577; 7578; 7579; 7580;
  7581; 7582; 7583; 7584; 7585; 7586; 7587; 7588; 7589; 7590; 7591; 7592; 7593; 7594; 7595; 7596; 7597;
  7598; 7599; 7600; 7601; 7602; 7603; 7604; 7605; 7606; 7607; 7608; 7609; 7610; 7611; 7612; 7613; 7614;
  7615; 7616; 7617; 7618; 7619; 7620; 7621; 7622; 7623; 7624; 7625; 7626; 7627; 7628; 7629; 7630; 7631;
  7632; 7633; 7634; 7635; 7636; 7637; 7638; 7639; 7640; 7641; 7642; 7643; 7644; 7645; 7646; 7647; 7648;
  7649; 7650; 7651; 7652; 7653; 7654; 7655; 7656; 7657; 7658; 7659; 7660; 7661; 7662; 7663; 7664; 7665;
  7666; 7667; 7668; 7669; 7670; 7671; 7672; 7673; 7674; 7675; 7676; 7677; 7678; 7679; 7680; 7681; 7682;
  7683; 7684; 7685; 7686; 7687; 7688; 7689; 7690; 7691; 7692; 7693; 7694; 7695; 7696; 7697; 7698; 7699;
  7700; 7701; 7702; 7703; 7704; 7705; 7706; 7707; 7708; 7709; 7710; 7711; 7712; 7713; 7714; 7715; 7716;
  7717; 7718; 7719; 7720; 7721; 7722; 7723; 7724; 7725; 7726; 7727; 7728; 7729; 7730; 7731; 7732; 7733;
  7734; 7735; 7736; 7737; 7738; 7739; 7740; 7741; 7742; 7743; 7744; 7745; 7746; 7747; 7748; 7749; 7750;
  7751; 7752; 7753; 7754; 7755; 7756; 7757; 7758; 7759; 7760; 7761; 7762; 7763; 7764; 7765; 7766; 7767;
  7768; 7769; 7770; 7771; 7772; 7773; 7774; 7775; 7776; 7777; 7778; 7779; 7780; 7781; 7782; 7783; 7784;
  7785; 7786; 7787; 7788; 7789; 7790; 7791; 7792; 7793; 7794; 7795; 7796; 7797; 7798; 7799; 7800; 7801;
  7802; 7803; 7804; 7805; 7806; 7807; 7808; 7809; 7810; 7811; 7812; 7813; 7814; 7815; 7816; 7817; 7818;
  7819; 7820; 7821; 7822; 7823; 7824; 7825; 7826; 7827; 7828; 7829; 7830; 7831; 7832; 7833; 7834; 7835;
  7836; 7837; 7838; 7839; 7840; 7841; 7842; 7843; 7844; 7845; 7846; 7847; 7848; 7849; 7850; 7851; 7852;
  7853; 7854; 7855; 7856; 7857; 7858; 7859; 7860; 7861; 7862; 7863; 7864; 7865; 7866; 7867; 7868; 7869;
  7870; 7871; 7872; 7873; 7874; 7875; 7876; 7877; 7878; 7879; 7880; 7881; 7882; 7883; 7884; 7885; 7886;
  7887; 7888; 7889; 7890; 7891; 7892; 7893; 7894; 7895; 7896; 7897; 7898; 7899; 7900; 7901; 7902; 7903;
  7904; 7905; 7906; 7907; 7908; 7909; 7910; 7911; 7912; 7913; 7914; 7915; 7916; 7917; 7918; 7919; 7920;
  7921; 7922; 7923; 7924; 7925; 7926; 7927; 7928; 7929; 7930; 7931; 7932; 7933; 7934; 7935; 7936; 7937;
  7938; 7939; 7940; 7941; 7942; 7943; 7944; 7945; 7946; 7947; 7948; 7949; 7950; 7951; 7952; 7953; 7954;
  7955; 7956; 7957; 7958; 7959; 7960; 7961; 7962; 7963; 7964; 7965; 7966; 7967; 7968; 7969; 7970; 7971;
  7972; 7973; 7974; 7975; 7976; 7977; 7978; 7979; 7980; 7981; 7982; 7983; 7984; 7985; 7986; 7987; 7988;
  7989; 7990; 7991; 7992; 7993; 7994; 7995; 7996; 7997; 7998; 7999; 8000; 8001; 8002; 8003; 8004; 8005;
  8006; 8007; 8008; 8009; 8010; 8011; 8012; 8013; 8014; 8015; 8016; 8017; 8018; 8019; 8020; 8021; 8022;
  8023; 8024; 8025; 8026; 8027; 8028; 8029; 8030; 8031; 8032; 8033; 8034; 8035; 8036; 8037; 8038; 8039;
  8040; 8041; 8042; 8043; 8044; 8045; 8046; 8047; 8048; 8049; 8050; 8051; 8052; 8053; 8054; 8055; 8056;
  8057; 8058; 8059; 8060; 8061; 8062; 8063; 8064; 8065; 8066; 8067; 8068; 8069; 8070; 8071; 8072; 8073;
  8074; 8075; 8076; 8077; 8078; 8079; 8080; 8081; 8082; 8083; 8084; 8085; 8086; 8087; 8088; 8089; 8090;
  8091; 8092; 8093; 8094; 8095; 8096; 8097; 8098; 8099; 8100; 8101; 8102; 8103; 8104; 8105; 8106; 8107;
  8108; 8109; 8110; 8111; 8112; 8113; 8114; 8115; 8116; 8117; 8118; 8119; 8120; 8121; 8122; 8123; 8124;
  8125; 8126; 8127; 8128; 8129; 8130; 8131; 8132; 8133; 8134; 8135; 8136; 8137; 8138; 8139; 8140; 8141;
  8142; 8143; 8144; 8145; 8146; 8147; 8148; 8149; 8150; 8151; 8152; 8153; 8154; 8155; 8156; 8157; 8158;
  8159; 8160; 8161; 8162; 8163; 8164; 8165; 8166; 8167; 8168; 8169; 8170; 8171; 8172; 8173; 8174; 8175;
  8176; 8177; 8178; 8179; 8180; 8181; 8182; 8183; 8184; 8185; 8186; 8187; 8188; 8189; 8190; 8191; 8192;
  8193; 8194; 8195; 8196; 8197; 8198; 8199; 8200; 8201; 8202; 8203; 8204; 8205; 8206; 8207; 8208; 8209;
  8210; 8211; 8212; 8213; 8214; 8215; 8216; 8217; 8218; 8219; 8220; 8221; 8222; 8223; 8224; 8225; 8226;
  8227; 8228; 8229; 8230; 8231; 8232; 8233; 8234; 8235; 8236; 8237; 8238; 8239; 8240; 8241; 8242; 8243;
  8244; 8245; 8246; 8247; 8248; 8249; 8250; 8251; 8252; 8253; 8254; 8255; 8256; 8257; 8258; 8259; 8260;
  8261; 8262; 8263; 8264; 8265; 8266; 8267; 8268; 8269; 8270; 8271; 8272; 8273; 8274; 8275; 8276; 8277;
  8278; 8279; 8280; 8281; 8282; 8283; 8284; 8285; 8286; 8287; 8288; 8289; 8290; 8291; 8292; 8293; 8294;
  8295; 8296; 8297; 8298; 8299; 8300; 8301; 8302; 8303; 8304; 8305; 8306; 8307; 8308; 8309; 8310; 8311;
  8312; 8313; 8314; 8315; 8316; 8317; 8318; 8319; 8320; 8321; 8322; 8323; 8324; 8325; 8327; 8329; 8331;
  8333; 8335; 8337; 8339; 8341; 8343; 8345; 8347; 8350; 8353; 8356; 8359; 8362; 8365; 8368; 8371; 8374;
  8377; 8380; 8383; 8386; 8389; 8392; 8395; 8398; 8401; 8404; 8407; 8410; 8413; 8416; 8419; 8422; 8425;
  8428; 8429; 8430; 8432; 8434; 8435; 8436; 8437; 8438; 8439; 8440; 8441; 8442; 8443; 8444; 8445; 8446;
  8447; 8448; 8449; 8450; 8451; 8452; 8453; 8454; 8455; 8456; 8457; 8458; 8459; 8460; 8462; 8464; 8466;
  8468; 8471; 8473; 8475; 8477; 8479; 8481; 8483; 8485; 8486; 8487; 8488; 8489; 8491; 8492; 8493; 8494;
  8495; 8496; 8497; 8498; 8499; 8500; 8501; 8502; 8503; 8504; 8505; 8506; 8507; 8508; 8509; 8510; 8511;
  8512; 8513; 8514; 8515; 8516; 8517; 8518; 8519; 8520; 8521; 8522; 8523; 8524; 8525; 8526; 8527; 8528;
  8529; 8530; 8531; 8534; 8537; 8540; 8543; 8546; 8549; 8552; 8555; 8558; 8559; 8560; 8561; 8562; 8563;
  8564; 8565; 8566; 8567; 8568; 8569; 8570; 8571; 8572; 8573; 8574; 8575; 8576; 8577; 8578; 8579; 8580;
  8581; 8582; 8583; 8584; 8585; 8586; 8587; 8588; 8589; 8590; 8591; 8592; 8593; 8594; 8595; 8596; 8597;
  8598; 8599; 8600; 8601; 8602; 8603; 8604; 8605; 8606; 8607; 8608; 8609; 8610; 8611; 8612; 8613; 8614;
  8615; 8616; 8617; 8618; 8619; 8620; 8621; 8622; 8623; 8624; 8625; 8626; 8627; 8628; 8629; 8630; 8631;
  8632; 8633; 8634; 8635; 8636; 8637; 8638; 8639; 8640; 8641; 8642; 8643; 8644; 8645; 8646; 8647; 8648;
  8649; 8650; 8651; 8652; 8653; 8654; 8655; 8656; 8657; 8658; 8659; 8660; 8661; 8662; 8663; 8664; 8665;
  8666; 8667; 8668; 8669; 8670; 8671; 8672; 8673; 8674; 8675; 8676; 8677; 8678; 8679; 8680; 8681; 8682;
  8683; 8684; 8685; 8686; 8687; 8688; 8689; 8690; 8691; 8692; 8693; 8694; 8695; 8696; 8697; 8698; 8699;
  8700; 8701; 8702; 8703; 8704; 8705; 8706; 8707; 8708; 8709; 8710; 8711; 8712; 8713; 8714; 8715; 8716;
  8717; 8718; 8719; 8720; 8721; 8722; 8723; 8724; 8725; 8726; 8727; 8728; 8729; 8730; 8731; 8732; 8733;
  8734; 8735; 8736; 8737; 8738; 8739; 8740; 8741; 8742; 8743; 8744; 8745; 8746; 8747; 8748; 8749; 8750;
  8751; 8752; 8753; 8754; 8755; 8756; 8757; 8758; 8759; 8760; 8761; 8762; 8763; 8764; 8765; 8766; 8767;
  8768; 8769; 8770; 8771; 8772; 8773; 8774; 8775; 8776; 8777; 8778; 8779; 8780; 8781; 8782; 8783; 8784;
  8785; 8786; 8787; 8788; 8789; 8790; 8791; 8792; 8793; 8794; 8795; 8796; 8797; 8798; 8799; 8800; 8801;
  8802; 8803; 8804; 8805; 8806; 8807; 8808; 8809; 8810; 8811; 8812; 8813; 8814; 8815; 8816; 8817; 8818;
  8819; 8820; 8821; 8822; 8823; 8824; 8825; 8826; 8827; 8828; 8829; 8830; 8831; 8832; 8833; 8834; 8835;
  8836; 8837; 8838; 8839; 8840; 8841; 8842; 8843; 8844; 8845; 8846; 8847; 8848; 8849; 8850; 8851; 8852;
  8853; 8854; 8855; 8856; 8857; 8858; 8859; 8860; 8861; 8862; 8863; 8864; 8865; 8866; 8867; 8868; 8869;
  8870; 8871; 8872; 8873; 8874; 8875; 8876; 8877; 8878; 8879; 8880; 8881; 8882; 8883; 8884; 8885; 8886;
  8887; 8888; 8889; 8890; 8891; 8892; 8893; 8894; 8895; 8896; 8897; 8898; 8899; 8900; 8901; 8902; 8903;
  8904; 8905; 8906; 8907; 8908; 8909; 8910; 8911; 8912; 8913; 8914; 8915; 8916; 8917; 8918; 8919; 8920;
  8921; 8922; 8923; 8924; 8925; 8926; 8927; 8928; 8929; 8930; 8931; 8932; 8933; 8934; 8935; 8936; 8937;
  8938; 8939; 8940; 8941; 8942; 8943; 8944; 8945; 8946; 8947; 8948; 8949; 8950; 8951; 8952; 8953; 8954;
  8955; 8956; 8957; 8958; 8959; 8960; 8961; 8962; 8963; 8964; 8965; 8966; 8967; 8968; 8969; 8970; 8971;
  8972; 8973; 8974; 8975; 8976; 8977; 8978; 8979; 8980; 8981; 8982; 8983; 8984; 8985; 8986; 8987; 8988;
  8989; 8990; 8991; 8992; 8993; 8994; 8995; 8996; 8997; 8998; 8999; 9000; 9001; 9002; 9003; 9004; 9005;
  9006; 9007; 9008; 9009; 9010; 9011; 9012; 9013; 9014; 9015; 9016; 9017; 9018; 9019; 9020; 9021; 9022;
  9023; 9024; 9025; 9026; 9027; 9028; 9029; 9030; 9031; 9032; 9033; 9034; 9035; 9036; 9037; 9038; 9039;
  9040; 9041; 9042; 9043; 9044; 9045; 9046; 9047; 9048; 9049; 9050; 9051; 9052; 9053; 9054; 9055; 9056;
  9057; 9058; 9059; 9060; 9061; 9062; 9063; 9064; 9065; 9066; 9067; 9068; 9069; 9070; 9071; 9072; 9073;
  9074; 9075; 9076; 9077; 9078; 9079; 9080; 9081; 9082; 9083; 9084; 9085; 9086; 9087; 9088; 9089; 9090;
  9091; 9092; 9093; 9094; 9095; 9096; 9097; 9098; 9099; 9100; 9101; 9102; 9103; 9104; 9105; 9106; 9107;
  9108; 9109; 9110; 9111; 9112].

Definition compatDecompData : list Z := [
  32; 32; 776; 97; 32; 772; 50; 51; 32; 769; 956; 32; 807; 49; 111; 49; 8260; 52; 49; 8260; 50; 51; 8260;
  52; 65; 768; 65; 769; 65; 770; 65; 771; 65; 776; 65; 778; 67; 807; 69; 768; 69; 769; 69; 770; 69; 776;
  73; 768; 73; 769; 73; 770; 73; 776; 78; 771; 79; 768; 79; 769; 79; 770; 79; 771; 79; 776; 85; 768; 85;
  769; 85; 770; 85; 776; 89; 769; 97; 768; 97; 769; 97; 770; 97; 771; 97; 776; 97; 778; 99; 807; 101; 768;
  101; 769; 101; 770; 101; 776; 105; 768; 105; 769; 105; 770; 105; 776; 110; 771; 111; 768; 111; 769; 111;
  770; 111; 771; 111; 776; 117; 768; 117; 769; 117; 770; 117; 776; 121; 769; 121; 776; 65; 772; 97; 772;
  65; 774; 97; 774; 65; 808; 97; 808; 67; 769; 99; 769; 67; 770; 99; 770; 67; 775; 99; 775; 67; 780; 99;
  780; 68; 780; 100; 780; 69; 772; 101; 772; 69; 774; 101; 774; 69; 775; 101; 775; 69; 808; 101; 808; 69;
  780; 101; 780; 71; 770; 103; 770; 71; 774; 103; 774; 71; 775; 103; 775; 71; 807; 103; 807; 72; 770; 104;
  770; 73; 771; 105; 771; 73; 772; 105; 772; 73; 774; 105; 774; 73; 808; 105; 808; 73; 775; 73; 74; 105;
  106; 74; 770; 106; 770; 75; 807; 107; 807; 76; 769; 108; 769; 76; 807; 108; 807; 76; 780; 108; 780; 76;
  183; 108; 183; 78; 769; 110; 769; 78; 807; 110; 807; 78; 780; 110; 780; 700; 110; 79; 772; 111; 772; 79;
  774; 111; 774; 79; 779; 111; 779; 82; 769; 114; 769; 82; 807; 114; 807; 82; 780; 114; 780; 83; 769; 115;
  769; 83; 770; 115; 770; 83; 807; 115; 807; 83; 780; 115; 780; 84; 807; 116; 807; 84; 780; 116; 780; 85;
  771; 117; 771; 85; 772; 117; 772; 85; 774; 117; 774; 85; 778; 117; 778; 85; 779; 117; 779; 85; 808; 117;
  808; 87; 770; 119; 770; 89; 770; 121; 770; 89; 776; 90; 769; 122; 769; 90; 775; 122; 775; 90; 780; 122;
  780; 115; 79; 795; 111; 795; 85; 795; 117; 795; 68; 90; 780; 68; 122; 780; 100; 122; 780; 76; 74; 76;
  106; 108; 106; 78; 74; 78; 106; 110; 106; 65; 780; 97; 780; 73; 780; 105; 780; 79; 780; 111; 780; 85;
  780; 117; 780; 85; 776; 772; 117; 776; 772; 85; 776; 769; 117; 776; 769; 85; 776; 780; 117; 776; 780; 85;
  776; 768; 117; 776; 768; 65; 776; 772; 97; 776; 772; 65; 775; 772; 97; 775; 772; 198; 772; 230; 772; 71;
  780; 103; 780; 75; 780; 107; 780; 79; 808; 111; 808; 79; 808; 772; 111; 808; 772; 439; 780; 658; 780;
  106; 780; 68; 90; 68; 122; 100; 122; 71; 769; 103; 769; 78; 768; 110; 768; 65; 778; 769; 97; 778; 769;
  198; 769; 230; 769; 216; 769; 248; 769; 65; 783; 97; 783; 65; 785; 97; 785; 69; 783; 101; 783; 69; 785;
  101; 785; 73; 783; 105; 783; 73; 785; 105; 785; 79; 783; 111; 783; 79; 785; 111; 785; 82; 783; 114; 783;
  82; 785; 114; 785; 85; 783; 117; 783; 85; 785; 117; 785; 83; 806; 115; 806; 84; 806; 116; 806; 72; 780;
  104; 780; 65; 775; 97; 775; 69; 807; 101; 807; 79; 776; 772; 111; 776; 772; 79; 771; 772; 111; 771; 772;
  79; 775; 111; 775; 79; 775; 772; 111; 775; 772; 89; 772; 121; 772; 104; 614; 106; 114; 633; 635; 641;
  119; 121; 32; 774; 32; 775; 32; 778; 32; 808; 32; 771; 32; 779; 611; 108; 115; 120; 661; 768; 769; 787;
  776; 769; 697; 32; 837; 59; 32; 769; 32; 776; 769; 913; 769; 183; 917; 769; 919; 769; 921; 769; 927; 769;
  933; 769; 937; 769; 953; 776; 769; 921; 776; 933; 776; 945; 769; 949; 769; 951; 769; 953; 769; 965; 776;
  769; 953; 776; 965; 776; 959; 769; 965; 769; 969; 769; 946; 952; 933; 933; 769; 933; 776; 966; 960; 954;
  961; 962; 920; 949; 931; 1045; 768; 1045; 776; 1043; 769; 1030; 776; 1050; 769; 1048; 768; 1059; 774;
  1048; 774; 1080; 774; 1077; 768; 1077; 776; 1075; 769; 1110; 776; 1082; 769; 1080; 768; 1091; 774; 1140;
  783; 1141; 783; 1046; 774; 1078; 774; 1040; 774; 1072; 774; 1040; 776; 1072; 776; 1045; 774; 1077; 774;
  1240; 776; 1241; 776; 1046; 776; 1078; 776; 1047; 776; 1079; 776; 1048; 772; 1080; 772; 1048; 776; 1080;
  776; 1054; 776; 1086; 776; 1256; 776; 1257; 776; 1069; 776; 1101; 776; 1059; 772; 1091; 772; 1059; 776;
  1091; 776; 1059; 779; 1091; 779; 1063; 776; 1095; 776; 1067; 776; 1099; 776; 1381; 1410; 1575; 1619;
  1575; 1620; 1608; 1620; 1575; 1621; 1610; 1620; 1575; 1652; 1608; 1652; 1735; 1652; 1610; 1652; 1749;
  1620; 1729; 1620; 1746; 1620; 2344; 2364; 2352; 2364; 2355; 2364; 2325; 2364; 2326; 2364; 2327; 2364;
  2332; 2364; 2337; 2364; 2338; 2364; 2347; 2364; 2351; 2364; 2503; 2494; 2503; 2519; 2465; 2492; 2466;
  2492; 2479; 2492; 2610; 2620; 2616; 2620; 2582; 2620; 2583; 2620; 2588; 2620; 2603; 2620; 2887; 2902;
  2887; 2878; 2887; 2903; 2849; 2876; 2850; 2876; 2962; 3031; 3014; 3006; 3015; 3006; 3014; 3031; 3142;
  3158; 3263; 3285; 3270; 3285; 3270; 3286; 3270; 3266; 3270; 3266; 3285; 3398; 3390; 3399; 3390; 3398;
  3415; 3545; 3530; 3545; 3535; 3545; 3535; 3530; 3545; 3551; 3661; 3634; 3789; 3762; 3755; 3737; 3755;
  3745; 3851; 3906; 4023; 3916; 4023; 3921; 4023; 3926; 4023; 3931; 4023; 3904; 4021; 3953; 3954; 3953;
  3956; 4018; 3968; 4018; 3953; 3968; 4019; 3968; 4019; 3953; 3968; 3953; 3968; 3986; 4023; 3996; 4023;
  4001; 4023; 4006; 4023; 4011; 4023; 3984; 4021; 4133; 4142; 4316; 6917; 6965; 6919; 6965; 6921; 6965;
  6923; 6965; 6925; 6965; 6929; 6965; 6970; 6965; 6972; 6965; 6974; 6965; 6975; 6965; 6978; 6965; 65; 198;
  66; 68; 69; 398; 71; 72; 73; 74; 75; 76; 77; 78; 79; 546; 80; 82; 84; 85; 87; 97; 592; 593; 7426; 98;
  100; 101; 601; 603; 604; 103; 107; 109; 331; 111; 596; 7446; 7447; 112; 116; 117; 7453; 623; 118; 7461;
  946; 947; 948; 966; 967; 105; 114; 117; 118; 946; 947; 961; 966; 967; 1085; 594; 99; 597; 240; 604; 102;
  607; 609; 613; 616; 617; 618; 7547; 669; 621; 7557; 671; 625; 624; 626; 627; 628; 629; 632; 642; 643;
  427; 649; 650; 7452; 651; 652; 122; 656; 657; 658; 952; 65; 805; 97; 805; 66; 775; 98; 775; 66; 803; 98;
  803; 66; 817; 98; 817; 67; 807; 769; 99; 807; 769; 68; 775; 100; 775; 68; 803; 100; 803; 68; 817; 100;
  817; 68; 807; 100; 807; 68; 813; 100; 813; 69; 772; 768; 101; 772; 768; 69; 772; 769; 101; 772; 769; 69;
  813; 101; 813; 69; 816; 101; 816; 69; 807; 774; 101; 807; 774; 70; 775; 102; 775; 71; 772; 103; 772; 72;
  775; 104; 775; 72; 803; 104; 803; 72; 776; 104; 776; 72; 807; 104; 807; 72; 814; 104; 814; 73; 816; 105;
  816; 73; 776; 769; 105; 776; 769; 75; 769; 107; 769; 75; 803; 107; 803; 75; 817; 107; 817; 76; 803; 108;
  803; 76; 803; 772; 108; 803; 772; 76; 817; 108; 817; 76; 813; 108; 813; 77; 769; 109; 769; 77; 775; 109;
  775; 77; 803; 109; 803; 78; 775; 110; 775; 78; 803; 110; 803; 78; 817; 110; 817; 78; 813; 110; 813; 79;
  771; 769; 111; 771; 769; 79; 771; 776; 111; 771; 776; 79; 772; 768; 111; 772; 768; 79; 772; 769; 111;
  772; 769; 80; 769; 112; 769; 80; 775; 112; 775; 82; 775; 114; 775; 82; 803; 114; 803; 82; 803; 772; 114;
  803; 772; 82; 817; 114; 817; 83; 775; 115; 775; 83; 803; 115; 803; 83; 769; 775; 115; 769; 775; 83; 780;
  775; 115; 780; 775; 83; 803; 775; 115; 803; 775; 84; 775; 116; 775; 84; 803; 116; 803; 84; 817; 116; 817;
  84; 813; 116; 813; 85; 804; 117; 804; 85; 816; 117; 816; 85; 813; 117; 813; 85; 771; 769; 117; 771; 769;
  85; 772; 776; 117; 772; 776; 86; 771; 118; 771; 86; 803; 118; 803; 87; 768; 119; 768; 87; 769; 119; 769;
  87; 776; 119; 776; 87; 775; 119; 775; 87; 803; 119; 803; 88; 775; 120; 775; 88; 776; 120; 776; 89; 775;
  121; 775; 90; 770; 122; 770; 90; 803; 122; 803; 90; 817; 122; 817; 104; 817; 116; 776; 119; 778; 121;
  778; 97; 702; 115; 775; 65; 803; 97; 803; 65; 777; 97; 777; 65; 770; 769; 97; 770; 769; 65; 770; 768; 97;
  770; 768; 65; 770; 777; 97; 770; 777; 65; 770; 771; 97; 770; 771; 65; 803; 770; 97; 803; 770; 65; 774;
  769; 97; 774; 769; 65; 774; 768; 97; 774; 768; 65; 774; 777; 97; 774; 777; 65; 774; 771; 97; 774; 771;
  65; 803; 774; 97; 803; 774; 69; 803; 101; 803; 69; 777; 101; 777; 69; 771; 101; 771; 69; 770; 769; 101;
  770; 769; 69; 770; 768; 101; 770; 768; 69; 770; 777; 101; 770; 777; 69; 770; 771; 101; 770; 771; 69; 803;
  770; 101; 803; 770; 73; 777; 105; 777; 73; 803; 105; 803; 79; 803; 111; 803; 79; 777; 111; 777; 79; 770;
  769; 111; 770; 769; 79; 770; 768; 111; 770; 768; 79; 770; 777; 111; 770; 777; 79; 770; 771; 111; 770;
  771; 79; 803; 770; 111; 803; 770; 79; 795; 769; 111; 795; 769; 79; 795; 768; 111; 795; 768; 79; 795; 777;
  111; 795; 777; 79; 795; 771; 111; 795; 771; 79; 795; 803; 111; 795; 803; 85; 803; 117; 803; 85; 777; 117;
  777; 85; 795; 769; 117; 795; 769; 85; 795; 768; 117; 795; 768; 85; 795; 777; 117; 795; 777; 85; 795; 771;
  117; 795; 771; 85; 795; 803; 117; 795; 803; 89; 768; 121; 768; 89; 803; 121; 803; 89; 777; 121; 777; 89;
  771; 121; 771; 945; 787; 945; 788; 945; 787; 768; 945; 788; 768; 945; 787; 769; 945; 788; 769; 945; 787;
  834; 945; 788; 834; 913; 787; 913; 788; 913; 787; 768; 913; 788; 768; 913; 787; 769; 913; 788; 769; 913;
  787; 834; 913; 788; 834; 949; 787; 949; 788; 949; 787; 768; 949; 788; 768; 949; 787; 769; 949; 788; 769;
  917; 787; 917; 788; 917; 787; 768; 917; 788; 768; 917; 787; 769; 917; 788; 769; 951; 787; 951; 788; 951;
  787; 768; 951; 788; 768; 951; 787; 769; 951; 788; 769; 951; 787; 834; 951; 788; 834; 919; 787; 919; 788;
  919; 787; 768; 919; 788; 768; 919; 787; 769; 919; 788; 769; 919; 787; 834; 919; 788; 834; 953; 787; 953;
  788; 953; 787; 768; 953; 788; 768; 953; 787; 769; 953; 788; 769; 953; 787; 834; 953; 788; 834; 921; 787;
  921; 788; 921; 787; 768; 921; 788; 768; 921; 787; 769; 921; 788; 769; 921; 787; 834; 921; 788; 834; 959;
  787; 959; 788; 959; 787; 768; 959; 788; 768; 959; 787; 769; 959; 788; 769; 927; 787; 927; 788; 927; 787;
  768; 927; 788; 768; 927; 787; 769; 927; 788; 769; 965; 787; 965; 788; 965; 787; 768; 965; 788; 768; 965;
  787; 769; 965; 788; 769; 965; 787; 834; 965; 788; 834; 933; 788; 933; 788; 768; 933; 788; 769; 933; 788;
  834; 969; 787; 969; 788; 969; 787; 768; 969; 788; 768; 969; 787; 769; 969; 788; 769; 969; 787; 834; 969;
  788; 834; 937; 787; 937; 788; 937; 787; 768; 937; 788; 768; 937; 787; 769; 937; 788; 769; 937; 787; 834;
  937; 788; 834; 945; 768; 945; 769; 949; 768; 949; 769; 951; 768; 951; 769; 953; 768; 953; 769; 959; 768;
  959; 769; 965; 768; 965; 769; 969; 768; 969; 769; 945; 787; 837; 945; 788; 837; 945; 787; 768; 837; 945;
  788; 768; 837; 945; 787; 769; 837; 945; 788; 769; 837; 945; 787; 834; 837; 945; 788; 834; 837; 913; 787;
  837; 913; 788; 837; 913; 787; 768; 837; 913; 788; 768; 837; 913; 787; 769; 837; 913; 788; 769; 837; 913;
  787; 834; 837; 913; 788; 834; 837; 951; 787; 837; 951; 788; 837; 951; 787; 768; 837; 951; 788; 768; 837;
  951; 787; 769; 837; 951; 788; 769; 837; 951; 787; 834; 837; 951; 788; 834; 837; 919; 787; 837; 919; 788;
  837; 919; 787; 768; 837; 919; 788; 768; 837; 919; 787; 769; 837; 919; 788; 769; 837; 919; 787; 834; 837;
  919; 788; 834; 837; 969; 787; 837; 969; 788; 837; 969; 787; 768; 837; 969; 788; 768; 837; 969; 787; 769;
  837; 969; 788; 769; 837; 969; 787; 834; 837; 969; 788; 834; 837; 937; 787; 837; 937; 788; 837; 937; 787;
  768; 837; 937; 788; 768; 837; 937; 787; 769; 837; 937; 788; 769; 837; 937; 787; 834; 837; 937; 788; 834;
  837; 945; 774; 945; 772; 945; 768; 837; 945; 837; 945; 769; 837; 945; 834; 945; 834; 837; 913; 774; 913;
  772; 913; 768; 913; 769; 913; 837; 32; 787; 953; 32; 787; 32; 834; 32; 776; 834; 951; 768; 837; 951; 837;
  951; 769; 837; 951; 834; 951; 834; 837; 917; 768; 917; 769; 919; 768; 919; 769; 919; 837; 32; 787; 768;
  32; 787; 769; 32; 787; 834; 953; 774; 953; 772; 953; 776; 768; 953; 776; 769; 953; 834; 953; 776; 834;
  921; 774; 921; 772; 921; 768; 921; 769; 32; 788; 768; 32; 788; 769; 32; 788; 834; 965; 774; 965; 772;
  965; 776; 768; 965; 776; 769; 961; 787; 961; 788; 965; 834; 965; 776; 834; 933; 774; 933; 772; 933; 768;
  933; 769; 929; 788; 32; 776; 768; 32; 776; 769; 96; 969; 768; 837; 969; 837; 969; 769; 837; 969; 834;
  969; 834; 837; 927; 768; 927; 769; 937; 768; 937; 769; 937; 837; 32; 769; 32; 788; 32; 32; 32; 32; 32;
  32; 32; 32; 32; 32; 32; 8208; 32; 819; 46; 46; 46; 46; 46; 46; 32; 8242; 8242; 8242; 8242; 8242; 8245;
  8245; 8245; 8245; 8245; 33; 33; 32; 773; 63; 63; 63; 33; 33; 63; 8242; 8242; 8242; 8242; 32; 48; 105; 52;
  53; 54; 55; 56; 57; 43; 8722; 61; 40; 41; 110; 48; 49; 50; 51; 52; 53; 54; 55; 56; 57; 43; 8722; 61; 40;
  41; 97; 101; 111; 120; 601; 104; 107; 108; 109; 110; 112; 115; 116; 82; 115; 97; 47; 99; 97; 47; 115; 67;
  176; 67; 99; 47; 111; 99; 47; 117; 400; 176; 70; 103; 72; 72; 72; 104; 295; 73; 73; 76; 108; 78; 78; 111;
  80; 81; 82; 82; 82; 83; 77; 84; 69; 76; 84; 77; 90; 937; 90; 75; 65; 778; 66; 67; 101; 69; 70; 77; 111;
  1488; 1489; 1490; 1491; 105; 70; 65; 88; 960; 947; 915; 928; 8721; 68; 100; 101; 105; 106; 49; 8260; 55;
  49; 8260; 57; 49; 8260; 49; 48; 49; 8260; 51; 50; 8260; 51; 49; 8260; 53; 50; 8260; 53; 51; 8260; 53; 52;
  8260; 53; 49; 8260; 54; 53; 8260; 54; 49; 8260; 56; 51; 8260; 56; 53; 8260; 56; 55; 8260; 56; 49; 8260;
  73; 73; 73; 73; 73; 73; 73; 86; 86; 86; 73; 86; 73; 73; 86; 73; 73; 73; 73; 88; 88; 88; 73; 88; 73; 73;
  76; 67; 68; 77; 105; 105; 105; 105; 105; 105; 105; 118; 118; 118; 105; 118; 105; 105; 118; 105; 105; 105;
  105; 120; 120; 120; 105; 120; 105; 105; 108; 99; 100; 109; 48; 8260; 51; 8592; 824; 8594; 824; 8596; 824;
  8656; 824; 8660; 824; 8658; 824; 8707; 824; 8712; 824; 8715; 824; 8739; 824; 8741; 824; 8747; 8747; 8747;
  8747; 8747; 8750; 8750; 8750; 8750; 8750; 8764; 824; 8771; 824; 8773; 824; 8776; 824; 61; 824; 8801; 824;
  8781; 824; 60; 824; 62; 824; 8804; 824; 8805; 824; 8818; 824; 8819; 824; 8822; 824; 8823; 824; 8826; 824;
  8827; 824; 8834; 824; 8835; 824; 8838; 824; 8839; 824; 8866; 824; 8872; 824; 8873; 824; 8875; 824; 8828;
  824; 8829; 824; 8849; 824; 8850; 824; 8882; 824; 8883; 824; 8884; 824; 8885; 824; 12296; 12297; 49; 50;
  51; 52; 53; 54; 55; 56; 57; 49; 48; 49; 49; 49; 50; 49; 51; 49; 52; 49; 53; 49; 54; 49; 55; 49; 56; 49;
  57; 50; 48; 40; 49; 41; 40; 50; 41; 40; 51; 41; 40; 52; 41; 40; 53; 41; 40; 54; 41; 40; 55; 41; 40; 56;
  41; 40; 57; 41; 40; 49; 48; 41; 40; 49; 49; 41; 40; 49; 50; 41; 40; 49; 51; 41; 40; 49; 52; 41; 40; 49;
  53; 41; 40; 49; 54; 41; 40; 49; 55; 41; 40; 49; 56; 41; 40; 49; 57; 41; 40; 50; 48; 41; 49; 46; 50; 46;
  51; 46; 52; 46; 53; 46; 54; 46; 55; 46; 56; 46; 57; 46; 49; 48; 46; 49; 49; 46; 49; 50; 46; 49; 51; 46;
  49; 52; 46; 49; 53; 46; 49; 54; 46; 49; 55; 46; 49; 56; 46; 49; 57; 46; 50; 48; 46; 40; 97; 41; 40; 98;
  41; 40; 99; 41; 40; 100; 41; 40; 101; 41; 40; 102; 41; 40; 103; 41; 40; 104; 41; 40; 105; 41; 40; 106;
  41; 40; 107; 41; 40; 108; 41; 40; 109; 41; 40; 110; 41; 40; 111; 41; 40; 112; 41; 40; 113; 41; 40; 114;
  41; 40; 115; 41; 40; 116; 41; 40; 117; 41; 40; 118; 41; 40; 119; 41; 40; 120; 41; 40; 121; 41; 40; 122;
  41; 65; 66; 67; 68; 69; 70; 71; 72; 73; 74; 75; 76; 77; 78; 79; 80; 81; 82; 83; 84; 85; 86; 87; 88; 89;
  90; 97; 98; 99; 100; 101; 102; 103; 104; 105; 106; 107; 108; 109; 110; 111; 112; 113; 114; 115; 116; 117;
  118; 119; 120; 121; 122; 48; 8747; 8747; 8747; 8747; 58; 58; 61; 61; 61; 61; 61; 61; 10973; 824; 106; 86;
  11617; 27597; 40863; 19968; 20008; 20022; 20031; 20057; 20101; 20108; 20128; 20154; 20799; 20837; 20843;
  20866; 20886; 20907; 20960; 20981; 20992; 21147; 21241; 21269; 21274; 21304; 21313; 21340; 21353; 21378;
  21430; 21448; 21475; 22231; 22303; 22763; 22786; 22794; 22805; 22823; 22899; 23376; 23424; 23544; 23567;
  23586; 23608; 23662; 23665; 24027; 24037; 24049; 24062; 24178; 24186; 24191; 24308; 24318; 24331; 24339;
  24400; 24417; 24435; 24515; 25096; 25142; 25163; 25903; 25908; 25991; 26007; 26020; 26041; 26080; 26085;
  26352; 26376; 26408; 27424; 27490; 27513; 27571; 27595; 27604; 27611; 27663; 27668; 27700; 28779; 29226;
  29238; 29243; 29247; 29255; 29273; 29275; 29356; 29572; 29577; 29916; 29926; 29976; 29983; 29992; 30000;
  30091; 30098; 30326; 30333; 30382; 30399; 30446; 30683; 30690; 30707; 31034; 31160; 31166; 31348; 31435;
  31481; 31859; 31992; 32566; 32593; 32650; 32701; 32769; 32780; 32786; 32819; 32895; 32905; 33251; 33258;
  33267; 33276; 33292; 33307; 33311; 33390; 33394; 33400; 34381; 34411; 34880; 34892; 34915; 35198; 35211;
  35282; 35328; 35895; 35910; 35925; 35960; 35997; 36196; 36208; 36275; 36523; 36554; 36763; 36784; 36789;
  37009; 37193; 37318; 37324; 37329; 38263; 38272; 38428; 38582; 38585; 38632; 38737; 38750; 38754; 38761;
  38859; 38893; 38899; 38913; 39080; 39131; 39135; 39318; 39321; 39340; 39592; 39640; 39647; 39717; 39727;
  39730; 39740; 39770; 40165; 40565; 40575; 40613; 40635; 40643; 40653; 40657; 40697; 40701; 40718; 40723;
  40736; 40763; 40778; 40786; 40845; 40860; 40864; 32; 12306; 21313; 21316; 21317; 12363; 12441; 12365;
  12441; 12367; 12441; 12369; 12441; 12371; 12441; 12373; 12441; 12375; 12441; 12377; 12441; 12379; 12441;
  12381; 12441; 12383; 12441; 12385; 12441; 12388; 12441; 12390; 12441; 12392; 12441; 12399; 12441; 12399;
  12442; 12402; 12441; 12402; 12442; 12405; 12441; 12405; 12442; 12408; 12441; 12408; 12442; 12411; 12441;
  12411; 12442; 12358; 12441; 32; 12441; 32; 12442; 12445; 12441; 12424; 12426; 12459; 12441; 12461; 12441;
  12463; 12441; 12465; 12441; 12467; 12441; 12469; 12441; 12471; 12441; 12473; 12441; 12475; 12441; 12477;
  12441; 12479; 12441; 12481; 12441; 12484; 12441; 12486; 12441; 12488; 12441; 12495; 12441; 12495; 12442;
  12498; 12441; 12498; 12442; 12501; 12441; 12501; 12442; 12504; 12441; 12504; 12442; 12507; 12441; 12507;
  12442; 12454; 12441; 12527; 12441; 12528; 12441; 12529; 12441; 12530; 12441; 12541; 12441; 12467; 12488;
  4352; 4353; 4522; 4354; 4524; 4525; 4355; 4356; 4357; 4528; 4529; 4530; 4531; 4532; 4533; 4378; 4358;
  4359; 4360; 4385; 4361; 4362; 4363; 4364; 4365; 4366; 4367; 4368; 4369; 4370; 4449; 4450; 4451; 4452;
  4453; 4454; 4455; 4456; 4457; 4458; 4459; 4460; 4461; 4462; 4463; 4464; 4465; 4466; 4467; 4468; 4469;
  4448; 4372; 4373; 4551; 4552; 4556; 4558; 4563; 4567; 4569; 4380; 4573; 4575; 4381; 4382; 4384; 4386;
  4387; 4391; 4393; 4395; 4396; 4397; 4398; 4399; 4402; 4406; 4416; 4423; 4428; 4593; 4594; 4439; 4440;
  4441; 4484; 4485; 4488; 4497; 4498; 4500; 4510; 4513; 19968; 20108; 19977; 22235; 19978; 20013; 19979;
  30002; 20057; 19993; 19969; 22825; 22320; 20154; 40; 4352; 41; 40; 4354; 41; 40; 4355; 41; 40; 4357; 41;
  40; 4358; 41; 40; 4359; 41; 40; 4361; 41; 40; 4363; 41; 40; 4364; 41; 40; 4366; 41; 40; 4367; 41; 40;
  4368; 41; 40; 4369; 41; 40; 4370; 41; 40; 4352; 4449; 41; 40; 4354; 4449; 41; 40; 4355; 4449; 41; 40;
  4357; 4449; 41; 40; 4358; 4449; 41; 40; 4359; 4449; 41; 40; 4361; 4449; 41; 40; 4363; 4449; 41; 40; 4364;
  4449; 41; 40; 4366; 4449; 41; 40; 4367; 4449; 41; 40; 4368; 4449; 41; 40; 4369; 4449; 41; 40; 4370; 4449;
  41; 40; 4364; 4462; 41; 40; 4363; 4457; 4364; 4453; 4523; 41; 40; 4363; 4457; 4370; 4462; 41; 40; 19968;
  41; 40; 20108; 41; 40; 19977; 41; 40; 22235; 41; 40; 20116; 41; 40; 20845; 41; 40; 19971; 41; 40; 20843;
  41; 40; 20061; 41; 40; 21313; 41; 40; 26376; 41; 40; 28779; 41; 40; 27700; 41; 40; 26408; 41; 40; 37329;
  41; 40; 22303; 41; 40; 26085; 41; 40; 26666; 41; 40; 26377; 41; 40; 31038; 41; 40; 21517; 41; 40; 29305;
  41; 40; 36001; 41; 40; 31069; 41; 40; 21172; 41; 40; 20195; 41; 40; 21628; 41; 40; 23398; 41; 40; 30435;
  41; 40; 20225; 41; 40; 36039; 41; 40; 21332; 41; 40; 31085; 41; 40; 20241; 41; 40; 33258; 41; 40; 33267;
  41; 21839; 24188; 25991; 31631; 80; 84; 69; 50; 49; 50; 50; 50; 51; 50; 52; 50; 53; 50; 54; 50; 55; 50;
  56; 50; 57; 51; 48; 51; 49; 51; 50; 51; 51; 51; 52; 51; 53; 4352; 4354; 4355; 4357; 4358; 4359; 4361;
  4363; 4364; 4366; 4367; 4368; 4369; 4370; 4352; 4449; 4354; 4449; 4355; 4449; 4357; 4449; 4358; 4449;
  4359; 4449; 4361; 4449; 4363; 4449; 4364; 4449; 4366; 4449; 4367; 4449; 4368; 4449; 4369; 4449; 4370;
  4449; 4366; 4449; 4535; 4352; 4457; 4364; 4462; 4363; 4468; 4363; 4462; 19968; 20108; 19977; 22235;
  20116; 20845; 19971; 20843; 20061; 21313; 26376; 28779; 27700; 26408; 37329; 22303; 26085; 26666; 26377;
  31038; 21517; 29305; 36001; 31069; 21172; 31192; 30007; 22899; 36969; 20778; 21360; 27880; 38917; 20241;
  20889; 27491; 19978; 20013; 19979; 24038; 21491; 21307; 23447; 23398; 30435; 20225; 36039; 21332; 22812;
  51; 54; 51; 55; 51; 56; 51; 57; 52; 48; 52; 49; 52; 50; 52; 51; 52; 52; 52; 53; 52; 54; 52; 55; 52; 56;
  52; 57; 53; 48; 49; 26376; 50; 26376; 51; 26376; 52; 26376; 53; 26376; 54; 26376; 55; 26376; 56; 26376;
  57; 26376; 49; 48; 26376; 49; 49; 26376; 49; 50; 26376; 72; 103; 101; 114; 103; 101; 86; 76; 84; 68;
  12450; 12452; 12454; 12456; 12458; 12459; 12461; 12463; 12465; 12467; 12469; 12471; 12473; 12475; 12477;
  12479; 12481; 12484; 12486; 12488; 12490; 12491; 12492; 12493; 12494; 12495; 12498; 12501; 12504; 12507;
  12510; 12511; 12512; 12513; 12514; 12516; 12518; 12520; 12521; 12522; 12523; 12524; 12525; 12527; 12528;
  12529; 12530; 20196; 21644; 12450; 12495; 12442; 12540; 12488; 12450; 12523; 12501; 12449; 12450; 12531;
  12504; 12442; 12450; 12450; 12540; 12523; 12452; 12491; 12531; 12463; 12441; 12452; 12531; 12481; 12454;
  12457; 12531; 12456; 12473; 12463; 12540; 12488; 12441; 12456; 12540; 12459; 12540; 12458; 12531; 12473;
  12458; 12540; 12512; 12459; 12452; 12522; 12459; 12521; 12483; 12488; 12459; 12525; 12522; 12540; 12459;
  12441; 12525; 12531; 12459; 12441; 12531; 12510; 12461; 12441; 12459; 12441; 12461; 12441; 12491; 12540;
  12461; 12517; 12522; 12540; 12461; 12441; 12523; 12479; 12441; 12540; 12461; 12525; 12461; 12525; 12463;
  12441; 12521; 12512; 12461; 12525; 12513; 12540; 12488; 12523; 12461; 12525; 12527; 12483; 12488; 12463;
  12441; 12521; 12512; 12463; 12441; 12521; 12512; 12488; 12531; 12463; 12523; 12475; 12441; 12452; 12525;
  12463; 12525; 12540; 12493; 12465; 12540; 12473; 12467; 12523; 12490; 12467; 12540; 12507; 12442; 12469;
  12452; 12463; 12523; 12469; 12531; 12481; 12540; 12512; 12471; 12522; 12531; 12463; 12441; 12475; 12531;
  12481; 12475; 12531; 12488; 12479; 12441; 12540; 12473; 12486; 12441; 12471; 12488; 12441; 12523; 12488;
  12531; 12490; 12494; 12494; 12483; 12488; 12495; 12452; 12484; 12495; 12442; 12540; 12475; 12531; 12488;
  12495; 12442; 12540; 12484; 12495; 12441; 12540; 12524; 12523; 12498; 12442; 12450; 12473; 12488; 12523;
  12498; 12442; 12463; 12523; 12498; 12442; 12467; 12498; 12441; 12523; 12501; 12449; 12521; 12483; 12488;
  12441; 12501; 12451; 12540; 12488; 12501; 12441; 12483; 12471; 12455; 12523; 12501; 12521; 12531; 12504;
  12463; 12479; 12540; 12523; 12504; 12442; 12477; 12504; 12442; 12491; 12498; 12504; 12523; 12484; 12504;
  12442; 12531; 12473; 12504; 12442; 12540; 12471; 12441; 12504; 12441; 12540; 12479; 12507; 12442; 12452;
  12531; 12488; 12507; 12441; 12523; 12488; 12507; 12531; 12507; 12442; 12531; 12488; 12441; 12507; 12540;
  12523; 12507; 12540; 12531; 12510; 12452; 12463; 12525; 12510; 12452; 12523; 12510; 12483; 12495; 12510;
  12523; 12463; 12510; 12531; 12471; 12519; 12531; 12511; 12463; 12525; 12531; 12511; 12522; 12511; 12522;
  12495; 12441; 12540; 12523; 12513; 12459; 12441; 12513; 12459; 12441; 12488; 12531; 12513; 12540; 12488;
  12523; 12516; 12540; 12488; 12441; 12516; 12540; 12523; 12518; 12450; 12531; 12522; 12483; 12488; 12523;
  12522; 12521; 12523; 12498; 12442; 12540; 12523; 12540; 12501; 12441; 12523; 12524; 12512; 12524; 12531;
  12488; 12465; 12441; 12531; 12527; 12483; 12488; 48; 28857; 49; 28857; 50; 28857; 51; 28857; 52; 28857;
  53; 28857; 54; 28857; 55; 28857; 56; 28857; 57; 28857; 49; 48; 28857; 49; 49; 28857; 49; 50; 28857; 49;
  51; 28857; 49; 52; 28857; 49; 53; 28857; 49; 54; 28857; 49; 55; 28857; 49; 56; 28857; 49; 57; 28857; 50;
  48; 28857; 50; 49; 28857; 50; 50; 28857; 50; 51; 28857; 50; 52; 28857; 104; 80; 97; 100; 97; 65; 85; 98;
  97; 114; 111; 86; 112; 99; 100; 109; 100; 109; 50; 100; 109; 51; 73; 85; 24179; 25104; 26157; 21644;
  22823; 27491; 26126; 27835; 26666; 24335; 20250; 31038; 112; 65; 110; 65; 956; 65; 109; 65; 107; 65; 75;
  66; 77; 66; 71; 66; 99; 97; 108; 107; 99; 97; 108; 112; 70; 110; 70; 956; 70; 956; 103; 109; 103; 107;
  103; 72; 122; 107; 72; 122; 77; 72; 122; 71; 72; 122; 84; 72; 122; 956; 108; 109; 108; 100; 108; 107;
  108; 102; 109; 110; 109; 956; 109; 109; 109; 99; 109; 107; 109; 109; 109; 50; 99; 109; 50; 109; 50; 107;
  109; 50; 109; 109; 51; 99; 109; 51; 109; 51; 107; 109; 51; 109; 8725; 115; 109; 8725; 115; 50; 80; 97;
  107; 80; 97; 77; 80; 97; 71; 80; 97; 114; 97; 100; 114; 97; 100; 8725; 115; 114; 97; 100; 8725; 115; 50;
  112; 115; 110; 115; 956; 115; 109; 115; 112; 86; 110; 86; 956; 86; 109; 86; 107; 86; 77; 86; 112; 87;
  110; 87; 956; 87; 109; 87; 107; 87; 77; 87; 107; 937; 77; 937; 97; 46; 109; 46; 66; 113; 99; 99; 99; 100;
  67; 8725; 107; 103; 67; 111; 46; 100; 66; 71; 121; 104; 97; 72; 80; 105; 110; 75; 75; 75; 77; 107; 116;
  108; 109; 108; 110; 108; 111; 103; 108; 120; 109; 98; 109; 105; 108; 109; 111; 108; 80; 72; 112; 46; 109;
  46; 80; 80; 77; 80; 82; 115; 114; 83; 118; 87; 98; 86; 8725; 109; 65; 8725; 109; 49; 26085; 50; 26085;
  51; 26085; 52; 26085; 53; 26085; 54; 26085; 55; 26085; 56; 26085; 57; 26085; 49; 48; 26085; 49; 49;
  26085; 49; 50; 26085; 49; 51; 26085; 49; 52; 26085; 49; 53; 26085; 49; 54; 26085; 49; 55; 26085; 49; 56;
  26085; 49; 57; 26085; 50; 48; 26085; 50; 49; 26085; 50; 50; 26085; 50; 51; 26085; 50; 52; 26085; 50; 53;
  26085; 50; 54; 26085; 50; 55; 26085; 50; 56; 26085; 50; 57; 26085; 51; 48; 26085; 51; 49; 26085; 103; 97;
  108; 1098; 1100; 42863; 67; 70; 81; 294; 339; 42791; 43831; 619; 43858; 653; 35912; 26356; 36554; 36040;
  28369; 20018; 21477; 40860; 40860; 22865; 37329; 21895; 22856; 25078; 30313; 32645; 34367; 34746; 35064;
  37007; 27138; 27931; 28889; 29662; 33853; 37226; 39409; 20098; 21365; 27396; 29211; 34349; 40478; 23888;
  28651; 34253; 35172; 25289; 33240; 34847; 24266; 26391; 28010; 29436; 37070; 20358; 20919; 21214; 25796;
  27347; 29200; 30439; 32769; 34310; 34396; 36335; 38706; 39791; 40442; 30860; 31103; 32160; 33737; 37636;
  40575; 35542; 22751; 24324; 31840; 32894; 29282; 30922; 36034; 38647; 22744; 23650; 27155; 28122; 28431;
  32047; 32311; 38475; 21202; 32907; 20956; 20940; 31260; 32190; 33777; 38517; 35712; 25295; 27138; 35582;
  20025; 23527; 24594; 29575; 30064; 21271; 30971; 20415; 24489; 19981; 27852; 25976; 32034; 21443; 22622;
  30465; 33865; 35498; 27578; 36784; 27784; 25342; 33509; 25504; 30053; 20142; 20841; 20937; 26753; 31975;
  33391; 35538; 37327; 21237; 21570; 22899; 24300; 26053; 28670; 31018; 38317; 39530; 40599; 40654; 21147;
  26310; 27511; 36706; 24180; 24976; 25088; 25754; 28451; 29001; 29833; 31178; 32244; 32879; 36646; 34030;
  36899; 37706; 21015; 21155; 21693; 28872; 35010; 35498; 24265; 24565; 25467; 27566; 31806; 29557; 20196;
  22265; 23527; 23994; 24604; 29618; 29801; 32666; 32838; 37428; 38646; 38728; 38936; 20363; 31150; 37300;
  38584; 24801; 20102; 20698; 23534; 23615; 26009; 27138; 29134; 30274; 34044; 36988; 40845; 26248; 38446;
  21129; 26491; 26611; 27969; 28316; 29705; 30041; 30827; 32016; 39006; 20845; 25134; 38520; 20523; 23833;
  28138; 36650; 24459; 24900; 26647; 29575; 38534; 21033; 21519; 23653; 26131; 26446; 26792; 27877; 29702;
  30178; 32633; 35023; 35041; 37324; 38626; 21311; 28346; 21533; 29136; 29848; 34298; 38563; 40023; 40607;
  26519; 28107; 33256; 31435; 31520; 31890; 29376; 28825; 35672; 20160; 33590; 21050; 20999; 24230; 25299;
  31958; 23429; 27934; 26292; 36667; 34892; 38477; 35211; 24275; 20800; 21952; 22618; 26228; 20958; 29482;
  30410; 31036; 31070; 31077; 31119; 38742; 31934; 32701; 34322; 35576; 36920; 37117; 39151; 39164; 39208;
  40372; 37086; 38583; 20398; 20711; 20813; 21193; 21220; 21329; 21917; 22022; 22120; 22592; 22696; 23652;
  23662; 24724; 24936; 24974; 25074; 25935; 26082; 26257; 26757; 28023; 28186; 28450; 29038; 29227; 29730;
  30865; 31038; 31049; 31048; 31056; 31062; 31069; 31117; 31118; 31296; 31361; 31680; 32244; 32265; 32321;
  32626; 32773; 33261; 33401; 33401; 33879; 35088; 35222; 35585; 35641; 36051; 36104; 36790; 36920; 38627;
  38911; 38971; 24693; 148206; 33304; 20006; 20917; 20840; 20352; 20805; 20864; 21191; 21242; 21917; 21845;
  21913; 21986; 22618; 22707; 22852; 22868; 23138; 23336; 24274; 24281; 24425; 24493; 24792; 24910; 24840;
  24974; 24928; 25074; 25140; 25540; 25628; 25682; 25942; 26228; 26391; 26395; 26454; 27513; 27578; 27969;
  28379; 28363; 28450; 28702; 29038; 30631; 29237; 29359; 29482; 29809; 29958; 30011; 30237; 30239; 30410;
  30427; 30452; 30538; 30528; 30924; 31409; 31680; 31867; 32091; 32244; 32574; 32773; 33618; 33775; 34681;
  35137; 35206; 35222; 35519; 35576; 35531; 35585; 35582; 35565; 35641; 35722; 36104; 36664; 36978; 37273;
  37494; 38524; 38627; 38742; 38875; 38911; 38923; 38971; 39698; 40860; 141386; 141380; 144341; 15261;
  16408; 16441; 152137; 154832; 163539; 40771; 40846; 102; 102; 102; 105; 102; 108; 102; 102; 105; 102;
  102; 108; 115; 116; 115; 116; 1396; 1398; 1396; 1381; 1396; 1387; 1406; 1398; 1396; 1389; 1497; 1460;
  1522; 1463; 1506; 1488; 1491; 1492; 1499; 1500; 1501; 1512; 1514; 43; 1513; 1473; 1513; 1474; 1513; 1468;
  1473; 1513; 1468; 1474; 1488; 1463; 1488; 1464; 1488; 1468; 1489; 1468; 1490; 1468; 1491; 1468; 1492;
  1468; 1493; 1468; 1494; 1468; 1496; 1468; 1497; 1468; 1498; 1468; 1499; 1468; 1500; 1468; 1502; 1468;
  1504; 1468; 1505; 1468; 1507; 1468; 1508; 1468; 1510; 1468; 1511; 1468; 1512; 1468; 1513; 1468; 1514;
  1468; 1493; 1465; 1489; 1471; 1499; 1471; 1508; 1471; 1488; 1500; 1649; 1649; 1659; 1659; 1659; 1659;
  1662; 1662; 1662; 1662; 1664; 1664; 1664; 1664; 1658; 1658; 1658; 1658; 1663; 1663; 1663; 1663; 1657;
  1657; 1657; 1657; 1700; 1700; 1700; 1700; 1702; 1702; 1702; 1702; 1668; 1668; 1668; 1668; 1667; 1667;
  1667; 1667; 1670; 1670; 1670; 1670; 1671; 1671; 1671; 1671; 1677; 1677; 1676; 1676; 1678; 1678; 1672;
  1672; 1688; 1688; 1681; 1681; 1705; 1705; 1705; 1705; 1711; 1711; 1711; 1711; 1715; 1715; 1715; 1715;
  1713; 1713; 1713; 1713; 1722; 1722; 1723; 1723; 1723; 1723; 1749; 1620; 1749; 1620; 1729; 1729; 1729;
  1729; 1726; 1726; 1726; 1726; 1746; 1746; 1746; 1620; 1746; 1620; 1709; 1709; 1709; 1709; 1735; 1735;
  1734; 1734; 1736; 1736; 1735; 1652; 1739; 1739; 1733; 1733; 1737; 1737; 1744; 1744; 1744; 1744; 1609;
  1609; 1610; 1620; 1575; 1610; 1620; 1575; 1610; 1620; 1749; 1610; 1620; 1749; 1610; 1620; 1608; 1610;
  1620; 1608; 1610; 1620; 1735; 1610; 1620; 1735; 1610; 1620; 1734; 1610; 1620; 1734; 1610; 1620; 1736;
  1610; 1620; 1736; 1610; 1620; 1744; 1610; 1620; 1744; 1610; 1620; 1744; 1610; 1620; 1609; 1610; 1620;
  1609; 1610; 1620; 1609; 1740; 1740; 1740; 1740; 1610; 1620; 1580; 1610; 1620; 1581; 1610; 1620; 1605;
  1610; 1620; 1609; 1610; 1620; 1610; 1576; 1580; 1576; 1581; 1576; 1582; 1576; 1605; 1576; 1609; 1576;
  1610; 1578; 1580; 1578; 1581; 1578; 1582; 1578; 1605; 1578; 1609; 1578; 1610; 1579; 1580; 1579; 1605;
  1579; 1609; 1579; 1610; 1580; 1581; 1580; 1605; 1581; 1580; 1581; 1605; 1582; 1580; 1582; 1581; 1582;
  1605; 1587; 1580; 1587; 1581; 1587; 1582; 1587; 1605; 1589; 1581; 1589; 1605; 1590; 1580; 1590; 1581;
  1590; 1582; 1590; 1605; 1591; 1581; 1591; 1605; 1592; 1605; 1593; 1580; 1593; 1605; 1594; 1580; 1594;
  1605; 1601; 1580; 1601; 1581; 1601; 1582; 1601; 1605; 1601; 1609; 1601; 1610; 1602; 1581; 1602; 1605;
  1602; 1609; 1602; 1610; 1603; 1575; 1603; 1580; 1603; 1581; 1603; 1582; 1603; 1604; 1603; 1605; 1603;
  1609; 1603; 1610; 1604; 1580; 1604; 1581; 1604; 1582; 1604; 1605; 1604; 1609; 1604; 1610; 1605; 1580;
  1605; 1581; 1605; 1582; 1605; 1605; 1605; 1609; 1605; 1610; 1606; 1580; 1606; 1581; 1606; 1582; 1606;
  1605; 1606; 1609; 1606; 1610; 1607; 1580; 1607; 1605; 1607; 1609; 1607; 1610; 1610; 1580; 1610; 1581;
  1610; 1582; 1610; 1605; 1610; 1609; 1610; 1610; 1584; 1648; 1585; 1648; 1609; 1648; 32; 1612; 1617; 32;
  1613; 1617; 32; 1614; 1617; 32; 1615; 1617; 32; 1616; 1617; 32; 1617; 1648; 1610; 1620; 1585; 1610; 1620;
  1586; 1610; 1620; 1605; 1610; 1620; 1606; 1610; 1620; 1609; 1610; 1620; 1610; 1576; 1585; 1576; 1586;
  1576; 1605; 1576; 1606; 1576; 1609; 1576; 1610; 1578; 1585; 1578; 1586; 1578; 1605; 1578; 1606; 1578;
  1609; 1578; 1610; 1579; 1585; 1579; 1586; 1579; 1605; 1579; 1606; 1579; 1609; 1579; 1610; 1601; 1609;
  1601; 1610; 1602; 1609; 1602; 1610; 1603; 1575; 1603; 1604; 1603; 1605; 1603; 1609; 1603; 1610; 1604;
  1605; 1604; 1609; 1604; 1610; 1605; 1575; 1605; 1605; 1606; 1585; 1606; 1586; 1606; 1605; 1606; 1606;
  1606; 1609; 1606; 1610; 1609; 1648; 1610; 1585; 1610; 1586; 1610; 1605; 1610; 1606; 1610; 1609; 1610;
  1610; 1610; 1620; 1580; 1610; 1620; 1581; 1610; 1620; 1582; 1610; 1620; 1605; 1610; 1620; 1607; 1576;
  1580; 1576; 1581; 1576; 1582; 1576; 1605; 1576; 1607; 1578; 1580; 1578; 1581; 1578; 1582; 1578; 1605;
  1578; 1607; 1579; 1605; 1580; 1581; 1580; 1605; 1581; 1580; 1581; 1605; 1582; 1580; 1582; 1605; 1587;
  1580; 1587; 1581; 1587; 1582; 1587; 1605; 1589; 1581; 1589; 1582; 1589; 1605; 1590; 1580; 1590; 1581;
  1590; 1582; 1590; 1605; 1591; 1581; 1592; 1605; 1593; 1580; 1593; 1605; 1594; 1580; 1594; 1605; 1601;
  1580; 1601; 1581; 1601; 1582; 1601; 1605; 1602; 1581; 1602; 1605; 1603; 1580; 1603; 1581; 1603; 1582;
  1603; 1604; 1603; 1605; 1604; 1580; 1604; 1581; 1604; 1582; 1604; 1605; 1604; 1607; 1605; 1580; 1605;
  1581; 1605; 1582; 1605; 1605; 1606; 1580; 1606; 1581; 1606; 1582; 1606; 1605; 1606; 1607; 1607; 1580;
  1607; 1605; 1607; 1648; 1610; 1580; 1610; 1581; 1610; 1582; 1610; 1605; 1610; 1607; 1610; 1620; 1605;
  1610; 1620; 1607; 1576; 1605; 1576; 1607; 1578; 1605; 1578; 1607; 1579; 1605; 1579; 1607; 1587; 1605;
  1587; 1607; 1588; 1605; 1588; 1607; 1603; 1604; 1603; 1605; 1604; 1605; 1606; 1605; 1606; 1607; 1610;
  1605; 1610; 1607; 1600; 1614; 1617; 1600; 1615; 1617; 1600; 1616; 1617; 1591; 1609; 1591; 1610; 1593;
  1609; 1593; 1610; 1594; 1609; 1594; 1610; 1587; 1609; 1587; 1610; 1588; 1609; 1588; 1610; 1581; 1609;
  1581; 1610; 1580; 1609; 1580; 1610; 1582; 1609; 1582; 1610; 1589; 1609; 1589; 1610; 1590; 1609; 1590;
  1610; 1588; 1580; 1588; 1581; 1588; 1582; 1588; 1605; 1588; 1585; 1587; 1585; 1589; 1585; 1590; 1585;
  1591; 1609; 1591; 1610; 1593; 1609; 1593; 1610; 1594; 1609; 1594; 1610; 1587; 1609; 1587; 1610; 1588;
  1609; 1588; 1610; 1581; 1609; 1581; 1610; 1580; 1609; 1580; 1610; 1582; 1609; 1582; 1610; 1589; 1609;
  1589; 1610; 1590; 1609; 1590; 1610; 1588; 1580; 1588; 1581; 1588; 1582; 1588; 1605; 1588; 1585; 1587;
  1585; 1589; 1585; 1590; 1585; 1588; 1580; 1588; 1581; 1588; 1582; 1588; 1605; 1587; 1607; 1588; 1607;
  1591; 1605; 1587; 1580; 1587; 1581; 1587; 1582; 1588; 1580; 1588; 1581; 1588; 1582; 1591; 1605; 1592;
  1605; 1575; 1611; 1575; 1611; 1578; 1580; 1605; 1578; 1581; 1580; 1578; 1581; 1580; 1578; 1581; 1605;
  1578; 1582; 1605; 1578; 1605; 1580; 1578; 1605; 1581; 1578; 1605; 1582; 1580; 1605; 1581; 1580; 1605;
  1581; 1581; 1605; 1610; 1581; 1605; 1609; 1587; 1581; 1580; 1587; 1580; 1581; 1587; 1580; 1609; 1587;
  1605; 1581; 1587; 1605; 1581; 1587; 1605; 1580; 1587; 1605; 1605; 1587; 1605; 1605; 1589; 1581; 1581;
  1589; 1581; 1581; 1589; 1605; 1605; 1588; 1581; 1605; 1588; 1581; 1605; 1588; 1580; 1610; 1588; 1605;
  1582; 1588; 1605; 1582; 1588; 1605; 1605; 1588; 1605; 1605; 1590; 1581; 1609; 1590; 1582; 1605; 1590;
  1582; 1605; 1591; 1605; 1581; 1591; 1605; 1581; 1591; 1605; 1605; 1591; 1605; 1610; 1593; 1580; 1605;
  1593; 1605; 1605; 1593; 1605; 1605; 1593; 1605; 1609; 1594; 1605; 1605; 1594; 1605; 1610; 1594; 1605;
  1609; 1601; 1582; 1605; 1601; 1582; 1605; 1602; 1605; 1581; 1602; 1605; 1605; 1604; 1581; 1605; 1604;
  1581; 1610; 1604; 1581; 1609; 1604; 1580; 1580; 1604; 1580; 1580; 1604; 1582; 1605; 1604; 1582; 1605;
  1604; 1605; 1581; 1604; 1605; 1581; 1605; 1581; 1580; 1605; 1581; 1605; 1605; 1581; 1610; 1605; 1580;
  1581; 1605; 1580; 1605; 1605; 1582; 1580; 1605; 1582; 1605; 1605; 1580; 1582; 1607; 1605; 1580; 1607;
  1605; 1605; 1606; 1581; 1605; 1606; 1581; 1609; 1606; 1580; 1605; 1606; 1580; 1605; 1606; 1580; 1609;
  1606; 1605; 1610; 1606; 1605; 1609; 1610; 1605; 1605; 1610; 1605; 1605; 1576; 1582; 1610; 1578; 1580;
  1610; 1578; 1580; 1609; 1578; 1582; 1610; 1578; 1582; 1609; 1578; 1605; 1610; 1578; 1605; 1609; 1580;
  1605; 1610; 1580; 1581; 1609; 1580; 1605; 1609; 1587; 1582; 1609; 1589; 1581; 1610; 1588; 1581; 1610;
  1590; 1581; 1610; 1604; 1580; 1610; 1604; 1605; 1610; 1610; 1581; 1610; 1610; 1580; 1610; 1610; 1605;
  1610; 1605; 1605; 1610; 1602; 1605; 1610; 1606; 1581; 1610; 1602; 1605; 1581; 1604; 1581; 1605; 1593;
  1605; 1610; 1603; 1605; 1610; 1606; 1580; 1581; 1605; 1582; 1610; 1604; 1580; 1605; 1603; 1605; 1605;
  1604; 1580; 1605; 1606; 1580; 1581; 1580; 1581; 1610; 1581; 1580; 1610; 1605; 1580; 1610; 1601; 1605;
  1610; 1576; 1581; 1610; 1603; 1605; 1605; 1593; 1580; 1605; 1589; 1605; 1605; 1587; 1582; 1610; 1606;
  1580; 1610; 1589; 1604; 1746; 1602; 1604; 1746; 1575; 1604; 1604; 1607; 1575; 1603; 1576; 1585; 1605;
  1581; 1605; 1583; 1589; 1604; 1593; 1605; 1585; 1587; 1608; 1604; 1593; 1604; 1610; 1607; 1608; 1587;
  1604; 1605; 1589; 1604; 1609; 1589; 1604; 1609; 32; 1575; 1604; 1604; 1607; 32; 1593; 1604; 1610; 1607;
  32; 1608; 1587; 1604; 1605; 1580; 1604; 32; 1580; 1604; 1575; 1604; 1607; 1585; 1740; 1575; 1604; 44;
  12289; 12290; 58; 59; 33; 63; 12310; 12311; 46; 46; 46; 46; 46; 8212; 8211; 95; 95; 40; 41; 123; 125;
  12308; 12309; 12304; 12305; 12298; 12299; 12296; 12297; 12300; 12301; 12302; 12303; 91; 93; 32; 773; 32;
  773; 32; 773; 32; 773; 95; 95; 95; 44; 12289; 46; 59; 58; 63; 33; 8212; 40; 41; 123; 125; 12308; 12309;
  35; 38; 42; 43; 45; 60; 62; 61; 92; 36; 37; 64; 32; 1611; 1600; 1611; 32; 1612; 32; 1613; 32; 1614; 1600;
  1614; 32; 1615; 1600; 1615; 32; 1616; 1600; 1616; 32; 1617; 1600; 1617; 32; 1618; 1600; 1618; 1569; 1575;
  1619; 1575; 1619; 1575; 1620; 1575; 1620; 1608; 1620; 1608; 1620; 1575; 1621; 1575; 1621; 1610; 1620;
  1610; 1620; 1610; 1620; 1610; 1620; 1575; 1575; 1576; 1576; 1576; 1576; 1577; 1577; 1578; 1578; 1578;
  1578; 1579; 1579; 1579; 1579; 1580; 1580; 1580; 1580; 1581; 1581; 1581; 1581; 1582; 1582; 1582; 1582;
  1583; 1583; 1584; 1584; 1585; 1585; 1586; 1586; 1587; 1587; 1587; 1587; 1588; 1588; 1588; 1588; 1589;
  1589; 1589; 1589; 1590; 1590; 1590; 1590; 1591; 1591; 1591; 1591; 1592; 1592; 1592; 1592; 1593; 1593;
  1593; 1593; 1594; 1594; 1594; 1594; 1601; 1601; 1601; 1601; 1602; 1602; 1602; 1602; 1603; 1603; 1603;
  1603; 1604; 1604; 1604; 1604; 1605; 1605; 1605; 1605; 1606; 1606; 1606; 1606; 1607; 1607; 1607; 1607;
  1608; 1608; 1609; 1609; 1610; 1610; 1610; 1610; 1604; 1575; 1619; 1604; 1575; 1619; 1604; 1575; 1620;
  1604; 1575; 1620; 1604; 1575; 1621; 1604; 1575; 1621; 1604; 1575; 1604; 1575; 33; 34; 35; 36; 37; 38; 39;
  40; 41; 42; 43; 44; 45; 46; 47; 48; 49; 50; 51; 52; 53; 54; 55; 56; 57; 58; 59; 60; 61; 62; 63; 64; 65;
  66; 67; 68; 69; 70; 71; 72; 73; 74; 75; 76; 77; 78; 79; 80; 81; 82; 83; 84; 85; 86; 87; 88; 89; 90; 91;
  92; 93; 94; 95; 96; 97; 98; 99; 100; 101; 102; 103; 104; 105; 106; 107; 108; 109; 110; 111; 112; 113;
  114; 115; 116; 117; 118; 119; 120; 121; 122; 123; 124; 125; 126; 10629; 10630; 12290; 12300; 12301;
  12289; 12539; 12530; 12449; 12451; 12453; 12455; 12457; 12515; 12517; 12519; 12483; 12540; 12450; 12452;
  12454; 12456; 12458; 12459; 12461; 12463; 12465; 12467; 12469; 12471; 12473; 12475; 12477; 12479; 12481;
  12484; 12486; 12488; 12490; 12491; 12492; 12493; 12494; 12495; 12498; 12501; 12504; 12507; 12510; 12511;
  12512; 12513; 12514; 12516; 12518; 12520; 12521; 12522; 12523; 12524; 12525; 12527; 12531; 12441; 12442;
  4448; 4352; 4353; 4522; 4354; 4524; 4525; 4355; 4356; 4357; 4528; 4529; 4530; 4531; 4532; 4533; 4378;
  4358; 4359; 4360; 4385; 4361; 4362; 4363; 4364; 4365; 4366; 4367; 4368; 4369; 4370; 4449; 4450; 4451;
  4452; 4453; 4454; 4455; 4456; 4457; 4458; 4459; 4460; 4461; 4462; 4463; 4464; 4465; 4466; 4467; 4468;
  4469; 162; 163; 172; 32; 772; 166; 165; 8361; 9474; 8592; 8593; 8594; 8595; 9632; 9675; 720; 721; 230;
  665; 595; 675; 43878; 677; 676; 598; 599; 7569; 600; 606; 681; 612; 610; 608; 667; 295; 668; 615; 644;
  682; 683; 620; 122628; 42894; 622; 122629; 654; 122630; 248; 630; 631; 113; 634; 122632; 637; 638; 640;
  680; 678; 43879; 679; 648; 11377; 655; 673; 674; 664; 448; 449; 450; 122634; 122654; 69785; 69818; 69787;
  69818; 69797; 69818; 69937; 69927; 69938; 69927; 70471; 70462; 70471; 70487; 70841; 70842; 70841; 70832;
  70841; 70845; 71096; 71087; 71097; 71087; 71989; 71984; 119127; 119141; 119128; 119141; 119128; 119141;
  119150; 119128; 119141; 119151; 119128; 119141; 119152; 119128; 119141; 119153; 119128; 119141; 119154;
  119225; 119141; 119226; 119141; 119225; 119141; 119150; 119226; 119141; 119150; 119225; 119141; 119151;
  119226; 119141; 119151; 65; 66; 67; 68; 69; 70; 71; 72; 73; 74; 75; 76; 77; 78; 79; 80; 81; 82; 83; 84;
  85; 86; 87; 88; 89; 90; 97; 98; 99; 100; 101; 102; 103; 104; 105; 106; 107; 108; 109; 110; 111; 112; 113;
  114; 115; 116; 117; 118; 119; 120; 121; 122; 65; 66; 67; 68; 69; 70; 71; 72; 73; 74; 75; 76; 77; 78; 79;
  80; 81; 82; 83; 84; 85; 86; 87; 88; 89; 90; 97; 98; 99; 100; 101; 102; 103; 105; 106; 107; 108; 109; 110;
  111; 112; 113; 114; 115; 116; 117; 118; 119; 120; 121; 122; 65; 66; 67; 68; 69; 70; 71; 72; 73; 74; 75;
  76; 77; 78; 79; 80; 81; 82; 83; 84; 85; 86; 87; 88; 89; 90; 97; 98; 99; 100; 101; 102; 103; 104; 105;
  106; 107; 108; 109; 110; 111; 112; 113; 114; 115; 116; 117; 118; 119; 120; 121; 122; 65; 67; 68; 71; 74;
  75; 78; 79; 80; 81; 83; 84; 85; 86; 87; 88; 89; 90; 97; 98; 99; 100; 102; 104; 105; 106; 107; 108; 109;
  110; 112; 113; 114; 115; 116; 117; 118; 119; 120; 121; 122; 65; 66; 67; 68; 69; 70; 71; 72; 73; 74; 75;
  76; 77; 78; 79; 80; 81; 82; 83; 84; 85; 86; 87; 88; 89; 90; 97; 98; 99; 100; 101; 102; 103; 104; 105;
  106; 107; 108; 109; 110; 111; 112; 113; 114; 115; 116; 117; 118; 119; 120; 121; 122; 65; 66; 68; 69; 70;
  71; 74; 75; 76; 77; 78; 79; 80; 81; 83; 84; 85; 86; 87; 88; 89; 97; 98; 99; 100; 101; 102; 103; 104; 105;
  106; 107; 108; 109; 110; 111; 112; 113; 114; 115; 116; 117; 118; 119; 120; 121; 122; 65; 66; 68; 69; 70;
  71; 73; 74; 75; 76; 77; 79; 83; 84; 85; 86; 87; 88; 89; 97; 98; 99; 100; 101; 102; 103; 104; 105; 106;
  107; 108; 109; 110; 111; 112; 113; 114; 115; 116; 117; 118; 119; 120; 121; 122; 65; 66; 67; 68; 69; 70;
  71; 72; 73; 74; 75; 76; 77; 78; 79; 80; 81; 82; 83; 84; 85; 86; 87; 88; 89; 90; 97; 98; 99; 100; 101;
  102; 103; 104; 105; 106; 107; 108; 109; 110; 111; 112; 113; 114; 115; 116; 117; 118; 119; 120; 121; 122;
  65; 66; 67; 68; 69; 70; 71; 72; 73; 74; 75; 76; 77; 78; 79; 80; 81; 82; 83; 84; 85; 86; 87; 88; 89; 90;
  97; 98; 99; 100; 101; 102; 103; 104; 105; 106; 107; 108; 109; 110; 111; 112; 113; 114; 115; 116; 117;
  118; 119; 120; 121; 122; 65; 66; 67; 68; 69; 70; 71; 72; 73; 74; 75; 76; 77; 78; 79; 80; 81; 82; 83; 84;
  85; 86; 87; 88; 89; 90; 97; 98; 99; 100; 101; 102; 103; 104; 105; 106; 107; 108; 109; 110; 111; 112; 113;
  114; 115; 116; 117; 118; 119; 120; 121; 122; 65; 66; 67; 68; 69; 70; 71; 72; 73; 74; 75; 76; 77; 78; 79;
  80; 81; 82; 83; 84; 85; 86; 87; 88; 89; 90; 97; 98; 99; 100; 101; 102; 103; 104; 105; 106; 107; 108; 109;
  110; 111; 112; 113; 114; 115; 116; 117; 118; 119; 120; 121; 122; 65; 66; 67; 68; 69; 70; 71; 72; 73; 74;
  75; 76; 77; 78; 79; 80; 81; 82; 83; 84; 85; 86; 87; 88; 89; 90; 97; 98; 99; 100; 101; 102; 103; 104; 105;
  106; 107; 108; 109; 110; 111; 112; 113; 114; 115; 116; 117; 118; 119; 120; 121; 122; 65; 66; 67; 68; 69;
  70; 71; 72; 73; 74; 75; 76; 77; 78; 79; 80; 81; 82; 83; 84; 85; 86; 87; 88; 89; 90; 97; 98; 99; 100; 101;
  102; 103; 104; 105; 106; 107; 108; 109; 110; 111; 112; 113; 114; 115; 116; 117; 118; 119; 120; 121; 122;
  305; 567; 913; 914; 915; 916; 917; 918; 919; 920; 921; 922; 923; 924; 925; 926; 927; 928; 929; 920; 931;
  932; 933; 934; 935; 936; 937; 8711; 945; 946; 947; 948; 949; 950; 951; 952; 953; 954; 955; 956; 957; 958;
  959; 960; 961; 962; 963; 964; 965; 966; 967; 968; 969; 8706; 949; 952; 954; 966; 961; 960; 913; 914; 915;
  916; 917; 918; 919; 920; 921; 922; 923; 924; 925; 926; 927; 928; 929; 920; 931; 932; 933; 934; 935; 936;
  937; 8711; 945; 946; 947; 948; 949; 950; 951; 952; 953; 954; 955; 956; 957; 958; 959; 960; 961; 962; 963;
  964; 965; 966; 967; 968; 969; 8706; 949; 952; 954; 966; 961; 960; 913; 914; 915; 916; 917; 918; 919; 920;
  921; 922; 923; 924; 925; 926; 927; 928; 929; 920; 931; 932; 933; 934; 935; 936; 937; 8711; 945; 946; 947;
  948; 949; 950; 951; 952; 953; 954; 955; 956; 957; 958; 959; 960; 961; 962; 963; 964; 965; 966; 967; 968;
  969; 8706; 949; 952; 954; 966; 961; 960; 913; 914; 915; 916; 917; 918; 919; 920; 921; 922; 923; 924; 925;
  926; 927; 928; 929; 920; 931; 932; 933; 934; 935; 936; 937; 8711; 945; 946; 947; 948; 949; 950; 951; 952;
  953; 954; 955; 956; 957; 958; 959; 960; 961; 962; 963; 964; 965; 966; 967; 968; 969; 8706; 949; 952; 954;
  966; 961; 960; 913; 914; 915; 916; 917; 918; 919; 920; 921; 922; 923; 924; 925; 926; 927; 928; 929; 920;
  931; 932; 933; 934; 935; 936; 937; 8711; 945; 946; 947; 948; 949; 950; 951; 952; 953; 954; 955; 956; 957;
  958; 959; 960; 961; 962; 963; 964; 965; 966; 967; 968; 969; 8706; 949; 952; 954; 966; 961; 960; 988; 989;
  48; 49; 50; 51; 52; 53; 54; 55; 56; 57; 48; 49; 50; 51; 52; 53; 54; 55; 56; 57; 48; 49; 50; 51; 52; 53;
  54; 55; 56; 57; 48; 49; 50; 51; 52; 53; 54; 55; 56; 57; 48; 49; 50; 51; 52; 53; 54; 55; 56; 57; 1072;
  1073; 1074; 1075; 1076; 1077; 1078; 1079; 1080; 1082; 1083; 1084; 1086; 1087; 1088; 1089; 1090; 1091;
  1092; 1093; 1094; 1095; 1096; 1099; 1101; 1102; 42633; 1241; 1110; 1112; 1257; 1199; 1231; 1072; 1073;
  1074; 1075; 1076; 1077; 1078; 1079; 1080; 1082; 1083; 1086; 1087; 1089; 1091; 1092; 1093; 1094; 1095;
  1096; 1098; 1099; 1169; 1110; 1109; 1119; 1195; 42577; 1201; 1575; 1576; 1580; 1583; 1608; 1586; 1581;
  1591; 1610; 1603; 1604; 1605; 1606; 1587; 1593; 1601; 1589; 1602; 1585; 1588; 1578; 1579; 1582; 1584;
  1590; 1592; 1594; 1646; 1722; 1697; 1647; 1576; 1580; 1607; 1581; 1610; 1603; 1604; 1605; 1606; 1587;
  1593; 1601; 1589; 1602; 1588; 1578; 1579; 1582; 1590; 1594; 1580; 1581; 1610; 1604; 1606; 1587; 1593;
  1589; 1602; 1588; 1582; 1590; 1594; 1722; 1647; 1576; 1580; 1607; 1581; 1591; 1610; 1603; 1605; 1606;
  1587; 1593; 1601; 1589; 1602; 1588; 1578; 1579; 1582; 1590; 1592; 1594; 1646; 1697; 1575; 1576; 1580;
  1583; 1607; 1608; 1586; 1581; 1591; 1610; 1604; 1605; 1606; 1587; 1593; 1601; 1589; 1602; 1585; 1588;
  1578; 1579; 1582; 1584; 1590; 1592; 1594; 1576; 1580; 1583; 1608; 1586; 1581; 1591; 1610; 1604; 1605;
  1606; 1587; 1593; 1601; 1589; 1602; 1585; 1588; 1578; 1579; 1582; 1584; 1590; 1592; 1594; 48; 46; 48; 44;
  49; 44; 50; 44; 51; 44; 52; 44; 53; 44; 54; 44; 55; 44; 56; 44; 57; 44; 40; 65; 41; 40; 66; 41; 40; 67;
  41; 40; 68; 41; 40; 69; 41; 40; 70; 41; 40; 71; 41; 40; 72; 41; 40; 73; 41; 40; 74; 41; 40; 75; 41; 40;
  76; 41; 40; 77; 41; 40; 78; 41; 40; 79; 41; 40; 80; 41; 40; 81; 41; 40; 82; 41; 40; 83; 41; 40; 84; 41;
  40; 85; 41; 40; 86; 41; 40; 87; 41; 40; 88; 41; 40; 89; 41; 40; 90; 41; 12308; 83; 12309; 67; 82; 67; 68;
  87; 90; 65; 66; 67; 68; 69; 70; 71; 72; 73; 74; 75; 76; 77; 78; 79; 80; 81; 82; 83; 84; 85; 86; 87; 88;
  89; 90; 72; 86; 77; 86; 83; 68; 83; 83; 80; 80; 86; 87; 67; 77; 67; 77; 68; 77; 82; 68; 74; 12411; 12363;
  12467; 12467; 12469; 25163; 23383; 21452; 12486; 12441; 20108; 22810; 35299; 22825; 20132; 26144; 28961;
  26009; 21069; 24460; 20877; 26032; 21021; 32066; 29983; 36009; 22768; 21561; 28436; 25237; 25429; 19968;
  19977; 36938; 24038; 20013; 21491; 25351; 36208; 25171; 31105; 31354; 21512; 28288; 26377; 26376; 30003;
  21106; 21942; 37197; 12308; 26412; 12309; 12308; 19977; 12309; 12308; 20108; 12309; 12308; 23433; 12309;
  12308; 28857; 12309; 12308; 25171; 12309; 12308; 30423; 12309; 12308; 21213; 12309; 12308; 25943; 12309;
  24471; 21487; 48; 49; 50; 51; 52; 53; 54; 55; 56; 57; 20029; 20024; 20033; 131362; 20320; 20398; 20411;
  20482; 20602; 20633; 20711; 20687; 13470; 132666; 20813; 20820; 20836; 20855; 132380; 13497; 20839;
  20877; 132427; 20887; 20900; 20172; 20908; 20917; 168415; 20981; 20995; 13535; 21051; 21062; 21106;
  21111; 13589; 21191; 21193; 21220; 21242; 21253; 21254; 21271; 21321; 21329; 21338; 21363; 21373; 21375;
  21375; 21375; 133676; 28784; 21450; 21471; 133987; 21483; 21489; 21510; 21662; 21560; 21576; 21608;
  21666; 21750; 21776; 21843; 21859; 21892; 21892; 21913; 21931; 21939; 21954; 22294; 22022; 22295; 22097;
  22132; 20999; 22766; 22478; 22516; 22541; 22411; 22578; 22577; 22700; 136420; 22770; 22775; 22790; 22810;
  22818; 22882; 136872; 136938; 23020; 23067; 23079; 23000; 23142; 14062; 14076; 23304; 23358; 23358;
  137672; 23491; 23512; 23527; 23539; 138008; 23551; 23558; 24403; 23586; 14209; 23648; 23662; 23744;
  23693; 138724; 23875; 138726; 23918; 23915; 23932; 24033; 24034; 14383; 24061; 24104; 24125; 24169;
  14434; 139651; 14460; 24240; 24243; 24246; 24266; 172946; 24318; 140081; 140081; 33281; 24354; 24354;
  14535; 144056; 156122; 24418; 24427; 14563; 24474; 24525; 24535; 24569; 24705; 14650; 14620; 24724;
  141012; 24775; 24904; 24908; 24910; 24908; 24954; 24974; 25010; 24996; 25007; 25054; 25074; 25078; 25104;
  25115; 25181; 25265; 25300; 25424; 142092; 25405; 25340; 25448; 25475; 25572; 142321; 25634; 25541;
  25513; 14894; 25705; 25726; 25757; 25719; 14956; 25935; 25964; 143370; 26083; 26360; 26185; 15129; 26257;
  15112; 15076; 20882; 20885; 26368; 26268; 32941; 17369; 26391; 26395; 26401; 26462; 26451; 144323; 15177;
  26618; 26501; 26706; 26757; 144493; 26766; 26655; 26900; 15261; 26946; 27043; 27114; 27304; 145059;
  27355; 15384; 27425; 145575; 27476; 15438; 27506; 27551; 27578; 27579; 146061; 138507; 146170; 27726;
  146620; 27839; 27853; 27751; 27926; 27966; 28023; 27969; 28009; 28024; 28037; 146718; 27956; 28207;
  28270; 15667; 28363; 28359; 147153; 28153; 28526; 147294; 147342; 28614; 28729; 28702; 28699; 15766;
  28746; 28797; 28791; 28845; 132389; 28997; 148067; 29084; 148395; 29224; 29237; 29264; 149000; 29312;
  29333; 149301; 149524; 29562; 29579; 16044; 29605; 16056; 16056; 29767; 29788; 29809; 29829; 29898;
  16155; 29988; 150582; 30014; 150674; 30064; 139679; 30224; 151457; 151480; 151620; 16380; 16392; 30452;
  151795; 151794; 151833; 151859; 30494; 30495; 30495; 30538; 16441; 30603; 16454; 16534; 152605; 30798;
  30860; 30924; 16611; 153126; 31062; 153242; 153285; 31119; 31211; 16687; 31296; 31306; 31311; 153980;
  154279; 154279; 31470; 16898; 154539; 31686; 31689; 16935; 154752; 31954; 17056; 31976; 31971; 32000;
  155526; 32099; 17153; 32199; 32258; 32325; 17204; 156200; 156231; 17241; 156377; 32634; 156478; 32661;
  32762; 32773; 156890; 156963; 32864; 157096; 32880; 144223; 17365; 32946; 33027; 17419; 33086; 23221;
  157607; 157621; 144275; 144284; 33281; 33284; 36766; 17515; 33425; 33419; 33437; 21171; 33457; 33459;
  33469; 33510; 158524; 33509; 33565; 33635; 33709; 33571; 33725; 33767; 33879; 33619; 33738; 33740; 33756;
  158774; 159083; 158933; 17707; 34033; 34035; 34070; 160714; 34148; 159532; 17757; 17761; 159665; 159954;
  17771; 34384; 34396; 34407; 34409; 34473; 34440; 34574; 34530; 34681; 34600; 34667; 34694; 17879; 34785;
  34817; 17913; 34912; 34915; 161383; 35031; 35038; 17973; 35066; 13499; 161966; 162150; 18110; 18119;
  35488; 35565; 35722; 35925; 162984; 36011; 36033; 36123; 36215; 163631; 133124; 36299; 36284; 36336;
  133342; 36564; 36664; 165330; 165357; 37012; 37105; 37137; 165678; 37147; 37432; 37591; 37592; 37500;
  37881; 37909; 166906; 38283; 18837; 38327; 167287; 18918; 38595; 23986; 38691; 168261; 168474; 19054;
  19062; 38880; 168970; 19122; 169110; 38923; 38923; 38953; 169398; 39138; 19251; 39209; 39335; 39362;
  39422; 19406; 170800; 39698; 40000; 40189; 19662; 19693; 40295; 172238; 19704; 172293; 172558; 172689;
  40635; 19798; 40697; 40702; 40709; 40719; 40726; 40763; 173568].

Definition composeKey : list Z := [
  257698038584; 261993005880; 266287973176; 279172875008; 279172875009; 279172875010; 279172875011;
  279172875012; 279172875014; 279172875015; 279172875016; 279172875017; 279172875018; 279172875020;
  279172875023; 279172875025; 279172875043; 279172875045; 279172875048; 283467842311; 283467842339;
  283467842353; 287762809601; 287762809602; 287762809607; 287762809612; 287762809639; 292057776903;
  292057776908; 292057776931; 292057776935; 292057776941; 292057776945; 296352744192; 296352744193;
  296352744194; 296352744195; 296352744196; 296352744198; 296352744199; 296352744200; 296352744201;
  296352744204; 296352744207; 296352744209; 296352744227; 296352744231; 296352744232; 296352744237;
  296352744240; 300647711495; 304942678785; 304942678786; 304942678788; 304942678790; 304942678791;
  304942678796; 304942678823; 309237646082; 309237646087; 309237646088; 309237646092; 309237646115;
  309237646119; 309237646126; 313532613376; 313532613377; 313532613378; 313532613379; 313532613380;
  313532613382; 313532613383; 313532613384; 313532613385; 313532613388; 313532613391; 313532613393;
  313532613411; 313532613416; 313532613424; 317827580674; 322122547969; 322122547980; 322122548003;
  322122548007; 322122548017; 326417515265; 326417515276; 326417515299; 326417515303; 326417515309;
  326417515313; 330712482561; 330712482567; 330712482595; 335007449856; 335007449857; 335007449859;
  335007449863; 335007449868; 335007449891; 335007449895; 335007449901; 335007449905; 339302417152;
  339302417153; 339302417154; 339302417155; 339302417156; 339302417158; 339302417159; 339302417160;
  339302417161; 339302417163; 339302417164; 339302417167; 339302417169; 339302417179; 339302417187;
  339302417192; 343597384449; 343597384455; 352187319041; 352187319047; 352187319052; 352187319055;
  352187319057; 352187319075; 352187319079; 352187319089; 356482286337; 356482286338; 356482286343;
  356482286348; 356482286371; 356482286374; 356482286375; 360777253639; 360777253644; 360777253667;
  360777253670; 360777253671; 360777253677; 360777253681; 365072220928; 365072220929; 365072220930;
  365072220931; 365072220932; 365072220934; 365072220936; 365072220937; 365072220938; 365072220939;
  365072220940; 365072220943; 365072220945; 365072220955; 365072220963; 365072220964; 365072220968;
  365072220973; 365072220976; 369367188227; 369367188259; 373662155520; 373662155521; 373662155522;
  373662155527; 373662155528; 373662155555; 377957122823; 377957122824; 382252090112; 382252090113;
  382252090114; 382252090115; 382252090116; 382252090119; 382252090120; 382252090121; 382252090147;
  386547057409; 386547057410; 386547057415; 386547057420; 386547057443; 386547057457; 416611828480;
  416611828481; 416611828482; 416611828483; 416611828484; 416611828486; 416611828487; 416611828488;
  416611828489; 416611828490; 416611828492; 416611828495; 416611828497; 416611828515; 416611828517;
  416611828520; 420906795783; 420906795811; 420906795825; 425201763073; 425201763074; 425201763079;
  425201763084; 425201763111; 429496730375; 429496730380; 429496730403; 429496730407; 429496730413;
  429496730417; 433791697664; 433791697665; 433791697666; 433791697667; 433791697668; 433791697670;
  433791697671; 433791697672; 433791697673; 433791697676; 433791697679; 433791697681; 433791697699;
  433791697703; 433791697704; 433791697709; 433791697712; 438086664967; 442381632257; 442381632258;
  442381632260; 442381632262; 442381632263; 442381632268; 442381632295; 446676599554; 446676599559;
  446676599560; 446676599564; 446676599587; 446676599591; 446676599598; 446676599601; 450971566848;
  450971566849; 450971566850; 450971566851; 450971566852; 450971566854; 450971566856; 450971566857;
  450971566860; 450971566863; 450971566865; 450971566883; 450971566888; 450971566896; 455266534146;
  455266534156; 459561501441; 459561501452; 459561501475; 459561501479; 459561501489; 463856468737;
  463856468748; 463856468771; 463856468775; 463856468781; 463856468785; 468151436033; 468151436039;
  468151436067; 472446403328; 472446403329; 472446403331; 472446403335; 472446403340; 472446403363;
  472446403367; 472446403373; 472446403377; 476741370624; 476741370625; 476741370626; 476741370627;
  476741370628; 476741370630; 476741370631; 476741370632; 476741370633; 476741370635; 476741370636;
  476741370639; 476741370641; 476741370651; 476741370659; 476741370664; 481036337921; 481036337927;
  489626272513; 489626272519; 489626272524; 489626272527; 489626272529; 489626272547; 489626272551;
  489626272561; 493921239809; 493921239810; 493921239815; 493921239820; 493921239843; 493921239846;
  493921239847; 498216207111; 498216207112; 498216207116; 498216207139; 498216207142; 498216207143;
  498216207149; 498216207153; 502511174400; 502511174401; 502511174402; 502511174403; 502511174404;
  502511174406; 502511174408; 502511174409; 502511174410; 502511174411; 502511174412; 502511174415;
  502511174417; 502511174427; 502511174435; 502511174436; 502511174440; 502511174445; 502511174448;
  506806141699; 506806141731; 511101108992; 511101108993; 511101108994; 511101108999; 511101109000;
  511101109002; 511101109027; 515396076295; 515396076296; 519691043584; 519691043585; 519691043586;
  519691043587; 519691043588; 519691043591; 519691043592; 519691043593; 519691043594; 519691043619;
  523986010881; 523986010882; 523986010887; 523986010892; 523986010915; 523986010929; 721554506496;
  721554506497; 721554506562; 833223656192; 833223656193; 833223656195; 833223656201; 841813590788;
  846108558081; 850403525377; 850403525380; 854698492673; 867583394560; 867583394561; 867583394563;
  867583394569; 889058231041; 910533067520; 910533067521; 910533067523; 910533067529; 914828034817;
  914828034820; 914828034824; 919123002116; 927712936705; 944892805888; 944892805889; 944892805892;
  944892805900; 970662609664; 970662609665; 970662609667; 970662609673; 979252544260; 983547511553;
  987842478849; 987842478852; 992137446145; 1005022348032; 1005022348033; 1005022348035; 1005022348041;
  1026497184513; 1047972020992; 1047972020993; 1047972020995; 1047972021001; 1052266988289; 1052266988292;
  1052266988296; 1056561955588; 1065151890177; 1082331759360; 1082331759361; 1082331759364; 1082331759372;
  1108101563136; 1108101563137; 1108101563139; 1108101563145; 1112396530432; 1112396530433; 1112396530435;
  1112396530441; 1176821039872; 1176821039873; 1181116007168; 1181116007169; 1425929143040; 1425929143041;
  1430224110336; 1430224110337; 1486058685191; 1490353652487; 1511828488967; 1516123456263; 1546188227329;
  1550483194625; 1554778161928; 1559073129224; 1644972475143; 1786706395904; 1786706395905; 1786706395907;
  1786706395913; 1786706395939; 1791001363200; 1791001363201; 1791001363203; 1791001363209; 1791001363235;
  1851130905344; 1851130905345; 1851130905347; 1851130905353; 1851130905379; 1855425872640; 1855425872641;
  1855425872643; 1855425872649; 1855425872675; 1885490643724; 2104533975812; 2108828943108; 2362232013572;
  2366526980868; 2370821948166; 2375116915462; 2396591751940; 2400886719236; 2826088481548; 3921305142016;
  3921305142017; 3921305142020; 3921305142022; 3921305142035; 3921305142036; 3921305142085; 3938485011200;
  3938485011201; 3938485011219; 3938485011220; 3947074945792; 3947074945793; 3947074945811; 3947074945812;
  3947074945861; 3955664880384; 3955664880385; 3955664880388; 3955664880390; 3955664880392; 3955664880403;
  3955664880404; 3981434684160; 3981434684161; 3981434684179; 3981434684180; 3990024618772; 4007204487936;
  4007204487937; 4007204487940; 4007204487942; 4007204487944; 4007204487956; 4024384357120; 4024384357121;
  4024384357139; 4024384357140; 4024384357189; 4037269259077; 4045859193669; 4058744095488; 4058744095489;
  4058744095492; 4058744095494; 4058744095507; 4058744095508; 4058744095554; 4058744095557; 4075923964672;
  4075923964673; 4075923964691; 4075923964692; 4084513899264; 4084513899265; 4084513899283; 4084513899284;
  4084513899330; 4084513899333; 4093103833856; 4093103833857; 4093103833860; 4093103833862; 4093103833864;
  4093103833875; 4093103833876; 4093103833922; 4118873637632; 4118873637633; 4118873637651; 4118873637652;
  4127463572243; 4127463572244; 4144643441408; 4144643441409; 4144643441412; 4144643441414; 4144643441416;
  4144643441427; 4144643441428; 4144643441474; 4161823310592; 4161823310593; 4161823310611; 4161823310612;
  4161823310658; 4161823310661; 4166118277888; 4166118277889; 4166118277954; 4170413245184; 4170413245185;
  4170413245250; 4183298147141; 4200478016257; 4200478016264; 4423816315656; 4466765988614; 4466765988616;
  4479650890497; 4488240825088; 4488240825094; 4488240825096; 4492535792390; 4492535792392; 4496830759688;
  4501125726976; 4501125726980; 4501125726982; 4501125726984; 4509715661569; 4526895530760; 4548370367236;
  4548370367238; 4548370367240; 4548370367243; 4565550236424; 4582730105608; 4591320040200; 4604204942086;
  4604204942088; 4617089843969; 4625679778560; 4625679778566; 4625679778568; 4629974745862; 4629974745864;
  4634269713160; 4638564680448; 4638564680452; 4638564680454; 4638564680456; 4647154615041; 4664334484232;
  4685809320708; 4685809320710; 4685809320712; 4685809320715; 4702989189896; 4720169059080; 4728758993672;
  4767413699336; 4896262718223; 4900557685519; 5325759447816; 5330054415112; 5394478924552; 5398773891848;
  6764573492819; 6764573492820; 6764573492821; 6906307413588; 6914897348180; 7425998456404; 7499012900436;
  7511897802324; 10067403344188; 10101763082556; 10114647984444; 10750303144382; 10750303144407;
  12399570586430; 12399570586454; 12399570586455; 12721693133783; 12945031433150; 12945031433175;
  12949326400446; 13494787247190; 14014478290133; 14044543061186; 14044543061205; 14044543061206;
  14061722930389; 14594298875198; 14594298875223; 14598593842494; 15225659067850; 15225659067855;
  15225659067871; 15238543969738; 17751099838510; 29708288793397; 29716878727989; 29725468662581;
  29734058597173; 29742648531765; 29759828400949; 29935922060085; 29944511994677; 29953101929269;
  29957396896565; 29970281798453; 33217277068036; 33221572035332; 33371895890692; 33376190857988;
  33406255629063; 33410550596359; 33672543601410; 33672543601414; 33676838568706; 33676838568710;
  33775622816514; 33779917783810; 33861522162434; 33865817129730; 34084860461824; 34084860461825;
  34084860461890; 34084860461893; 34089155429120; 34089155429121; 34089155429186; 34089155429189;
  34093450396485; 34097745363781; 34102040331077; 34106335298373; 34110630265669; 34114925232965;
  34119220200192; 34119220200193; 34119220200258; 34119220200261; 34123515167488; 34123515167489;
  34123515167554; 34123515167557; 34127810134853; 34132105102149; 34136400069445; 34140695036741;
  34144990004037; 34149284971333; 34153579938560; 34153579938561; 34157874905856; 34157874905857;
  34187939676928; 34187939676929; 34192234644224; 34192234644225; 34222299415296; 34222299415297;
  34222299415362; 34222299415365; 34226594382592; 34226594382593; 34226594382658; 34226594382661;
  34230889349957; 34235184317253; 34239479284549; 34243774251845; 34248069219141; 34252364186437;
  34256659153664; 34256659153665; 34256659153730; 34256659153733; 34260954120960; 34260954120961;
  34260954121026; 34260954121029; 34265249088325; 34269544055621; 34273839022917; 34278133990213;
  34282428957509; 34286723924805; 34291018892032; 34291018892033; 34291018892098; 34295313859328;
  34295313859329; 34295313859394; 34325378630400; 34325378630401; 34325378630466; 34329673597696;
  34329673597697; 34329673597762; 34359738368768; 34359738368769; 34364033336064; 34364033336065;
  34394098107136; 34394098107137; 34398393074432; 34398393074433; 34428457845504; 34428457845505;
  34428457845570; 34432752812800; 34432752812801; 34432752812866; 34467112551168; 34467112551169;
  34467112551234; 34497177322240; 34497177322241; 34497177322306; 34497177322309; 34501472289536;
  34501472289537; 34501472289602; 34501472289605; 34505767256901; 34510062224197; 34514357191493;
  34518652158789; 34522947126085; 34527242093381; 34531537060608; 34531537060609; 34531537060674;
  34531537060677; 34535832027904; 34535832027905; 34535832027970; 34535832027973; 34540126995269;
  34544421962565; 34548716929861; 34553011897157; 34557306864453; 34561601831749; 34565896799045;
  34583076668229; 34617436406597; 34866544509765; 34905199215360; 34905199215361; 34905199215426;
  34935263986501; 35141422416709; 35175782155008; 35175782155009; 35175782155074; 36902359008056;
  36910948942648; 36919538877240; 37177236915000; 37185826849592; 37194416784184; 37396280247096;
  37417755083576; 37430639985464; 37533719200568; 37542309135160; 37641093382968; 37671158154040;
  37679748088632; 37692632990520; 37714107827000; 37800007172920; 37812892074808; 37817187042104;
  37873021616952; 37877316584248; 37890201486136; 37894496453432; 37907381355320; 37911676322616;
  37915971289912; 37920266257208; 37941741093688; 37946036060984; 37958920962872; 37963215930168;
  38006165603128; 38010460570424; 38079180047160; 38104949850936; 38109244818232; 38117834752824;
  38147899523896; 38152194491192; 38156489458488; 38160784425784; 53077205856409; 53098680692889;
  53107270627481; 53115860562073; 53124450496665; 53133040431257; 53141630365849; 53150220300441;
  53158810235033; 53167400169625; 53175990104217; 53184580038809; 53193169973401; 53206054875289;
  53214644809881; 53223234744473; 53253299515545; 53253299515546; 53266184417433; 53266184417434;
  53279069319321; 53279069319322; 53291954221209; 53291954221210; 53304839123097; 53304839123098;
  53450868011161; 53489522716825; 53510997553305; 53519587487897; 53528177422489; 53536767357081;
  53545357291673; 53553947226265; 53562537160857; 53571127095449; 53579717030041; 53588306964633;
  53596896899225; 53605486833817; 53618371735705; 53626961670297; 53635551604889; 53665616375961;
  53665616375962; 53678501277849; 53678501277850; 53691386179737; 53691386179738; 53704271081625;
  53704271081626; 53717155983513; 53717155983514; 53803055329433; 53807350296729; 53811645264025;
  53815940231321; 53863184871577; 299724292821178; 299732882755770; 299775832428730; 300377127850279;
  300381422817575; 302670640386878; 302670640386903; 304259778286768; 304259778286778; 304259778286781;
  305354994947503; 305359289914799; 309190400743728].

Definition composeVal : list Z := [
  8814; 8800; 8815; 192; 193; 194; 195; 256; 258; 550; 196; 7842; 197; 461; 512; 514; 7840; 7680; 260;
  7682; 7684; 7686; 262; 264; 266; 268; 199; 7690; 270; 7692; 7696; 7698; 7694; 200; 201; 202; 7868; 274;
  276; 278; 203; 7866; 282; 516; 518; 7864; 552; 280; 7704; 7706; 7710; 500; 284; 7712; 286; 288; 486; 290;
  292; 7714; 7718; 542; 7716; 7720; 7722; 204; 205; 206; 296; 298; 300; 304; 207; 7880; 463; 520; 522;
  7882; 302; 7724; 308; 7728; 488; 7730; 310; 7732; 313; 317; 7734; 315; 7740; 7738; 7742; 7744; 7746; 504;
  323; 209; 7748; 327; 7750; 325; 7754; 7752; 210; 211; 212; 213; 332; 334; 558; 214; 7886; 336; 465; 524;
  526; 416; 7884; 490; 7764; 7766; 340; 7768; 344; 528; 530; 7770; 342; 7774; 346; 348; 7776; 352; 7778;
  536; 350; 7786; 356; 7788; 538; 354; 7792; 7790; 217; 218; 219; 360; 362; 364; 220; 7910; 366; 368; 467;
  532; 534; 431; 7908; 7794; 370; 7798; 7796; 7804; 7806; 7808; 7810; 372; 7814; 7812; 7816; 7818; 7820;
  7922; 221; 374; 7928; 562; 7822; 376; 7926; 7924; 377; 7824; 379; 381; 7826; 7828; 224; 225; 226; 227;
  257; 259; 551; 228; 7843; 229; 462; 513; 515; 7841; 7681; 261; 7683; 7685; 7687; 263; 265; 267; 269; 231;
  7691; 271; 7693; 7697; 7699; 7695; 232; 233; 234; 7869; 275; 277; 279; 235; 7867; 283; 517; 519; 7865;
  553; 281; 7705; 7707; 7711; 501; 285; 7713; 287; 289; 487; 291; 293; 7715; 7719; 543; 7717; 7721; 7723;
  7830; 236; 237; 238; 297; 299; 301; 239; 7881; 464; 521; 523; 7883; 303; 7725; 309; 496; 7729; 489; 7731;
  311; 7733; 314; 318; 7735; 316; 7741; 7739; 7743; 7745; 7747; 505; 324; 241; 7749; 328; 7751; 326; 7755;
  7753; 242; 243; 244; 245; 333; 335; 559; 246; 7887; 337; 466; 525; 527; 417; 7885; 491; 7765; 7767; 341;
  7769; 345; 529; 531; 7771; 343; 7775; 347; 349; 7777; 353; 7779; 537; 351; 7787; 7831; 357; 7789; 539;
  355; 7793; 7791; 249; 250; 251; 361; 363; 365; 252; 7911; 367; 369; 468; 533; 535; 432; 7909; 7795; 371;
  7799; 7797; 7805; 7807; 7809; 7811; 373; 7815; 7813; 7832; 7817; 7819; 7821; 7923; 253; 375; 7929; 563;
  7823; 255; 7927; 7833; 7925; 378; 7825; 380; 382; 7827; 7829; 8173; 901; 8129; 7846; 7844; 7850; 7848;
  478; 506; 508; 482; 7688; 7872; 7870; 7876; 7874; 7726; 7890; 7888; 7894; 7892; 7756; 556; 7758; 554;
  510; 475; 471; 469; 473; 7847; 7845; 7851; 7849; 479; 507; 509; 483; 7689; 7873; 7871; 7877; 7875; 7727;
  7891; 7889; 7895; 7893; 7757; 557; 7759; 555; 511; 476; 472; 470; 474; 7856; 7854; 7860; 7858; 7857;
  7855; 7861; 7859; 7700; 7702; 7701; 7703; 7760; 7762; 7761; 7763; 7780; 7781; 7782; 7783; 7800; 7801;
  7802; 7803; 7835; 7900; 7898; 7904; 7902; 7906; 7901; 7899; 7905; 7903; 7907; 7914; 7912; 7918; 7916;
  7920; 7915; 7913; 7919; 7917; 7921; 494; 492; 493; 480; 481; 7708; 7709; 560; 561; 495; 8122; 902; 8121;
  8120; 7944; 7945; 8124; 8136; 904; 7960; 7961; 8138; 905; 7976; 7977; 8140; 8154; 906; 8153; 8152; 938;
  7992; 7993; 8184; 908; 8008; 8009; 8172; 8170; 910; 8169; 8168; 939; 8025; 8186; 911; 8040; 8041; 8188;
  8116; 8132; 8048; 940; 8113; 8112; 7936; 7937; 8118; 8115; 8050; 941; 7952; 7953; 8052; 942; 7968; 7969;
  8134; 8131; 8054; 943; 8145; 8144; 970; 7984; 7985; 8150; 8056; 972; 8000; 8001; 8164; 8165; 8058; 973;
  8161; 8160; 971; 8016; 8017; 8166; 8060; 974; 8032; 8033; 8182; 8179; 8146; 912; 8151; 8162; 944; 8167;
  8180; 979; 980; 1031; 1232; 1234; 1027; 1024; 1238; 1025; 1217; 1244; 1246; 1037; 1250; 1049; 1252; 1036;
  1254; 1262; 1038; 1264; 1266; 1268; 1272; 1260; 1233; 1235; 1107; 1104; 1239; 1105; 1218; 1245; 1247;
  1117; 1251; 1081; 1253; 1116; 1255; 1263; 1118; 1265; 1267; 1269; 1273; 1261; 1111; 1142; 1143; 1242;
  1243; 1258; 1259; 1570; 1571; 1573; 1572; 1574; 1730; 1747; 1728; 2345; 2353; 2356; 2507; 2508; 2891;
  2888; 2892; 2964; 3018; 3020; 3019; 3144; 3264; 3274; 3271; 3272; 3275; 3402; 3404; 3403; 3546; 3548;
  3550; 3549; 4134; 6918; 6920; 6922; 6924; 6926; 6930; 6971; 6973; 6976; 6977; 6979; 7736; 7737; 7772;
  7773; 7784; 7785; 7852; 7862; 7853; 7863; 7878; 7879; 7896; 7897; 7938; 7940; 7942; 8064; 7939; 7941;
  7943; 8065; 8066; 8067; 8068; 8069; 8070; 8071; 7946; 7948; 7950; 8072; 7947; 7949; 7951; 8073; 8074;
  8075; 8076; 8077; 8078; 8079; 7954; 7956; 7955; 7957; 7962; 7964; 7963; 7965; 7970; 7972; 7974; 8080;
  7971; 7973; 7975; 8081; 8082; 8083; 8084; 8085; 8086; 8087; 7978; 7980; 7982; 8088; 7979; 7981; 7983;
  8089; 8090; 8091; 8092; 8093; 8094; 8095; 7986; 7988; 7990; 7987; 7989; 7991; 7994; 7996; 7998; 7995;
  7997; 7999; 8002; 8004; 8003; 8005; 8010; 8012; 8011; 8013; 8018; 8020; 8022; 8019; 8021; 8023; 8027;
  8029; 8031; 8034; 8036; 8038; 8096; 8035; 8037; 8039; 8097; 8098; 8099; 8100; 8101; 8102; 8103; 8042;
  8044; 8046; 8104; 8043; 8045; 8047; 8105; 8106; 8107; 8108; 8109; 8110; 8111; 8114; 8130; 8178; 8119;
  8141; 8142; 8143; 8135; 8183; 8157; 8158; 8159; 8602; 8603; 8622; 8653; 8655; 8654; 8708; 8713; 8716;
  8740; 8742; 8769; 8772; 8775; 8777; 8813; 8802; 8816; 8817; 8820; 8821; 8824; 8825; 8832; 8833; 8928;
  8929; 8836; 8837; 8840; 8841; 8930; 8931; 8876; 8877; 8878; 8879; 8938; 8939; 8940; 8941; 12436; 12364;
  12366; 12368; 12370; 12372; 12374; 12376; 12378; 12380; 12382; 12384; 12386; 12389; 12391; 12393; 12400;
  12401; 12403; 12404; 12406; 12407; 12409; 12410; 12412; 12413; 12446; 12532; 12460; 12462; 12464; 12466;
  12468; 12470; 12472; 12474; 12476; 12478; 12480; 12482; 12485; 12487; 12489; 12496; 12497; 12499; 12500;
  12502; 12503; 12505; 12506; 12508; 12509; 12535; 12536; 12537; 12538; 12542; 69786; 69788; 69803; 69934;
  69935; 70475; 70476; 70844; 70843; 70846; 71098; 71099; 71992].
