(* ===== verification/Utf8.v ===== *)
(** * Strings of runes, and sort.Search

    What internal/unicodenorm and internal/saslprep use of the standard library beyond GoStrings.v:
    the scalar values, that encoding and decoding UTF-8 are inverse on them, and the binary search
    over sorted tables. *)
From Stdlib Require Import ZArith Lia Bool.
From stdpp Require Import base list gmap strings.
From S2P Require Import Prelude GoStrings.

(** ** Binary search *)

(** [sort.Search]: the loop narrows [i, j) by halves; [n] iterations are enough. *)
Fixpoint search_loop (fuel : nat) (f : nat -> bool) (i j : nat) : nat :=
  match fuel with
  | O => i
  | S fuel' =>
      if (i <? j)%nat then
        let h := ((i + j) / 2)%nat in
        if f h then search_loop fuel' f i h else search_loop fuel' f (S h) j
      else i
  end.
Definition sort_Search (n : nat) (f : nat -> bool) : nat := search_loop n f 0 n.

Lemma search_loop_spec f fuel i j :
  (i <= j)%nat -> (j - i <= fuel)%nat ->
  (forall a b, (a <= b)%nat -> (b < j)%nat -> f a = true -> f b = true) ->
  (i <= search_loop fuel f i j <= j)%nat /\
  (forall a, (i <= a < search_loop fuel f i j)%nat -> f a = false) /\
  (forall a, (search_loop fuel f i j <= a < j)%nat -> f a = true).
Proof.
  revert i j. induction fuel as [|fuel IH]; intros i j Hij Hf Hm; cbn [search_loop].
  { assert (i = j) as <- by lia. split_and!; intros; lia. }
  destruct (Nat.ltb_spec i j) as [Hlt|]; [|split_and!; intros; lia].
  pose proof (Nat.Div0.div_lt_upper_bound (i + j) 2 j ltac:(lia)) as Hj.
  pose proof (Nat.div_le_lower_bound (i + j) 2 i ltac:(lia) ltac:(lia)) as Hi.
  set (h := ((i + j) / 2)%nat) in *.
  destruct (f h) eqn:E.
  - destruct (IH i h) as (H1 & H2 & H3); [lia|lia|intros a b ?? ; apply (Hm a b); lia|].
    split_and!; [lia|lia|done|]. intros a Ha. destruct (decide (a < h)%nat); [apply H3; lia|].
    apply (Hm h a); [lia|lia|done].
  - destruct (IH (S h) j) as (H1 & H2 & H3); [lia|lia|done|].
    split_and!; [lia|lia| |done]. intros a Ha. destruct (decide (h < a)%nat); [apply H2; lia|].
    destruct (f a) eqn:Ea; [|done]. rewrite (Hm a h) in E by (done || lia). done.
Qed.

(** The index found is the first at which a monotone predicate holds. *)
Lemma sort_Search_spec f n :
  (forall a b, (a <= b)%nat -> (b < n)%nat -> f a = true -> f b = true) ->
  (sort_Search n f <= n)%nat /\ (forall a, (a < sort_Search n f)%nat -> f a = false) /\
  (forall a, (sort_Search n f <= a < n)%nat -> f a = true).
Proof.
  intros Hm. destruct (search_loop_spec f n 0 n) as (H1 & H2 & H3); [lia|lia|done|].
  unfold sort_Search. split_and!; [lia| |done]. intros a Ha. apply H2. lia.
Qed.

(** A strictly ascending list of keys. *)
Fixpoint sorted_from (lo : Z) (keys : list Z) : bool :=
  match keys with
  | [] => true
  | k :: keys' => (lo <? k) && sorted_from k keys'
  end.

Lemma sorted_from_nth lo keys i j a b :
  sorted_from lo keys = true -> (i < j)%nat -> nth_error keys i = Some a -> nth_error keys j = Some b -> a < b.
Proof.
  enough (forall lo keys j b, sorted_from lo keys = true -> nth_error keys j = Some b -> lo < b) as L.
  { revert lo i j. induction keys as [|k keys IH]; intros lo [|i] [|j] S Hij A B; try done; try lia.
    - cbn in A, B, S. injection A as <-. apply andb_true_iff in S as [_ S]. by eapply L.
    - cbn in A, B, S. apply andb_true_iff in S as [_ S]. eapply (IH k i j); [done|lia|done|done]. }
  clear. intros lo keys. revert lo. induction keys as [|k keys IH]; intros lo [|j] b S B; try done; cbn in S, B.
  - injection B as <-. lia.
  - apply andb_true_iff in S as [L S]. pose proof (IH _ _ _ S B). lia.
Qed.

(** ** Runes *)

Definition scalar (r : Z) : Prop := 0 <= r < 55296 \/ 57343 < r <= 1114111.
Definition is_scalar (r : Z) : bool := ((0 <=? r) && (r <? 55296)) || ((57343 <? r) && (r <=? 1114111)).

Lemma is_scalar_spec r : is_scalar r = true <-> scalar r.
Proof. unfold is_scalar, scalar. lia. Qed.

(** Quotients and remainders by 64 of a number, as [lia] wants them. *)
Ltac base64_digits r :=
  pose proof (Z.div_mod r 64 ltac:(lia)); pose proof (Z.mod_pos_bound r 64 ltac:(lia));
  pose proof (Z.div_mod (r / 64) 64 ltac:(lia)); pose proof (Z.mod_pos_bound (r / 64) 64 ltac:(lia));
  pose proof (Z.div_mod (r / 4096) 64 ltac:(lia)); pose proof (Z.mod_pos_bound (r / 4096) 64 ltac:(lia));
  replace (r / 64 / 64) with (r / 4096) in * by (rewrite Zdiv.Zdiv_Zdiv by lia; done);
  replace (r / 4096 / 64) with (r / 262144) in * by (rewrite Zdiv.Zdiv_Zdiv by lia; done).

Lemma bz_zb_small z : 0 <= z < 256 -> bz (zb z) = z.
Proof. intros Hz. by rewrite bz_zb, Z.mod_small. Qed.

Lemma is_ascii_byte_zb z : 128 <= z < 256 -> is_ascii_byte (zb z) = false.
Proof. intros Hz. unfold is_ascii_byte. rewrite bz_zb_small by lia. lia. Qed.

Lemma rune2_Encode r : 128 <= r < 2048 -> rune2 (zb (192 + r / 64)) (zb (128 + r mod 64)) = Some r.
Proof.
  intros Hr. base64_digits r. unfold rune2, cont, in_range. rewrite !bz_zb_small by lia.
  bz_consts. match goal with |- (if ?b then _ else _) = _ => replace b with true by lia end. f_equal. lia.
Qed.

Lemma rune2_high b0 b1 : 223 < bz b0 -> rune2 b0 b1 = None.
Proof. intros H. unfold rune2, cont, in_range. bz_consts. by replace (bz b0 <=? 223) with false by lia; rewrite andb_false_r. Qed.

Lemma rune3_high b0 b1 b2 : 239 < bz b0 -> rune3 b0 b1 b2 = None.
Proof.
  intros H. unfold rune3, cont, in_range. rewrite !byte_eqb_bz. bz_consts.
  replace (bz b0 =? 224) with false by lia. replace (bz b0 =? 237) with false by lia.
  replace (bz b0 <=? 239) with false by lia. by rewrite !andb_false_r.
Qed.

Lemma rune3_Encode r :
  2048 <= r < 65536 -> scalar r ->
  rune3 (zb (224 + r / 4096)) (zb (128 + r / 64 mod 64)) (zb (128 + r mod 64)) = Some r.
Proof.
  intros Hr Hs. unfold scalar in Hs. base64_digits r. unfold rune3, cont, in_range. rewrite !byte_eqb_bz, !bz_zb_small by lia.
  bz_consts. destruct (Z.eqb_spec (224 + r / 4096) 224); [|destruct (Z.eqb_spec (224 + r / 4096) 237)];
    match goal with |- (if ?b then _ else _) = _ => replace b with true by lia end; f_equal; lia.
Qed.

Lemma rune4_Encode r :
  65536 <= r <= 1114111 ->
  rune4 (zb (240 + r / 262144)) (zb (128 + r / 4096 mod 64)) (zb (128 + r / 64 mod 64)) (zb (128 + r mod 64)) = Some r.
Proof.
  intros Hr. base64_digits r. unfold rune4, cont, in_range. rewrite !byte_eqb_bz, !bz_zb_small by lia.
  bz_consts. destruct (Z.eqb_spec (240 + r / 262144) 240); [|destruct (Z.eqb_spec (240 + r / 262144) 244)];
    match goal with |- (if ?b then _ else _) = _ => replace b with true by lia end; f_equal; lia.
Qed.

(** Decoding reads back an encoded scalar value. *)
Lemma runes_EncodeRune r s : scalar r -> runes (EncodeRune r ++ s) = (r, EncodeRune r) :: runes s.
Proof.
  intros Hr. unfold EncodeRune.
  replace ((r <? 0) || (1114111 <? r) || ((55296 <=? r) && (r <=? 57343))) with false
    by (unfold scalar in Hr; lia).
  destruct (Z.ltb_spec r 128).
  { cbn [app runes]. unfold is_ascii_byte. unfold scalar in Hr. rewrite bz_zb_small by lia.
    by replace (r <? 128) with true by lia. }
  destruct (Z.ltb_spec r 2048); [|destruct (Z.ltb_spec r 65536)]; cbn [app runes]; base64_digits r;
    unfold scalar in Hr; rewrite is_ascii_byte_zb by lia.
  - by rewrite rune2_Encode by lia.
  - rewrite rune2_high by (rewrite bz_zb_small; lia). by rewrite rune3_Encode by (unfold scalar; lia).
  - rewrite rune2_high by (rewrite bz_zb_small; lia). rewrite rune3_high by (rewrite bz_zb_small; lia).
    by rewrite rune4_Encode by lia.
Qed.

(** [range string(rs)] visits [rs]. *)
Lemma runes_of_runes rs : Forall scalar rs -> map fst (runes (of_runes rs)) = rs.
Proof.
  induction 1 as [|r rs Hr _ IH]; [done|]. unfold of_runes in *. cbn [map concat].
  rewrite runes_EncodeRune by done. cbn [map fst]. by rewrite IH.
Qed.

Lemma rune2_scalar b0 b1 r : rune2 b0 b1 = Some r -> scalar r.
Proof. unfold rune2, cont, in_range, scalar. bz_consts. destruct (_ && _) eqn:E; [|done]. intros [= <-]. lia. Qed.

Lemma rune3_scalar b0 b1 b2 r : rune3 b0 b1 b2 = Some r -> scalar r.
Proof.
  unfold rune3, cont, in_range, scalar. rewrite !byte_eqb_bz. bz_consts.
  destruct (Z.eqb_spec (bz b0) 224), (Z.eqb_spec (bz b0) 237); destruct (_ && _) eqn:E; try done; intros [= <-]; lia.
Qed.

Lemma rune4_scalar b0 b1 b2 b3 r : rune4 b0 b1 b2 b3 = Some r -> scalar r.
Proof.
  unfold rune4, cont, in_range, scalar. rewrite !byte_eqb_bz. bz_consts.
  destruct (Z.eqb_spec (bz b0) 240), (Z.eqb_spec (bz b0) 244); destruct (_ && _) eqn:E; try done; intros [= <-]; lia.
Qed.

(** Ranging over any string yields scalar values only. *)
Lemma runes_scalar s : Forall scalar (map fst (runes s)).
Proof.
  enough (forall n s, (length s <= n)%nat -> Forall scalar (map fst (runes s))) as E by by eapply E. clear s.
  assert (scalar RuneError) as Bad by (unfold scalar, RuneError; lia).
  induction n as [|n IH]; intros [|b0 s1] Hn; cbn [length] in Hn; try lia; try constructor.
  assert (forall r enc s', scalar r -> (length s' <= n)%nat -> Forall scalar (map fst ((r, enc) :: runes s'))) as Step.
  { intros r enc s' Hr Hl. constructor; [done|by apply IH]. }
  cbn [runes]. destruct (is_ascii_byte b0) eqn:Hb.
  { apply Step; [|lia]. unfold is_ascii_byte in Hb. pose proof (bz_range b0). unfold scalar. lia. }
  destruct s1 as [|b1 s2]; [by constructor|]. cbn [length] in Hn.
  destruct (rune2 b0 b1) eqn:E2; [apply Step; [by eapply rune2_scalar|lia]|].
  destruct s2 as [|b2 s3]; [by apply Step; cbn; [|lia]|]. cbn [length] in Hn.
  destruct (rune3 b0 b1 b2) eqn:E3; [apply Step; [by eapply rune3_scalar|lia]|].
  destruct s3 as [|b3 s4]; [by apply Step; cbn; [|lia]|]. cbn [length] in Hn.
  destruct (rune4 b0 b1 b2 b3) eqn:E4; apply Step; cbn; (lia || done || by eapply rune4_scalar).
Qed.
