(* ===== verification/Unicodenorm.v ===== *)
(** * internal/unicodenorm: Unicode Normalization Forms C and KC

    norm.go. The functions read the tables through class [UCD]; its instance [unicode_15] at the end of
    the definitions is tables.go (NormTables.v), so the generic lemmas never unfold a table. *)
From Stdlib Require Import ZArith Lia Bool Sorting.Permutation.
From stdpp Require Import base list gmap strings.
From S2P Require Import Prelude GoStrings Utf8 NormTables.

(** The tables: parallel arrays sorted by key; row [i] of a decomposition table is the data from
    offset [i] to offset [i + 1]. *)
Class UCD : Type := {
  ccc_key : list Z;
  ccc_val : list Z;
  decomp_key : list Z;
  decomp_offset : list Z;
  decomp_data : list Z;
  compat_key : list Z;
  compat_offset : list Z;
  compat_data : list Z;
  compose_key : list Z;
  compose_val : list Z
}.

(** The index of a key in an ascending table. *)
Definition key_index (keys : list Z) (r : Z) : option nat :=
  let i := sort_Search (length keys) (fun i => match nth_error keys i with Some k => r <=? k | None => true end) in
  match nth_error keys i with
  | Some k => if k =? r then Some i else None
  | None => None
  end.

Definition sBase : Z := 44032.
Definition lBase : Z := 4352.
Definition vBase : Z := 4449.
Definition tBase : Z := 4519.
Definition lCount : Z := 19.
Definition vCount : Z := 21.
Definition tCount : Z := 28.
Definition nCount : Z := vCount * tCount.
Definition sCount : Z := lCount * nCount.

Definition isHangulL (r : Z) : bool := (lBase <=? r) && (r <? lBase + lCount).
Definition isHangulV (r : Z) : bool := (vBase <=? r) && (r <? vBase + vCount).
Definition isHangulT (r : Z) : bool := (tBase <? r) && (r <? tBase + tCount).
Definition isHangulLV (r : Z) : bool :=
  (sBase <=? r) && (r <? sBase + sCount) && ((r - sBase) mod tCount =? 0).

Definition hangulDecompose (r : Z) : list Z :=
  let sIndex := r - sBase in
  let l := lBase + sIndex / nCount in
  let v := vBase + sIndex mod nCount / tCount in
  let t := tBase + sIndex mod tCount in
  if sIndex mod tCount =? 0 then [l; v] else [l; v; t].

Section Norm.
Context `{UCD}.

Definition combiningClass (r : Z) : Z :=
  match key_index ccc_key r with
  | Some i => nth i ccc_val 0
  | None => 0
  end.

(** A row of a decomposition table. *)
Definition row (offset data : list Z) (i : nat) : list Z :=
  let start := nth i offset 0 in
  let end_ := nth (S i) offset 0 in
  take (Z.to_nat (end_ - start)) (drop (Z.to_nat start) data).

Definition decompose (r : Z) : option (list Z) :=
  if (sBase <=? r) && (r <? sBase + sCount) then Some (hangulDecompose r)
  else row decomp_offset decomp_data <$> key_index decomp_key r.

Definition compatDecompose (r : Z) : option (list Z) :=
  if (sBase <=? r) && (r <? sBase + sCount) then Some (hangulDecompose r)
  else row compat_offset compat_data <$> key_index compat_key r.

Definition decomposed (f : Z -> option (list Z)) (s : bytes) : list Z :=
  flat_map (fun '(r, _) => match f r with Some d => d | None => [r] end) (runes s).
Definition decomposeString (s : bytes) : list Z := decomposed decompose s.
Definition decomposeCompatString (s : bytes) : list Z := decomposed compatDecompose s.

(** [sort.SliceStable] by combining class: the stable order is unique; insertion sort computes it. *)
Fixpoint insert (r : Z) (run : list Z) : list Z :=
  match run with
  | [] => [r]
  | a :: run' => if combiningClass r <=? combiningClass a then r :: run else a :: insert r run'
  end.
Definition stable_sort (run : list Z) : list Z := fold_right insert [] run.

(** [canonicalOrder]: [run] is the run of non-starters collected so far. *)
Fixpoint order_runs (run rs : list Z) : list Z :=
  match rs with
  | [] => stable_sort run
  | r :: rs' =>
      if combiningClass r =? 0 then stable_sort run ++ r :: order_runs [] rs'
      else order_runs (run ++ [r]) rs'
  end.
Definition canonicalOrder (rs : list Z) : list Z := order_runs [] rs.

Definition pair_key (first second : Z) : Z := Z.lor (Z.shiftl (first mod 2 ^ 32) 32) (second mod 2 ^ 32).

Definition composePair (first second : Z) : option Z :=
  if isHangulL first && isHangulV second then
    Some (sBase + ((first - lBase) * vCount + (second - vBase)) * tCount)
  else if isHangulLV first && isHangulT second then Some (first + (second - tBase))
  else (fun i => nth i compose_val 0) <$> key_index compose_key (pair_key first second).

(** The output of [compose] as it stands: what precedes the last starter, the last starter if there is
    one, what follows it, and the highest combining class since. *)
Record composing : Type := {
  before : list Z;
  starter : option Z;
  after : list Z;
  blockingClass : Z
}.

Definition compose_step (c : composing) (r : Z) : composing :=
  let ccc := combiningClass r in
  let composed := match starter c with
                  | Some st => if ccc <=? blockingClass c then None else composePair st r
                  | None => None
                  end in
  match composed with
  | Some st' => {| before := before c; starter := Some st'; after := after c; blockingClass := blockingClass c |}
  | None =>
      if ccc =? 0 then
        {| before := before c ++ option_list (starter c) ++ after c; starter := Some r; after := [];
           blockingClass := -1 |}
      else
        {| before := before c; starter := starter c; after := after c ++ [r];
           blockingClass := match starter c with
                            | Some _ => Z.max (blockingClass c) ccc
                            | None => blockingClass c
                            end |}
  end.

Definition composed_list (c : composing) : list Z := before c ++ option_list (starter c) ++ after c.

Definition compose (rs : list Z) : list Z :=
  match rs with
  | [] => []
  | r :: rs' =>
      composed_list (fold_left compose_step rs'
        (if combiningClass r =? 0 then {| before := []; starter := Some r; after := []; blockingClass := -1 |}
         else {| before := []; starter := None; after := [r]; blockingClass := -1 |}))
  end.

Definition NFC (s : bytes) : bytes := of_runes (compose (canonicalOrder (decomposeString s))).
Definition NFKC (s : bytes) : bytes := of_runes (compose (canonicalOrder (decomposeCompatString s))).

End Norm.

Definition unicode_15 : UCD := {|
  ccc_key := cccKey; ccc_val := cccVal;
  decomp_key := decompKey; decomp_offset := decompOffset; decomp_data := decompData;
  compat_key := compatDecompKey; compat_offset := compatDecompOffset; compat_data := compatDecompData;
  compose_key := composeKey; compose_val := composeVal |}.

(** ** Lemmas and theorems *)
Module NormFacts.

(** The binary search finds exactly the positions of a key. *)
Lemma key_index_spec keys r i : sorted_from (-1) keys = true -> key_index keys r = Some i <-> nth_error keys i = Some r.
Proof.
  intros HS. unfold key_index.
  set (f := fun i => match nth_error keys i with Some k => r <=? k | None => true end).
  destruct (sort_Search_spec f (length keys)) as (H1 & H2 & H3).
  { intros a b Hab Hb Ha. unfold f in *. destruct (nth_error keys b) as [kb|] eqn:Eb; [|done].
    destruct (nth_error keys a) as [ka|] eqn:Ea; [|apply nth_error_None in Ea; lia].
    destruct (decide (a = b)) as [->|]; [congruence|].
    pose proof (sorted_from_nth _ _ a b ka kb HS ltac:(lia) Ea Eb). lia. }
  set (k := sort_Search (length keys) f) in *. split.
  - destruct (nth_error keys k) as [x|] eqn:E; [|done]. destruct (Z.eqb_spec x r); [|done]. by intros [= <-]; subst.
  - intros E. assert (k = i) as ->.
    { assert (f i = true) as Fi by (unfold f; rewrite E; lia).
      assert (i < length keys)%nat as Li by (apply nth_error_Some; congruence).
      destruct (lt_eq_lt_dec k i) as [[L|?]|L]; [|done|by rewrite (H2 _ L) in Fi].
      assert (f k = true) as Fk by (apply H3; lia). unfold f in Fk.
      destruct (nth_error keys k) as [x|] eqn:Ek; [|apply nth_error_None in Ek; lia].
      pose proof (sorted_from_nth _ _ _ _ _ _ HS L Ek E). lia. }
    rewrite E. by rewrite Z.eqb_refl.
Qed.

Section Order.
Context `{UCD}.
Implicit Types (r a b : Z) (rs run : list Z).

(** *** Canonical ordering *)

(** Adjacent characters are in order: a non-starter is not behind a non-starter of higher class. *)
Definition in_order a b : Prop := combiningClass b = 0 \/ combiningClass a = 0 \/ combiningClass a <= combiningClass b.

Fixpoint ordered rs : Prop :=
  match rs with
  | a :: (b :: _) as rs' => in_order a b /\ ordered rs'
  | _ => True
  end.

Definition of_class (c : Z) : list Z -> list Z := List.filter (fun r => combiningClass r =? c).

Fixpoint ascending run : Prop :=
  match run with
  | a :: (b :: _) as run' => combiningClass a <= combiningClass b /\ ascending run'
  | _ => True
  end.

Lemma insert_perm r run : Permutation (insert r run) (r :: run).
Proof.
  induction run as [|a run IH]; cbn; [done|]. destruct (_ <=? _); [done|]. rewrite IH. constructor.
Qed.

Lemma stable_sort_perm run : Permutation (stable_sort run) run.
Proof. induction run as [|r run IH]; cbn; [done|]. rewrite insert_perm. by constructor. Qed.

Lemma insert_ascending r run : ascending run -> ascending (insert r run).
Proof.
  induction run as [|a run IH]; cbn [insert]; [done|]. intros A.
  destruct (Z.leb_spec (combiningClass r) (combiningClass a)); [by split|].
  destruct run as [|b run]; cbn [insert] in *; [split; [lia|done]|].
  destruct A as [A1 A2]. specialize (IH A2). destruct (_ <=? _) eqn:E; cbn in *.
  - split; [lia|]. by split; [lia|].
  - by split.
Qed.

Lemma stable_sort_ascending run : ascending (stable_sort run).
Proof. induction run as [|r run IH]; cbn; [done|]. by apply insert_ascending. Qed.

Lemma insert_class c r run : of_class c (insert r run) = of_class c (r :: run).
Proof.
  induction run as [|a run IH]; cbn [insert]; [done|]. destruct (_ <=? _) eqn:E; [done|].
  unfold of_class in *. cbn [List.filter]. rewrite IH. cbn [List.filter].
  destruct (combiningClass a =? c) eqn:Ea, (combiningClass r =? c) eqn:Er; try done. lia.
Qed.

Lemma stable_sort_class c run : of_class c (stable_sort run) = of_class c run.
Proof.
  induction run as [|r run IH]; [done|]. change (stable_sort (r :: run)) with (insert r (stable_sort run)).
  rewrite insert_class. unfold of_class in *. cbn [List.filter]. by rewrite IH.
Qed.

Lemma ascending_ordered run : ascending run -> ordered run.
Proof.
  induction run as [|a [|b run] IH]; [done..|]. intros [A1 A2]. split; [right; by right|by apply IH].
Qed.

Lemma ordered_app_starter run r rs :
  ordered run -> combiningClass r = 0 -> ordered (r :: rs) -> ordered (run ++ r :: rs).
Proof.
  induction run as [|a [|b run] IH]; intros O Hr Hrs; [done| |].
  - split; [by left|done].
  - destruct O as [O1 O2]. split; [done|]. by apply IH.
Qed.

Lemma ordered_starter r rs : combiningClass r = 0 -> ordered rs -> ordered (r :: rs).
Proof. destruct rs as [|b rs]; [done|]. intros Hr O. split; [right; by left|done]. Qed.

Lemma order_runs_spec run rs :
  Permutation (order_runs run rs) (run ++ rs) /\ ordered (order_runs run rs) /\
  forall c, of_class c (order_runs run rs) = of_class c (run ++ rs).
Proof.
  revert run. induction rs as [|r rs IH]; intros run; cbn [order_runs].
  { rewrite app_nil_r. split_and!; [apply stable_sort_perm|apply ascending_ordered, stable_sort_ascending|].
    intros c. apply stable_sort_class. }
  destruct (Z.eqb_spec (combiningClass r) 0) as [Z|NZ].
  - destruct (IH []) as (P & O & C). split_and!.
    + rewrite stable_sort_perm, P. done.
    + apply ordered_app_starter; [apply ascending_ordered, stable_sort_ascending|done|]. by apply ordered_starter.
    + intros c. unfold of_class in *. rewrite !List.filter_app. f_equal; [apply stable_sort_class|].
      cbn [List.filter]. rewrite C. done.
  - destruct (IH (run ++ [r])) as (P & O & C). rewrite <- app_assoc in *. cbn in *. split_and!; done.
Qed.

(** Canonical ordering is the stable sort UAX #15 asks for: a permutation in which no non-starter
    stands behind one of a higher class, and which keeps the order of the characters of every
    combining class. *)
Lemma canonicalOrder_stable rs :
  Permutation (canonicalOrder rs) rs /\ ordered (canonicalOrder rs) /\
  forall c, of_class c (canonicalOrder rs) = of_class c rs.
Proof. apply (order_runs_spec []). Qed.

(** Sequences that differ in the order of adjacent non-starters of different classes have the same
    canonical order. *)
Lemma insert_comm a b run :
  combiningClass a <> combiningClass b -> insert a (insert b run) = insert b (insert a run).
Proof.
  intros N. induction run as [|c run IH]; cbn [insert].
  - destruct (Z.leb_spec (combiningClass a) (combiningClass b)), (Z.leb_spec (combiningClass b) (combiningClass a)); done || lia.
  - destruct (Z.leb_spec (combiningClass b) (combiningClass c)) as [B|B], (Z.leb_spec (combiningClass a) (combiningClass c)) as [A|A];
      cbn [insert];
      repeat match goal with |- context [?x <=? ?y] => destruct (Z.leb_spec x y) end; try done; try lia.
    by rewrite IH.
Qed.

Lemma stable_sort_app u v : stable_sort (u ++ v) = fold_right insert (stable_sort v) u.
Proof. unfold stable_sort. by rewrite fold_right_app. Qed.

Lemma order_runs_ext run run' rs :
  (forall t, stable_sort (run ++ t) = stable_sort (run' ++ t)) -> order_runs run rs = order_runs run' rs.
Proof.
  revert run run'. induction rs as [|r rs IH]; intros run run' E; cbn [order_runs].
  - specialize (E []). by rewrite !app_nil_r in E.
  - destruct (_ =? 0).
    + specialize (E []). rewrite !app_nil_r in E. by rewrite E.
    + apply IH. intros t. rewrite <- !app_assoc. apply E.
Qed.

Lemma order_runs_swap run rs a b ys :
  combiningClass a <> 0 -> combiningClass b <> 0 -> combiningClass a <> combiningClass b ->
  order_runs run (rs ++ a :: b :: ys) = order_runs run (rs ++ b :: a :: ys).
Proof.
  intros A B N. revert run. induction rs as [|r rs IH]; intros run; cbn [order_runs app].
  - rewrite (proj2 (Z.eqb_neq _ _) A), (proj2 (Z.eqb_neq _ _) B). apply order_runs_ext. intros t.
    rewrite <- !app_assoc. cbn. rewrite !stable_sort_app. cbn. by rewrite insert_comm.
  - destruct (_ =? 0); [by rewrite IH|apply IH].
Qed.

Lemma canonicalOrder_shift xs u r ys :
  combiningClass r <> 0 -> Forall (fun x => combiningClass x <> 0 /\ combiningClass x <> combiningClass r) u ->
  canonicalOrder (xs ++ u ++ r :: ys) = canonicalOrder (xs ++ r :: u ++ ys).
Proof.
  intros R F. unfold canonicalOrder. revert xs. induction F as [|x u [X N] F IH]; intros xs; [done|]. cbn.
  change (xs ++ x :: u ++ r :: ys) with (xs ++ [x] ++ (u ++ r :: ys)). rewrite app_assoc, IH, <- app_assoc. cbn.
  by apply order_runs_swap.
Qed.

(** An ordered sequence is left alone. *)
Lemma stable_sort_id run : ascending run -> stable_sort run = run.
Proof.
  induction run as [|a [|b run] IH]; intros A; [done..|]. destruct A as [A1 A2].
  change (insert a (stable_sort (b :: run)) = a :: b :: run). rewrite IH by done. cbn.
  by destruct (Z.leb_spec (combiningClass a) (combiningClass b)); [|lia].
Qed.

Lemma ordered_ascending run :
  ordered run -> Forall (fun r => combiningClass r <> 0) run -> ascending run.
Proof.
  induction run as [|a [|b run] IH]; intros O F; [done..|]. destruct O as [O1 O2].
  apply Forall_cons in F as [Fa F]. split; [|by apply IH].
  apply Forall_cons in F as [Fb _]. by destruct O1 as [?|[?|?]].
Qed.

Lemma ordered_app u v : ordered (u ++ v) -> ordered u /\ ordered v.
Proof.
  induction u as [|a [|b u] IH]; intros O; [done| |].
  - destruct v as [|b v]; [done|]. by destruct O.
  - destruct O as [O1 O2]. destruct (IH O2). done.
Qed.

Lemma order_runs_id run rs :
  ordered (run ++ rs) -> Forall (fun r => combiningClass r <> 0) run -> order_runs run rs = run ++ rs.
Proof.
  revert run. induction rs as [|r rs IH]; intros run O F; cbn [order_runs].
  - rewrite app_nil_r in *. by apply stable_sort_id, ordered_ascending.
  - destruct (Z.eqb_spec (combiningClass r) 0) as [Z|NZ].
    + apply ordered_app in O as [O1 O2]. rewrite stable_sort_id by by apply ordered_ascending. f_equal. f_equal.
      apply (IH []); [|done]. by apply (ordered_app [r] rs).
    + rewrite IH; rewrite <- ?app_assoc; [done..|]. apply Forall_app. split; [done|by constructor].
Qed.

Lemma canonicalOrder_id rs : ordered rs -> canonicalOrder rs = rs.
Proof. intros O. by apply (order_runs_id []). Qed.

Lemma canonicalOrder_idem rs : canonicalOrder (canonicalOrder rs) = canonicalOrder rs.
Proof. apply canonicalOrder_id, canonicalOrder_stable. Qed.

(** *** Hangul *)

Lemma hangul_range r :
  sBase <= r < sBase + sCount ->
  let l := lBase + (r - sBase) / nCount in
  let v := vBase + (r - sBase) mod nCount / tCount in
  isHangulL l = true /\ isHangulV v = true /\
  ((l - lBase) * vCount + (v - vBase)) * tCount = r - sBase - (r - sBase) mod tCount.
Proof.
  unfold isHangulL, isHangulV, sCount, nCount, lCount, vCount, tCount, sBase, lBase, vBase. intros Hr.
  set (n := r - 44032) in *. cbn zeta.
  pose proof (Z.div_mod n 588 ltac:(lia)) as E1. pose proof (Z.mod_pos_bound n 588 ltac:(lia)).
  pose proof (Z.div_mod (n mod 588) 28 ltac:(lia)) as E2. pose proof (Z.mod_pos_bound (n mod 588) 28 ltac:(lia)).
  assert (n mod 588 mod 28 = n mod 28) as E3 by (apply Z.mod_mod_divide; by exists 21).
  assert (0 <= n / 588 < 19) by (split; [apply Z.div_pos; lia|apply Z.div_lt_upper_bound; lia]).
  assert (0 <= n mod 588 / 28 < 21) by (split; [apply Z.div_pos; lia|apply Z.div_lt_upper_bound; lia]).
  rewrite E3 in *. change (21 * 28) with 588. split_and!; lia.
Qed.

Lemma compose_pair_step before st r st' blocking :
  composePair st r = Some st' -> blocking < combiningClass r ->
  compose_step {| before := before; starter := Some st; after := []; blockingClass := blocking |} r =
  {| before := before; starter := Some st'; after := []; blockingClass := blocking |}.
Proof. intros E L. unfold compose_step. cbn. destruct (Z.leb_spec (combiningClass r) blocking); [lia|]. by rewrite E. Qed.

End Order.

(** *** Composition undoes decomposition *)

(** The decomposition of one rune under a decomposition function. *)
Definition expand (f : Z -> option (list Z)) (r : Z) : list Z := match f r with Some d => d | None => [r] end.

(** What the tables promise to the algorithm. A decomposition is complete, and a composite decomposes to
    the decomposition of its first character followed by the second (when that one is its own
    decomposition). *)
Class ClassTable `{UCD} : Prop := {
  class_nonneg r : 0 <= combiningClass r;
  class_jamo j : isHangulL j = true \/ isHangulV j = true \/ isHangulT j = true -> combiningClass j = 0
}.

Class Decomposition `{UCD} (f : Z -> option (list Z)) : Prop := {
  expand_closed r d : f r = Some d -> Forall (fun x => scalar x /\ expand f x = [x]) d;
  expand_composed a r c :
    scalar a -> scalar r -> composePair a r = Some c -> expand f r = [r] ->
    scalar c /\ expand f c = expand f a ++ [r]
}.

Section Composition.
Context `{UCD} `{!ClassTable} (f : Z -> option (list Z)) `{!Decomposition f}.
Implicit Types (r x : Z) (rs p ys : list Z) (c : composing).

Abbreviation expanded := (flat_map (expand f)).

(** [p] has been read: the output so far, decomposed again, is canonically equivalent to it. *)
Record composes c p : Prop := {
  composes_equiv ys : canonicalOrder (expanded (composed_list c) ++ ys) = canonicalOrder (p ++ ys);
  composes_after : Forall (fun x => expand f x = [x] /\ combiningClass x <> 0) (after c);
  composes_blocking : starter c <> None -> Forall (fun x => combiningClass x <= blockingClass c) (after c);
  composes_scalar : Forall scalar (composed_list c)
}.

Lemma expanded_id rs : Forall (fun x => expand f x = [x]) rs -> expanded rs = rs.
Proof. induction 1 as [|x rs E _ IH]; [done|]. cbn. by rewrite E, IH. Qed.

Lemma composes_extend c p r c' :
  composes c p -> scalar r -> expand f r = [r] -> composed_list c' = composed_list c ++ [r] ->
  Forall (fun x => expand f x = [x] /\ combiningClass x <> 0) (after c') ->
  (starter c' <> None -> Forall (fun x => combiningClass x <= blockingClass c') (after c')) ->
  composes c' (p ++ [r]).
Proof.
  intros [E A B S] Hr Er L A' B'. split; [|done|done|rewrite L; apply Forall_app; by split; [|constructor]].
  intros ys. rewrite L, flat_map_app. cbn. rewrite Er, app_nil_r, <- !app_assoc. apply E.
Qed.

Lemma composes_compose c p r st st' :
  composes c p -> scalar r -> expand f r = [r] -> starter c = Some st -> composePair st r = Some st' ->
  blockingClass c < combiningClass r ->
  composes {| before := before c; starter := Some st'; after := after c; blockingClass := blockingClass c |} (p ++ [r]).
Proof.
  intros [E A B S] Hr Er Est Ec L. unfold composed_list in *. rewrite Est in *. change (option_list (Some st)) with [st] in *.
  assert (scalar st) as Hst by (apply Forall_app in S as [_ S]; by apply Forall_cons in S as [? _]).
  destruct (expand_composed st r st' Hst Hr Ec Er) as [Hc Dc].
  specialize (B ltac:(done)). split; cbn [starter before after blockingClass]; [|done|done|]; unfold composed_list; cbn [starter before after];
    change (option_list (Some st')) with [st'].
  - intros ys. rewrite <- app_assoc. cbn [app]. rewrite <- E. rewrite !flat_map_app. cbn [flat_map app]. rewrite ?app_nil_r, Dc.
    rewrite (expanded_id (after c)) by (eapply Forall_impl; [exact A|by intros ? [? _]]).
    rewrite <- !app_assoc. cbn [app]. rewrite !(app_assoc (flat_map _ _)). destruct (decide (combiningClass r = 0)) as [R0|R0].
    + replace (after c) with (@nil Z); [done|]. destruct (after c) as [|x u]; [done|].
      apply Forall_cons in B as [B _]. apply Forall_cons in A as [[_ A] _]. pose proof (class_nonneg x). lia.
    + symmetry. apply canonicalOrder_shift; [done|]. clear -A B L. induction (after c) as [|x u IH]; [done|].
      apply Forall_cons in A as [[_ A] A']. apply Forall_cons in B as [B B']. constructor; [lia|by apply IH].
  - apply Forall_app in S as [S1 S2]. apply Forall_app. split; [done|]. apply Forall_cons in S2 as [_ S2]. by constructor.
Qed.

Lemma compose_step_composes c p r :
  composes c p -> scalar r -> expand f r = [r] -> composes (compose_step c r) (p ++ [r]).
Proof.
  intros C Hr Er. unfold compose_step.
  destruct (match starter c with Some st => _ | None => None end) as [st'|] eqn:E.
  - destruct (starter c) as [st|] eqn:Es; [|done]. destruct (Z.leb_spec (combiningClass r) (blockingClass c)); [done|].
    by apply (composes_compose c p r st st').
  - clear E. destruct (Z.eqb_spec (combiningClass r) 0) as [R0|R0].
    + eapply composes_extend; [done|done|done| | |]; cbn; [|by constructor|by constructor].
      unfold composed_list. cbn. by rewrite <- ?app_assoc.
    + eapply composes_extend; [done|done|done| | |]; cbn.
      * unfold composed_list. cbn. by rewrite <- !app_assoc.
      * apply Forall_app. split; [apply C|by constructor].
      * intros Hs. destruct (starter c) as [st|] eqn:Es; [|done].
        pose proof (composes_blocking _ _ C ltac:(by rewrite Es)) as B.
        apply Forall_app. split; [eapply Forall_impl; [exact B|cbn; lia]|constructor; [lia|done]].
Qed.

(** The composition of complete decompositions decomposes to a canonically equivalent sequence. *)
Lemma compose_equiv rs :
  Forall (fun x => scalar x /\ expand f x = [x]) rs ->
  Forall scalar (compose rs) /\ canonicalOrder (expanded (compose rs)) = canonicalOrder rs.
Proof.
  destruct rs as [|r rs]; [done|]. intros [[Hr Er] F]%Forall_cons. cbn [compose].
  set (c0 := if _ =? 0 then _ else _).
  assert (composes c0 [r]) as C0.
  { unfold c0. destruct (Z.eqb_spec (combiningClass r) 0); split; unfold composed_list; cbn; rewrite ?Er; try done;
      repeat first [apply Forall_nil; exact I | apply Forall_cons; split | split | done]. }
  change (r :: rs) with ([r] ++ rs). revert C0. generalize c0, [r]. clear c0 Hr Er.
  induction F as [|x rs [Hx Ex] F IH]; intros c p C.
  - rewrite app_nil_r. split; [apply C|]. pose proof (composes_equiv _ _ C []) as E. by rewrite !app_nil_r in E.
  - cbn [fold_left]. change (p ++ x :: rs) with (p ++ [x] ++ rs). rewrite app_assoc. apply IH.
    by apply compose_step_composes.
Qed.

Definition normalized (s : bytes) : bytes := of_runes (compose (canonicalOrder (decomposed f s))).

Lemma decomposed_expand s : decomposed f s = expanded (map fst (runes s)).
Proof. unfold decomposed. induction (runes s) as [|[r enc] l IH]; [done|]. cbn. by rewrite IH. Qed.

Lemma expanded_closed rs : Forall scalar rs -> Forall (fun x => scalar x /\ expand f x = [x]) (expanded rs).
Proof.
  induction 1 as [|r rs Hr _ IH]; [done|]. cbn. apply Forall_app. split; [|done]. unfold expand at 2.
  destruct (f r) as [d|] eqn:E; [by apply (expand_closed r)|]. constructor; [|done]. split; [done|]. unfold expand. by rewrite E.
Qed.

Lemma ordered_closed s : Forall (fun x => scalar x /\ expand f x = [x]) (canonicalOrder (decomposed f s)).
Proof.
  rewrite (proj1 (canonicalOrder_stable _)), decomposed_expand. apply expanded_closed, runes_scalar.
Qed.

(** A normalized string decomposes to the ordered decomposition it was made of. *)
Lemma normalized_decomposed s :
  canonicalOrder (decomposed f (normalized s)) = canonicalOrder (decomposed f s).
Proof.
  destruct (compose_equiv _ (ordered_closed s)) as [S E].
  unfold normalized. rewrite (decomposed_expand (of_runes _)), runes_of_runes by done.
  rewrite E. apply canonicalOrder_idem.
Qed.

Lemma normalized_idem s : normalized (normalized s) = normalized s.
Proof. unfold normalized at 1. by rewrite normalized_decomposed. Qed.

Lemma normalized_runes s :
  map fst (runes (normalized s)) = compose (canonicalOrder (decomposed f s)).
Proof. unfold normalized. apply runes_of_runes, compose_equiv, ordered_closed. Qed.

(** Hangul syllables are stable under normalization: the algorithmic decomposition of a syllable is
    composed to the syllable again. *)
Lemma hangul_roundtrip r :
  sBase <= r < sBase + sCount ->
  compose (canonicalOrder (hangulDecompose r)) = [r].
Proof.
  pose proof class_jamo as HC. intros Hr. destruct (hangul_range r Hr) as (HL & HV & HE). unfold hangulDecompose.
  set (l := lBase + (r - sBase) / nCount) in *. set (v := vBase + (r - sBase) mod nCount / tCount) in *.
  set (t := (r - sBase) mod tCount) in *.
  assert (0 <= t < tCount) as Ht by (apply Z.mod_pos_bound; reflexivity).
  assert (composePair l v = Some (r - t)) as C1.
  { unfold composePair. rewrite HL, HV. cbn. f_equal. lia. }
  destruct (Z.eqb_spec t 0) as [T0|T0].
  - unfold canonicalOrder. cbn [order_runs]. rewrite !HC by auto. cbn.
    rewrite HC by auto. cbn. rewrite compose_pair_step with (st' := r - t); [|done|rewrite HC by auto; lia].
    unfold composed_list. cbn. f_equal. lia.
  - assert (isHangulT (tBase + t) = true) as HT by (unfold isHangulT, tBase, tCount in *; lia).
    unfold canonicalOrder. cbn [order_runs]. rewrite !HC by auto. cbn. rewrite HC by auto. cbn.
    rewrite compose_pair_step with (st' := r - t); [|done|rewrite HC by auto; lia].
    rewrite compose_pair_step with (st' := r); [done| |rewrite HC by auto; lia].
    unfold composePair. replace (isHangulL (r - t)) with false; [|unfold isHangulL, lBase, lCount, sBase, tCount in *; lia].
    assert ((r - t - sBase) mod tCount = 0) as M.
    { replace (r - t - sBase) with ((r - sBase) - t) by lia. unfold t. rewrite Zminus_mod_idemp_r. by rewrite Z.sub_diag. }
    unfold isHangulLV. rewrite M, HT.
    assert (sBase <= r - t) as L1 by (unfold t; pose proof (Z.mod_le (r - sBase) tCount ltac:(lia) ltac:(reflexivity)); lia).
    destruct (Z.leb_spec sBase (r - t)); [|lia]. destruct (Z.ltb_spec (r - t) (sBase + sCount)); [|lia].
    cbn. f_equal. lia.
Qed.

End Composition.
(** *** Hangul syllables, and predicates on runes *)

Definition is_syllable (r : Z) : bool := (sBase <=? r) && (r <? sBase + sCount).

Section Runes.
Context `{UCD} `{!ClassTable}.

Lemma syllable_scalar r : is_syllable r = true -> scalar r.
Proof. unfold is_syllable, scalar, sBase, sCount, nCount, lCount, vCount, tCount. lia. Qed.

Lemma syllable_stable r : is_syllable r = true -> NFC (of_runes [r]) = of_runes [r].
Proof.
  intros S. pose proof (syllable_scalar r S) as Sc.
  unfold NFC, decomposeString. rewrite decomposed_expand, runes_of_runes by by constructor. cbn [flat_map].
  unfold expand, decompose. fold (is_syllable r). rewrite S, app_nil_r. rewrite hangul_roundtrip; [done|].
  unfold is_syllable in S. lia.
Qed.

(** A property that decompositions preserve and composites have holds of a normalized string when it
    holds of the string. *)
Lemma compose_forall (P : Z -> Prop) rs :
  (forall a r c, composePair a r = Some c -> P c) -> Forall P rs -> Forall P (compose rs).
Proof.
  intros HC. destruct rs as [|r rs]; [done|]. intros [Pr F]%Forall_cons. cbn [compose].
  set (c0 := if _ =? 0 then _ else _).
  assert (Forall P (composed_list c0)) as C0 by (unfold c0; destruct (_ =? 0); by constructor).
  revert C0. generalize c0. clear c0 Pr. induction F as [|x rs Hx F IH]; intros c C; [done|]. cbn [fold_left].
  apply IH. clear IH F. unfold composed_list in *. apply Forall_app in C as [C1 C]. apply Forall_app in C as [C2 C3].
  unfold compose_step. destruct (match starter c with Some st => _ | None => None end) as [st'|] eqn:E; cbn.
  - apply Forall_app. split; [done|]. constructor; [|done]. destruct (starter c) as [st|]; [|done].
    destruct (_ <=? _); [done|]. by eapply HC.
  - clear E. destruct (_ =? 0); cbn.
    + apply Forall_app. split; [|by constructor]. apply Forall_app. split; [done|]. by apply Forall_app.
    + apply Forall_app. split; [done|]. apply Forall_app. split; [done|]. apply Forall_app. by split; [|constructor].
Qed.

Lemma normalized_forall f `{!Decomposition f} (P : Z -> Prop) s :
  (forall r d, P r -> f r = Some d -> Forall P d) -> (forall a r c, composePair a r = Some c -> P c) ->
  Forall P (map fst (runes s)) -> Forall P (map fst (runes (normalized f s))).
Proof.
  intros HD HC F. rewrite normalized_runes by apply _. apply compose_forall; [done|].
  rewrite (proj1 (canonicalOrder_stable _)), decomposed_expand.
  induction F as [|r rs Hr F IH]; [done|]. cbn. apply Forall_app. split; [|done]. unfold expand.
  destruct (f r) as [d|] eqn:E; [by eapply HD|by constructor].
Qed.

End Runes.

(** *** ASCII *)

Definition ascii_rune (r : Z) : Prop := 0 <= r < 128.

(** No table mentions an ASCII character other than as the first of a pair. *)
Class AsciiInert `{UCD} : Prop := {
  class_ascii r : ascii_rune r -> combiningClass r = 0;
  compose_none a r : ascii_rune a -> ascii_rune r -> composePair a r = None
}.

Section Ascii.
Context `{UCD} `{!AsciiInert}.

Lemma canonicalOrder_ascii rs : Forall ascii_rune rs -> canonicalOrder rs = rs.
Proof.
  intros F. apply canonicalOrder_id. induction F as [|a [|b rs] Ha F IH]; [done..|]. split; [|done].
  left. apply Forall_cons in F as [Hb _]. by apply class_ascii.
Qed.

Lemma compose_loop_ascii p a rs :
  ascii_rune a -> Forall ascii_rune rs ->
  composed_list (fold_left compose_step rs {| before := p; starter := Some a; after := []; blockingClass := -1 |}) =
  p ++ a :: rs.
Proof.
  intros Ha F. revert p a Ha. induction F as [|r rs Hr F IH]; intros p a Ha; [reflexivity|].
  cbn [fold_left]. unfold compose_step at 2. cbn [starter blockingClass].
  rewrite (class_ascii r) by done. rewrite compose_none by done. cbn [Z.leb Z.compare Z.eqb before after starter].
  change (p ++ option_list (Some a) ++ []) with (p ++ [a]). rewrite IH by done. by rewrite <- app_assoc.
Qed.

Lemma compose_ascii rs : Forall ascii_rune rs -> compose rs = rs.
Proof.
  destruct rs as [|a rs]; [done|]. intros [Ha F]%Forall_cons. cbn [compose].
  rewrite class_ascii by done. by apply (compose_loop_ascii []).
Qed.

Lemma runes_ascii_only s : is_ascii s = true -> Forall ascii_rune (map fst (runes s)) /\ of_runes (map fst (runes s)) = s.
Proof.
  intros A. pose proof (runes_ascii s [] A) as R. rewrite app_nil_r in R. rewrite R, app_nil_r, map_map. cbn [fst].
  clear R. induction s as [|c s IH]; [done|]. unfold is_ascii in A. cbn in A. apply andb_true_iff in A as [Hc A].
  destruct (IH A) as [F E]. unfold is_ascii_byte in Hc. pose proof (bz_range c).
  split; [constructor; [unfold ascii_rune; lia|done]|]. unfold of_runes in *. cbn. rewrite E. unfold EncodeRune.
  replace ((bz c <? 0) || (1114111 <? bz c) || ((55296 <=? bz c) && (bz c <=? 57343))) with false by lia.
  replace (bz c <? 128) with true by lia. by rewrite zb_bz.
Qed.

Lemma decomposed_ascii f s :
  (forall r, ascii_rune r -> f r = None) -> is_ascii s = true -> decomposed f s = map fst (runes s).
Proof.
  intros Hf A. unfold decomposed. destruct (runes_ascii_only s A) as [F _].
  induction (runes s) as [|[r e] l IH]; [done|]. cbn in *. apply Forall_cons in F as [Hr F]. by rewrite Hf, IH.
Qed.

Lemma normalized_ascii f s :
  (forall r, ascii_rune r -> f r = None) -> is_ascii s = true -> normalized f s = s.
Proof.
  intros Hf A. unfold normalized. rewrite decomposed_ascii by done. destruct (runes_ascii_only s A) as [F E].
  by rewrite canonicalOrder_ascii, compose_ascii.
Qed.


End Ascii.
End NormFacts.
