(* ===== verification/NormTheorems.v ===== *)
(** * internal/unicodenorm: the theorems, at the tables of Unicode 15.0.0

    The laws Unicodenorm.v asks of its tables ([ClassTable], [Decomposition]) are decided here for
    tables.go itself, by linear passes over the arrays with finite maps for the lookups; the theorems
    about [NFC] and [NFKC] follow. *)
From Stdlib Require Import ZArith Lia Bool.
From stdpp Require Import base list gmap strings.
From S2P Require Import Prelude GoStrings Utf8 NormTables Unicodenorm.
Import NormFacts.

(** ** The arrays as finite maps *)

Lemma nth_error_lookup {A} (l : list A) i : nth_error l i = l !! i.
Proof. revert i. by induction l as [|x l IH]; intros [|i]; cbn. Qed.

Fixpoint rows (offset data : list Z) : list (list Z) :=
  match offset with
  | a :: ((b :: _) as offset') =>
      take (Z.to_nat (b - a)) data :: rows offset' (drop (Z.to_nat (b - a)) data)
  | _ => []
  end.

Fixpoint ascending_from (lo : Z) (offset : list Z) : bool :=
  match offset with
  | [] => true
  | a :: offset' => (lo <=? a) && ascending_from a offset'
  end.

Lemma rows_row a offset data i :
  0 <= a -> ascending_from a offset = true -> (i < length offset)%nat ->
  nth_error (rows (a :: offset) (drop (Z.to_nat a) data)) i = Some (row (a :: offset) data i).
Proof.
  revert a i. induction offset as [|b offset IH]; intros a i Ha A Hi; [cbn in Hi; lia|].
  cbn [ascending_from] in A. apply andb_true_iff in A as [Hab A]. destruct i as [|i]; [done|].
  change (nth_error (rows (b :: offset) (drop (Z.to_nat (b - a)) (drop (Z.to_nat a) data))) i =
    Some (row (b :: offset) data i)).
  rewrite drop_drop, <- Z2Nat.inj_add by lia.
  replace (a + (b - a)) with b by lia. cbn [length] in Hi. apply IH; [lia|done|lia].
Qed.

Definition table (keys : list Z) (vals : list (list Z)) : gmap Z (list Z) := list_to_map (zip keys vals).

(** A decomposition table is well formed. *)
Definition table_ok (keys offset data : list Z) : bool :=
  sorted_from (-1) keys && (length offset =? S (length keys))%nat &&
  match offset with a :: offset' => (a =? 0) && ascending_from a offset' | [] => false end.

Lemma sorted_NoDup lo keys : sorted_from lo keys = true -> NoDup keys.
Proof.
  intros S. apply NoDup_alt. intros i j x Hi Hj.
  rewrite <- nth_error_lookup in Hi. rewrite <- nth_error_lookup in Hj.
  destruct (lt_eq_lt_dec i j) as [[L|?]|L]; [|done|].
  - pose proof (sorted_from_nth _ _ _ _ _ _ S L Hi Hj). lia.
  - pose proof (sorted_from_nth _ _ _ _ _ _ S L Hj Hi). lia.
Qed.

Lemma rows_length offset data : length (rows offset data) = pred (length offset).
Proof.
  revert data. induction offset as [|a [|b offset] IH]; intros data; [done..|].
  change (S (length (rows (b :: offset) (drop (Z.to_nat (b - a)) data))) = S (length offset)). by rewrite IH.
Qed.

(** The search in the arrays is the lookup in the map. *)
Lemma table_lookup keys offset data r :
  table_ok keys offset data = true ->
  row offset data <$> key_index keys r = table keys (rows offset data) !! r.
Proof.
  unfold table_ok. rewrite !andb_true_iff, Nat.eqb_eq. intros [[S Lo] O].
  destruct offset as [|a offset]; [done|]. apply andb_true_iff in O as [->%Z.eqb_eq O]. cbn [length] in Lo.
  assert (length (rows (0 :: offset) data) = length keys) as Lr by (rewrite rows_length; cbn; lia).
  assert (forall i, (i < length keys)%nat -> rows (0 :: offset) data !! i = Some (row (0 :: offset) data i)) as R.
  { intros i Hi. rewrite <- nth_error_lookup. by apply (rows_row 0 offset data i); [..|lia]. }
  assert ((zip keys (rows (0 :: offset) data)).*1 = keys) as K by (apply fst_zip; lia).
  destruct (key_index keys r) as [i|] eqn:E; cbn [fmap option_fmap option_map].
  - apply key_index_spec in E; [|done]. rewrite nth_error_lookup in E. symmetry. unfold table.
    apply elem_of_list_to_map; [rewrite K; by eapply sorted_NoDup|].
    apply list_elem_of_lookup. exists i. rewrite lookup_zip_with, E. cbn. rewrite R by by eapply lookup_lt_Some. done.
  - symmetry. unfold table. apply not_elem_of_list_to_map. rewrite K. intros [i Hi]%list_elem_of_lookup.
    rewrite <- nth_error_lookup in Hi. by rewrite (proj2 (key_index_spec keys r i S) Hi) in E.
Qed.

(** ** The laws, decided *)

Definition is_jamo (r : Z) : bool := isHangulL r || isHangulV r || isHangulT r.

(** [decompose] and [compatDecompose] are this function of their table. *)
Definition decompose_in (keys offset data : list Z) (r : Z) : option (list Z) :=
  if is_syllable r then Some (hangulDecompose r) else row offset data <$> key_index keys r.

Definition map_expand (m : gmap Z (list Z)) (r : Z) : list Z :=
  if is_syllable r then hangulDecompose r else default [r] (m !! r).

Definition is_none {A} (o : option A) : bool := match o with Some _ => false | None => true end.

Definition check_closed (keys offset data : list Z) : bool :=
  let m := table keys (rows offset data) in
  forallb (fun k => negb (is_jamo k)) keys &&
  forallb (fun x => is_scalar x && negb (is_syllable x) && is_none (m !! x)) data.

Definition check_composed (keys offset data ckeys cvals : list Z) : bool :=
  let m := table keys (rows offset data) in
  forallb (fun '(k, c) =>
    is_scalar c &&
    bool_decide (map_expand m c = map_expand m (Z.shiftr k 32) ++ map_expand m (Z.land k (Z.ones 32))))
    (zip ckeys cvals).

Section Laws.
Context `{UCD}.

Lemma pair_key_parts a b :
  0 <= a < 2 ^ 32 -> 0 <= b < 2 ^ 32 ->
  Z.shiftr (pair_key a b) 32 = a /\ Z.land (pair_key a b) (Z.ones 32) = b.
Proof.
  intros Ha Hb. unfold pair_key. rewrite !Z.mod_small by lia. split.
  - rewrite Z.shiftr_lor, Z.shiftr_shiftl_l by lia. rewrite Z.sub_diag, Z.shiftl_0_r.
    rewrite (Z.shiftr_div_pow2 b) by lia. rewrite Z.div_small by lia. apply Z.lor_0_r.
  - rewrite Z.land_lor_distr_l, !Z.land_ones by lia. rewrite Z.shiftl_mul_pow2 by lia.
    rewrite Z.mod_mul by lia. by rewrite Z.lor_0_l, Z.mod_small.
Qed.

Lemma is_jamo_syllable r : is_jamo r = true -> is_syllable r = false /\ scalar r.
Proof.
  unfold is_jamo, is_syllable, isHangulL, isHangulV, isHangulT, scalar, lBase, lCount, vBase, vCount, tBase, tCount, sBase, sCount.
  lia.
Qed.

Lemma hangul_jamo r : is_syllable r = true -> Forall (fun x => is_jamo x = true) (hangulDecompose r).
Proof.
  intros S. unfold is_syllable in S. destruct (hangul_range r ltac:(lia)) as (L & V & _). unfold hangulDecompose.
  set (t := (r - sBase) mod tCount).
  assert (0 <= t < tCount) as Ht by (apply Z.mod_pos_bound; reflexivity).
  assert (forall x, isHangulL x = true -> is_jamo x = true) as JL by (unfold is_jamo; intros x ->; done).
  assert (forall x, isHangulV x = true -> is_jamo x = true) as JV by (unfold is_jamo; intros x ->; by rewrite orb_true_r).
  destruct (Z.eqb_spec t 0); repeat (apply Forall_cons; split); auto.
  unfold is_jamo. replace (isHangulT (tBase + t)) with true; [by rewrite orb_true_r|]. unfold isHangulT, tCount in *. lia.
Qed.

Lemma expand_LV a r :
  isHangulL a = true -> isHangulV r = true ->
  let c := sBase + ((a - lBase) * vCount + (r - vBase)) * tCount in is_syllable c = true /\ hangulDecompose c = [a; r].
Proof.
  unfold isHangulL, isHangulV, is_syllable, hangulDecompose, sCount, nCount, lBase, lCount, vBase, vCount, tBase, tCount, sBase.
  intros Ha Hr. cbn zeta. set (i := a - 4352). set (j := r - 4449).
  assert (0 <= i < 19 /\ 0 <= j < 21) as [Hi Hj] by lia.
  replace (44032 + (i * 21 + j) * 28 - 44032) with (i * 588 + j * 28) by lia. change (21 * 28) with 588.
  assert ((i * 588 + j * 28) mod 28 = 0) as -> by (replace (i * 588 + j * 28) with ((i * 21 + j) * 28) by lia; apply Z.mod_mul; lia).
  assert ((i * 588 + j * 28) / 588 = i) as -> by (rewrite Z.add_comm, Z.div_add, Z.div_small by lia; lia).
  assert ((i * 588 + j * 28) mod 588 = j * 28) as -> by (rewrite Z.add_comm, Z.mod_add, Z.mod_small by lia; lia).
  rewrite Z.div_mul by lia. split; [lia|]. cbn. f_equal; [lia|]. f_equal. lia.
Qed.

Lemma expand_LVT a r :
  isHangulLV a = true -> isHangulT r = true ->
  let c := a + (r - tBase) in is_syllable c = true /\ hangulDecompose c = hangulDecompose a ++ [r].
Proof.
  unfold isHangulLV, isHangulT, is_syllable, hangulDecompose, sCount, nCount, lCount, vBase, vCount, tCount, sBase. cbn zeta.
  intros Ha Hr. set (i := a - 44032) in *. set (t := r - tBase).
  assert (0 <= i < 11172 /\ i mod 28 = 0 /\ 0 < t < 28) as (Hi & Hm & Ht) by lia.
  pose proof (Z.div_mod i 28 ltac:(lia)) as E. set (q := i / 28) in *. rewrite Hm in E.
  replace (a + t - 44032) with (i + t) by lia. change (21 * 28) with 588.
  pose proof (Z.div_mod q 21 ltac:(lia)) as Eq. pose proof (Z.mod_pos_bound q 21 ltac:(lia)).
  set (u := q / 21) in *. set (v := q mod 21) in *.
  assert (forall x, 0 <= x < 28 -> (u * 588 + (v * 28 + x)) / 588 = u /\ (u * 588 + (v * 28 + x)) mod 588 = v * 28 + x /\
    (v * 28 + x) / 28 = v /\ (u * 588 + (v * 28 + x)) mod 28 = x) as X.
  { intros x Hx. split_and!.
    - rewrite Z.add_comm, Z.div_add, Z.div_small by lia. lia.
    - rewrite Z.add_comm, Z.mod_add, Z.mod_small by lia. lia.
    - rewrite Z.add_comm, Z.div_add, Z.div_small by lia. lia.
    - replace (u * 588 + (v * 28 + x)) with (x + (u * 21 + v) * 28) by lia. rewrite Z.mod_add, Z.mod_small by lia. done. }
  replace (i + t) with (u * 588 + (v * 28 + t)) by lia. replace i with (u * 588 + (v * 28 + 0)) by lia.
  destruct (X t ltac:(lia)) as (-> & -> & -> & ->). destruct (X 0 ltac:(lia)) as (-> & -> & -> & ->).
  destruct (Z.eqb_spec t 0); [lia|]. split; [unfold lCount; lia|]. cbn. do 3 f_equal. lia.
Qed.

Context (keys offset data : list Z).
Hypothesis wf : table_ok keys offset data = true.

Abbreviation f := (decompose_in keys offset data).

Lemma expand_map r : expand f r = map_expand (table keys (rows offset data)) r.
Proof.
  unfold expand, decompose_in, map_expand. destruct (is_syllable r); [done|].
  rewrite table_lookup by done. by destruct (_ !! r).
Qed.

Hypothesis closed : check_closed keys offset data = true.

Lemma expand_jamo r : is_jamo r = true -> scalar r /\ expand f r = [r].
Proof.
  intros J. destruct (is_jamo_syllable r J) as [Hs Hr]. split; [done|].
  unfold expand, decompose_in. rewrite Hs. destruct (key_index keys r) as [i|] eqn:E; [|done].
  unfold table_ok in wf. rewrite !andb_true_iff in wf. apply key_index_spec in E; [|apply wf].
  unfold check_closed in closed. apply andb_true_iff in closed as [C _]. rewrite forallb_forall in C.
  apply nth_error_In, C in E. by rewrite J in E.
Qed.

Lemma in_row x i : In x (row offset data i) -> In x data.
Proof using Type.
  unfold row. intros I. rewrite <- (take_drop (Z.to_nat (nth i offset 0)) data). apply in_or_app. right.
  rewrite <- (take_drop (Z.to_nat (nth (S i) offset 0 - nth i offset 0)) (drop _ data)). apply in_or_app. by left.
Qed.

Lemma decompose_closed r d : f r = Some d -> Forall (fun x => scalar x /\ expand f x = [x]) d.
Proof.
  unfold decompose_in at 1. destruct (is_syllable r) eqn:S.
  - intros [= <-]. eapply Forall_impl; [by apply hangul_jamo|]. intros x J. by apply expand_jamo.
  - destruct (key_index keys r) as [i|]; [|done]. intros [= <-]. apply List.Forall_forall. intros x I%in_row.
    unfold check_closed in closed. apply andb_true_iff in closed as [_ C]. rewrite forallb_forall in C.
    specialize (C x I). rewrite !andb_true_iff in C. destruct C as [[Sc Sy] N]. split; [by apply is_scalar_spec|].
    rewrite expand_map. unfold map_expand. apply negb_true_iff in Sy. rewrite Sy. by destruct (_ !! x).
Qed.

Hypothesis ckeys_sorted : sorted_from (-1) compose_key = true.
Hypothesis cvals_length : length compose_val = length compose_key.
Hypothesis composed : check_composed keys offset data compose_key compose_val = true.

Lemma decompose_composed a r c :
  scalar a -> scalar r -> composePair a r = Some c -> expand f r = [r] ->
  scalar c /\ expand f c = expand f a ++ [r].
Proof.
  intros Ha Hr Hc Er.
  assert (forall x, is_syllable x = true -> scalar x /\ expand f x = hangulDecompose x) as Syl.
  { intros x Hx. split; [unfold is_syllable, scalar, sBase, sCount, nCount, lCount, vCount, tCount in *; lia|].
    unfold expand, decompose_in. by rewrite Hx. }
  unfold composePair in Hc. destruct (isHangulL a && isHangulV r) eqn:LV; [|destruct (isHangulLV a && isHangulT r) eqn:LVT].
  - apply andb_true_iff in LV as [L V]. destruct (expand_LV a r L V) as [S E]. injection Hc as <-.
    destruct (Syl _ S) as [Sc ->]. split; [done|]. rewrite E.
    by rewrite (proj2 (expand_jamo a ltac:(unfold is_jamo; by rewrite L))).
  - apply andb_true_iff in LVT as [L V]. destruct (expand_LVT a r L V) as [S E]. injection Hc as <-.
    destruct (Syl _ S) as [Sc ->]. split; [done|]. rewrite E. f_equal. symmetry. apply Syl.
    unfold isHangulLV, is_syllable in *. lia.
  - destruct (key_index compose_key (pair_key a r)) as [i|] eqn:E; [|done]. injection Hc as <-.
    apply key_index_spec in E; [|done]. rewrite nth_error_lookup in E.
    pose proof (lookup_lt_Some _ _ _ E) as Hi. rewrite <- cvals_length in Hi.
    destruct (lookup_lt_is_Some_2 compose_val i Hi) as [v Hv]. rewrite (nth_lookup_Some _ _ _ _ Hv).
    unfold check_composed in composed. rewrite forallb_forall in composed.
    specialize (composed (pair_key a r, v)). cbv beta iota in composed.
    destruct (pair_key_parts a r) as [P1 P2]; [unfold scalar in *; lia..|].
    rewrite P1, P2, <- !expand_map, Er in composed.
    assert (In (pair_key a r, v) (zip compose_key compose_val)) as I.
    { apply list_elem_of_In, list_elem_of_lookup. exists i. by rewrite lookup_zip_with, E; cbn; rewrite Hv. }
    specialize (composed I). apply andb_true_iff in composed as [Sc Eq]. apply is_scalar_spec in Sc.
    by apply bool_decide_eq_true in Eq.
Qed.

(** Where the runes of decompositions and the composites come from. *)
Lemma decompose_origin r d : f r = Some d -> Forall (fun x => is_jamo x = true \/ In x data) d.
Proof using Type.
  unfold decompose_in. destruct (is_syllable r) eqn:S.
  - intros [= <-]. eapply Forall_impl; [by apply hangul_jamo|]. by left.
  - destruct (key_index keys r) as [i|]; [|done]. intros [= <-]. apply List.Forall_forall. intros x I. right. by apply in_row in I.
Qed.

Lemma compose_origin a r c : composePair a r = Some c -> is_syllable c = true \/ In c compose_val.
Proof using ckeys_sorted cvals_length.
  unfold composePair. destruct (isHangulL a && isHangulV r) eqn:LV; [|destruct (isHangulLV a && isHangulT r) eqn:LVT].
  - apply andb_true_iff in LV as [L V]. intros [= <-]. left. by apply expand_LV.
  - apply andb_true_iff in LVT as [L V]. intros [= <-]. left. by apply expand_LVT.
  - destruct (key_index compose_key (pair_key a r)) as [i|] eqn:E; [|done]. intros [= <-]. right.
    apply key_index_spec in E; [|done]. apply nth_In. rewrite cvals_length. apply nth_error_Some. by rewrite E.
Qed.

Lemma decomposition_laws : Decomposition f.
Proof. split; [apply decompose_closed|apply decompose_composed]. Qed.

End Laws.

(** ** tables.go satisfies the laws *)

#[global] Existing Instance unicode_15.

Lemma ccc_ok :
  sorted_from (-1) cccKey && forallb (fun k => negb (is_jamo k)) cccKey &&
  forallb (fun v => 0 <=? v) cccVal = true.
Proof. vm_compute. reflexivity. Qed.

Lemma decomp_ok : table_ok decompKey decompOffset decompData && check_closed decompKey decompOffset decompData = true.
Proof. vm_compute. reflexivity. Qed.

Lemma compat_ok :
  table_ok compatDecompKey compatDecompOffset compatDecompData &&
  check_closed compatDecompKey compatDecompOffset compatDecompData = true.
Proof. vm_compute. reflexivity. Qed.

Lemma compose_ok : sorted_from (-1) composeKey && (length composeVal =? length composeKey)%nat = true.
Proof. vm_compute. reflexivity. Qed.

Lemma decomp_composed : check_composed decompKey decompOffset decompData composeKey composeVal = true.
Proof. vm_compute. reflexivity. Qed.

Lemma compat_composed : check_composed compatDecompKey compatDecompOffset compatDecompData composeKey composeVal = true.
Proof. vm_compute. reflexivity. Qed.

#[global] Instance class_table : ClassTable.
Proof.
  pose proof ccc_ok as C. rewrite !andb_true_iff, !forallb_forall in C. destruct C as [[S J] V]. split.
  - intros r. unfold combiningClass. change ccc_key with cccKey. change ccc_val with cccVal.
    destruct (key_index cccKey r) as [i|]; [|lia]. destruct (nth_in_or_default i cccVal 0) as [I| ->]; [|lia].
    specialize (V _ I). lia.
  - intros j Hj. unfold combiningClass. change ccc_key with cccKey.
    destruct (key_index cccKey j) as [i|] eqn:E; [|done]. apply key_index_spec in E; [|done].
    apply nth_error_In, J in E. unfold is_jamo in E. destruct Hj as [H|[H|H]]; rewrite H, ?orb_true_r in E; done.
Qed.

#[global] Instance canonical_decomposition : Decomposition decompose.
Proof.
  pose proof decomp_ok as [W C]%andb_true_iff. pose proof compose_ok as [S L%Nat.eqb_eq]%andb_true_iff.
  exact (decomposition_laws decompKey decompOffset decompData W C S L decomp_composed).
Qed.

#[global] Instance compatibility_decomposition : Decomposition compatDecompose.
Proof.
  pose proof compat_ok as [W C]%andb_true_iff. pose proof compose_ok as [S L%Nat.eqb_eq]%andb_true_iff.
  exact (decomposition_laws compatDecompKey compatDecompOffset compatDecompData W C S L compat_composed).
Qed.

Lemma compat_origin r d : compatDecompose r = Some d -> Forall (fun x => is_jamo x = true \/ In x compatDecompData) d.
Proof. exact (decompose_origin compatDecompKey compatDecompOffset compatDecompData r d). Qed.

Lemma composite_origin a r c : composePair a r = Some c -> is_syllable c = true \/ In c composeVal.
Proof. pose proof compose_ok as [S L%Nat.eqb_eq]%andb_true_iff. exact (compose_origin S L a r c). Qed.

(** ** Theorems *)

(** C35: NFC decides canonical equivalence (UAX #15): two strings have the same Normalization Form C
    exactly when their complete canonical decompositions, canonically ordered, are the same. *)
Theorem NFC_canonical_equivalence s t :
  NFC s = NFC t <-> canonicalOrder (decomposeString s) = canonicalOrder (decomposeString t).
Proof.
  split; [|by unfold NFC; intros ->]. intros E.
  unfold decomposeString. rewrite <- (normalized_decomposed decompose s), <- (normalized_decomposed decompose t).
  change (normalized decompose) with NFC. by rewrite E.
Qed.

(** Normalization is idempotent: a string in Normalization Form C (KC) is its own NFC (NFKC). *)
Theorem NFC_NFKC_idempotent s : NFC (NFC s) = NFC s /\ NFKC (NFKC s) = NFKC s.
Proof. split; [apply (normalized_idem decompose)|apply (normalized_idem compatDecompose)]. Qed.

Theorem NFKC_compatibility_equivalence s t :
  NFKC s = NFKC t <-> canonicalOrder (decomposeCompatString s) = canonicalOrder (decomposeCompatString t).
Proof.
  split; [|by unfold NFKC; intros ->]. intros E.
  unfold decomposeCompatString. rewrite <- (normalized_decomposed compatDecompose s), <- (normalized_decomposed compatDecompose t).
  change (normalized compatDecompose) with NFKC. by rewrite E.
Qed.

(** The non-ASCII keys of a table. *)
Lemma ascii_inert :
  forallb (fun k => 128 <=? k) cccKey && forallb (fun k => 128 <=? k) decompKey &&
  forallb (fun k => 128 <=? k) compatDecompKey && forallb (fun k => 128 <=? Z.land k (Z.ones 32)) composeKey = true.
Proof. vm_compute. reflexivity. Qed.

Lemma key_index_out keys r :
  sorted_from (-1) keys = true -> forallb (fun k => 128 <=? k) keys = true -> r < 128 -> key_index keys r = None.
Proof.
  intros S F Hr. destruct (key_index keys r) as [i|] eqn:E; [|done]. apply key_index_spec in E; [|done].
  rewrite forallb_forall in F. apply nth_error_In, F in E. lia.
Qed.

Lemma combiningClass_ascii r : r < 128 -> combiningClass r = 0.
Proof.
  intros Hr. pose proof ccc_ok as [[S _]%andb_true_iff _]%andb_true_iff.
  pose proof ascii_inert as [[[I _]%andb_true_iff _]%andb_true_iff _]%andb_true_iff.
  unfold combiningClass. change ccc_key with cccKey. by rewrite (key_index_out _ _ S I Hr).
Qed.

Lemma expand_ascii r : 0 <= r < 128 -> decompose r = None /\ compatDecompose r = None.
Proof.
  intros Hr. pose proof decomp_ok as [[[SD _]%andb_true_iff _]%andb_true_iff _]%andb_true_iff.
  pose proof compat_ok as [[[SK _]%andb_true_iff _]%andb_true_iff _]%andb_true_iff.
  pose proof ascii_inert as [[[_ D]%andb_true_iff K]%andb_true_iff _]%andb_true_iff.
  unfold decompose, compatDecompose. change decomp_key with decompKey. change compat_key with compatDecompKey.
  replace ((sBase <=? r) && (r <? sBase + sCount)) with false by (unfold sBase; lia).
  rewrite (key_index_out _ _ SD D), (key_index_out _ _ SK K) by apply Hr. by split.
Qed.

Lemma composePair_ascii a r : ascii_rune a -> ascii_rune r -> composePair a r = None.
Proof.
  unfold ascii_rune. intros Ha Hr. unfold composePair.
  replace (isHangulL a && isHangulV r) with false by (unfold isHangulL, lBase; lia).
  replace (isHangulLV a && isHangulT r) with false by (unfold isHangulLV, sBase; lia).
  change compose_key with composeKey. destruct (key_index composeKey (pair_key a r)) as [i|] eqn:E; [|done].
  pose proof compose_ok as C. pose proof ascii_inert as I. rewrite !andb_true_iff in C, I.
  apply key_index_spec in E; [|apply C]. destruct I as [_ I]. rewrite forallb_forall in I.
  apply nth_error_In, I in E. destruct (pair_key_parts a r) as [_ P]; [lia..|]. rewrite P in E. lia.
Qed.

#[global] Instance ascii_tables : AsciiInert.
Proof. split; [intros r Hr; by apply combiningClass_ascii, Hr|apply composePair_ascii]. Qed.

(** Normalization leaves ASCII text alone. *)
Theorem NFC_NFKC_ascii s : is_ascii s = true -> NFC s = s /\ NFKC s = s.
Proof. intros A. split; apply normalized_ascii; try done; intros r Hr; by apply expand_ascii. Qed.

(** A precomposed Hangul syllable is stable under NFC: the algorithmic decomposition and composition
    of UAX #15 are inverse on all 11172 syllables. *)
Theorem NFC_hangul r : is_syllable r = true -> NFC (of_runes [r]) = of_runes [r].
Proof. apply syllable_stable. Qed.

Lemma NFC_hangul_witness : is_syllable 54620 = true /\ NFC (of_runes [54620]) = of_runes [54620].
Proof. exact (conj eq_refl (NFC_hangul 54620 eq_refl)). Defined.

Lemma NFC_NFKC_ascii_witness : is_ascii ($"user@example.com") = true /\ NFC ($"user@example.com") = $"user@example.com".
Proof. exact (conj eq_refl (proj1 (NFC_NFKC_ascii ($"user@example.com") eq_refl))). Defined.

(** Composed and decomposed spellings of one word, and a ligature. *)
Example NFC_composes : NFC [x65; xcc; x81] = [xc3; xa9] /\ NFKC [xef; xac; x81] = $"fi".
Proof. vm_compute. done. Qed.
