(* ===== verification/SaslprepTables.v ===== *)
(** * internal/saslprep: the tables

    tables.go, transcribed: the tables of RFC 3454 that SASLprep uses, frozen to Unicode 3.2, as
    ascending lists of disjoint closed intervals. *)
From Stdlib Require Import ZArith List.
Import ListNotations.
Local Open Scope Z_scope.

Record interval : Type := Iv { lo : Z; hi : Z }.

(** Table A.1: unassigned code points in Unicode 3.2. *)
Definition tableA1 : list interval := [
  Iv 545 545; Iv 564 591; Iv 686 687; Iv 751 767; Iv 848 863; Iv 880 883; Iv 886 889; Iv 891 893;
  Iv 895 899; Iv 907 907; Iv 909 909; Iv 930 930; Iv 975 975; Iv 1015 1023; Iv 1159 1159; Iv 1231 1231;
  Iv 1270 1271; Iv 1274 1279; Iv 1296 1328; Iv 1367 1368; Iv 1376 1376; Iv 1416 1416; Iv 1419 1424;
  Iv 1442 1442; Iv 1466 1466; Iv 1477 1487; Iv 1515 1519; Iv 1525 1547; Iv 1549 1562; Iv 1564 1566;
  Iv 1568 1568; Iv 1595 1599; Iv 1622 1631; Iv 1774 1775; Iv 1791 1791; Iv 1806 1806; Iv 1837 1839;
  Iv 1867 1919; Iv 1970 2304; Iv 2308 2308; Iv 2362 2363; Iv 2382 2383; Iv 2389 2391; Iv 2417 2432;
  Iv 2436 2436; Iv 2445 2446; Iv 2449 2450; Iv 2473 2473; Iv 2481 2481; Iv 2483 2485; Iv 2490 2491;
  Iv 2493 2493; Iv 2501 2502; Iv 2505 2506; Iv 2510 2518; Iv 2520 2523; Iv 2526 2526; Iv 2532 2533;
  Iv 2555 2561; Iv 2563 2564; Iv 2571 2574; Iv 2577 2578; Iv 2601 2601; Iv 2609 2609; Iv 2612 2612;
  Iv 2615 2615; Iv 2618 2619; Iv 2621 2621; Iv 2627 2630; Iv 2633 2634; Iv 2638 2648; Iv 2653 2653;
  Iv 2655 2661; Iv 2677 2688; Iv 2692 2692; Iv 2700 2700; Iv 2702 2702; Iv 2706 2706; Iv 2729 2729;
  Iv 2737 2737; Iv 2740 2740; Iv 2746 2747; Iv 2758 2758; Iv 2762 2762; Iv 2766 2767; Iv 2769 2783;
  Iv 2785 2789; Iv 2800 2816; Iv 2820 2820; Iv 2829 2830; Iv 2833 2834; Iv 2857 2857; Iv 2865 2865;
  Iv 2868 2869; Iv 2874 2875; Iv 2884 2886; Iv 2889 2890; Iv 2894 2901; Iv 2904 2907; Iv 2910 2910;
  Iv 2914 2917; Iv 2929 2945; Iv 2948 2948; Iv 2955 2957; Iv 2961 2961; Iv 2966 2968; Iv 2971 2971;
  Iv 2973 2973; Iv 2976 2978; Iv 2981 2983; Iv 2987 2989; Iv 2998 2998; Iv 3002 3005; Iv 3011 3013;
  Iv 3017 3017; Iv 3022 3030; Iv 3032 3046; Iv 3059 3072; Iv 3076 3076; Iv 3085 3085; Iv 3089 3089;
  Iv 3113 3113; Iv 3124 3124; Iv 3130 3133; Iv 3141 3141; Iv 3145 3145; Iv 3150 3156; Iv 3159 3167;
  Iv 3170 3173; Iv 3184 3201; Iv 3204 3204; Iv 3213 3213; Iv 3217 3217; Iv 3241 3241; Iv 3252 3252;
  Iv 3258 3261; Iv 3269 3269; Iv 3273 3273; Iv 3278 3284; Iv 3287 3293; Iv 3295 3295; Iv 3298 3301;
  Iv 3312 3329; Iv 3332 3332; Iv 3341 3341; Iv 3345 3345; Iv 3369 3369; Iv 3386 3389; Iv 3396 3397;
  Iv 3401 3401; Iv 3406 3414; Iv 3416 3423; Iv 3426 3429; Iv 3440 3457; Iv 3460 3460; Iv 3479 3481;
  Iv 3506 3506; Iv 3516 3516; Iv 3518 3519; Iv 3527 3529; Iv 3531 3534; Iv 3541 3541; Iv 3543 3543;
  Iv 3552 3569; Iv 3573 3584; Iv 3643 3646; Iv 3676 3712; Iv 3715 3715; Iv 3717 3718; Iv 3721 3721;
  Iv 3723 3724; Iv 3726 3731; Iv 3736 3736; Iv 3744 3744; Iv 3748 3748; Iv 3750 3750; Iv 3752 3753;
  Iv 3756 3756; Iv 3770 3770; Iv 3774 3775; Iv 3781 3781; Iv 3783 3783; Iv 3790 3791; Iv 3802 3803;
  Iv 3806 3839; Iv 3912 3912; Iv 3947 3952; Iv 3980 3983; Iv 3992 3992; Iv 4029 4029; Iv 4045 4046;
  Iv 4048 4095; Iv 4130 4130; Iv 4136 4136; Iv 4139 4139; Iv 4147 4149; Iv 4154 4159; Iv 4186 4255;
  Iv 4294 4303; Iv 4345 4346; Iv 4348 4351; Iv 4442 4446; Iv 4515 4519; Iv 4602 4607; Iv 4615 4615;
  Iv 4679 4679; Iv 4681 4681; Iv 4686 4687; Iv 4695 4695; Iv 4697 4697; Iv 4702 4703; Iv 4743 4743;
  Iv 4745 4745; Iv 4750 4751; Iv 4783 4783; Iv 4785 4785; Iv 4790 4791; Iv 4799 4799; Iv 4801 4801;
  Iv 4806 4807; Iv 4815 4815; Iv 4823 4823; Iv 4847 4847; Iv 4879 4879; Iv 4881 4881; Iv 4886 4887;
  Iv 4895 4895; Iv 4935 4935; Iv 4955 4960; Iv 4989 5023; Iv 5109 5120; Iv 5751 5759; Iv 5789 5791;
  Iv 5873 5887; Iv 5901 5901; Iv 5909 5919; Iv 5943 5951; Iv 5972 5983; Iv 5997 5997; Iv 6001 6001;
  Iv 6004 6015; Iv 6109 6111; Iv 6122 6143; Iv 6159 6159; Iv 6170 6175; Iv 6264 6271; Iv 6314 7679;
  Iv 7836 7839; Iv 7930 7935; Iv 7958 7959; Iv 7966 7967; Iv 8006 8007; Iv 8014 8015; Iv 8024 8024;
  Iv 8026 8026; Iv 8028 8028; Iv 8030 8030; Iv 8062 8063; Iv 8117 8117; Iv 8133 8133; Iv 8148 8149;
  Iv 8156 8156; Iv 8176 8177; Iv 8181 8181; Iv 8191 8191; Iv 8275 8278; Iv 8280 8286; Iv 8292 8297;
  Iv 8306 8307; Iv 8335 8351; Iv 8370 8399; Iv 8427 8447; Iv 8507 8508; Iv 8524 8530; Iv 8580 8591;
  Iv 9167 9215; Iv 9255 9279; Iv 9291 9311; Iv 9471 9471; Iv 9748 9749; Iv 9752 9752; Iv 9854 9855;
  Iv 9866 9984; Iv 9989 9989; Iv 9994 9995; Iv 10024 10024; Iv 10060 10060; Iv 10062 10062; Iv 10067 10069;
  Iv 10071 10071; Iv 10079 10080; Iv 10133 10135; Iv 10160 10160; Iv 10175 10191; Iv 10220 10223;
  Iv 11008 11903; Iv 11930 11930; Iv 12020 12031; Iv 12246 12271; Iv 12284 12287; Iv 12352 12352;
  Iv 12439 12440; Iv 12544 12548; Iv 12589 12592; Iv 12687 12687; Iv 12728 12783; Iv 12829 12831;
  Iv 12868 12880; Iv 12924 12926; Iv 13004 13007; Iv 13055 13055; Iv 13175 13178; Iv 13278 13279;
  Iv 13311 13311; Iv 19894 19967; Iv 40870 40959; Iv 42125 42127; Iv 42183 44031; Iv 55204 55295;
  Iv 64046 64047; Iv 64107 64255; Iv 64263 64274; Iv 64280 64284; Iv 64311 64311; Iv 64317 64317;
  Iv 64319 64319; Iv 64322 64322; Iv 64325 64325; Iv 64434 64466; Iv 64832 64847; Iv 64912 64913;
  Iv 64968 64975; Iv 65021 65023; Iv 65040 65055; Iv 65060 65071; Iv 65095 65096; Iv 65107 65107;
  Iv 65127 65127; Iv 65132 65135; Iv 65141 65141; Iv 65277 65278; Iv 65280 65280; Iv 65471 65473;
  Iv 65480 65481; Iv 65488 65489; Iv 65496 65497; Iv 65501 65503; Iv 65511 65511; Iv 65519 65528;
  Iv 65536 66303; Iv 66335 66335; Iv 66340 66351; Iv 66379 66559; Iv 66598 66599; Iv 66638 118783;
  Iv 119030 119039; Iv 119079 119081; Iv 119262 119807; Iv 119893 119893; Iv 119965 119965;
  Iv 119968 119969; Iv 119971 119972; Iv 119975 119976; Iv 119981 119981; Iv 119994 119994;
  Iv 119996 119996; Iv 120001 120001; Iv 120004 120004; Iv 120070 120070; Iv 120075 120076;
  Iv 120085 120085; Iv 120093 120093; Iv 120122 120122; Iv 120127 120127; Iv 120133 120133;
  Iv 120135 120137; Iv 120145 120145; Iv 120484 120487; Iv 120778 120781; Iv 120832 131069;
  Iv 173783 194559; Iv 195102 196605; Iv 196608 262141; Iv 262144 327677; Iv 327680 393213;
  Iv 393216 458749; Iv 458752 524285; Iv 524288 589821; Iv 589824 655357; Iv 655360 720893;
  Iv 720896 786429; Iv 786432 851965; Iv 851968 917501; Iv 917504 917504; Iv 917506 917535; Iv 917632 983037].

(** Table B.1: commonly mapped to nothing. *)
Definition tableB1 : list interval := [
  Iv 173 173; Iv 847 847; Iv 6150 6150; Iv 6155 6157; Iv 8203 8205; Iv 8288 8288; Iv 65024 65039;
  Iv 65279 65279].

(** Table C.1.2: non-ASCII space characters. *)
Definition tableC12 : list interval := [
  Iv 160 160; Iv 5760 5760; Iv 8192 8203; Iv 8239 8239; Iv 8287 8287; Iv 12288 12288].

(** Table C.2.1: ASCII control characters. *)
Definition tableC21 : list interval := [
  Iv 0 31; Iv 127 127].

(** Table C.2.2: non-ASCII control characters. *)
Definition tableC22 : list interval := [
  Iv 128 159; Iv 1757 1757; Iv 1807 1807; Iv 6158 6158; Iv 8204 8205; Iv 8232 8233; Iv 8288 8291;
  Iv 8298 8303; Iv 65279 65279; Iv 65529 65532; Iv 119155 119162].

(** Table C.3: private use. *)
Definition tableC3 : list interval := [
  Iv 57344 63743; Iv 983040 1048573; Iv 1048576 1114109].

(** Table C.4: non-character code points. *)
Definition tableC4 : list interval := [
  Iv 64976 65007; Iv 65534 65535; Iv 131070 131071; Iv 196606 196607; Iv 262142 262143; Iv 327678 327679;
  Iv 393214 393215; Iv 458750 458751; Iv 524286 524287; Iv 589822 589823; Iv 655358 655359;
  Iv 720894 720895; Iv 786430 786431; Iv 851966 851967; Iv 917502 917503; Iv 983038 983039;
  Iv 1048574 1048575; Iv 1114110 1114111].

(** Table C.5: surrogate codes. *)
Definition tableC5 : list interval := [
  Iv 55296 57343].

(** Table C.6: inappropriate for plain text. *)
Definition tableC6 : list interval := [
  Iv 65529 65533].

(** Table C.7: inappropriate for canonical representation. *)
Definition tableC7 : list interval := [
  Iv 12272 12283].

(** Table C.8: change display properties or are deprecated. *)
Definition tableC8 : list interval := [
  Iv 832 833; Iv 8206 8207; Iv 8234 8238; Iv 8298 8303].

(** Table C.9: tagging characters. *)
Definition tableC9 : list interval := [
  Iv 917505 917505; Iv 917536 917631].

(** Table D.1: characters with bidirectional property "R" or "AL". *)
Definition tableD1 : list interval := [
  Iv 1470 1470; Iv 1472 1472; Iv 1475 1475; Iv 1488 1514; Iv 1520 1524; Iv 1563 1563; Iv 1567 1567;
  Iv 1569 1594; Iv 1600 1610; Iv 1645 1647; Iv 1649 1749; Iv 1757 1757; Iv 1765 1766; Iv 1786 1790;
  Iv 1792 1805; Iv 1808 1808; Iv 1810 1836; Iv 1920 1957; Iv 1969 1969; Iv 8207 8207; Iv 64285 64285;
  Iv 64287 64296; Iv 64298 64310; Iv 64312 64316; Iv 64318 64318; Iv 64320 64321; Iv 64323 64324;
  Iv 64326 64433; Iv 64467 64829; Iv 64848 64911; Iv 64914 64967; Iv 65008 65020; Iv 65136 65140;
  Iv 65142 65276].

(** Table D.2: characters with bidirectional property "L". *)
Definition tableD2 : list interval := [
  Iv 65 90; Iv 97 122; Iv 170 170; Iv 181 181; Iv 186 186; Iv 192 214; Iv 216 246; Iv 248 544; Iv 546 563;
  Iv 592 685; Iv 688 696; Iv 699 705; Iv 720 721; Iv 736 740; Iv 750 750; Iv 890 890; Iv 902 902;
  Iv 904 906; Iv 908 908; Iv 910 929; Iv 931 974; Iv 976 1013; Iv 1024 1154; Iv 1162 1230; Iv 1232 1269;
  Iv 1272 1273; Iv 1280 1295; Iv 1329 1366; Iv 1369 1375; Iv 1377 1415; Iv 1417 1417; Iv 2307 2307;
  Iv 2309 2361; Iv 2365 2368; Iv 2377 2380; Iv 2384 2384; Iv 2392 2401; Iv 2404 2416; Iv 2434 2435;
  Iv 2437 2444; Iv 2447 2448; Iv 2451 2472; Iv 2474 2480; Iv 2482 2482; Iv 2486 2489; Iv 2494 2496;
  Iv 2503 2504; Iv 2507 2508; Iv 2519 2519; Iv 2524 2525; Iv 2527 2529; Iv 2534 2545; Iv 2548 2554;
  Iv 2565 2570; Iv 2575 2576; Iv 2579 2600; Iv 2602 2608; Iv 2610 2611; Iv 2613 2614; Iv 2616 2617;
  Iv 2622 2624; Iv 2649 2652; Iv 2654 2654; Iv 2662 2671; Iv 2674 2676; Iv 2691 2691; Iv 2693 2699;
  Iv 2701 2701; Iv 2703 2705; Iv 2707 2728; Iv 2730 2736; Iv 2738 2739; Iv 2741 2745; Iv 2749 2752;
  Iv 2761 2761; Iv 2763 2764; Iv 2768 2768; Iv 2784 2784; Iv 2790 2799; Iv 2818 2819; Iv 2821 2828;
  Iv 2831 2832; Iv 2835 2856; Iv 2858 2864; Iv 2866 2867; Iv 2870 2873; Iv 2877 2878; Iv 2880 2880;
  Iv 2887 2888; Iv 2891 2892; Iv 2903 2903; Iv 2908 2909; Iv 2911 2913; Iv 2918 2928; Iv 2947 2947;
  Iv 2949 2954; Iv 2958 2960; Iv 2962 2965; Iv 2969 2970; Iv 2972 2972; Iv 2974 2975; Iv 2979 2980;
  Iv 2984 2986; Iv 2990 2997; Iv 2999 3001; Iv 3006 3007; Iv 3009 3010; Iv 3014 3016; Iv 3018 3020;
  Iv 3031 3031; Iv 3047 3058; Iv 3073 3075; Iv 3077 3084; Iv 3086 3088; Iv 3090 3112; Iv 3114 3123;
  Iv 3125 3129; Iv 3137 3140; Iv 3168 3169; Iv 3174 3183; Iv 3202 3203; Iv 3205 3212; Iv 3214 3216;
  Iv 3218 3240; Iv 3242 3251; Iv 3253 3257; Iv 3262 3262; Iv 3264 3268; Iv 3271 3272; Iv 3274 3275;
  Iv 3285 3286; Iv 3294 3294; Iv 3296 3297; Iv 3302 3311; Iv 3330 3331; Iv 3333 3340; Iv 3342 3344;
  Iv 3346 3368; Iv 3370 3385; Iv 3390 3392; Iv 3398 3400; Iv 3402 3404; Iv 3415 3415; Iv 3424 3425;
  Iv 3430 3439; Iv 3458 3459; Iv 3461 3478; Iv 3482 3505; Iv 3507 3515; Iv 3517 3517; Iv 3520 3526;
  Iv 3535 3537; Iv 3544 3551; Iv 3570 3572; Iv 3585 3632; Iv 3634 3635; Iv 3648 3654; Iv 3663 3675;
  Iv 3713 3714; Iv 3716 3716; Iv 3719 3720; Iv 3722 3722; Iv 3725 3725; Iv 3732 3735; Iv 3737 3743;
  Iv 3745 3747; Iv 3749 3749; Iv 3751 3751; Iv 3754 3755; Iv 3757 3760; Iv 3762 3763; Iv 3773 3773;
  Iv 3776 3780; Iv 3782 3782; Iv 3792 3801; Iv 3804 3805; Iv 3840 3863; Iv 3866 3892; Iv 3894 3894;
  Iv 3896 3896; Iv 3902 3911; Iv 3913 3946; Iv 3967 3967; Iv 3973 3973; Iv 3976 3979; Iv 4030 4037;
  Iv 4039 4044; Iv 4047 4047; Iv 4096 4129; Iv 4131 4135; Iv 4137 4138; Iv 4140 4140; Iv 4145 4145;
  Iv 4152 4152; Iv 4160 4183; Iv 4256 4293; Iv 4304 4344; Iv 4347 4347; Iv 4352 4441; Iv 4447 4514;
  Iv 4520 4601; Iv 4608 4614; Iv 4616 4678; Iv 4680 4680; Iv 4682 4685; Iv 4688 4694; Iv 4696 4696;
  Iv 4698 4701; Iv 4704 4742; Iv 4744 4744; Iv 4746 4749; Iv 4752 4782; Iv 4784 4784; Iv 4786 4789;
  Iv 4792 4798; Iv 4800 4800; Iv 4802 4805; Iv 4808 4814; Iv 4816 4822; Iv 4824 4846; Iv 4848 4878;
  Iv 4880 4880; Iv 4882 4885; Iv 4888 4894; Iv 4896 4934; Iv 4936 4954; Iv 4961 4988; Iv 5024 5108;
  Iv 5121 5750; Iv 5761 5786; Iv 5792 5872; Iv 5888 5900; Iv 5902 5905; Iv 5920 5937; Iv 5941 5942;
  Iv 5952 5969; Iv 5984 5996; Iv 5998 6000; Iv 6016 6070; Iv 6078 6085; Iv 6087 6088; Iv 6100 6106;
  Iv 6108 6108; Iv 6112 6121; Iv 6160 6169; Iv 6176 6263; Iv 6272 6312; Iv 7680 7835; Iv 7840 7929;
  Iv 7936 7957; Iv 7960 7965; Iv 7968 8005; Iv 8008 8013; Iv 8016 8023; Iv 8025 8025; Iv 8027 8027;
  Iv 8029 8029; Iv 8031 8061; Iv 8064 8116; Iv 8118 8124; Iv 8126 8126; Iv 8130 8132; Iv 8134 8140;
  Iv 8144 8147; Iv 8150 8155; Iv 8160 8172; Iv 8178 8180; Iv 8182 8188; Iv 8206 8206; Iv 8305 8305;
  Iv 8319 8319; Iv 8450 8450; Iv 8455 8455; Iv 8458 8467; Iv 8469 8469; Iv 8473 8477; Iv 8484 8484;
  Iv 8486 8486; Iv 8488 8488; Iv 8490 8493; Iv 8495 8497; Iv 8499 8505; Iv 8509 8511; Iv 8517 8521;
  Iv 8544 8579; Iv 9014 9082; Iv 9109 9109; Iv 9372 9449; Iv 12293 12295; Iv 12321 12329; Iv 12337 12341;
  Iv 12344 12348; Iv 12353 12438; Iv 12445 12447; Iv 12449 12538; Iv 12540 12543; Iv 12549 12588;
  Iv 12593 12686; Iv 12688 12727; Iv 12784 12828; Iv 12832 12867; Iv 12896 12923; Iv 12927 12976;
  Iv 12992 13003; Iv 13008 13054; Iv 13056 13174; Iv 13179 13277; Iv 13280 13310; Iv 13312 19893;
  Iv 19968 40869; Iv 40960 42124; Iv 44032 55203; Iv 55296 64045; Iv 64048 64106; Iv 64256 64262;
  Iv 64275 64279; Iv 65313 65338; Iv 65345 65370; Iv 65382 65470; Iv 65474 65479; Iv 65482 65487;
  Iv 65490 65495; Iv 65498 65500; Iv 66304 66334; Iv 66336 66339; Iv 66352 66378; Iv 66560 66597;
  Iv 66600 66637; Iv 118784 119029; Iv 119040 119078; Iv 119082 119142; Iv 119146 119154; Iv 119171 119172;
  Iv 119180 119209; Iv 119214 119261; Iv 119808 119892; Iv 119894 119964; Iv 119966 119967;
  Iv 119970 119970; Iv 119973 119974; Iv 119977 119980; Iv 119982 119993; Iv 119995 119995;
  Iv 119997 120000; Iv 120002 120003; Iv 120005 120069; Iv 120071 120074; Iv 120077 120084;
  Iv 120086 120092; Iv 120094 120121; Iv 120123 120126; Iv 120128 120132; Iv 120134 120134;
  Iv 120138 120144; Iv 120146 120483; Iv 120488 120777; Iv 131072 173782; Iv 194560 195101;
  Iv 983040 1048573; Iv 1048576 1114109].
