(* ===== verification/Saslprep.v ===== *)
(** * internal/saslprep: SASLprep (RFC 4013)

    saslprep.go over the tables of SaslprepTables.v and the NFKC of Unicodenorm.v. An error carries
    what its text names: the table or rule, and the offending code point. *)
From Stdlib Require Import ZArith Lia Bool.
From stdpp Require Import base list gmap strings.
From S2P Require Import Prelude GoStrings Utf8 NormTables Unicodenorm NormTheorems SaslprepTables.
Import NormFacts.

Definition inTable (t : list interval) (r : Z) : bool :=
  let i := sort_Search (length t) (fun i => match nth_error t i with Some v => r <=? hi v | None => true end) in
  match nth_error t i with
  | Some v => lo v <=? r
  | None => false
  end.

Inductive prep_err : Type :=
| EInvalidUTF8
| EUnassigned (r : Z)
| EProhibited (rfcTable : bytes) (r : Z)
| EBidiMixed (r : Z)
| EBidiFirst (r : Z)
| EBidiLast (r : Z).

(** ** Map *)

Definition map_rune (r : Z) : list Z :=
  if inTable tableB1 r then []
  else if inTable tableC12 r then [32]
  else [r].

Definition mapChars (s : bytes) : bytes := of_runes (flat_map map_rune (map fst (runes s))).

(** ** Prohibit *)

Record prohibitedTable : Type := { rfcTable : bytes; ptable : list interval }.

Definition prohibitedTables : list prohibitedTable := [
  {| rfcTable := $"C.1.2 (non-ASCII space character)"; ptable := tableC12 |};
  {| rfcTable := $"C.2.1 (ASCII control character)"; ptable := tableC21 |};
  {| rfcTable := $"C.2.2 (non-ASCII control character)"; ptable := tableC22 |};
  {| rfcTable := $"C.3 (private use code point)"; ptable := tableC3 |};
  {| rfcTable := $"C.4 (non-character code point)"; ptable := tableC4 |};
  {| rfcTable := $"C.5 (surrogate code point)"; ptable := tableC5 |};
  {| rfcTable := $"C.6 (inappropriate for plain text)"; ptable := tableC6 |};
  {| rfcTable := $"C.7 (inappropriate for canonical representation)"; ptable := tableC7 |};
  {| rfcTable := $"C.8 (changes display properties, or deprecated)"; ptable := tableC8 |};
  {| rfcTable := $"C.9 (tagging character)"; ptable := tableC9 |}
].

Fixpoint prohibited_by (tables : list prohibitedTable) (r : Z) : option prep_err :=
  match tables with
  | [] => None
  | pt :: tables' => if inTable (ptable pt) r then Some (EProhibited (rfcTable pt) r) else prohibited_by tables' r
  end.

Fixpoint check_prohibited (rs : list Z) (prohibitUnassigned : bool) : option prep_err :=
  match rs with
  | [] => None
  | r :: rs' =>
      if prohibitUnassigned && inTable tableA1 r then Some (EUnassigned r)
      else match prohibited_by prohibitedTables r with
           | Some e => Some e
           | None => check_prohibited rs' prohibitUnassigned
           end
  end.

Definition checkProhibited (s : bytes) (prohibitUnassigned : bool) : option prep_err :=
  check_prohibited (map fst (runes s)) prohibitUnassigned.

(** ** Check bidi *)

(** The rule for predicates that stand for tables D.1 and D.2. *)
Definition check_bidi (isRandALCat isLCat : Z -> bool) (rs : list Z) : option prep_err :=
  match rs with
  | [] => None
  | first :: _ =>
      let hasRandALCat := existsb isRandALCat rs in
      if negb hasRandALCat then None
      else match List.find isLCat rs with
      | Some r => Some (EBidiMixed r)
      | None =>
          if negb (isRandALCat first) then Some (EBidiFirst first)
          else let last := List.last rs first in
               if negb (isRandALCat last) then Some (EBidiLast last) else None
      end
  end.

Definition checkBidi (s : bytes) : option prep_err := check_bidi (inTable tableD1) (inTable tableD2) (map fst (runes s)).

(** ** Prepare *)

Definition prepare (s : bytes) (prohibitUnassigned : bool) : result prep_err bytes :=
  if negb (ValidString s) then Err EInvalidUTF8
  else
    let normalized := NFKC (mapChars s) in
    match checkProhibited normalized prohibitUnassigned with
    | Some e => Err e
    | None =>
        match checkBidi normalized with
        | Some e => Err e
        | None => Ok normalized
        end
    end.

Definition Prepare (s : bytes) : result prep_err bytes := prepare s false.
Definition PrepareStored (s : bytes) : result prep_err bytes := prepare s true.

(** ** Table membership *)

Fixpoint intervals_from (b : Z) (t : list interval) : bool :=
  match t with
  | [] => true
  | v :: t' => (b <? lo v) && (lo v <=? hi v) && intervals_from (hi v) t'
  end.

Definition in_interval (r : Z) (v : interval) : bool := (lo v <=? r) && (r <=? hi v).

Module SaslprepFacts.

Lemma intervals_nth b t i j v w :
  intervals_from b t = true -> (i < j)%nat -> nth_error t i = Some v -> nth_error t j = Some w -> hi v < lo w.
Proof.
  enough (forall b t j w, intervals_from b t = true -> nth_error t j = Some w -> b < lo w /\ lo w <= hi w) as L.
  { revert b i j. induction t as [|k t IH]; intros b [|i] [|j] S Hij A B; try done; try lia; cbn in A, B, S;
      rewrite !andb_true_iff in S; destruct S as [[_ _] S].
    - injection A as <-. by eapply L.
    - eapply (IH (hi k) i j); [done|lia|done|done]. }
  clear. intros b t. revert b. induction t as [|k t IH]; intros b [|j] w S B; try done; cbn in S, B;
    rewrite !andb_true_iff in S; destruct S as [[? ?] S].
  - injection B as <-. lia.
  - destruct (IH _ _ _ S B). lia.
Qed.

(** The binary search decides membership in the union of the intervals. *)
Lemma inTable_spec b t r : intervals_from b t = true -> inTable t r = existsb (in_interval r) t.
Proof.
  intros S. unfold inTable.
  set (f := fun i => match nth_error t i with Some v => r <=? hi v | None => true end).
  assert (forall i v, nth_error t i = Some v -> lo v <= hi v) as W.
  { clear f. intros i v. revert b i S. induction t as [|k t IH]; intros b [|i] S E; try done;
      cbn in S, E; rewrite !andb_true_iff in S; destruct S as [[? ?] S]; [injection E as <-; lia|by eapply IH]. }
  destruct (sort_Search_spec f (length t)) as (H1 & H2 & H3).
  { intros i j Hij Hj Hi. unfold f in *. destruct (nth_error t j) as [w|] eqn:Ej; [|done].
    destruct (nth_error t i) as [v|] eqn:Ei; [|apply nth_error_None in Ei; lia].
    destruct (decide (i = j)) as [->|]; [congruence|].
    pose proof (intervals_nth _ _ i j v w S ltac:(lia) Ei Ej). specialize (W _ _ Ej). lia. }
  set (k := sort_Search (length t) f) in *. apply eq_true_iff_eq. rewrite existsb_exists. split.
  - destruct (nth_error t k) as [v|] eqn:E; [|done]. intros L. exists v. split; [by eapply nth_error_In|].
    assert (f k = true) as F by (apply H3; split; [lia|]; apply nth_error_Some; congruence).
    unfold f in F. rewrite E in F. unfold in_interval. lia.
  - intros (v & [i Hi]%In_nth_error & I). unfold in_interval in I.
    assert (i < length t)%nat as Li by (apply nth_error_Some; congruence).
    assert (f i = true) as Fi by (unfold f; rewrite Hi; lia).
    assert (k <= i)%nat as Lk by (destruct (decide (k <= i)%nat); [done|]; rewrite H2 in Fi by lia; done).
    destruct (nth_error t k) as [w|] eqn:E; [|apply nth_error_None in E; lia].
    destruct (decide (k = i)) as [->|]; [assert (w = v) as -> by congruence; lia|].
    pose proof (intervals_nth _ _ k i w v S ltac:(lia) E Hi).
    assert (f k = true) as Fk by (apply H3; lia). unfold f in Fk. rewrite E in Fk. specialize (W _ _ E). lia.
Qed.

Lemma tables_wf :
  Forall (fun t => intervals_from (-1) t = true)
    (tableA1 :: tableB1 :: tableD1 :: tableD2 :: map ptable prohibitedTables).
Proof. repeat constructor; vm_compute; reflexivity. Qed.

(** ** What the checks establish *)

Definition covered (t : list interval) (r : Z) : Prop := exists v, In v t /\ lo v <= r <= hi v.

Lemma inTable_covered t r :
  In t (tableA1 :: tableB1 :: tableD1 :: tableD2 :: map ptable prohibitedTables) ->
  inTable t r = true <-> covered t r.
Proof.
  intros I. rewrite (inTable_spec (-1)) by exact (proj1 (List.Forall_forall _ _) tables_wf t I).
  rewrite existsb_exists. unfold covered, in_interval. split; intros (v & Iv & H); exists v; (split; [done|lia]).
Qed.

Lemma prohibited_by_None tables r :
  prohibited_by tables r = None <-> Forall (fun pt => inTable (ptable pt) r = false) tables.
Proof.
  induction tables as [|pt tables IH]; cbn; [done|]. destruct (inTable (ptable pt) r) eqn:E.
  - split; [done|]. intros [F _]%Forall_cons. congruence.
  - rewrite IH. split; [by constructor|by intros [_ ?]%Forall_cons].
Qed.

Definition permitted (unassigned : bool) (r : Z) : Prop :=
  (unassigned = true -> inTable tableA1 r = false) /\ prohibited_by prohibitedTables r = None.

Lemma check_prohibited_None rs b : check_prohibited rs b = None <-> Forall (permitted b) rs.
Proof.
  induction rs as [|r rs IH]; cbn [check_prohibited]; [done|]. unfold permitted at 1.
  destruct (b && inTable tableA1 r) eqn:A.
  { apply andb_true_iff in A as [-> A]. split; [done|]. intros [[F _] _]%Forall_cons. by rewrite F in A. }
  apply andb_false_iff in A.
  destruct (prohibited_by prohibitedTables r) eqn:P.
  { split; [done|]. intros [[_ F] _]%Forall_cons. congruence. }
  rewrite IH. split; [|by intros [_ ?]%Forall_cons]. intros F. constructor; [|done]. split; [|done].
  intros ->. by destruct A.
Qed.

(** RFC 3454, section 6. *)
Definition bidi_rule (isRandALCat isLCat : Z -> Prop) (rs : list Z) : Prop :=
  (exists r, In r rs /\ isRandALCat r) ->
  (forall r, In r rs -> ~ isLCat r) /\
  (exists first, head rs = Some first /\ isRandALCat first) /\
  (exists final, last rs = Some final /\ isRandALCat final).

Lemma List_last_lookup {A} (x : A) l d : last (x :: l) = Some (List.last (x :: l) d).
Proof. revert x. induction l as [|y l IH]; intros x; [done|]. exact (IH y). Qed.

Lemma check_bidi_None f g (P Q : Z -> Prop) rs :
  (forall r, f r = true <-> P r) -> (forall r, g r = true <-> Q r) -> check_bidi f g rs = None -> bidi_rule P Q rs.
Proof.
  intros HP HQ. destruct rs as [|first rs]; [by intros _ (r & [] & _)|]. unfold check_bidi.
  intros C (r & Ir & Cr). apply HP in Cr.
  replace (existsb f (first :: rs)) with true in C by (symmetry; apply existsb_exists; eauto).
  destruct (List.find g (first :: rs)) as [x|] eqn:F; [done|]. cbn [negb] in C.
  destruct (f first) eqn:Ef; [|done]. cbn [negb] in C.
  destruct (f (List.last (first :: rs) first)) eqn:El; [|done]. split_and!.
  - intros x Ix Cx%HQ. by rewrite (find_none _ _ F x Ix) in Cx.
  - exists first. split; [done|]. by apply HP.
  - eexists. split; [apply List_last_lookup|]. by apply HP.
Qed.

(** ** Preparing twice *)

Lemma scalar_not_short r : scalar r -> negb ((r =? RuneError) && (Z.of_nat (length (EncodeRune r)) =? 1)) = true.
Proof. intros _. destruct (Z.eqb_spec r RuneError) as [->|]; [reflexivity|done]. Qed.

Lemma ValidString_of_runes rs : Forall scalar rs -> ValidString (of_runes rs) = true.
Proof.
  intros F. unfold ValidString, of_runes. induction F as [|r rs Hr F IH]; [done|]. cbn [map concat].
  rewrite runes_EncodeRune by done. cbn [forallb]. by rewrite scalar_not_short, IH.
Qed.

Lemma map_rune_scalar rs : Forall scalar rs -> Forall scalar (flat_map map_rune rs).
Proof.
  induction 1 as [|r rs Hr F IH]; [done|]. cbn [flat_map]. apply Forall_app. split; [|done]. unfold map_rune.
  destruct (inTable tableB1 r); [done|]. destruct (inTable tableC12 r); constructor; try done. unfold scalar. lia.
Qed.

Definition not_dropped (r : Z) : Prop := inTable tableB1 r = false.

Lemma tables_keep_B1 :
  forallb (fun x => negb (inTable tableB1 x)) compatDecompData && forallb (fun x => negb (inTable tableB1 x)) composeVal = true.
Proof. vm_compute. reflexivity. Qed.

Lemma hangul_kept r : is_jamo r = true \/ is_syllable r = true -> not_dropped r.
Proof.
  intros H. unfold not_dropped. rewrite (inTable_spec (-1)) by reflexivity. cbn [existsb tableB1]. unfold in_interval. cbn [lo hi].
  unfold is_jamo, isHangulL, isHangulV, isHangulT, is_syllable, lBase, lCount, vBase, vCount, tBase, tCount, sBase, sCount,
    nCount, lCount, vCount, tCount in H. lia.
Qed.

Lemma mapped_not_dropped rs : Forall not_dropped (flat_map map_rune rs).
Proof.
  induction rs as [|r rs IH]; [constructor|]. cbn [flat_map]. apply Forall_app. split; [|done]. unfold map_rune.
  destruct (inTable tableB1 r) eqn:B; [constructor|]. destruct (inTable tableC12 r); (constructor; [|constructor]); [|done].
  reflexivity.
Qed.

(** Normalization brings in no character that the Map step deletes. *)
Lemma NFKC_mapped_kept s : Forall not_dropped (map fst (runes (NFKC (mapChars s)))).
Proof.
  pose proof tables_keep_B1 as [KD KC]%andb_true_iff. rewrite forallb_forall in KD, KC.
  apply (normalized_forall compatDecompose).
  - intros r d _ E%compat_origin. eapply Forall_impl; [exact E|]. intros x [J|I]; [apply hangul_kept; by left|].
    unfold not_dropped. specialize (KD x I). by apply negb_true_iff in KD.
  - intros a r c [Sy|I]%composite_origin; [apply hangul_kept; by right|].
    unfold not_dropped. specialize (KC c I). by apply negb_true_iff in KC.
  - unfold mapChars. rewrite runes_of_runes by apply map_rune_scalar, runes_scalar. apply mapped_not_dropped.
Qed.

Lemma mapChars_id s :
  Forall not_dropped (map fst (runes s)) -> Forall (fun r => inTable tableC12 r = false) (map fst (runes s)) ->
  mapChars s = of_runes (map fst (runes s)).
Proof.
  intros B C. unfold mapChars. f_equal. induction (map fst (runes s)) as [|r rs IH]; [done|].
  apply Forall_cons in B as [Br B]. apply Forall_cons in C as [Cr C]. cbn [flat_map]. unfold map_rune at 1.
  unfold not_dropped in Br. rewrite Br, Cr, IH by done. done.
Qed.

Lemma prepare_inv s b t :
  prepare s b = Ok t ->
  ValidString s = true /\ t = NFKC (mapChars s) /\ checkProhibited t b = None /\ checkBidi t = None.
Proof.
  unfold prepare. destruct (ValidString s); [|done]. cbn [negb].
  destruct (checkProhibited _ b) eqn:E1; [done|]. destruct (checkBidi _) eqn:E2; [done|]. by intros [= <-].
Qed.

Lemma NFKC_of_runes s : NFKC s = of_runes (map fst (runes (NFKC s))) /\ Forall scalar (map fst (runes (NFKC s))).
Proof.
  split; [|apply runes_scalar]. change (NFKC s) with (normalized compatDecompose s).
  rewrite (normalized_runes compatDecompose s). reflexivity.
Qed.

(** A prepared string is a fixed point of Map and Normalize. *)
Lemma prepared_fixed s b t : prepare s b = Ok t -> ValidString t = true /\ mapChars t = t /\ NFKC t = t.
Proof.
  intros (_ & -> & P & _)%prepare_inv. destruct (NFKC_of_runes (mapChars s)) as [E S].
  pose proof (NFKC_mapped_kept s) as K. set (n := NFKC (mapChars s)) in *.
  assert (NFKC n = n) as N by apply (normalized_idem compatDecompose).
  split; [rewrite E; by apply ValidString_of_runes|]. split; [|done].
  rewrite mapChars_id; [by rewrite <- E|done|].
  apply check_prohibited_None in P. eapply Forall_impl; [exact P|]. intros r [_ Q]. apply prohibited_by_None in Q.
  by apply Forall_cons in Q as [Q _].
Qed.

(** ** Theorems *)

Lemma permitted_spec b r :
  permitted b r ->
  (b = true -> ~ covered tableA1 r) /\ Forall (fun pt => ~ covered (ptable pt) r) prohibitedTables.
Proof.
  intros [A Q]. split.
  - intros E C. apply inTable_covered in C; [|by left]. by rewrite (A E) in C.
  - apply prohibited_by_None in Q. rewrite List.Forall_forall in Q |- *. intros pt I C.
    apply inTable_covered in C; [by rewrite (Q pt I) in C|]. do 4 right. by apply in_map.
Qed.

(** C38: What SASLprep promises of the strings it returns: they are in Normalization Form KC, contain no
    code point of the prohibited tables of RFC 3454 (nor, for stored strings, of table A.1), and
    satisfy the bidirectional rule of its section 6. *)
Theorem prepare_sound s b t :
  prepare s b = Ok t ->
  NFKC t = t /\
  Forall (fun r => (b = true -> ~ covered tableA1 r) /\ Forall (fun pt => ~ covered (ptable pt) r) prohibitedTables)
    (map fst (runes t)) /\
  bidi_rule (covered tableD1) (covered tableD2) (map fst (runes t)).
Proof.
  intros H. pose proof (prepared_fixed _ _ _ H) as (_ & _ & N). apply prepare_inv in H as (_ & _ & P & B).
  split; [done|]. split.
  - apply check_prohibited_None in P. eapply Forall_impl; [exact P|]. apply permitted_spec.
  - eapply check_bidi_None; [| |exact B]; intros r; apply inTable_covered; [right; right; by left|right; right; right; by left].
Qed.

(** Preparing is idempotent: a prepared string is accepted and returned unchanged, so that a stored
    credential compares equal to the preparation of itself. *)
Theorem prepare_idempotent s b t : prepare s b = Ok t -> prepare t b = Ok t.
Proof.
  intros H. pose proof (prepared_fixed _ _ _ H) as (V & M & N). apply prepare_inv in H as (_ & _ & P & B).
  unfold prepare. rewrite V, M, N, P, B. done.
Qed.

(** A string fit for storage is prepared to the same string as a query. *)
Theorem PrepareStored_Prepare s t : PrepareStored s = Ok t -> Prepare s = Ok t.
Proof.
  unfold PrepareStored, Prepare. intros (V & -> & P & B)%prepare_inv. unfold prepare. rewrite V, B. cbn [negb].
  replace (checkProhibited (NFKC (mapChars s)) false) with (@None prep_err); [done|]. symmetry.
  apply check_prohibited_None in P. apply check_prohibited_None. eapply Forall_impl; [exact P|]. by intros r [_ Q].
Qed.

(** A code point below every table's non-ASCII part: printable ASCII is in none of the tables that map,
    prohibit or order. *)
Definition printable (r : Z) : Prop := 32 <= r <= 126.

Fixpoint misses (t : list interval) (a b : Z) : bool :=
  match t with
  | [] => true
  | v :: t' => ((hi v <? a) || (b <? lo v)) && misses t' a b
  end.

Lemma misses_inTable t a b r :
  intervals_from (-1) t = true -> misses t a b = true -> a <= r <= b -> inTable t r = false.
Proof.
  intros W M R. rewrite (inTable_spec (-1)) by done. clear W. induction t as [|v t IH]; [done|].
  cbn [misses existsb] in *. apply andb_true_iff in M as [M1 M2]. rewrite IH by done. unfold in_interval. lia.
Qed.

Lemma printable_misses :
  Forall (fun t => misses t 32 126 = true) (tableB1 :: tableD1 :: map ptable prohibitedTables).
Proof. repeat constructor; vm_compute; reflexivity. Qed.

Lemma printable_inTable t r :
  In t (tableB1 :: tableD1 :: map ptable prohibitedTables) -> printable r -> inTable t r = false.
Proof.
  intros I R. apply misses_inTable with 32 126; [| |done].
  - pose proof tables_wf as W. rewrite List.Forall_forall in W. apply W. right.
    destruct I as [I|[I|I]]; [by left|right; by left|do 3 right; done].
  - pose proof printable_misses as M. rewrite List.Forall_forall in M. by apply M.
Qed.

(** The bytes of a printable ASCII string. *)
Definition is_printable (s : bytes) : bool := forallb (fun c => (32 <=? bz c) && (bz c <=? 126)) s.

Lemma is_printable_runes s :
  is_printable s = true -> is_ascii s = true /\ Forall printable (map fst (runes s)) /\ ValidString s = true.
Proof.
  intros P. assert (is_ascii s = true) as A.
  { unfold is_printable in P. unfold is_ascii. revert P. apply forallb_mono. intros c. unfold is_ascii_byte. lia. }
  split; [done|]. pose proof (runes_ascii s [] A) as R. rewrite app_nil_r in R. unfold ValidString. rewrite R, app_nil_r. clear R A.
  induction s as [|c s IH]; [done|]. cbn in P. rewrite !andb_true_iff in P. destruct P as [Hc P]. destruct (IH P) as [F V].
  cbn [map forallb fst]. split; [constructor; [unfold printable; lia|done]|]. rewrite V. unfold RuneError. lia.
Qed.

(** Printable ASCII credentials need no preparation: SASLprep accepts them and changes nothing. *)
Theorem Prepare_printable s : is_printable s = true -> Prepare s = Ok s.
Proof.
  intros P. destruct (is_printable_runes s P) as (A & F & V). destruct (runes_ascii_only s A) as [_ E].
  assert (forall t, In t (tableB1 :: tableD1 :: map ptable prohibitedTables) ->
    Forall (fun r => inTable t r = false) (map fst (runes s))) as N.
  { intros t I. eapply Forall_impl; [exact F|]. intros r. by apply printable_inTable. }
  assert (mapChars s = s) as M.
  { rewrite mapChars_id; [done|apply (N tableB1); by left|apply (N tableC12); right; right; by left]. }
  assert (checkProhibited s false = None) as C.
  { apply check_prohibited_None. eapply Forall_impl; [exact F|]. intros r R. split; [done|].
    apply prohibited_by_None, List.Forall_forall. intros pt I. apply printable_inTable; [|done]. right. right. by apply in_map. }
  assert (checkBidi s = None) as B.
  { unfold checkBidi. specialize (N tableD1 ltac:(right; by left)). revert N. generalize (inTable tableD1) as f, (inTable tableD2) as g.
    intros f g N. destruct (map fst (runes s)) as [|r rs]; [done|]. unfold check_bidi.
    replace (existsb f (r :: rs)) with false; [done|]. symmetry. clear -N. induction N as [|x l X N IH]; [done|].
    cbn [existsb]. by rewrite X, IH. }
  unfold Prepare, prepare. rewrite V, M, (proj2 (NFC_NFKC_ascii s A)), C, B. done.
Qed.

Lemma prepare_sound_witness :
  prepare [x70; xc2; xad; xc3; xa9] true = Ok [x70; xc3; xa9] /\ NFKC [x70; xc3; xa9] = [x70; xc3; xa9].
Proof.
  assert (prepare [x70; xc2; xad; xc3; xa9] true = Ok [x70; xc3; xa9]) as E by (vm_compute; reflexivity).
  exact (conj E (proj1 (prepare_sound _ _ _ E))).
Defined.

Lemma prepare_idempotent_witness : prepare [x70; xc3; xa9] true = Ok [x70; xc3; xa9].
Proof.
  assert (prepare [x70; xc2; xad; xc3; xa9] true = Ok [x70; xc3; xa9]) as E by (vm_compute; reflexivity).
  exact (prepare_idempotent _ _ _ E).
Defined.

Lemma Prepare_printable_witness : Prepare ($"correct horse") = Ok ($"correct horse").
Proof. exact (Prepare_printable ($"correct horse") eq_refl). Defined.

End SaslprepFacts.
