(* ===== verification/GenText.v ===== *)
(** * The table generators: text, numbers and sorting

    What internal/unicodenorm/gen/main.go and internal/saslprep/gen/main.go share: hexadecimal numbers
    of strconv and fmt, [strings.Index] and [strings.TrimRight], [sort.Slice], iteration over a map,
    and the arrays they print, with a reader for those. *)
From Stdlib Require Import ZArith Lia Bool.
From stdpp Require Import base list gmap strings sorting.
From S2P Require Import Prelude GoStrings Utf8.

(** ** Strings *)

(** [strings.Index]. *)
Fixpoint Index (s sub : bytes) : option nat :=
  if HasPrefix s sub then Some 0%nat
  else match s with
       | [] => None
       | _ :: s' => S <$> Index s' sub
       end.

(** [strings.TrimRight] for an ASCII cutset. *)
Definition TrimRight (s cutset : bytes) : bytes := rev (TrimLeft (rev s) cutset).

(** ** Numbers *)

Definition hexDigit (c : byte) : option Z :=
  if is_digit c then Some (bz c - 48)
  else if in_range "a"%byte "f"%byte c then Some (bz c - 87)
  else if in_range "A"%byte "F"%byte c then Some (bz c - 55)
  else None.

Definition is_hex (c : byte) : bool := match hexDigit c with Some _ => true | None => false end.
Definition hex_value (s : bytes) : Z := fold_left (fun acc c => acc * 16 + default 0 (hexDigit c)) s 0.

Definition parse_hex (s : bytes) (max : Z) : option Z :=
  match s with
  | [] => None
  | _ => if forallb is_hex s then if hex_value s <=? max then Some (hex_value s) else None else None
  end.

(** [strconv.ParseInt(s, 16, 32)]; [None] is any error. *)
Definition ParseRune (s : bytes) : option Z :=
  match s with
  | c :: s' =>
      if c =b "-"%byte then Z.opp <$> parse_hex s' (2 ^ 31)
      else if c =b "+"%byte then parse_hex s' (2 ^ 31 - 1)
      else parse_hex s (2 ^ 31 - 1)
  | [] => None
  end.

(** The verb [%X] of package fmt. *)
Definition upper_hex (d : Z) : byte := zb (if d <? 10 then 48 + d else 55 + d).
Fixpoint hex_digits (fuel : nat) (n : Z) : bytes :=
  match fuel with
  | O => [upper_hex (n mod 16)]
  | S f => if n <? 16 then [upper_hex n] else hex_digits f (n / 16) ++ [upper_hex (n mod 16)]
  end.
Definition verb_X (n : Z) : bytes :=
  if n <? 0 then "-"%byte :: hex_digits (Z.to_nat (Z.log2 (- n))) (- n) else hex_digits (Z.to_nat (Z.log2 n)) n.

(** ** Sorting and maps *)

(** [sort.Slice] with [less] comparing the keys of two elements. It is not stable: elements with the
    same key come in any order. *)
Class SliceSort : Type := {
  sort_Slice {A} (key : A -> Z) : list A -> list A;
  sort_Slice_perm {A} (key : A -> Z) l : sort_Slice key l ≡ₚ l;
  sort_Slice_sorted {A} (key : A -> Z) l : StronglySorted (fun a b => key a <= key b) (sort_Slice key l)
}.

(** [range] over a map visits its entries in no order the language defines; a loop is named by the
    number [site]. *)
Class MapRange : Type := {
  range_map {V} (site : nat) (m : gmap Z V) : list (Z * V);
  range_map_perm {V} site (m : gmap Z V) : range_map site m ≡ₚ map_to_list m
}.

(** ** Arrays *)

(** The elements of an array, a line break before every [per]th; [i] elements have been printed. *)
Fixpoint print_elements {A} (per : nat) (show : A -> bytes) (i : nat) (l : list A) : bytes :=
  match l with
  | [] => []
  | x :: l' => (if (i mod per =? 0)%nat then [LF; x09] else []) ++ show x ++ print_elements per show (S i) l'
  end.

Definition show_hex (n : Z) : bytes := $"0x" ++ verb_X n ++ $", ".
Definition show_dec (n : Z) : bytes := Itoa n ++ $", ".

(** ** A reader of the arrays, as specification: the number literals between commas *)

Definition layout : bytes := [SP; x09; LF; "{"%byte; "}"%byte].
Definition literal (s : bytes) : option Z :=
  if HasPrefix s ($"0x") then parse_hex (drop 2 s) (2 ^ 64 - 1) else ParseUint s (2 ^ 64 - 1).
Definition numbers (s : bytes) : list Z :=
  omap (fun p => literal (TrimRight (TrimLeft p layout) layout)) (Split s ","%byte).

(** ** Lemmas: numbers *)

Lemma hexDigit_upper d : 0 <= d < 16 -> hexDigit (upper_hex d) = Some d.
Proof.
  intros H. assert (exists n, (n < 16)%nat /\ d = Z.of_nat n) as (n & Hn & ->) by (exists (Z.to_nat d); lia).
  do 16 (destruct n as [|n]; [vm_compute; reflexivity|]). lia.
Qed.

Lemma hex_value_snoc s c : hex_value (s ++ [c]) = hex_value s * 16 + default 0 (hexDigit c).
Proof. unfold hex_value. by rewrite fold_left_app. Qed.

Lemma is_hex_upper d : 0 <= d < 16 -> is_hex (upper_hex d) = true.
Proof. intros H. unfold is_hex. by rewrite hexDigit_upper. Qed.

Lemma hex_digits_spec fuel n :
  0 <= n -> n < 2 ^ Z.of_nat (S fuel) ->
  hex_value (hex_digits fuel n) = n /\ forallb is_hex (hex_digits fuel n) = true /\ hex_digits fuel n <> [].
Proof.
  revert n. induction fuel as [|f IH]; intros n H0 Hn; cbn [hex_digits].
  - change (2 ^ Z.of_nat 1) with 2 in Hn. rewrite Z.mod_small by lia. unfold hex_value. cbn [fold_left forallb].
    rewrite is_hex_upper, hexDigit_upper by lia. cbn. split_and!; [lia|done|done].
  - destruct (Z.ltb_spec n 16) as [L|L].
    { unfold hex_value. cbn [fold_left forallb]. rewrite is_hex_upper, hexDigit_upper by lia. cbn. split_and!; [lia|done|done]. }
    pose proof (Z.mod_pos_bound n 16 ltac:(lia)).
    rewrite Nat2Z.inj_succ, Z.pow_succ_r in Hn by lia.
    destruct (IH (n / 16)) as (Hv & Hd & _); [apply Z.div_pos; lia|apply Z.div_lt_upper_bound; lia|].
    rewrite hex_value_snoc, Hv, hexDigit_upper, forallb_app, Hd by lia. cbn [forallb andb default].
    rewrite is_hex_upper by lia. split_and!; [pose proof (Z_div_mod_eq_full n 16); cbn; lia|done|].
    by destruct (hex_digits f (n / 16)).
Qed.

Lemma verb_X_spec n : 0 <= n -> hex_value (verb_X n) = n /\ forallb is_hex (verb_X n) = true /\ verb_X n <> [].
Proof.
  intros H. unfold verb_X. rewrite (proj2 (Z.ltb_ge n 0)) by done. apply hex_digits_spec; [done|].
  destruct (decide (n = 0)) as [->|]; [done|]. pose proof (Z.log2_nonneg n).
  pose proof (Z.log2_spec n ltac:(lia)) as [_ L]. by replace (Z.of_nat (S (Z.to_nat (Z.log2 n)))) with (Z.succ (Z.log2 n)) by lia.
Qed.

Lemma parse_hex_verb_X n max : 0 <= n <= max -> parse_hex (verb_X n) max = Some n.
Proof.
  intros H. destruct (verb_X_spec n ltac:(lia)) as (V & D & N). unfold parse_hex.
  destruct (verb_X n) as [|c s]; [done|]. rewrite D, V. by rewrite (proj2 (Z.leb_le n max)) by lia.
Qed.

Lemma hexDigit_range c : 0 <= default 0 (hexDigit c) < 16.
Proof. destruct c; vm_compute; split; congruence. Qed.

Lemma hex_value_bounds s : 0 <= hex_value s < 16 ^ Z.of_nat (length s).
Proof.
  induction s as [|c s IH] using rev_ind; [by vm_compute|].
  rewrite hex_value_snoc, length_app, Nat2Z.inj_add, Z.pow_add_r by lia. cbn [length]. change (16 ^ Z.of_nat 1) with 16.
  pose proof (hexDigit_range c). nia.
Qed.

Lemma parse_hex_Some s max n : parse_hex s max = Some n -> forallb is_hex s = true /\ n = hex_value s /\ s <> [].
Proof. unfold parse_hex. destruct s; [done|]. destruct (forallb _ _); [|done]. by destruct (_ <=? _); intros [= <-]. Qed.

Lemma is_hex_sign c : is_hex c = true -> (c =b "-"%byte) = false /\ (c =b "+"%byte) = false.
Proof. destruct c; vm_compute; intros; try done; by split. Qed.

(** Up to six hexadecimal digits are a rune. *)
Lemma ParseRune_digits s :
  forallb is_hex s = true -> s <> [] -> (length s <= 6)%nat -> ParseRune s = Some (hex_value s).
Proof.
  intros F N L. destruct s as [|c s]; [done|]. unfold ParseRune.
  destruct (is_hex_sign c) as [-> ->]; [cbn [forallb] in F; by apply andb_true_iff in F as [? _]|].
  unfold parse_hex. rewrite F. pose proof (hex_value_bounds (c :: s)) as B.
  assert (16 ^ Z.of_nat (length (c :: s)) <= 16 ^ 6) as P by (apply Z.pow_le_mono_r; lia).
  by rewrite (proj2 (Z.leb_le _ _)) by lia.
Qed.

(** ** Lemmas: strings *)

Lemma HasPrefix_prefix s t : HasPrefix (s ++ t) s = true.
Proof. induction s as [|c s IH]; [by destruct t|]. cbn. by rewrite byte_eqb_refl. Qed.

Lemma HasPrefix_iff s p : HasPrefix s p = true <-> exists t, s = p ++ t.
Proof.
  split; [|intros [t ->]; apply HasPrefix_prefix].
  revert s. induction p as [|c p IH]; intros s H; [by exists s|]. destruct s as [|d s]; [done|].
  cbn in H. destruct (byte_eqb_spec c d) as [->|]; [|done]. destruct (IH s H) as [t ->]. by exists t.
Qed.

(** [Index] finds the first occurrence. *)
Lemma Index_spec s sub n :
  Index s sub = Some n <->
  (exists a b, s = a ++ sub ++ b /\ length a = n) /\ (forall a b, s = a ++ sub ++ b -> (n <= length a)%nat).
Proof.
  revert n. induction s as [|c s IH]; intros n.
  - cbn [Index]. destruct (HasPrefix [] sub) eqn:P.
    + apply HasPrefix_iff in P as [t E]. symmetry in E. apply app_nil in E as [-> ->]. split.
      * intros [= <-]. split; [by exists [], []|]. lia.
      * intros [(a & b & E & L) _]. destruct a; [|done]. cbn in L. by subst.
    + split; [done|]. intros [(a & b & E & _) _]. destruct a; [|done]. cbn in E.
      rewrite E in P. by rewrite HasPrefix_prefix in P.
  - cbn [Index]. destruct (HasPrefix (c :: s) sub) eqn:P.
    + apply HasPrefix_iff in P as [t E]. split.
      * intros [= <-]. split; [by exists [], t|]. lia.
      * intros [_ M]. specialize (M [] t E). cbn in M. f_equal. lia.
    + assert (forall b, c :: s <> sub ++ b) as N.
      { intros b E. assert (HasPrefix (c :: s) sub = true) by (apply HasPrefix_iff; by exists b). congruence. }
      destruct (Index s sub) as [m|] eqn:E; cbn.
      * destruct (proj1 (IH m) eq_refl) as [(a & b & -> & La) M]. split.
        -- intros [= <-]. split; [exists (c :: a), b; cbn; by rewrite La|].
           intros [|d a'] b' E'; [by apply N in E'|]. injection E' as _ E'. apply M in E'. cbn. lia.
        -- intros [(a' & b' & E' & L') M']. specialize (M' (c :: a) b eq_refl). cbn in M'.
           destruct a' as [|d a']; [by apply N in E'|]. injection E' as _ E'. apply M in E'. cbn in L'. f_equal. lia.
      * split; [done|]. intros [(a & b & E' & L) M]. destruct a as [|d a]; [by apply N in E'|]. injection E' as _ E'.
        assert (None = Some (length a)) as X; [|done]. apply IH. split; [by exists a, b|].
        intros a' b' E2. rewrite E2 in M. specialize (M (c :: a') b' eq_refl). cbn in M, L. lia.
Qed.

(** ** Lemmas: the arrays read back *)

Definition clean (s : bytes) : bool := forallb (fun c => negb (mem_byte c layout) && negb (c =b ","%byte)) s.
Definition spaced (s : bytes) : bool := forallb (fun c => mem_byte c layout) s.

Lemma TrimLeft_spaced p s cutset : forallb (fun c => mem_byte c cutset) p = true -> TrimLeft (p ++ s) cutset = TrimLeft s cutset.
Proof. induction p as [|c p IH]; [done|]. cbn. intros [-> H]%andb_true_iff. by apply IH. Qed.

Lemma TrimLeft_clean s : clean s = true -> TrimLeft s layout = s.
Proof.
  destruct s as [|c s]; [done|]. unfold clean. cbn [forallb TrimLeft]. by destruct (mem_byte c layout).
Qed.

Lemma forallb_rev {A} (f : A -> bool) l : forallb f (rev l) = forallb f l.
Proof. induction l as [|x l IH]; [done|]. cbn. rewrite forallb_app, IH. cbn. by rewrite andb_true_r, andb_comm. Qed.

Lemma trim_literal p q s : spaced p = true -> spaced q = true -> clean s = true ->
  TrimRight (TrimLeft (p ++ s ++ q) layout) layout = s.
Proof.
  intros P Q C. rewrite TrimLeft_spaced by done. destruct s as [|c s].
  - cbn [app]. replace (TrimLeft q layout) with (@nil byte); [done|]. symmetry. rewrite <- (app_nil_r q). by rewrite TrimLeft_spaced.
  - assert (TrimLeft ((c :: s) ++ q) layout = (c :: s) ++ q) as ->.
    { apply TrimLeft_head. unfold clean in C. cbn [forallb] in C. by apply andb_true_iff in C as [[?%negb_true_iff _]%andb_true_iff _]. }
    unfold TrimRight. rewrite rev_app_distr, TrimLeft_spaced by (by rewrite forallb_rev).
    rewrite TrimLeft_clean by (unfold clean; by rewrite forallb_rev). apply rev_involutive.
Qed.

Lemma spaced_no_comma s : spaced s = true -> no_byte ","%byte s = true.
Proof. apply forallb_mono. intros c. destruct c; vm_compute; done. Qed.

Lemma clean_no_comma s : clean s = true -> no_byte ","%byte s = true.
Proof. apply forallb_mono. intros c. by intros [_ ?]%andb_true_iff. Qed.

(** One literal, with layout around it, and the comma behind it. *)
Lemma numbers_literal p s q rest n :
  spaced p = true -> spaced q = true -> clean s = true -> literal s = Some n ->
  numbers (p ++ s ++ q ++ ","%byte :: rest) = n :: numbers rest.
Proof.
  intros P Q C L. unfold numbers. replace (p ++ s ++ q ++ ","%byte :: rest) with ((p ++ s ++ q) ++ ","%byte :: rest) by (by rewrite <- !app_assoc).
  rewrite Split_app.
  - cbn [omap list_omap]. by rewrite trim_literal, L.
  - unfold no_byte. rewrite !forallb_app, !andb_true_iff.
    split; [|split]; [by apply spaced_no_comma|by apply clean_no_comma|by apply spaced_no_comma].
Qed.

Lemma numbers_spaced p : spaced p = true -> numbers p = [].
Proof.
  intros P. unfold numbers. rewrite Split_no by (by apply spaced_no_comma). cbn [omap list_omap].
  pose proof (trim_literal p [] [] P eq_refl eq_refl) as T. cbn [app] in T. rewrite app_nil_r in T. by rewrite T.
Qed.

(** An element's text holds its literals between layout and commas. *)
Definition shows {A} (show : A -> bytes) (values : A -> list Z) (x : A) : Prop :=
  forall p, spaced p = true -> exists q, spaced q = true /\
    forall rest, numbers (p ++ show x ++ rest) = values x ++ numbers (q ++ rest).

Lemma numbers_elements {A} (show : A -> bytes) values per l :
  Forall (shows show values) l ->
  forall i p, spaced p = true -> exists q, spaced q = true /\
    forall rest, numbers (p ++ print_elements per show i l ++ rest) = concat (map values l) ++ numbers (q ++ rest).
Proof.
  induction 1 as [|x l Hx Hl IH]; intros i p P; [by exists p|]. cbn [print_elements map concat].
  set (br := if (i mod per =? 0)%nat then [LF; x09] else []). assert (spaced (p ++ br) = true) as P'.
  { unfold spaced, br. rewrite forallb_app. apply andb_true_iff. split; [done|]. by case_match. }
  destruct (Hx _ P') as (q & Q & E). destruct (IH (S i) q Q) as (q' & Q' & E'). exists q'. split; [done|].
  intros rest. rewrite <- !app_assoc, (app_assoc p br), E. by rewrite E', app_assoc.
Qed.

Lemma is_hex_clean s : forallb is_hex s = true -> clean s = true.
Proof. apply forallb_mono. intros c. destruct c; vm_compute; done. Qed.

Lemma literal_hex n : 0 <= n < 2 ^ 64 -> clean ($"0x" ++ verb_X n) = true /\ literal ($"0x" ++ verb_X n) = Some n.
Proof.
  intros H. split.
  - unfold clean. rewrite forallb_app. apply andb_true_iff. split; [done|]. apply is_hex_clean, verb_X_spec. lia.
  - unfold literal. rewrite HasPrefix_prefix. change (drop 2 ($"0x" ++ verb_X n)) with (verb_X n). apply parse_hex_verb_X. lia.
Qed.

Lemma shows_hex n : 0 <= n < 2 ^ 64 -> shows show_hex (fun n => [n]) n.
Proof.
  intros H p P. exists [SP]. split; [done|]. intros rest. destruct (literal_hex n H) as [C L].
  unfold show_hex. change ($", ") with ([] ++ ","%byte :: [SP]).
  replace (p ++ ($"0x" ++ verb_X n ++ [] ++ ","%byte :: [SP]) ++ rest)
    with (p ++ ($"0x" ++ verb_X n) ++ [] ++ ","%byte :: [SP] ++ rest) by (by rewrite <- !app_assoc).
  by rewrite (numbers_literal p _ [] _ n).
Qed.

Lemma literal_dec n : 0 <= n < 2 ^ 64 -> clean (Itoa n) = true /\ literal (Itoa n) = Some n.
Proof.
  intros H. unfold Itoa, FormatInt. rewrite (proj2 (Z.ltb_ge n 0)) by lia.
  pose proof (FormatUint_digits n ltac:(lia)) as D. split.
  - revert D. apply forallb_mono. intros c. destruct c; vm_compute; done.
  - unfold literal. destruct (HasPrefix (FormatUint n) ($"0x")) eqn:E; [|apply ParseUint_FormatUint; lia].
    apply HasPrefix_iff in E as [t E]. rewrite E in D. by cbn in D.
Qed.

Lemma shows_dec n : 0 <= n < 2 ^ 64 -> shows show_dec (fun n => [n]) n.
Proof.
  intros H p P. exists [SP]. split; [done|]. intros rest. destruct (literal_dec n H) as [C L].
  unfold show_dec. change ($", ") with ([] ++ ","%byte :: [SP]).
  replace (p ++ (Itoa n ++ [] ++ ","%byte :: [SP]) ++ rest)
    with (p ++ Itoa n ++ [] ++ ","%byte :: [SP] ++ rest) by (by rewrite <- !app_assoc).
  by rewrite (numbers_literal p _ [] _ n).
Qed.

Lemma concat_singletons {A} (l : list A) : concat (map (fun x => [x]) l) = l.
Proof. induction l as [|x l IH]; [done|]. cbn. by rewrite IH. Qed.

(** ** Lemmas: sorting *)

Section Sorted.
Context `{SliceSort} {A : Type} (key : A -> Z).
Implicit Types l : list A.

Lemma sort_Slice_in l x : In x (sort_Slice key l) <-> In x l.
Proof. rewrite <- !list_elem_of_In. by rewrite (sort_Slice_perm key l). Qed.

Lemma sort_Slice_keys lo l :
  NoDup (map key l) -> Forall (fun x => lo < key x) l -> sorted_from lo (map key (sort_Slice key l)) = true.
Proof.
  intros N F. pose proof (sort_Slice_perm key l) as P. pose proof (sort_Slice_sorted key l) as S.
  rewrite <- P in F. assert (NoDup (map key (sort_Slice key l))) as N' by (by rewrite P). clear N P.
  revert lo F N'. induction S as [|x s S IH L]; intros lo F N; [done|]. cbn in N |- *.
  apply Forall_cons in F as [Fx F]. apply NoDup_cons in N as [Nx N]. apply andb_true_iff. split; [lia|].
  apply IH; [|done]. apply Forall_forall. intros y Hy. rewrite Forall_forall in L. specialize (L y Hy).
  assert (key x <> key y); [|lia]. intros E. apply Nx. rewrite E. by apply list_elem_of_fmap_2.
Qed.

End Sorted.

(** With different keys the order is determined, whatever the sort. *)
Lemma sort_Slice_unique (S1 S2 : SliceSort) {A} (key : A -> Z) l l' :
  l ≡ₚ l' -> NoDup (map key l) -> @sort_Slice S1 A key l = @sort_Slice S2 A key l'.
Proof.
  intros P N. apply (StronglySorted_unique_strong (fun a b => key a <= key b)).
  - intros x y Hx Hy L L'. rewrite sort_Slice_perm in Hx. rewrite sort_Slice_perm in Hy. rewrite <- P in Hy.
    apply list_elem_of_lookup in Hx as [i Hi]. apply list_elem_of_lookup in Hy as [j Hj].
    rewrite NoDup_alt in N. assert (i = j) as ->; [|congruence].
    apply (N i j (key x)); rewrite list_lookup_fmap; [by rewrite Hi|rewrite Hj; cbn; f_equal; lia].
  - apply sort_Slice_sorted.
  - apply sort_Slice_sorted.
  - rewrite sort_Slice_perm. rewrite P. symmetry. apply sort_Slice_perm.
Qed.

(** ** The classes are inhabited: merge sort, and the order of the finite maps *)

#[local] Instance key_le_total {A} (key : A -> Z) : Total (fun a b => key a <= key b).
Proof. intros a b. lia. Qed.
#[local] Instance key_le_trans {A} (key : A -> Z) : Transitive (fun a b => key a <= key b).
Proof. intros a b c. lia. Qed.

#[local] Instance key_le_dec {A} (key : A -> Z) : RelDecision (fun a b => key a <= key b).
Proof. intros a b. apply Z.le_dec. Defined.

Definition merge_Slice : SliceSort := {|
  sort_Slice A key l := merge_sort (fun a b => key a <= key b) l;
  sort_Slice_perm A key l := merge_sort_Permutation _ l;
  sort_Slice_sorted A key l := StronglySorted_merge_sort _ l
|}.

Definition list_range : MapRange := {|
  range_map V site m := map_to_list m;
  range_map_perm V site m := Permutation.Permutation_refl _
|}.

Definition reverse_range : MapRange := {|
  range_map V site m := reverse (map_to_list m);
  range_map_perm V site m := reverse_Permutation _
|}.

(** ** Lemmas: text of printable words *)

Lemma TrimSpace_words sp s : forallb (fun c => c =b SP) sp = true -> is_ascii s = true ->
  (exists c t, s = c :: t /\ is_graph c = true) -> (exists t d, s = t ++ [d] /\ is_graph d = true) ->
  TrimSpace (sp ++ s) = s.
Proof.
  intros P A (c & t & Ec & Gc) (t' & d & Ed & Gd). set (f := fun c : byte => (bz c, [c])).
  assert (forall c t, is_graph c = true -> drop_space (map f (c :: t)) = map f (c :: t)) as K.
  { intros x l G. cbn. by rewrite is_graph_not_space. }
  assert (drop_space (runes (sp ++ s)) = map f s) as D.
  { rewrite <- (app_nil_r (sp ++ s)), runes_ascii, app_nil_r.
    - rewrite map_app. clear Ed. induction sp as [|x sp IH]; [by rewrite Ec; apply K|]. cbn in P.
      apply andb_true_iff in P as [X P]. destruct (byte_eqb_spec x SP) as [->|]; [|done]. by apply IH.
    - unfold is_ascii. rewrite forallb_app. apply andb_true_iff. split; [|done]. revert P. apply forallb_mono. intros x. destruct x; vm_compute; done. }
  unfold TrimSpace. rewrite D, <- map_rev, Ed, rev_app_distr. cbn [rev app]. rewrite K by done.
  rewrite <- map_rev. cbn [rev]. rewrite rev_involutive. generalize (t' ++ [d]). intros l.
  induction l as [|x l IH]; [done|]. cbn. by rewrite IH.
Qed.

Lemma Join_words ws : ws <> [] -> Forall (fun w => forallb is_graph w = true /\ w <> []) ws ->
  is_ascii (Join ws [SP]) = true /\
  (exists c t, Join ws [SP] = c :: t /\ is_graph c = true) /\ (exists t d, Join ws [SP] = t ++ [d] /\ is_graph d = true).
Proof.
  intros N F. induction F as [|w ws [G Nw] F IH]; [done|].
  assert ((exists c t, w = c :: t /\ is_graph c = true) /\ exists t d, w = t ++ [d] /\ is_graph d = true) as [(c & t & -> & Gc) (t' & d & Ed & Gd)].
  { split; [destruct w as [|c w]; [done|]; exists c, w; cbn in G; by apply andb_true_iff in G as [? _]|].
    destruct w as [|d w _] using rev_ind; [done|]. exists w, d. rewrite forallb_app in G. apply andb_true_iff in G as [_ G].
    cbn in G. by rewrite andb_true_r in G. }
  destruct ws as [|v ws].
  - cbn [Join]. split_and!; [by apply is_graph_ascii|by eauto|by rewrite Ed; eauto].
  - change (Join ((c :: t) :: v :: ws) [SP]) with ((c :: t) ++ SP :: Join (v :: ws) [SP]).
    destruct (IH ltac:(done)) as (A & _ & t2 & d2 & E2 & G2). split_and!.
    + unfold is_ascii. rewrite forallb_app. apply andb_true_iff. split; [by apply is_graph_ascii|exact A].
    + exists c, (t ++ SP :: Join (v :: ws) [SP]). by split.
    + exists ((c :: t) ++ SP :: t2), d2. split; [|done]. rewrite E2. by rewrite <- app_assoc.
Qed.

Lemma TrimRight_none s cutset : forallb (fun c => negb (mem_byte c cutset)) s = true -> TrimRight s cutset = s.
Proof.
  intros F. unfold TrimRight. destruct (rev s) as [|c t] eqn:E; [by apply (f_equal (@rev byte)) in E; rewrite rev_involutive in E|].
  rewrite TrimLeft_head; [rewrite <- E; apply rev_involutive|]. rewrite <- forallb_rev, E in F. cbn in F.
  by apply andb_true_iff in F as [?%negb_true_iff _].
Qed.

(** A code point in hexadecimal, at least four digits. *)
Definition hex4 (n : Z) : bytes := repeat "0"%byte (4 - length (verb_X n)) ++ verb_X n.

Lemma hex_value_zeros k s : hex_value (repeat "0"%byte k ++ s) = hex_value s.
Proof. unfold hex_value. induction k as [|k IH]; [done|]. cbn. exact IH. Qed.

Lemma hex_digits_length fuel n k : 0 <= n < 16 ^ Z.of_nat (S k) -> (length (hex_digits fuel n) <= S k)%nat.
Proof.
  revert n k. induction fuel as [|fuel IH]; intros n k H; cbn [hex_digits]; [cbn; lia|].
  destruct (Z.ltb_spec n 16); [cbn; lia|]. rewrite length_app. cbn [length]. destruct k as [|k]; [change (16 ^ Z.of_nat 1) with 16 in H; lia|].
  rewrite Nat2Z.inj_succ, Z.pow_succ_r in H by lia. specialize (IH (n / 16) k).
  assert (0 <= n / 16 < 16 ^ Z.of_nat (S k)) as B by (split; [apply Z.div_pos; lia|apply Z.div_lt_upper_bound; lia]). specialize (IH B). lia.
Qed.

Lemma hex4_spec n : 0 <= n < 2 ^ 24 ->
  ParseRune (hex4 n) = Some n /\ forallb is_graph (hex4 n) = true /\ hex4 n <> [] /\ forallb is_hex (hex4 n) = true.
Proof.
  intros H. destruct (verb_X_spec n ltac:(lia)) as (V & D & N). unfold hex4. set (k := (4 - length (verb_X n))%nat).
  assert (forallb is_hex (repeat "0"%byte k ++ verb_X n) = true) as F.
  { rewrite forallb_app, D, andb_true_r. induction k; [done|]. cbn. done. }
  assert (repeat "0"%byte k ++ verb_X n <> []) as N' by (intros [_ ?]%app_nil; done).
  split_and!; [|revert F; apply forallb_mono; intros c; destruct c; vm_compute; done|done|done].
  rewrite ParseRune_digits; [by rewrite hex_value_zeros, V|done|done|]. rewrite length_app, repeat_length.
  assert (length (verb_X n) <= 6)%nat; [|unfold k; lia]. unfold verb_X. rewrite (proj2 (Z.ltb_ge n 0)) by lia.
  apply hex_digits_length. change (16 ^ Z.of_nat 6) with (2 ^ 24). lia.
Qed.
