(* ===== verification/SaslprepGen.v ===== *)
(** * internal/saslprep/gen: the generator of the SASLprep tables

    main.go: the tables of RFC 3454 are cut out of its text, their rows parsed, the intervals merged and
    printed. Fetching the text and gofmt are outside: the text is an argument of [raw_source], the
    formatter one of [main]. An error carries what the message names. *)
From Stdlib Require Import ZArith Lia Bool.
From stdpp Require Import base list gmap strings sorting.
From S2P Require Import Prelude GoStrings Utf8 SaslprepTables Saslprep GenText.
Import SaslprepFacts.

Definition outPath : bytes := $"internal/saslprep/tables.go".

Record tableSpec : Type := { rfcName : bytes; varName : bytes; doc : bytes }.

Definition quoted (s : bytes) : bytes := x22 :: s ++ [x22].

Definition tableSpecs : list tableSpec := [
  {| rfcName := $"A.1"; varName := $"tableA1"; doc := $"Table A.1: unassigned code points in Unicode 3.2." |};
  {| rfcName := $"B.1"; varName := $"tableB1"; doc := $"Table B.1: commonly mapped to nothing." |};
  {| rfcName := $"C.1.2"; varName := $"tableC12"; doc := $"Table C.1.2: non-ASCII space characters." |};
  {| rfcName := $"C.2.1"; varName := $"tableC21"; doc := $"Table C.2.1: ASCII control characters." |};
  {| rfcName := $"C.2.2"; varName := $"tableC22"; doc := $"Table C.2.2: non-ASCII control characters." |};
  {| rfcName := $"C.3"; varName := $"tableC3"; doc := $"Table C.3: private use." |};
  {| rfcName := $"C.4"; varName := $"tableC4"; doc := $"Table C.4: non-character code points." |};
  {| rfcName := $"C.5"; varName := $"tableC5"; doc := $"Table C.5: surrogate codes." |};
  {| rfcName := $"C.6"; varName := $"tableC6"; doc := $"Table C.6: inappropriate for plain text." |};
  {| rfcName := $"C.7"; varName := $"tableC7"; doc := $"Table C.7: inappropriate for canonical representation." |};
  {| rfcName := $"C.8"; varName := $"tableC8"; doc := $"Table C.8: change display properties or are deprecated." |};
  {| rfcName := $"C.9"; varName := $"tableC9"; doc := $"Table C.9: tagging characters." |};
  {| rfcName := $"D.1"; varName := $"tableD1";
     doc := $"Table D.1: characters with bidirectional property " ++ quoted ($"R") ++ $" or " ++ quoted ($"AL") ++ $"." |};
  {| rfcName := $"D.2"; varName := $"tableD2";
     doc := $"Table D.2: characters with bidirectional property " ++ quoted ($"L") ++ $"." |}
].

Inductive gen_err : Type :=
| EStartMarker (name : bytes)
| EEndMarker (name : bytes)
| EBadCodePoint (name line : bytes)
| ERangeOrder (name line : bytes)
| ENoRows (name : bytes)
| EGofmt.

(** ** The text of a table *)

Definition startMarker (name : bytes) : bytes := $"----- Start Table " ++ name ++ $" -----".
Definition endMarker (name : bytes) : bytes := $"----- End Table " ++ name ++ $" -----".

Definition extractTable (text name : bytes) : result gen_err bytes :=
  match Index text (startMarker name) with
  | None => Err (EStartMarker name)
  | Some startIdx =>
      let rest := drop (startIdx + length (startMarker name)) text in
      match Index rest (endMarker name) with
      | None => Err (EEndMarker name)
      | Some endIdx => Ok (take endIdx rest)
      end
  end.

(** ** Rows: the regular expression [rowPattern], anchored at both ends: two to six hexadecimal digits,
    optionally a hyphen and two to six more, optionally a semicolon and anything but a line break. What
    follows a group is not a hexadecimal digit, so a group takes a whole run of them. *)

Fixpoint hex_run (s : bytes) : bytes * bytes :=
  match s with
  | c :: s' => if is_hex c then let (h, rest) := hex_run s' in (c :: h, rest) else ([], s)
  | [] => ([], [])
  end.

Definition two_to_six (h : bytes) : bool := (2 <=? length h)%nat && (length h <=? 6)%nat.

(** What may follow the code points: nothing, or a semicolon and the rest of the line. *)
Definition row_tail (s : bytes) : bool :=
  match s with
  | [] => true
  | c :: s' => (c =b ";"%byte) && no_byte LF s'
  end.

(** The two groups of a match; the second is empty when it took no part. *)
Definition rowPattern (line : bytes) : option (bytes * bytes) :=
  let (first, rest) := hex_run line in
  if negb (two_to_six first) then None
  else if row_tail rest then Some (first, [])
  else match rest with
       | c :: rest' =>
           let (second, rest'') := hex_run rest' in
           if (c =b "-"%byte) && two_to_six second && row_tail rest'' then Some (first, second) else None
       | [] => None
       end.

(** One line of a body: a row, or noise. *)
Definition parseRow (name line : bytes) : result gen_err (option interval) :=
  let line := TrimSpace line in
  match line with
  | [] => Ok None
  | _ =>
      match rowPattern line with
      | None => Ok None
      | Some (m1, m2) =>
          match ParseRune m1 with
          | None => Err (EBadCodePoint name line)
          | Some lo =>
              match (match m2 with [] => Some lo | _ => ParseRune m2 end) with
              | None => Err (EBadCodePoint name line)
              | Some hi => if hi <? lo then Err (ERangeOrder name line) else Ok (Some (Iv lo hi))
              end
          end
      end
  end.

Fixpoint parseRows (name : bytes) (lines : list bytes) : result gen_err (list interval) :=
  match lines with
  | [] => Ok []
  | line :: lines' =>
      let? row := parseRow name line in
      let? ivs := parseRows name lines' in
      Ok (option_list row ++ ivs)
  end.

Definition parseTableBody (name body : bytes) : result gen_err (list interval) :=
  let? ivs := parseRows name (Split body LF) in
  match ivs with
  | [] => Err (ENoRows name)
  | _ => Ok ivs
  end.

(** ** Merging: [out] is the output so far, its last interval first. Bounds have at most six digits, so
    [hi + 1] does not leave the 32 bits of a rune. *)
Definition merge_interval (out : list interval) (iv : interval) : list interval :=
  match out with
  | prev :: out' =>
      if lo iv <=? hi prev + 1 then
        if hi prev <? hi iv then Iv (lo prev) (hi iv) :: out' else out
      else iv :: out
  | [] => [iv]
  end.

Definition normalize `{SliceSort} (ivs : list interval) : list interval :=
  rev (fold_left merge_interval (sort_Slice lo ivs) []).

(** ** The generated source *)

Definition show_interval (v : interval) : bytes :=
  $"{0x" ++ verb_X (lo v) ++ $", 0x" ++ verb_X (hi v) ++ $"}, ".

Definition table_source (spec : tableSpec) (ivs : list interval) : bytes :=
  $"// " ++ doc spec ++ [LF] ++
  $"var " ++ varName spec ++ $" = [...]interval{" ++ print_elements 6 show_interval 0 ivs ++ [LF] ++ $"}" ++ [LF; LF].

Definition file_head : bytes :=
  $"// Code generated by gen/main.go. DO NOT EDIT." ++ [LF] ++
  $"// Source: RFC 3454 (" ++ x22 :: $"Preparation of Internationalized Strings" ++ [LF] ++
  $"// ('stringprep')" ++ x22 :: $"), Unicode 3.2 -- as referenced by RFC 4013 (SASLprep):" ++ [LF] ++
  $"//   https://www.rfc-editor.org/rfc/rfc3454.txt" ++ [LF; LF] ++
  $"package saslprep" ++ [LF; LF] ++
  $"// interval is a closed, inclusive code point range [lo, hi]." ++ [LF] ++
  $"type interval struct {" ++ [LF; x09] ++ $"lo, hi int32" ++ [LF] ++ $"}" ++ [LF; LF].

Section Main.
Context `{SliceSort}.

Definition table_of (text : bytes) (spec : tableSpec) : result gen_err (list interval) :=
  let? body := extractTable text (rfcName spec) in
  let? ivs := parseTableBody (rfcName spec) body in
  Ok (normalize ivs).

Fixpoint table_sources (text : bytes) (specs : list tableSpec) : result gen_err bytes :=
  match specs with
  | [] => Ok []
  | spec :: specs' =>
      let? ivs := table_of text spec in
      let? rest := table_sources text specs' in
      Ok (table_source spec ivs ++ rest)
  end.

Definition raw_source (text : bytes) : result gen_err bytes :=
  let? tables := table_sources text tableSpecs in
  Ok (file_head ++ tables).

(** The file written, and its name. *)
Definition main (gofmt : bytes -> option bytes) (text : bytes) : result gen_err (bytes * bytes) :=
  let? src := raw_source text in
  match gofmt src with
  | Some formatted => Ok (outPath, formatted)
  | None => Err EGofmt
  end.

End Main.

(** ** Lemmas: rows *)

Module SaslprepGenFacts.

Lemma hex_run_spec s : s = fst (hex_run s) ++ snd (hex_run s) /\ forallb is_hex (fst (hex_run s)) = true /\
  match snd (hex_run s) with c :: _ => is_hex c = false | [] => True end.
Proof.
  induction s as [|c s IH]; [done|]. cbn [hex_run]. destruct (is_hex c) eqn:E; [|by cbn; rewrite E].
  destruct (hex_run s) as [h rest]. cbn in *. rewrite E. destruct IH as (-> & ? & ?). done.
Qed.

Lemma hex_run_app h rest : forallb is_hex h = true -> match rest with c :: _ => is_hex c = false | [] => True end ->
  hex_run (h ++ rest) = (h, rest).
Proof.
  induction h as [|c h IH]; cbn.
  - intros _. destruct rest as [|c rest]; [done|]. cbn. by intros ->.
  - intros [-> Hh]%andb_true_iff R. by rewrite IH.
Qed.

(** A match of the pattern, as the regular expression states it. *)
Inductive row_match : bytes -> bytes -> bytes -> Prop :=
| row_single h tail :
    forallb is_hex h = true -> two_to_six h = true -> row_tail tail = true -> row_match (h ++ tail) h []
| row_range h h' tail :
    forallb is_hex h = true -> two_to_six h = true -> forallb is_hex h' = true -> two_to_six h' = true ->
    row_tail tail = true -> row_match (h ++ "-"%byte :: h' ++ tail) h h'.

Lemma row_tail_no_hex tail : row_tail tail = true -> match tail with c :: _ => is_hex c = false | [] => True end.
Proof. destruct tail as [|c tail]; [done|]. cbn. intros [E _]%andb_true_iff. by destruct (byte_eqb_spec c ";"%byte) as [->|]. Qed.

Lemma rowPattern_spec line m1 m2 : rowPattern line = Some (m1, m2) <-> row_match line m1 m2.
Proof.
  split.
  - unfold rowPattern. destruct (hex_run_spec line) as (E & F & _). destruct (hex_run line) as [h rest]. cbn in E, F. subst line.
    destruct (two_to_six h) eqn:T; [|done]. cbn [negb].
    destruct (row_tail rest) eqn:R; [intros [= <- <-]; by constructor|].
    destruct rest as [|c rest]; [done|]. destruct (hex_run_spec rest) as (E' & F' & _).
    destruct (hex_run rest) as [h' tail]. cbn in E', F'. destruct (byte_eqb_spec c "-"%byte) as [->|]; [|done]. cbn [andb].
    destruct (two_to_six h') eqn:T'; [|done]. destruct (row_tail tail) eqn:R'; [|done]. intros [= <- <-]. subst rest.
    by constructor.
  - intros [h tail F T R|h h' tail F T F' T' R]; unfold rowPattern.
    + rewrite hex_run_app by (done || by apply row_tail_no_hex). rewrite T. cbn. by rewrite R.
    + rewrite hex_run_app by done. rewrite T. cbn [negb row_tail].
      change ("-"%byte =b ";"%byte) with false. cbn [andb]. rewrite hex_run_app by (done || by apply row_tail_no_hex).
      rewrite byte_eqb_refl, T', R. done.
Qed.

(** The interval of a row. *)
Definition row_interval (m1 m2 : bytes) : interval :=
  Iv (hex_value m1) (hex_value (match m2 with [] => m1 | _ => m2 end)).

Lemma two_to_six_rune h : forallb is_hex h = true -> two_to_six h = true -> ParseRune h = Some (hex_value h) /\ h <> [].
Proof.
  unfold two_to_six. intros F [L1 L2]%andb_true_iff. apply Nat.leb_le in L1, L2.
  assert (h <> []) as N by (intros ->; cbn in L1; lia). split; [by apply ParseRune_digits|done].
Qed.

Lemma row_match_runes line m1 m2 : row_match line m1 m2 ->
  ParseRune m1 = Some (hex_value m1) /\ (match m2 with [] => Some (hex_value m1) | _ => ParseRune m2 end) = Some (hi (row_interval m1 m2)).
Proof.
  intros [h tail F T R|h h' tail F T F' T' R].
  - split; [by apply two_to_six_rune|done].
  - split; [by apply two_to_six_rune|]. destruct (two_to_six_rune h' F' T') as [-> N]. by destruct h'.
Qed.

(** What a line contributes: nothing unless it is a row, and a row in order its interval. *)
Lemma parseRow_spec name line :
  parseRow name line =
  match TrimSpace line with
  | [] => Ok None
  | _ =>
      match rowPattern (TrimSpace line) with
      | None => Ok None
      | Some (m1, m2) =>
          let v := row_interval m1 m2 in
          if hi v <? lo v then Err (ERangeOrder name (TrimSpace line)) else Ok (Some v)
      end
  end.
Proof.
  unfold parseRow. destruct (TrimSpace line) as [|c s] eqn:E; [done|]. destruct (rowPattern (c :: s)) as [[m1 m2]|] eqn:M; [|done].
  apply rowPattern_spec, row_match_runes in M as [-> M2].
  by rewrite M2.
Qed.

(** The rows of a body. *)
Definition row_of (lines : list bytes) (v : interval) : Prop :=
  exists line m1 m2, In line lines /\ row_match (TrimSpace line) m1 m2 /\ v = row_interval m1 m2.

Lemma row_of_cons line lines v :
  row_of (line :: lines) v <-> (exists m1 m2, row_match (TrimSpace line) m1 m2 /\ v = row_interval m1 m2) \/ row_of lines v.
Proof.
  unfold row_of. split.
  - intros (l & m1 & m2 & [<-|I] & M & E); [left|right]; eauto 6.
  - intros [(m1 & m2 & M & E)|(l & m1 & m2 & I & M & E)]; [exists line|exists l]; exists m1, m2; cbn; auto.
Qed.

(** Code points of six digits. *)
Definition wf_interval (v : interval) : Prop := 0 <= lo v <= hi v /\ hi v < 2 ^ 24.

Lemma hex_run_bound h : two_to_six h = true -> 0 <= hex_value h < 2 ^ 24.
Proof.
  unfold two_to_six. intros [_ L%Nat.leb_le]%andb_true_iff. pose proof (hex_value_bounds h).
  assert (16 ^ Z.of_nat (length h) <= 16 ^ 6) by (apply Z.pow_le_mono_r; lia). lia.
Qed.

Lemma row_match_wf line m1 m2 : row_match line m1 m2 -> lo (row_interval m1 m2) <= hi (row_interval m1 m2) -> wf_interval (row_interval m1 m2).
Proof.
  intros M L. unfold wf_interval. split; [split; [|done]|]; unfold row_interval; cbn;
    destruct M as [h tail F T R|h h' tail F T F' T' R]; try (by apply hex_run_bound).
  destruct h'; by apply hex_run_bound.
Qed.

Lemma parseRow_rows name line row : parseRow name line = Ok row ->
  (forall v, row = Some v <-> exists m1 m2, row_match (TrimSpace line) m1 m2 /\ v = row_interval m1 m2) /\
  (forall v, row = Some v -> wf_interval v).
Proof.
  rewrite parseRow_spec. destruct (TrimSpace line) as [|c s] eqn:T.
  { intros [= <-]. split; [|done]. intros v. split; [done|]. intros (m1 & m2 & M & _).
    apply rowPattern_spec in M. by cbn in M. }
  destruct (rowPattern (c :: s)) as [[m1 m2]|] eqn:P.
  - cbn zeta. destruct (Z.ltb_spec (hi (row_interval m1 m2)) (lo (row_interval m1 m2))); [done|]. intros [= <-]. split.
    + intros v. split; [intros [= <-]; exists m1, m2; split; [by apply rowPattern_spec|done]|].
      intros (n1 & n2 & M & ->). apply rowPattern_spec in M. rewrite P in M. by injection M as -> ->.
    + intros v [= <-]. apply rowPattern_spec in P. by apply row_match_wf in P.
  - intros [= <-]. split; [|done]. intros v. split; [done|]. intros (m1 & m2 & M & _). apply rowPattern_spec in M. congruence.
Qed.

Lemma parseRows_rows name lines ivs : parseRows name lines = Ok ivs ->
  (forall v, In v ivs <-> row_of lines v) /\ Forall wf_interval ivs.
Proof.
  revert ivs. induction lines as [|line lines IH]; intros ivs; cbn [parseRows].
  - intros [= <-]. split; [|done]. intros v. split; [done|]. by intros (l & ? & ? & [] & _).
  - destruct (parseRow name line) as [row|] eqn:R; [|done]. destruct (parseRows name lines) as [rest|]; [|done].
    intros [= <-]. destruct (parseRow_rows _ _ _ R) as [H1 H2]. destruct (IH rest eq_refl) as [H3 H4]. split.
    + intros v. rewrite row_of_cons, <- H3, <- H1, in_app_iff. destruct row as [w|]; cbn; intuition congruence.
    + apply Forall_app. split; [|done]. destruct row as [w|]; constructor; eauto.
Qed.

(** ** Lemmas: merging *)

(** Disjoint intervals in ascending order that do not touch. *)
Fixpoint apart (t : list interval) : bool :=
  match t with
  | [] => true
  | v :: t' => (lo v <=? hi v) && match t' with w :: _ => hi v + 1 <? lo w | [] => true end && apart t'
  end.

Lemma apart_cons v t : apart (v :: t) = true <-> lo v <= hi v /\ Forall (fun w => hi v + 1 < lo w) t /\ apart t = true.
Proof.
  revert v. induction t as [|w t IH]; intros v.
  - cbn. rewrite !andb_true_r, Z.leb_le. intuition.
  - change (apart (v :: w :: t)) with ((lo v <=? hi v) && (hi v + 1 <? lo w) && apart (w :: t)).
    rewrite !andb_true_iff, Z.leb_le, Z.ltb_lt. split; [|by intros (? & [? ?]%Forall_cons & ?)].
    intros [[? ?] A]. split_and!; [done| |done]. apply Forall_cons. split; [done|].
    apply IH in A as (? & F & _). eapply Forall_impl; [done|]. cbn. lia.
Qed.

Lemma apart_app t u : apart (t ++ u) = true <->
  apart t = true /\ apart u = true /\ Forall (fun v => Forall (fun w => hi v + 1 < lo w) u) t.
Proof.
  induction t as [|v t IH]; [cbn; intuition|]. rewrite <- app_comm_cons, !apart_cons, IH, Forall_app, Forall_cons. tauto.
Qed.

Lemma apart_intervals b t : apart t = true -> Forall (fun v => b < lo v) t -> intervals_from b t = true.
Proof.
  revert b. induction t as [|v t IH]; intros b A F; [done|]. apply apart_cons in A as (W & G & A).
  apply Forall_cons in F as [B _]. cbn. rewrite !andb_true_iff. split_and!; [lia|lia|]. apply IH; [done|].
  eapply Forall_impl; [done|]. cbn. lia.
Qed.

Lemma covered_nil r : ~ covered [] r.
Proof. by intros (x & [] & _). Qed.

Lemma covered_cons v t r : covered (v :: t) r <-> lo v <= r <= hi v \/ covered t r.
Proof.
  unfold covered. split; [intros (w & [<-|I] & H); eauto|]. intros [H|(w & I & H)]; [exists v|exists w]; cbn; auto.
Qed.

Lemma covered_perm t u r : t ≡ₚ u -> covered t r <-> covered u r.
Proof.
  intros P. unfold covered. setoid_rewrite <- list_elem_of_In. by setoid_rewrite P.
Qed.

(** A list of intervals apart from each other is determined by the points it covers. *)
Lemma apart_unique t u : apart t = true -> apart u = true -> (forall r, covered t r <-> covered u r) -> t = u.
Proof.
  assert (forall v t w u, apart (v :: t) = true -> apart (w :: u) = true ->
    (forall r, covered (v :: t) r -> covered (w :: u) r) -> lo w <= lo v /\ (lo v = lo w -> hi v <= hi w)) as L.
  { clear. intros v t w u A A' C. apply apart_cons in A as (V & F & A), A' as (W & F' & A').
    rewrite Forall_forall in F'. setoid_rewrite list_elem_of_In in F'. split.
    - destruct (proj1 (covered_cons w u (lo v)) (C _ (proj2 (covered_cons _ _ _) (or_introl (conj (Z.le_refl _) V))))) as [?|(x & I & ?)]; [lia|].
      specialize (F' x I). lia.
    - intros E. destruct (Z.le_gt_cases (hi v) (hi w)); [done|].
      destruct (proj1 (covered_cons w u (hi w + 1)) (C _ (proj2 (covered_cons v t (hi w + 1)) ltac:(left; lia)))) as [?|(x & I & ?)]; [lia|].
      specialize (F' x I). lia. }
  revert u. induction t as [|v t IH]; intros [|w u] A A' C; [done|..].
  - apply apart_cons in A' as (W & _). destruct (proj2 (C (lo w))) as (x & [] & _). apply covered_cons. lia.
  - apply apart_cons in A as (V & _). destruct (proj1 (C (lo v))) as (x & [] & _). apply covered_cons. lia.
  - destruct (L v t w u A A' (fun r => proj1 (C r))) as [? ?]. destruct (L w u v t A' A (fun r => proj2 (C r))) as [? ?].
    assert (v = w) as -> by (destruct v, w; cbn in *; f_equal; lia). f_equal.
    apply apart_cons in A as (_ & F & A), A' as (_ & F' & A'). apply IH; [done|done|]. intros r. specialize (C r).
    rewrite !covered_cons in C. rewrite Forall_forall in F, F'. setoid_rewrite list_elem_of_In in F. setoid_rewrite list_elem_of_In in F'.
    split; intros (x & I & B).
    + specialize (F x I). destruct (proj1 C) as [?|?]; [right; by exists x|lia|done].
    + specialize (F' x I). destruct (proj2 C) as [?|?]; [right; by exists x|lia|done].
Qed.

Lemma merge_intervals s : StronglySorted (fun v w => lo v <= lo w) s -> Forall wf_interval s ->
  forall out, apart (rev out) = true -> match out with p :: _ => Forall (fun v => lo p <= lo v) s | [] => True end ->
  apart (rev (fold_left merge_interval s out)) = true /\
  forall r, covered (fold_left merge_interval s out) r <-> covered out r \/ covered s r.
Proof.
  induction 1 as [|v s S IH L]; intros W out A H.
  - cbn. split; [done|]. intros r. pose proof (covered_nil r). tauto.
  - apply Forall_cons in W as [[[V0 V] _] W]. cbn [fold_left].
    assert (apart (rev (merge_interval out v)) = true /\
      match merge_interval out v with p :: _ => Forall (fun v => lo p <= lo v) s | [] => True end /\
      forall r, covered (merge_interval out v) r <-> covered out r \/ lo v <= r <= hi v) as (A' & H' & C').
    { destruct out as [|p out]; cbn [merge_interval].
      - split_and!; [cbn; lia|done|]. intros r. rewrite covered_cons. pose proof (covered_nil r). tauto.
      - apply Forall_cons in H as [Hp H]. cbn [rev] in A. apply apart_app in A as (A1 & A2 & A3).
        apply apart_cons in A2 as (Wp & _). destruct (Z.leb_spec (lo v) (hi p + 1)); [destruct (Z.ltb_spec (hi p) (hi v))|].
        + split_and!; [|done|intros r; rewrite !covered_cons; cbn; intuition lia].
          cbn [rev]. apply apart_app. split_and!; [done|cbn; lia|]. eapply Forall_impl; [done|]. cbn.
          intros x [? _]%Forall_cons. by repeat constructor.
        + split_and!; [|done|intros r; rewrite !covered_cons; intuition lia].
          cbn [rev]. apply apart_app. split_and!; [done|cbn; lia|done].
        + split_and!; [|done|intros r; rewrite !covered_cons; tauto].
          cbn [rev]. apply apart_app. split_and!; [apply apart_app; split_and!; [done|cbn; lia|done]|cbn; lia|].
          apply Forall_app. split.
          * eapply Forall_impl; [done|]. cbn. intros x [? _]%Forall_cons. repeat constructor. lia.
          * by repeat constructor. }
    destruct (IH W _ A' H') as [A2 C2]. split; [done|]. intros r. rewrite C2, C', covered_cons. tauto.
Qed.

Lemma covered_rev t r : covered (rev t) r <-> covered t r.
Proof. unfold covered. by setoid_rewrite <- in_rev. Qed.

Lemma normalize_spec `{SliceSort} ivs : Forall wf_interval ivs ->
  apart (normalize ivs) = true /\ forall r, covered (normalize ivs) r <-> covered ivs r.
Proof.
  intros W. unfold normalize. pose proof (sort_Slice_perm lo ivs) as P.
  destruct (merge_intervals (sort_Slice lo ivs)) with (out := @nil interval) as [A C].
  - apply sort_Slice_sorted.
  - by rewrite P.
  - done.
  - done.
  - split; [done|]. intros r. rewrite covered_rev, C, (covered_perm _ _ r P). pose proof (covered_nil r). tauto.
Qed.

Lemma normalize_wf `{SliceSort} ivs : Forall wf_interval ivs -> Forall wf_interval (normalize ivs).
Proof.
  intros W. destruct (normalize_spec ivs W) as [A C]. apply Forall_forall. intros v Hv.
  assert (lo v <= hi v) as V.
  { clear C. induction (normalize ivs) as [|w t IH]; [by apply elem_of_nil in Hv|].
    apply apart_cons in A as (Wl & _ & A). apply elem_of_cons in Hv as [->|?]; [done|by apply IH]. }
  rewrite list_elem_of_In in Hv.
  destruct (proj1 (C (lo v))) as (w & Iw & Bw); [by exists v|]. destruct (proj1 (C (hi v))) as (x & Ix & Bx); [by exists v|].
  rewrite Forall_forall in W. setoid_rewrite list_elem_of_In in W.
  destruct (W w Iw) as [? ?], (W x Ix) as [? ?]. unfold wf_interval. lia.
Qed.

(** ** Lemmas: the text *)

Lemma extractTable_spec text name body :
  extractTable text name = Ok body <->
  exists pre post, text = pre ++ startMarker name ++ body ++ endMarker name ++ post /\
    (forall a b, text = a ++ startMarker name ++ b -> (length pre <= length a)%nat) /\
    (forall a b, body ++ endMarker name ++ post = a ++ endMarker name ++ b -> (length body <= length a)%nat).
Proof.
  unfold extractTable. destruct (Index text (startMarker name)) as [i|] eqn:E.
  - apply Index_spec in E as [(pre & rest & -> & <-) M]. rewrite <- length_app, app_assoc, drop_app_length.
    destruct (Index rest (endMarker name)) as [j|] eqn:E'.
    + apply Index_spec in E' as [(b & post & -> & <-) M']. rewrite take_app_length. split.
      * intros [= <-]. exists pre, post. rewrite <- app_assoc. split_and!; [done|done|]. intros a b' Hb. by apply M' in Hb.
      * intros (pre' & post' & Et & N & N'). f_equal. rewrite <- app_assoc in Et, N. pose proof (M _ _ Et) as L1.
        pose proof (N _ _ eq_refl) as L2. apply app_inj_1 in Et as [<- Et]; [|lia].
        apply app_inv_head in Et. pose proof (M' _ _ Et) as L3. rewrite <- Et in N'. pose proof (N' _ _ eq_refl) as L4. clear N N' M M'.
        apply app_inj_1 in Et as [<- _]; [done|lia].
    + split; [done|]. intros (pre' & post' & Et & N & N'). rewrite <- app_assoc in Et, N. pose proof (M _ _ Et) as L1.
      pose proof (N _ _ eq_refl) as L2. apply app_inj_1 in Et as [<- Et]; [|lia]. apply app_inv_head in Et. subst rest.
      assert (Index (body ++ endMarker name ++ post') (endMarker name) = Some (length body)) as X; [|congruence].
      apply Index_spec. split; [by exists body, post'|]. intros a b Hb. by apply N' in Hb.
  - split; [done|]. intros (pre & post & -> & N & _).
    assert (Index (pre ++ startMarker name ++ body ++ endMarker name ++ post) (startMarker name) = Some (length pre)) as X; [|congruence].
    apply Index_spec. split; [by exists pre, (body ++ endMarker name ++ post)|]. intros a b Hb. by apply N in Hb.
Qed.

Lemma shows_interval v : wf_interval v -> shows show_interval (fun v => [lo v; hi v]) v.
Proof.
  intros [[V0 V1] V2] p P. exists [SP]. split; [done|]. intros rest.
  destruct (literal_hex (lo v) ltac:(lia)) as [C L]. destruct (literal_hex (hi v) ltac:(lia)) as [C' L'].
  unfold show_interval. change ($"{0x") with (["{"%byte] ++ $"0x"). change ($", 0x") with ([] ++ ","%byte :: [SP] ++ $"0x").
  change ($"}, ") with (["}"%byte] ++ ","%byte :: [SP]).
  match goal with |- numbers ?t = _ => replace t with ((p ++ ["{"%byte]) ++ ($"0x" ++ verb_X (lo v)) ++ [] ++
    ","%byte :: ([SP] ++ ($"0x" ++ verb_X (hi v)) ++ ["}"%byte] ++ ","%byte :: [SP] ++ rest)) by (by rewrite <- !app_assoc) end.
  rewrite (numbers_literal (p ++ ["{"%byte]) _ [] _ (lo v)); [|unfold spaced; rewrite forallb_app; by apply andb_true_iff|done|done|done].
  by rewrite (numbers_literal [SP] _ ["}"%byte] _ (hi v)).
Qed.

Lemma print_intervals ivs : Forall wf_interval ivs ->
  numbers (print_elements 6 show_interval 0 ivs) = concat (map (fun v => [lo v; hi v]) ivs).
Proof.
  intros W. destruct (numbers_elements show_interval (fun v => [lo v; hi v]) 6 ivs) with (i := 0%nat) (p := @nil byte) as (q & Q & E).
  - eapply Forall_impl; [done|]. apply shows_interval.
  - done.
  - specialize (E []). cbn [app] in E. by rewrite !app_nil_r, (numbers_spaced q Q), app_nil_r in E.
Qed.

End SaslprepGenFacts.

(** ** Theorems *)

Import SaslprepGenFacts.

(** A row of the document's table covers a code point. *)
Definition row_covers (text name : bytes) (r : Z) : Prop :=
  exists body v, extractTable text name = Ok body /\ row_of (Split body LF) v /\ lo v <= r <= hi v.

(** What the generator asks of a table of the document: it is there, has a row, and no range is inverted. *)
Definition table_present (text name : bytes) : Prop :=
  exists body, extractTable text name = Ok body /\ (exists v, row_of (Split body LF) v) /\
    forall v, row_of (Split body LF) v -> lo v <= hi v.

Section Theorems.
Context `{SliceSort}.

Lemma table_of_spec text spec t : table_of text spec = Ok t ->
  Forall wf_interval t /\ apart t = true /\ forall r, inTable t r = true <-> row_covers text (rfcName spec) r.
Proof.
  unfold table_of. destruct (extractTable text (rfcName spec)) as [body|] eqn:X; [|done].
  unfold parseTableBody. destruct (parseRows _ _) as [ivs|] eqn:R; [|done]. apply parseRows_rows in R as [R W].
  intros E. assert (t = normalize ivs) as -> by (destruct ivs; [done|by injection E]). clear E.
  destruct (normalize_spec ivs W) as [A C]. pose proof (normalize_wf ivs W) as W'. split_and!; [done..|]. intros r.
  rewrite (inTable_spec (-1)); [|apply apart_intervals; [done|eapply Forall_impl; [done|unfold wf_interval; lia]]].
  rewrite existsb_exists. unfold in_interval. transitivity (covered (normalize ivs) r).
  { unfold covered. split; intros (v & I & B); exists v; (split; [done|lia]). }
  rewrite C. unfold row_covers. rewrite X. split.
  - intros (v & I & B). exists body, v. by rewrite <- R.
  - intros (b & v & [= <-] & I & B). exists v. by rewrite R.
Qed.

Lemma parseRows_ok name lines : (forall v, row_of lines v -> lo v <= hi v) <-> is_ok (parseRows name lines) = true.
Proof.
  induction lines as [|line lines IH].
  { split; [done|]. intros _ v (l & m1 & m2 & [] & _). }
  setoid_rewrite row_of_cons. cbn [parseRows]. destruct (parseRow name line) as [row|e] eqn:E.
  - destruct (parseRow_rows _ _ _ E) as [H1 H2]. destruct (parseRows name lines) as [rest|e]; cbn in IH |- *.
    + split; [done|]. intros _ v [Hv|Hv]; [|by apply IH]. apply H1, H2 in Hv. by destruct Hv as [[_ ?] _].
    + split; [intros Hv; apply IH; eauto|done].
  - split; [|done]. intros Hv. rewrite parseRow_spec in E. destruct (TrimSpace line) as [|c s] eqn:T; [done|].
    destruct (rowPattern (c :: s)) as [[m1 m2]|] eqn:P; [|done]. cbn zeta in E. apply rowPattern_spec in P.
    specialize (Hv (row_interval m1 m2) ltac:(left; eauto)). by rewrite (proj2 (Z.ltb_ge _ _) Hv) in E.
Qed.

Lemma table_of_ok text spec : is_ok (table_of text spec) = true <-> table_present text (rfcName spec).
Proof.
  unfold table_of, table_present. destruct (extractTable text (rfcName spec)) as [body|] eqn:X.
  - unfold parseTableBody. destruct (parseRows (rfcName spec) (Split body LF)) as [ivs|] eqn:R.
    + pose proof (proj2 (parseRows_ok (rfcName spec) (Split body LF))) as Q. rewrite R in Q. specialize (Q eq_refl).
      apply parseRows_rows in R as [R _]. destruct ivs as [|v ivs]; cbn.
      * split; [done|]. intros (b & [= <-] & [v Hv] & _). by apply R in Hv.
      * split; [|done]. intros _. exists body. split_and!; [done| |done]. exists v. apply R. by left.
    + cbn. split; [done|]. intros (b & [= <-] & _ & Hv). apply (parseRows_ok (rfcName spec)) in Hv. by rewrite R in Hv.
  - cbn. split; [done|]. by intros (b & ? & _).
Qed.

Lemma table_sources_spec text specs src : table_sources text specs = Ok src ->
  exists tables, Forall2 (fun spec t => table_of text spec = Ok t) specs tables /\
    src = concat (zip_with table_source specs tables).
Proof.
  revert src. induction specs as [|spec specs IH]; intros src; cbn [table_sources].
  - intros [= <-]. by exists [].
  - destruct (table_of text spec) as [t|] eqn:T; [|done]. destruct (table_sources text specs) as [rest|]; [|done].
    intros [= <-]. destruct (IH rest eq_refl) as (tables & F & ->). exists (t :: tables). split; [by constructor|done].
Qed.

(** C37: the SASLprep generator turns a document into tables that decide it: when it succeeds, the source
    it prints holds one table for each appendix, in order; the numbers printed are the table's; the
    table's intervals are ascending and do not touch; and the binary search of saslprep.go in it finds
    a code point exactly when a row of the document's table covers it. *)
Theorem generated_tables text src : raw_source text = Ok src ->
  exists tables,
    src = file_head ++ concat (zip_with table_source tableSpecs tables) /\
    Forall2 (fun spec t =>
      numbers (print_elements 6 show_interval 0 t) = concat (map (fun v => [lo v; hi v]) t) /\
      apart t = true /\
      forall r, inTable t r = true <-> row_covers text (rfcName spec) r) tableSpecs tables.
Proof.
  unfold raw_source. destruct (table_sources text tableSpecs) as [rest|] eqn:E; [|done]. intros [= <-].
  apply table_sources_spec in E as (tables & F & ->). exists tables. split; [done|].
  eapply Forall2_impl; [done|]. intros spec t T. apply table_of_spec in T as (W & A & C).
  split_and!; [by apply print_intervals|done|done].
Qed.

(** The generator fails only where the document lacks a table, a table a row, or a range its order. *)
Theorem raw_source_succeeds text :
  is_ok (raw_source text) = true <-> Forall (fun spec => table_present text (rfcName spec)) tableSpecs.
Proof.
  unfold raw_source. transitivity (is_ok (table_sources text tableSpecs) = true).
  { by destruct (table_sources _ _). }
  induction tableSpecs as [|spec specs IH]; cbn [table_sources]; [by repeat constructor|].
  rewrite Forall_cons, <- table_of_ok, <- IH. destruct (table_of text spec), (table_sources text specs); cbn; intuition congruence.
Qed.

End Theorems.

(** The merged table depends only on the code points the rows cover, not on their order or on how
    [sort.Slice] arranges equal bounds. *)
Theorem normalize_canonical (S1 S2 : SliceSort) ivs ivs' :
  Forall wf_interval ivs -> Forall wf_interval ivs' -> (forall r, covered ivs r <-> covered ivs' r) ->
  @normalize S1 ivs = @normalize S2 ivs'.
Proof.
  intros W W' E. destruct (@normalize_spec S1 ivs W) as [A C]. destruct (@normalize_spec S2 ivs' W') as [A' C'].
  apply apart_unique; [done..|]. intros r. by rewrite C, C', E.
Qed.

(** tables.go is in the generator's normal form. *)
Theorem committed_tables_normal (S : SliceSort) :
  Forall (fun t => normalize t = t)
    [tableA1; tableB1; tableC12; tableC21; tableC22; tableC3; tableC4; tableC5; tableC6; tableC7; tableC8;
     tableC9; tableD1; tableD2].
Proof.
  assert (forall t, forallb (fun v => (0 <=? lo v) && (lo v <=? hi v) && (hi v <? 2 ^ 24)) t && apart t = true ->
    normalize t = t) as N.
  { intros t [W A]%andb_true_iff. assert (Forall wf_interval t) as W'.
    { apply forallb_Forall_eq in W. eapply Forall_impl; [done|]. unfold wf_interval. cbn. lia. }
    destruct (normalize_spec t W') as [A' C]. by apply apart_unique. }
  repeat (apply Forall_cons; split; [apply N; vm_compute; reflexivity|]). apply Forall_nil. exact I.
Qed.

(** A document with every table: two ranges that touch, out of order, with a comment, and a page break. *)
Definition sample_document : bytes :=
  concat (map (fun spec =>
    $"   Appendix" ++ [LF] ++ $"   " ++ startMarker (rfcName spec) ++ [LF] ++
    $"   00B1-00BF" ++ [LF; x0c; LF] ++ $"Hoffman   [Page 79]" ++ [LF] ++ $"   0020; SPACE" ++ [LF] ++
    $"   00A0-00b0; NAME" ++ [LF] ++ $"   " ++ endMarker (rfcName spec) ++ [LF]) tableSpecs).

Definition sample_source : bytes := match @raw_source merge_Slice sample_document with Ok src => src | Err _ => [] end.

Lemma generated_tables_witness :
  @raw_source merge_Slice sample_document = Ok sample_source /\
  exists tables,
    sample_source = file_head ++ concat (zip_with table_source tableSpecs tables) /\
    Forall2 (fun spec t =>
      numbers (print_elements 6 show_interval 0 t) = concat (map (fun v => [lo v; hi v]) t) /\
      apart t = true /\
      forall r, inTable t r = true <-> row_covers sample_document (rfcName spec) r) tableSpecs tables.
Proof.
  split; [vm_compute; reflexivity|].
  apply (@generated_tables merge_Slice sample_document sample_source). vm_compute. reflexivity.
Defined.

Example sample_table :
  @table_of merge_Slice sample_document {| rfcName := $"C.1.2"; varName := $"tableC12"; doc := [] |} =
  Ok [Iv 32 32; Iv 160 191].
Proof. vm_compute. reflexivity. Qed.

Lemma normalize_canonical_witness :
  @normalize merge_Slice [Iv 177 191; Iv 32 32; Iv 160 176] = @normalize merge_Slice [Iv 160 191; Iv 32 32].
Proof.
  apply (normalize_canonical merge_Slice merge_Slice).
  - repeat constructor; vm_compute; congruence.
  - repeat constructor; vm_compute; congruence.
  - intros r. rewrite !covered_cons. pose proof (covered_nil r). cbn. intuition lia.
Defined.
