(* ===== verification/UnicodeGen.v ===== *)
(** * internal/unicodenorm/gen: the generator of the normalization tables

    main.go: UnicodeData.txt and CompositionExclusions.txt are parsed, decompositions expanded to a fixed
    point with a cache, composition pairs selected, and the tables printed. Fetching the files and
    gofmt are outside, as in SaslprepGen.v. A fatal log message is an error carrying what it names. The
    order of every iteration over a map, and of equal keys in a sort, is left open ([MapRange],
    [SliceSort]). *)
From Stdlib Require Import ZArith Lia Bool.
From stdpp Require Import base list gmap strings sorting.
From S2P Require Import Prelude GoStrings Utf8 NormTables Unicodenorm NormTheorems GenText.
Import NormFacts.

Inductive fatal : Type :=
| FBadCcc (cp : Z) (field : bytes)
| FCccRange (cp n : Z)
| FBadDecomposition (cp : Z) (field : bytes)
| FBadExclusion (line : bytes)
| FCycle (cp : Z)
| FFuel
| FGofmt.

(** ** UnicodeData.txt *)

(** The three maps [parseUnicodeData] returns. *)
Record unicodeData : Type := {
  ccc : gmap Z Z;
  decomp : gmap Z (list Z);
  compatDecomp : gmap Z (list Z)
}.

Definition empty_data : unicodeData := {| ccc := ∅; decomp := ∅; compatDecomp := ∅ |}.

Fixpoint parse_runes (parts : list bytes) : option (list Z) :=
  match parts with
  | [] => Some []
  | p :: parts' =>
      match ParseRune p, parse_runes parts' with
      | Some v, Some vs => Some (v :: vs)
      | _, _ => None
      end
  end.

(** Field 3: the canonical combining class. *)
Definition parse_ccc (cp : Z) (field : bytes) (m : gmap Z Z) : result fatal (gmap Z Z) :=
  if beq field [] || beq field ($"0") then Ok m
  else match Atoi field with
       | None => Err (FBadCcc cp field)
       | Some n => if (n <? 0) || (255 <? n) then Err (FCccRange cp n) else Ok (<[cp := n]> m)
       end.

(** Field 5, trimmed: a tag marks a compatibility mapping; what is left are the code points. *)
Definition decomposition_field (field : bytes) : bool * bytes :=
  if HasPrefix field ($"<") then
    (true, match IndexByte field ">"%byte with Some idx => TrimSpace (drop (idx + 1) field) | None => field end)
  else (false, field).

Definition parse_decomposition (cp : Z) (field : bytes) (u : unicodeData) : result fatal unicodeData :=
  let field := TrimSpace field in
  match field with
  | [] => Ok u
  | _ =>
      let (isCompat, decoField) := decomposition_field field in
      match parse_runes (Fields decoField) with
      | None => Err (FBadDecomposition cp decoField)
      | Some rs =>
          Ok (if isCompat
              then {| ccc := ccc u; decomp := decomp u; compatDecomp := <[cp := rs]> (compatDecomp u) |}
              else {| ccc := ccc u; decomp := <[cp := rs]> (decomp u); compatDecomp := compatDecomp u |})
      end
  end.

Definition parse_line (u : unicodeData) (line : bytes) : result fatal unicodeData :=
  let line := TrimRight line [CR; LF] in
  match line with
  | [] => Ok u
  | _ =>
      match Split line ";"%byte with
      | f0 :: _ :: _ :: f3 :: _ :: f5 :: _ =>
          match ParseRune f0 with
          | None => Ok u
          | Some cp =>
              let? m := parse_ccc cp f3 (ccc u) in
              parse_decomposition cp f5 {| ccc := m; decomp := decomp u; compatDecomp := compatDecomp u |}
          end
      | _ => Ok u
      end
  end.

Fixpoint parse_lines (u : unicodeData) (lines : list bytes) : result fatal unicodeData :=
  match lines with
  | [] => Ok u
  | line :: lines' => let? u' := parse_line u line in parse_lines u' lines'
  end.

Definition parseUnicodeData (data : bytes) : result fatal unicodeData :=
  parse_lines empty_data (Split data LF).

(** ** CompositionExclusions.txt *)

Definition parse_exclusion (out : gset Z) (line : bytes) : result fatal (gset Z) :=
  let line := TrimSpace line in
  if beq line [] || HasPrefix line ($"#") then Ok out
  else
    let line := match IndexByte line "#"%byte with Some idx => TrimSpace (take idx line) | None => line end in
    match Fields line with
    | [] => Ok out
    | f0 :: _ =>
        match ParseRune f0 with
        | None => Err (FBadExclusion line)
        | Some v => Ok ({[v]} ∪ out)
        end
    end.

Fixpoint parse_exclusions (out : gset Z) (lines : list bytes) : result fatal (gset Z) :=
  match lines with
  | [] => Ok out
  | line :: lines' => let? out' := parse_exclusion out line in parse_exclusions out' lines'
  end.

Definition parseCompositionExclusions (data : bytes) : result fatal (gset Z) :=
  parse_exclusions ∅ (Split data LF).

(** ** Full decomposition *)

(** The maps [cache] and [visiting]. *)
Record memo : Type := { cache : gmap Z (list Z); visiting : gset Z }.

Definition no_memo : memo := {| cache := ∅; visiting := ∅ |}.

Section Expand.
Context (mapping : Z -> option (list Z)).

(** [for _, c := range d]: [sub] is a recursive call. An empty slice is Go's nil. *)
Fixpoint expand_all (sub : Z -> memo -> result fatal (list Z * memo)) (d : list Z) (out : list Z) (m : memo) :
    result fatal (list Z * memo) :=
  match d with
  | [] => Ok (out, m)
  | c :: d' =>
      let? (r, m') := sub c m in
      expand_all sub d' (out ++ match r with [] => [c] | _ => r end) m'
  end.

Fixpoint expand_cp (fuel : nat) (cp : Z) (m : memo) : result fatal (list Z * memo) :=
  match cache m !! cp with
  | Some r => Ok (r, m)
  | None =>
      match mapping cp with
      | None => Ok ([], m)
      | Some d =>
          if bool_decide (cp ∈ visiting m) then Err (FCycle cp)
          else match fuel with
               | O => Err FFuel
               | S fuel' =>
                   let? (out, m') := expand_all (expand_cp fuel') d [] {| cache := cache m; visiting := {[cp]} ∪ visiting m |} in
                   Ok (out, {| cache := <[cp := out]> (cache m'); visiting := visiting m' ∖ {[cp]} |})
               end
      end
  end.

End Expand.

(** A compatibility mapping takes precedence over a canonical one. *)
Definition compat_mapping (u : unicodeData) (cp : Z) : option (list Z) :=
  match compatDecomp u !! cp with
  | Some d => Some d
  | None => decomp u !! cp
  end.

(** A chain of calls visits different code points, all of them with a mapping. *)
Definition fullyDecompose (u : unicodeData) (cp : Z) (m : memo) : result fatal (list Z * memo) :=
  expand_cp (fun c => decomp u !! c) (S (size (decomp u))) cp m.
Definition fullyDecomposeCompat (u : unicodeData) (cp : Z) (m : memo) : result fatal (list Z * memo) :=
  expand_cp (compat_mapping u) (S (size (decomp u) + size (compatDecomp u))) cp m.

(** The loops over the code points that decompose, the cache kept between them. *)
Fixpoint decompose_all (f : Z -> memo -> result fatal (list Z * memo)) (cps : list Z) (m : memo) :
    result fatal (list (Z * list Z)) :=
  match cps with
  | [] => Ok []
  | cp :: cps' =>
      let? (full, m') := f cp m in
      let? rest := decompose_all f cps' m' in
      Ok ((cp, full) :: rest)
  end.

(** ** The tables *)

Definition ccOf (u : unicodeData) (r : Z) : Z := default 0 (ccc u !! r).

(** The full composition exclusions of UAX #15. *)
Definition excluded_decomposition (u : unicodeData) (d : list Z) : bool :=
  match d with
  | [_] => true
  | d0 :: _ :: _ => negb (ccOf u d0 =? 0)
  | [] => false
  end.

Section Tables.
Context `{SliceSort, MapRange}.

Definition fullExclusion (u : unicodeData) (scriptExclusions : gset Z) : gset Z :=
  fold_left (fun ex '(cp, d) => if excluded_decomposition u d then {[cp]} ∪ ex else ex)
    (range_map 1 (decomp u)) scriptExclusions.

Definition composition_pair (ex : gset Z) (entry : Z * list Z) : option (Z * Z) :=
  let (cp, d) := entry in
  match d with
  | [d0; d1] => if bool_decide (cp ∈ ex) then None else Some (pair_key d0 d1, cp)
  | _ => None
  end.

Definition composition_pairs (u : unicodeData) (scriptExclusions : gset Z) : list (Z * Z) :=
  sort_Slice fst (omap (composition_pair (fullExclusion u scriptExclusions)) (range_map 2 (decomp u))).

Definition deco_entries (u : unicodeData) : result fatal (list (Z * list Z)) :=
  let? entries := decompose_all (fullyDecompose u) (range_map 3 (decomp u)).*1 no_memo in
  Ok (sort_Slice fst entries).

(** The keys of both maps, each once. *)
Definition compatCps (u : unicodeData) : gmap Z bool :=
  fold_left (fun m cp => <[cp := true]> m)
    ((range_map 4 (decomp u)).*1 ++ (range_map 5 (compatDecomp u)).*1) ∅.

Definition compat_entries (u : unicodeData) : result fatal (list (Z * list Z)) :=
  let? entries := decompose_all (fullyDecomposeCompat u) (range_map 6 (compatCps u)).*1 no_memo in
  Ok (sort_Slice fst entries).

Definition ccc_entries (u : unicodeData) : list (Z * Z) := sort_Slice fst (range_map 7 (ccc u)).

(** The offsets of the rows of a table, without the sentinel. *)
Fixpoint offsets (start : Z) (entries : list (Z * list Z)) : list Z :=
  match entries with
  | [] => []
  | (_, d) :: entries' => start :: offsets (start + Z.of_nat (length d)) entries'
  end.

Definition total_length (entries : list (Z * list Z)) : Z := Z.of_nat (length (concat entries.*2)).

(** The arrays, as norm.go sees them. *)
Definition tables_of (cccs : list (Z * Z)) (deco compat : list (Z * list Z)) (pairs : list (Z * Z)) : UCD := {|
  ccc_key := cccs.*1; ccc_val := cccs.*2;
  decomp_key := deco.*1; decomp_offset := offsets 0 deco ++ [total_length deco]; decomp_data := concat deco.*2;
  compat_key := compat.*1; compat_offset := offsets 0 compat ++ [total_length compat]; compat_data := concat compat.*2;
  compose_key := pairs.*1; compose_val := pairs.*2 |}.

Definition build_tables (u : unicodeData) (scriptExclusions : gset Z) : result fatal UCD :=
  let pairs := composition_pairs u scriptExclusions in
  let? deco := deco_entries u in
  let? compat := compat_entries u in
  Ok (tables_of (ccc_entries u) deco compat pairs).

End Tables.

(** ** The generated source *)

Definition outPath : bytes := $"internal/unicodenorm/tables.go".

Definition comment (lines : list bytes) : bytes := concat (map (fun l => $"// " ++ l ++ [LF]) lines).
Definition array (name type elements : bytes) : bytes :=
  $"var " ++ name ++ $" = [...]" ++ type ++ $"{" ++ elements ++ [LF] ++ $"}" ++ [LF].

Definition file_head : bytes :=
  comment [$"Code generated by gen/main.go. DO NOT EDIT.";
           $"Source: Unicode Character Database version 15.0.0.";
           $"  https://www.unicode.org/Public/15.0.0/ucd/UnicodeData.txt";
           $"  https://www.unicode.org/Public/15.0.0/ucd/CompositionExclusions.txt"] ++ [LF] ++
  $"package unicodenorm" ++ [LF; LF].

Definition ccc_comment : bytes :=
  comment [$"cccKey and cccVal together form a sorted parallel-array map from a";
           $"code point to its canonical combining class (Unicode property ccc).";
           $"Code points absent from cccKey have ccc == 0."].

Definition decomp_comment : bytes :=
  comment [$"decompKey, decompOffset and decompData together form a sorted map";
           $"from a code point to its fully (recursively) expanded canonical";
           $"decomposition: decompData[decompOffset[i]:decompOffset[i+1]] is the";
           $"decomposition of decompKey[i]. Hangul syllables are excluded: they";
           $"decompose algorithmically, see hangulDecompose."].

Definition compat_comment : bytes :=
  comment [$"compatDecompKey, compatDecompOffset and compatDecompData mirror";
           $"decompKey/decompOffset/decompData above, but hold the fully";
           $"(recursively) expanded COMPATIBILITY decomposition: at each step a";
           $"code point is replaced by its compatibility mapping (UnicodeData.txt";
           $"field 5 entries carrying a <tag>, tag stripped) if it has one,";
           $"otherwise by its canonical mapping, until a code point has neither";
           $"(see fullyDecomposeCompat in gen/main.go). This covers every code";
           $"point that decomposes at all, by either mapping -- a superset of the";
           $"keys in decompKey."] ++ $"//" ++ [LF] ++
  comment [$"This table is NOT used by NFC: NFC (see norm.go) follows canonical";
           $"decompositions only, per UAX #15. It is used by NFKC (see norm.go),";
           $"needed for SASLprep (RFC 4013 / RFC 5802)."].

Definition compose_comment : bytes :=
  comment [$"composeKey and composeVal together form a sorted parallel-array map";
           $"from a starter/combiner pair, packed as uint64(first)<<32|uint64(second),";
           $"to their canonical composite code point."].

(** The elements of the arrays; the last offset follows the others on their line. *)
Definition hex_elements (per : nat) (l : list Z) : bytes := print_elements per show_hex 0 l.
Definition dec_elements (l : list Z) : bytes := print_elements 16 show_dec 0 l.
Definition offset_elements (l : list Z) : bytes :=
  print_elements 16 show_dec 0 (removelast l) ++ show_dec (List.last l 0).

Definition tables_source (T : UCD) : bytes :=
  file_head ++
  ccc_comment ++ array ($"cccKey") ($"int32") (hex_elements 16 (@ccc_key T)) ++ [LF] ++
  array ($"cccVal") ($"uint8") (dec_elements (@ccc_val T)) ++ [LF] ++
  decomp_comment ++ array ($"decompKey") ($"int32") (hex_elements 16 (@decomp_key T)) ++ [LF] ++
  array ($"decompOffset") ($"int32") (offset_elements (@decomp_offset T)) ++ [LF] ++
  array ($"decompData") ($"int32") (hex_elements 16 (@decomp_data T)) ++ [LF] ++
  compat_comment ++ array ($"compatDecompKey") ($"int32") (hex_elements 16 (@compat_key T)) ++ [LF] ++
  array ($"compatDecompOffset") ($"int32") (offset_elements (@compat_offset T)) ++ [LF] ++
  array ($"compatDecompData") ($"int32") (hex_elements 16 (@compat_data T)) ++ [LF] ++
  compose_comment ++ array ($"composeKey") ($"uint64") (hex_elements 8 (@compose_key T)) ++ [LF] ++
  array ($"composeVal") ($"int32") (hex_elements 16 (@compose_val T)).

Section Main.
Context `{SliceSort, MapRange}.

Definition generate (udData ceData : bytes) : result fatal UCD :=
  let? u := parseUnicodeData udData in
  let? scriptExclusions := parseCompositionExclusions ceData in
  build_tables u scriptExclusions.

Definition main (gofmt : bytes -> option bytes) (udData ceData : bytes) : result fatal (bytes * bytes) :=
  let? T := generate udData ceData in
  match gofmt (tables_source T) with
  | Some formatted => Ok (outPath, formatted)
  | None => Err FGofmt
  end.

End Main.

(** ** Lemmas: full decomposition *)

Module UnicodeGenFacts.

Section Expand.
Context (mapping : Z -> option (list Z)).

(** A code point without a mapping, or with an empty one, stands for itself. *)
Definition stays (c : Z) : Prop := default [] (mapping c) = [].

(** The decomposition of a code point, and of a sequence, to a fixed point. *)
Inductive fully : Z -> list Z -> Prop :=
| fully_self c : stays c -> fully c [c]
| fully_step c d out : mapping c = Some d -> d <> [] -> fully_all d out -> fully c out
with fully_all : list Z -> list Z -> Prop :=
| fully_nil : fully_all [] []
| fully_cons c d out outs : fully c out -> fully_all d outs -> fully_all (c :: d) (out ++ outs).

Scheme fully_mut := Induction for fully Sort Prop
with fully_all_mut := Induction for fully_all Sort Prop.

Definition child (a b : Z) : Prop := exists d, mapping a = Some d /\ b ∈ d.

Lemma fully_nonempty c out : fully c out -> out <> [].
Proof.
  revert c out. apply (fully_mut (fun c out _ => out <> []) (fun d out _ => d <> [] -> out <> [])).
  - done.
  - auto.
  - done.
  - intros c d out outs _ H _ _ _ E. apply app_nil in E as [E _]. done.
Qed.

(** The decomposition is unique, ends in code points that stay, and exists only without a cycle. *)
Lemma fully_fun c out : fully c out -> forall out', fully c out' -> out = out'.
Proof.
  revert c out. apply (fully_mut (fun c out _ => forall out', fully c out' -> out = out')
    (fun d out _ => forall out', fully_all d out' -> out = out')).
  - intros c S out' H. inversion H as [? S'|? d' ? M' N' F]; subst; [done|]. unfold stays in S. by rewrite M' in S.
  - intros c d out M N _ IH out' H. inversion H as [? S'|? d' ? M' N' F]; subst.
    + unfold stays in S'. by rewrite M in S'.
    + rewrite M in M'. injection M' as <-. by apply IH.
  - intros out' H. by inversion H.
  - intros c d out outs _ IH1 _ IH2 out' H. inversion H; subst. f_equal; auto.
Qed.

Lemma fully_stays c out : fully c out -> Forall stays out.
Proof.
  revert c out. apply (fully_mut (fun c out _ => Forall stays out) (fun d out _ => Forall stays out)).
  - intros c S. by constructor.
  - done.
  - done.
  - intros. by apply Forall_app.
Qed.

Lemma fully_acc c out : fully c out -> Acc (fun a b => child b a) c.
Proof.
  revert c out. apply (fully_mut (fun c out _ => Acc (fun a b => child b a) c) (fun d out _ => Forall (Acc (fun a b => child b a)) d)).
  - intros c S. constructor. intros b (d & M & I). unfold stays in S. rewrite M in S. cbn in S. subst. by apply elem_of_nil in I.
  - intros c d out M N _ F. constructor. intros b (d' & M' & I). rewrite M in M'. injection M' as <-.
    rewrite Forall_forall in F. by apply F.
  - done.
  - intros. by constructor.
Qed.

Lemma acc_no_cycle c : Acc (fun a b => child b a) c -> ~ tc child c c.
Proof.
  induction 1 as [c _ IH]. intros T. inversion T as [? ? C|? y ? C T']; subst.
  - by apply (IH c).
  - apply (IH y); [done|]. by eapply tc_r.
Qed.

(** What [expand_cp] returns: nothing for a code point that stays. *)
Definition full_result (c : Z) (r : list Z) : Prop :=
  match r with [] => stays c | _ => ~ stays c /\ fully c r end.

Lemma full_result_fully c r : full_result c r -> fully c (match r with [] => [c] | _ => r end).
Proof. destruct r; cbn; [by constructor|tauto]. Qed.

Lemma full_result_fun c r r' : full_result c r -> full_result c r' -> r = r'.
Proof.
  destruct r, r'; cbn; try tauto. intros [_ F] [_ F']. by eapply fully_fun.
Qed.

Context (D : gset Z) (dom : forall c, mapping c <> None -> c ∈ D).

(** The memo while the code points of [visiting] are being expanded, [cp] below all of them. *)
Record memo_ok (fuel : nat) (cp : Z -> Prop) (m : memo) : Prop := {
  memo_cache c r : cache m !! c = Some r -> full_result c r;
  memo_visiting : visiting m ⊆ D;
  memo_fuel : (size D <= fuel + size (visiting m))%nat;
  memo_below v c : v ∈ visiting m -> cp c -> tc child v c
}.

Definition expands_to (cps : Z -> Prop) (m : memo) (post : list Z -> Prop) (x : result fatal (list Z * memo)) : Prop :=
  match x with
  | Ok (r, m') => post r /\ visiting m' = visiting m /\ forall c r, cache m' !! c = Some r -> full_result c r
  | Err e => exists c b, e = FCycle b /\ cps c /\ rtc child c b /\ tc child b b
  end.

Lemma expand_all_spec fuel sub d :
  (forall c m, c ∈ d -> memo_ok fuel (eq c) m -> expands_to (eq c) m (full_result c) (sub c m)) ->
  forall out m, memo_ok fuel (fun c => c ∈ d) m ->
  expands_to (fun c => c ∈ d) m (fun r => exists outs, r = out ++ outs /\ fully_all d outs) (expand_all sub d out m).
Proof.
  induction d as [|c d IH]; intros Hsub out m M; cbn [expand_all].
  { cbn. split_and!; [|done|apply M]. exists []. rewrite app_nil_r. split; [done|constructor]. }
  assert (memo_ok fuel (eq c) m) as Mc by (split; try apply M; intros v ? Hv <-; apply M; [done|by left]).
  pose proof (Hsub c m ltac:(by left) Mc) as X. destruct (sub c m) as [[r m']|e]; cbn in X |- *.
  - destruct X as (Hr & V & C). assert (memo_ok fuel (fun c => c ∈ d) m') as M'.
    { split; rewrite ?V; [done|apply M..|]. intros v b Hv Hb. apply M; [done|by right]. }
    specialize (IH ltac:(intros; apply Hsub; [by right|done]) (out ++ match r with [] => [c] | _ => r end) m' M').
    destruct (expand_all sub d _ m') as [[r2 m2]|e]; cbn in IH |- *.
    + destruct IH as ((outs & -> & F) & V2 & C2). split_and!; [|congruence|done].
      exists (match r with [] => [c] | _ => r end ++ outs). rewrite app_assoc. split; [done|].
      constructor; [by apply full_result_fully|done].
    + destruct IH as (a & b & -> & I & R & T). exists a, b. split_and!; [done|by right|done|done].
  - destruct X as (a & b & -> & <- & R & T). exists c, b. split_and!; [done|by left|done|done].
Qed.

Lemma expand_cp_spec fuel cp m : memo_ok fuel (eq cp) m ->
  expands_to (eq cp) m (full_result cp) (expand_cp mapping fuel cp m).
Proof.
  revert cp m. induction fuel as [|fuel IH]; intros cp m M; cbn [expand_cp];
    (destruct (cache m !! cp) as [r|] eqn:E; [cbn; split_and!; [by eapply M|done|apply M]|]);
    (destruct (mapping cp) as [d|] eqn:Ed;
      [|cbn; split_and!; [unfold stays; by rewrite Ed|done|apply M]]);
    (case_bool_decide as V; [exists cp, cp; split_and!; [done|done|done|by eapply M]|]).
  - exfalso. pose proof (memo_fuel _ _ _ M) as F. assert (cp ∈ D) as I by (apply dom; congruence).
    assert (visiting m ∪ {[cp]} ⊆ D) as S by (pose proof (memo_visiting _ _ _ M); set_solver).
    apply subseteq_size in S. rewrite size_union, size_singleton in S by set_solver. lia.
  - assert (cp ∈ D) as I by (apply dom; congruence).
    set (m0 := {| cache := cache m; visiting := {[cp]} ∪ visiting m |}).
    assert (memo_ok fuel (fun c => c ∈ d) m0) as M0.
    { split; cbn.
      - apply M.
      - pose proof (memo_visiting _ _ _ M). set_solver.
      - rewrite size_union, size_singleton by set_solver. pose proof (memo_fuel _ _ _ M). lia.
      - intros v c Hv Hc. assert (child cp c) as Ch by (by exists d).
        apply elem_of_union in Hv as [->%elem_of_singleton|Hv]; [by apply tc_once|].
        eapply tc_r; [|done]. by eapply M. }
    pose proof (expand_all_spec fuel (expand_cp mapping fuel) d ltac:(intros; by apply IH) [] m0 M0) as X.
    destruct (expand_all _ d [] m0) as [[out m']|e]; cbn in X |- *.
    + destruct X as ((outs & -> & F) & V' & C). cbn [app]. assert (full_result cp outs) as R.
      { destruct d as [|c d]; [inversion F; subst; unfold full_result, stays; by rewrite Ed|].
        assert (fully cp outs) as Fu by (by eapply fully_step).
        assert (~ stays cp) by (unfold stays; by rewrite Ed). pose proof (fully_nonempty _ _ Fu). by destruct outs. }
      split_and!; [done|rewrite V'; set_solver|]. intros c r. rewrite lookup_insert_Some. intros [[<- <-]|[_ H]]; [done|by apply C].
    + destruct X as (c & b & -> & Hc & R & T). exists cp, b. split_and!; [done|done| |done].
      eapply rtc_l; [|done]. by exists d.
Qed.

Lemma memo_ok_start fuel cps (m : memo) : (size D <= fuel)%nat -> visiting m = ∅ ->
  (forall c r, cache m !! c = Some r -> full_result c r) -> memo_ok fuel cps m.
Proof. intros F V C. split; [done|rewrite V; set_solver|rewrite V, size_empty; lia|rewrite V; set_solver]. Qed.

(** The loop over the keys: every entry is the full decomposition, or a cycle is reported. *)
Lemma decompose_all_spec fuel cps m : (size D <= fuel)%nat -> visiting m = ∅ ->
  (forall c r, cache m !! c = Some r -> full_result c r) ->
  match decompose_all (expand_cp mapping fuel) cps m with
  | Ok entries => entries.*1 = cps /\ Forall (fun e => full_result e.1 e.2) entries
  | Err e => exists c b, e = FCycle b /\ c ∈ cps /\ rtc child c b /\ tc child b b
  end.
Proof.
  intros F. revert m. induction cps as [|cp cps IH]; intros m V C; cbn [decompose_all]; [done|].
  pose proof (expand_cp_spec fuel cp m (memo_ok_start fuel _ m F V C)) as X.
  destruct (expand_cp mapping fuel cp m) as [[full m']|e]; cbn in X.
  - destruct X as (R & V' & C'). specialize (IH m' ltac:(congruence) C').
    destruct (decompose_all _ cps m') as [rest|e].
    + destruct IH as [<- Fr]. split; [done|]. by constructor.
    + destruct IH as (c & b & -> & I & Rt & T). exists c, b. split_and!; [done|by right|done|done].
  - destruct X as (c & b & -> & <- & Rt & T). exists cp, b. split_and!; [done|by left|done|done].
Qed.

(** The loop succeeds exactly when no cycle can be reached. *)
Lemma decompose_all_ok fuel cps : (size D <= fuel)%nat ->
  is_ok (decompose_all (expand_cp mapping fuel) cps no_memo) = true <->
  forall c b, c ∈ cps -> rtc child c b -> ~ tc child b b.
Proof.
  intros F. pose proof (decompose_all_spec fuel cps no_memo F eq_refl ltac:(intros c r; cbn; by rewrite lookup_empty)) as X.
  destruct (decompose_all _ cps no_memo) as [entries|e]; cbn.
  - split; [|done]. intros _ c b Hc R. destruct X as [<- Fe]. apply list_elem_of_fmap in Hc as ([c' r] & -> & Hc).
    rewrite Forall_forall in Fe. apply Fe, full_result_fully, fully_acc in Hc. cbn in *. apply acc_no_cycle.
    induction R as [|a b c Ch R IH]; [done|]. apply IH. destruct Hc as [Hc]. by apply Hc.
  - split; [done|]. intros N. destruct X as (c & b & _ & Hc & R & T). by destruct (N c b Hc R).
Qed.

End Expand.

(** ** Lemmas: sorted tables *)

(** The binary search in the keys of a sorted list of entries. *)
Lemma entries_search {V} (l : list (Z * V)) r : sorted_from (-1) l.*1 = true ->
  (key_index l.*1 r ≫= fun i => snd <$> l !! i) = (list_to_map l : gmap Z V) !! r.
Proof.
  intros S. assert (NoDup l.*1) as N by by eapply sorted_NoDup. destruct (key_index l.*1 r) as [i|] eqn:E; cbn.
  - apply key_index_spec in E; [|done]. rewrite nth_error_lookup, list_lookup_fmap in E.
    destruct (l !! i) as [[k v]|] eqn:L; [|done]. cbn in E. injection E as ->. cbn. symmetry.
    apply elem_of_list_to_map; [done|]. by eapply list_elem_of_lookup_2.
  - symmetry. apply not_elem_of_list_to_map. intros [i Hi]%list_elem_of_lookup. rewrite <- nth_error_lookup in Hi.
    by rewrite (proj2 (key_index_spec l.*1 r i S) Hi) in E.
Qed.

Lemma entries_value (l : list (Z * Z)) r : sorted_from (-1) l.*1 = true ->
  (fun i => nth i l.*2 0) <$> key_index l.*1 r = (list_to_map l : gmap Z Z) !! r.
Proof.
  intros S. rewrite <- entries_search by done. destruct (key_index l.*1 r) as [i|] eqn:E; [|done]. cbn.
  apply key_index_spec in E; [|done]. rewrite nth_error_lookup, list_lookup_fmap in E.
  destruct (l !! i) as [[k v]|] eqn:L; [|done]. cbn. f_equal. apply nth_lookup_Some. by rewrite list_lookup_fmap, L.
Qed.

Lemma rows_cons a b offset data :
  rows (a :: b :: offset) data = take (Z.to_nat (b - a)) data :: rows (b :: offset) (drop (Z.to_nat (b - a)) data).
Proof. done. Qed.

Lemma offsets_rows start entries :
  rows (offsets start entries ++ [start + total_length entries]) (concat entries.*2) = entries.*2.
Proof.
  revert start. induction entries as [|[k d] entries IH]; intros start; [done|].
  assert (exists rest, offsets (start + Z.of_nat (length d)) entries ++ [start + total_length ((k, d) :: entries)] =
    (start + Z.of_nat (length d)) :: rest) as [rest E].
  { unfold total_length. destruct entries as [|[k' d'] entries]; cbn [offsets app]; eexists; [|done].
    cbn. rewrite app_nil_r. done. }
  specialize (IH (start + Z.of_nat (length d))).
  assert (start + Z.of_nat (length d) + total_length entries = start + total_length ((k, d) :: entries)) as T.
  { unfold total_length. cbn. rewrite length_app. lia. }
  rewrite T, E in IH. change (offsets start ((k, d) :: entries)) with (start :: offsets (start + Z.of_nat (length d)) entries).
  rewrite <- app_comm_cons, E, rows_cons. cbn [fmap list_fmap snd concat].
  replace (Z.to_nat (start + Z.of_nat (length d) - start)) with (length d) by lia.
  by rewrite take_app_length, drop_app_length, IH.
Qed.

Lemma offsets_length start entries : length (offsets start entries) = length entries.
Proof. revert start. induction entries as [|[k d] entries IH]; intros start; [done|]. cbn. by rewrite IH. Qed.

Lemma offsets_ascending lo start entries : lo <= start ->
  ascending_from lo (offsets start entries ++ [start + total_length entries]) = true.
Proof.
  revert lo start. induction entries as [|[k d] entries IH]; intros lo start L.
  - unfold total_length. cbn. lia.
  - cbn [offsets]. rewrite <- app_comm_cons. cbn [ascending_from]. apply andb_true_iff. split; [lia|].
    replace (start + total_length ((k, d) :: entries)) with (start + Z.of_nat (length d) + total_length entries)
      by (unfold total_length; cbn; rewrite length_app; lia).
    apply IH. lia.
Qed.

(** The arrays of a decomposition table. *)
Section Entries.
Context (entries : list (Z * list Z)) (sorted : sorted_from (-1) entries.*1 = true).

Abbreviation keys := (entries.*1).
Abbreviation offs := (offsets 0 entries ++ [total_length entries]).
Abbreviation data := (concat entries.*2).

Lemma entries_table_ok : table_ok keys offs data = true.
Proof.
  unfold table_ok. rewrite sorted, length_app, offsets_length, length_fmap. cbn [andb length].
  rewrite (proj2 (Nat.eqb_eq _ _)) by lia. cbn [andb].
  pose proof (offsets_ascending 0 0 entries ltac:(lia)) as A. rewrite Z.add_0_l in A.
  destruct entries as [|[k d] rest]; [done|]. done.
Qed.

Lemma entries_table : table keys (rows offs data) = list_to_map entries.
Proof. unfold table. rewrite (offsets_rows 0 entries : rows offs data = _). by rewrite zip_fst_snd. Qed.

End Entries.

(** ** Lemmas: a generated decomposition table satisfies the laws *)

(** What UnicodeData.txt promises of a mapping: Hangul decomposes by rule and is in no table. *)
Definition plain_rune (x : Z) : Prop := is_scalar x = true /\ is_syllable x = false.
Definition good_entry (c : Z) (d : list Z) : Prop :=
  plain_rune c /\ is_jamo c = false /\ d <> [] /\ Forall plain_rune d.

Record built (mapping : Z -> option (list Z)) (entries : list (Z * list Z)) : Prop := {
  built_sorted : sorted_from (-1) entries.*1 = true;
  built_keys c : c ∈ entries.*1 <-> mapping c <> None;
  built_full : Forall (fun e => full_result mapping e.1 e.2) entries
}.

Section Built.
Context (mapping : Z -> option (list Z)) (good : forall c d, mapping c = Some d -> good_entry c d).
Context (entries : list (Z * list Z)) (B : built mapping entries).

Abbreviation m := (list_to_map entries : gmap Z (list Z)).

Lemma built_lookup c r : m !! c = Some r -> mapping c <> None /\ fully mapping c r.
Proof.
  intros I%elem_of_list_to_map_2. assert (mapping c <> None) as M.
  { apply (built_keys _ _ B). apply list_elem_of_fmap. by exists (c, r). }
  split; [done|]. pose proof (built_full _ _ B) as F. rewrite Forall_forall in F. specialize (F _ I). cbn in F.
  destruct r as [|x r]; [|by destruct F]. destruct (mapping c) as [d|] eqn:E; [|done].
  destruct (good c d E) as (_ & _ & N & _). exfalso. apply N. unfold full_result, stays in F. by rewrite E in F.
Qed.

Lemma built_none c : m !! c = None <-> mapping c = None.
Proof.
  rewrite <- not_elem_of_list_to_map, (built_keys _ _ B). destruct (mapping c); [|tauto]. split; [|done]. intros H. by destruct H.
Qed.

(** A lookup, with the code point itself for a missing entry, is the full decomposition. *)
Lemma built_fully c : fully mapping c (default [c] (m !! c)).
Proof.
  destruct (m !! c) as [r|] eqn:E; cbn; [by apply built_lookup in E as [_ ?]|]. apply built_none in E.
  constructor. unfold stays. by rewrite E.
Qed.

Lemma fully_plain c out : fully mapping c out -> plain_rune c -> Forall plain_rune out.
Proof using good.
  revert c out. apply (fully_mut mapping (fun c out _ => plain_rune c -> Forall plain_rune out)
    (fun d out _ => Forall plain_rune d -> Forall plain_rune out)).
  - intros c _ P. by constructor.
  - intros c d out M _ _ IH _. apply IH. by destruct (good c d M) as (_ & _ & _ & ?).
  - done.
  - intros c d out outs _ IH1 _ IH2 [P F]%Forall_cons. apply Forall_app. auto.
Qed.

Lemma built_data x : x ∈ concat entries.*2 -> plain_rune x /\ mapping x = None.
Proof.
  rewrite list_elem_of_In, in_concat. intros (r & ([c r'] & E & I)%list_elem_of_In%list_elem_of_fmap & Hx%list_elem_of_In).
  cbn in E. subst r'.
  assert (m !! c = Some r) as L.
  { apply elem_of_list_to_map; [|done]. eapply sorted_NoDup, B. }
  apply built_lookup in L as [M F]. destruct (mapping c) as [d|] eqn:E; [|done].
  pose proof (fully_plain c r F ltac:(apply (good c d E))) as P. pose proof (fully_stays _ _ _ F) as S.
  rewrite Forall_forall in P, S. split; [by apply P|]. specialize (S x Hx). unfold stays in S.
  destruct (mapping x) as [d'|] eqn:E'; [|done]. destruct (good x d' E') as (_ & _ & N & _). by destruct N.
Qed.

Abbreviation offs := (offsets 0 entries ++ [total_length entries]).

Lemma built_closed : check_closed entries.*1 offs (concat entries.*2) = true.
Proof.
  unfold check_closed. rewrite entries_table. apply andb_true_iff. rewrite !forallb_forall. split.
  - intros c I%list_elem_of_In. apply (built_keys _ _ B) in I. destruct (mapping c) as [d|] eqn:E; [|done].
    destruct (good c d E) as (_ & -> & _). done.
  - intros x I%list_elem_of_In. destruct (built_data x I) as [[-> ->] N]. apply built_none in N. by rewrite N.
Qed.

Lemma built_map_expand c : is_syllable c = false -> map_expand m c = default [c] (m !! c).
Proof using Type. unfold map_expand. by intros ->. Qed.

Lemma built_composed (pairs : list (Z * Z)) :
  Forall (fun '(k, c) => exists a b, mapping c = Some [a; b] /\ k = pair_key a b) pairs ->
  check_composed entries.*1 offs (concat entries.*2) pairs.*1 pairs.*2 = true.
Proof.
  intros F. unfold check_composed. rewrite entries_table, zip_fst_snd. apply forallb_forall.
  intros [k c] I%list_elem_of_In. rewrite Forall_forall in F. destruct (F _ I) as (a & b & M & ->).
  destruct (good c _ M) as ([Sc Yc] & _ & _ & [[Sa Ya] [[Sb Yb] _]%Forall_cons]%Forall_cons).
  assert (forall x, is_scalar x = true -> 0 <= x < 2 ^ 32) as R by (unfold is_scalar; lia).
  destruct (pair_key_parts a b) as [-> ->]; [by apply R|by apply R|]. rewrite Sc. cbn [andb].
  apply bool_decide_eq_true. rewrite !built_map_expand by done.
  pose proof (built_fully c) as Fc. inversion Fc as [? St|? d out M' N' Fd]; subst.
  { unfold stays in St. by rewrite M in St. }
  rewrite M in M'. injection M' as <-. inversion Fd as [|? ? oa ? Fa Fd']; subst. inversion Fd' as [|? ? ob ? Fb Fd'']; subst.
  inversion Fd''; subst. rewrite app_nil_r. f_equal; eapply fully_fun; (done || apply built_fully).
Qed.

End Built.

(** ** Lemmas: the generator's tables *)

(** A primary composite: a pair, not excluded by script, and begun by a starter. *)
Definition primary (u : unicodeData) (ex : gset Z) (c : Z) (d : list Z) : Prop :=
  length d = 2%nat /\ (c ∉ ex) /\ excluded_decomposition u d = false.

(** What the Unicode Character Database promises of its files. *)
Record well_formed (u : unicodeData) (ex : gset Z) : Prop := {
  wf_ccc : map_Forall (fun cp n => is_scalar cp = true /\ is_jamo cp = false /\ 0 <= n <= 255) (ccc u);
  wf_decomp : map_Forall good_entry (decomp u);
  wf_compat : map_Forall good_entry (compatDecomp u);
  wf_disjoint : map_Forall (fun cp _ => compatDecomp u !! cp = None) (decomp u);
  wf_primary : map_Forall (fun c d => map_Forall (fun c' d' =>
    primary u ex c d -> primary u ex c' d' -> d = d' -> c = c') (decomp u)) (decomp u)
}.

#[global] Instance plain_rune_dec x : Decision (plain_rune x).
Proof. unfold plain_rune. apply _. Defined.
#[global] Instance good_entry_dec c d : Decision (good_entry c d).
Proof. unfold good_entry. apply _. Defined.
#[global] Instance primary_dec u ex c d : Decision (primary u ex c d).
Proof. unfold primary. apply _. Defined.

Section Generated.
Context `{SliceSort, MapRange} (u : unicodeData) (ex : gset Z).

Lemma range_keys {V} site (m : gmap Z V) c : c ∈ ((range_map site m).*1) <-> is_Some (m !! c).
Proof using Type.
  rewrite (range_map_perm site m), list_elem_of_fmap. split.
  - intros ([k v] & -> & I%elem_of_map_to_list). by exists v.
  - intros [v Hv]. exists (c, v). split; [done|]. by apply elem_of_map_to_list.
Qed.

Lemma range_keys_NoDup {V} site (m : gmap Z V) : NoDup ((range_map site m).*1).
Proof using Type. rewrite (range_map_perm site m). apply NoDup_fst_map_to_list. Qed.

Lemma fullExclusion_spec cp :
  cp ∈ fullExclusion u ex <-> cp ∈ ex \/ exists d, decomp u !! cp = Some d /\ excluded_decomposition u d = true.
Proof using Type.
  unfold fullExclusion. set (step := fun (ex : gset Z) (entry : Z * list Z) => let '(cp, d) := entry in _).
  assert (forall l e, cp ∈ fold_left step l e <-> cp ∈ e \/ exists d, (cp, d) ∈ l /\ excluded_decomposition u d = true) as F.
  { induction l as [|[c d] l IH]; intros e; cbn [fold_left].
    - split; [by left|]. intros [?|(d & I & _)]; [done|by apply elem_of_nil in I].
    - rewrite IH. setoid_rewrite elem_of_cons. cbn [step]. destruct (excluded_decomposition u d) eqn:E.
      + rewrite elem_of_union, elem_of_singleton.
        split; [intros [[->|?]|(d' & ? & ?)]; eauto 6|]. intros [?|(d' & [[= -> ->]|?] & ?)]; eauto 6.
      + split; [intros [?|(d' & ? & ?)]; eauto 6|]. intros [?|(d' & [[= -> ->]|?] & ?)]; [eauto|congruence|eauto 6]. }
  rewrite F. apply or_iff_compat_l. split; intros (d & I & E); exists d; (split; [|done]).
  - by rewrite (range_map_perm 1 (decomp u)), elem_of_map_to_list in I.
  - by rewrite (range_map_perm 1 (decomp u)), elem_of_map_to_list.
Qed.

Lemma composition_pairs_spec k c :
  (k, c) ∈ composition_pairs u ex <->
  exists a b, decomp u !! c = Some [a; b] /\ primary u ex c [a; b] /\ k = pair_key a b.
Proof using Type.
  unfold composition_pairs. rewrite (sort_Slice_perm fst), list_elem_of_omap. setoid_rewrite (range_map_perm 2 (decomp u)). split.
  - intros ([cp d] & I%elem_of_map_to_list & E). unfold composition_pair in E. destruct d as [|a [|b [|]]]; try done.
    case_bool_decide as X; [done|]. injection E as <- <-. exists a, b. rewrite fullExclusion_spec in X.
    split_and!; [done| |done]. unfold primary. split_and!; [done|tauto|]. destruct (excluded_decomposition u [a; b]) eqn:Ex; [|done].
    destruct X. eauto.
  - intros (a & b & D & (_ & N & Ex) & ->). exists (c, [a; b]). split; [by apply elem_of_map_to_list|].
    unfold composition_pair. rewrite bool_decide_false; [done|]. rewrite fullExclusion_spec. intros [?|(d & D' & Ex')]; [done|].
    rewrite D in D'. injection D' as <-. congruence.
Qed.

Lemma compatCps_spec c : is_Some (compatCps u !! c) <-> compat_mapping u c <> None.
Proof using Type.
  unfold compatCps, compat_mapping.
  assert (forall cps (m : gmap Z bool), is_Some (fold_left (fun m cp => <[cp := true]> m) cps m !! c) <-> c ∈ cps \/ is_Some (m !! c)) as F.
  { induction cps as [|cp cps IH]; intros m; cbn [fold_left]; [rewrite elem_of_nil; tauto|].
    rewrite IH, elem_of_cons, lookup_insert_is_Some. destruct (decide (cp = c)) as [->|]; intuition congruence. }
  rewrite F, elem_of_app, !range_keys, lookup_empty. destruct (compatDecomp u !! c) as [d|].
  - split; [done|]. intros _. left. right. by exists d.
  - destruct (decomp u !! c) as [d|]; split; [done|intros _; left; left; by exists d| |done].
    intros [[[? ?]|[? ?]]|[? ?]]; done.
Qed.

(** The code points with a mapping, which bound the recursion. *)
Lemma decomp_dom c : decomp u !! c <> None -> c ∈ dom (decomp u).
Proof using Type. intros Hc. apply elem_of_dom. by apply not_eq_None_Some. Qed.

Lemma compat_dom c : compat_mapping u c <> None -> c ∈ dom (decomp u) ∪ dom (compatDecomp u).
Proof using Type.
  unfold compat_mapping. rewrite elem_of_union, !elem_of_dom.
  destruct (compatDecomp u !! c); [right; by eexists|left; by apply not_eq_None_Some].
Qed.

Lemma decomp_size : (size (dom (decomp u) : gset Z) <= S (size (decomp u)))%nat.
Proof using Type. rewrite size_dom. lia. Qed.

Lemma compat_size :
  (size (dom (decomp u) ∪ dom (compatDecomp u) : gset Z) <= S (size (decomp u) + size (compatDecomp u)))%nat.
Proof using Type.
  rewrite size_union_alt. assert (dom (compatDecomp u) ∖ dom (decomp u) ⊆ dom (compatDecomp u)) as L%subseteq_size by set_solver.
  rewrite !size_dom in *. lia.
Qed.

Lemma built_sort mapping cps entries : NoDup cps -> Forall (fun c => -1 < c) cps -> (forall c, c ∈ cps <-> mapping c <> None) ->
  entries.*1 = cps -> Forall (fun e => full_result mapping e.1 e.2) entries ->
  built mapping (sort_Slice fst entries).
Proof using Type.
  intros N P K <- F. split.
  - apply (sort_Slice_keys fst); [done|]. exact (proj1 (Forall_fmap _ _ _) P).
  - intros c. by rewrite (sort_Slice_perm fst entries).
  - by rewrite (sort_Slice_perm fst entries).
Qed.

Hypothesis wf : well_formed u ex.

Lemma decomp_good c d : decomp u !! c = Some d -> good_entry c d.
Proof. intros E. by apply (wf_decomp _ _ wf) in E. Qed.

Lemma compat_good c d : compat_mapping u c = Some d -> good_entry c d.
Proof.
  unfold compat_mapping. destruct (compatDecomp u !! c) as [d'|] eqn:E; [intros [= <-]; by apply (wf_compat _ _ wf) in E|].
  apply decomp_good.
Qed.

Lemma good_nonneg c d : good_entry c d -> -1 < c.
Proof using Type. intros ([S _] & _). unfold is_scalar in S. lia. Qed.

Lemma deco_built entries : deco_entries u = Ok entries -> built (fun c => decomp u !! c) entries.
Proof.
  unfold deco_entries.
  pose proof (decompose_all_spec (fun c => decomp u !! c) _ (decomp_dom) _ (range_map 3 (decomp u)).*1 no_memo (decomp_size)) as X.
  change (expand_cp _ _) with (fullyDecompose u) in X. destruct (decompose_all (fullyDecompose u) _ no_memo) as [es|]; [|done]. intros [= <-].
  destruct X as [K F]; [done|intros c r; cbn; by rewrite lookup_empty|].
  apply (built_sort _ (range_map 3 (decomp u)).*1); [apply range_keys_NoDup| | |exact K|done].
  - apply Forall_forall. intros c [d Hd]%range_keys. by eapply good_nonneg, decomp_good.
  - intros c. rewrite range_keys. symmetry. apply not_eq_None_Some.
Qed.

Lemma compat_built entries : compat_entries u = Ok entries -> built (compat_mapping u) entries.
Proof.
  unfold compat_entries.
  pose proof (decompose_all_spec (compat_mapping u) _ (compat_dom) _ (range_map 6 (compatCps u)).*1 no_memo (compat_size)) as X.
  change (expand_cp _ _) with (fullyDecomposeCompat u) in X. destruct (decompose_all (fullyDecomposeCompat u) _ no_memo) as [es|]; [|done]. intros [= <-].
  destruct X as [K F]; [done|intros c r; cbn; by rewrite lookup_empty|].
  apply (built_sort _ (range_map 6 (compatCps u)).*1); [apply range_keys_NoDup| | |exact K|done].
  - apply Forall_forall. intros c I%range_keys%compatCps_spec. destruct (compat_mapping u c) as [d|] eqn:E; [|done].
    by eapply good_nonneg, compat_good.
  - intros c. by rewrite range_keys, compatCps_spec.
Qed.

End Generated.

Lemma scalar_32 x : is_scalar x = true -> 0 <= x < 2 ^ 32.
Proof. unfold is_scalar. lia. Qed.

Lemma pair_key_inj a b a' b' : 0 <= a < 2 ^ 32 -> 0 <= b < 2 ^ 32 -> 0 <= a' < 2 ^ 32 -> 0 <= b' < 2 ^ 32 ->
  pair_key a b = pair_key a' b' -> a = a' /\ b = b'.
Proof.
  intros A B A' B' E. destruct (pair_key_parts a b A B) as [P Q]. destruct (pair_key_parts a' b' A' B') as [P' Q'].
  rewrite E in P, Q. split; congruence.
Qed.

Lemma pair_key_range a b : 0 <= a < 2 ^ 32 -> 0 <= b < 2 ^ 32 -> 0 <= pair_key a b < 2 ^ 64.
Proof.
  intros A B. unfold pair_key. rewrite !Z.mod_small, Z.shiftl_mul_pow2 by lia.
  assert (Z.land (a * 2 ^ 32) b = 0) as E.
  { apply Z.bits_inj'. intros n Hn. rewrite Z.land_spec, Z.bits_0. destruct (Z.ltb_spec n 32).
    - by rewrite Z.mul_pow2_bits_low.
    - replace (Z.testbit b n) with false; [by rewrite andb_false_r|]. symmetry.
      destruct (decide (b = 0)) as [->|]; [apply Z.bits_0|]. apply Z.bits_above_log2; [lia|].
      apply Z.log2_lt_pow2; [lia|]. assert (2 ^ 32 <= 2 ^ n) by (apply Z.pow_le_mono_r; lia). lia. }
  rewrite <- (Z.lxor_lor _ _ E), <- (Z.add_nocarry_lxor _ _ E). nia.
Qed.

Section Pairs.
Context `{SliceSort, MapRange} (u : unicodeData) (ex : gset Z) (wf : well_formed u ex).

Lemma pair_entry k c : (k, c) ∈ composition_pairs u ex -> exists a b,
  decomp u !! c = Some [a; b] /\ primary u ex c [a; b] /\ k = pair_key a b /\ 0 <= a < 2 ^ 32 /\ 0 <= b < 2 ^ 32 /\ is_scalar c = true.
Proof.
  intros (a & b & D & P & ->)%composition_pairs_spec. exists a, b.
  destruct (decomp_good _ _ wf _ _ D) as ([Sc _] & _ & _ & [[Sa _] [[Sb _] _]%Forall_cons]%Forall_cons).
  split_and!; [done..|by apply scalar_32|by apply scalar_32|by apply scalar_32|by apply scalar_32|done].
Qed.

Lemma omap_pairs_NoDup e l : NoDup l.*1 -> NoDup (omap (composition_pair e) l).
Proof using Type.
  intros N. apply (NoDup_fmap_1 snd). induction l as [|[c d] l IH]; [constructor|]. cbn in N. apply NoDup_cons in N as [Nc N].
  specialize (IH N). cbn [omap list_omap]. destruct (composition_pair e (c, d)) as [[k c']|] eqn:E; [|done].
  assert (c' = c) as -> by (unfold composition_pair in E; repeat case_match; congruence).
  cbn. apply NoDup_cons. split; [|done]. intros ([k' c''] & E' & ([c3 d3] & I & E3)%list_elem_of_omap)%list_elem_of_fmap.
  cbn in E'. subst c''. assert (c3 = c) as -> by (unfold composition_pair in E3; repeat case_match; congruence).
  apply Nc. apply list_elem_of_fmap. by exists (c, d3).
Qed.

Lemma pairs_NoDup : NoDup (omap (composition_pair (fullExclusion u ex)) (range_map 2 (decomp u))).*1.
Proof.
  apply NoDup_fmap_2_strong; [|apply omap_pairs_NoDup, range_keys_NoDup].
  intros [k c] [k' c'] I I'. cbn. intros <-.
  rewrite <- (sort_Slice_perm fst) in I, I'. apply pair_entry in I as (a & b & D & P & -> & A & B & _).
  apply pair_entry in I' as (a' & b' & D' & P' & E & A' & B' & _).
  apply pair_key_inj in E as [<- <-]; [|done..]. f_equal.
  pose proof (wf_primary _ _ wf _ _ D) as W. cbn in W. by apply (W _ _ D').
Qed.

Lemma pairs_sorted : sorted_from (-1) (composition_pairs u ex).*1 = true.
Proof.
  apply (sort_Slice_keys fst); [apply pairs_NoDup|]. apply Forall_forall. intros [k c] I.
  rewrite <- (sort_Slice_perm fst) in I. apply pair_entry in I as (a & b & _ & _ & -> & A & B & _).
  pose proof (pair_key_range a b A B). cbn. lia.
Qed.

Lemma pairs_mapping mapping : (forall c d, decomp u !! c = Some d -> mapping c = Some d) ->
  Forall (fun '(k, c) => exists a b, mapping c = Some [a; b] /\ k = pair_key a b) (composition_pairs u ex).
Proof.
  intros M. apply Forall_forall. intros [k c] (a & b & D & _ & E & _)%pair_entry. exists a, b. split; [by apply M|done].
Qed.

Lemma pairs_lookup a b c : 0 <= a < 2 ^ 32 -> 0 <= b < 2 ^ 32 ->
  (list_to_map (composition_pairs u ex) : gmap Z Z) !! pair_key a b = Some c <->
  decomp u !! c = Some [a; b] /\ primary u ex c [a; b].
Proof.
  intros A B. rewrite <- elem_of_list_to_map by (eapply sorted_NoDup, pairs_sorted). split.
  - intros (a' & b' & D & P & E & A' & B' & _)%pair_entry. by apply pair_key_inj in E as [-> ->].
  - intros [D P]. apply composition_pairs_spec. by exists a, b.
Qed.

Lemma ccc_sorted : sorted_from (-1) (ccc_entries u).*1 = true.
Proof.
  apply (sort_Slice_keys fst); [apply range_keys_NoDup|]. apply Forall_forall. intros [c n] I.
  rewrite (range_map_perm 7 (ccc u)), elem_of_map_to_list in I. apply (wf_ccc _ _ wf) in I as (S & _).
  apply scalar_32 in S. cbn. lia.
Qed.

Lemma ccc_map : (list_to_map (ccc_entries u) : gmap Z Z) = ccc u.
Proof using Type.
  unfold ccc_entries. rewrite <- (list_to_map_to_list (ccc u)) at 2. symmetry. apply list_to_map_proper; [apply NoDup_fst_map_to_list|].
  by rewrite (sort_Slice_perm fst (range_map 7 (ccc u))), (range_map_perm 7 (ccc u)).
Qed.

End Pairs.

End UnicodeGenFacts.
