(* ===== verification/UnicodeGenTheorems.v ===== *)
(** * internal/unicodenorm/gen: the theorems

    The tables the generator builds from any files that keep the promises of the Unicode Character
    Database ([well_formed]) are the ones norm.go needs: looking a code point up is decomposing it to a
    fixed point, and normalization with them decides equivalence. *)
From Stdlib Require Import ZArith Lia Bool.
From stdpp Require Import base list gmap strings sorting.
From S2P Require Import Prelude GoStrings Utf8 NormTables Unicodenorm NormTheorems GenText UnicodeGen.
Import NormFacts UnicodeGenFacts.

Section Tables.
Context `{SliceSort, MapRange} (u : unicodeData) (ex : gset Z) (wf : well_formed u ex).

Lemma build_tables_inv T : build_tables u ex = Ok T ->
  exists deco compat, built (fun c => decomp u !! c) deco /\ built (compat_mapping u) compat /\
    T = tables_of (ccc_entries u) deco compat (composition_pairs u ex).
Proof.
  unfold build_tables. destruct (deco_entries u) as [deco|] eqn:D; [|done]. destruct (compat_entries u) as [compat|] eqn:C; [|done].
  intros [= <-]. exists deco, compat. split_and!; [by eapply deco_built|by eapply compat_built|done].
Qed.

Lemma decomp_in_compat c d : decomp u !! c = Some d -> compat_mapping u c = Some d.
Proof. intros D. unfold compat_mapping. by rewrite (wf_disjoint _ _ wf _ _ D). Qed.

Section Laws.
Context (deco compat : list (Z * list Z)) (BD : built (fun c => decomp u !! c) deco) (BC : built (compat_mapping u) compat).

Abbreviation T := (tables_of (ccc_entries u) deco compat (composition_pairs u ex)).

Lemma tables_class r : @combiningClass T r = ccOf u r.
Proof using wf.
  unfold combiningClass, ccOf. change (@ccc_key T) with (ccc_entries u).*1. change (@ccc_val T) with (ccc_entries u).*2.
  rewrite <- (ccc_map u), <- entries_value by (by eapply ccc_sorted).
  by destruct (key_index (ccc_entries u).*1 r).
Qed.

Lemma tables_ClassTable : @ClassTable T.
Proof using wf.
  split.
  - intros r. rewrite tables_class. unfold ccOf. destruct (ccc u !! r) as [n|] eqn:E; cbn; [|lia].
    apply (wf_ccc _ _ wf) in E. cbn in E. lia.
  - intros j J. rewrite tables_class. unfold ccOf. destruct (ccc u !! j) as [n|] eqn:E; [|done].
    apply (wf_ccc _ _ wf) in E as (_ & N & _). unfold is_jamo in N. destruct J as [J|[J|J]]; rewrite J, ?orb_true_r in N; done.
Qed.

Lemma pairs_length : length (composition_pairs u ex).*2 = length (composition_pairs u ex).*1.
Proof using Type. by rewrite !length_fmap. Qed.

Lemma tables_canonical : @Decomposition T (@decompose T).
Proof.
  exact (@decomposition_laws T deco.*1 _ _ (entries_table_ok deco (built_sorted _ _ BD))
    (built_closed _ (decomp_good u ex wf) deco BD) (pairs_sorted u ex wf) pairs_length
    (built_composed _ (decomp_good u ex wf) deco BD _ (pairs_mapping u ex wf _ (fun c d E => E)))).
Qed.

Lemma tables_compatibility : @Decomposition T (@compatDecompose T).
Proof.
  exact (@decomposition_laws T compat.*1 _ _ (entries_table_ok compat (built_sorted _ _ BC))
    (built_closed _ (compat_good u ex wf) compat BC) (pairs_sorted u ex wf) pairs_length
    (built_composed _ (compat_good u ex wf) compat BC _ (pairs_mapping u ex wf _ decomp_in_compat))).
Qed.

(** Looking up an entry, with the code point itself for a missing one. *)
Lemma lookup_fully mapping entries r : (forall c d, mapping c = Some d -> good_entry c d) -> built mapping entries ->
  is_syllable r = false ->
  fully mapping r (expand (decompose_in entries.*1 (offsets 0 entries ++ [total_length entries]) (concat entries.*2)) r).
Proof using Type.
  intros G B Hs. rewrite expand_map by (by apply entries_table_ok, (built_sorted mapping)).
  rewrite entries_table. unfold map_expand. rewrite Hs. by apply built_fully.
Qed.

Lemma tables_composePair a b c : scalar a -> scalar b ->
  isHangulL a && isHangulV b = false -> isHangulLV a && isHangulT b = false ->
  @composePair T a b = Some c <-> decomp u !! c = Some [a; b] /\ primary u ex c [a; b].
Proof using wf.
  intros A B N1 N2. unfold composePair. rewrite N1, N2.
  change (@compose_key T) with (composition_pairs u ex).*1. change (@compose_val T) with (composition_pairs u ex).*2.
  rewrite entries_value by (by eapply pairs_sorted).
  apply pairs_lookup; [done|unfold scalar in *; lia..].
Qed.

End Laws.
End Tables.

(** ** Theorems *)

(** The tables generated from well-formed files answer norm.go's lookups: the combining class is the
    file's; the decomposition of a code point, Hangul apart, is the fixed point of the file's one-level
    mappings, canonical and compatibility; a pair composes to the primary composites of the file. *)
Theorem generated_tables_lookup `{SliceSort, MapRange} udData ceData u ex T :
  parseUnicodeData udData = Ok u -> parseCompositionExclusions ceData = Ok ex -> well_formed u ex ->
  generate udData ceData = Ok T ->
  (forall r, @combiningClass T r = ccOf u r) /\
  (forall r, is_syllable r = false ->
    fully (fun c => decomp u !! c) r (expand (@decompose T) r) /\
    fully (compat_mapping u) r (expand (@compatDecompose T) r)) /\
  (forall a b c, scalar a -> scalar b ->
    isHangulL a && isHangulV b = false -> isHangulLV a && isHangulT b = false ->
    @composePair T a b = Some c <-> decomp u !! c = Some [a; b] /\ primary u ex c [a; b]).
Proof.
  unfold generate. intros -> -> W B. apply (build_tables_inv u ex W) in B as (deco & compat & BD & BC & ->). split_and!.
  - by apply tables_class.
  - intros r Hs. split; [by apply lookup_fully; [eapply decomp_good|..]|by apply lookup_fully; [eapply compat_good|..]].
  - by apply tables_composePair.
Qed.

(** With tables generated from well-formed files the forms are idempotent and two strings have the same
    form exactly when their decompositions are the same. *)
Lemma normalizer_laws `{SliceSort, MapRange} u ex T s t : well_formed u ex -> build_tables u ex = Ok T ->
  (@NFC T s = @NFC T t <-> @canonicalOrder T (@decomposeString T s) = @canonicalOrder T (@decomposeString T t)) /\
  (@NFKC T s = @NFKC T t <->
    @canonicalOrder T (@decomposeCompatString T s) = @canonicalOrder T (@decomposeCompatString T t)) /\
  @NFC T (@NFC T s) = @NFC T s /\ @NFKC T (@NFKC T s) = @NFKC T s.
Proof.
  intros W B. apply (build_tables_inv u ex W) in B as (deco & compat & BD & BC & ->).
  pose proof (tables_ClassTable u ex W deco compat) as CT.
  pose proof (tables_canonical u ex W deco compat BD) as DC. pose proof (tables_compatibility u ex W deco compat BC) as DK.
  set (T := tables_of _ _ _ _) in *.
  assert (forall f, @Decomposition T f -> @normalized T f s = @normalized T f t <->
    @canonicalOrder T (decomposed f s) = @canonicalOrder T (decomposed f t)) as E.
  { intros f Df. split; [|by unfold normalized; intros ->]. intros N.
    by rewrite <- (@normalized_decomposed T _ f _ s), <- (@normalized_decomposed T _ f _ t), N. }
  split_and!; [by apply (E (@decompose T))|by apply (E (@compatDecompose T))|..].
  - by apply (@normalized_idem T _ (@decompose T)).
  - by apply (@normalized_idem T _ (@compatDecompose T)).
Qed.

Lemma no_reachable_cycle mapping (cps : list Z) : (forall c, mapping c <> None -> c ∈ cps) ->
  (forall c b, c ∈ cps -> rtc (child mapping) c b -> ~ tc (child mapping) b b) <-> forall c, ~ tc (child mapping) c c.
Proof.
  intros K. split; [|by intros N c b _ _; apply N]. intros N c T. apply (N c c); [|done|done]. apply K.
  assert (exists b, child mapping c b) as (b & d & M & _) by (inversion T; subst; eauto). congruence.
Qed.

(** the recursive, memoized decomposition comes to an end on every input: the generator fails exactly
    when the mappings of the files have a cycle, and never otherwise. *)
Theorem build_tables_succeeds `{SliceSort, MapRange} u ex :
  is_ok (build_tables u ex) = true <->
  (forall c, ~ tc (child (fun c => decomp u !! c)) c c) /\ (forall c, ~ tc (child (compat_mapping u)) c c).
Proof.
  rewrite <- (no_reachable_cycle (fun c => decomp u !! c) (range_map 3 (decomp u)).*1)
    by (intros c Hc; apply range_keys; by apply not_eq_None_Some).
  rewrite <- (no_reachable_cycle (compat_mapping u) (range_map 6 (compatCps u)).*1)
    by (intros c Hc; by apply range_keys, compatCps_spec).
  rewrite <- (decompose_all_ok _ _ (decomp_dom u) _ _ (decomp_size u)).
  rewrite <- (decompose_all_ok _ _ (compat_dom u) _ _ (compat_size u)).
  unfold build_tables, deco_entries, compat_entries, fullyDecompose, fullyDecomposeCompat.
  change (fun (cp : Z) (m : memo) => expand_cp ?f ?n cp m) with (expand_cp f n).
  destruct (decompose_all _ (range_map 3 (decomp u)).*1 no_memo), (decompose_all _ (range_map 6 (compatCps u)).*1 no_memo);
    cbn; intuition.
Qed.

(** No code point comes up again when it is decomposed, at whatever depth. *)
Definition acyclic (mapping : Z -> option (list Z)) : Prop := forall c, ~ tc (child mapping) c c.

(** C36: run on a UnicodeData.txt and a CompositionExclusions.txt that parse to mappings keeping the
    promises of the Unicode Character Database ([well_formed]: scalar values throughout, Hangul syllables
    in no mapping, no class over 255 or on a Hangul jamo, no code point with both a canonical and a
    compatibility mapping, no two primary composites of one pair), the generator succeeds exactly when
    neither the canonical mappings nor the canonical and compatibility mappings together have a cycle.
    The tables it then builds, in whatever order maps are iterated and equal keys sorted, carry the
    files: the combining class of every code point is the one UnicodeData.txt gives it; every code
    point but a Hangul syllable decomposes to what the file's one-level mappings, canonical or both,
    come to when applied until none applies; two scalar values that are no Hangul jamo pair compose to
    exactly the code point that the file maps to the two, unless it is listed in the exclusions or its
    mapping begins with a non-starter. With these tables NFC
    decides canonical equivalence and NFKC compatibility equivalence, and both are idempotent. *)
Theorem generated_normalizer `{SliceSort, MapRange} udData ceData u ex :
  parseUnicodeData udData = Ok u -> parseCompositionExclusions ceData = Ok ex -> well_formed u ex ->
  (is_ok (generate udData ceData) = true <-> acyclic (fun c => decomp u !! c) /\ acyclic (compat_mapping u)) /\
  forall T, generate udData ceData = Ok T ->
    (forall r, @combiningClass T r = ccOf u r) /\
    (forall r, is_syllable r = false ->
      fully (fun c => decomp u !! c) r (expand (@decompose T) r) /\
      fully (compat_mapping u) r (expand (@compatDecompose T) r)) /\
    (forall a b c, scalar a -> scalar b ->
      isHangulL a && isHangulV b = false -> isHangulLV a && isHangulT b = false ->
      @composePair T a b = Some c <-> decomp u !! c = Some [a; b] /\ primary u ex c [a; b]) /\
    (forall s t,
      (@NFC T s = @NFC T t <-> @canonicalOrder T (@decomposeString T s) = @canonicalOrder T (@decomposeString T t)) /\
      (@NFKC T s = @NFKC T t <->
        @canonicalOrder T (@decomposeCompatString T s) = @canonicalOrder T (@decomposeCompatString T t)) /\
      @NFC T (@NFC T s) = @NFC T s /\ @NFKC T (@NFKC T s) = @NFKC T s).
Proof.
  intros P X W. assert (generate udData ceData = build_tables u ex) as G by (unfold generate; by rewrite P, X).
  split; [rewrite G; apply build_tables_succeeds|]. intros T B.
  destruct (generated_tables_lookup udData ceData u ex T P X W B) as (L1 & L2 & L3). rewrite G in B.
  split_and!; [done..|]. intros s t. by apply (normalizer_laws u ex T).
Qed.

(** ** Iteration order and sorting do not matter *)

Lemma sorted_unique (l l' : list Z) lo : sorted_from lo l = true -> sorted_from lo l' = true ->
  (forall c, c ∈ l <-> c ∈ l') -> l = l'.
Proof.
  assert (forall l lo c, sorted_from lo l = true -> c ∈ l -> lo < c) as L.
  { intros k. induction k as [|x k IH]; intros b c S I; [by apply elem_of_nil in I|]. cbn in S. apply andb_true_iff in S as [S1 S2].
    apply elem_of_cons in I as [->|I]; [lia|]. specialize (IH _ _ S2 I). lia. }
  revert l' lo. induction l as [|x l IH]; intros [|y l'] lo S S' E.
  - done.
  - assert (y ∈ []) as I by (apply E; by left). by apply elem_of_nil in I.
  - assert (x ∈ []) as I by (apply E; by left). by apply elem_of_nil in I.
  - cbn in S, S'. apply andb_true_iff in S as [S1 S2], S' as [S1' S2'].
    assert (x = y) as ->.
    { destruct (proj1 (elem_of_cons l' x y) (proj1 (E x) ltac:(by left))) as [?|I]; [done|].
      destruct (proj1 (elem_of_cons l y x) (proj2 (E y) ltac:(by left))) as [?|I']; [done|].
      pose proof (L _ _ _ S2' I). pose proof (L _ _ _ S2 I'). lia. }
    f_equal. apply (IH _ y S2 S2'). intros c. specialize (E c). rewrite !elem_of_cons in E.
    split; intros I; [pose proof (L _ _ _ S2 I)|pose proof (L _ _ _ S2' I)]; (assert (c <> y) by lia); tauto.
Qed.

Lemma built_unique mapping e e' : built mapping e -> built mapping e' -> e = e'.
Proof.
  intros B B'. assert (e.*1 = e'.*1) as K.
  { eapply sorted_unique; [apply (built_sorted _ _ B)|apply (built_sorted _ _ B')|].
    intros c. by rewrite (built_keys _ _ B), (built_keys _ _ B'). }
  pose proof (built_full _ _ B) as F. pose proof (built_full _ _ B') as F'. clear B B'. revert e' K F'.
  induction F as [|[c r] e R F IH]; intros [|[c' r'] e'] K F'; try done. cbn in K. injection K as -> K.
  apply Forall_cons in F' as [R' F']. f_equal; [|by apply IH]. f_equal. by eapply full_result_fun.
Qed.

Lemma range_same {V} (R1 R2 : MapRange) i j (m : gmap Z V) : @range_map R1 V i m ≡ₚ @range_map R2 V j m.
Proof. by rewrite (range_map_perm i m), (range_map_perm j m). Qed.

Lemma fullExclusion_same (R1 R2 : MapRange) u ex : @fullExclusion R1 u ex = @fullExclusion R2 u ex.
Proof. apply set_eq. intros c. by rewrite !fullExclusion_spec. Qed.

(** The tables do not depend on the order of any iteration over a map, nor on the sort. *)
Theorem build_tables_deterministic (S1 S2 : SliceSort) (R1 R2 : MapRange) u ex : well_formed u ex ->
  is_ok (@build_tables S1 R1 u ex) = is_ok (@build_tables S2 R2 u ex) /\
  forall T T', @build_tables S1 R1 u ex = Ok T -> @build_tables S2 R2 u ex = Ok T' -> T = T'.
Proof.
  intros W. split; [apply eq_true_iff_eq; by rewrite !build_tables_succeeds|]. intros T T' B B'.
  apply (build_tables_inv u ex W) in B as (deco & compat & BD & BC & ->).
  apply (build_tables_inv u ex W) in B' as (deco' & compat' & BD' & BC' & ->).
  assert (deco = deco') as -> by (by eapply built_unique). assert (compat = compat') as -> by (by eapply built_unique).
  f_equal.
  - apply (sort_Slice_unique S1 S2 fst); [apply range_same|]. change (map fst ?l) with l.*1. apply range_keys_NoDup.
  - unfold composition_pairs. rewrite (fullExclusion_same R1 R2). apply (sort_Slice_unique S1 S2 fst).
    + apply omap_Permutation, range_same.
    + change (map fst ?l) with l.*1. rewrite <- (fullExclusion_same R1 R2). by apply pairs_NoDup.
Qed.

(** ** The printed arrays read back *)

Lemma elements_back {A} per (show : A -> bytes) values l rest : Forall (shows show values) l ->
  exists q, spaced q = true /\ numbers (print_elements per show 0 l ++ rest) = concat (map values l) ++ numbers (q ++ rest).
Proof.
  intros F. destruct (numbers_elements show values per l F 0 [] eq_refl) as (q & Q & E). exists q. split; [done|]. apply (E rest).
Qed.

Lemma elements_numbers per show l : Forall (shows show (fun n => [n])) l -> numbers (print_elements per show 0 l) = l.
Proof.
  intros F. destruct (elements_back per show _ l [] F) as (q & Q & E). rewrite !app_nil_r in E.
  by rewrite E, (numbers_spaced q Q), app_nil_r, concat_singletons.
Qed.

Definition uint64 (n : Z) : Prop := 0 <= n < 2 ^ 64.

Lemma hex_elements_back per l : Forall uint64 l -> numbers (hex_elements per l) = l.
Proof. intros F. apply elements_numbers. eapply Forall_impl; [done|]. intros n. apply shows_hex. Qed.

Lemma dec_elements_back l : Forall uint64 l -> numbers (dec_elements l) = l.
Proof. intros F. apply elements_numbers. eapply Forall_impl; [done|]. intros n. apply shows_dec. Qed.

Lemma offset_elements_back l : Forall uint64 l -> l <> [] -> numbers (offset_elements l) = l.
Proof.
  intros F N. unfold offset_elements. rewrite (app_removelast_last 0 N) in F. apply Forall_app in F as [F [Fl _]%Forall_cons].
  destruct (elements_back 16 show_dec (fun n => [n]) (removelast l) (show_dec (List.last l 0))) as (q & Q & E).
  { eapply Forall_impl; [done|]. intros n. apply shows_dec. }
  destruct (shows_dec _ Fl q Q) as (q' & Q' & E'). specialize (E' []). rewrite !app_nil_r in E'.
  rewrite E, E', (numbers_spaced q' Q'), concat_singletons, app_nil_r. symmetry. by apply app_removelast_last.
Qed.

(** The arrays of the source, with their elements' text. *)
Definition printed_arrays (T : UCD) : list (bytes * list Z) :=
  [(hex_elements 16 (@ccc_key T), @ccc_key T); (dec_elements (@ccc_val T), @ccc_val T);
   (hex_elements 16 (@decomp_key T), @decomp_key T); (offset_elements (@decomp_offset T), @decomp_offset T);
   (hex_elements 16 (@decomp_data T), @decomp_data T);
   (hex_elements 16 (@compat_key T), @compat_key T); (offset_elements (@compat_offset T), @compat_offset T);
   (hex_elements 16 (@compat_data T), @compat_data T);
   (hex_elements 8 (@compose_key T), @compose_key T); (hex_elements 16 (@compose_val T), @compose_val T)].

Lemma scalar_64 x : is_scalar x = true -> uint64 x.
Proof. unfold is_scalar, uint64. lia. Qed.

Lemma offsets_range start entries n : 0 <= start -> start + total_length entries < 2 ^ 64 ->
  n ∈ offsets start entries ++ [start + total_length entries] -> uint64 n.
Proof.
  revert start. induction entries as [|[k d] entries IH]; intros start Hs L I.
  - unfold total_length in *. cbn in *. apply elem_of_cons in I as [->|[]%elem_of_nil]. unfold uint64. lia.
  - assert (start + Z.of_nat (length d) + total_length entries = start + total_length ((k, d) :: entries)) as E.
    { unfold total_length. cbn. rewrite length_app. lia. }
    assert (0 <= total_length entries) by (unfold total_length; lia). rewrite <- E in L.
    cbn [offsets] in I. rewrite <- app_comm_cons in I. apply elem_of_cons in I as [->|I]; [unfold uint64; lia|].
    rewrite <- E in I. apply (IH (start + Z.of_nat (length d))) in I; [done|lia|lia].
Qed.

Section Printed.
Context `{SliceSort, MapRange} (u : unicodeData) (ex : gset Z) (wf : well_formed u ex).

Lemma built_uint64 mapping entries : (forall c d, mapping c = Some d -> good_entry c d) -> built mapping entries ->
  Forall uint64 entries.*1 /\ Forall uint64 (concat entries.*2).
Proof using Type.
  intros G B. split; apply Forall_forall; intros x I.
  - apply (built_keys _ _ B) in I. destruct (mapping x) as [d|] eqn:E; [|done]. apply scalar_64, (G x d E).
  - apply (built_data mapping G entries B) in I as [[S _] _]. by apply scalar_64.
Qed.

Lemma offsets_back entries : total_length entries < 2 ^ 64 ->
  numbers (offset_elements (offsets 0 entries ++ [total_length entries])) = offsets 0 entries ++ [total_length entries].
Proof using Type.
  intros L. apply offset_elements_back; [|by destruct (offsets 0 entries)]. apply Forall_forall. intros n.
  by apply (offsets_range 0).
Qed.

End Printed.

(** What is printed is the tables: every array's text, read as numbers, is the array. *)
Theorem tables_source_arrays `{SliceSort, MapRange} u ex T : well_formed u ex -> build_tables u ex = Ok T ->
  Z.of_nat (length (@decomp_data T)) < 2 ^ 64 -> Z.of_nat (length (@compat_data T)) < 2 ^ 64 ->
  Forall (fun '(text, elements) => numbers text = elements) (printed_arrays T).
Proof.
  intros W B L1 L2. apply (build_tables_inv u ex W) in B as (deco & compat & BD & BC & ->).
  destruct (built_uint64 _ deco (decomp_good u ex W) BD) as [D1 D2].
  destruct (built_uint64 _ compat (compat_good u ex W) BC) as [C1 C2].
  assert (Forall (fun e => uint64 e.1 /\ uint64 e.2) (ccc_entries u)) as F.
  { apply Forall_forall. intros [c n] I. unfold ccc_entries in I. rewrite (sort_Slice_perm fst), (range_map_perm 7 (ccc u)) in I.
    apply elem_of_map_to_list, (wf_ccc _ _ W) in I as (S & _ & R). split; [by apply scalar_64|unfold uint64; cbn; lia]. }
  assert (Forall (fun e => uint64 e.1 /\ uint64 e.2) (composition_pairs u ex)) as P.
  { apply Forall_forall. intros [k c] (a & b & _ & _ & -> & A & Bb & S)%(pair_entry u ex W).
    split; [by apply pair_key_range|by apply scalar_64]. }
  repeat (apply Forall_cons; split);
    [apply hex_elements_back|apply dec_elements_back|apply hex_elements_back|by apply offsets_back|apply hex_elements_back|
     apply hex_elements_back|by apply offsets_back|apply hex_elements_back|apply hex_elements_back|apply hex_elements_back|
     by apply Forall_nil]; try done; cbn; apply Forall_fmap; eapply Forall_impl; try done; by intros ? [? ?].
Qed.

(** ** Round trip of UnicodeData.txt *)

Inductive mapping_field : Type :=
| NoMapping
| Canonical (d : list Z)
| Compatibility (tag : bytes) (d : list Z).

(** A record of the file: the fields the generator reads, and the others as they come. *)
Record ucd_entry : Type := {
  e_cp : Z; e_name : bytes; e_category : bytes; e_class : Z; e_bidi : bytes; e_mapping : mapping_field;
  e_rest : list bytes
}.

Definition mapping_text (m : mapping_field) : bytes :=
  match m with
  | NoMapping => []
  | Canonical d => Join (map hex4 d) [SP]
  | Compatibility tag d => "<"%byte :: tag ++ ">"%byte :: SP :: Join (map hex4 d) [SP]
  end.

Definition entry_line (e : ucd_entry) : bytes :=
  Join ([hex4 (e_cp e); e_name e; e_category e; Itoa (e_class e); e_bidi e; mapping_text (e_mapping e)] ++ e_rest e) ($";").

(** What a record adds to the maps. *)
Definition add_entry (u : unicodeData) (e : ucd_entry) : unicodeData := {|
  ccc := if e_class e =? 0 then ccc u else <[e_cp e := e_class e]> (ccc u);
  decomp := match e_mapping e with Canonical d => <[e_cp e := d]> (decomp u) | _ => decomp u end;
  compatDecomp := match e_mapping e with Compatibility _ d => <[e_cp e := d]> (compatDecomp u) | _ => compatDecomp u end
|}.

Definition field_ok (s : bytes) : bool := forallb (fun c => negb (mem_byte c [CR; LF]) && negb (c =b ";"%byte)) s.
Definition rune_ok (r : Z) : Prop := 0 <= r < 2 ^ 24.

Record entry_ok (e : ucd_entry) : Prop := {
  ok_cp : rune_ok (e_cp e);
  ok_class : 0 <= e_class e <= 255;
  ok_fields : Forall (fun s => field_ok s = true) (e_name e :: e_category e :: e_bidi e :: e_rest e);
  ok_mapping : match e_mapping e with
               | NoMapping => True
               | Canonical d => d <> [] /\ Forall rune_ok d
               | Compatibility tag d => d <> [] /\ Forall rune_ok d /\
                   forallb is_graph tag = true /\ no_byte ">"%byte tag = true /\ no_byte ";"%byte tag = true
               end
}.

Lemma graph_field s : forallb is_graph s = true -> no_byte ";"%byte s = true -> field_ok s = true.
Proof.
  unfold field_ok, no_byte. intros G N. apply forallb_forall. intros c I. rewrite forallb_forall in G, N.
  specialize (G c I). specialize (N c I). rewrite N, andb_true_r. clear N I. destruct c; first [discriminate G|reflexivity].
Qed.

Lemma hex_field s : forallb is_hex s = true -> field_ok s = true.
Proof. apply forallb_mono. intros c. destruct c; vm_compute; done. Qed.

Lemma field_ok_app s t : field_ok (s ++ t) = field_ok s && field_ok t.
Proof. apply forallb_app. Qed.

Lemma hex4_words d : Forall rune_ok d -> Forall (fun w => forallb is_graph w = true /\ w <> []) (map hex4 d).
Proof. intros F. apply Forall_fmap. eapply Forall_impl; [done|]. intros r R. by destruct (hex4_spec r R) as (_ & ? & ? & _). Qed.

Lemma hex4_words_field d : Forall rune_ok d -> field_ok (Join (map hex4 d) [SP]) = true.
Proof.
  induction 1 as [|r d R F IH]; [done|]. destruct (hex4_spec r R) as (_ & _ & _ & H).
  destruct d as [|r' d]; [by apply hex_field|].
  change (Join (map hex4 (r :: r' :: d)) [SP]) with (hex4 r ++ [SP] ++ Join (map hex4 (r' :: d)) [SP]).
  by rewrite !field_ok_app, IH, hex_field.
Qed.

Lemma mapping_field_ok e : entry_ok e -> field_ok (mapping_text (e_mapping e)) = true.
Proof.
  intros [_ _ _ M]. destruct (e_mapping e) as [|d|tag d]; cbn [mapping_text]; [done|apply hex4_words_field, M|].
  destruct M as (_ & F & G & _ & N). change ("<"%byte :: tag ++ ?s) with (["<"%byte] ++ tag ++ s).
  change (">"%byte :: SP :: ?s) with ([">"%byte; SP] ++ s). by rewrite !field_ok_app, hex4_words_field, (graph_field tag).
Qed.

Lemma parse_runes_hex4 d : Forall rune_ok d -> parse_runes (map hex4 d) = Some d.
Proof. induction 1 as [|r d R F IH]; [done|]. cbn [map parse_runes]. destruct (hex4_spec r R) as (-> & _). by rewrite IH. Qed.

Lemma TrimSpace_hex4 sp d : forallb (fun c => c =b SP) sp = true -> d <> [] -> Forall rune_ok d ->
  TrimSpace (sp ++ Join (map hex4 d) [SP]) = Join (map hex4 d) [SP].
Proof.
  intros P N F. destruct (Join_words (map hex4 d)) as (A & B & C); [by destruct d|by apply hex4_words|].
  by apply TrimSpace_words.
Qed.

Lemma TrimSpace_tagged tag d : d <> [] -> Forall rune_ok d -> forallb is_graph tag = true ->
  TrimSpace (mapping_text (Compatibility tag d)) = mapping_text (Compatibility tag d).
Proof.
  intros N F G. destruct (Join_words (map hex4 d)) as (A & _ & t & x & E & X); [by destruct d|by apply hex4_words|].
  apply (TrimSpace_words []); [done| | |].
  - cbn [mapping_text]. unfold is_ascii in *. cbn [forallb]. rewrite forallb_app. cbn [forallb]. rewrite A, andb_true_r.
    apply andb_true_iff. split; [done|]. by apply is_graph_ascii.
  - by eexists _, _.
  - exists ("<"%byte :: tag ++ ">"%byte :: SP :: t), x. split; [|done]. cbn [mapping_text]. rewrite E.
    by rewrite <- app_comm_cons, <- app_assoc.
Qed.

Lemma hex_not_tag d : d <> [] -> Forall rune_ok d -> HasPrefix (Join (map hex4 d) [SP]) ($"<") = false.
Proof.
  intros N F. destruct F as [|r d R F]; [done|]. destruct (hex4_spec r R) as (_ & _ & Nr & H).
  assert (exists t, Join (map hex4 (r :: d)) [SP] = hex4 r ++ t) as [t ->].
  { destruct d; cbn [map Join]; [exists []; by rewrite app_nil_r|by eexists]. }
  destruct (hex4 r) as [|c s]; [done|]. cbn in H. apply andb_true_iff in H as [H _]. cbn. revert H. by destruct c.
Qed.

Lemma parse_decomposition_text e u : entry_ok e ->
  parse_decomposition (e_cp e) (mapping_text (e_mapping e)) u =
  Ok {| ccc := ccc u;
        decomp := match e_mapping e with Canonical d => <[e_cp e := d]> (decomp u) | _ => decomp u end;
        compatDecomp := match e_mapping e with Compatibility _ d => <[e_cp e := d]> (compatDecomp u) | _ => compatDecomp u end |}.
Proof.
  intros [_ _ _ M]. unfold parse_decomposition. destruct (e_mapping e) as [|d|tag d].
  - by destruct u.
  - destruct M as [N F]. cbn [mapping_text]. rewrite (TrimSpace_hex4 [] d eq_refl N F : TrimSpace (Join (map hex4 d) [SP]) = _).
    unfold decomposition_field. rewrite hex_not_tag, Fields_Join, parse_runes_hex4 by (done || by apply hex4_words).
    destruct (Join_words (map hex4 d)) as (_ & (c & t & -> & _) & _); [by destruct d|by apply hex4_words|]. done.
  - destruct M as (N & F & G & Ng & _). rewrite TrimSpace_tagged by done. cbn [mapping_text].
    set (J := Join (map hex4 d) [SP]). assert (decomposition_field ("<"%byte :: tag ++ ">"%byte :: SP :: J) = (true, J)) as ->.
    { unfold decomposition_field. cbn [HasPrefix]. change ("<"%byte =b "<"%byte) with true. cbn [andb].
      change ("<"%byte :: tag ++ ?s) with (("<"%byte :: tag) ++ s). rewrite IndexByte_app by (cbn; exact Ng).
      rewrite (drop_app_cons ("<"%byte :: tag) (SP :: J) ">"%byte) by lia.
      replace (TrimSpace (SP :: J)) with J by (symmetry; by apply (TrimSpace_hex4 [SP] d)).
      by destruct (tag ++ ">"%byte :: SP :: J). }
    unfold J. rewrite Fields_Join, parse_runes_hex4 by (done || by apply hex4_words). done.
Qed.

Lemma parse_ccc_text cp n m : 0 <= n <= 255 -> parse_ccc cp (Itoa n) m = Ok (if n =? 0 then m else <[cp := n]> m).
Proof.
  intros H. unfold parse_ccc. destruct (Z.eqb_spec n 0) as [->|Hn]; [done|].
  assert (Atoi (Itoa n) = Some n) as E.
  { unfold Atoi, Itoa, ParseInt, FormatInt. rewrite (proj2 (Z.ltb_ge n 0)) by lia.
    pose proof (FormatUint_digits n ltac:(lia)) as D. pose proof (FormatUint_nonempty n) as N.
    pose proof (ParseUint_FormatUint n MaxInt64 ltac:(unfold MaxInt64; lia)) as P.
    destruct (FormatUint n) as [|c s]; [done|]. cbn in D. apply andb_true_iff in D as [D _].
    assert ((c =b "-"%byte) = false /\ (c =b "+"%byte) = false) as [-> ->]; [|done]. revert D. destruct c; vm_compute; done. }
  destruct (beq_spec (Itoa n) []) as [X|_]; [by rewrite X in E|].
  destruct (beq_spec (Itoa n) ($"0")) as [X|_]; [rewrite X in E; vm_compute in E; congruence|]. cbn [orb]. rewrite E.
  by rewrite (proj2 (Z.ltb_ge n 0)), (proj2 (Z.ltb_ge 255 n)) by lia.
Qed.

Lemma entry_parts e : entry_ok e ->
  Forall (fun s => field_ok s = true)
    ([hex4 (e_cp e); e_name e; e_category e; Itoa (e_class e); e_bidi e; mapping_text (e_mapping e)] ++ e_rest e).
Proof.
  intros E. pose proof (ok_fields _ E) as F. rewrite !Forall_cons in F. destruct F as (F1 & F2 & F3 & F4).
  pose proof (ok_class _ E) as C. repeat (apply Forall_cons; split); try done.
  - destruct (hex4_spec _ (ok_cp _ E)) as (_ & _ & _ & H). by apply hex_field.
  - unfold Itoa, FormatInt. rewrite (proj2 (Z.ltb_ge (e_class e) 0)) by lia. pose proof (FormatUint_digits (e_class e) ltac:(lia)) as D.
    revert D. apply forallb_mono. intros c. destruct c; vm_compute; done.
  - by apply mapping_field_ok.
Qed.

Lemma field_ok_Join ps : Forall (fun s => field_ok s = true) ps ->
  forallb (fun c => negb (mem_byte c [CR; LF])) (Join ps ($";")) = true.
Proof.
  assert (forall s, field_ok s = true -> forallb (fun c => negb (mem_byte c [CR; LF])) s = true) as L.
  { intros s. apply forallb_mono. intros c. by intros [? _]%andb_true_iff. }
  induction 1 as [|p ps P F IH]; [done|]. destruct ps as [|q ps]; [by apply L|].
  change (Join (p :: q :: ps) ($";")) with (p ++ ";"%byte :: Join (q :: ps) ($";")). rewrite forallb_app, L by done.
  cbn [forallb andb]. by rewrite IH.
Qed.

Lemma parse_entry_line u e : entry_ok e -> parse_line u (entry_line e) = Ok (add_entry u e).
Proof.
  intros E. pose proof (entry_parts e E) as P. unfold parse_line.
  rewrite (TrimRight_none (entry_line e)) by (by apply field_ok_Join).
  assert (Split (entry_line e) ";"%byte =
    [hex4 (e_cp e); e_name e; e_category e; Itoa (e_class e); e_bidi e; mapping_text (e_mapping e)] ++ e_rest e) as ->.
  { apply Split_Join; [done|]. eapply Forall_impl; [exact P|]. intros s. apply forallb_mono. intros c. by intros [_ ?]%andb_true_iff. }
  destruct (hex4_spec _ (ok_cp _ E)) as (R & _ & N & _).
  assert (exists c t, entry_line e = c :: t) as (c & t & ->).
  { unfold entry_line. destruct (hex4 (e_cp e)) as [|c s]; [done|]. cbn. eauto. }
  cbn [app]. rewrite R, parse_ccc_text by (by apply ok_class). by rewrite parse_decomposition_text.
Qed.

(** C40: parsing inverts printing for UnicodeData.txt: from the lines of any list of records, with any names
    and further fields, the three maps hold what the records say, a later record overriding an
    earlier one. *)
Theorem parseUnicodeData_entries es : Forall entry_ok es ->
  parseUnicodeData (concat (map (fun e => entry_line e ++ [LF]) es)) = Ok (fold_left add_entry es empty_data).
Proof.
  unfold parseUnicodeData. generalize empty_data as u. intros u F. revert u. induction F as [|e es E F IH]; intros u; [done|].
  cbn [map concat fold_left]. rewrite <- app_assoc. cbn [app].
  rewrite Split_app.
  - cbn [parse_lines]. rewrite parse_entry_line by done. apply IH.
  - pose proof (field_ok_Join _ (entry_parts e E)) as L. revert L. apply forallb_mono. intros c. destruct c; vm_compute; done.
Qed.

(** ** A small database *)

Definition sample_entries : list ucd_entry :=
  let e cp n m := {| e_cp := cp; e_name := $"NAME"; e_category := $"Ll"; e_class := n; e_bidi := $"L"; e_mapping := m;
                     e_rest := [[]; []; $"N"] |} in
  [e 97 0 NoMapping; e 778 230 NoMapping; e 807 202 NoMapping;
   e 229 0 (Canonical [97; 778]); e 7840 0 (Canonical [229; 807]); e 8491 0 (Canonical [229]);
   e 64257 0 (Compatibility ($"compat") [102; 8491])].

Definition sample_data : bytes := concat (map (fun e => entry_line e ++ [LF]) sample_entries).
Definition sample_exclusions : bytes := $"# comment" ++ [LF] ++ $"0958  # DEVANAGARI" ++ [LF; LF].

Definition sample_maps : unicodeData := fold_left add_entry sample_entries empty_data.
Definition sample_excluded : gset Z := {[2392]}.

#[local] Instance sample_sort : SliceSort := merge_Slice.
#[local] Instance sample_range : MapRange := list_range.

Definition sample_tables : UCD :=
  match generate sample_data sample_exclusions with Ok T => T | Err _ => tables_of [] [] [] [] end.

Lemma sample_ok : Forall entry_ok sample_entries.
Proof.
  repeat (apply Forall_cons; split); try apply Forall_nil; try exact I;
    (split; [split; vm_compute; congruence|split; vm_compute; congruence|repeat constructor|]); cbn; try done;
    split_and?; try done; repeat constructor; vm_compute; congruence.
Qed.

Lemma sample_parsed : parseUnicodeData sample_data = Ok sample_maps /\ parseCompositionExclusions sample_exclusions = Ok sample_excluded.
Proof. split; vm_compute; reflexivity. Qed.

Lemma sample_well_formed : well_formed sample_maps sample_excluded.
Proof. split; apply (bool_decide_unpack _); vm_compute; exact I. Qed.

Example sample_generated :
  @decomp_key sample_tables = [229; 7840; 8491] /\ @decomp_data sample_tables = [97; 778; 97; 778; 807; 97; 778] /\
  @decomp_offset sample_tables = [0; 2; 5; 7] /\ @compat_data sample_tables = [97; 778; 97; 778; 807; 97; 778; 102; 97; 778] /\
  @compose_val sample_tables = [229; 7840].
Proof. vm_compute. split_and!; reflexivity. Qed.

Lemma sample_generate : generate sample_data sample_exclusions = Ok sample_tables.
Proof. vm_compute. reflexivity. Qed.

Lemma generated_tables_lookup_witness :
  (forall r, @combiningClass sample_tables r = ccOf sample_maps r) /\
  (forall r, is_syllable r = false ->
    fully (fun c => decomp sample_maps !! c) r (expand (@decompose sample_tables) r) /\
    fully (compat_mapping sample_maps) r (expand (@compatDecompose sample_tables) r)) /\
  (forall a b c, scalar a -> scalar b ->
    isHangulL a && isHangulV b = false -> isHangulLV a && isHangulT b = false ->
    @composePair sample_tables a b = Some c <->
    decomp sample_maps !! c = Some [a; b] /\ primary sample_maps sample_excluded c [a; b]).
Proof.
  apply (generated_tables_lookup sample_data sample_exclusions); [apply sample_parsed|apply sample_parsed|
    exact sample_well_formed|exact sample_generate].
Defined.

Lemma generated_normalizer_witness :
  (is_ok (generate sample_data sample_exclusions) = true <->
    acyclic (fun c => decomp sample_maps !! c) /\ acyclic (compat_mapping sample_maps)) /\
  ccOf sample_maps 807 = 202 /\ @combiningClass sample_tables 807 = ccOf sample_maps 807 /\
  fully (compat_mapping sample_maps) 64257 (expand (@compatDecompose sample_tables) 64257).
Proof.
  destruct (generated_normalizer sample_data sample_exclusions sample_maps sample_excluded) as (E & L);
    [apply sample_parsed|apply sample_parsed|exact sample_well_formed|].
  destruct (L sample_tables sample_generate) as (C & D & _).
  split_and!; [exact E|vm_compute; reflexivity|apply C|apply D; vm_compute; reflexivity].
Defined.

Lemma build_tables_deterministic_witness :
  is_ok (@build_tables merge_Slice list_range sample_maps sample_excluded) =
  is_ok (@build_tables merge_Slice reverse_range sample_maps sample_excluded) /\
  forall T T', @build_tables merge_Slice list_range sample_maps sample_excluded = Ok T ->
    @build_tables merge_Slice reverse_range sample_maps sample_excluded = Ok T' -> T = T'.
Proof. apply (build_tables_deterministic merge_Slice merge_Slice list_range reverse_range). exact sample_well_formed. Defined.

Lemma tables_source_arrays_witness :
  Forall (fun '(text, elements) => numbers text = elements) (printed_arrays sample_tables).
Proof.
  apply (tables_source_arrays sample_maps sample_excluded); [exact sample_well_formed|vm_compute; reflexivity|
    vm_compute; reflexivity|vm_compute; reflexivity].
Defined.

Lemma parseUnicodeData_entries_witness : parseUnicodeData sample_data = Ok sample_maps.
Proof. apply (parseUnicodeData_entries sample_entries). exact sample_ok. Defined.

(** A cycle is reported: A decomposes to B and B to A. *)
Example cycle_reported :
  generate ($"0041;A;Lu;0;L;0042;" ++ [LF] ++ $"0042;B;Lu;0;L;0041;") [] = Err (FCycle 65).
Proof. vm_compute. reflexivity. Qed.
