(* ===== verification/ClientParams.v ===== *)
(** * smtpclient: the arguments of MAIL and RCPT

    mail.go, ext_a_transport.go, ext_b_delivery.go, ext_c_legacy.go and the parameter part of
    rcpt.go: how the options of package smtp become esmtp-parameters, and which the client refuses to
    send. The negotiated extension table of a connection is an [extensions] list, in which a later
    entry replaces an earlier one of the same keyword, as the assignments of [ehloLocked] do. *)
From Stdlib Require Import ZArith Lia Bool.
From stdpp Require Import base list gmap strings.
From S2P Require Import Prelude GoStrings Wire Path Core ServerParams.

(** Errors the client detects before it writes anything, without their texts. *)
Inductive client_err : Type :=
| EPath                                   (** command framing in a path *)
| EParam (keyword : bytes) (e : wire_err) (** the wire layer refuses the parameter *)
| EUnadvertised (extension keyword : bytes)
| EMissing (extension : bytes)
| EValue (keyword : bytes)                (** a value the parameter's specification excludes *)
| EUTF8                                   (** a non-ASCII path without SMTPUTF8 *)
| ENotTLS                                 (** REQUIRETLS on a cleartext session *)
| EState (verb : bytes)
| EClosed
| ENoRecipient
| EGroup (verb : bytes)                   (** a synchronization point inside a group *)
| ETooLong (verb : bytes)
| EArgument (verb : bytes)
| EBinary                                 (** BINARYMIME content by DATA *)
| EAuth                                   (** no usable mechanism, or a refusal to send credentials *)
| EExtraReply
| EMissingCode
| ERoleReversal.

(** ** The negotiated extensions *)
Section Extensions.
Context `{Unicode}.

(** [map_order] is the order in which Go's map iteration visits the table. *)
Class MapOrder : Type := map_order : extensions -> list (bytes * bytes).

Fixpoint auth_keyword (entries : list (bytes * bytes)) : option bytes :=
  match entries with
  | [] => None
  | (keyword, params) :: entries' =>
      match CutPrefix keyword ($"AUTH=") with
      | Some suffix => Some (TrimSpace (suffix ++ [SP] ++ params))
      | None => auth_keyword entries'
      end
  end.

Definition authAdvertisement `{MapOrder} (ext : extensions) : option bytes :=
  match extensionParameter ext ($"AUTH") with
  | Some params => Some params
  | None => auth_keyword (map_order ext)
  end.

(** [Client.Extension] *)
Definition Extension (ext : extensions) (name : bytes) : option bytes := extensionParameter ext (ToUpper name).

Definition advertises `{MapOrder} (ext : extensions) (keyword : bytes) : bool :=
  if EqualFold keyword ($"AUTH") then match authAdvertisement ext with Some _ => true | None => false end
  else match Extension ext keyword with Some _ => true | None => false end.

End Extensions.

(** ** txn.go: paths *)

Definition validatePath (path : bytes) : result client_err bytes :=
  if ContainsAny path [CR; LF; x00; "<"%byte; ">"%byte] then Err EPath
  else Ok ("<"%byte :: path ++ [">"%byte]).

(** ** mail.go: parameters *)

Definition param (keyword value : bytes) : Param := {| Keyword := keyword; Value := value |}.
Definition flag (keyword : bytes) : Param := param keyword [].

Section Params.
Context `{Unicode} `{NetIP} `{RFC3339} `{MapOrder}.
Implicit Types (ext : extensions).

Definition parameterExtension (p : Param) : bytes :=
  let kw := ToUpper (Keyword p) in
  if beq kw ($"AUTH") then $"AUTH"
  else if beq kw ($"RET") || beq kw ($"ENVID") || beq kw ($"NOTIFY") || beq kw ($"ORCPT") then $"DSN"
  else if beq kw ($"BY") then $"DELIVERBY"
  else if beq kw ($"HOLDFOR") || beq kw ($"HOLDUNTIL") then $"FUTURERELEASE"
  else if beq kw ($"SOLICIT") then $"NO-SOLICITING"
  else if beq kw ($"MTRK") then $"MTRK"
  else if beq kw ($"BODY") then
    let v := ToUpper (Value p) in
    if beq v ($"7BIT") then []
    else if beq v ($"8BITMIME") then $"8BITMIME"
    else if beq v ($"BINARYMIME") then $"BINARYMIME"
    else $"8BITMIME"
  else kw.

Fixpoint encodeParams ext (params : list Param) (allowUnadvertised : bool) : result client_err (list bytes) :=
  match params with
  | [] => Ok []
  | p :: params' =>
      match EncodeParam p with
      | Err e => Err (EParam (Keyword p) e)
      | Ok wireParam =>
          let required := parameterExtension p in
          if negb allowUnadvertised && negb (beq required []) && negb (advertises ext required)
          then Err (EUnadvertised required (Keyword p))
          else let? rest := encodeParams ext params' allowUnadvertised in Ok (wireParam :: rest)
      end
  end.

(** ** ext_b_delivery.go *)

Definition dsnMailParams (d : DSNMailOptions) : list Param :=
  (if beq (dsn_Return d) [] then [] else [param ($"RET") (ToUpper (dsn_Return d))]) ++
  (if beq (dsn_EnvelopeID d) [] then [] else [param ($"ENVID") (smtp.EncodeXtext (dsn_EnvelopeID d))]).

(** The tokens of one NOTIFY value added to those before: reversed, with the ones seen. *)
Fixpoint notify_values (parts : list bytes) (values : list bytes) : result client_err (list bytes) :=
  match parts with
  | [] => Ok values
  | part :: parts' =>
      let v := ToUpper part in
      if beq v [] || mem v values then Err (EValue ($"NOTIFY"))
      else notify_values parts' (values ++ [v])
  end.

Definition dsnNotifyValue (notify : list bytes) : result client_err bytes :=
  let? values := notify_values (flat_map (fun part => Split part ","%byte) notify) [] in
  if mem ($"NEVER") values && negb (length values =? 1)%nat then Err (EValue ($"NOTIFY"))
  else Ok (Join values ($",")).

Definition deliverByParam ext (d : DeliverByOptions) : result client_err Param :=
  let mode := ToUpper (by_Mode d) in
  let seconds := by_Seconds d in
  let in_range :=
    if beq mode ($"N") then (-999999999 <=? seconds) && (seconds <=? 999999999)
    else if beq mode ($"R") then (1 <=? seconds) && (seconds <=? 999999999)
    else false in
  if negb in_range then Err (EValue ($"BY"))
  else
    let p := param ($"BY") (FormatInt seconds ++ $";" ++ mode ++ (if by_Trace d then $"T" else [])) in
    match Extension ext ($"DELIVERBY") with
    | Some (_ :: _ as params) =>
        if beq mode ($"R") then
          let '(minimumText, _, _) := Cut params ","%byte in
          if beq minimumText [] then Ok p
          else match ParseInt minimumText with
               | None => Err (EValue ($"BY"))
               | Some minimum =>
                   if minimum <? 1 then Err (EValue ($"BY"))
                   else if seconds <? minimum then Err (EValue ($"BY")) else Ok p
               end
        else Ok p
    | _ => Ok p
    end.

Definition futureReleaseParam ext (f : FutureReleaseOptions) : result client_err Param :=
  if Bool.eqb (fr_HoldForSeconds f =? 0) (beq (fr_HoldUntil f) []) then Err (EValue ($"HOLDFOR"))
  else match Extension ext ($"FUTURERELEASE") with
  | None => Err (EMissing ($"FUTURERELEASE"))
  | Some max =>
      match Fields max with
      | [f0; f1] =>
          match ParseInt f0 with
          | None => Err (EValue ($"FUTURERELEASE"))
          | Some maxSeconds =>
              if maxSeconds <? 1 then Err (EValue ($"FUTURERELEASE"))
              else match time_Parse f1 with
              | None => Err (EValue ($"FUTURERELEASE"))
              | Some maxUntil =>
                  if negb (fr_HoldForSeconds f =? 0) then
                    if (fr_HoldForSeconds f <? 1) || (maxSeconds <? fr_HoldForSeconds f)
                    then Err (EValue ($"HOLDFOR"))
                    else Ok (param ($"HOLDFOR") (FormatInt (fr_HoldForSeconds f)))
                  else match time_Parse (fr_HoldUntil f) with
                  | None => Err (EValue ($"HOLDUNTIL"))
                  | Some t => if maxUntil <? t then Err (EValue ($"HOLDUNTIL"))
                              else Ok (param ($"HOLDUNTIL") (time_Format t))
                  end
              end
          end
      | _ => Err (EValue ($"FUTURERELEASE"))
      end
  end.

Definition mtPriorityParam (priority : bytes) : result client_err Param :=
  let digits := match priority with
                | c :: rest => if (c =b "+"%byte) || (c =b "-"%byte) then rest else priority
                | [] => []
                end in
  if beq digits [] || negb (forallb (fun '(r, _) => (48 <=? r) && (r <=? 57)) (runes digits))
  then Err (EValue ($"MT-PRIORITY"))
  else Ok (param ($"MT-PRIORITY") priority).

Definition rrvsParam (r : RRVSOptions) : result client_err Param :=
  if beq (rrvs_Timestamp r) [] then Err (EValue ($"RRVS"))
  else match time_Parse (rrvs_Timestamp r) with
  | None => Err (EValue ($"RRVS"))
  | Some t =>
      let d := ToUpper (rrvs_Disposition r) in
      if negb (beq d []) && negb (beq d ($"C")) && negb (beq d ($"R")) then Err (EValue ($"RRVS"))
      else Ok (param ($"RRVS") (time_Format t ++ (if beq d [] then [] else $";" ++ d)))
  end.

(** [isAtom] accepts what the server's [validAtom] accepts. *)
Definition isAtom (s : bytes) : bool :=
  negb (beq s []) && forallb (fun '(r, _) =>
    (r <? 128) && (is_alnum (zb r) || mem_byte (zb r) ($"!#$%&'*+-/=?^_`{|}~"))) (runes s).

Definition deliveryMailParams ext (is_tls : bool) (path : bytes) (opts : option MailOptions) :
    result client_err (list Param) :=
  match opts ≫= mo_Delivery with
  | None => Ok []
  | Some d =>
      let dsn := match del_DSN d with Some s => dsnMailParams s | None => [] end in
      let? by_ := match del_DeliverBy d with
                 | Some b => let? p := deliverByParam ext b in Ok [p]
                 | None => Ok []
                 end in
      let? release := match del_FutureRelease d with
                      | Some f => if beq path ($"<>") then Err (EValue ($"FUTURERELEASE"))
                                  else let? p := futureReleaseParam ext f in Ok [p]
                      | None => Ok []
                      end in
      let? priority := if beq (del_MTPriority d) [] then Ok []
                       else let? p := mtPriorityParam (del_MTPriority d) in Ok [p] in
      if del_RequireTLS d && negb is_tls then Err ENotTLS
      else Ok (dsn ++ by_ ++ release ++ priority ++ (if del_RequireTLS d then [flag ($"REQUIRETLS")] else []))
  end.

Definition dsn_rcpt_params (d : DSNRcptOptions) : result client_err (list Param) :=
  let? notify := match dr_Notify d with
                 | [] => Ok []
                 | ns => let? v := dsnNotifyValue ns in Ok [param ($"NOTIFY") v]
                 end in
  if beq (dr_OriginalType d) [] && beq (dr_Original d) [] then Ok notify
  else if beq (dr_OriginalType d) [] || beq (dr_Original d) [] then Err (EValue ($"ORCPT"))
  else if negb (isAtom (dr_OriginalType d)) then Err (EValue ($"ORCPT"))
  else Ok (notify ++ [param ($"ORCPT") (dr_OriginalType d ++ $";" ++ smtp.EncodeXtext (dr_Original d))]).

Definition dsnRcptParams (opts : RcptOptions) : result client_err (list Param) :=
  match ro_Delivery opts with
  | None => Ok []
  | Some d =>
      let? dsn := match rd_DSN d with Some s => dsn_rcpt_params s | None => Ok [] end in
      let? rrvs := match rd_RRVS d with Some r => let? p := rrvsParam r in Ok [p] | None => Ok [] end in
      Ok (dsn ++ rrvs)
  end.

(** ** ext_c_legacy.go *)

Definition isSolicitKeyword (keyword : bytes) : bool := forallb (fun '(r, _) => solicit_rune r) (runes keyword).

Definition validSolicit (value : bytes) : bool :=
  negb (beq value [] || ContainsAny value [SP; x09; CR; LF; x00])
  && forallb (fun kw => negb (beq kw []) && isSolicitKeyword kw) (Split value ","%byte).

Definition legacyMailParams ext (opts : option MailOptions) : result client_err (list Param) :=
  match opts ≫= mo_Legacy with
  | None => Ok []
  | Some l =>
      let? solicit :=
        if beq (leg_Solicit l) [] then Ok []
        else if negb (validSolicit (leg_Solicit l)) then Err (EValue ($"SOLICIT"))
        else if negb (advertises ext ($"NO-SOLICITING")) then Err (EMissing ($"NO-SOLICITING"))
        else Ok [param ($"SOLICIT") (leg_Solicit l)] in
      let? mtrk :=
        if beq (leg_TransitID l) [] then Ok []
        else if negb (validMTRK (leg_TransitID l)) then Err (EValue ($"MTRK"))
        else if negb (advertises ext ($"MTRK")) then Err (EMissing ($"MTRK"))
        else
          let envid := match (opts ≫= mo_Delivery) ≫= del_DSN with Some d => dsn_EnvelopeID d | None => [] end in
          if beq envid [] || negb (validMTRKENVID envid) then Err (EValue ($"MTRK"))
          else Ok [param ($"MTRK") (leg_TransitID l)] in
      let? submitter :=
        if beq (leg_Submitter l) [] then Ok []
        else if negb (validSubmitter (leg_Submitter l)) then Err (EValue ($"SUBMITTER"))
        else if negb (advertises ext ($"SUBMITTER")) then Err (EMissing ($"SUBMITTER"))
        else Ok [param ($"SUBMITTER") (smtp.EncodeXtext (leg_Submitter l))] in
      let? conperm :=
        if leg_ConPerm l then
          if negb (advertises ext ($"CONPERM")) then Err (EMissing ($"CONPERM")) else Ok [flag ($"CONPERM")]
        else Ok [] in
      Ok (solicit ++ mtrk ++ submitter ++ conperm)
  end.

Definition legacyRcptParams ext (opts : RcptOptions) : result client_err (list Param) :=
  match ro_Legacy opts with
  | Some l =>
      if negb (rl_ConNeg l) then Ok []
      else if negb (advertises ext ($"CONNEG")) then Err (EMissing ($"CONNEG"))
      else Ok [flag ($"CONNEG")]
  | None => Ok []
  end.

(** ** ext_a_transport.go *)

Definition client_hasNonASCII (s : bytes) : bool := existsb (fun c => 128 <=? bz c) s.

Definition parseSizeParam (raw : bytes) : result client_err Z :=
  match Fields raw with
  | [] => Ok 0
  | [f] => match ParseUint f MaxInt64 with Some n => Ok n | None => Err (EValue ($"SIZE")) end
  | _ => Err (EValue ($"SIZE"))
  end.

Definition parseSizeAdvertisement ext : result client_err Z :=
  match Extension ext ($"SIZE") with
  | None => Err (EMissing ($"SIZE"))
  | Some raw => parseSizeParam raw
  end.

Definition size_param ext (size : option Z) : result client_err (list Param) :=
  match size with
  | None => Ok []
  | Some n =>
      if n <? 0 then Err (EValue ($"SIZE"))
      else
        let? maximum := parseSizeAdvertisement ext in
        if negb (maximum =? 0) && (maximum <? n) then Err (EValue ($"SIZE"))
        else Ok [param ($"SIZE") (FormatInt n)]
  end.

(** The BODY parameter, and whether it asks for BINARYMIME. *)
Definition body_param ext (body : bytes) : result client_err (list Param * bool) :=
  if beq body [] then Ok ([], false)
  else if ContainsAny body [CR; LF; x00] then Err (EValue ($"BODY"))
  else
    let b := ToUpper body in
    if beq b ($"8BITMIME") && negb (advertises ext ($"8BITMIME")) then Err (EMissing ($"8BITMIME"))
    else if beq b ($"BINARYMIME") && negb (advertises ext ($"BINARYMIME")) then Err (EMissing ($"BINARYMIME"))
    else if beq b ($"BINARYMIME") && negb (advertises ext ($"CHUNKING")) then Err (EMissing ($"CHUNKING"))
    else Ok ([param ($"BODY") body], beq b ($"BINARYMIME")).

Definition utf8_param ext (requested : bool) : result client_err (list Param) :=
  if requested then
    if negb (advertises ext ($"SMTPUTF8")) then Err (EMissing ($"SMTPUTF8"))
    else if negb (advertises ext ($"8BITMIME")) then Err (EMissing ($"8BITMIME"))
    else Ok [flag ($"SMTPUTF8")]
  else Ok [].

(** [transportMailParams] first clears the connection's BINARYMIME flag and sets it when the options
    ask for it: the flag after the call, also when the call fails later. *)
Definition transportMailParams ext (path : bytes) (opts : option MailOptions) :
    bool * result client_err (list Param) :=
  let transport := opts ≫= mo_Transport in
  if client_hasNonASCII path && match transport with Some t => negb (opt_SMTPUTF8 t) | None => true end
  then (false, Err EUTF8)
  else match transport with
  | None => (false, Ok [])
  | Some t =>
      match size_param ext (opt_Size t) with
      | Err e => (false, Err e)
      | Ok size =>
          match body_param ext (opt_Body t) with
          | Err e => (false, Err e)
          | Ok (body, binary) =>
              (binary, let? utf8 := utf8_param ext (opt_SMTPUTF8 t) in Ok (size ++ body ++ utf8))
          end
      end
  end.

(** The registered hooks, in the order of their names: delivery-control, legacy, transport. [binary]
    is the connection's flag, which only the last hook touches. *)
Definition extensionMailParams ext (is_tls binary : bool) (path : bytes) (opts : option MailOptions) :
    bool * result client_err (list Param) :=
  match deliveryMailParams ext is_tls path opts with
  | Err e => (binary, Err e)
  | Ok delivery =>
      match legacyMailParams ext opts with
      | Err e => (binary, Err e)
      | Ok legacy =>
          let '(binary', transport) := transportMailParams ext path opts in
          (binary', let? t := transport in Ok (delivery ++ legacy ++ t))
      end
  end.

Definition extensionRcptParams ext (opts : RcptOptions) : result client_err (list Param) :=
  let? dsn := dsnRcptParams opts in
  let? legacy := legacyRcptParams ext opts in
  Ok (dsn ++ legacy).

(** All parameters of a MAIL command, before their encoding. *)
Definition mail_params (o : MailOptions) (extension : list Param) : list Param :=
  (if beq (mo_Auth o) [] then [] else [param ($"AUTH") (smtp.EncodeXtext (mo_Auth o))]) ++
  extension ++ mo_Extra o.

(** [mailArgs]: the connection's BINARYMIME flag and the arguments of MAIL. *)
Definition mailArgs ext (is_tls binary : bool) (path : bytes) (opts : option MailOptions)
    (allowUnadvertised : bool) : bool * result client_err (list bytes) :=
  let first := $"FROM:" ++ path in
  match extensionMailParams ext is_tls binary path opts with
  | (binary', Err e) => (binary', Err e)
  | (binary', Ok extension) =>
      (binary',
       match opts with
       | None => Ok [first]
       | Some o =>
           let? encoded := encodeParams ext (mail_params o extension) allowUnadvertised in
           Ok (first :: encoded)
       end)
  end.

Record Recipient : Type := { rc_Address : bytes; rc_Options : option RcptOptions; rc_Allow : bool }.

(** One recipient of [rcptBatch]: the arguments of its RCPT command. *)
Definition rcptArgs ext (requestedSMTPUTF8 : bool) (r : Recipient) : result client_err (list bytes) :=
  if beq (rc_Address r) [] then Err (EArgument ($"RCPT"))
  else
    let? path := validatePath (rc_Address r) in
    if client_hasNonASCII path && negb requestedSMTPUTF8 then Err EUTF8
    else if client_hasNonASCII path && negb (advertises ext ($"SMTPUTF8")) then Err (EMissing ($"SMTPUTF8"))
    else
      let first := $"TO:" ++ path in
      match rc_Options r with
      | None => Ok [first]
      | Some o =>
          let? extension := extensionRcptParams ext o in
          let? encoded := encodeParams ext (extension ++ ro_Extra o) (rc_Allow r) in
          Ok (first :: encoded)
      end.

End Params.
