(* ===== verification/ClientCore.v ===== *)
(** * smtpclient: the connection and its pipeline

    state.go, reply.go, finalstatus.go, trace.go, pipeline.go, conn.go and ehlo.go: the state of one
    client connection, how commands reach the wire and replies are read, and the negotiation.

    An operation is a computation in [C]: it passes the connection and returns a value or an error.
    An operation of a Client holds the connection's operation lock while its commands and their
    replies are on the wire, so the exchanges of concurrent callers never interleave; most operations
    take it before their first check. BURL, ETRN and ATRN look at the advertised extensions before
    they take it, and [command] gives it up before it judges the reply it read; the model takes an
    operation as one step, which leaves out a concurrent operation between such a check and the
    exchange. What is outside the program is the
    [world]: it answers each interaction (a look at the context, a write, the deadline of a read, the
    handshake) in turn, [clock] counting them. The peer's bytes are the connection's [reader]; a
    deadline that expires cuts what a read sees of them. Durations only decide those answers and are
    left out, as is the check for a nil Client. [wire] records what happened on the connection, in
    order. *)
From Stdlib Require Import ZArith Lia Bool.
From stdpp Require Import base list gmap strings.
From S2P Require Import Prelude GoStrings Base64 Sasl Wire DotStuff Reply Command Path Ehlo Core.
From S2P Require Import ServerParams ClientParams.

Module smtpclient.

(** ** Session states: state.go *)

Inductive sessionState : Type :=
| stateConnected | stateGreeted | stateTLS | stateAuthenticated | stateTransaction | stateClosed.

#[global] Instance sessionState_eq_dec : EqDecision sessionState.
Proof. solve_decision. Defined.

Definition sessionState_eqb (a b : sessionState) : bool := bool_decide (a = b).

(** ** Errors *)

Inductive ctx_err : Type := Canceled | DeadlineExceeded.

(** [Smtp] is an *smtp.Error with the error it wraps, [Unknown] a finalStatusUnknownError; the rest are
    plain errors. *)
Inductive cerr : Type :=
| Local (e : client_err)
| Ctx (e : ctx_err)
| Source                                     (** an error of the caller's reader *)
| WireErr (e : wire_err)
| ChunkErr                                   (** an error of the transport under CopyBDATChunk *)
| TLSErr
| SaslErr
| PrepErr
| Fuel                                       (** a loop bound of the model, never reached *)
| Smtp (code : Z) (enhanced : smtp.EnhancedCode) (text command : bytes) (err : option cerr)
| Unknown (cause : option cerr).

(** [errors.Is(err, ErrFinalStatusUnknown)] *)
Fixpoint is_unknown (e : cerr) : bool :=
  match e with
  | Unknown _ => true
  | Smtp _ _ _ _ (Some e') => is_unknown e'
  | _ => false
  end.

(** ** The world *)

Record world : Type := {
  w_ctx : nat -> option ctx_err;
  (** a write of [p]: success, or failure after that many bytes *)
  w_write : nat -> option (nat * ioerr);
  (** a read: what has arrived by the deadline *)
  w_deadline : nat -> option nat;
  (** how many of the octets still to be read the bufio.Reader has already taken off the transport;
      it depends on how they arrived *)
  w_buffered : nat -> LineReader -> nat;
  (** the pieces in which a chunk is copied *)
  w_cuts : nat -> list nat;
  (** the stream inside TLS, when the handshake reads what is left on the transport; [None] is a
      failed handshake *)
  w_handshake : nat -> LineReader -> option LineReader;
  w_exporter : option bytes;
  w_hostname : option bytes;
  w_random : option bytes
}.

Record ClientOptions : Type := {
  LMTP : bool;
  ImplicitTLS : bool;
  Identity : bytes;
  Trace : bool
}.

(** ** The connection *)

Inductive TraceDirection : Type := TraceSent | TraceReceived.
Record TraceEvent : Type := { Direction : TraceDirection; Line : bytes }.

(** One event on the connection. [Torn] is the part of a failed write that went out. *)
Inductive wire_event : Type :=
| Wrote (p : bytes)
| Torn (p : bytes)
| Got (r : Reply.Reply)
| Handshake
| Hangup.

Record connection : Type := {
  state : sessionState;
  transactionBase : sessionState;
  ext : extensions;
  recipients : list bytes;
  smtpUTF8 : bool;
  binaryMIME : bool;
  reader : LineReader;
  tls : bool;
  clock : nat;
  wire : list wire_event;
  traces : list TraceEvent
}.

Definition set_session (c : connection) (s b : sessionState) : connection :=
  {| state := s; transactionBase := b; ext := ext c; recipients := recipients c; smtpUTF8 := smtpUTF8 c;
     binaryMIME := binaryMIME c; reader := reader c; tls := tls c; clock := clock c; wire := wire c;
     traces := traces c |}.
Definition set_ext (c : connection) (e : extensions) : connection :=
  {| state := state c; transactionBase := transactionBase c; ext := e; recipients := recipients c;
     smtpUTF8 := smtpUTF8 c; binaryMIME := binaryMIME c; reader := reader c; tls := tls c; clock := clock c;
     wire := wire c; traces := traces c |}.
Definition set_transaction (c : connection) (rs : list bytes) (utf8 binary : bool) : connection :=
  {| state := state c; transactionBase := transactionBase c; ext := ext c; recipients := rs; smtpUTF8 := utf8;
     binaryMIME := binary; reader := reader c; tls := tls c; clock := clock c; wire := wire c;
     traces := traces c |}.
Definition set_stream (c : connection) (r : LineReader) (t : bool) : connection :=
  {| state := state c; transactionBase := transactionBase c; ext := ext c; recipients := recipients c;
     smtpUTF8 := smtpUTF8 c; binaryMIME := binaryMIME c; reader := r; tls := t; clock := clock c;
     wire := wire c; traces := traces c |}.
Definition tick (c : connection) : connection :=
  {| state := state c; transactionBase := transactionBase c; ext := ext c; recipients := recipients c;
     smtpUTF8 := smtpUTF8 c; binaryMIME := binaryMIME c; reader := reader c; tls := tls c;
     clock := S (clock c); wire := wire c; traces := traces c |}.
Definition record (c : connection) (e : wire_event) : connection :=
  {| state := state c; transactionBase := transactionBase c; ext := ext c; recipients := recipients c;
     smtpUTF8 := smtpUTF8 c; binaryMIME := binaryMIME c; reader := reader c; tls := tls c; clock := clock c;
     wire := wire c ++ [e]; traces := traces c |}.
Definition add_trace (c : connection) (e : TraceEvent) : connection :=
  {| state := state c; transactionBase := transactionBase c; ext := ext c; recipients := recipients c;
     smtpUTF8 := smtpUTF8 c; binaryMIME := binaryMIME c; reader := reader c; tls := tls c; clock := clock c;
     wire := wire c; traces := traces c ++ [e] |}.

Definition closed (c : connection) : bool := sessionState_eqb (state c) stateClosed.

Definition poison (c : connection) : connection :=
  if closed c then c else record (set_session c stateClosed (transactionBase c)) Hangup.

(** [if c.conn.state != stateClosed { f }] *)
Definition unless_closed (f : connection -> connection) (c : connection) : connection :=
  if closed c then c else f c.

(** ** The monad *)

Definition C (A : Type) : Type := connection -> connection * result cerr A.

#[global] Instance C_ret : MRet C := fun _ a c => (c, Ok a).
#[global] Instance C_bind : MBind C := fun _ _ k m c =>
  match m c with
  | (c', Ok a) => k a c'
  | (c', Err e) => (c', Err e)
  end.
Definition fail {A} (e : cerr) : C A := fun c => (c, Err e).
Definition get : C connection := fun c => (c, Ok c).
Definition modify (f : connection -> connection) : C unit := fun c => (f c, Ok tt).
Definition poisoned {A} (e : cerr) : C A := fun c => (poison c, Err e).
(** [if err != nil { return f(err) }] *)
Definition on_error {A} (f : cerr -> cerr) (m : C A) : C A := fun c =>
  match m c with
  | (c', Err e) => (c', Err (f e))
  | r => r
  end.
Definition lift {A} (r : result client_err A) : C A :=
  match r with Ok a => mret a | Err e => fail (Local e) end.
Definition guard_err (o : option cerr) : C unit :=
  match o with Some e => fail e | None => mret tt end.

(** ** Replies and their errors: reply.go *)

Definition enhanced_of (e : Reply.EnhancedCode) : smtp.EnhancedCode :=
  {| smtp.Class := Reply.Class e; smtp.Subject := Reply.Subject e; smtp.Detail := Reply.Detail e;
     smtp.Raw := Reply.Raw e |}.

(** The enhanced code and the text of a reply. *)
Definition reply_parts (reply : Reply.Reply) (parseEnhanced : bool) : smtp.EnhancedCode * bytes :=
  match (if parseEnhanced then ExtractEnhancedCode (Reply.Text reply) else None) with
  | Some (e, rest) => (enhanced_of e, rest)
  | None => (smtp.ZeroEnhanced, Reply.Text reply)
  end.

Definition replyError (command : bytes) (reply : Reply.Reply) (parseEnhanced : bool) : cerr :=
  let '(e, text) := reply_parts reply parseEnhanced in Smtp (Reply.Code reply) e text command None.

(** The outcome for one recipient that [replyError]'s fields are copied to. *)
Definition recipientResult (recipient command : bytes) (reply : Reply.Reply) (parseEnhanced : bool) :
    smtp.RecipientResult :=
  let '(e, text) := reply_parts reply parseEnhanced in
  {| smtp.RRecipient := recipient; smtp.RCommand := command; smtp.RCode := Reply.Code reply;
     smtp.REnhanced := e; smtp.RText := text |}.

Definition transportError (command : bytes) (err : cerr) : cerr :=
  Smtp 0 smtp.ZeroEnhanced [] command (Some err).

Definition enhancedStatusCodes (c : connection) : bool :=
  match extensionParameter (ext c) ($"ENHANCEDSTATUSCODES") with Some _ => true | None => false end.

Definition unexpectedReply (command : bytes) (reply : Reply.Reply) (parseEnhanced : bool) (want : list Z) :
    option cerr :=
  if existsb (fun code => Reply.Code reply =? code) want then None
  else if 0 <? Reply.Code reply then Some (replyError command reply parseEnhanced)
  else Some (transportError command (Local EMissingCode)).

(** [if err := unexpectedReply(command, reply, c.conn.enhancedStatusCodes(), want...); err != nil] *)
Definition expect (command : bytes) (reply : Reply.Reply) (want : list Z) : C unit :=
  c ← get; guard_err (unexpectedReply command reply (enhancedStatusCodes c) want).

Definition invalidState (command : bytes) (have : sessionState) (allowed : list sessionState) : option cerr :=
  if existsb (sessionState_eqb have) allowed then None else Some (Local (EState command)).

(** ** The outcome of a completing operation: finalstatus.go *)

Definition finalStatusUnknownStream (command : bytes) (err : cerr) : cerr :=
  if is_unknown err then err
  else match err with
  | Smtp code enhanced text cmd cause => Smtp code enhanced text cmd (Some (Unknown cause))
  | _ => Smtp 0 smtp.ZeroEnhanced [] command (Some (Unknown (Some err)))
  end.

Definition finalStatusUnknown (command : bytes) (err : cerr) : cerr :=
  match err with
  | Smtp code _ _ _ _ => if negb (code =? 0) then err else finalStatusUnknownStream command err
  | _ => finalStatusUnknownStream command err
  end.

Definition authoritativePrefix (results : list smtp.RecipientResult) (n : nat) : list smtp.RecipientResult :=
  take n results.

(** ** Queued commands: pipeline.go *)

Definition maxPipelineDepth : nat := 16.
Definition maxPipelineBytes : Z := Z.shiftl 64 10.

Record queuedCommand : Type := {
  verb : bytes;
  args : list bytes;
  syncPoint : bool;
  completes : bool
}.

Definition commandLength (cmd : queuedCommand) : Z :=
  Z.of_nat (length (verb cmd)) + 2 + fold_right (fun a n => Z.of_nat (length a) + 1 + n) 0 (args cmd).

(** ** Traces: trace.go *)

Definition redactedPayload : bytes := $"[redacted]".

(** The arguments of a traced command: after the first, an AUTH command's are payload. *)
Definition trace_args (redact : bool) (arguments : list bytes) : bytes :=
  match arguments with
  | [] => []
  | a :: rest => SP :: a ++ concat (map (fun b => SP :: (if redact then redactedPayload else b)) rest)
  end.

Definition traceReplyLine (reply : Reply.Reply) : bytes :=
  if Reply.Code reply =? 334 then $"334 " ++ redactedPayload
  else match Reply.Lines reply with
  | [] => Itoa (Reply.Code reply) ++ SP :: Reply.Text reply
  | ls => Itoa (Reply.Code reply) ++ SP :: Join ls [LF]
  end.

(** ** Operations of the connection *)
Section Client.
Context `{Unicode} (opts : ClientOptions) (wd : world).

Definition traceCommandLine (cmd : queuedCommand) : bytes :=
  verb cmd ++ trace_args (EqualFold (verb cmd) ($"AUTH")) (args cmd).

Definition trace (d : TraceDirection) (line : bytes) : C unit :=
  modify (fun c => if Trace opts then add_trace c {| Direction := d; Line := line |} else c).

(** [ctx.Err()] *)
Definition ctx_Err : C (option ctx_err) := fun c => (tick c, Ok (w_ctx wd (clock c))).
(** [if err := ctx.Err(); err != nil { return err }] *)
Definition ctx_check : C unit := o ← ctx_Err; guard_err (Ctx <$> o).
(** the same, closing the connection *)
Definition ctx_poison : C unit := o ← ctx_Err; match o with Some e => poisoned (Ctx e) | None => mret tt end.
(** The watcher of a cancelled context closes the connection at any time before it is stopped. *)
Definition watch : C unit := o ← ctx_Err; match o with Some _ => modify poison | None => mret tt end.

(** One write on the connection; a closed one refuses it, and refuses the deadline of a read. *)
Definition raw_write (c : connection) (p : bytes) : connection * option ioerr :=
  if closed c then (tick c, Some ErrTransport)
  else match w_write wd (clock c) with
  | None => (record (tick c) (Wrote p), None)
  | Some (k, e) => (record (tick c) (Torn (take k p)), Some e)
  end.

(** One reply from the connection, seeing what arrives before the deadline. *)
Definition read_arrived (c : connection) : option (result wire_err Reply.Reply * LineReader) :=
  match w_deadline wd (clock c) with
  | None => ReadReply (reader c) ZeroLimits
  | Some k =>
      match ReadReply {| unread := take k (unread (reader c)); final := ErrTimeout |} ZeroLimits with
      | Some (r, rest) =>
          Some (r, {| unread := unread rest ++ drop k (unread (reader c)); final := final (reader c) |})
      | None => None
      end
  end.

Definition raw_read : C Reply.Reply := fun c =>
  if closed c then (tick c, Err (WireErr (ErrIO ErrTransport)))
  else match read_arrived c with
  | Some (Ok reply, rest) => (record (tick (set_stream c rest (tls c))) (Got reply), Ok reply)
  | Some (Err e, rest) => (tick (set_stream c rest (tls c)), Err (WireErr e))
  | None => (c, Err Fuel)
  end.

(** *** pipeline.go *)

Definition isSyncPoint (v : bytes) : bool :=
  let u := ToUpper v in
  beq u ($"EHLO") || beq u ($"DATA") || beq u ($"VRFY") || beq u ($"EXPN") || beq u ($"TURN") || beq u ($"QUIT")
  || beq u ($"NOOP").

Definition depth (c : connection) : nat :=
  match extensionParameter (ext c) ($"PIPELINING") with Some _ => maxPipelineDepth | None => 1%nat end.

(** The send half of [write] and of [authResponse]: one encoded line. *)
Definition send_line (command v : bytes) (arguments : list bytes) : C unit :=
  ctx_check;;
  c ← get;
  match EncodeCommand v arguments with
  | Err e => ctx_poison;; poisoned (transportError command (WireErr e))
  | Ok line =>
      let '(c', err) := raw_write c line in
      modify (fun _ => c');;
      ctx_poison;;
      match err with
      | Some e => poisoned (transportError command (WireErr (ErrIO e)))
      | None => mret tt
      end
  end.

Definition write (cmd : queuedCommand) : C unit :=
  send_line (verb cmd) (verb cmd) (args cmd);;
  trace TraceSent (traceCommandLine cmd).

Definition read (command : bytes) : C Reply.Reply :=
  ctx_check;;
  c ← get;
  let '(c', res) := raw_read c in
  modify (fun _ => c');;
  ctx_poison;;
  match res with
  | Err e => poisoned (transportError command e)
  | Ok reply =>
      trace TraceReceived (traceReplyLine reply);;
      if Reply.Code reply =? 421 then
        c1 ← get; poisoned (replyError command reply (enhancedStatusCodes c1))
      else mret reply
  end.

Definition readOnly (command : bytes) : C Reply.Reply :=
  c ← get; if closed c then fail (Local EClosed) else read command.

Fixpoint validate_group (commands : list queuedCommand) : result client_err (list queuedCommand) :=
  match commands with
  | [] => Ok []
  | cmd :: commands' =>
      let cmd' := {| verb := ToUpper (verb cmd); args := args cmd; syncPoint := syncPoint cmd;
                     completes := completes cmd |} in
      if (syncPoint cmd' || isSyncPoint (verb cmd')) && negb (match commands' with [] => true | _ => false end)
      then Err (EGroup (verb cmd'))
      else let? rest := validate_group commands' in Ok (cmd' :: rest)
  end.

(** [if err != nil { if cmd.completes { return finalStatusUnknown(cmd.verb, err) }; return err }] *)
Definition classified {A} (cmd : queuedCommand) (m : C A) : C A :=
  on_error (fun e => if completes cmd then finalStatusUnknown (verb cmd) e else e) m.

(** The inner loop that writes: the commands issued and those left. [room] is how many more the depth
    allows, [first] whether none was issued yet, [bytes] what was. *)
Fixpoint issue (commands : list queuedCommand) (room : nat) (first : bool) (bytes : Z) :
    C (list queuedCommand * list queuedCommand) :=
  match commands, room with
  | [], _ | _, O => mret ([], commands)
  | cmd :: commands', S room' =>
      let encoded := commandLength cmd in
      if maxPipelineBytes <? encoded then fail (Local (ETooLong (verb cmd)))
      else if negb first && (maxPipelineBytes <? bytes + encoded) then mret ([], commands)
      else
        (if completes cmd then ctx_check else mret tt);;
        classified cmd (write cmd);;
        if syncPoint cmd then mret ([cmd], commands')
        else
          r ← issue commands' room' false (bytes + encoded);
          mret (cmd :: fst r, snd r)
  end.

(** The inner loop that reads. *)
Fixpoint collect (issued : list queuedCommand) : C (list Reply.Reply) :=
  match issued with
  | [] => mret []
  | cmd :: issued' =>
      reply ← classified cmd (read (verb cmd));
      rest ← collect issued';
      mret (reply :: rest)
  end.

(** The outer loop; every round issues a command, so there are at most as many as commands. *)
Fixpoint rounds (fuel : nat) (commands : list queuedCommand) : C (list Reply.Reply) :=
  match commands with
  | [] => mret []
  | _ =>
      match fuel with
      | O => fail Fuel
      | S fuel' =>
          c ← get;
          r ← issue commands (depth c) true 0;
          replies ← collect (fst r);
          rest ← rounds fuel' (snd r);
          mret (replies ++ rest)
      end
  end.

Definition executeLocked (commands : list queuedCommand) : C (list Reply.Reply) :=
  match commands with
  | [] => mret []
  | _ =>
      commands' ← lift (validate_group commands);
      c ← get;
      if closed c then fail (Local EClosed) else rounds (length commands') commands'
  end.

(** [replies[0]] of a group of one. *)
Definition execute_one (cmd : queuedCommand) : C Reply.Reply :=
  replies ← executeLocked [cmd];
  match replies with
  | reply :: _ => mret reply
  | [] => fail Fuel
  end.

(** *** conn.go *)

Definition identity : bytes :=
  if negb (beq (Identity opts) []) then Identity opts
  else match w_hostname wd with
       | Some (_ :: _ as host) => host
       | _ => $"localhost"
       end.

(** What the reader holds, and what the transport below it still delivers. *)
Definition buffered (c : connection) : bytes := take (w_buffered wd (clock c) (reader c)) (unread (reader c)).
Definition on_transport (c : connection) : LineReader :=
  {| unread := drop (w_buffered wd (clock c) (reader c)) (unread (reader c)); final := final (reader c) |}.

(** The handshake is made on the transport: what the old reader holds is lost with it, what it does
    not hold is the first the handshake reads. *)
Definition upgradeTLS : C unit := fun c =>
  match w_handshake wd (clock c) (on_transport c) with
  | Some stream => watch (record (set_stream (tick c) stream true) Handshake)
  | None =>
      match w_ctx wd (clock c) with
      | Some e => (poison (tick c), Err (Ctx e))
      | None => (tick c, Err (transportError ($"TLS") TLSErr))
      end
  end.

Definition readGreeting : C Reply.Reply := readOnly ($"greeting").

(** *** ehlo.go *)

Definition command_of (v : bytes) (arguments : list bytes) (sync : bool) : queuedCommand :=
  {| verb := v; args := arguments; syncPoint := sync; completes := false |}.

Definition heloLocked : C unit :=
  reply ← execute_one (command_of ($"HELO") [identity] true);
  guard_err (unexpectedReply ($"HELO") reply false [250]);;
  modify (unless_closed (fun c => set_ext c [])).

Definition ehlo_verb : bytes := if LMTP opts then $"LHLO" else $"EHLO".

Definition ehloLocked : C unit :=
  reply ← on_error (transportError ehlo_verb) (execute_one (command_of ehlo_verb [identity] true));
  if negb (LMTP opts) && ((Reply.Code reply =? 500) || (Reply.Code reply =? 502)) then heloLocked
  else
    guard_err (unexpectedReply ehlo_verb reply false [250]);;
    match ParseEHLOReply (Reply.Lines reply) with
    | Err e => poisoned (transportError ehlo_verb (WireErr e))
    | Ok parsed =>
        modify (unless_closed (fun c =>
          set_ext c (map (fun e => (ExtKeyword e, ExtRaw e)) (EExtensions parsed))))
    end.

(** [newClient]; [NewClient] and [Dial] close the transport when it fails. *)
Definition initial (stream : LineReader) (over_tls : bool) : connection :=
  {| state := stateConnected; transactionBase := stateConnected; ext := []; recipients := []; smtpUTF8 := false;
     binaryMIME := false; reader := stream; tls := over_tls; clock := 0; wire := []; traces := [] |}.

Definition newClient : C unit :=
  (if ImplicitTLS opts then upgradeTLS else mret tt);;
  greeting ← readGreeting;
  guard_err (unexpectedReply ($"greeting") greeting false [220]);;
  modify (fun c => set_session c (if ImplicitTLS opts then stateTLS else stateGreeted) (transactionBase c));;
  ehloLocked.

Definition NewClient (stream : LineReader) (over_tls : bool) : connection * result cerr unit :=
  match ctx_check (initial stream over_tls) with
  | (c, Err e) => (c, Err e)
  | (c, Ok _) =>
      match newClient c with
      | (c', Err e) => (poison c', Err e)
      | r => r
      end
  end.

End Client.
End smtpclient.
