(* ===== verification/Client.v ===== *)
(** * smtpclient: the operations of a Client

    txn.go, mail.go, rcpt.go, data.go, lmtp.go, ext_a_transport.go (the BDAT transfer), ext_b_burl.go,
    ext_b_limits.go, ext_c_commands.go, starttls.go, verify.go, auth.go and the Close of client.go,
    over the connection of ClientCore.v. Option structs without a field are left out. *)
From Stdlib Require Import ZArith Lia Bool.
From stdpp Require Import base list gmap strings.
From S2P Require Import Prelude GoStrings Utf8 Base64 Sasl Wire DotStuff Reply Command Path Ehlo Core.
From S2P Require Import NormTables Unicodenorm NormTheorems SaslprepTables Saslprep.
From S2P Require Import ServerParams ClientParams ClientCore.
Import smtpclient.

Section Client.
Context `{Unicode} `{NetIP} `{RFC3339} `{MapOrder} `{Crypto} (opts : ClientOptions) (wd : world).

Abbreviation ctx_check := (ctx_check wd).
Abbreviation ctx_poison := (ctx_poison wd).
Abbreviation read := (read opts wd).
Abbreviation execute_one := (execute_one opts wd).
Abbreviation executeLocked := (executeLocked opts wd).

Definition require_state (command : bytes) (allowed : list sessionState) : C unit :=
  c ← get; guard_err (invalidState command (state c) allowed).

(** ** txn.go *)

Definition commandLocked (v : bytes) (arguments : list bytes) (allowed : list sessionState) : C Reply.Reply :=
  require_state v allowed;;
  execute_one (command_of v arguments (isSyncPoint v)).

Definition command (v : bytes) (arguments : list bytes) (allowed : list sessionState) : C Reply.Reply :=
  ctx_check;; commandLocked v arguments allowed.

(** Between the greeting and the end, with and without a transaction. *)
Definition greeted : list sessionState := [stateGreeted; stateTLS; stateAuthenticated].
Definition usable : list sessionState := greeted ++ [stateTransaction].

Definition Reset : C unit :=
  reply ← commandLocked ($"RSET") [] usable;
  expect ($"RSET") reply [250];;
  modify (unless_closed (fun c =>
    let c1 := if sessionState_eqb (state c) stateTransaction
              then set_session c (transactionBase c) (transactionBase c) else c in
    set_transaction c1 [] false false)).

Definition Noop : C unit :=
  reply ← command ($"NOOP") [] usable;
  expect ($"NOOP") reply [250].

(** The reply to QUIT decides the result; the connection is closed whatever it is. *)
Definition quit_and_close : C unit := fun c =>
  match (reply ← execute_one (command_of ($"QUIT") [] true); expect ($"QUIT") reply [221]) c with
  | (c', r) => (poison c', r)
  end.

Definition Quit : C unit :=
  ctx_check;;
  c ← get;
  if closed c then fail (Local EClosed) else quit_and_close.

Definition Close : C unit :=
  c ← get;
  if closed c then mret tt else quit_and_close.

(** ** mail.go *)

Definition requests_utf8 (o : option MailOptions) : bool :=
  match o ≫= mo_Transport with Some t => opt_SMTPUTF8 t | None => false end.

Definition Mail (from : bytes) (o : option MailOptions) (allowUnadvertised : bool) : C unit :=
  path ← lift (validatePath from);
  c ← get;
  let '(binary, arguments) := mailArgs (ext c) (tls c) (binaryMIME c) path o allowUnadvertised in
  modify (fun c => set_transaction c (recipients c) (smtpUTF8 c) binary);;
  arguments ← lift arguments;
  reply ← commandLocked ($"MAIL") arguments greeted;
  expect ($"MAIL") reply [250];;
  modify (unless_closed (fun c =>
    set_transaction (set_session c stateTransaction (state c)) [] (requests_utf8 o) (binaryMIME c))).

(** ** rcpt.go *)

Fixpoint rcpt_commands (ext_ : extensions) (utf8 : bool) (rcpts : list Recipient) :
    result client_err (list queuedCommand) :=
  match rcpts with
  | [] => Ok []
  | r :: rcpts' =>
      let? arguments := rcptArgs ext_ utf8 r in
      let? rest := rcpt_commands ext_ utf8 rcpts' in
      Ok (command_of ($"RCPT") arguments false :: rest)
  end.

Definition accepts_rcpt (reply : Reply.Reply) : bool := (Reply.Code reply =? 250) || (Reply.Code reply =? 251).

Definition rcpt_results (enhanced : bool) (rcpts : list Recipient) (replies : list Reply.Reply) :
    list smtp.RecipientResult :=
  zip_with (fun r reply => recipientResult (rc_Address r) ($"RCPT") reply enhanced) rcpts replies.

Definition rcpt_accepted (rcpts : list Recipient) (replies : list Reply.Reply) : list bytes :=
  map (fun p => rc_Address (fst p)) (List.filter (fun p => accepts_rcpt (snd p)) (zip rcpts replies)).

Definition rcptBatch (rcpts : list Recipient) : C (list smtp.RecipientResult) :=
  ctx_check;;
  match rcpts with
  | [] => fail (Local ENoRecipient)
  | _ =>
      c ← get;
      guard_err (invalidState ($"RCPT") (state c) [stateTransaction]);;
      commands ← lift (rcpt_commands (ext c) (smtpUTF8 c) rcpts);
      replies ← executeLocked commands;
      c1 ← get;
      modify (unless_closed (fun c =>
        set_transaction c (recipients c ++ rcpt_accepted rcpts replies) (smtpUTF8 c) (binaryMIME c)));;
      mret (rcpt_results (enhancedStatusCodes c1) rcpts replies)
  end.

Definition Rcpt (to_ : bytes) (o : option RcptOptions) (allowUnadvertised : bool) : C unit :=
  results ← rcptBatch [{| rc_Address := to_; rc_Options := o; rc_Allow := allowUnadvertised |}];
  match results with
  | [r] =>
      match smtp.Err_of r with
      | None => mret tt
      | Some e => fail (Smtp (smtp.Code e) (smtp.Enhanced e) (smtp.Text e) (smtp.Command e) None)
      end
  | _ => fail Fuel
  end.

Definition RcptBatch := rcptBatch.

(** ** The content of a message *)

(** The caller's reader: the data of its reads, then end of file ([None]) or an error, of which
    io.ErrUnexpectedEOF (what a reader reports whose own input was cut short) is told apart because
    [bdat] does. A Read that returns data together with its error counts as two. *)
Inductive source_err : Type := SourceUnexpectedEOF | SourceOther.
Record source : Type := { pieces : list bytes; src_err : option source_err }.

(** A call that completes a transaction returns results beside its error. *)
Definition data_outcome : Type := list smtp.RecipientResult * option cerr.

(** Runs the part of such a call that has no result but its error. *)
Definition failing (m : C unit) (k : C data_outcome) : C data_outcome := fun c =>
  match m c with
  | (c', Err e) => (c', Ok ([], Some e))
  | (c', Ok _) => k c'
  end.
Definition done (results : list smtp.RecipientResult) (e : option cerr) : C data_outcome := mret (results, e).
Definition bind_failing {A} (m : C A) (k : A -> C data_outcome) : C data_outcome := fun c =>
  match m c with
  | (c', Err e) => (c', Ok ([], Some e))
  | (c', Ok a) => k a c'
  end.

(** [deadlineWriter]: its deadline decides whether the write fails. *)
#[local] Instance deadlineWriter : IOWriter connection := raw_write wd.

(** The transfer loop of [Data]: the writer over the connection. *)
Fixpoint transfer (ps : list bytes) (err : option source_err) (dw : Writer.DotStuffWriter connection) :
    Writer.DotStuffWriter connection * option cerr :=
  let c := Writer.w dw in
  let with_conn c' := {| Writer.w := c'; Writer.pendingCR := Writer.pendingCR dw;
    Writer.atLineStart := Writer.atLineStart dw; Writer.wroteAny := Writer.wroteAny dw;
    Writer.lastByte := Writer.lastByte dw; Writer.closed := Writer.closed dw |} in
  match ctx_poison c with
  | (c', Err e) => (with_conn c', Some e)
  | (c', Ok _) =>
      match ps with
      | [] => (with_conn c', match err with Some _ => Some (transportError ($"DATA") Source) | None => None end)
      | p :: ps' =>
          match p with
          | [] => transfer ps' err (with_conn c')
          | _ =>
              match Writer.Write (with_conn c') p with
              | Some (dw', _, None) => transfer ps' err dw'
              | Some (dw', _, Some e) => (dw', Some (transportError ($"DATA") (WireErr e)))
              | None => (with_conn c', Some Fuel)
              end
          end
      end
  end.

(** ** lmtp.go *)

Definition is_timeout (e : cerr) : bool := match e with WireErr (ErrIO ErrTimeout) => true | _ => false end.

(** [rejectExtraLMTPFinalReply] *)
Definition rejectExtraLMTPFinalReply (command : bytes) : C unit := fun c =>
  if negb (beq (buffered wd c) [])
  then (tick c, Err (transportError command (Local EExtraReply)))
  else
    match raw_read wd c with
    | (c', Err e) => (c', if is_timeout e then Ok tt else Err (transportError command e))
    | (c', Ok _) => (c', Err (transportError command (Local EExtraReply)))
    end.

(** The final replies of the recipients, in order: the results read, and the error that ended them. *)
Fixpoint read_finals (command : bytes) (rcpts : list bytes) : C data_outcome :=
  match rcpts with
  | [] => done [] None
  | r :: rcpts' => fun c =>
      match read command c with
      | (c', Err e) => (poison c', Ok ([], Some (finalStatusUnknownStream command e)))
      | (c', Ok reply) =>
          match read_finals command rcpts' c' with
          | (c2, Ok (results, e)) => (c2, Ok (recipientResult r command reply (enhancedStatusCodes c') :: results, e))
          | (c2, Err e) => (c2, Err e)
          end
      end
  end.

(** The check that no reply is left over: one more, and none of those read is trusted. *)
Definition no_extra (command : bytes) (results : list smtp.RecipientResult) : C data_outcome := fun c =>
  match rejectExtraLMTPFinalReply command c with
  | (c', Err e) => (poison c', Ok ([], Some (finalStatusUnknownStream command e)))
  | (c', Ok _) => (c', Ok (results, None))
  end.

Definition restore_base (c : connection) : connection := set_session c (transactionBase c) (transactionBase c).

Definition readLMTPFinalReplies (rcpts : list bytes) : C data_outcome :=
  out ← read_finals ($"DATA") rcpts;
  match out with
  | (results, Some e) => done results (Some e)
  | (results, None) =>
      out ← no_extra ($"DATA") results;
      match out with
      | (results, Some e) => done results (Some e)
      | (results, None) =>
          watch wd;;
          modify (unless_closed (fun c => set_transaction (restore_base c) [] (smtpUTF8 c) (binaryMIME c)));;
          done results None
      end
  end.

(** ** data.go *)

(** After the 354 reply. *)
Definition data_content (src : source) (rcpts : list bytes) : C data_outcome := fun c =>
  let '(dw, err) := transfer (pieces src) (src_err src) (Writer.NewDotStuffWriter c) in
  match err with
  | Some e => (poison (Writer.w dw), Ok ([], Some e))
  | None =>
      match Writer.Close dw with
      | (dw', Some e) =>
          (poison (Writer.w dw'),
           Ok ([], Some (finalStatusUnknown ($"DATA") (transportError ($"DATA") (WireErr e)))))
      | (dw', None) =>
          bind_failing (on_error (finalStatusUnknown ($"DATA")) ctx_poison) (fun _ =>
            if LMTP opts then readLMTPFinalReplies rcpts
            else bind_failing (on_error (finalStatusUnknown ($"DATA")) (read ($"DATA"))) (fun reply =>
              bind_failing (watch wd) (fun _ =>
              bind_failing (modify (unless_closed (fun c => set_transaction (restore_base c) [] false (binaryMIME c)))) (fun _ =>
              bind_failing (expect ($"DATA") reply [250]) (fun _ =>
              c1 ← get;
              done (map (fun r => recipientResult r ($"DATA") reply (enhancedStatusCodes c1)) rcpts) None)))))
          (Writer.w dw')
      end
  end.

Definition data_command (src : source) : C data_outcome :=
  bind_failing ctx_check (fun _ =>
  c ← get;
  bind_failing (guard_err (invalidState ($"DATA") (state c) [stateTransaction])) (fun _ =>
  if (match recipients c with [] => true | _ => false end) && negb (LMTP opts)
  then done [] (Some (Local ENoRecipient))
  else
    bind_failing (execute_one (command_of ($"DATA") [] true)) (fun reply =>
    bind_failing (expect ($"DATA") reply [354]) (fun _ =>
    out ← data_content src (recipients c);
    watch wd;;
    mret out)))).

(** ** ext_a_transport.go: BDAT *)

Definition defaultBDATChunkSize : Z := Z.shiftl 32 10.
Definition maxBDATChunkSize : Z := Z.shiftl 64 20.

Definition bdat_limits : Wire.Limits :=
  {| MaxReplyLineLength := 0; MaxReplyLines := 0; MaxReplySize := 0; MaxBDATChunkSize := maxBDATChunkSize;
     MaxCommandLineLength := 0; MaxSASLResponseLength := 0 |}.

Definition writeBDATChunk (chunk : bytes) (last : bool) : C unit := fun c =>
  let size := Z.of_nat (length chunk) in
  match EncodeBDATCommand size last bdat_limits with
  | Err e => (poison c, Err (transportError ($"BDAT") (WireErr e)))
  | Ok line =>
      match raw_write wd c line with
      | (c1, Some e) => (poison c1, Err (transportError ($"BDAT") (WireErr (ErrIO e))))
      | (c1, None) =>
          let '(c2, _, _, err) :=
            CopyBDATChunk (raw_write wd) (w_cuts wd (clock c1)) c1 {| unread := chunk; final := EOF |} size bdat_limits in
          match err with
          | Some (ChunkWire e) => (poison c2, Err (transportError ($"BDAT") (WireErr e)))
          | Some (ChunkSink e) => (poison c2, Err (transportError ($"BDAT") (WireErr (ErrIO e))))
          | None => (ctx_poison;; watch wd) c2
          end
      end
  end.

Definition classifyFinalReplyFailure (command : bytes) (err : cerr) : cerr :=
  if LMTP opts then finalStatusUnknownStream command err else finalStatusUnknown command err.

Definition bdatFinalReplies (rcpts : list bytes) (first : Reply.Reply) : C data_outcome :=
  if negb (LMTP opts) then
    bind_failing (expect ($"BDAT") first [250]) (fun _ =>
    c ← get;
    done (map (fun r => recipientResult r ($"BDAT") first (enhancedStatusCodes c)) rcpts) None)
  else match rcpts with
  | [] => fail Fuel
  | r :: rcpts' =>
      c ← get;
      out ← read_finals ($"BDAT") rcpts';
      let results := recipientResult r ($"BDAT") first (enhancedStatusCodes c) :: fst out in
      match snd out with
      | Some e => done results (Some e)
      | None => no_extra ($"BDAT") results
      end
  end.

(** An error of [io.ReadFull] that is not taken for the end of the content: it returns io.EOF and
    io.ErrUnexpectedEOF for a reader at its end, and the reader's own error otherwise. *)
Definition read_fails (err : option source_err) : bool :=
  match err with Some SourceOther => true | Some SourceUnexpectedEOF | None => false end.

(** The loop of [bdat] over what is left of the content; [err] is the caller's error after it. A full
    chunk is not known to be the last, so content that ends with one is followed by an empty LAST. *)
Fixpoint bdat_loop (fuel : nat) (chunkSize : nat) (content : bytes) (err : option source_err) (rcpts : list bytes) :
    C data_outcome :=
  match fuel with
  | O => fail Fuel
  | S fuel' =>
      bind_failing ctx_poison (fun _ =>
      let chunk := take chunkSize content in
      let short := (length content <? chunkSize)%nat in
      if short && read_fails err then done [] (Some Source)
      else
        let last := short in
        bind_failing (on_error (fun e => if last then finalStatusUnknown ($"BDAT") e else e)
                        (writeBDATChunk chunk last)) (fun _ =>
        bind_failing (on_error (fun e => if last then classifyFinalReplyFailure ($"BDAT") e else e)
                        (read ($"BDAT"))) (fun reply =>
        if last then
          modify (fun c => set_transaction c (recipients c) (smtpUTF8 c) false);;
          modify (unless_closed (fun c => set_transaction (restore_base c) [] (smtpUTF8 c) (binaryMIME c)));;
          bdatFinalReplies rcpts reply
        else
          bind_failing (expect ($"BDAT") reply [250]) (fun _ =>
          bdat_loop fuel' chunkSize (drop chunkSize content) err rcpts))))
  end.

Definition bdat (src : source) (chunkSize : Z) : C data_outcome :=
  bind_failing ctx_check (fun _ =>
  c ← get;
  bind_failing (guard_err (invalidState ($"BDAT") (state c) [stateTransaction])) (fun _ =>
  match recipients c with
  | [] => done [] (Some (Local ENoRecipient))
  | _ =>
      let content := concat (pieces src) in
      bdat_loop (S (length content)) (Z.to_nat chunkSize) content (src_err src) (recipients c)
  end)).

Record DataOptions : Type := { UseChunking : bool; ChunkSize : Z }.

(** [Data] with the extension hook, [transportData], that hands the call to [bdat]. *)
Definition Data (src : source) (o : option DataOptions) : C data_outcome :=
  c ← get;
  match o with
  | Some {| UseChunking := true; ChunkSize := size |} =>
      if negb (advertises (ext c) ($"CHUNKING")) then done [] (Some (Local (EMissing ($"CHUNKING"))))
      else
        let chunkSize := if size =? 0 then defaultBDATChunkSize else size in
        if (chunkSize <=? 0) || (maxBDATChunkSize <? chunkSize) then done [] (Some (Local (EArgument ($"BDAT"))))
        else bdat src chunkSize
  | _ => if binaryMIME c then done [] (Some (Local EBinary)) else data_command src
  end.

(** ** ext_b_burl.go *)

Definition burlLocked (arguments : list bytes) (last : bool) : C Reply.Reply :=
  require_state ($"BURL") [stateTransaction];;
  execute_one {| verb := $"BURL"; args := arguments; syncPoint := false; completes := last |}.

Definition BURL (url : bytes) (last : bool) : C data_outcome :=
  if negb (beq (TrimSpace url) url) || beq url [] || ContainsAny url [CR; LF]
  then done [] (Some (Local (EArgument ($"BURL"))))
  else if LMTP opts then done [] (Some (Local (EArgument ($"BURL"))))
  else
    c ← get;
    if negb (advertises (ext c) ($"BURL")) then done [] (Some (Local (EMissing ($"BURL"))))
    else match recipients c with
    | [] => done [] (Some (Local ENoRecipient))
    | rcpts =>
        bind_failing (burlLocked (url :: if last then [$"LAST"] else []) last) (fun reply =>
        (if last
         then modify (unless_closed (fun c => set_transaction (restore_base c) [] false false))
         else mret tt);;
        bind_failing (expect ($"BURL") reply [250]) (fun _ =>
        c1 ← get;
        done (if last then map (fun r => recipientResult r ($"BURL") reply (enhancedStatusCodes c1)) rcpts else [])
          None))
    end.

(** ** verify.go, ext_c_commands.go, ext_b_limits.go *)

Definition Verify (address : bytes) : C bytes :=
  if beq address [] then fail (Local (EArgument ($"VRFY")))
  else
    reply ← command ($"VRFY") [address] greeted;
    expect ($"VRFY") reply [250; 251; 252];;
    mret (Reply.Text reply).

Definition Expand (list_ : bytes) : C bytes :=
  if beq list_ [] then fail (Local (EArgument ($"EXPN")))
  else
    reply ← command ($"EXPN") [list_] greeted;
    expect ($"EXPN") reply [250];;
    mret (Reply.Text reply).

Definition Help (topic : bytes) : C bytes :=
  reply ← command ($"HELP") (if beq topic [] then [] else [topic]) usable;
  expect ($"HELP") reply [211; 214];;
  mret (Reply.Text reply).

Definition validETRNNode (node : bytes) : bool :=
  negb (beq node []) && negb (ContainsAny node [SP; x09; CR; LF; x00]).

Definition ETRN (node : bytes) : C bytes :=
  if negb (validETRNNode node) then fail (Local (EArgument ($"ETRN")))
  else
    c ← get;
    if negb (advertises (ext c) ($"ETRN")) then fail (Local (EMissing ($"ETRN")))
    else
      reply ← command ($"ETRN") [node] greeted;
      expect ($"ETRN") reply [250; 251; 252; 253];;
      mret (Reply.Text reply).

Definition isASCIIAlphaNum (b : byte) : bool := is_alnum b.

Definition valid_atrn_label (label : bytes) : bool :=
  match label with
  | [] => false
  | c :: rest =>
      (length label <=? 63)%nat && isASCIIAlphaNum c && isASCIIAlphaNum (List.last label x00)
      && forallb (fun d => isASCIIAlphaNum d || (d =b "-"%byte)) (removelast rest)
  end.

Definition validATRNDomain (domain : bytes) : bool :=
  negb (beq domain []) && (length domain <=? 255)%nat && negb (HasPrefix domain ($".")) && negb (HasSuffix domain ($"."))
  && forallb valid_atrn_label (Split domain "."%byte).

Definition ATRN (domains : list bytes) : C unit :=
  if negb (forallb validATRNDomain domains) then fail (Local (EArgument ($"ATRN")))
  else
    c ← get;
    if negb (advertises (ext c) ($"ATRN")) then fail (Local (EMissing ($"ATRN")))
    else
      reply ← command ($"ATRN") (match domains with [] => [] | _ => [Join domains ($",")] end) [stateAuthenticated];
      expect ($"ATRN") reply [250];;
      poisoned (Local ERoleReversal).

(** [Client.Limits]: [None] is no advertisement, [Some None] a malformed one. *)
Definition Limits (c : connection) : option (option smtp.Limits) :=
  smtp.ParseLimitsParam <$> Extension (ext c) ($"LIMITS").

(** ** starttls.go *)

(** The TLS configuration only decides the handshake's outcome. *)
Definition StartTLS : C unit :=
  ctx_check;;
  c ← get;
  guard_err (invalidState ($"STARTTLS") (state c) [stateGreeted]);;
  match extensionParameter (ext c) ($"STARTTLS") with
  | None => fail (Local (EMissing ($"STARTTLS")))
  | Some _ =>
      reply ← execute_one (command_of ($"STARTTLS") [] false);
      expect ($"STARTTLS") reply [220];;
      modify (fun c => set_ext c []);;
      (fun c => match upgradeTLS wd c with (c', Err e) => (poison c', Err e) | r => r end);;
      modify (unless_closed (fun c => set_session c stateTLS (transactionBase c)));;
      ehloLocked opts wd
  end.

(** ** auth.go *)

Definition maxAuthChallenge : Z := Z.shiftl 16 10.

Record AuthOptions : Type := {
  ao_Username : bytes;
  ao_Password : bytes;
  ao_AuthorizationID : bytes;
  ao_Token : bytes;
  Mechanisms : list bytes;
  AllowInsecureAuth : bool;
  SASLPrep : bool
}.

Definition prep (s : bytes) : C bytes :=
  match Prepare s with Ok t => mret t | Err _ => fail PrepErr end.

(** The identities and the password, prepared when asked for. *)
Definition prepared_config (o : AuthOptions) : C (bytes * bytes * bytes) :=
  if SASLPrep o then
    u ← prep (ao_Username o);
    p ← prep (ao_Password o);
    a ← prep (ao_AuthorizationID o);
    mret (u, p, a)
  else mret (ao_Username o, ao_Password o, ao_AuthorizationID o).

Definition authMechanisms (params : bytes) : list bytes :=
  map ToUpper (Fields (smtpsasl.TrimPrefix (TrimSpace params) ($"="))).

Definition default_mechanisms : list bytes :=
  [$"SCRAM-SHA-256-PLUS"; $"SCRAM-SHA-256"; $"SCRAM-SHA-1-PLUS"; $"SCRAM-SHA-1"; $"CRAM-MD5"; $"OAUTHBEARER";
   $"XOAUTH2"; $"EXTERNAL"; $"PLAIN"; $"LOGIN"].

Definition placeholder : smtpsasl.Config :=
  {| smtpsasl.Username := []; smtpsasl.Password := []; smtpsasl.AuthorizationID := []; smtpsasl.Token := [];
     smtpsasl.ChannelBinding := [x01]; smtpsasl.testNonce := [] |}.

Fixpoint select (preferred : list bytes) (available : list bytes) : option bytes :=
  match preferred with
  | [] => None
  | name :: preferred' =>
      if mem (ToUpper name) available then
        match smtpsasl.New name placeholder with
        | Some _ => Some (ToUpper name)
        | None => select preferred' available
        end
      else select preferred' available
  end.

Definition selectMechanism (preferred available : list bytes) : option bytes :=
  select (match preferred with [] => default_mechanisms | _ => preferred end) available.

Definition encodeSASL (v : bytes) : bytes := match v with [] => $"=" | _ => EncodeToString v end.

Definition decodeChallenge (v : bytes) : option bytes :=
  let v := TrimSpace v in
  if beq v [] || beq v ($"=") then Some []
  else if maxAuthChallenge * 2 <? Z.of_nat (length v) then None
  else match DecodeString v with
       | Some out => if maxAuthChallenge <? Z.of_nat (length out) then None else Some out
       | None => None
       end.

Definition needsSecret (name : bytes) : bool := negb (beq name ($"EXTERNAL")).

Definition tlsExporter (over_tls : bool) (name : bytes) : option bytes :=
  if negb (HasSuffix name ($"-PLUS")) then Some []
  else if over_tls then w_exporter wd else None.

Definition authResponse (response : bytes) : C unit :=
  send_line wd ($"AUTH") response [];;
  trace opts TraceSent redactedPayload.

(** Whatever becomes of the cancellation, the cause is returned. *)
Definition cancelAuth {A} (cause : cerr) : C A := fun c =>
  match (authResponse ($"*");; reply ← read ($"AUTH");
         if negb (Reply.Code reply =? 501) then modify poison else mret tt) c with
  | (c', _) => (c', Err cause)
  end.

(** The challenges of the exchange, at most [fuel] of them. *)
Fixpoint auth_loop (fuel : nat) (mech : smtpsasl.Mechanism) (reply : Reply.Reply) : C Reply.Reply :=
  if negb (Reply.Code reply =? 334) then mret reply
  else match fuel with
  | O => fail Fuel
  | S fuel' =>
      match decodeChallenge (Reply.Text reply) with
      | None => cancelAuth (transportError ($"AUTH") SaslErr)
      | Some challenge =>
          match smtpsasl.Next mech challenge with
          | (_, None) => cancelAuth SaslErr
          | (mech', Some (response, last)) =>
              authResponse (encodeSASL response);;
              reply' ← read ($"AUTH");
              if last && (Reply.Code reply' =? 334) then poisoned (transportError ($"AUTH") SaslErr)
              else auth_loop fuel' mech' reply'
          end
      end
  end.

(** The mechanism chosen for the connection. *)
Definition auth_mechanism (o : AuthOptions) (creds : bytes * bytes * bytes) (c : connection) :
    result cerr (bytes * smtpsasl.Mechanism) :=
  match authAdvertisement (ext c) with
  | None => Err (Local (EMissing ($"AUTH")))
  | Some params =>
      let all := authMechanisms params in
      let available := if (match Mechanisms o with [] => true | _ => false end) && negb (tls c)
                       then List.filter (fun m => negb (HasSuffix m ($"-PLUS"))) all else all in
      match selectMechanism (Mechanisms o) available with
      | None => Err (Local EAuth)
      | Some name =>
          if needsSecret name && negb (tls c) && negb (AllowInsecureAuth o) then Err (Local EAuth)
          else match tlsExporter (tls c) name with
          | None => Err (Local EAuth)
          | Some binding =>
              let '(u, p, a) := creds in
              match smtpsasl.New name
                      {| smtpsasl.Username := u; smtpsasl.Password := p; smtpsasl.AuthorizationID := a;
                         smtpsasl.Token := ao_Token o; smtpsasl.ChannelBinding := binding;
                         smtpsasl.testNonce := [] |} with
              | None => Err SaslErr
              | Some mech => Ok (name, mech)
              end
          end
      end
  end.

Definition Auth (o : AuthOptions) : C unit :=
  ctx_check;;
  creds ← prepared_config o;
  c ← get;
  guard_err (invalidState ($"AUTH") (state c) [stateGreeted; stateTLS]);;
  chosen ← (fun c => (c, auth_mechanism o creds c));
  let '(name, mech) := chosen : bytes * smtpsasl.Mechanism in
  match smtpsasl.Start (w_random wd) mech with
  | (_, None) => fail SaslErr
  | (mech', Some initial) =>
      reply ← execute_one (command_of ($"AUTH")
                (name :: match initial with Some r => [encodeSASL r] | None => [] end) true);
      reply' ← auth_loop 3 mech' reply;
      expect ($"AUTH") reply' [235];;
      modify (unless_closed (fun c => set_session c stateAuthenticated (transactionBase c)));;
      ehloLocked opts wd
  end.

End Client.
