(* ===== verification/ClientHooks.v ===== *)
(** * smtpclient: the registry of extension hooks

    extensions.go and the [init] functions that fill it (ext_a_transport.go, ext_b_delivery.go,
    ext_c_legacy.go, lmtp.go). ClientParams.v and Client.v call the hooks by name, in the order in which
    the sorted registry holds them; here the registry is filled and run as the code does it, and the two
    are shown to agree whatever the order of the [init] functions and whichever sort [sort.Slice] is. *)
From Stdlib Require Import ZArith Lia Bool Permutation Sorting.Sorted.
From stdpp Require Import base list gmap strings sorting.
From S2P Require Import Prelude GoStrings Utf8 Base64 Sasl Wire DotStuff Reply Command Path Ehlo Core.
From S2P Require Import NormTables Unicodenorm NormTheorems SaslprepTables Saslprep.
From S2P Require Import ServerParams ClientParams ClientCore Client.
Import smtpclient.

(** ** The order of names *)

(** [s < t] on strings. *)
Fixpoint string_ltb (s t : bytes) : bool :=
  match s, t with
  | _, [] => false
  | [], _ :: _ => true
  | c :: s', d :: t' => (bz c <? bz d) || (c =b d) && string_ltb s' t'
  end.

(** [sort.Slice] with [less] comparing names: any permutation in which no later name is smaller. *)
Class NameSort : Type := {
  sort_names {A} : list (bytes * A) -> list (bytes * A);
  sort_names_perm {A} (l : list (bytes * A)) : sort_names l ≡ₚ l;
  sort_names_sorted {A} (l : list (bytes * A)) :
    StronglySorted (fun a b => string_ltb (fst b) (fst a) = false) (sort_names l)
}.

(** ** The registry *)

Section Registry.
Context `{NameSort} {Mail Rcpt Data Final : Type}.

Record extension_hooks : Type := {
  hk_mail : list (bytes * Mail);
  hk_rcpt : list (bytes * Rcpt);
  hk_data : option Data;
  hk_lmtp : option Final
}.

Definition no_hooks : extension_hooks := {| hk_mail := []; hk_rcpt := []; hk_data := None; hk_lmtp := None |}.

Definition registerMailExtension (name : bytes) (fn : Mail) (h : extension_hooks) : extension_hooks :=
  {| hk_mail := sort_names (hk_mail h ++ [(name, fn)]); hk_rcpt := hk_rcpt h; hk_data := hk_data h;
     hk_lmtp := hk_lmtp h |}.
Definition registerRcptExtension (name : bytes) (fn : Rcpt) (h : extension_hooks) : extension_hooks :=
  {| hk_mail := hk_mail h; hk_rcpt := sort_names (hk_rcpt h ++ [(name, fn)]); hk_data := hk_data h;
     hk_lmtp := hk_lmtp h |}.
Definition registerDataExtension (fn : Data) (h : extension_hooks) : extension_hooks :=
  {| hk_mail := hk_mail h; hk_rcpt := hk_rcpt h; hk_data := Some fn; hk_lmtp := hk_lmtp h |}.
Definition registerLMTPFinalReplies (fn : Final) (h : extension_hooks) : extension_hooks :=
  {| hk_mail := hk_mail h; hk_rcpt := hk_rcpt h; hk_data := hk_data h; hk_lmtp := Some fn |}.

(** A call of one of the four, as data. *)
Inductive registration : Type :=
| RegMail (name : bytes) (fn : Mail)
| RegRcpt (name : bytes) (fn : Rcpt)
| RegData (fn : Data)
| RegFinal (fn : Final).

Definition perform_registration (h : extension_hooks) (r : registration) : extension_hooks :=
  match r with
  | RegMail name fn => registerMailExtension name fn h
  | RegRcpt name fn => registerRcptExtension name fn h
  | RegData fn => registerDataExtension fn h
  | RegFinal fn => registerLMTPFinalReplies fn h
  end.

Definition registered (rs : list registration) : extension_hooks := fold_left perform_registration rs no_hooks.

Definition mail_of (r : registration) : option (bytes * Mail) :=
  match r with RegMail name fn => Some (name, fn) | _ => None end.
Definition rcpt_of (r : registration) : option (bytes * Rcpt) :=
  match r with RegRcpt name fn => Some (name, fn) | _ => None end.
Definition data_of (r : registration) : option Data := match r with RegData fn => Some fn | _ => None end.
Definition final_of (r : registration) : option Final := match r with RegFinal fn => Some fn | _ => None end.

End Registry.

Arguments extension_hooks : clear implicits.
Arguments registration : clear implicits.

(** ** The hooks of the package *)

Section Hooks.
Context `{Unicode} `{NetIP} `{RFC3339} `{MapOrder} `{Crypto}.

(** An encoder acts on a Client only through its extensions, its TLS state and its [binaryMIME] flag. *)
Definition mailExtensionEncoder : Type :=
  extensions -> bool -> bool -> bytes -> option MailOptions -> bool * result client_err (list Param).
Definition rcptExtensionEncoder : Type := extensions -> RcptOptions -> result client_err (list Param).

(** [None] is an unhandled call. *)
Definition dataExtensionHandler : Type :=
  ClientOptions -> world -> source -> option DataOptions -> C (option data_outcome).
Definition lmtpFinalReplyHandler : Type := ClientOptions -> world -> list bytes -> C (option data_outcome).

Definition hooks : Type :=
  extension_hooks mailExtensionEncoder rcptExtensionEncoder dataExtensionHandler lmtpFinalReplyHandler.

Fixpoint mail_loop (l : list (bytes * mailExtensionEncoder)) ext (is_tls binary : bool) (path : bytes)
    (opts : option MailOptions) (params : list Param) : bool * result client_err (list Param) :=
  match l with
  | [] => (binary, Ok params)
  | (_, fn) :: l' =>
      match fn ext is_tls binary path opts with
      | (binary', Err e) => (binary', Err e)
      | (binary', Ok p) => mail_loop l' ext is_tls binary' path opts (params ++ p)
      end
  end.

Fixpoint rcpt_loop (l : list (bytes * rcptExtensionEncoder)) ext (opts : RcptOptions) (params : list Param) :
    result client_err (list Param) :=
  match l with
  | [] => Ok params
  | (_, fn) :: l' => let? p := fn ext opts in rcpt_loop l' ext opts (params ++ p)
  end.

Definition hooked_mail_params (h : hooks) ext is_tls binary path opts : bool * result client_err (list Param) :=
  mail_loop (hk_mail h) ext is_tls binary path opts [].
Definition hooked_rcpt_params (h : hooks) ext opts : result client_err (list Param) :=
  rcpt_loop (hk_rcpt h) ext opts [].

Definition extensionData (h : hooks) : dataExtensionHandler := fun opts wd src o =>
  match hk_data h with None => mret None | Some hook => hook opts wd src o end.
Definition lmtpFinalReplies (h : hooks) : lmtpFinalReplyHandler := fun opts wd rcpts =>
  match hk_lmtp h with None => mret None | Some hook => hook opts wd rcpts end.

(** [return result, true, err] *)
Definition handled (m : C data_outcome) : C (option data_outcome) := out ← m; mret (Some out).

Definition transportData : dataExtensionHandler := fun opts wd src o =>
  c ← get;
  match o with
  | Some {| UseChunking := true; ChunkSize := size |} =>
      if negb (advertises (ext c) ($"CHUNKING")) then handled (done [] (Some (Local (EMissing ($"CHUNKING")))))
      else
        let chunkSize := if negb (size =? 0) then size else defaultBDATChunkSize in
        if (chunkSize <=? 0) || (maxBDATChunkSize <? chunkSize)
        then handled (done [] (Some (Local (EArgument ($"BDAT")))))
        else handled (bdat opts wd src chunkSize)
  | _ => if binaryMIME c then handled (done [] (Some (Local EBinary))) else mret None
  end.

Definition lmtp_finals : lmtpFinalReplyHandler := fun opts wd rcpts =>
  if negb (LMTP opts) then mret None else handled (readLMTPFinalReplies opts wd rcpts).

(** The [init] functions, file by file. *)
Definition init_transport : list (registration mailExtensionEncoder rcptExtensionEncoder dataExtensionHandler lmtpFinalReplyHandler) :=
  [RegMail ($"transport") (fun ext _ _ path opts => transportMailParams ext path opts); RegData transportData].
Definition init_delivery : list (registration mailExtensionEncoder rcptExtensionEncoder dataExtensionHandler lmtpFinalReplyHandler) :=
  [RegMail ($"delivery-control") (fun ext is_tls binary path opts => (binary, deliveryMailParams ext is_tls path opts));
   RegRcpt ($"dsn") (fun _ opts => dsnRcptParams opts)].
Definition init_legacy : list (registration mailExtensionEncoder rcptExtensionEncoder dataExtensionHandler lmtpFinalReplyHandler) :=
  [RegMail ($"legacy") (fun ext _ binary _ opts => (binary, legacyMailParams ext opts));
   RegRcpt ($"legacy") (fun ext opts => legacyRcptParams ext opts)].
Definition init_lmtp : list (registration mailExtensionEncoder rcptExtensionEncoder dataExtensionHandler lmtpFinalReplyHandler) :=
  [RegFinal lmtp_finals].

(** [Data], with the hook it asks first. *)
Definition hooked_data (h : hooks) opts wd (src : source) (o : option DataOptions) : C data_outcome :=
  out ← extensionData h opts wd src o;
  match out with
  | Some r => mret r
  | None => data_command opts wd src
  end.

End Hooks.

(** ** The order of names is total *)

Lemma string_ltb_antisym s t : string_ltb s t = false -> string_ltb t s = false -> s = t.
Proof.
  revert t. induction s as [|c s IH]; intros [|d t]; cbn; [done..|]. intros [L1 E1]%orb_false_iff [L2 E2]%orb_false_iff.
  assert (c = d) as -> by (apply bz_inj; lia). rewrite byte_eqb_refl in E1, E2. cbn in E1, E2. f_equal. by apply IH.
Qed.

Definition name_le {A} (a b : bytes * A) : Prop := string_ltb (fst b) (fst a) = false.

Lemma string_ltb_asym s t : string_ltb s t = true -> string_ltb t s = false.
Proof.
  revert t. induction s as [|c s IH]; intros [|d t]; cbn; [done..|]. rewrite !byte_eqb_bz.
  destruct (Z.lt_trichotomy (bz c) (bz d)) as [L|[E|L]].
  - rewrite (proj2 (Z.ltb_ge (bz d) (bz c))), (proj2 (Z.eqb_neq (bz d) (bz c))) by lia. done.
  - rewrite E, Z.ltb_irrefl, Z.eqb_refl. apply IH.
  - rewrite (proj2 (Z.ltb_ge (bz c) (bz d))), (proj2 (Z.eqb_neq (bz c) (bz d))) by lia. done.
Qed.

Lemma string_ltb_le_trans s t u : string_ltb t s = false -> string_ltb u t = false -> string_ltb u s = false.
Proof.
  revert t u. induction s as [|c s IH]; intros [|d t] [|e u]; cbn; [done..|].
  intros [L1 E1]%orb_false_iff [L2 E2]%orb_false_iff. apply orb_false_iff. split; [lia|].
  destruct (byte_eqb_spec e c) as [->|]; [|done].
  assert (c = d) as -> by (apply bz_inj; lia). rewrite byte_eqb_refl in E1, E2. cbn in *. by apply (IH t).
Qed.

#[local] Instance name_le_total {A} : Total (@name_le A).
Proof. intros a b. unfold name_le. destruct (string_ltb (fst b) (fst a)) eqn:E; [right; by apply string_ltb_asym|by left]. Qed.
#[local] Instance name_le_trans {A} : Transitive (@name_le A).
Proof. intros a b c. apply string_ltb_le_trans. Qed.
#[local] Instance name_le_dec {A} : RelDecision (@name_le A).
Proof. intros a b. unfold name_le. apply _. Defined.

(** A sort that [sort.Slice] may be. *)
Definition merge_names : NameSort := {|
  sort_names A l := merge_sort name_le l;
  sort_names_perm A l := merge_sort_Permutation name_le l;
  sort_names_sorted A l := StronglySorted_merge_sort name_le l
|}.

(** ** What the registry holds *)

Lemma sorted_names_unique {A} (l l' : list (bytes * A)) :
  l ≡ₚ l' -> NoDup (map fst l') -> StronglySorted name_le l -> StronglySorted name_le l' -> l = l'.
Proof.
  intros P N S S'. apply (StronglySorted_unique_strong name_le); [|done..].
  intros x y Hx Hy L L'. rewrite P in Hx. pose proof (string_ltb_antisym _ _ L' L) as E.
  apply list_elem_of_lookup in Hx as [i Hi]. apply list_elem_of_lookup in Hy as [j Hj].
  rewrite NoDup_alt in N. assert (i = j) as ->; [|congruence].
  apply (N i j (fst x)); rewrite list_lookup_fmap; [by rewrite Hi|rewrite Hj; cbn; by rewrite E].
Qed.

Section RegistryFacts.
Context {Mail Rcpt Data Final : Type}.
Implicit Types rs : list (registration Mail Rcpt Data Final).

(** The registered encoders, sorted by name, and the last registered of the handlers. *)
Definition holds rs (h : extension_hooks Mail Rcpt Data Final) : Prop :=
  (hk_mail h ≡ₚ omap mail_of rs /\ StronglySorted name_le (hk_mail h)) /\
  (hk_rcpt h ≡ₚ omap rcpt_of rs /\ StronglySorted name_le (hk_rcpt h)) /\
  hk_data h = last (omap data_of rs) /\ hk_lmtp h = last (omap final_of rs).

Lemma sort_names_snoc `{NameSort} {A} (l l' : list (bytes * A)) x :
  l ≡ₚ l' -> sort_names (l ++ [x]) ≡ₚ l' ++ [x].
Proof. intros P. by rewrite sort_names_perm, P. Qed.

Lemma registered_holds `{NameSort} rs : holds rs (registered rs).
Proof.
  induction rs as [|r rs IH] using rev_ind; [by repeat split; constructor|].
  unfold registered. rewrite fold_left_app. fold (registered rs). cbn [fold_left].
  destruct IH as ((M & SM) & (R & SR) & D & F). unfold holds. rewrite !omap_app.
  destruct r; cbn; rewrite ?app_nil_r, ?last_snoc; split_and!; auto using sort_names_snoc, sort_names_sorted.
Qed.

(** Registrations under different names, and at most one of each handler. *)
Definition separate rs : Prop :=
  NoDup (map fst (omap mail_of rs)) /\ NoDup (map fst (omap rcpt_of rs)) /\
  (length (omap data_of rs) <= 1)%nat /\ (length (omap final_of rs) <= 1)%nat.

Lemma permuted_last {A} (l l' : list A) : l ≡ₚ l' -> (length l <= 1)%nat -> last l = last l'.
Proof.
  intros P L. destruct l as [|x [|]]; [|by apply Permutation_length_1_inv in P as ->|cbn in L; lia].
  by apply Permutation_nil in P as ->.
Qed.

(** Then the registry does not depend on the order of registration or the sort. *)
Lemma registered_unique (S1 S2 : NameSort) rs rs' :
  rs ≡ₚ rs' -> separate rs -> @registered S1 _ _ _ _ rs = @registered S2 _ _ _ _ rs'.
Proof.
  intros P (NM & NR & LD & LF). destruct (@registered_holds S1 rs) as ((M & SM) & (R & SR) & D & F).
  destruct (@registered_holds S2 rs') as ((M' & SM') & (R' & SR') & D' & F').
  destruct (@registered S1 _ _ _ _ rs) as [m r d f], (@registered S2 _ _ _ _ rs') as [m' r' d' f']. cbn in *. f_equal.
  - rewrite <- P in M'. apply sorted_names_unique; [by rewrite M, M'| |done..]. by rewrite M'.
  - rewrite <- P in R'. apply sorted_names_unique; [by rewrite R, R'| |done..]. by rewrite R'.
  - rewrite D, D'. apply permuted_last; [by rewrite P|done].
  - rewrite F, F'. apply permuted_last; [by rewrite P|done].
Qed.

End RegistryFacts.

(** ** The hooks are the functions the client's other files call *)

Section HooksFacts.
Context `{Unicode} `{NetIP} `{RFC3339} `{MapOrder} `{Crypto}.

(** The calls the [init] functions make, in the order of the files. *)
Definition init_calls : list (registration mailExtensionEncoder rcptExtensionEncoder dataExtensionHandler
    lmtpFinalReplyHandler) :=
  init_transport ++ init_delivery ++ init_legacy ++ init_lmtp.

Lemma init_calls_separate : separate init_calls.
Proof. split_and!; [| |cbn; lia..]; apply (bool_decide_unpack _); vm_compute; exact I. Qed.

(** The registry once every file has been initialized. *)
Definition package_hooks : hooks := {|
  hk_mail := [($"delivery-control", fun ext is_tls binary path opts => (binary, deliveryMailParams ext is_tls path opts));
              ($"legacy", fun ext _ binary _ opts => (binary, legacyMailParams ext opts));
              ($"transport", fun ext _ _ path opts => transportMailParams ext path opts)];
  hk_rcpt := [($"dsn", fun _ opts => dsnRcptParams opts); ($"legacy", fun ext opts => legacyRcptParams ext opts)];
  hk_data := Some transportData;
  hk_lmtp := Some lmtp_finals
|}.

Lemma package_registered `{NameSort} calls : calls ≡ₚ init_calls -> registered calls = package_hooks.
Proof.
  intros P. symmetry in P. rewrite <- (registered_unique merge_names _ init_calls calls P init_calls_separate).
  reflexivity.
Qed.

Lemma or_else_handled (m k : C data_outcome) c :
  (out ← handled m; match out with Some r => mret r | None => k end) c = m c.
Proof. unfold handled, mbind, C_bind. by destruct (m c) as [c' [[]|e]]. Qed.

Lemma package_mail_params ext is_tls binary path o :
  hooked_mail_params package_hooks ext is_tls binary path o = extensionMailParams ext is_tls binary path o.
Proof.
  unfold hooked_mail_params, extensionMailParams. cbn [package_hooks hk_mail mail_loop].
  destruct (deliveryMailParams ext is_tls path o) as [d|]; [|done]. destruct (legacyMailParams ext o) as [l|]; [|done].
  destruct (transportMailParams ext path o) as [b [t|]]; [|done]. cbn. by rewrite app_assoc.
Qed.

Lemma package_rcpt_params ext o : hooked_rcpt_params package_hooks ext o = extensionRcptParams ext o.
Proof.
  unfold hooked_rcpt_params, extensionRcptParams. cbn [package_hooks hk_rcpt rcpt_loop].
  destruct (dsnRcptParams o) as [d|]; [|done]. cbn. by destruct (legacyRcptParams ext o).
Qed.

Lemma package_data opts wd src o c : hooked_data package_hooks opts wd src o c = Data opts wd src o c.
Proof.
  unfold hooked_data, extensionData, Data. cbn [package_hooks hk_data]. unfold transportData.
  destruct o as [[[] size]|]; unfold get, mbind at 1 2 3, C_bind at 1 2 3; [|by destruct (binaryMIME c)..].
  destruct (negb (advertises (ext c) _)); [done|]. destruct (size =? 0); cbn [negb].
  - destruct ((defaultBDATChunkSize <=? 0) || _); [done|]. apply (or_else_handled _ (data_command opts wd src)).
  - destruct ((size <=? 0) || _); [done|]. apply (or_else_handled _ (data_command opts wd src)).
Qed.

(** C34: In whatever order the [init] functions of the package run, and whichever sort [sort.Slice] is, the
    registered hooks encode MAIL and RCPT parameters as the client's parameter functions do (the encoders
    in the order of their names, the first error returned), send [Data] to BDAT or to the DATA command as
    [Data] does, and read one final reply per recipient exactly in LMTP mode. *)
Theorem init_order_irrelevant `{NameSort} opts wd calls :
  calls ≡ₚ init_calls ->
  let h := registered calls in
  (forall ext is_tls binary path o,
     hooked_mail_params h ext is_tls binary path o = extensionMailParams ext is_tls binary path o) /\
  (forall ext o, hooked_rcpt_params h ext o = extensionRcptParams ext o) /\
  (forall src o c, hooked_data h opts wd src o c = Data opts wd src o c) /\
  (forall rcpts after c,
     (out ← lmtpFinalReplies h opts wd rcpts; match out with Some r => mret r | None => after end) c =
     (if LMTP opts then readLMTPFinalReplies opts wd rcpts else after) c).
Proof.
  intros P h. subst h. rewrite (package_registered calls P). split_and!.
  - apply package_mail_params.
  - apply package_rcpt_params.
  - apply package_data.
  - intros rcpts after c. unfold lmtpFinalReplies. cbn [package_hooks hk_lmtp]. unfold lmtp_finals.
    destruct (LMTP opts); cbn [negb]; [apply or_else_handled|done].
Qed.

End HooksFacts.

(** ** The files initialized backwards *)

Module HookSample.

#[local] Existing Instances ascii_only_unicode no_literals ParamFacts.no_times SaslFacts.toy_crypto.
#[local] Instance table_order : MapOrder := fun e => e.
#[local] Existing Instance merge_names.

Definition backwards : list (registration mailExtensionEncoder rcptExtensionEncoder dataExtensionHandler
    lmtpFinalReplyHandler) :=
  init_lmtp ++ init_legacy ++ init_delivery ++ init_transport.

Lemma backwards_calls : backwards ≡ₚ init_calls.
Proof.
  unfold backwards, init_calls. rewrite (Permutation_app_comm init_lmtp), !(assoc_L (++)). f_equiv.
  rewrite (Permutation_app_comm _ init_transport), (Permutation_app_comm init_legacy). by rewrite (assoc_L (++)).
Qed.

Definition quiet : world :=
  {| w_ctx := fun _ => None; w_write := fun _ => None; w_deadline := fun _ => None; w_buffered := fun _ _ => O;
     w_cuts := fun _ => []; w_handshake := fun _ _ => None; w_exporter := None; w_hostname := None; w_random := None |}.
Definition plain_options : ClientOptions := {| LMTP := true; ImplicitTLS := false; Identity := $"me"; Trace := false |}.

Lemma init_order_irrelevant_witness :
  map fst (hk_mail (registered backwards)) = [$"delivery-control"; $"legacy"; $"transport"] /\
  hooked_mail_params (registered backwards) [] false true ($"a@b") None = (false, Ok []) /\
  hooked_mail_params (registered backwards) [] false true ($"a@b") None =
    extensionMailParams [] false true ($"a@b") None.
Proof.
  split; [reflexivity|]. split; [reflexivity|].
  apply (proj1 (init_order_irrelevant plain_options quiet backwards backwards_calls)
    [] false true ($"a@b") None).
Defined.

End HookSample.
