(* ===== verification/Harness.v ===== *)
(** * interop/harness: the parts of the interoperability harness that decide

    classify.go, config.go, profile.go, registry.go, fixtures.go, runtime.go, sink.go, sink_exec.go and the
    verdict of smoke.go. What runs outside the program is a parameter: the container runtime, the commands
    executed in a container, the client's negotiation with a server (its outcome as a result), time. *)
From Stdlib Require Import ZArith Lia Bool Sorting.Sorted Permutation.
From stdpp Require Import base list gmap strings.
From S2P Require Import Prelude GoStrings Wire Path NetAddr Ehlo Extensions Core ServerParams ClientParams ClientHooks.

(** ** Outcomes: classify.go *)

Inductive Outcome : Type :=
| OutcomeOK | OutcomeProtocolFailure | OutcomeIncompatible | OutcomeProfileViolation | OutcomeEnvironmental
| OutcomeTimeout | OutcomeHarnessFailure.

Definition Outcome_String (o : Outcome) : bytes :=
  match o with
  | OutcomeOK => $"ok"
  | OutcomeProtocolFailure => $"protocol-failure"
  | OutcomeIncompatible => $"incompatible"
  | OutcomeProfileViolation => $"profile-violation"
  | OutcomeEnvironmental => $"environmental"
  | OutcomeTimeout => $"timeout"
  | OutcomeHarnessFailure => $"harness-failure"
  end.

(** The text of the error is kept, its transcript is not. *)
Record Result : Type := { r_Outcome : Outcome; r_Server : bytes; r_Step : bytes; r_Err : option bytes }.

Definition NewResult (server step : bytes) (outcome : Outcome) (err : option bytes) : Result :=
  {| r_Outcome := outcome; r_Server := server; r_Step := step; r_Err := err |}.

Definition Result_Error (r : option Result) : bytes :=
  match r with
  | None => []
  | Some r =>
      let msg := r_Server r ++ $"[" ++ r_Step r ++ $"]: " ++ Outcome_String (r_Outcome r) in
      match r_Err r with Some e => msg ++ $": " ++ e | None => msg end
  end.

(** ** Lower case *)

(** [strings.ToLower] beyond ASCII is package unicode's. *)
Class Lower : Type := { unicode_ToLower : bytes -> bytes }.
Definition ascii_lower (c : byte) : byte := if is_upper c then zb (bz c + 32) else c.
Definition ToLower `{Lower} (s : bytes) : bytes := if is_ascii s then map ascii_lower s else unicode_ToLower s.

(** ** Configuration: config.go *)

Record Config : Type := {
  Subset : list bytes;
  StartTimeout : Z;
  HealthTimeout : Z;
  CommandTimeout : Z;
  SinkTimeout : Z;
  StopTimeout : Z;
  IncludeEmulated : bool
}.

Definition Second : Z := 1000000000.
Definition defaultStartTimeout : Z := 60 * Second.
Definition defaultHealthTimeout : Z := 45 * Second.
Definition emulatedHealthTimeout : Z := 90 * Second.
Definition defaultCommandTimeout : Z := 10 * Second.
Definition defaultSinkTimeout : Z := 20 * Second.
Definition defaultStopTimeout : Z := 20 * Second.

Section Selection.
Context `{Lower}.

Fixpoint keep_names (parts : list bytes) : list bytes :=
  match parts with
  | [] => []
  | p :: rest => let p := ToLower (TrimSpace p) in if negb (beq p []) then p :: keep_names rest else keep_names rest
  end.
Definition splitSubset (raw : bytes) : list bytes := keep_names (Split raw ","%byte).

(** [env] is the variable GO_SMTP_INTEROP_SERVERS, [emulatedBuildTag] the build tag. *)
Definition LoadConfig (env : bytes) (emulatedBuildTag : bool) : Config :=
  {| Subset := if negb (beq env []) then splitSubset env else [];
     StartTimeout := defaultStartTimeout;
     HealthTimeout := if emulatedBuildTag then emulatedHealthTimeout else defaultHealthTimeout;
     CommandTimeout := defaultCommandTimeout; SinkTimeout := defaultSinkTimeout; StopTimeout := defaultStopTimeout;
     IncludeEmulated := emulatedBuildTag |}.

Definition Selects (c : Config) (name : bytes) : bool :=
  match Subset c with
  | [] => true
  | _ => existsb (beq (ToLower name)) (Subset c)
  end.
End Selection.

(** ** Profiles: profile.go *)

Definition Tier1 : Z := 1.
Definition Tier2 : Z := 2.
Definition Tier3 : Z := 3.

Record Port : Type := { Container : Z; Kind : bytes; port_ImplicitTLS : bool }.

(** [Addresses] is a map. A runtime's stop callback only matters by having been called. *)
Record RuntimeConfig : Type := { Addresses : gmap Z bytes; has_Sink : bool }.

(** [Start] is [None] for a container profile, otherwise what it returns. *)
Record Profile : Type := {
  p_Name : bytes;
  p_Tier : Z;
  Start : option (result unit (option RuntimeConfig));
  Ports : list Port;
  ExpectedExtensions : list bytes
}.

Definition portByKind (p : Profile) (kind : bytes) : option Port := find (fun port => beq (Kind port) kind) (Ports p).
Definition SMTPPort (p : Profile) : option Port := portByKind p ($"smtp").
Definition LMTPPort (p : Profile) : option Port := portByKind p ($"lmtp").

(** ** The registry: registry.go *)

(** The map, and the order in which [range] visits it. *)
Abbreviation registry := (gmap bytes Profile).
Class RegistryRange : Type := {
  range_registry : registry -> list (bytes * Profile);
  range_registry_perm m : range_registry m ≡ₚ map_to_list m
}.

(** [None] is a panic. *)
Definition Register `{Lower} (m : registry) (p : Profile) : option registry :=
  if beq (p_Name p) [] then None
  else
    let key := ToLower (p_Name p) in
    match m !! key with
    | Some _ => None
    | None => Some (<[key := p]> m)
    end.

Definition Profiles `{RegistryRange} `{NameSort} (m : registry) : list Profile :=
  map snd (sort_names (map (fun '(_, p) => (p_Name p, p)) (range_registry m))).

Definition Lookup `{Lower} (m : registry) (name : bytes) : option Profile := m !! ToLower name.

Definition Selected `{Lower} `{RegistryRange} `{NameSort} (m : registry) (cfg : Config) : list Profile :=
  List.filter (fun p => Selects cfg (p_Name p) && negb ((p_Tier p =? Tier3) && negb (IncludeEmulated cfg))) (Profiles m).

(** ** Fixtures: fixtures.go *)

(** What the fixture is for is left out. *)
Record Fixture : Type := { f_Name : bytes; Body : bytes; RequiresExtension : bytes; MinBodySize : Z }.

(** For a line of two octets at least; Go panics below. *)
Definition repeatLine (fill : byte) (wireLength : nat) : bytes := repeat fill (wireLength - 2) ++ CRLF.

Definition stream_chunk : bytes := repeat "x"%byte 998 ++ CRLF.

(** [for streaming.Len() < target], [len] octets written; each turn writes a thousand. *)
Fixpoint streaming (fuel : nat) (len target : Z) : bytes :=
  match fuel with
  | O => []
  | S fuel' => if len <? target then stream_chunk ++ streaming fuel' (len + 1000) target else []
  end.

Definition plain_fixture (name body : bytes) : Fixture :=
  {| f_Name := name; Body := body; RequiresExtension := []; MinBodySize := 0 |}.
Definition extension_fixture (name body extension : bytes) : Fixture :=
  {| f_Name := name; Body := body; RequiresExtension := extension; MinBodySize := 0 |}.

Definition buildFixtures (target : Z) : list Fixture := [
  plain_fixture ($"plain-ascii") ($"This is a plain 7-bit ASCII body." ++ CRLF ++ $"Second line." ++ CRLF);
  plain_fixture ($"dot-stuffing") ($"Before the lone dot." ++ CRLF ++ $"." ++ CRLF ++ $"After the lone dot." ++ CRLF);
  plain_fixture ($"dot-dot-unstuffing-symmetry")
    ($"Before." ++ CRLF ++ $"..A line that starts with two dots." ++ CRLF ++ $"After." ++ CRLF);
  plain_fixture ($"no-trailing-crlf") ($"This body does not end in CRLF.");
  {| f_Name := $"line-length-1000-1001";
     Body := $"Line length boundary case." ++ CRLF ++ repeatLine "a"%byte 1000 ++ repeatLine "b"%byte 1001;
     RequiresExtension := []; MinBodySize := 1000 + 1001 |};
  extension_fixture ($"eight-bit-body")
    ($"Body with 8-bit octets: caf" ++ [xc3; xa9] ++ $", na" ++ [xc3; xaf] ++ $"ve." ++ CRLF) ($"8BITMIME");
  extension_fixture ($"smtp-utf8-recipient") ($"SMTPUTF8 envelope-path coupling fixture." ++ CRLF) ($"SMTPUTF8");
  plain_fixture ($"multi-recipient-one-invalid") ($"Multi-recipient acceptance fixture." ++ CRLF);
  extension_fixture ($"binary-with-nul") ($"Binary body with an embedded NUL:" ++ [x00] ++ $" right there." ++ CRLF)
    ($"BINARYMIME");
  {| f_Name := $"streaming-200mib"; Body := streaming (Z.to_nat target) 0 target; RequiresExtension := [];
     MinBodySize := target |}].

Definition stream_target : Z := 200 * 1024 * 1024.
Definition Fixtures : list Fixture := buildFixtures stream_target.
Definition FixtureByName (fixtures : list Fixture) (name : bytes) : option Fixture :=
  find (fun f => beq (f_Name f) name) fixtures.

(** ** Starting a profile: runtime.go *)

Record Handle : Type := { h_Name : bytes; hostPorts : gmap Z Z; hostAddrs : gmap Z bytes }.

Inductive start_error : Type :=
| StartFailed
| NilRuntime
| NoAddress (port : Z)
| InvalidAddress (addr : bytes) (port : Z)
| RunFailed.

(** The ports one after the other; an error has stopped the runtime. *)
Fixpoint resolve_ports (addresses : gmap Z bytes) (ports : list Port) (hp : gmap Z Z) (ha : gmap Z bytes) :
    result start_error (gmap Z Z * gmap Z bytes) :=
  match ports with
  | [] => Ok (hp, ha)
  | port :: rest =>
      match addresses !! Container port with
      | None | Some [] => Err (NoAddress (Container port))
      | Some addr =>
          match (p ← SplitHostPort addr; Atoi (snd p)) with
          | None => Err (InvalidAddress addr (Container port))
          | Some n =>
              if (n <? 1) || (65535 <? n) then Err (InvalidAddress addr (Container port))
              else resolve_ports addresses rest (<[Container port := n]> hp) (<[Container port := addr]> ha)
          end
      end
  end.

(** [run] starts the container of a profile without a Start callback. *)
Definition StartProfile (run : Profile -> result unit Handle) (p : Profile) : result start_error Handle :=
  match Start p with
  | None => match run p with Ok h => Ok h | Err _ => Err RunFailed end
  | Some (Err _) => Err StartFailed
  | Some (Ok None) => Err NilRuntime
  | Some (Ok (Some runtime)) =>
      let? maps := resolve_ports (Addresses runtime) (Ports p) ∅ ∅ in
      Ok {| h_Name := p_Name p; hostPorts := fst maps; hostAddrs := snd maps |}
  end.

(** container.go *)
Definition HostPort (h : Handle) (containerPort : Z) : option Z := hostPorts h !! containerPort.
Definition HostAddr (h : Handle) (containerPort : Z) : option bytes :=
  match hostAddrs h !! containerPort with
  | Some addr => Some addr
  | None => (fun p => $"127.0.0.1:" ++ Itoa p) <$> HostPort h containerPort
  end.

(** [prepareImage]: [exists_] is whether the image is there, [pull] the outcome of each attempt, [cancelled]
    the context after it. The number of attempts, and whether there is an image now. *)
Definition imagePullAttempts : nat := 3.
Fixpoint pull_loop (pull cancelled : nat -> bool) (left attempts : nat) : nat * bool :=
  match left with
  | O => (attempts, false)
  | S left' =>
      if pull attempts then (S attempts, true)
      else if cancelled attempts then (S attempts, false)
      else pull_loop pull cancelled left' (S attempts)
  end.
Definition prepareImage (exists_ : bool) (pull cancelled : nat -> bool) : nat * bool :=
  if exists_ then (0%nat, true) else pull_loop pull cancelled imagePullAttempts 0.

(** ** Sinks: sink.go, sink_exec.go *)

Record Message : Type := { msg_Recipient : bytes; Raw : bytes }.

Inductive wait_error (E : Type) : Type := SinkError (e : E) | ErrNoMessage.
Arguments SinkError {E}.
Arguments ErrNoMessage {E}.

(** The [n]th poll on; [done n] is a context that is done when it has found nothing. [None]: still polling
    after [fuel] polls. *)
Fixpoint WaitForMessage {E} (fetch : nat -> result E (list Message)) (done : nat -> bool) (fuel n : nat) :
    option (result (wait_error E) Message) :=
  match fuel with
  | O => None
  | S fuel' =>
      match fetch n with
      | Err e => Some (Err (SinkError e))
      | Ok (m :: _) => Some (Ok m)
      | Ok [] => if done n then Some (Err ErrNoMessage) else WaitForMessage fetch done fuel' (S n)
      end
  end.

Definition QUOTE : byte := x27.

(** [strings.ReplaceAll(s, "'", ...)]. *)
Definition replace_quotes (s with_ : bytes) : bytes := concat (map (fun c => if c =b QUOTE then with_ else [c]) s).
Definition shQuote (s : bytes) : bytes := [QUOTE] ++ replace_quotes s [QUOTE; BACKSLASH; QUOTE; QUOTE] ++ [QUOTE].

Definition splitNonEmptyLines (s : bytes) : list bytes :=
  List.filter (fun l => negb (beq l [])) (map TrimSpace (Split s LF)).

Section Maildir.
Context {E : Type} (exec : list bytes -> result E bytes) (Dir : bytes -> bytes) `{NameSort}.

Definition ls_command (path : bytes) : list bytes :=
  [$"sh"; $"-c"; $"ls -1 " ++ shQuote path ++ $" 2>/dev/null || true"].

(** The entries of one subdirectory, a name with its path. *)
Definition list_entries (dir sub : bytes) : result E (list (bytes * bytes)) :=
  let? out := exec (ls_command (dir ++ $"/" ++ sub)) in
  Ok (map (fun name => (name, dir ++ $"/" ++ sub ++ $"/" ++ name)) (splitNonEmptyLines out)).

Fixpoint read_entries (recipient : bytes) (entries : list (bytes * bytes)) : result E (list Message) :=
  match entries with
  | [] => Ok []
  | (_, path) :: rest =>
      let? raw := exec [$"cat"; path] in
      let? msgs := read_entries recipient rest in
      Ok ({| msg_Recipient := recipient; Raw := raw |} :: msgs)
  end.

Definition Fetch (recipient : bytes) : result E (list Message) :=
  let dir := Dir recipient in
  let? new := list_entries dir ($"new") in
  let? cur := list_entries dir ($"cur") in
  read_entries recipient (sort_names (new ++ cur)).

Definition Reset (recipient : bytes) : result E unit :=
  let dir := Dir recipient in
  let? _ := exec [$"sh"; $"-c"; $"rm -f " ++ shQuote dir ++ $"/new/* " ++ shQuote dir ++ $"/cur/* 2>/dev/null || true"] in
  Ok tt.
End Maildir.

(** ** The health check: smoke.go *)

(** Why WaitForEHLO gave up: its text, and whether it wraps [context.DeadlineExceeded]. *)
Record wait_failure : Type := { wf_text : bytes; wf_deadline : bool }.

Section Smoke.
Context `{Unicode} (negotiate : bytes -> bool -> bool -> result wait_failure extensions).

(** Both checks: [negotiate] is WaitForEHLO at an address, with or without LMTP and implicit TLS, and the
    extensions of the client it returns. *)
Definition missing_extensions (ext : extensions) (expected : list bytes) : list bytes :=
  List.filter (fun e => match Extension ext e with Some _ => false | None => true end) expected.

Definition assert_step : bytes := $"assert-profile".

(** [fmt] prints a list of strings in brackets. *)
Definition show_names (names : list bytes) : bytes := $"[" ++ Join names [SP] ++ $"]".

Definition assert_port (h : Handle) (p : Profile) (port : Port) (lmtp : bool) : Result :=
  match HostAddr h (Container port) with
  | None =>
      NewResult (p_Name p) assert_step OutcomeHarnessFailure
        (Some ($"no host port resolved for container port " ++ Itoa (Container port)))
  | Some addr =>
      match negotiate addr lmtp (negb lmtp && port_ImplicitTLS port) with
      | Err e =>
          NewResult (p_Name p) assert_step (if wf_deadline e then OutcomeTimeout else OutcomeEnvironmental)
            (Some (wf_text e))
      | Ok ext =>
          match missing_extensions ext (ExpectedExtensions p) with
          | [] => NewResult (p_Name p) assert_step OutcomeOK None
          | missing =>
              NewResult (p_Name p) assert_step OutcomeProfileViolation
                (Some ($"server did not advertise claimed extension(s) " ++ show_names missing))
          end
      end
  end.

Definition assertSMTPProfile (h : Handle) (p : Profile) (port : Port) : Result := assert_port h p port false.
Definition assertLMTPGreeting (h : Handle) (p : Profile) (port : Port) : Result := assert_port h p port true.

Definition AssertProfile (h : Handle) (p : Profile) : Result :=
  match SMTPPort p with
  | Some port => assertSMTPProfile h p port
  | None =>
      match LMTPPort p with
      | Some port => assertLMTPGreeting h p port
      | None =>
          NewResult (p_Name p) assert_step OutcomeHarnessFailure (Some ($"profile declares no smtp or lmtp port"))
      end
  end.
End Smoke.

(** The first four octets of a connection, what arrived of them. *)
Definition probeGreeting (buf : bytes) : bool := beq buf ($"220 ") || beq buf ($"220-").

(** ** The registry holds each name once *)

Section RegistryFacts.
Context `{Lower}.
Implicit Types (m : registry) (p : Profile).

(** Every profile is stored under its own name in lower case. *)
Definition registry_ok m : Prop := map_Forall (fun key p => ToLower (p_Name p) = key) m.

Lemma Register_spec m p m' :
  Register m p = Some m' <-> p_Name p <> [] /\ m !! ToLower (p_Name p) = None /\ m' = <[ToLower (p_Name p) := p]> m.
Proof.
  unfold Register. destruct (beq_spec (p_Name p) []) as [E|E]; [split; [done|by intros []]|].
  destruct (m !! ToLower (p_Name p)); split; [done|by intros (_ & ? & _)|by intros [= <-]|by intros (_ & _ & ->)].
Qed.

Lemma Register_ok m p m' : registry_ok m -> Register m p = Some m' -> registry_ok m'.
Proof. intros R (_ & _ & ->)%Register_spec. by apply map_Forall_insert_2. Qed.

(** [Lookup] finds a profile under its name in any case, and what was there before. *)
Lemma Lookup_Register m p m' name :
  Register m p = Some m' ->
  Lookup m' name = if beq (ToLower name) (ToLower (p_Name p)) then Some p else Lookup m name.
Proof.
  intros (_ & _ & ->)%Register_spec. unfold Lookup. destruct (beq_spec (ToLower name) (ToLower (p_Name p))) as [->|N].
  - by rewrite lookup_insert_eq.
  - by rewrite lookup_insert_ne by done.
Qed.

(** The [init] functions of the server packages, one after the other. *)
Fixpoint register_all (m : registry) (ps : list Profile) : option registry :=
  match ps with
  | [] => Some m
  | p :: ps' => m' ← Register m p; register_all m' ps'
  end.

Lemma Register_swap m p q m1 m2 :
  Register m p = Some m1 -> Register m1 q = Some m2 -> (m' ← Register m q; Register m' p) = Some m2.
Proof.
  intros (P & Lp & ->)%Register_spec (Q & Lq & ->)%Register_spec. apply lookup_insert_None in Lq as [Lq N].
  apply bind_Some. exists (<[ToLower (p_Name q) := q]> m). split; [by apply Register_spec|]. apply Register_spec.
  split_and!; [done|by apply lookup_insert_None|by apply insert_insert_ne].
Qed.

Lemma Register_comm m p q : (m' ← Register m p; Register m' q) = (m' ← Register m q; Register m' p).
Proof. apply option_eq. intros r. split; intros (m' & P & Q)%bind_Some; by apply (Register_swap _ _ _ _ _ P Q). Qed.

(** The order in which the packages are initialized does not matter. *)
Lemma register_all_perm m ps qs : ps ≡ₚ qs -> register_all m ps = register_all m qs.
Proof.
  intros P. revert m. induction P as [|p ps qs P IH|p q ps|ps qs rs P IH Q IH']; intros m; cbn [register_all].
  - done.
  - destruct (Register m p); cbn; [apply IH|done].
  - pose proof (Register_comm m q p) as C. destruct (Register m q) as [mq|], (Register m p) as [mp|]; cbn in *; try done;
      rewrite ?C; try done; by rewrite <- ?C.
  - by rewrite IH, IH'.
Qed.

Lemma register_all_ok m ps m' : registry_ok m -> register_all m ps = Some m' -> registry_ok m'.
Proof.
  revert m. induction ps as [|p ps IH]; intros m R; cbn [register_all]; [by intros [= <-]|].
  intros (m1 & E & Q)%bind_Some. apply (IH m1); [by apply (Register_ok m p)|done].
Qed.

(** The profiles in the order of their names. *)
Lemma Profiles_perm `{RegistryRange} `{NameSort} m : Profiles m ≡ₚ map snd (map_to_list m).
Proof.
  unfold Profiles. rewrite sort_names_perm, range_registry_perm, map_map.
  erewrite map_ext; [reflexivity|]. by intros [].
Qed.

Lemma names_distinct m : registry_ok m -> NoDup ((fun e : bytes * Profile => p_Name (snd e)) <$> map_to_list m).
Proof.
  intros R. apply (NoDup_fmap_1 ToLower). rewrite <- list_fmap_compose.
  assert ((ToLower ∘ (fun e : bytes * Profile => p_Name (snd e))) <$> map_to_list m = fst <$> map_to_list m) as ->;
    [|apply NoDup_fst_map_to_list].
  apply list_fmap_ext. intros i [k p] L. apply (R k p), elem_of_map_to_list, list_elem_of_lookup. by exists i.
Qed.

(** Neither the order in which [range] visits the map nor the sort shows in the result. *)
Lemma Profiles_unique (R1 R2 : RegistryRange) (S1 S2 : NameSort) m :
  registry_ok m -> @Profiles R1 S1 m = @Profiles R2 S2 m.
Proof.
  intros R. unfold Profiles. f_equal. apply sorted_names_unique; try apply sort_names_sorted.
  - by rewrite !sort_names_perm, !range_registry_perm.
  - rewrite sort_names_perm, range_registry_perm. rewrite map_map. erewrite map_ext; [by apply names_distinct|].
    by intros [].
Qed.

(** What a run tests: the profiles registered, whatever the order, that the configuration asks for. *)
Lemma Selected_spec `{RegistryRange} `{NameSort} m cfg p :
  In p (Selected m cfg) <->
  (exists key, m !! key = Some p) /\ Selects cfg (p_Name p) = true /\ (p_Tier p = Tier3 -> IncludeEmulated cfg = true).
Proof.
  unfold Selected. rewrite filter_In, <- list_elem_of_In, Profiles_perm, andb_true_iff.
  assert (p ∈ map snd (map_to_list m) <-> exists key, m !! key = Some p) as ->.
  { rewrite list_elem_of_In, in_map_iff. split.
    - intros ([k q] & <- & I). exists k. by apply elem_of_map_to_list, list_elem_of_In.
    - intros [k L]. exists (k, p). split; [done|]. by apply list_elem_of_In, elem_of_map_to_list. }
  assert (negb ((p_Tier p =? Tier3) && negb (IncludeEmulated cfg)) = true <->
    (p_Tier p = Tier3 -> IncludeEmulated cfg = true)) as ->; [|done].
  destruct (Z.eqb_spec (p_Tier p) Tier3), (IncludeEmulated cfg); cbn; split; try done; intros Q; by apply Q.
Qed.

End RegistryFacts.

(** The filter compares the lower-case name with the names as they were given: one in upper case selects
    nothing. [LoadConfig] gives them in lower case. *)
Lemma subset_case_sensitive `{Lower} c :
  Subset c = [$"Postfix"] -> Selects c ($"postfix") = false /\ Selects c ($"Postfix") = false.
Proof. unfold Selects. intros ->. split; reflexivity. Qed.

(** ** Fixtures *)

Lemma streaming_length fuel len target :
  0 <= len -> target - len <= 1000 * Z.of_nat fuel -> target <= len + Z.of_nat (length (streaming fuel len target)).
Proof.
  revert len. induction fuel as [|fuel IH]; intros len L F; cbn [streaming]; [cbn; lia|].
  destruct (Z.ltb_spec len target); [|cbn; lia]. rewrite length_app. specialize (IH (len + 1000) ltac:(lia) ltac:(lia)).
  change (length stream_chunk) with 1000%nat. lia.
Qed.

(** The fixtures have different names and the sizes they claim. *)
Lemma fixtures_wf target :
  0 <= target ->
  NoDup (map f_Name (buildFixtures target)) /\
  Forall (fun f => MinBodySize f <= Z.of_nat (length (Body f))) (buildFixtures target).
Proof.
  intros T. split; [apply (bool_decide_unpack _); vm_compute; exact I|].
  rewrite <- (take_drop 9 (buildFixtures target)). apply Forall_app. split.
  - assert (forallb (fun f => MinBodySize f <=? Z.of_nat (length (Body f))) (take 9 (buildFixtures target)) = true) as F
      by (vm_compute; reflexivity).
    rewrite forallb_forall in F. apply Forall_forall. intros f I%list_elem_of_In%F. lia.
  - apply Forall_singleton. pose proof (streaming_length (Z.to_nat target) 0 target). cbn [MinBodySize Body]. lia.
Qed.

Lemma find_named {A} (name : A -> bytes) (l : list A) x :
  NoDup (map name l) -> In x l -> find (fun y => beq (name y) (name x)) l = Some x.
Proof.
  induction l as [|y l IH]; [done|]. cbn. intros [N D]%NoDup_cons [->|I]; [by rewrite beq_refl|].
  destruct (beq_spec (name y) (name x)) as [E|_]; [|by apply IH]. contradict N. rewrite E.
  by apply list_elem_of_In, in_map.
Qed.

Lemma FixtureByName_In target f :
  0 <= target -> In f (buildFixtures target) -> FixtureByName (buildFixtures target) (f_Name f) = Some f.
Proof. intros T. apply find_named, fixtures_wf, T. Qed.

(** The boundary lines have the lengths they are named for, their line ends included. *)
Lemma repeatLine_length fill n : (2 <= n)%nat -> length (repeatLine fill n) = n.
Proof. intros N. unfold repeatLine. rewrite length_app, repeat_length. cbn. lia. Qed.

(** ** Starting, polling, pulling *)

(** A profile started in the process has an address, with a TCP port, for each of its ports. *)
Lemma resolve_ports_spec addresses ports hp ha maps :
  resolve_ports addresses ports hp ha = Ok maps ->
  (forall k addr, ha !! k = Some addr -> addresses !! k = Some addr -> snd maps !! k = Some addr) /\
  (forall port, In port ports -> exists addr n, addresses !! Container port = Some addr /\
     snd maps !! Container port = Some addr /\ (p ← SplitHostPort addr; Atoi (snd p)) = Some n /\ 1 <= n <= 65535).
Proof.
  revert hp ha. induction ports as [|port ports IH]; intros hp ha; cbn [resolve_ports].
  { intros [= <-]. split; [by intros k addr L _|done]. }
  destruct (addresses !! Container port) as [[|c addr]|] eqn:A; [done| |done].
  destruct (p ← SplitHostPort (c :: addr); Atoi (snd p)) as [n|] eqn:N; [|done].
  destruct ((n <? 1) || (65535 <? n)) eqn:B; [done|]. intros R. destruct (IH _ _ R) as [K P]. split.
  - intros k a L F. apply K; [|done]. destruct (decide (k = Container port)) as [->|D].
    + by rewrite lookup_insert_eq, <- F, A.
    + by rewrite lookup_insert_ne.
  - intros q [<-|I]; [|by apply P]. exists (c :: addr), n. split_and!; [done| |done|lia|lia].
    apply K; [apply lookup_insert_eq|done].
Qed.

Lemma StartProfile_addresses run p runtime h port :
  Start p = Some (Ok (Some runtime)) -> StartProfile run p = Ok h -> In port (Ports p) ->
  exists addr, HostAddr h (Container port) = Some addr /\ Addresses runtime !! Container port = Some addr.
Proof.
  unfold StartProfile. intros ->. destruct (resolve_ports _ _ _ _) as [maps|] eqn:R; [|done]. cbn. intros [= <-] I.
  destruct (resolve_ports_spec _ _ _ _ _ R) as [_ P]. destruct (P port I) as (addr & n & A & L & _).
  exists addr. split; [|done]. unfold HostAddr. cbn. by rewrite L.
Qed.

(** At most three pulls, and none when the image is there; a pull that succeeds ends them. *)
Lemma prepareImage_attempts exists_ pull cancelled :
  let '(attempts, ok) := prepareImage exists_ pull cancelled in
  (attempts <= imagePullAttempts)%nat /\
  (ok = true -> exists_ = true /\ attempts = 0%nat \/ pull (attempts - 1)%nat = true) /\
  (ok = false -> forall k, (k < attempts)%nat -> pull k = false).
Proof.
  unfold prepareImage, imagePullAttempts. destruct exists_; [split_and!; [lia|by left|done]|]. cbn [pull_loop].
  destruct (pull 0%nat) eqn:P0; [split_and!; [lia|by right|done]|].
  destruct (cancelled 0%nat); [split_and!; [lia|done|intros _ [|k] ?; [done|lia]]|].
  destruct (pull 1%nat) eqn:P1; [split_and!; [lia|by right|done]|].
  destruct (cancelled 1%nat); [split_and!; [lia|done|intros _ [|[|k]] ?; try done; lia]|].
  destruct (pull 2%nat) eqn:P2; [split_and!; [lia|by right|done]|].
  destruct (cancelled 2%nat); (split_and!; [lia|done|intros _ [|[|[|k]]] ?; try done; lia]).
Qed.

(** [WaitForMessage] returns the first message of the first poll that finds one, once no poll before it
    failed or found the context done. *)
Lemma WaitForMessage_first {E} (fetch : nat -> result E (list Message)) done_ n k m ms fuel :
  (forall i, (n <= i < n + k)%nat -> fetch i = Ok [] /\ done_ i = false) -> fetch (n + k)%nat = Ok (m :: ms) ->
  (k < fuel)%nat -> WaitForMessage fetch done_ fuel n = Some (Ok m).
Proof.
  revert n fuel. induction k as [|k IH]; intros n [|fuel] Q F L; try lia; cbn [WaitForMessage].
  - rewrite Nat.add_0_r in F. by rewrite F.
  - destruct (Q n ltac:(lia)) as [-> ->]. apply (IH (S n)); [intros i I; apply Q; lia| |lia].
    by replace (S n + k)%nat with (n + S k)%nat by lia.
Qed.

(** ** Quoting for the shell *)

(** How a POSIX shell reads one word of single quotes and backslashes; other unquoted octets are not
    looked at. *)
Fixpoint sh_word (quoted : bool) (s : bytes) : option bytes :=
  match s with
  | [] => if quoted then None else Some []
  | c :: rest =>
      if quoted then if c =b QUOTE then sh_word false rest else cons c <$> sh_word true rest
      else if c =b QUOTE then sh_word true rest
      else if c =b BACKSLASH then match rest with [] => None | d :: rest' => cons d <$> sh_word false rest' end
      else None
  end.

(** A quoted string is one word, of the octets of the string. *)
Lemma shQuote_word s : sh_word false (shQuote s) = Some s.
Proof.
  assert (sh_word true (replace_quotes s [QUOTE; BACKSLASH; QUOTE; QUOTE] ++ [QUOTE]) = Some s) as R; [|exact R].
  induction s as [|c s IH]; [done|]. unfold replace_quotes in *. cbn [map concat].
  destruct (byte_eqb_spec c QUOTE) as [->|N].
  - cbn [app sh_word]. cbn. by rewrite IH.
  - cbn [app sh_word]. destruct (byte_eqb_spec c QUOTE); [done|]. by rewrite IH.
Qed.

(** ** The mailbox of a container *)

Section MaildirFacts.
Context {E : Type} (exec : list bytes -> result E bytes) (Dir : bytes -> bytes) `{NameSort}.

(** A file name without a line break, and without white space that [TrimSpace] would take off. *)
Definition plain_name (name : bytes) : Prop := name <> [] /\ no_byte LF name = true /\ TrimSpace name = name.

Lemma Split_line name rest : no_byte LF name = true -> Split (name ++ LF :: rest) LF = name :: Split rest LF.
Proof.
  induction name as [|c name IH]; cbn [app Split]; [by rewrite byte_eqb_refl|].
  intros [C N]%andb_true_iff. rewrite (IH N). apply negb_true_iff in C. by rewrite C.
Qed.

(** What [ls -1] prints is taken apart into the names it printed. *)
Lemma splitNonEmptyLines_names names :
  Forall plain_name names -> splitNonEmptyLines (concat (map (fun n => n ++ [LF]) names)) = names.
Proof.
  unfold splitNonEmptyLines. induction 1 as [|n names (N & L & T) F IH]; [reflexivity|]. cbn [map concat].
  rewrite <- app_assoc. cbn [app]. rewrite Split_line by done. cbn [map List.filter]. rewrite T, IH.
  by destruct (beq_spec n []).
Qed.

Lemma read_entries_all recipient file entries :
  (forall path, exec [$"cat"; path] = Ok (file path)) ->
  read_entries exec recipient entries =
    Ok (map (fun e => {| msg_Recipient := recipient; Raw := file (snd e) |}) entries).
Proof. intros F. induction entries as [|[n path] l IH]; [done|]. cbn [read_entries map snd]. by rewrite F, IH. Qed.

(** [Fetch] returns every message of both subdirectories once, in the order of the names of their files. *)
Lemma Fetch_all recipient new cur file :
  let dir := Dir recipient in
  Forall plain_name new -> Forall plain_name cur ->
  exec (ls_command (dir ++ $"/new")) = Ok (concat (map (fun n => n ++ [LF]) new)) ->
  exec (ls_command (dir ++ $"/cur")) = Ok (concat (map (fun n => n ++ [LF]) cur)) ->
  (forall path, exec [$"cat"; path] = Ok (file path)) ->
  let entries := map (fun n => (n, dir ++ $"/new/" ++ n)) new ++ map (fun n => (n, dir ++ $"/cur/" ++ n)) cur in
  Fetch exec Dir recipient =
    Ok (map (fun e => {| msg_Recipient := recipient; Raw := file (snd e) |}) (sort_names entries)).
Proof.
  intros dir N C LN LC F entries. unfold Fetch, list_entries. cbv zeta. fold dir.
  change (dir ++ $"/" ++ $"new") with (dir ++ $"/new"). change (dir ++ $"/" ++ $"cur") with (dir ++ $"/cur").
  rewrite LN, LC. cbn. rewrite !splitNonEmptyLines_names by done.
  by apply read_entries_all.
Qed.

End MaildirFacts.

(** ** The verdict of the health check *)

Section Verdict.
Context `{Unicode} (negotiate : bytes -> bool -> bool -> result wait_failure extensions).

Lemma missing_nil ext expected :
  missing_extensions ext expected = [] <-> forall e, In e expected -> exists raw, Extension ext e = Some raw.
Proof.
  unfold missing_extensions. induction expected as [|x l IH]; [done|]. cbn. destruct (Extension ext x) as [raw|] eqn:X.
  - rewrite IH. split; [intros A e [<-|I]; eauto|intros A e I; apply A; by right].
  - split; [done|]. intros A. destruct (A x (or_introl eq_refl)) as [raw Y]. by rewrite X in Y.
Qed.

(** A profile passes exactly when it has a port for mail, the port has an address, the client negotiates
    there, and every extension the profile claims is advertised; a claim the server does not keep, after a
    negotiation, is the only profile violation. *)
Lemma AssertProfile_verdict h p :
  let port := match SMTPPort p with Some port => Some (port, false) | None => (fun port => (port, true)) <$> LMTPPort p end in
  let outcome := r_Outcome (AssertProfile negotiate h p) in
  (outcome = OutcomeOK \/ outcome = OutcomeProfileViolation <->
   exists pt lmtp addr ext, port = Some (pt, lmtp) /\ HostAddr h (Container pt) = Some addr /\
     negotiate addr lmtp (negb lmtp && port_ImplicitTLS pt) = Ok ext /\
     (outcome = OutcomeOK <-> forall e, In e (ExpectedExtensions p) -> exists raw, Extension ext e = Some raw)).
Proof.
  intros port. unfold AssertProfile, assertSMTPProfile, assertLMTPGreeting.
  assert (forall pt lmtp, let outcome := r_Outcome (assert_port negotiate h p pt lmtp) in
    (outcome = OutcomeOK \/ outcome = OutcomeProfileViolation <->
     exists pt' lmtp' addr ext, Some (pt, lmtp) = Some (pt', lmtp') /\ HostAddr h (Container pt') = Some addr /\
       negotiate addr lmtp' (negb lmtp' && port_ImplicitTLS pt') = Ok ext /\
       (outcome = OutcomeOK <-> forall e, In e (ExpectedExtensions p) -> exists raw, Extension ext e = Some raw))) as A.
  { intros pt lmtp. unfold assert_port. destruct (HostAddr h (Container pt)) as [addr|] eqn:HA; cbn.
    - destruct (negotiate addr lmtp _) as [ext|e] eqn:N.
      + pose proof (missing_nil ext (ExpectedExtensions p)) as M. split.
        * intros _. exists pt, lmtp, addr, ext. split_and!; try done. rewrite <- M.
          by destruct (missing_extensions ext (ExpectedExtensions p)).
        * intros _. destruct (missing_extensions ext (ExpectedExtensions p)); cbn; auto.
      + split; [by destruct (wf_deadline e); cbn; intros []|]. intros (? & ? & ? & ? & [= <- <-] & Q & R & _). congruence.
    - split; [by intros []|]. intros (? & ? & ? & ? & [= <- <-] & Q & _). congruence. }
  destruct (SMTPPort p) as [pt|]; [apply A|]. destruct (LMTPPort p) as [pt|]; [apply A|]. cbn.
  split; [by intros []|]. by intros (? & ? & ? & ? & ? & _).
Qed.

End Verdict.
