(* ===== verification/ClientFacts.v ===== *)
(** * smtpclient: what the connection's operations do

    A weakest precondition [wp] for the computations of ClientCore.v, its rules, and the behaviour of
    sending, reading and the pipeline on every branch. Operations are compared by [session], everything
    of a connection but its stream, clock and records. *)
From Stdlib Require Import ZArith Lia Bool.
From stdpp Require Import base list gmap strings.
From S2P Require Import Prelude GoStrings Base64 Sasl Wire DotStuff Reply Command Path Ehlo Core.
From S2P Require Import ServerParams ClientParams ClientCore.
Import smtpclient.

Module ClientFacts.

(** ** Weakest preconditions *)

Definition wp {A} (m : C A) (Q : connection -> result cerr A -> Prop) (c : connection) : Prop :=
  Q (fst (m c)) (snd (m c)).

Lemma wp_mono {A} (m : C A) (Q R : connection -> result cerr A -> Prop) c :
  wp m Q c -> (forall c' r, Q c' r -> R c' r) -> wp m R c.
Proof. intros H HQ. by apply HQ. Qed.

Lemma cwp_ret {A} (a : A) Q c : Q c (Ok a) -> wp (mret a) Q c.
Proof. done. Qed.

Lemma cwp_bind {A B} (m : C A) (k : A -> C B) Q c :
  wp m (fun c' r => match r with Ok a => wp (k a) Q c' | Err e => Q c' (Err e) end) c -> wp (m ≫= k) Q c.
Proof. unfold wp, mbind, C_bind. by destruct (m c) as [c' [a|e]]. Qed.

Lemma wp_on_error {A} f (m : C A) Q c :
  wp m (fun c' r => match r with Ok a => Q c' (Ok a) | Err e => Q c' (Err (f e)) end) c -> wp (on_error f m) Q c.
Proof. unfold wp, on_error. by destruct (m c) as [c' [a|e]]. Qed.

Lemma wp_fail {A} e (Q : connection -> result cerr A -> Prop) c : Q c (Err e) -> wp (fail e) Q c.
Proof. done. Qed.

Lemma cwp_get Q c : Q c (Ok c) -> wp get Q c.
Proof. done. Qed.

Lemma cwp_modify f Q c : Q (f c) (Ok tt) -> wp (modify f) Q c.
Proof. done. Qed.

Lemma wp_guard o Q c : (o = None -> Q c (Ok tt)) -> (forall e, o = Some e -> Q c (Err e)) -> wp (guard_err o) Q c.
Proof. destruct o as [e|]; intros HN HS; [by apply HS|by apply HN]. Qed.

Lemma wp_lift {A} (x : result client_err A) Q c :
  (forall a, x = Ok a -> Q c (Ok a)) -> (forall e, x = Err e -> Q c (Err (Local e))) -> wp (lift x) Q c.
Proof. destruct x as [a|e]; intros HO HE; [by apply HO|by apply HE]. Qed.

(** A triple read off an equation. *)
Lemma cwp_run {A} (m : C A) Q c c' r : wp m Q c -> m c = (c', r) -> Q c' r.
Proof. unfold wp. intros Q1 E. by rewrite E in Q1. Qed.

(** ** What a step leaves alone *)

Definition session (c : connection) : sessionState * sessionState * extensions * list bytes * bool * bool * bool :=
  (state c, transactionBase c, ext c, recipients c, smtpUTF8 c, binaryMIME c, tls c).

Lemma session_closed c c' : session c = session c' -> closed c = closed c'.
Proof. unfold closed. by intros [= -> _]. Qed.

Lemma closed_spec c : closed c = true <-> state c = stateClosed.
Proof. unfold closed, sessionState_eqb. by rewrite bool_decide_eq_true. Qed.

Lemma poison_closed c : closed (poison c) = true.
Proof. unfold poison. destruct (closed c) eqn:E; [done|]. by apply closed_spec. Qed.

Lemma poison_wire c : wire (poison c) = wire c ++ if closed c then [] else [Hangup].
Proof. unfold poison. destruct (closed c); [by rewrite app_nil_r|done]. Qed.

(** The writes and the replies of a stretch of events. *)
Fixpoint sent (evs : list wire_event) : list bytes :=
  match evs with
  | [] => []
  | Wrote p :: evs' => p :: sent evs'
  | _ :: evs' => sent evs'
  end.
Fixpoint got (evs : list wire_event) : list Reply.Reply :=
  match evs with
  | [] => []
  | Got r :: evs' => r :: got evs'
  | _ :: evs' => got evs'
  end.

Lemma sent_app a b : sent (a ++ b) = sent a ++ sent b.
Proof. induction a as [|[] a IH]; cbn; by rewrite ?IH. Qed.
Lemma got_app a b : got (a ++ b) = got a ++ got b.
Proof. induction a as [|[] a IH]; cbn; by rewrite ?IH. Qed.

(** Two stretches of events in a row. *)
Lemma wire_trans c1 c2 c3 a b : wire c2 = wire c1 ++ a -> wire c3 = wire c2 ++ b -> wire c3 = wire c1 ++ a ++ b.
Proof. intros -> ->. by rewrite app_assoc. Qed.

(** ** The primitives *)
Section Facts.
Context `{Unicode} (opts : ClientOptions) (wd : world).

Abbreviation ctx_check := (ctx_check wd).
Abbreviation ctx_poison := (ctx_poison wd).

(** Looking at the context changes nothing; the error is the context's. *)
Definition idle (c c' : connection) : Prop :=
  session c' = session c /\ wire c' = wire c /\ traces c' = traces c /\ reader c' = reader c.

Lemma idle_tick c : idle c (tick c).
Proof. done. Qed.

Lemma ctx_check_spec c :
  wp ctx_check (fun c' r => idle c c' /\ match r with Ok _ => True | Err e => exists k, e = Ctx k end) c.
Proof.
  unfold wp, ctx_check, smtpclient.ctx_check, mbind, C_bind, ctx_Err, guard_err. cbn.
  destruct (w_ctx wd (clock c)) as [k|]; cbn; split; try apply idle_tick; eauto.
Qed.

Lemma ctx_poison_spec c :
  wp ctx_poison (fun c' r => match r with
    | Ok _ => idle c c'
    | Err e => (exists k, e = Ctx k) /\ c' = poison (tick c)
    end) c.
Proof.
  unfold wp, ctx_poison, smtpclient.ctx_poison, mbind, C_bind, ctx_Err. cbn.
  destruct (w_ctx wd (clock c)) as [k|]; cbn; [by split; [eexists|]|apply idle_tick].
Qed.

Lemma watch_spec c : wp (watch wd) (fun c' r => r = Ok tt /\ (idle c c' \/ c' = poison (tick c))) c.
Proof.
  unfold wp, watch, mbind, C_bind, ctx_Err. cbn.
  destruct (w_ctx wd (clock c)) as [k|]; cbn; (split; [done|]); [by right|left; apply idle_tick].
Qed.

Lemma trace_spec d l c :
  wp (trace opts d l) (fun c' r => r = Ok tt /\ session c' = session c /\ wire c' = wire c /\ reader c' = reader c /\
    traces c' = traces c ++ if Trace opts then [{| Direction := d; Line := l |}] else []) c.
Proof. unfold wp, trace, modify. cbn. destruct (Trace opts); cbn; rewrite ?app_nil_r; done. Qed.

(** One write: everything, or a part of it and an error. *)
Lemma raw_write_spec c p :
  let '(c', e) := raw_write wd c p in
  session c' = session c /\ traces c' = traces c /\ reader c' = reader c /\
  match e with
  | None => wire c' = wire c ++ [Wrote p]
  | Some _ => wire c' = wire c \/ exists k, wire c' = wire c ++ [Torn (take k p)]
  end.
Proof. unfold raw_write. destruct (closed c); [by split_and!; try left|]. destruct (w_write wd (clock c)) as [[k e]|]; cbn; split_and!; eauto. Qed.

(** Sending a line: on success exactly the encoded line is on the wire; an error closes the connection
    unless it is the context's, found before anything was written. *)
Definition torn_line (evs : list wire_event) (line : bytes) : Prop :=
  exists mid, evs = mid ++ [Hangup] /\ (mid = [] \/ mid = [Wrote line] \/ exists k, mid = [Torn (take k line)]).

Lemma send_line_spec command v arguments c :
  closed c = false ->
  wp (send_line wd command v arguments) (fun c' r => match r with
    | Ok _ => exists line, EncodeCommand v arguments = Ok line /\ session c' = session c /\
        wire c' = wire c ++ [Wrote line] /\ traces c' = traces c /\ reader c' = reader c
    | Err e => is_unknown e = false /\ traces c' = traces c /\
        ((idle c c' /\ exists k, e = Ctx k) \/
         closed c' = true /\ exists evs, wire c' = wire c ++ evs /\ got evs = [] /\
           (match EncodeCommand v arguments with Ok line => torn_line evs line | Err _ => evs = [Hangup] end) /\
           (forall code enh text cmd err, e = Smtp code enh text cmd err -> code = 0))
    end) c.
Proof.
  intros Hc. unfold send_line. apply cwp_bind. eapply wp_mono; [apply ctx_check_spec|].
  intros c1 [[]|e1] [I1 E1]; cbn beta match; [|destruct E1 as [k ->]; split_and!; [done|apply I1|left; eauto]].
  apply cwp_bind, cwp_get. destruct I1 as (S1 & W1 & T1 & R1).
  assert (closed c1 = false) as Hc1 by (rewrite (session_closed c1 c); done).
  destruct (EncodeCommand v arguments) as [line|we].
  - pose proof (raw_write_spec c1 line) as RW. destruct (raw_write wd c1 line) as [c2 we].
    destruct RW as (S2 & T2 & R2 & W2).
    assert (closed c2 = false) as Hc2 by (rewrite (session_closed c2 c1); done).
    apply cwp_bind, cwp_modify. apply cwp_bind. eapply wp_mono; [apply ctx_poison_spec|].
    assert (exists mid, wire c2 = wire c1 ++ mid /\ got mid = [] /\
      (mid = [] \/ mid = [Wrote line] \/ exists k, mid = [Torn (take k line)])) as (mid & Wm & Gm & Mm).
    { destruct we as [we|]; [destruct W2 as [W2|[k W2]]; [exists []; rewrite app_nil_r|exists [Torn (take k line)]]|exists [Wrote line]];
        split_and!; eauto. }
    intros c3 [[]|e3]; cbn beta match.
    + intros (S3 & W3 & T3 & R3). destruct we as [we|].
      * assert (closed c3 = false) as Hc3 by (rewrite (session_closed c3 c2); done).
        unfold wp, poisoned. cbn. split_and!; [done|unfold poison; rewrite Hc3; cbn; congruence|].
        right. split; [apply poison_closed|]. exists (mid ++ [Hangup]). split_and!.
        -- rewrite poison_wire, Hc3, W3, Wm, W1. by rewrite <- app_assoc.
        -- by rewrite got_app, Gm.
        -- by exists mid.
        -- by intros * [= <-].
      * apply cwp_ret. exists line. split_and!; [done|congruence|congruence|congruence|congruence].
    + intros [[k ->] ->]. split_and!; [done| |right; split; [apply poison_closed|]].
      { unfold poison. change (closed (tick c2)) with (closed c2). rewrite Hc2. cbn. congruence. }
      exists (mid ++ [Hangup]). split_and!; [|by rewrite got_app, Gm|by exists mid|done].
      rewrite poison_wire. change (closed (tick c2)) with (closed c2). rewrite Hc2. change (wire (tick c2)) with (wire c2).
      rewrite Wm, W1. by rewrite <- app_assoc.
  - apply cwp_bind. eapply wp_mono; [apply ctx_poison_spec|]. intros c3 [[]|e3]; cbn beta match.
    + intros (S3 & W3 & T3 & R3). assert (closed c3 = false) as Hc3 by (rewrite (session_closed c3 c1); done).
      unfold wp, poisoned. cbn. split_and!; [done|unfold poison; rewrite Hc3; cbn; congruence|].
      right. split; [apply poison_closed|]. exists [Hangup]. split_and!; [|done|done|by intros * [= <-]].
      rewrite poison_wire, Hc3. congruence.
    + intros [[k ->] ->]. split_and!; [done| |right; split; [apply poison_closed|]].
      { unfold poison. change (closed (tick c1)) with (closed c1). rewrite Hc1. cbn. congruence. }
      exists [Hangup]. split_and!; [|done|done|done]. rewrite poison_wire. change (closed (tick c1)) with (closed c1).
      rewrite Hc1. cbn. congruence.
Qed.

(** Reading: a reply other than 421, or an error, which closes the connection unless it is the context's,
    found before the read. A coded error is the 421 that was read. *)
Lemma raw_read_spec c :
  let '(c', r) := raw_read wd c in
  session c' = session c /\ traces c' = traces c /\
  match r with
  | Ok reply => wire c' = wire c ++ [Got reply] /\ closed c = false
  | Err e => wire c' = wire c /\ exists we, e = WireErr we
  end.
Proof.
  unfold raw_read, read_arrived. destruct (closed c) eqn:Hc; [by split_and!; eauto|]. destruct (w_deadline wd (clock c)) as [k|].
  - destruct (ReadReply _ _) as [[[reply|e] rest]|] eqn:E; cbn; split_and!; eauto.
    destruct (ReadReply_total {| unread := take k (unread (reader c)); final := ErrTimeout |} ZeroLimits) as (? & ? & E').
    congruence.
  - destruct (ReadReply _ _) as [[[reply|e] rest]|] eqn:E; cbn; split_and!; eauto.
    destruct (ReadReply_total (reader c) ZeroLimits) as (? & ? & E'). congruence.
Qed.

Definition hangup (c : connection) : list wire_event := if closed c then [] else [Hangup].

Definition read_error (c : connection) (evs : list wire_event) (e : cerr) : Prop :=
  is_unknown e = false /\
  (evs = hangup c \/ (exists reply, evs = Got reply :: hangup c)) /\
  (forall code enh text cmd err, e = Smtp code enh text cmd err -> code <> 0 ->
    exists reply, evs = Got reply :: hangup c /\ Reply.Code reply = code /\ code = 421).

Lemma poison_events c c1 mid :
  session c1 = session c -> wire c1 = wire c ++ mid -> wire (poison c1) = wire c ++ mid ++ hangup c.
Proof. intros S W. rewrite poison_wire, W, (session_closed c1 c S). by rewrite app_assoc. Qed.

Lemma read_spec command c :
  wp (read opts wd command) (fun c' r => match r with
    | Ok reply => session c' = session c /\ wire c' = wire c ++ [Got reply] /\ Reply.Code reply <> 421 /\ closed c = false
    | Err e => (idle c c' /\ exists k, e = Ctx k) \/
        closed c' = true /\ exists evs, wire c' = wire c ++ evs /\ read_error c evs e
    end) c.
Proof.
  unfold read. apply cwp_bind. eapply wp_mono; [apply ctx_check_spec|].
  intros c1 [[]|e1] [I1 E1]; cbn beta match; [|left; by split]. apply cwp_bind, cwp_get.
  destruct I1 as (S1 & W1 & T1 & R1).
  pose proof (raw_read_spec c1) as RR. destruct (raw_read wd c1) as [c2 rr]. destruct RR as (S2 & T2 & RR).
  apply cwp_bind, cwp_modify, cwp_bind. eapply wp_mono; [apply ctx_poison_spec|].
  assert (exists mid, wire c2 = wire c ++ mid /\ (match rr with Ok reply => mid = [Got reply] | Err _ => mid = [] end)) as (mid & W2 & M).
  { destruct rr as [reply|e]; [exists [Got reply]|exists []; rewrite app_nil_r]; (split; [|done]); destruct RR; congruence. }
  intros c3 [[]|e3]; cbn beta match.
  - intros (S3 & W3 & T3 & R3). destruct rr as [reply|e]; subst mid.
    + apply cwp_bind. eapply wp_mono; [apply trace_spec|]. intros c4 r4 (-> & S4 & W4 & _). cbn beta match.
      destruct (Z.eqb_spec (Reply.Code reply) 421) as [E421|N421].
      * apply cwp_bind, cwp_get. unfold wp, poisoned. cbn. right. split; [apply poison_closed|].
        exists ([Got reply] ++ hangup c). split; [apply poison_events; congruence|].
        unfold read_error, replyError. destruct (reply_parts _ _). split_and!; [done|by right; eexists|].
        intros code enh text' cmd err [= EC _ _ _] _. exists reply. split_and!; [done|congruence|congruence].
      * apply cwp_ret. split_and!; [congruence|congruence|done|]. destruct RR as [_ RR]. by rewrite <- (session_closed c1 c S1).
    + unfold wp, poisoned. cbn. right. split; [apply poison_closed|]. destruct RR as [_ [we ->]].
      exists ([] ++ hangup c). split; [apply poison_events; congruence|].
      split_and!; [done|by left|by intros * [= <-]].
  - intros [[k ->] ->]. right. split; [apply poison_closed|].
    exists (mid ++ hangup c). split; [apply poison_events; [change (session c2 = session c); congruence|exact W2]|].
    split_and!; [done| |done]. destruct rr; subst mid; [right; by eexists|by left].
Qed.

(** *** The pipeline *)

(** A failed operation closed the connection or left its session alone. *)
Definition failed (c c' : connection) : Prop :=
  (closed c' = true \/ session c' = session c) /\ exists evs, wire c' = wire c ++ evs.

Lemma failed_trans c1 c2 c3 evs :
  session c2 = session c1 -> wire c2 = wire c1 ++ evs -> failed c2 c3 -> failed c1 c3.
Proof.
  intros S W [F [evs' W']]. split; [destruct F as [F|F]; [by left|right; congruence]|].
  exists (evs ++ evs'). rewrite W', W. by rewrite app_assoc.
Qed.

Lemma idle_failed c c' : idle c c' -> failed c c'.
Proof. intros (S & W & _). split; [by right|]. exists []. by rewrite app_nil_r. Qed.

Definition line_of (cmd : queuedCommand) : result wire_err bytes := EncodeCommand (verb cmd) (args cmd).

Lemma write_spec cmd c :
  closed c = false ->
  wp (write opts wd cmd) (fun c' r => match r with
    | Ok _ => exists line, line_of cmd = Ok line /\ session c' = session c /\ wire c' = wire c ++ [Wrote line]
    | Err e => is_unknown e = false /\ failed c c' /\
        (forall code enh text command err, e = Smtp code enh text command err -> code = 0)
    end) c.
Proof.
  intros Hc. unfold write. apply cwp_bind. eapply wp_mono; [by apply send_line_spec|].
  intros c1 [[]|e]; cbn beta match.
  - intros (line & L & S & W & _). eapply wp_mono; [apply trace_spec|]. intros c2 r (-> & S2 & W2 & _).
    exists line. split_and!; [done|congruence|congruence].
  - intros (U & _ & [[I [k ->]]|(Cl & evs & W & _ & _ & Z)]); split_and!; try done; [by apply idle_failed|].
    split; [by left|by exists evs].
Qed.

Lemma read_failed command c :
  wp (read opts wd command) (fun c' r => match r with
    | Ok reply => session c' = session c /\ wire c' = wire c ++ [Got reply]
    | Err _ => failed c c'
    end) c.
Proof.
  eapply wp_mono; [apply read_spec|]. intros c' [reply|e]; cbn beta match; [by intros (? & ? & _)|].
  intros [[I _]|(Cl & evs & W & _)]; [by apply idle_failed|]. split; [by left|by exists evs].
Qed.

Lemma classified_spec {A} cmd (m : C A) Q c :
  wp m (fun c' r => match r with Ok a => Q c' (Ok a) | Err e => forall e', Q c' (Err e') end) c ->
  wp (classified cmd m) Q c.
Proof. intros Hm. apply wp_on_error. eapply wp_mono; [exact Hm|]. intros c' [a|e]; cbn beta match; auto. Qed.

(** The encoded length that the byte bound counts is that of the line. *)
Lemma commandLength_line cmd line : line_of cmd = Ok line -> commandLength cmd = Z.of_nat (length line).
Proof.
  unfold line_of, EncodeCommand, commandLength. destruct (validateCommandToken (verb cmd)); [done|].
  destruct (first_err _ _); [done|]. intros [= <-]. rewrite !length_app. cbn [CRLF length].
  assert (forall l, fold_right (fun a n => Z.of_nat (length a) + 1 + n) 0 l =
    Z.of_nat (length (concat (map (fun a : bytes => SP :: a) l)))) as E.
  { induction l as [|a l IH]; [done|]. cbn. rewrite IH, length_app. lia. }
  rewrite E. lia.
Qed.

Fixpoint total (lines : list bytes) : Z :=
  match lines with
  | [] => 0
  | l :: lines' => Z.of_nat (length l) + total lines'
  end.

Lemma total_app a b : total (a ++ b) = total a + total b.
Proof. induction a as [|x a IH]; [done|]. cbn. rewrite IH. lia. Qed.

Lemma issue_spec commands room first bytes c :
  closed c = false -> 0 <= bytes <= maxPipelineBytes -> (first = true -> bytes = 0) ->
  wp (issue opts wd commands room first bytes) (fun c' r => match r with
    | Ok (issued, rest) => exists lines,
        commands = issued ++ rest /\ Forall2 (fun cmd line => line_of cmd = Ok line) issued lines /\
        (length lines <= room)%nat /\ bytes + total lines <= maxPipelineBytes /\
        (first = true -> (0 < room)%nat -> commands <> [] -> issued <> []) /\
        session c' = session c /\ wire c' = wire c ++ map Wrote lines
    | Err _ => failed c c'
    end) c.
Proof.
  revert room first bytes c. induction commands as [|cmd commands IH]; intros room first bytes c Hc Hb Hf; cbn [issue].
  { apply cwp_ret. exists []. cbn. rewrite app_nil_r. split_and!; try done; try (by constructor); lia. }
  assert (forall (r : list queuedCommand * list queuedCommand), r = ([], cmd :: commands) -> (first = true -> room = O) ->
    exists lines, cmd :: commands = fst r ++ snd r /\ Forall2 (fun cmd line => line_of cmd = Ok line) (fst r) lines /\
        (length lines <= room)%nat /\ bytes + total lines <= maxPipelineBytes /\
        (first = true -> (0 < room)%nat -> cmd :: commands <> [] -> fst r <> []) /\
        session c = session c /\ wire c = wire c ++ map Wrote lines) as Stop.
  { intros r -> Hr. exists []. cbn. rewrite app_nil_r. split_and!; try done; try (by constructor); try lia. }
  destruct room as [|room]; [exact (Stop ([], cmd :: commands) eq_refl (fun _ => eq_refl))|].
  destruct (Z.ltb_spec maxPipelineBytes (commandLength cmd)) as [|Hl]; [apply wp_fail, idle_failed; done|].
  destruct (negb first && (maxPipelineBytes <? bytes + commandLength cmd)) eqn:Full.
  { refine (Stop ([], cmd :: commands) eq_refl _). intros ->. done. }
  assert (bytes + commandLength cmd <= maxPipelineBytes) as Hroom.
  { destruct first; cbn in Full; [rewrite Hf by done; lia|lia]. }
  assert (forall c1, session c1 = session c -> wire c1 = wire c ->
    wp (classified cmd (write opts wd cmd);;
        if syncPoint cmd then mret ([cmd], commands)
        else r ← issue opts wd commands room false (bytes + commandLength cmd); mret (cmd :: fst r, snd r))
      (fun c' r => match r with
        | Ok (issued, rest) => exists lines,
            cmd :: commands = issued ++ rest /\ Forall2 (fun cmd line => line_of cmd = Ok line) issued lines /\
            (length lines <= S room)%nat /\ bytes + total lines <= maxPipelineBytes /\
            (first = true -> (0 < S room)%nat -> cmd :: commands <> [] -> issued <> []) /\
            session c' = session c /\ wire c' = wire c ++ map Wrote lines
        | Err _ => failed c c' end) c1) as Go.
  { intros c1 S1 W1. assert (closed c1 = false) as Hc1 by (by rewrite (session_closed c1 c)).
    apply cwp_bind, classified_spec. eapply wp_mono; [by apply write_spec|]. intros c2 [[]|e2]; cbn beta match.
    2: { intros (_ & F & _) _. apply (failed_trans c c1 c2 []); [done|by rewrite app_nil_r|done]. }
    intros (line & L & S2 & W2). pose proof (commandLength_line _ _ L) as CL.
    destruct (syncPoint cmd).
    - apply cwp_ret. exists [line]. cbn [map total length app]. split_and!; try done; try (by repeat constructor); try lia; congruence.
    - apply cwp_bind. eapply wp_mono; [apply IH; [by rewrite (session_closed c2 c1)|lia|done]|].
      intros c3 [[issued rest]|e3]; cbn beta match.
      + intros (lines & -> & F & Hn & Ht & _ & S3 & W3). apply cwp_ret. exists (line :: lines). cbn [map fst snd length].
        split_and!; try done; try (by constructor); try (cbn [total]; lia); [congruence|].
        rewrite W3, W2, W1. by rewrite <- app_assoc.
      + intros F. apply (failed_trans c c1 c3 []); [done|by rewrite app_nil_r|]. by eapply failed_trans. }
  apply cwp_bind. destruct (completes cmd).
  - eapply wp_mono; [apply ctx_check_spec|]. intros c1 [[]|e1] [I1 _]; cbn beta match; [|by apply idle_failed].
    destruct I1 as (S1 & W1 & _). by apply Go.
  - apply cwp_ret. by apply Go.
Qed.

Lemma collect_spec issued c :
  closed c = false ->
  wp (collect opts wd issued) (fun c' r => match r with
    | Ok replies => length replies = length issued /\ session c' = session c /\ wire c' = wire c ++ map Got replies
    | Err _ => failed c c'
    end) c.
Proof.
  revert c. induction issued as [|cmd issued IH]; intros c Hc; cbn [collect].
  { apply cwp_ret. cbn. by rewrite app_nil_r. }
  apply cwp_bind, classified_spec. eapply wp_mono; [by apply read_failed|]. intros c1 [reply|e1]; cbn beta match; [|done].
  intros (S1 & W1). apply cwp_bind. eapply wp_mono; [apply IH; by rewrite (session_closed c1 c)|].
  intros c2 [replies|e2]; cbn beta match; [|by intros F; eapply failed_trans].
  intros (L & S2 & W2). apply cwp_ret. cbn [length map]. split_and!; [lia|congruence|].
  rewrite W2, W1. by rewrite <- app_assoc.
Qed.

(** RFC 2920 as the events show it: every command gets one reply, in the order the commands were
    written, with at most [d] commands and 64 KiB awaiting their replies. *)
Fixpoint fifo (d : nat) (outstanding : list bytes) (evs : list wire_event) : Prop :=
  match evs with
  | [] => outstanding = []
  | Wrote p :: evs' =>
      (length outstanding < d)%nat /\ total (outstanding ++ [p]) <= maxPipelineBytes /\ fifo d (outstanding ++ [p]) evs'
  | Got _ :: evs' => match outstanding with [] => False | _ :: o' => fifo d o' evs' end
  | _ => False
  end.

Lemma fifo_round d lines replies evs :
  length lines = length replies -> (length lines <= d)%nat -> total lines <= maxPipelineBytes -> fifo d [] evs ->
  fifo d [] (map Wrote lines ++ map Got replies ++ evs).
Proof.
  intros L D T F.
  assert (forall o replies, length o = length replies -> fifo d o (map Got replies ++ evs)) as G.
  { induction o as [|x o IH]; intros [|r rs] E; try done. cbn. apply IH. cbn in E. lia. }
  assert (forall todo o, length (o ++ todo) = length replies -> (length (o ++ todo) <= d)%nat ->
    total (o ++ todo) <= maxPipelineBytes -> fifo d o (map Wrote todo ++ map Got replies ++ evs)) as A.
  { induction todo as [|x todo IH]; intros o E Ed Et; cbn [map app]; [apply G; by rewrite app_nil_r in E|].
    cbn [fifo]. rewrite (app_assoc o [x] todo : o ++ x :: todo = _) in *. split_and!; [rewrite !length_app in Ed; cbn in Ed; lia| |by apply IH].
    rewrite total_app in Et. assert (0 <= total todo) by (clear; induction todo; cbn; lia). lia. }
  by apply A.
Qed.

Definition upper (cmd : queuedCommand) : queuedCommand :=
  {| verb := ToUpper (verb cmd); args := args cmd; syncPoint := syncPoint cmd; completes := completes cmd |}.

Lemma validate_group_upper commands commands' :
  validate_group commands = Ok commands' -> commands' = map upper commands.
Proof.
  revert commands'. induction commands as [|cmd commands IH]; intros commands'; cbn [validate_group]; [by intros [= <-]|].
  destruct (_ && _); [done|]. destruct (validate_group commands) as [rest|]; [|done]. intros [= <-]. cbn. by rewrite (IH rest).
Qed.

Definition answered (commands : list queuedCommand) (c c' : connection) (replies : list Reply.Reply) : Prop :=
  session c' = session c /\
  exists evs lines, wire c' = wire c ++ evs /\ Forall2 (fun cmd line => line_of cmd = Ok line) commands lines /\
    sent evs = lines /\ got evs = replies /\ length replies = length commands /\ fifo (depth c) [] evs.

Lemma sent_lines lines : sent (map Wrote lines) = lines.
Proof. induction lines as [|l lines IH]; [done|]. cbn. by rewrite IH. Qed.
Lemma got_lines lines : got (map Wrote lines) = [].
Proof. by induction lines. Qed.
Lemma sent_replies replies : sent (map Got replies) = [].
Proof. by induction replies. Qed.
Lemma got_replies replies : got (map Got replies) = replies.
Proof. induction replies as [|r rs IH]; [done|]. cbn. by rewrite IH. Qed.

Lemma depth_session c c' : session c' = session c -> depth c' = depth c.
Proof. unfold depth. by intros [= _ _ -> _]. Qed.

Lemma rounds_spec fuel commands c :
  closed c = false -> (length commands <= fuel)%nat ->
  wp (rounds opts wd fuel commands) (fun c' r => match r with
    | Ok replies => answered commands c c' replies
    | Err e => failed c c'
    end) c.
Proof.
  revert commands c. induction fuel as [|fuel IH]; intros [|cmd commands] c Hc Hf; cbn [rounds]; try (cbn in Hf; lia);
    try (apply cwp_ret; split; [done|]; exists [], []; rewrite app_nil_r; split_and!; done || by constructor).
  apply cwp_bind, cwp_get, cwp_bind. eapply wp_mono; [apply issue_spec; [done|done|done]|].
  intros c1 [[issued rest]|e1]; cbn beta match; [|done].
  intros (lines & E & F & Hn & Ht & Ne & S1 & W1). cbn [fst snd].
  assert (closed c1 = false) as Hc1 by (by rewrite (session_closed c1 c)).
  apply cwp_bind. eapply wp_mono; [by apply collect_spec|]. intros c2 [replies|e2]; cbn beta match; [|by intros F2; eapply failed_trans].
  intros (L2 & S2 & W2).
  assert (wire c2 = wire c ++ map Wrote lines ++ map Got replies) as W by (rewrite W2, W1; by rewrite app_assoc).
  assert (length rest <= fuel)%nat as Hrest.
  { assert (issued <> []) as N by (apply Ne; [done|unfold depth, maxPipelineDepth; case_match; lia|done]).
    apply (f_equal length) in E. rewrite length_app in E. destruct issued; [done|]. cbn in E, Hf. lia. }
  apply cwp_bind. eapply wp_mono; [apply IH; [rewrite (session_closed c2 c); [done|congruence]|done]|].
  intros c3 [replies3|e3]; cbn beta match; [|intros F3; eapply failed_trans; [|exact W|exact F3]; congruence].
  intros (S3 & evs & lines3 & W3 & F3 & Se & Ge & L3 & Fi). apply cwp_ret. split; [congruence|].
  exists ((map Wrote lines ++ map Got replies) ++ evs), (lines ++ lines3). rewrite E. split_and!.
  - rewrite W3, W. by rewrite <- app_assoc.
  - by apply Forall2_app.
  - by rewrite !sent_app, sent_lines, sent_replies, app_nil_r, Se.
  - by rewrite !got_app, got_lines, got_replies, Ge.
  - rewrite !length_app. lia.
  - rewrite <- app_assoc. rewrite (depth_session c c2) in Fi by congruence. apply fifo_round; [|done|done|done].
    rewrite L2. by rewrite <- (Forall2_length _ _ _ F).
Qed.

Lemma executeLocked_spec commands c :
  closed c = false ->
  wp (executeLocked opts wd commands) (fun c' r => match r with
    | Ok replies => answered (map upper commands) c c' replies
    | Err _ => failed c c'
    end) c.
Proof.
  intros Hc. unfold executeLocked. destruct commands as [|cmd commands].
  { apply cwp_ret. split; [done|]. exists [], []. rewrite app_nil_r. split_and!; done || by constructor. }
  set (cs := cmd :: commands). apply cwp_bind, wp_lift.
  - intros cs' V. apply validate_group_upper in V as ->. apply cwp_bind, cwp_get. rewrite Hc. by apply rounds_spec.
  - intros e _. by apply idle_failed.
Qed.

End Facts.
End ClientFacts.
