(* ===== verification/ClientConfig.v ===== *)
(** * smtpclient: configuration

    client.go (the option records), the configuration and dialling half of conn.go, the choice of the TLS
    configuration in starttls.go, the policies of sendopts.go, the timeout of ATRN (ext_c_commands.go)
    and the names of the states (state.go). ClientCore.v takes the outcome of a TLS handshake from the
    [world]; here the outcome comes from the configuration the client hands to crypto/tls. *)
From Stdlib Require Import ZArith Lia Bool.
From stdpp Require Import base list gmap strings.
From S2P Require Import Prelude GoStrings Base64 Sasl Wire Reply Path NetAddr Ehlo Core GenText.
From S2P Require Import ServerParams ClientParams ClientCore Client ClientFacts.
Import smtpclient ClientFacts.

(** ** crypto/tls *)

(** The fields of a [tls.Config] that the client never looks at, and their zero values. *)
Class TLSFields : Type := { tls_rest : Type; zero_rest : tls_rest }.

Record Config `{TLSFields} : Type := {
  ServerName : bytes;
  InsecureSkipVerify : bool;
  MinVersion : Z;
  cfg_rest : tls_rest
}.

Definition VersionTLS12 : Z := 771.

(** The client side of a handshake at the [k]th interaction, on what the transport still delivers: the
    stream inside TLS, or [None] when it fails. crypto/tls completes a handshake without [InsecureSkipVerify] only if the configuration names
    a server and the peer has proved that name. *)
Class TLSClient `{TLSFields} : Type := {
  tls_handshake : Config -> nat -> LineReader -> option LineReader;
  verified : bytes -> nat -> Prop;
  handshake_verifies cfg k below stream :
    tls_handshake cfg k below = Some stream -> InsecureSkipVerify cfg = false ->
    ServerName cfg <> [] /\ verified (ServerName cfg) k
}.

(** ** The options *)

Section Options.
Context `{TLSFields}.

(** A connection is what its peer sends, and whether it is a TLS connection already. *)
Definition dialer : Type := bytes -> bytes -> result unit (LineReader * bool).

Record ClientOptions : Type := {
  co_LMTP : bool;
  Address : bytes;
  TLSServerName : bytes;
  TLSConfig : option Config;
  co_ImplicitTLS : bool;
  co_Insecure : bool;
  co_Identity : bytes;
  DialContext : option dialer;
  GreetingTimeout : Z;
  MailTimeout : Z;
  RCPTTimeout : Z;
  DataCommandTimeout : Z;
  DataBlockTimeout : Z;
  DataFinalTimeout : Z;
  co_Trace : bool
}.

Definition zero_options : ClientOptions :=
  {| co_LMTP := false; Address := []; TLSServerName := []; TLSConfig := None; co_ImplicitTLS := false;
     co_Insecure := false; co_Identity := []; DialContext := None; GreetingTimeout := 0; MailTimeout := 0;
     RCPTTimeout := 0; DataCommandTimeout := 0; DataBlockTimeout := 0; DataFinalTimeout := 0; co_Trace := false |}.

Record StartTLSOptions : Type := {
  so_TLSConfig : option Config;
  so_ServerName : bytes;
  so_Insecure : bool
}.

(** What ClientCore.v knows of the options. *)
Definition session_options (o : ClientOptions) : smtpclient.ClientOptions :=
  {| LMTP := co_LMTP o; ImplicitTLS := co_ImplicitTLS o; Identity := co_Identity o; Trace := co_Trace o |}.

(** ** The TLS configuration: conn.go, starttls.go *)

(** [strings.Trim] for an ASCII cutset. *)
Definition Trim (s cutset : bytes) : bytes := TrimRight (TrimLeft s cutset) cutset.

Definition set_name (cfg : Config) (name : bytes) : Config :=
  {| ServerName := name; InsecureSkipVerify := InsecureSkipVerify cfg; MinVersion := MinVersion cfg;
     cfg_rest := cfg_rest cfg |}.
Definition set_insecure (cfg : Config) : Config :=
  {| ServerName := ServerName cfg; InsecureSkipVerify := true; MinVersion := MinVersion cfg;
     cfg_rest := cfg_rest cfg |}.

Definition tlsConfig (o : ClientOptions) (base : option Config) (serverName : bytes) (insecure : bool) : Config :=
  let base := match base with None => TLSConfig o | Some _ => base end in
  let cfg := match base with
             | Some b => b
             | None => {| ServerName := []; InsecureSkipVerify := false; MinVersion := VersionTLS12; cfg_rest := zero_rest |}
             end in
  let serverName := if beq serverName [] then TLSServerName o else serverName in
  let serverName :=
    if beq serverName [] then
      match SplitHostPort (Address o) with
      | Some (host, _) => Trim host ($"[]")
      | None => serverName
      end
    else serverName in
  let cfg := if beq (ServerName cfg) [] then set_name cfg serverName else cfg in
  if insecure then set_insecure cfg else cfg.

(** The configuration of implicit TLS, and of STARTTLS. *)
Definition implicit_config (o : ClientOptions) : Config :=
  tlsConfig o (TLSConfig o) (TLSServerName o) (co_Insecure o).

Definition starttls_config (o : ClientOptions) (opts : option StartTLSOptions) : Config :=
  let base := TLSConfig o in
  let serverName := TLSServerName o in
  let insecure := co_Insecure o in
  match opts with
  | None => tlsConfig o base serverName insecure
  | Some so =>
      let base := match so_TLSConfig so with Some _ => so_TLSConfig so | None => base end in
      let serverName := if negb (beq (so_ServerName so) []) then so_ServerName so else serverName in
      let insecure := if so_Insecure so then true else insecure in
      tlsConfig o base serverName insecure
  end.

(** ** Timeouts, in nanoseconds: conn.go, ext_c_commands.go *)

Definition Second : Z := 1000000000.
Definition Minute : Z := 60 * Second.

Definition defaultGreetingTimeout : Z := 5 * Minute.
Definition defaultMailTimeout : Z := 5 * Minute.
Definition defaultRCPTTimeout : Z := 5 * Minute.
Definition defaultDataCommandTimeout : Z := 2 * Minute.
Definition defaultDataBlockTimeout : Z := 3 * Minute.
Definition defaultDataFinalTimeout : Z := 10 * Minute.

Definition timeout (value fallback : Z) : Z := if 0 <? value then value else fallback.
Definition greetingTimeout (o : ClientOptions) : Z := timeout (GreetingTimeout o) defaultGreetingTimeout.
Definition mailTimeout (o : ClientOptions) : Z := timeout (MailTimeout o) defaultMailTimeout.
Definition rcptTimeout (o : ClientOptions) : Z := timeout (RCPTTimeout o) defaultRCPTTimeout.
Definition dataCommandTimeout (o : ClientOptions) : Z := timeout (DataCommandTimeout o) defaultDataCommandTimeout.
Definition dataBlockTimeout (o : ClientOptions) : Z := timeout (DataBlockTimeout o) defaultDataBlockTimeout.
Definition dataFinalTimeout (o : ClientOptions) : Z := timeout (DataFinalTimeout o) defaultDataFinalTimeout.

Definition atrnTimeout (o : ClientOptions) : Z :=
  if 10 * Minute <? mailTimeout o then mailTimeout o else 10 * Minute.

(** The deadline of a handshake; [context] is the deadline of the caller's context. *)
Definition handshake_deadline (now limit : Z) (context : option Z) : Z :=
  match context with
  | Some d => if d <? now + limit then d else now + limit
  | None => now + limit
  end.

End Options.

(** ** Policies and names *)

Record MailSendOptions : Type := { mail_AllowUnadvertisedParameters : bool }.
Record RcptSendOptions : Type := { rcpt_AllowUnadvertisedParameters : bool }.

Definition mail_allowUnadvertised (o : option MailSendOptions) : bool :=
  match o with Some o => mail_AllowUnadvertisedParameters o | None => false end.
Definition rcpt_allowUnadvertised (o : option RcptSendOptions) : bool :=
  match o with Some o => rcpt_AllowUnadvertisedParameters o | None => false end.

Definition sessionState_String (s : sessionState) : bytes :=
  match s with
  | stateConnected => $"connected"
  | stateGreeted => $"greeted"
  | stateTLS => $"tls"
  | stateAuthenticated => $"authenticated"
  | stateTransaction => $"transaction"
  | stateClosed => $"closed"
  end.

(** The text of the error [invalidState] returns. *)
Definition invalidState_text (command : bytes) (have : sessionState) : bytes :=
  $"smtpclient: " ++ command ++ $" is not valid while session is " ++ sessionState_String have.

(** ** Dialling *)

Section Dial.
Context `{Unicode} `{NetIP} `{RFC3339} `{MapOrder} `{Crypto} `{TLSClient} (net_dial : dialer) (wd : world).

(** The world with its handshakes made under a configuration. *)
Definition with_tls (cfg : Config) : world :=
  {| w_ctx := w_ctx wd; w_write := w_write wd; w_deadline := w_deadline wd; w_buffered := w_buffered wd;
     w_cuts := w_cuts wd; w_handshake := tls_handshake cfg; w_exporter := w_exporter wd;
     w_hostname := w_hostname wd; w_random := w_random wd |}.

(** Why there was no connection to start a session on. *)
Inductive dial_error : Type :=
| DialContextDone (e : ctx_err)
| AddressRequired
| DialFailed.

(** [NoConnection]: nothing was dialled, or dialling failed. Otherwise the connection a session was
    started on, and how that went. *)
Inductive dialled : Type :=
| NoConnection (e : dial_error)
| Session (c : connection) (r : result cerr unit).

Definition Dial (opts : option ClientOptions) : dialled :=
  match w_ctx wd 0 with
  | Some e => NoConnection (DialContextDone e)
  | None =>
      let cfg := match opts with Some o => o | None => zero_options end in
      if beq (Address cfg) [] then NoConnection AddressRequired
      else
        let dial := match DialContext cfg with None => net_dial | Some d => d end in
        match dial ($"tcp") (Address cfg) with
        | Err _ => NoConnection DialFailed
        | Ok (stream, over_tls) =>
            match newClient (session_options cfg) (with_tls (implicit_config cfg)) (tick (initial stream over_tls)) with
            | (c, Err e) => Session (poison c) (Err e)
            | (c, Ok _) => Session c (Ok tt)
            end
        end
  end.

(** [StartTLS] with its options. *)
Definition StartTLS_with (o : ClientOptions) (opts : option StartTLSOptions) : C unit :=
  StartTLS (session_options o) (with_tls (starttls_config o opts)).

End Dial.

(** ** The identity a handshake verifies *)

Fixpoint first_nonempty (l : list bytes) : bytes :=
  match l with
  | [] => []
  | s :: l' => if beq s [] then first_nonempty l' else s
  end.

(** The host part of an address, without brackets. *)
Definition address_host (address : bytes) : bytes :=
  match SplitHostPort address with
  | Some (host, _) => Trim host ($"[]")
  | None => []
  end.

Lemma Trim_none s cutset : forallb (fun c => negb (mem_byte c cutset)) s = true -> Trim s cutset = s.
Proof.
  intros F. unfold Trim. assert (TrimLeft s cutset = s) as ->; [|by apply TrimRight_none].
  destruct s as [|c s]; [done|]. apply andb_true_iff in F as [F%negb_true_iff _]. by apply TrimLeft_head.
Qed.

Lemma no_brackets_untrimmed host : no_brackets host -> Trim host ($"[]") = host.
Proof.
  intros [L R]. apply Trim_none. apply forallb_forall. intros c I. unfold no_byte in *.
  rewrite forallb_forall in L, R. specialize (L c I). specialize (R c I). cbn. by rewrite negb_orb, orb_false_r, L.
Qed.

(** An address that [net.JoinHostPort] built gives its host back, IPv6 or not. *)
Lemma address_host_JoinHostPort host port :
  no_brackets host -> no_brackets port -> no_byte ":"%byte port = true ->
  address_host (JoinHostPort host port) = host.
Proof. intros B P N. unfold address_host. rewrite SplitHostPort_JoinHostPort by done. by apply no_brackets_untrimmed. Qed.

Section Identity.
Context `{TLSFields}.
Implicit Types (o : ClientOptions) (so : StartTLSOptions).

(** The caller's configuration of an upgrade, if there is one. *)
Definition chosen_base o (base : option Config) : option Config :=
  match base with Some b => Some b | None => TLSConfig o end.
Definition starttls_base o (opts : option StartTLSOptions) : option Config :=
  chosen_base o (so ← opts; so_TLSConfig so).

Definition base_name (base : option Config) : bytes := from_option ServerName [] base.
Definition base_insecure (base : option Config) : bool := from_option InsecureSkipVerify false base.

(** The name that [tlsConfig] falls back to. *)
Lemma fallback_name (name fallback address : bytes) :
  (let serverName := if beq name [] then fallback else name in
   if beq serverName [] then match SplitHostPort address with
                             | Some (host, _) => Trim host ($"[]")
                             | None => serverName
                             end
   else serverName) = first_nonempty [name; fallback; address_host address].
Proof.
  unfold address_host. destruct name; [|done]. destruct fallback; [|done]. cbn.
  destruct (SplitHostPort address) as [[host port]|]; [|done]. by destruct (Trim host ($"[]")).
Qed.

Lemma tlsConfig_spec o base name insecure :
  tlsConfig o base name insecure =
  {| ServerName := first_nonempty [base_name (chosen_base o base); name; TLSServerName o; address_host (Address o)];
     InsecureSkipVerify := base_insecure (chosen_base o base) || insecure;
     MinVersion := from_option MinVersion VersionTLS12 (chosen_base o base);
     cfg_rest := from_option cfg_rest zero_rest (chosen_base o base) |}.
Proof.
  unfold tlsConfig. cbv zeta. pose proof (fallback_name name (TLSServerName o) (Address o)) as F. cbv zeta in F. rewrite F.
  replace (match base with Some _ => base | None => TLSConfig o end) with (chosen_base o base) by by destruct base.
  destruct (chosen_base o base) as [[n i v r]|]; destruct insecure;
    cbn [base_name base_insecure from_option ServerName InsecureSkipVerify MinVersion cfg_rest beq];
    rewrite ?orb_true_r, ?orb_false_r; unfold set_insecure, set_name; try done; by destruct n.
Qed.

(** The names a caller can give for an upgrade, in the order in which they are looked at. *)
Definition starttls_names o (opts : option StartTLSOptions) : list bytes :=
  [base_name (starttls_base o opts); from_option so_ServerName [] opts; TLSServerName o; address_host (Address o)].
Definition implicit_names o : list bytes := [base_name (TLSConfig o); TLSServerName o; address_host (Address o)].

(** The caller has asked for a peer that is not verified. *)
Definition starttls_insecure o (opts : option StartTLSOptions) : bool :=
  base_insecure (starttls_base o opts) || co_Insecure o || from_option so_Insecure false opts.
Definition implicit_insecure o : bool := base_insecure (TLSConfig o) || co_Insecure o.

(** A name that is tried twice. *)
Lemma first_nonempty_again a b c l :
  first_nonempty (a :: (if negb (beq b []) then b else c) :: c :: l) = first_nonempty (a :: b :: c :: l).
Proof. by destruct a, b, c. Qed.

Lemma starttls_config_spec o opts :
  ServerName (starttls_config o opts) = first_nonempty (starttls_names o opts) /\
  InsecureSkipVerify (starttls_config o opts) = starttls_insecure o opts /\
  MinVersion (starttls_config o opts) = from_option MinVersion VersionTLS12 (starttls_base o opts).
Proof.
  unfold starttls_config, starttls_names, starttls_insecure, starttls_base.
  destruct opts as [[cfg name insecure]|]; cbv zeta;
    cbn [so_TLSConfig so_ServerName so_Insecure mbind option_bind from_option]; rewrite tlsConfig_spec;
    cbn [ServerName InsecureSkipVerify MinVersion].
  - replace (chosen_base o match cfg with Some _ => cfg | None => TLSConfig o end) with (chosen_base o cfg)
      by (unfold chosen_base; by destruct cfg, (TLSConfig o)).
    split_and!; [apply first_nonempty_again| |done]. by destruct insecure; rewrite ?orb_true_r, ?orb_false_r.
  - replace (chosen_base o (TLSConfig o)) with (chosen_base o None) by (unfold chosen_base; by destruct (TLSConfig o)).
    split_and!; [by destruct (base_name _), (TLSServerName o)| |done]. by rewrite orb_false_r.
Qed.

Lemma implicit_config_spec o :
  ServerName (implicit_config o) = first_nonempty (implicit_names o) /\
  InsecureSkipVerify (implicit_config o) = implicit_insecure o.
Proof.
  unfold implicit_config, implicit_names, implicit_insecure. rewrite tlsConfig_spec. cbn [ServerName InsecureSkipVerify].
  replace (chosen_base o (TLSConfig o)) with (TLSConfig o) by (unfold chosen_base; by destruct (TLSConfig o)).
  split; [|done]. by destruct (base_name _), (TLSServerName o).
Qed.

(** Options that only ask for an unverified peer at construction keep it, whatever STARTTLS is given. *)
Lemma starttls_inherits o opts : co_Insecure o = true -> InsecureSkipVerify (starttls_config o opts) = true.
Proof.
  intros I. destruct (starttls_config_spec o opts) as (_ & -> & _). unfold starttls_insecure. by rewrite I, orb_true_r.
Qed.

(** Without a configuration of the caller's, the peer has to prove the host of its address. *)
Lemma default_identity o host port :
  TLSConfig o = None -> TLSServerName o = [] -> Address o = JoinHostPort host port ->
  no_brackets host -> no_brackets port -> no_byte ":"%byte port = true ->
  ServerName (starttls_config o None) = host /\ ServerName (implicit_config o) = host.
Proof.
  intros T N A B P C. destruct (starttls_config_spec o None) as (-> & _). destruct (implicit_config_spec o) as [-> _].
  unfold starttls_names, implicit_names, starttls_base, chosen_base. rewrite T, N, A, address_host_JoinHostPort by done.
  by destruct host.
Qed.

End Identity.

(** ** Timeouts *)

Lemma timeout_positive value fallback : 0 < fallback -> 0 < timeout value fallback.
Proof. unfold timeout. destruct (Z.ltb_spec 0 value); lia. Qed.

(** No wait of the client is unbounded, the one for ATRN lasts ten minutes at least, and a handshake ends
    by the deadline of its context. *)
Lemma timeouts_positive `{TLSFields} (o : ClientOptions) :
  Forall (fun t => 0 < t) [greetingTimeout o; mailTimeout o; rcptTimeout o; dataCommandTimeout o;
    dataBlockTimeout o; dataFinalTimeout o] /\
  10 * Minute <= atrnTimeout o /\ mailTimeout o <= atrnTimeout o.
Proof.
  split; [repeat constructor; by apply timeout_positive|]. unfold atrnTimeout. destruct (Z.ltb_spec (10 * Minute) (mailTimeout o)); lia.
Qed.

Lemma handshake_deadline_min now limit context :
  handshake_deadline now limit context <= now + limit /\
  forall d, context = Some d -> handshake_deadline now limit context <= d.
Proof.
  unfold handshake_deadline. destruct context as [d|]; [destruct (Z.ltb_spec d (now + limit))|]; split; try lia; intros ? [= <-]; lia.
Qed.

(** ** Names of states *)

Lemma sessionState_String_inj s t : sessionState_String s = sessionState_String t -> s = t.
Proof. by destruct s, t. Qed.

(** ** Who is at the other end *)

Section Verified.
Context `{Unicode} `{NetIP} `{RFC3339} `{MapOrder} `{Crypto} `{TLSClient} (net_dial : dialer) (wd : world).
Implicit Types (o : ClientOptions) (c : connection).

Lemma bind_Ok {A B} (m : C A) (k : A -> C B) c c' b :
  (x ← m; k x) c = (c', Ok b) -> exists c1 a, m c = (c1, Ok a) /\ k a c1 = (c', Ok b).
Proof. unfold mbind, C_bind. destruct (m c) as [c1 [a|e]]; [by eauto|done]. Qed.

Lemma upgradeTLS_Ok cfg c c' u :
  upgradeTLS (with_tls wd cfg) c = (c', Ok u) -> exists below stream, tls_handshake cfg (clock c) below = Some stream.
Proof.
  unfold upgradeTLS. cbn [w_handshake with_tls w_ctx].
  destruct (tls_handshake cfg (clock c) _) as [stream|] eqn:E; [by eauto|].
  by destruct (w_ctx wd (clock c)).
Qed.

Lemma newClient_Ok opts cfg c c' u :
  ImplicitTLS opts = true -> newClient opts (with_tls wd cfg) c = (c', Ok u) ->
  exists below stream, tls_handshake cfg (clock c) below = Some stream.
Proof. intros I. unfold newClient. rewrite I. intros (c1 & u1 & U & _)%bind_Ok. by apply upgradeTLS_Ok in U. Qed.

Lemma StartTLS_Ok opts cfg c c' u :
  StartTLS opts (with_tls wd cfg) c = (c', Ok u) -> exists k below stream, tls_handshake cfg k below = Some stream.
Proof.
  unfold StartTLS. intros (c1 & ? & _ & R)%bind_Ok. apply bind_Ok in R as (c2 & conn & _ & R).
  apply bind_Ok in R as (c3 & ? & _ & R). destruct (extensionParameter _ _); [|done].
  apply bind_Ok in R as (c4 & reply & _ & R). apply bind_Ok in R as (c5 & ? & _ & R).
  apply bind_Ok in R as (c6 & ? & _ & R). apply bind_Ok in R as (c7 & ? & U & _).
  destruct (upgradeTLS (with_tls wd cfg) c6) as [c8 [u8|e]] eqn:E; [|done]. apply upgradeTLS_Ok in E. by eauto.
Qed.

(** The peer of the [k]th interaction has proved the first of the names that is not empty. *)
Definition proved (names : list bytes) (k : nat) : Prop :=
  first_nonempty names <> [] /\ verified (first_nonempty names) k.

Lemma handshake_identity cfg k below stream names insecure :
  tls_handshake cfg k below = Some stream -> ServerName cfg = first_nonempty names -> InsecureSkipVerify cfg = insecure ->
  insecure = true \/ proved names k.
Proof. intros T N I. destruct insecure; [by left|right]. unfold proved. rewrite <- N. by eapply handshake_verifies. Qed.

Lemma Dial_Session o c r :
  Dial net_dial wd (Some o) = Session c r ->
  exists stream over_tls c1 r1, newClient (session_options o) (with_tls wd (implicit_config o))
    (tick (initial stream over_tls)) = (c1, r1) /\
  match r1 with Ok _ => c = c1 /\ r = Ok tt | Err e => c = poison c1 /\ r = Err e end.
Proof.
  unfold Dial. destruct (w_ctx wd 0); [done|]. destruct (beq (Address o) []); [done|].
  destruct (match DialContext o with None => net_dial | Some d => d end _ _) as [[stream over_tls]|]; [|done].
  intros D. exists stream, over_tls. destruct (newClient _ _ _) as [c1 r1]. exists c1, r1. split; [done|].
  by destruct r1 as [u|e]; injection D as <- <-.
Qed.

(** C25: The client talks over TLS only to a peer that has proved the name the caller chose, unless the
    caller disabled that with one of its flags: after a [Dial] with implicit TLS that succeeds (whose
    handshake is the first thing done on the connection), and after a [StartTLS] that succeeds. The name
    is the first that is not empty of: the [ServerName] of the configuration in use, the one given to
    STARTTLS, [TLSServerName], the host of the address. Nothing a server says has a part in it. A [Dial]
    that does not succeed leaves no open connection. *)
Theorem verified_unless_asked o :
  (forall c r, Dial net_dial wd (Some o) = Session c r -> co_ImplicitTLS o = true -> r = Ok tt ->
     implicit_insecure o = true \/ proved (implicit_names o) 1) /\
  (forall opts c c', StartTLS_with wd o opts c = (c', Ok tt) ->
     starttls_insecure o opts = true \/ exists k, proved (starttls_names o opts) k) /\
  (forall c e, Dial net_dial wd (Some o) = Session c (Err e) -> state c = stateClosed).
Proof.
  split_and!.
  - intros c r (stream & over_tls & c1 & r1 & N & E)%Dial_Session I ->. destruct r1 as [u|e]; [|by destruct E].
    apply newClient_Ok in N as (b & s & T); [|done]. destruct (implicit_config_spec o) as [P S].
    by apply (handshake_identity _ _ _ _ _ _ T P S).
  - intros opts c c' S. apply StartTLS_Ok in S as (k & b & s & T). destruct (starttls_config_spec o opts) as (P & S & _).
    destruct (handshake_identity _ _ _ _ _ _ T P S); eauto.
  - intros c e (stream & over_tls & c1 & r1 & _ & E)%Dial_Session. destruct r1; destruct E as [-> E]; [done|].
    apply closed_spec, poison_closed.
Qed.

(** A [Dial] that gets a connection goes on as [NewClient] does on it. *)
Lemma Dial_NewClient o stream over_tls :
  w_ctx wd 0 = None -> Address o <> [] ->
  (match DialContext o with None => net_dial | Some d => d end) ($"tcp") (Address o) = Ok (stream, over_tls) ->
  Dial net_dial wd (Some o) =
    (let '(c, r) := NewClient (session_options o) (with_tls wd (implicit_config o)) stream over_tls in Session c r).
Proof.
  intros W A D. unfold Dial. rewrite W, D. destruct (beq_spec (Address o) []); [done|]. unfold NewClient.
  assert (smtpclient.ctx_check (with_tls wd (implicit_config o)) (initial stream over_tls) =
    (tick (initial stream over_tls), Ok tt)) as ->.
  { unfold smtpclient.ctx_check, ctx_Err, mbind, C_bind, guard_err. cbn. by rewrite W. }
  by destruct (newClient _ _ _) as [c [[]|e]].
Qed.

(** Without options there is no address to dial. *)
Lemma Dial_nil : exists e, Dial net_dial wd None = NoConnection e.
Proof. unfold Dial. destruct (w_ctx wd 0); by eauto. Qed.

End Verified.

(** ** A dial to a server that only proves the name mx.test *)

Module ConfigSample.

#[local] Existing Instances ascii_only_unicode no_literals ParamFacts.no_times SaslFacts.toy_crypto.
#[local] Instance table_order : MapOrder := fun e => e.
#[local] Instance no_fields : TLSFields := {| tls_rest := unit; zero_rest := tt |}.

Definition inside : LineReader :=
  {| unread := concat (map (fun l => l ++ CRLF) [$"220 mx"; $"250-mx"; $"250 SIZE"]); final := EOF |}.

#[local] Instance mx_tls : TLSClient.
Proof.
  refine {| tls_handshake cfg k below := if InsecureSkipVerify cfg || beq (ServerName cfg) ($"mx.test") then Some inside else None;
            verified name k := name = $"mx.test" |}.
  intros [name insecure v r] k below stream. cbn. destruct (beq_spec name ($"mx.test")) as [->|]; [done|].
  rewrite orb_false_r. by intros E I; rewrite I in E.
Defined.

Definition network : dialer := fun _ _ => Ok ({| unread := []; final := EOF |}, false).
Definition patient : world :=
  {| w_ctx := fun _ => None; w_write := fun _ => None; w_deadline := fun _ => None; w_buffered := fun _ _ => O;
     w_cuts := fun _ => []; w_handshake := fun _ _ => None; w_exporter := None; w_hostname := None; w_random := None |}.

(** Options that name an address. *)
Definition submission (address : bytes) (insecure : bool) : ClientOptions :=
  {| co_LMTP := false; Address := address; TLSServerName := []; TLSConfig := None; co_ImplicitTLS := true;
     co_Insecure := insecure; co_Identity := $"me"; DialContext := None; GreetingTimeout := 0; MailTimeout := 0;
     RCPTTimeout := 0; DataCommandTimeout := 0; DataBlockTimeout := 0; DataFinalTimeout := 0; co_Trace := false |}.

Definition outcome (d : dialled) : option (sessionState * result cerr unit) :=
  match d with NoConnection _ => None | Session c r => Some (state c, r) end.

(** The right host is accepted, another is refused, and accepted with the flag that says so. *)
Lemma dials :
  outcome (Dial network patient (Some (submission ($"mx.test:465") false))) = Some (stateTLS, Ok tt) /\
  outcome (Dial network patient (Some (submission ($"evil.test:465") false))) =
    Some (stateClosed, Err (transportError ($"TLS") TLSErr)) /\
  outcome (Dial network patient (Some (submission ($"evil.test:465") true))) = Some (stateTLS, Ok tt) /\
  Dial network patient (Some (submission [] false)) = NoConnection AddressRequired.
Proof. vm_compute. split_and!; reflexivity. Qed.

Lemma verified_unless_asked_witness :
  exists c, Dial network patient (Some (submission ($"mx.test:465") false)) = Session c (Ok tt) /\
  proved (implicit_names (submission ($"mx.test:465") false)) 1 /\
  first_nonempty (implicit_names (submission ($"mx.test:465") false)) = $"mx.test".
Proof.
  pose (o := submission ($"mx.test:465") false).
  destruct (Dial network patient (Some o)) as [e|c r] eqn:D; [vm_compute in D; discriminate D|].
  assert (r = Ok tt) as R by (vm_compute in D; injection D as _ E; symmetry; exact E).
  exists c. split; [rewrite <- R; exact D|]. split; [|reflexivity].
  destruct (proj1 (verified_unless_asked network patient o) c r D eq_refl R) as [I|P]; [vm_compute in I; discriminate I|exact P].
Defined.

End ConfigSample.
