(* ===== verification/ClientData.v ===== *)
(** * smtpclient: the content of DATA on a failing transport

    [DotStuffWriter] over any transport writes what it would write to a buffer, or, when a write fails,
    a prefix of it; and no prefix of the content before [Close] holds an end of data. *)
From Stdlib Require Import ZArith Lia Bool.
From stdpp Require Import base list gmap strings.
From S2P Require Import Prelude GoStrings Wire DotStuff.
Import Spec Writer WriterFacts.

Module ClientData.

(** One round of [Write]'s loop, with what it does at a line end apart. *)
Definition after_cr {W} `{IOWriter W} (fuel : nat) (d : DotStuffWriter W) (rest : bytes) (k : nat) :
    option (DotStuffWriter W * nat * option ioerr) :=
  match rest with
  | [] => Some (d, k, None)
  | c :: p =>
      if c =b LF then
        match emitCRLF d with
        | (d2, Some e) => Some (d2, k, Some e)
        | (d2, None) => write_loop fuel d2 p (S k)
        end
      else write_loop fuel (set_pendingCR d true) p (S k)
  end.

Lemma write_loop_round {W} `{IOWriter W} fuel (d : DotStuffWriter W) c p n :
  write_loop (S fuel) d (c :: p) n =
  if pendingCR d then
    match emitCRLF (set_pendingCR d false) with
    | (d1, Some e) => Some (d1, n, Some e)
    | (d1, None) => if c =b LF then write_loop fuel d1 p (S n) else write_loop fuel d1 (c :: p) n
    end
  else match indexCROrLF (c :: p) with
  | None =>
      match emitLiteral d (c :: p) with
      | (d1, Some e) => Some (d1, n, Some e)
      | (d1, None) => Some (d1, (n + length (c :: p))%nat, None)
      end
  | Some i =>
      if (0 <? i)%nat then
        match emitLiteral d (take i (c :: p)) with
        | (d1, Some e) => Some (d1, n, Some e)
        | (d1, None) => after_cr fuel d1 (drop i (c :: p)) (n + i)
        end
      else after_cr fuel d (drop i (c :: p)) n
  end.
Proof. reflexivity. Qed.

(** ** A transport whose bytes are visible *)
Section Sim.
Context {W : Type} `{IOWriter W} (out : W -> bytes).

Hypothesis out_write : forall w p,
  match io_write w p with
  | (w', None) => out w' = out w ++ p
  | (w', Some _) => exists k, out w' = out w ++ take k p
  end.

(** The same flags, and the buffer holds what went out. *)
Record related (d : DotStuffWriter W) (b : DotStuffWriter bytes) : Prop := {
  rel_out : out (w d) = w b;
  rel_cr : pendingCR d = pendingCR b;
  rel_ls : atLineStart d = atLineStart b;
  rel_any : wroteAny d = wroteAny b;
  rel_last : lastByte d = lastByte b;
  rel_closed : closed d = closed b
}.

Definition sim (x : DotStuffWriter W * option ioerr) (y : DotStuffWriter bytes) : Prop :=
  match x with
  | (d, None) => related d y
  | (d, Some _) => out (w d) `prefix_of` w y
  end.

Lemma prefix_take (a p : bytes) k : a ++ take k p `prefix_of` a ++ p.
Proof. exists (drop k p). by rewrite <- app_assoc, take_drop. Qed.

Lemma emit_sim d b p ls lb : related d b -> sim (emit d p ls lb) (fst (emit b p ls lb)).
Proof.
  intros [E1 E2 E3 E4 E5 E6]. unfold emit. pose proof (out_write (w d) p) as O.
  destruct (io_write (w d) p) as [w' [e|]]; cbn.
  - destruct O as [k ->]. rewrite E1. apply prefix_take.
  - split; cbn; congruence.
Qed.

Lemma emit_grows (b : DotStuffWriter bytes) p ls lb : w b `prefix_of` w (fst (emit b p ls lb)).
Proof. by exists p. Qed.

Lemma sim_grows x b b' : sim x b -> w b `prefix_of` w b' -> snd x <> None -> out (w (fst x)) `prefix_of` w b'.
Proof. destruct x as [d [e|]]; [|done]. cbn. intros P G _. by etrans. Qed.

Lemma emitLiteral_grows (b : DotStuffWriter bytes) p : w b `prefix_of` w (fst (emitLiteral b p)).
Proof.
  unfold emitLiteral. destruct p as [|c rest]; [done|]. destruct (_ && _); [|apply emit_grows].
  cbn. destruct rest as [|c' rest]; cbn; [by exists dotDot|]. exists (dotDot ++ c' :: rest). by rewrite <- app_assoc.
Qed.

Lemma emitLiteral_sim d b p : related d b -> sim (emitLiteral d p) (fst (emitLiteral b p)).
Proof.
  intros R. unfold emitLiteral. destruct p as [|c rest]; [done|]. rewrite (rel_ls _ _ R).
  destruct (atLineStart b && (c =b DOT)); [|by apply emit_sim].
  pose proof (emit_sim d b dotDot false DOT R) as S1. destruct (emit d dotDot false DOT) as [d1 [e|]] eqn:E1.
  - cbn in *. etrans; [exact S1|]. destruct rest as [|c' rest]; [done|]. by eexists.
  - change (emit b dotDot false DOT) with (fst (emit b dotDot false DOT), @None ioerr).
    destruct rest as [|c' rest]; [done|]. by apply emit_sim.
Qed.

Lemma set_pendingCR_rel d b v : related d b -> related (set_pendingCR d v) (set_pendingCR b v).
Proof. intros [E1 E2 E3 E4 E5 E6]. by split. Qed.

(** The buffer never fails, so its loop ends without error. *)
Lemma emitCRLF_ok (b : DotStuffWriter bytes) : emitCRLF b = (fst (emitCRLF b), None).
Proof. done. Qed.
Lemma emitLiteral_ok (b : DotStuffWriter bytes) p : emitLiteral b p = (fst (emitLiteral b p), None).
Proof. unfold emitLiteral. destruct p as [|c [|c' rest]]; [done|..]; by destruct (_ && _). Qed.

Lemma write_loop_grows fuel (b : DotStuffWriter bytes) p n b' m e :
  write_loop fuel b p n = Some (b', m, e) -> w b `prefix_of` w b' /\ e = None.
Proof.
  revert b p n. induction fuel as [|fuel IH]; intros b [|c p] n; try done; try (by intros [= <- <- <-]).
  rewrite write_loop_round.
  destruct (pendingCR b).
  - rewrite emitCRLF_ok. intros E. assert (w b `prefix_of` w (fst (emitCRLF (set_pendingCR b false)))) as G by by exists CRLF.
    destruct (c =b LF); apply IH in E as [P ->]; (split; [by etrans|done]).
  - destruct (indexCROrLF (c :: p)) as [i|]; [|rewrite emitLiteral_ok; pose proof (emitLiteral_grows b (c :: p)) as G; revert G;
      generalize (fst (emitLiteral b (c :: p))); by intros x G [= <- <- <-]].
    assert (forall b1 k, after_cr fuel b1 (drop i (c :: p)) k = Some (b', m, e) -> w b1 `prefix_of` w b' /\ e = None) as A.
    { intros b1 k. unfold after_cr. destruct (drop i (c :: p)) as [|c1 p1]; [by intros [= <- <- <-]|].
      destruct (c1 =b LF); [rewrite emitCRLF_ok|]; intros E; apply IH in E as [P ->]; (split; [|done]); [|done].
      etrans; [|exact P]. by exists CRLF. }
    destruct (0 <? i)%nat; [|by apply A]. rewrite emitLiteral_ok. intros E%A. destruct E as [P ->]. split; [|done].
    etrans; [apply emitLiteral_grows|exact P].
Qed.

Definition sim_loop (x : option (DotStuffWriter W * nat * option ioerr))
    (y : option (DotStuffWriter bytes * nat * option ioerr)) : Prop :=
  match x, y with
  | Some (d, m, None), Some (b, m', None) => related d b /\ m = m'
  | Some (d, _, Some _), Some (b, _, None) => out (w d) `prefix_of` w b
  | Some (_, _, Some _), None => True
  | None, None => True
  | _, _ => False
  end.

(** A failed write against the buffer's whole loop. *)
Lemma sim_loop_error d b p n fuel m e :
  out (w d) `prefix_of` w b -> sim_loop (Some (d, m, Some e)) (write_loop fuel b p n).
Proof.
  intros P. unfold sim_loop. destruct (write_loop fuel b p n) as [[[b' m'] e']|] eqn:E; [|done].
  apply write_loop_grows in E as [G ->]. by etrans.
Qed.

Lemma write_loop_sim fuel d b p n : related d b -> sim_loop (write_loop fuel d p n) (write_loop fuel b p n).
Proof.
  revert d b p n. induction fuel as [|fuel IH]; intros d b [|c p] n R; try done.
  rewrite !write_loop_round, (rel_cr _ _ R). destruct (pendingCR b).
  - rewrite (emitCRLF_ok (set_pendingCR b false)).
    pose proof (emit_sim _ _ CRLF true LF (set_pendingCR_rel _ _ false R)) as S1.
    fold (emitCRLF (set_pendingCR d false)) (emitCRLF (set_pendingCR b false)) in S1.
    destruct (emitCRLF (set_pendingCR d false)) as [d1 [e|]]; cbn in S1; destruct (c =b LF);
      [by apply sim_loop_error|by apply sim_loop_error|by apply IH|by apply IH].
  - destruct (indexCROrLF (c :: p)) as [i|].
    + assert (forall d1 b1 k, related d1 b1 ->
        sim_loop (after_cr fuel d1 (drop i (c :: p)) k) (after_cr fuel b1 (drop i (c :: p)) k)) as A.
      { intros d1 b1 k R1. unfold after_cr. destruct (drop i (c :: p)) as [|c1 p1]; [done|].
        destruct (c1 =b LF); [|by apply IH, set_pendingCR_rel]. rewrite (emitCRLF_ok b1).
        pose proof (emit_sim _ _ CRLF true LF R1) as S1. fold (emitCRLF d1) (emitCRLF b1) in S1.
        destruct (emitCRLF d1) as [d2 [e|]]; cbn in S1; [by apply sim_loop_error|by apply IH]. }
      destruct (0 <? i)%nat; [|by apply A]. rewrite (emitLiteral_ok b).
      pose proof (emitLiteral_sim _ _ (take i (c :: p)) R) as S1.
      destruct (emitLiteral d (take i (c :: p))) as [d1 [e|]]; [|by apply A]. unfold sim in S1. unfold after_cr.
      destruct (drop i (c :: p)) as [|c1 p1]; [exact S1|].
      destruct (c1 =b LF); [rewrite emitCRLF_ok|]; apply sim_loop_error; [|exact S1]. etrans; [exact S1|]. by exists CRLF.
    + rewrite (emitLiteral_ok b). pose proof (emitLiteral_sim _ _ (c :: p) R) as S1.
      destruct (emitLiteral d (c :: p)) as [d1 [e|]]; cbn in *; [exact S1|by split].
Qed.

(** One [Write]: all of it, with the buffer's state, or an error with a prefix of the buffer's bytes. *)
Lemma Write_sim d b p :
  related d b -> line_ok b ->
  exists b', abs b' = brun (abs b) p /\ line_ok b' /\
    match Write d p with
    | Some (d', _, None) => related d' b'
    | Some (d', _, Some _) => out (w d') `prefix_of` w b'
    | None => False
    end.
Proof.
  intros R L. destruct (Write_brun b p L) as (b' & E & L' & A). exists b'. split_and!; [done|done|].
  unfold Write in *. rewrite (rel_closed _ _ R). destruct L as [Hc _]. rewrite Hc in *.
  pose proof (write_loop_sim (write_fuel p) d b p 0 R) as S.
  destruct (write_loop (write_fuel p) b p 0) as [[[b1 m] e1]|]; [|done]. injection E as -> -> E1.
  destruct (write_loop (write_fuel p) d p 0) as [[[d' m'] [e|]]|]; cbn in *; destruct e1; try done. by destruct S.
Qed.

(** Closing: on success the buffer's bytes. *)
Lemma Close_sim d b d' :
  related d b -> line_ok b -> Close d = (d', None) -> out (w d') = finish (abs b) ++ terminator.
Proof.
  intros R L E. destruct (Close_buffer b L) as (b' & Eb & <-). revert E Eb. unfold Close.
  rewrite (rel_closed _ _ R), (rel_cr _ _ R). destruct (closed b); [done|].
  set (d0 := {| w := w d; pendingCR := pendingCR b; atLineStart := atLineStart d; wroteAny := wroteAny d;
     lastByte := lastByte d; closed := true |}).
  set (b0 := {| w := w b; pendingCR := pendingCR b; atLineStart := atLineStart b; wroteAny := wroteAny b;
     lastByte := lastByte b; closed := true |}).
  assert (related d0 b0) as R0 by (destruct R; by split). cbn [pendingCR d0 b0].
  set (x := if pendingCR b then emitCRLF (set_pendingCR d0 false) else (d0, None)).
  set (y := if pendingCR b then emitCRLF (set_pendingCR b0 false) else (b0, None)).
  assert (snd y = None /\ match x with (d1, None) => related d1 (fst y) | _ => True end) as [Y X].
  { unfold x, y. destruct (pendingCR b); [|done]. split; [done|].
    pose proof (emit_sim _ _ CRLF true LF (set_pendingCR_rel _ _ false R0)) as S1.
    unfold emitCRLF. by destruct (emit (set_pendingCR d0 false) CRLF true LF) as [? [|]]. }
  destruct x as [d1 [e|]]; [done|]. destruct y as [b1 e1]; cbn in Y, X. subst e1.
  destruct X as [E1 E2 E3 E4 E5 E6]. rewrite E4, E5.
  set (more := wroteAny b1 && negb (lastByte b1 =b LF)).
  pose proof (out_write (w d1) CRLF) as O1.
  destruct more; [destruct (io_write (w d1) CRLF) as [w2 [e|]]; [done|]|].
  - pose proof (out_write w2 terminator) as O2. destruct (io_write w2 terminator) as [w3 [e|]]; [done|].
    intros [= <-] [= <-]. cbn. by rewrite O2, O1, E1.
  - pose proof (out_write (w d1) terminator) as O2. destruct (io_write (w d1) terminator) as [w3 [e|]]; [done|].
    intros [= <-] [= <-]. cbn. by rewrite O2, E1.
Qed.

End Sim.

(** ** What writing preserves *)
Section Preserves.
Context {W : Type} `{IOWriter W} (R : W -> W -> Prop) `{!PreOrder R}.
Hypothesis write_R : forall w p, R w (fst (io_write w p)).

Lemma emit_R d p ls lb : R (w d) (w (fst (emit d p ls lb))).
Proof. unfold emit. pose proof (write_R (w d) p) as P. by destruct (io_write (w d) p) as [w' [e|]]. Qed.

Lemma emitLiteral_R d p : R (w d) (w (fst (emitLiteral d p))).
Proof.
  unfold emitLiteral. destruct p as [|c rest]; [done|]. destruct (_ && _); [|apply emit_R].
  pose proof (emit_R d dotDot false DOT) as P. destruct (emit d dotDot false DOT) as [d1 [e|]]; [done|].
  destruct rest; [done|]. etrans; [exact P|apply emit_R].
Qed.

Lemma write_loop_R fuel d p n d' m e : write_loop fuel d p n = Some (d', m, e) -> R (w d) (w d').
Proof.
  revert d p n. induction fuel as [|fuel IH]; intros d [|c p] n; try done; try (by intros [= <- <- <-]).
  rewrite write_loop_round. destruct (pendingCR d).
  - pose proof (emit_R (set_pendingCR d false) CRLF true LF) as P. fold (emitCRLF (set_pendingCR d false)) in P.
    destruct (emitCRLF (set_pendingCR d false)) as [d1 [e1|]]; [by intros [= <- <- <-]|].
    destruct (c =b LF); intros E%IH; by etrans.
  - assert (forall d1 k, after_cr fuel d1 (drop (default O (indexCROrLF (c :: p))) (c :: p)) k = Some (d', m, e) -> R (w d1) (w d')) as A.
    { intros d1 k. unfold after_cr. destruct (drop _ (c :: p)) as [|c1 p1]; [by intros [= <- <- <-]|].
      destruct (c1 =b LF); [|by intros E%IH]. pose proof (emit_R d1 CRLF true LF) as P. fold (emitCRLF d1) in P.
      destruct (emitCRLF d1) as [d2 [e2|]]; [by intros [= <- <- <-]|]. intros E%IH. by etrans. }
    destruct (indexCROrLF (c :: p)) as [i|].
    + destruct (0 <? i)%nat; [|apply A]. pose proof (emitLiteral_R d (take i (c :: p))) as P.
      destruct (emitLiteral d (take i (c :: p))) as [d1 [e1|]]; [by intros [= <- <- <-]|]. intros E%A. by etrans.
    + pose proof (emitLiteral_R d (c :: p)) as P. destruct (emitLiteral d (c :: p)) as [d1 [e1|]]; by intros [= <- <- <-].
Qed.

Lemma Write_R d p d' n e : Write d p = Some (d', n, e) -> R (w d) (w d').
Proof.
  unfold Write. destruct (closed d); [by intros [= <- <- <-]|].
  destruct (write_loop _ d p 0) as [[[d1 m] e1]|] eqn:E; [|done]. intros [= <- _ _]. by eapply write_loop_R.
Qed.

Lemma Close_R d : R (w d) (w (fst (Close d))).
Proof.
  unfold Close. destruct (closed d); [done|].
  set (d0 := {| w := w d; pendingCR := _; atLineStart := _; wroteAny := _; lastByte := _; closed := true |}).
  assert (R (w d) (w (fst (if pendingCR d0 then emitCRLF (set_pendingCR d0 false) else (d0, None))))) as P.
  { destruct (pendingCR d0); [|done]. apply (emit_R (set_pendingCR d0 false)). }
  destruct (if pendingCR d0 then _ else _) as [d1 [e1|]]; [done|]. cbn in P.
  set (more := wroteAny d1 && _). pose proof (write_R (w d1) CRLF) as P1.
  destruct more; [destruct (io_write (w d1) CRLF) as [w2 [e2|]]|].
  - etrans; [exact P|exact P1].
  - pose proof (write_R w2 terminator) as P2. destruct (io_write w2 terminator) as [w3 e3]. cbn in *.
    etrans; [exact P|]. by etrans.
  - pose proof (write_R (w d1) terminator) as P2. destruct (io_write (w d1) terminator) as [w3 e3]. cbn in *. by etrans.
Qed.

End Preserves.

(** ** No end of data before [Close] *)

Lemma lenient_scan_extend ls s t b a :
  lenient_scan ls s = Some (b, a) -> lenient_scan ls (s ++ t) = Some (b, a ++ t) /\ (length b < length s)%nat.
Proof.
  revert ls b a. induction s as [|d s IH]; intros ls b a; [done|].
  assert (forall b a, match lenient_scan ((d =b CR) || (d =b LF)) s with Some (x, y) => Some (d :: x, y) | None => None end = Some (b, a) ->
    match lenient_scan ((d =b CR) || (d =b LF)) (s ++ t) with Some (x, y) => Some (d :: x, y) | None => None end = Some (b, a ++ t) /\
    (length b < S (length s))%nat) as Go.
  { intros b' a' E. destruct (lenient_scan _ s) as [[x y]|] eqn:Es; [|done]. injection E as <- <-.
    destruct (IH _ _ _ Es) as [-> L]. split; [done|]. cbn. lia. }
  destruct s as [|c s].
  - intros E. by destruct (Go b a E).
  - cbn [app]. cbn [lenient_scan]. destruct (ls && (d =b DOT) && ((c =b CR) || (c =b LF))).
    + intros [= <- <-]. split; [done|]. cbn. lia.
    + intros E. cbn [length]. apply Go. exact E.
Qed.

Definition start : bst := {| b_cr := false; b_ls := true; b_out := [] |}.

Lemma b_out_finish s : b_out s `prefix_of` finish s.
Proof. unfold finish. destruct (b_cr s); [by eexists|]. destruct (b_ls s); [done|by eexists]. Qed.

(** However far a transfer got before [Close], the most permissive receiver sees no end of data. *)
Lemma unclosed_no_end content pre :
  pre `prefix_of` b_out (brun start content) -> lenient_scan true pre = None.
Proof.
  intros P. destruct (lenient_scan true pre) as [[b a]|] eqn:E; [|done]. exfalso.
  assert (pre `prefix_of` stuff true (body content)) as P2.
  { etrans; [exact P|]. etrans; [apply b_out_finish|]. destruct (finish_brun content) as [F _].
    unfold start. rewrite F, body_close. done. }
  destruct P2 as [t Et].
  assert (lenient_scan true (stuff true (body content) ++ terminator ++ []) = Some (stuff true (body content), LF :: [])) as S.
  { rewrite body_close. apply (lenient_scan_stuff _ true false); [apply canonical_close|done|].
    unfold close_line. destruct (match last (norm content) with None => _ | Some c => _ end) eqn:E2; [done|]. by rewrite last_app. }
  destruct (lenient_scan_extend _ _ (t ++ terminator ++ []) _ _ E) as [X L].
  rewrite app_assoc, <- Et, S in X. injection X as <- _. apply (f_equal length) in Et. rewrite length_app in Et. lia.
Qed.

(** The machine appends to whatever was written before. *)
Lemma brun_prefix cr ls out0 out p :
  brun {| b_cr := cr; b_ls := ls; b_out := out0 ++ out |} p =
  let s := brun {| b_cr := cr; b_ls := ls; b_out := out |} p in
  {| b_cr := b_cr s; b_ls := b_ls s; b_out := out0 ++ b_out s |}.
Proof.
  revert cr ls out. induction p as [|c p IH]; intros cr ls out; [done|]. cbn [brun fold_left].
  assert (bstep {| b_cr := cr; b_ls := ls; b_out := out0 ++ out |} c =
    let s := bstep {| b_cr := cr; b_ls := ls; b_out := out |} c in
    {| b_cr := b_cr s; b_ls := b_ls s; b_out := out0 ++ b_out s |}) as ->.
  { unfold bstep, bplain. cbn. repeat case_match; cbn; by rewrite <- ?app_assoc. }
  cbn zeta. destruct (bstep _ c) as [cr1 ls1 out1]. apply IH.
Qed.

End ClientData.
