(* ===== verification/ClientFinal.v ===== *)
(** * smtpclient: the outcome of the operations that complete a transaction

    Data, BDAT and BURL keep the three-way contract of finalstatus.go: no error, and a final status for
    every recipient; an error that says the status is unknown, and an authoritative prefix; any other
    error, and the message was not accepted. *)
From Stdlib Require Import ZArith Lia Bool.
From stdpp Require Import base list gmap strings.
From S2P Require Import Prelude GoStrings Utf8 Base64 Sasl Wire DotStuff Reply Command Path Ehlo Core.
From S2P Require Import NormTables Unicodenorm NormTheorems SaslprepTables Saslprep.
From S2P Require Import ServerParams ClientParams ClientCore Client ClientFacts ClientData.
Import smtpclient Spec WriterFacts ClientFacts ClientData.

Module ClientFinal.

(** The bytes that went out. *)
Fixpoint payload (evs : list wire_event) : bytes :=
  match evs with
  | [] => []
  | Wrote p :: evs' | Torn p :: evs' => p ++ payload evs'
  | _ :: evs' => payload evs'
  end.

Lemma payload_app a b : payload (a ++ b) = payload a ++ payload b.
Proof. induction a as [|[] a IH]; cbn; rewrite ?IH; by rewrite ?app_assoc. Qed.

(** The results that replies give to recipients. *)
Definition results_of (command : bytes) (enhanced : bool) (rcpts : list bytes) (replies : list Reply.Reply) :
    list smtp.RecipientResult :=
  zip_with (fun r reply => recipientResult r command reply enhanced) rcpts replies.

Section Final.
Context `{Unicode} `{NetIP} `{RFC3339} `{MapOrder} `{Crypto} (opts : ClientOptions) (wd : world).

#[local] Existing Instance deadlineWriter.

(** *** Writing content *)

(** What the transfer does to the connection: it writes, and looks at the context. *)
Definition writing (c c' : connection) : Prop :=
  (session c' = session c \/ closed c' = true) /\ (closed c = true -> closed c' = true) /\
  reader c' = reader c /\ exists evs, wire c' = wire c ++ evs /\ got evs = [].

#[local] Instance writing_pre : PreOrder writing.
Proof.
  split.
  - intros c. split_and!; [by left|done|done|]. exists []. by rewrite app_nil_r.
  - intros c1 c2 c3 (S1 & C1 & R1 & e1 & W1 & G1) (S2 & C2 & R2 & e2 & W2 & G2). split_and!.
    + destruct S2 as [S2|S2]; [|by right]. destruct S1 as [S1|S1]; [left; congruence|].
      right. by rewrite (session_closed c3 c2).
    + auto.
    + congruence.
    + exists (e1 ++ e2). split; [by eapply wire_trans|]. by rewrite got_app, G1, G2.
Qed.

Lemma raw_write_writing c p : writing c (fst (raw_write wd c p)).
Proof.
  pose proof (raw_write_spec wd c p) as R. destruct (raw_write wd c p) as [c' e]. destruct R as (S & _ & Rd & W). cbn.
  split_and!; [by left|by rewrite (session_closed c' c)|done|]. destruct e as [e|]; [destruct W as [W|[k W]]|]; [exists []; by rewrite app_nil_r|eexists; by split..].
Qed.

Definition same_session (c c' : connection) : Prop := session c' = session c.

#[local] Instance same_session_pre : PreOrder same_session.
Proof. split; [done|]. unfold same_session. intros ????? . congruence. Qed.

Lemma raw_write_session c p : same_session c (fst (raw_write wd c p)).
Proof. pose proof (raw_write_spec wd c p) as R. destruct (raw_write wd c p) as [c' e]. apply R. Qed.

Lemma raw_write_payload c p :
  match raw_write wd c p with
  | (c', None) => payload (wire c') = payload (wire c) ++ p
  | (c', Some _) => exists k, payload (wire c') = payload (wire c) ++ take k p
  end.
Proof.
  pose proof (raw_write_spec wd c p) as R. destruct (raw_write wd c p) as [c' [e|]]; destruct R as (_ & _ & _ & W).
  - destruct W as [->|[k ->]]; [exists O; by rewrite take_0, app_nil_r|]. exists k. rewrite payload_app. cbn. by rewrite app_nil_r.
  - rewrite W, payload_app. cbn. by rewrite app_nil_r.
Qed.

Lemma poison_writing c : writing c (poison c).
Proof.
  split_and!; [by right; apply poison_closed|by intros; apply poison_closed|unfold poison; by destruct (closed c)|].
  eexists. split; [apply poison_wire|]. by destruct (closed c).
Qed.

Lemma poison_payload c : payload (wire (poison c)) = payload (wire c).
Proof. rewrite poison_wire, payload_app. destruct (closed c); cbn; by rewrite app_nil_r. Qed.

Lemma idle_writing c c' : idle c c' -> writing c c'.
Proof.
  intros (S & W & _ & R). split_and!; [by left|by rewrite (session_closed c' c)|done|]. exists []. by rewrite app_nil_r.
Qed.

Lemma ctx_poison_writing c :
  wp (ctx_poison wd) (fun c' r => writing c c' /\ payload (wire c') = payload (wire c) /\
    match r with Ok _ => idle c c' | Err e => (exists k, e = Ctx k) /\ closed c' = true end) c.
Proof.
  eapply wp_mono; [apply ctx_poison_spec|]. intros c' [[]|e]; cbn beta match.
  - intros I. split_and!; [by apply idle_writing| |done]. destruct I as (_ & W & _). by rewrite W.
  - intros [E ->]. split_and!; [|by rewrite poison_payload|done|apply poison_closed].
    transitivity (tick c); [by apply idle_writing, idle_tick|apply poison_writing].
Qed.

(** An error that is neither unknown nor coded. *)
Definition plain_error (e : cerr) : Prop :=
  is_unknown e = false /\ forall code enh text cmd err, e = Smtp code enh text cmd err -> code = 0.

Lemma transport_plain cmd e : is_unknown e = false -> plain_error (transportError cmd e).
Proof. intros U. split; [done|]. by intros * [= <-]. Qed.

Lemma unknown_plain cmd e : plain_error e -> is_unknown (finalStatusUnknown cmd e) = true.
Proof.
  intros [U Z]. unfold finalStatusUnknown, finalStatusUnknownStream. rewrite U.
  destruct e; try done. rewrite (Z _ _ _ _ _ eq_refl). done.
Qed.

Lemma stream_unknown cmd e : is_unknown (finalStatusUnknownStream cmd e) = true.
Proof. unfold finalStatusUnknownStream. destruct (is_unknown e) eqn:U; [done|]. by destruct e. Qed.

Abbreviation out := (fun c : connection => payload (wire c)).

Lemma transfer_spec ps err dw b :
  related out dw b -> line_ok b ->
  let '(dw', r) := transfer wd ps err dw in
  writing (Writer.w dw) (Writer.w dw') /\
  exists b', line_ok b' /\ match r with
  | None => err = None /\ abs b' = brun (abs b) (concat ps) /\ related out dw' b' /\ session (Writer.w dw') = session (Writer.w dw)
  | Some e => plain_error e /\ (exists fed, abs b' = brun (abs b) fed) /\ out (Writer.w dw') `prefix_of` Writer.w b'
  end.
Proof.
  revert dw b. induction ps as [|p ps IH]; intros dw b R L; cbn [transfer].
  - pose proof (ctx_poison_writing (Writer.w dw)) as P. unfold wp in P.
    destruct (smtpclient.ctx_poison wd (Writer.w dw)) as [c' [[]|e]]; cbn [fst snd] in P; destruct P as (Wr & O & P); (split; [done|]); exists b; (split; [done|]).
    + destruct err as [e0|].
      * split_and!; [by apply transport_plain|by exists []|]. cbn. rewrite O, (rel_out _ _ _ R). done.
      * split_and!; [done|done|destruct R; split; cbn; congruence|]. cbn. by destruct P.
    + destruct P as [[k ->] _]. split_and!; [done|by exists []|]. cbn. by rewrite O, (rel_out _ _ _ R).
  - pose proof (ctx_poison_writing (Writer.w dw)) as P. unfold wp in P.
    destruct (smtpclient.ctx_poison wd (Writer.w dw)) as [c' [[]|e]]; cbn [fst snd] in P; destruct P as (Wr & O & P).
    2: { split; [done|]. exists b. split; [done|]. destruct P as [[k ->] _]. split_and!; [done|by exists []|]. cbn. by rewrite O, (rel_out _ _ _ R). }
    set (dw1 := {| Writer.w := c'; Writer.pendingCR := _; Writer.atLineStart := _; Writer.wroteAny := _; Writer.lastByte := _; Writer.closed := _ |}).
    assert (related out dw1 b) as R1 by (destruct R; split; cbn; congruence).
    assert (session c' = session (Writer.w dw)) as S1 by (by destruct P).
    destruct p as [|x p].
    + specialize (IH dw1 b R1 L). destruct (transfer wd ps err dw1) as [dw' r]. destruct IH as (W2 & b' & L' & IH).
      split; [by etrans|]. exists b'. split; [done|]. destruct r as [e|]; [done|].
      destruct IH as (? & ? & ? & S2). split_and!; try done. cbn in S2. congruence.
    + destruct (Write_sim out raw_write_payload dw1 b (x :: p) R1 L) as (b1 & A1 & L1 & Sim).
      pose proof (Write_R writing raw_write_writing dw1 (x :: p)) as WR.
      pose proof (Write_R same_session raw_write_session dw1 (x :: p)) as WS.
      destruct (Writer.Write dw1 (x :: p)) as [[[dw2 n] [e|]]|]; [| |done].
      * split; [etrans; [exact Wr|by eapply (WR dw2)]|]. exists b1. split; [done|].
        split_and!; [by apply transport_plain|by eexists|done].
      * specialize (IH dw2 b1 Sim L1). destruct (transfer wd ps err dw2) as [dw' r]. destruct IH as (W2 & b' & L' & IH).
        specialize (WR dw2 n None eq_refl).
        split; [etrans; [exact Wr|by etrans]|]. exists b'. split; [done|]. destruct r as [e|].
        -- destruct IH as (? & [fed F] & ?). split_and!; [done| |done]. exists ((x :: p) ++ fed). by rewrite brun_app, <- A1.
        -- destruct IH as (? & F & ? & S2). split_and!; [done| |done|].
           ++ rewrite F, A1. change (concat ((x :: p) :: ps)) with ((x :: p) ++ concat ps). by rewrite brun_app.
           ++ specialize (WS dw2 n None eq_refl). unfold same_session in WS. cbn in WS. congruence.
Qed.

(** *** Reading final replies *)

(** What reading does: replies only, or an error and the end of the connection. *)
Lemma read_final_spec command c :
  wp (read opts wd command) (fun c' r => exists evs, wire c' = wire c ++ evs /\ payload evs = [] /\ match r with
    | Ok reply => evs = [Got reply] /\ session c' = session c /\ Reply.Code reply <> 421 /\ closed c = false
    | Err e => is_unknown e = false /\
        (plain_error e \/ exists reply, got evs = [reply] /\ Reply.Code reply = 421)
    end) c.
Proof.
  eapply wp_mono; [apply read_spec|]. intros c' [reply|e]; cbn beta match.
  - intros (S & W & N & Hc). by exists [Got reply].
  - intros [[(_ & W & _) [k ->]]|(Cl & evs & W & U & Ev & Coded)].
    + exists []. rewrite app_nil_r. split_and!; done || by left.
    + exists evs. split_and!; [done|destruct Ev as [->|[reply ->]]; unfold hangup; by destruct (closed c)|done|].
      destruct e; try (by left; split). destruct (decide (code = 0)) as [->|N].
      * left. split; [done|]. by intros * [= <-].
      * destruct (Coded _ _ _ _ _ eq_refl N) as (reply & -> & E & ->). right. exists reply. split; [|done].
        cbn. unfold hangup. by destruct (closed c).
Qed.

(** The outcome of a stretch of final replies: results for the recipients answered, in order, with the
    replies that give them. *)
Record finals (command : bytes) (rcpts : list bytes) (c c' : connection) (o : data_outcome) : Prop := {
  fin_events : exists evs replies,
    wire c' = wire c ++ evs /\ payload evs = [] /\
    fst o = results_of command (enhancedStatusCodes c) rcpts replies /\ replies `prefix_of` got evs /\
    match snd o with
    | None => got evs = replies /\ length replies = length rcpts /\ session c' = session c
    | Some e => is_unknown e = true /\ (length replies < length rcpts)%nat
    end
}.

Lemma enhanced_session c c' : session c' = session c -> enhancedStatusCodes c' = enhancedStatusCodes c.
Proof. unfold enhancedStatusCodes. by intros [= _ _ -> _]. Qed.

Lemma read_finals_spec command rcpts c :
  wp (read_finals opts wd command rcpts) (fun c' r => exists o, r = Ok o /\ finals command rcpts c c' o) c.
Proof.
  revert c. induction rcpts as [|rc rcpts IH]; intros c; cbn [read_finals].
  { eexists. split; [done|]. split. exists [], []. rewrite app_nil_r. done. }
  pose proof (read_final_spec command c) as R. unfold wp in *.
  destruct (smtpclient.read opts wd command c) as [c1 [reply|e]]; cbn [fst snd] in *; destruct R as (evs & W & P & R).
  - destruct R as (-> & S & _). specialize (IH c1). destruct (read_finals opts wd command rcpts c1) as [c2 r2]. cbn [fst snd] in IH.
    destruct IH as ([results e2] & -> & [(evs2 & replies & W2 & P2 & F & Pre & E)]). cbn [fst snd] in *.
    eexists. split; [done|]. split. exists (Got reply :: evs2), (reply :: replies). split_and!.
    + rewrite W2, W. by rewrite <- app_assoc.
    + done.
    + cbn. rewrite F, (enhanced_session c c1 S). done.
    + cbn. by apply prefix_cons.
    + cbn [snd got length]. destruct e2 as [e2|]; [destruct E; split; [done|lia]|]. destruct E as (-> & L & S2).
      split_and!; [done|lia|congruence].
  - eexists. split; [done|]. split. exists (evs ++ if closed c1 then [] else [Hangup]), []. split_and!.
    + rewrite poison_wire, W. by rewrite app_assoc.
    + rewrite payload_app, P. by destruct (closed c1).
    + unfold results_of. by rewrite zip_with_nil_r.
    + apply prefix_nil.
    + cbn. split; [apply stream_unknown|lia].
Qed.

Lemma no_extra_spec command results c :
  wp (no_extra wd command results) (fun c' r => exists o evs, r = Ok o /\ wire c' = wire c ++ evs /\ payload evs = [] /\
    match snd o with
    | None => fst o = results /\ evs = [] /\ session c' = session c
    | Some e => fst o = [] /\ is_unknown e = true
    end) c.
Proof.
  unfold no_extra, rejectExtraLMTPFinalReply. unfold wp.
  assert (forall c1 e evs, session c1 = session c -> wire c1 = wire c ++ evs -> payload evs = [] ->
    exists o evs', (Ok ([], Some (finalStatusUnknownStream command e)) : result cerr data_outcome) = Ok o /\
      wire (poison c1) = wire c ++ evs' /\ payload evs' = [] /\
      match snd o with None => fst o = results /\ evs' = [] /\ session (poison c1) = session c | Some e => fst o = [] /\ is_unknown e = true end) as Bad.
  { intros c1 e evs S W P. eexists _, (evs ++ hangup c). split; [done|]. split_and!; [by apply poison_events| |cbn; split; [done|apply stream_unknown]].
    rewrite payload_app, P. unfold hangup. by destruct (closed c). }
  destruct (negb _); cbn [fst snd]; [by apply (Bad (tick c) _ []); [|rewrite app_nil_r|]|].
  pose proof (raw_read_spec wd c) as R. destruct (raw_read wd c) as [c1 [reply|e]]; destruct R as (S & _ & W); cbn [fst snd].
  - destruct W; by eapply Bad.
  - destruct W as [W [we ->]]. destruct (is_timeout (WireErr we)); cbn [fst snd].
    + eexists _, []. split; [done|]. rewrite app_nil_r. done.
    + by eapply (Bad c1 _ []); [|rewrite app_nil_r|].
Qed.

(** *** A group of one command *)

Definition wrote_part (cmd : queuedCommand) (evs : list wire_event) : Prop :=
  match line_of (upper cmd) with
  | Ok line => payload evs `prefix_of` line
  | Err _ => payload evs = []
  end.

Record one_error (cmd : queuedCommand) (evs : list wire_event) (e : cerr) : Prop := {
  one_part : wrote_part cmd evs;
  one_unknown : is_unknown e = true -> completes cmd = true;
  one_known : is_unknown e = false -> completes cmd = true ->
    payload evs = [] \/ exists reply, got evs = [reply] /\ Reply.Code reply = 421
}.

(** An error found before the command is written. *)
Lemma one_early cmd e : is_unknown e = false -> one_error cmd [] e.
Proof.
  intros U. split; [|by rewrite U|by left]. unfold wrote_part. destruct (line_of _); [apply prefix_nil|done].
Qed.

Lemma finalStatusUnknown_coded cmd e :
  is_unknown e = false -> is_unknown (finalStatusUnknown cmd e) = false ->
  exists code enh text command err, e = Smtp code enh text command err /\ code <> 0.
Proof.
  intros U. unfold finalStatusUnknown. destruct e; try (by rewrite stream_unknown).
  destruct (Z.eqb_spec code 0); cbn [negb]; [by rewrite stream_unknown|]. intros _. by eexists _, _, _, _, _.
Qed.

Definition one_post (cmd : queuedCommand) (c c' : connection) (r : result cerr Reply.Reply) : Prop :=
  exists evs, wire c' = wire c ++ evs /\ match r with
  | Ok reply => session c' = session c /\ Reply.Code reply <> 421 /\
      exists line, line_of (upper cmd) = Ok line /\ evs = [Wrote line; Got reply]
  | Err e => one_error cmd evs e
  end.

(** What follows the group's only command: its reply. *)
Definition one_rest (r : list queuedCommand * list queuedCommand) : C Reply.Reply :=
  replies ← (replies ← collect opts wd (fst r); rest ← rounds opts wd 0 (snd r); mret (replies ++ rest));
  match replies with reply :: _ => mret reply | [] => fail Fuel end.

Lemma wp_bind_assoc {A B D} (m : C A) (k : A -> C B) (l : B -> C D) Q c :
  wp (m ≫= (fun a => k a ≫= l)) Q c -> wp ((m ≫= k) ≫= l) Q c.
Proof. unfold wp, mbind, C_bind. by destruct (m c) as [c' [a|e]]. Qed.

Lemma one_read cmd c c1 line :
  closed c1 = false -> session c1 = session c -> line_of (upper cmd) = Ok line -> wire c1 = wire c ++ [Wrote line] ->
  wp (one_rest ([upper cmd], [])) (one_post cmd c) c1.
Proof.
  intros Hc S1 L W1. unfold one_rest. cbn [fst snd collect].
  apply wp_bind_assoc, wp_bind_assoc, cwp_bind, wp_on_error. eapply wp_mono; [by apply read_final_spec|].
  intros c4 [reply|e4]; cbn beta match.
  - intros (evs & W4 & P4 & -> & S4 & N & _). exists [Wrote line; Got reply].
    split; [change (wire c4 = wire c ++ [Wrote line; Got reply]); rewrite W4, W1; by rewrite <- !app_assoc|].
    split_and!; [by etrans|done|by exists line].
  - intros (evs & W4 & P4 & U & D). exists (Wrote line :: evs). split; [rewrite W4, W1; by rewrite <- !app_assoc|].
    assert (wrote_part cmd (Wrote line :: evs)) as Part.
    { unfold wrote_part. rewrite L. cbn [payload]. rewrite P4, app_nil_r. done. }
    change (completes (upper cmd)) with (completes cmd). split; [done| |]; destruct (completes cmd); try done.
    + by rewrite U.
    + intros Un _. right. destruct D as [D|(reply & G & E)]; [by rewrite (unknown_plain _ _ D) in Un|]. by exists reply.
Qed.

Lemma one_write cmd c c1 :
  closed c1 = false -> session c1 = session c -> wire c1 = wire c ->
  wp (classified (upper cmd) (write opts wd (upper cmd));; one_rest ([upper cmd], [])) (one_post cmd c) c1.
Proof.
  intros Hc S1 W1. apply cwp_bind, wp_on_error, cwp_bind. eapply wp_mono; [by apply send_line_spec|].
  intros c2 [[]|e2]; cbn beta match.
  - intros (line & L & S2 & W2 & _). eapply wp_mono; [apply trace_spec|]. intros c3 r3 (-> & S3 & W3 & _). cbn beta match.
    apply one_read with line; [|congruence|done|congruence]. rewrite (session_closed c3 c1); [done|congruence].
  - intros (U & _ & D). change (completes (upper cmd)) with (completes cmd).
    destruct D as [[(S2 & W2 & _) [k ->]]|(Cl & evs & W2 & G & Ln & Z)].
    + exists []. rewrite app_nil_r. split; [congruence|].
      split; [unfold wrote_part; destruct (line_of _); [apply prefix_nil|done]| |by left]. by destruct (completes cmd).
    + exists evs. split; [congruence|].
      assert (wrote_part cmd evs) as Part.
      { unfold wrote_part. fold (line_of (upper cmd)) in Ln. destruct (line_of (upper cmd)) as [line|we]; [|by subst].
        destruct Ln as (mid & -> & [->|[->|[k ->]]]); rewrite payload_app; cbn; rewrite ?app_nil_r; [apply prefix_nil|done|].
        exists (drop k line). by rewrite take_drop. }
      split; [done| |]; destruct (completes cmd); try done; [by rewrite U|]. intros Un.
      by rewrite unknown_plain in Un by (by split).
Qed.

Lemma execute_one_spec cmd c :
  closed c = false -> wp (execute_one opts wd cmd) (one_post cmd c) c.
Proof.
  intros Hc. unfold execute_one, executeLocked. cbn [validate_group]. rewrite andb_false_r. fold (upper cmd). cbn [lift].
  apply wp_bind_assoc, cwp_bind, cwp_ret, wp_bind_assoc, cwp_bind, cwp_get. rewrite Hc. cbn [rounds length].
  apply wp_bind_assoc, cwp_bind, cwp_get, wp_bind_assoc. fold one_rest.
  destruct (depth c) as [|n] eqn:Dp; [unfold depth, maxPipelineDepth in Dp; by case_match|]. cbn [issue].
  destruct (_ <? _); [exists []; rewrite app_nil_r; split; [done|]; by apply one_early|].
  cbn [negb andb].
  assert (forall c1, session c1 = session c -> wire c1 = wire c ->
    wp ((classified (upper cmd) (write opts wd (upper cmd));;
         if syncPoint (upper cmd) then mret ([upper cmd], [])
         else r ← issue opts wd [] n false (0 + commandLength (upper cmd)); mret (upper cmd :: fst r, snd r)) ≫= one_rest)
      (one_post cmd c) c1) as Go.
  { intros c1 S1 W1. apply wp_bind_assoc. assert (closed c1 = false) as Hc1 by (by rewrite (session_closed c1 c)).
    destruct (syncPoint (upper cmd)); [|destruct n]; exact (one_write cmd c c1 Hc1 S1 W1). }
  apply wp_bind_assoc, cwp_bind. destruct (completes (upper cmd)).
  - eapply wp_mono; [apply ctx_check_spec|]. intros c1 [[]|e1] [I1 E1]; cbn beta match.
    + destruct I1 as (S1 & W1 & _). by apply Go.
    + exists []. destruct I1 as (S1 & W1 & _). rewrite app_nil_r. split; [done|]. destruct E1 as [k ->]. by apply one_early.
  - apply cwp_ret. by apply Go.
Qed.

(** ** The contract *)

Lemma wp_bind_failing {A} (m : C A) (k : A -> C data_outcome) Q c :
  wp m (fun c' r => match r with Ok a => wp (k a) Q c' | Err e => Q c' (Ok ([], Some e)) end) c ->
  wp (bind_failing m k) Q c.
Proof. unfold wp, bind_failing. by destruct (m c) as [c' [a|e]]. Qed.

(** [o] is the outcome of completing the transaction of [rcpts], [evs] what happened on the connection,
    [not_begun] that the completing bytes were not sent. *)
Definition contract (command : bytes) (enhanced : bool) (rcpts : list bytes) (evs : list wire_event)
    (not_begun : Prop) (o : data_outcome) : Prop :=
  match snd o with
  | None => exists replies,
      fst o = results_of command enhanced rcpts replies /\ length replies = length rcpts /\
      if LMTP opts then replies `suffix_of` got evs
      else exists r, last (got evs) = Some r /\ Reply.Code r = 250 /\ replies = repeat r (length rcpts)
  | Some e =>
      if is_unknown e then exists a replies b,
        fst o = results_of command enhanced rcpts replies /\ got evs = a ++ replies ++ b
      else fst o = [] /\
        (not_begun \/ LMTP opts = false /\ exists r, last (got evs) = Some r /\ Reply.Code r <> 250)
  end.

Lemma contract_unknown command enhanced rcpts evs nb e :
  is_unknown e = true -> contract command enhanced rcpts evs nb ([], Some e).
Proof.
  intros U. unfold contract. cbn [snd fst]. rewrite U. exists [], [], (got evs). split; [|done].
  unfold results_of. by rewrite zip_with_nil_r.
Qed.

(** Events before: a stretch that got no final reply of the transaction. *)
Lemma contract_before command enhanced rcpts a evs (nb nb' : Prop) o :
  (nb -> nb') -> contract command enhanced rcpts evs nb o -> contract command enhanced rcpts (a ++ evs) nb' o.
Proof.
  intros Hnb. unfold contract. rewrite !got_app.
  assert (forall r, last (got evs) = Some r -> last (got a ++ got evs) = Some r) as L.
  { intros r E. rewrite last_app. by rewrite E. }
  destruct (snd o) as [e|].
  - destruct (is_unknown e).
    + intros (x & replies & y & F & ->). exists (got a ++ x), replies, y. by rewrite <- app_assoc.
    + intros [F [N|(M & r & E & N)]]; (split; [done|]); [left; by apply Hnb|right; split; [done|]; exists r; split; [by apply L|done]].
  - intros (replies & F & Ln & D). exists replies. split_and!; [done|done|]. destruct (LMTP opts).
    + by apply suffix_app_r.
    + destruct D as (r & E & D). exists r. split; [by apply L|done].
Qed.

Lemma results_repeat command enhanced rcpts reply :
  map (fun r => recipientResult r command reply enhanced) rcpts =
  results_of command enhanced rcpts (repeat reply (length rcpts)).
Proof. unfold results_of. induction rcpts as [|r rcpts IH]; [done|]. cbn. by rewrite IH. Qed.

(** The single final reply of SMTP. *)
Lemma contract_reply command enhanced rcpts reply evs nb :
  LMTP opts = false -> got evs = [reply] ->
  contract command enhanced rcpts evs nb
    match unexpectedReply command reply enhanced [250] with
    | Some e => ([], Some e)
    | None => (map (fun r => recipientResult r command reply enhanced) rcpts, None)
    end.
Proof.
  intros HL G. unfold contract, unexpectedReply. cbn [existsb]. rewrite HL, G, orb_false_r.
  destruct (Z.eqb_spec (Reply.Code reply) 250) as [E|E]; cbn [snd fst].
  - exists (repeat reply (length rcpts)). rewrite results_repeat, repeat_length. split_and!; [done|done|]. by exists reply.
  - assert (forall e, is_unknown e = false -> (if is_unknown e then exists a replies b, [] = results_of command enhanced rcpts replies /\ [reply] = a ++ replies ++ b
      else @nil smtp.RecipientResult = [] /\ (nb \/ false = false /\ exists r, last [reply] = Some r /\ Reply.Code r <> 250))) as K.
    { intros e ->. split; [done|]. right. split; [done|]. by exists reply. }
    destruct (0 <? Reply.Code reply); cbn [snd fst]; apply K; [|done]. unfold replyError. by destruct (reply_parts _ _).
Qed.

(** An error of a single final reply: its coded form is the 421 that was read. *)
Lemma contract_read_error command enhanced rcpts e evs nb :
  LMTP opts = false -> is_unknown e = false ->
  (plain_error e \/ exists reply, got evs = [reply] /\ Reply.Code reply = 421) ->
  contract command enhanced rcpts evs nb ([], Some (finalStatusUnknown command e)).
Proof.
  intros HL U D. destruct (is_unknown (finalStatusUnknown command e)) eqn:Un; [by apply contract_unknown|].
  destruct D as [D|(reply & G & E)]; [by rewrite (unknown_plain _ _ D) in Un|].
  unfold contract. cbn [snd fst]. rewrite Un. split; [done|]. right. split; [done|]. exists reply. rewrite G. cbn. split; [done|lia].
Qed.

(** ** DATA *)

Definition extends (c c' : connection) (evs : list wire_event) : Prop :=
  wire c' = wire c ++ evs /\ ext c' = ext c.

Lemma session_ext c c' : session c' = session c -> ext c' = ext c.
Proof. by intros [= _ _ ? _]. Qed.

Lemma enhanced_ext c c' : ext c' = ext c -> enhancedStatusCodes c' = enhancedStatusCodes c.
Proof. unfold enhancedStatusCodes. by intros ->. Qed.

Lemma poison_ext c : ext (poison c) = ext c.
Proof. unfold poison. by destruct (closed c). Qed.

Lemma watch_extends c :
  wp (watch wd) (fun c' r => r = Ok tt /\ exists evs, extends c c' evs /\ payload evs = [] /\ got evs = []) c.
Proof.
  eapply wp_mono; [apply watch_spec|]. intros c' r [-> [(S & W & _)| ->]]; (split; [done|]).
  - exists []. split_and!; [|done|done]. split; [by rewrite app_nil_r|by apply session_ext].
  - eexists. split_and!; [split; [exact (poison_wire (tick c))|exact (poison_ext (tick c))]| |]; by destruct (closed (tick c)).
Qed.

Lemma unless_closed_extends f c :
  (forall c, wire (f c) = wire c /\ ext (f c) = ext c) -> extends c (unless_closed f c) [].
Proof. intros F. unfold unless_closed, extends. rewrite app_nil_r. destruct (closed c); [done|apply F]. Qed.

Lemma extends_trans c1 c2 c3 a b : extends c1 c2 a -> extends c2 c3 b -> extends c1 c3 (a ++ b).
Proof. intros [W1 E1] [W2 E2]. split; [by eapply wire_trans|congruence]. Qed.

(** The replies after the end of the data in LMTP. *)
Lemma lmtp_final_spec rcpts c nb :
  LMTP opts = true ->
  wp (readLMTPFinalReplies opts wd rcpts) (fun c' r => exists o evs, r = Ok o /\ wire c' = wire c ++ evs /\ payload evs = [] /\
    contract ($"DATA") (enhancedStatusCodes c) rcpts evs nb o) c.
Proof.
  intros HL. unfold readLMTPFinalReplies. apply cwp_bind. eapply wp_mono; [apply read_finals_spec|].
  intros c1 r1 (o & -> & [(evs & replies & W1 & P1 & F & Pre & E)]). cbn beta match. destruct o as [results [e|]]; cbn [fst snd] in *.
  - destruct E as [U Ln]. apply cwp_ret. eexists _, evs. split_and!; [done|done|done|]. unfold contract. cbn [snd fst]. rewrite U.
    destruct Pre as [b G]. exists [], replies, b. by rewrite F.
  - destruct E as (G & Ln & S1). apply cwp_bind.
    eapply wp_mono; [apply no_extra_spec|]. intros c2 r2 (o & evs2 & -> & W2 & P2 & E2). cbn beta match.
    destruct o as [results2 [e2|]]; cbn [fst snd] in *.
    + destruct E2 as [-> U]. apply cwp_ret. eexists _, (evs ++ evs2).
      split_and!; [done|by eapply wire_trans|by rewrite payload_app, P1, P2|]. by apply contract_unknown.
    + destruct E2 as (-> & -> & S2). apply cwp_bind. eapply wp_mono; [apply watch_extends|].
      intros c3 r3 (-> & evs3 & [W3 _] & P3 & G3). cbn beta match. apply cwp_bind, cwp_modify, cwp_ret.
      destruct (unless_closed_extends (fun c => set_transaction (restore_base c) [] (smtpUTF8 c) (binaryMIME c)) c3) as [W4 _]; [done|].
      rewrite app_nil_r in W4, W2. eexists _, (evs ++ evs3).
      split_and!; [done|rewrite W4, W3, W2, W1; by rewrite <- app_assoc|by rewrite payload_app, P1, P3|].
      unfold contract. cbn [snd fst]. exists replies. split_and!; [done|done|]. rewrite HL, got_app, G, G3, app_nil_r. done.
Qed.

(** The final reply of SMTP. *)
Lemma smtp_final_spec rcpts c nb :
  closed c = false -> LMTP opts = false ->
  wp (bind_failing (on_error (finalStatusUnknown ($"DATA")) (read opts wd ($"DATA"))) (fun reply =>
      bind_failing (watch wd) (fun _ =>
      bind_failing (modify (unless_closed (fun c => set_transaction (restore_base c) [] false (binaryMIME c)))) (fun _ =>
      bind_failing (expect ($"DATA") reply [250]) (fun _ =>
      c1 ← get;
      done (map (fun r => recipientResult r ($"DATA") reply (enhancedStatusCodes c1)) rcpts) None)))))
    (fun c' r => exists o evs, r = Ok o /\ wire c' = wire c ++ evs /\ payload evs = [] /\
      contract ($"DATA") (enhancedStatusCodes c) rcpts evs nb o) c.
Proof.
  intros Hc HL. apply wp_bind_failing, wp_on_error. eapply wp_mono; [by apply read_final_spec|].
  intros c1 [reply|e] (evs & W1 & P1 & E); cbn beta match.
  2: { destruct E as [U D]. eexists _, evs. split_and!; [done|done|done|]. apply contract_read_error; [done|done|].
       destruct D as [D|(reply & G & D)]; [by left|right; by exists reply]. }
  destruct E as (-> & S1 & N & _). apply wp_bind_failing. eapply wp_mono; [apply watch_extends|].
  intros c2 r2 (-> & evs2 & [W2 E2] & P2 & G2). cbn beta match. apply wp_bind_failing, cwp_modify.
  set (c3 := unless_closed _ c2).
  destruct (unless_closed_extends (fun c => set_transaction (restore_base c) [] false (binaryMIME c)) c2) as [W3 E3]; [done|].
  fold c3 in W3, E3. rewrite app_nil_r in W3. apply session_ext in S1.
  assert (enhancedStatusCodes c3 = enhancedStatusCodes c) as En by (apply enhanced_ext; congruence).
  assert (wire c3 = wire c ++ [Got reply] ++ evs2) as W by (rewrite W3, W2, W1; by rewrite <- app_assoc).
  pose proof (contract_reply ($"DATA") (enhancedStatusCodes c) rcpts reply ([Got reply] ++ evs2) nb HL) as K.
  rewrite got_app, G2, app_nil_r in K. specialize (K eq_refl).
  apply wp_bind_failing. unfold expect. apply cwp_bind, cwp_get. rewrite En.
  apply wp_guard.
  - intros Un. rewrite Un in K. apply cwp_bind, cwp_get, cwp_ret. rewrite En. eexists _, _. split_and!; [done|exact W|by rewrite payload_app, P2|exact K].
  - intros e Un. rewrite Un in K. eexists _, _. split_and!; [done|exact W|by rewrite payload_app, P2|exact K].
Qed.

Definition no_end (evs : list wire_event) : Prop := lenient_scan true (payload evs) = None.

Lemma data_content_spec src rcpts c :
  closed c = false ->
  wp (data_content opts wd src rcpts) (fun c' r => exists o evs, r = Ok o /\ wire c' = wire c ++ evs /\
    contract ($"DATA") (enhancedStatusCodes c) rcpts evs (no_end evs) o /\
    (snd o = None -> payload evs = stuffed (concat (pieces src)))) c.
Proof.
  intros Hc. unfold wp, data_content. cbv beta.
  set (b0 := {| Writer.w := payload (wire c); Writer.pendingCR := false; Writer.atLineStart := true;
    Writer.wroteAny := false; Writer.lastByte := x00; Writer.closed := false |} : Writer.DotStuffWriter bytes).
  pose proof (transfer_spec (pieces src) (src_err src) (Writer.NewDotStuffWriter c) b0) as T.
  destruct (transfer wd (pieces src) (src_err src) (Writer.NewDotStuffWriter c)) as [dw r].
  assert (abs b0 = {| b_cr := false; b_ls := true; b_out := payload (wire c) ++ [] |}) as A0 by (by rewrite app_nil_r).
  destruct T as (Wr & b & Lb & T); [by split|done|].
  assert (forall fed, brun (abs b0) fed = let s := brun start fed in
    {| b_cr := b_cr s; b_ls := b_ls s; b_out := payload (wire c) ++ b_out s |}) as Run.
  { intros fed. rewrite A0. apply brun_prefix. }
  destruct r as [e|].
  - destruct T as ([U Z] & [fed Fed] & Pre). cbn [fst snd].
    assert (writing c (poison (Writer.w dw))) as (_ & _ & _ & evs & W & G) by (transitivity (Writer.w dw); [exact Wr|apply poison_writing]).
    eexists _, evs. split_and!; [done|done| |done]. unfold contract. cbn [snd fst]. rewrite U. split; [done|]. left.
    apply (unclosed_no_end fed).
    assert (payload (wire c) ++ payload evs `prefix_of` payload (wire c) ++ b_out (brun start fed)) as P.
    { rewrite <- payload_app, <- W, poison_payload. replace (payload (wire c) ++ b_out (brun start fed)) with (Writer.w b); [done|].
      change (Writer.w b) with (b_out (abs b)). by rewrite Fed, Run. }
    by apply prefix_app_inv in P.
  - destruct T as (Ne & Fed & R & S1).
    pose proof (Close_sim (fun c => payload (wire c)) (raw_write_payload) dw b) as CS.
    pose proof (Close_R writing raw_write_writing dw) as CW. pose proof (Close_R same_session raw_write_session dw) as CSess.
    destruct (Writer.Close dw) as [dw' [e|]]; cbn [fst] in *.
    + cbn [fst snd].
      assert (writing c (poison (Writer.w dw'))) as (_ & _ & _ & evs & W & G).
      { etrans; [exact Wr|]. etrans; [exact CW|apply poison_writing]. }
      eexists _, evs. split_and!; [done|done| |done]. apply contract_unknown, unknown_plain, transport_plain. done.
    + specialize (CS dw' R Lb eq_refl). assert (writing c (Writer.w dw')) as (_ & _ & _ & evs & W & G) by (by transitivity (Writer.w dw)).
      assert (payload evs = stuffed (concat (pieces src))) as Body.
      { rewrite W, payload_app, Fed, Run in CS. unfold finish in CS. cbn [b_cr b_ls b_out] in CS.
        destruct (finish_brun (concat (pieces src))) as [F _]. specialize (F true []). unfold finish, start in *.
        unfold stuffed. rewrite body_close. cbn [app] in F. rewrite <- F.
        apply (app_inv_head (payload (wire c))). rewrite CS. repeat case_match; by rewrite <- ?app_assoc. }
      assert (closed (Writer.w dw') = false) as Hc' by (rewrite (session_closed _ c); [done|unfold same_session in CSess; cbn in S1; congruence]).
       assert (session (Writer.w dw') = session c) as S' by (unfold same_session in CSess; cbn in S1; congruence).
      change (wp (bind_failing (on_error (finalStatusUnknown ($"DATA")) (ctx_poison wd)) (fun _ =>
            if LMTP opts then readLMTPFinalReplies opts wd rcpts
            else bind_failing (on_error (finalStatusUnknown ($"DATA")) (read opts wd ($"DATA"))) (fun reply =>
              bind_failing (watch wd) (fun _ =>
              bind_failing (modify (unless_closed (fun c => set_transaction (restore_base c) [] false (binaryMIME c)))) (fun _ =>
              bind_failing (expect ($"DATA") reply [250]) (fun _ =>
              c1 ← get;
              done (map (fun r => recipientResult r ($"DATA") reply (enhancedStatusCodes c1)) rcpts) None))))))
        (fun c' r => exists o evs, r = Ok o /\ wire c' = wire c ++ evs /\
          contract ($"DATA") (enhancedStatusCodes c) rcpts evs (no_end evs) o /\
          (snd o = None -> payload evs = stuffed (concat (pieces src)))) (Writer.w dw')).
      apply wp_bind_failing, wp_on_error. eapply wp_mono; [apply ctx_poison_writing|].
      intros c1 [[]|e] (Wr1 & O1 & E1); cbn beta match.
      2: { destruct E1 as [[k ->] _]. destruct Wr1 as (_ & _ & _ & evs1 & W1 & G1).
           eexists _, (evs ++ evs1). split_and!; [done|by eapply wire_trans| |done]. by apply contract_unknown. }
      destruct E1 as (S1' & W1 & _). assert (closed c1 = false) as Hc1 by (by rewrite (session_closed c1 (Writer.w dw'))).
      assert (enhancedStatusCodes c1 = enhancedStatusCodes c) as En by (apply enhanced_session; congruence).
      assert (forall c2 (r : result cerr data_outcome), (exists o evs2, r = Ok o /\ wire c2 = wire c1 ++ evs2 /\ payload evs2 = [] /\
          contract ($"DATA") (enhancedStatusCodes c1) rcpts evs2 False o) ->
        exists o evs, r = Ok o /\ wire c2 = wire c ++ evs /\
          contract ($"DATA") (enhancedStatusCodes c) rcpts evs (no_end evs) o /\
          (snd o = None -> payload evs = stuffed (concat (pieces src)))) as Finish.
      { intros c2 r (o & evs2 & -> & W2 & P2 & K). exists o, (evs ++ evs2). split_and!; [done|by rewrite W2, W1, W, <- app_assoc| |].
        - rewrite En in K. apply (contract_before _ _ _ _ _ False); [done|exact K].
        - intros _. by rewrite payload_app, P2, app_nil_r. }
      destruct (LMTP opts) eqn:HL.
      * eapply wp_mono; [by apply lmtp_final_spec|]. apply Finish.
      * eapply wp_mono; [by apply smtp_final_spec|]. apply Finish.
Qed.

(** What counts as not begun for DATA: at most the command line, then content without an end. *)
Definition data_line : bytes := $"DATA" ++ CRLF.
Definition data_not_begun (evs : list wire_event) : Prop :=
  exists a b, evs = a ++ b /\ payload a `prefix_of` data_line /\ no_end b.

Lemma nothing_begun a : payload a = [] -> data_not_begun a.
Proof. intros P. exists a, []. rewrite app_nil_r, P. split_and!; [done|apply prefix_nil|done]. Qed.

Lemma contract_early command enhanced rcpts evs (nb : Prop) e :
  is_unknown e = false -> nb -> contract command enhanced rcpts evs nb ([], Some e).
Proof. intros U N. unfold contract. cbn [snd fst]. rewrite U. split; [done|by left]. Qed.

Lemma unexpected_known command reply en want e : unexpectedReply command reply en want = Some e -> is_unknown e = false.
Proof.
  unfold unexpectedReply. destruct (existsb _ want); [done|]. destruct (0 <? _); intros [= <-]; [|done].
  unfold replyError. by destruct (reply_parts _ _).
Qed.

Lemma invalidState_open command have allowed :
  invalidState command have allowed = None -> In have allowed.
Proof.
  unfold invalidState. destruct (existsb _ allowed) eqn:E; [|done]. intros _. apply existsb_exists in E as (s & I & E).
  unfold sessionState_eqb in E. by apply bool_decide_eq_true in E as ->.
Qed.

(** The shape of every outcome: the call returns, and what happened fits the contract. *)
Definition keeps (command : bytes) (c : connection) (nb : list wire_event -> Prop) (sent_all : list wire_event -> Prop)
    (c' : connection) (r : result cerr data_outcome) : Prop :=
  exists o evs, r = Ok o /\ wire c' = wire c ++ evs /\
    contract command (enhancedStatusCodes c) (recipients c) evs (nb evs) o /\ (snd o = None -> sent_all evs).

Lemma keeps_early command c nb sent_all c' e :
  wire c' = wire c -> is_unknown e = false -> nb [] -> keeps command c nb sent_all c' (Ok ([], Some e)).
Proof.
  intros W U N. exists ([], Some e), []. rewrite app_nil_r. split_and!; [done|done|by apply contract_early|done].
Qed.

Lemma data_command_spec src c :
  wp (data_command opts wd src) (keeps ($"DATA") c data_not_begun (fun evs => payload evs = data_line ++ stuffed (concat (pieces src)))) c.
Proof.
  unfold data_command. apply wp_bind_failing. eapply wp_mono; [apply ctx_check_spec|].
  intros c1 [[]|e1] [(S1 & W1 & _) E1]; cbn beta match.
  2: { destruct E1 as [k ->]. by apply keeps_early, nothing_begun. }
  apply cwp_bind, cwp_get, wp_bind_failing, wp_guard.
  2: { intros e E. apply keeps_early; [done| |by apply nothing_begun]. unfold invalidState in E. by case_match; simplify_eq. }
  intros I%invalidState_open. assert (closed c1 = false) as Hc1.
  { destruct I as [I|[]]. unfold closed. by rewrite <- I. }
  assert (recipients c1 = recipients c /\ enhancedStatusCodes c1 = enhancedStatusCodes c) as [R1 En1].
  { split; [by injection S1|by apply enhanced_session]. }
  destruct (_ && _); [apply cwp_ret, keeps_early; [done|done|by apply nothing_begun]|].
  apply wp_bind_failing. eapply wp_mono; [by apply execute_one_spec|]. intros c2 [reply|e2] (evs & W2 & E2); cbn beta match.
  2: { exists ([], Some e2), evs. split_and!; [done|congruence| |done]. apply contract_early.
       - destruct (is_unknown e2) eqn:U; [|done]. by pose proof (one_unknown _ _ _ E2 U).
       - exists evs, []. rewrite app_nil_r. split_and!; [done| |done]. pose proof (one_part _ _ _ E2) as P. exact P. }
  destruct E2 as (S2 & N & line & L & ->). injection L as <-.
  assert (enhancedStatusCodes c2 = enhancedStatusCodes c) as En2 by (rewrite (enhanced_session c1 c2); done).
  apply wp_bind_failing. unfold expect. apply cwp_bind, cwp_get, wp_guard.
  2: { intros e E. eexists ([], Some e), _. split_and!; [done|by rewrite W2, W1| |done].
       apply contract_early; [by eapply unexpected_known|]. eexists _, []. rewrite app_nil_r. split_and!; [done| |done]. done. }
  intros _. apply cwp_bind. eapply wp_mono; [apply data_content_spec; by rewrite (session_closed c2 c1)|].
  intros c3 r3 (o & evs3 & -> & W3 & K & Body). cbn beta match. apply cwp_bind. eapply wp_mono; [apply watch_extends|].
  intros c4 r4 (-> & evs4 & [W4 _] & P4 & G4). cbn beta match. apply cwp_ret.
  set (first := [Wrote data_line; Got reply]).
  exists o, (first ++ evs3 ++ evs4). rewrite En2, R1 in K. split_and!; [done|rewrite W4, W3, W2, W1; by rewrite <- !app_assoc| |].
  - assert (contract ($"DATA") (enhancedStatusCodes c) (recipients c) (evs3 ++ evs4) (no_end evs3) o) as K4.
    { unfold contract in *. by rewrite got_app, G4, app_nil_r. }
    eapply contract_before; [|exact K4]. intros Ne. exists first, (evs3 ++ evs4). split_and!; [done|done|].
    unfold no_end. by rewrite payload_app, P4, app_nil_r.
  - intros F. rewrite !payload_app, P4, app_nil_r, (Body F). done.
Qed.

(** ** BDAT *)

Definition frame (last : bool) (chunk : bytes) : bytes :=
  $"BDAT " ++ FormatUint (Z.of_nat (length chunk)) ++ (if last then $" LAST" else []) ++ CRLF ++ chunk.

Lemma copyN_raw cuts c s fin k :
  let '(c', _, _, err) := copyN (raw_write wd) cuts c s fin (length s) k in
  writing c c' /\ exists part, payload (wire c') = payload (wire c) ++ part /\ part `prefix_of` s /\
    (err = None -> part = s /\ session c' = session c).
Proof.
  revert c s k. induction cuts as [|n cuts IH]; intros c s k; destruct s as [|b s]; try (cbn; split; [done|]; exists []; by rewrite app_nil_r).
  - cbn [copyN length]. set (t := b :: s) in *. change (S (length s)) with (length t). rewrite firstn_all.
    pose proof (raw_write_writing c t) as Wr. pose proof (raw_write_session c t) as Se. pose proof (raw_write_payload c t) as P.
    destruct (raw_write wd c t) as [c' [e|]]; cbn [fst] in *.
    + split; [done|]. destruct P as [k' P]. exists (take k' t). split_and!; [done|exists (drop k' t); by rewrite take_drop|done].
    + split; [done|]. by exists t.
  - cbn [copyN length]. set (t := b :: s) in *. change (S (length s)) with (length t).
    set (piece := take (Nat.min (S n) (length t)) t).
    pose proof (raw_write_writing c piece) as Wr. pose proof (raw_write_session c piece) as Se. pose proof (raw_write_payload c piece) as P.
    assert (t = piece ++ drop (length piece) t) as Et.
    { unfold piece. rewrite length_take, (Nat.min_l (Nat.min _ _)) by lia. by rewrite take_drop. }
    destruct (raw_write wd c piece) as [c1 [e|]]; cbn [fst] in *.
    + split; [done|]. destruct P as [k' P]. exists (take k' piece). split_and!; [done| |done].
      rewrite Et. exists (drop k' piece ++ drop (length piece) t). rewrite app_assoc. by rewrite (take_drop k' piece).
    + assert (length t - length piece = length (drop (length piece) t))%nat as -> by (by rewrite length_drop).
      specialize (IH c1 (drop (length piece) t) (k + length piece)%nat).
      destruct (copyN (raw_write wd) cuts c1 _ fin _ _) as [[[c2 rest] m] err]. destruct IH as (W2 & part & P2 & Pre & Ok2).
      split; [by etrans|]. exists (piece ++ part). split_and!.
      * rewrite P2, P. by rewrite <- app_assoc.
      * rewrite Et. by apply prefix_app.
      * intros E. destruct (Ok2 E) as [-> S2]. split; [by rewrite <- Et|]. unfold same_session in Se. congruence.
Qed.

Lemma encode_frame chunk last line :
  EncodeBDATCommand (Z.of_nat (length chunk)) last bdat_limits = Ok line -> frame last chunk = line ++ chunk.
Proof.
  unfold EncodeBDATCommand, frame. destruct (checkBDATSize _ _); [done|]. intros [= <-]. cbn. by rewrite <- !app_assoc.
Qed.

Lemma writeBDATChunk_spec chunk last c :
  wp (writeBDATChunk wd chunk last) (fun c' r => ext c' = ext c /\ exists evs, wire c' = wire c ++ evs /\ got evs = [] /\
    payload evs `prefix_of` frame last chunk /\
    match r with
    | Ok _ => payload evs = frame last chunk /\ (session c' = session c \/ closed c' = true)
    | Err e => plain_error e
    end) c.
Proof.
  unfold writeBDATChunk, wp.
  assert (forall c1 e part, writing c c1 -> ext c1 = ext c -> payload (wire c1) = payload (wire c) ++ part -> part `prefix_of` frame last chunk -> plain_error e ->
    ext (poison c1) = ext c /\ exists evs, wire (poison c1) = wire c ++ evs /\ got evs = [] /\ payload evs `prefix_of` frame last chunk /\ plain_error e) as Bad.
  { intros c1 e part Wr X P Pre Pl. assert (writing c (poison c1)) as (_ & _ & _ & evs & W & G) by (etrans; [exact Wr|apply poison_writing]).
    split; [by rewrite poison_ext|]. exists evs. split_and!; [done|done| |by destruct Pl..].
    assert (payload evs = part) as ->; [|done]. apply (app_inv_head (payload (wire c))).
    by rewrite <- payload_app, <- W, poison_payload. }
  destruct (EncodeBDATCommand _ _ _) as [line|we] eqn:En; cbn [fst snd].
  2: { apply (Bad c _ []); [done|done|by rewrite app_nil_r|apply prefix_nil|by apply transport_plain]. }
  apply encode_frame in En.
  pose proof (raw_write_writing c line) as Wr1. pose proof (raw_write_session c line) as Se1. pose proof (raw_write_payload c line) as P1.
  destruct (raw_write wd c line) as [c1 [e1|]]; cbn [fst snd] in *; pose proof (session_ext _ _ Se1) as X1.
  { destruct P1 as [k P1]. apply (Bad c1 _ (take k line)); [done|done|done| |by apply transport_plain].
    rewrite En. exists (drop k line ++ chunk). rewrite app_assoc. by rewrite take_drop. }
  unfold CopyBDATChunk. destruct (checkBDATSize _ _) as [we|] eqn:Ck; cbn [fst snd].
  { apply (Bad c1 _ line); [done|done|done|rewrite En; by eexists|by apply transport_plain]. }
  cbn [unread final]. rewrite Nat2Z.id.
  pose proof (copyN_raw (w_cuts wd (clock c1)) c1 chunk EOF 0) as Cp.
  destruct (copyN (raw_write wd) (w_cuts wd (clock c1)) c1 chunk EOF (length chunk) 0) as [[[c2 rest] m] err] eqn:Cp0.
  destruct Cp as (Wr2 & part & P2 & Pre & Ok2).
  assert (writing c c2) as Wr by (by etrans).
  assert (ext c2 = ext c) as X2.
  { apply (copyN_inv (raw_write wd) (fun c' => ext c' = ext c)) in Cp0 as [X2 _]; [done| |done].
    intros d p Xd. by rewrite (session_ext _ _ (raw_write_session d p)). }
  assert (payload (wire c2) = payload (wire c) ++ line ++ part) as P by (by rewrite P2, P1, <- app_assoc).
  assert (line ++ part `prefix_of` frame last chunk) as Pre2 by (rewrite En; by apply prefix_app).
  assert (forall e, plain_error e -> ext (poison c2) = ext c /\ exists evs, wire (poison c2) = wire c ++ evs /\ got evs = [] /\
    payload evs `prefix_of` frame last chunk /\ plain_error e) as Bad2 by (intros e; by apply Bad with (line ++ part)).
  destruct err as [[e|e]|]; cbn [fst snd]; [destruct e; by apply Bad2, transport_plain|by apply Bad2, transport_plain|].
  destruct (Ok2 eq_refl) as [-> S2]. rewrite <- En in P.
  assert (session c2 = session c) as S by (unfold same_session in Se1; congruence).
  assert (exists evs, wire c2 = wire c ++ evs /\ got evs = [] /\ payload evs = frame last chunk) as (evs & W & G & Pe).
  { destruct Wr as (_ & _ & _ & evs & W & G). exists evs. split_and!; [done|done|]. apply (app_inv_head (payload (wire c))).
    by rewrite <- payload_app, <- W. }
  change (wp (ctx_poison wd;; watch wd) (fun c' r => ext c' = ext c /\ exists evs, wire c' = wire c ++ evs /\ got evs = [] /\
    payload evs `prefix_of` frame last chunk /\
    match r with
    | Ok _ => payload evs = frame last chunk /\ (session c' = session c \/ closed c' = true)
    | Err e => plain_error e
    end) c2).
  apply cwp_bind. eapply wp_mono; [apply ctx_poison_spec|]. intros c3 [[]|e3]; cbn beta match.
  2: { intros [[k ->] ->]. by apply (Bad (tick c2) (Ctx k) (frame last chunk)). }
  intros (S3 & W3 & _). eapply wp_mono; [apply watch_spec|]. intros c4 r4 [-> D]. cbn beta match.
  destruct D as [(S4 & W4 & _)| ->].
  - split; [apply session_ext; congruence|]. exists evs. rewrite Pe. split_and!; [congruence|done|done|done|left; congruence].
  - split; [rewrite poison_ext; change (ext c3 = ext c); apply session_ext; congruence|]. exists (evs ++ hangup c3).
    rewrite payload_app, Pe, got_app, G. assert (payload (hangup c3) = [] /\ got (hangup c3) = []) as [-> ->] by (unfold hangup; by destruct (closed c3)).
    rewrite !app_nil_r. split_and!; [|done|done|done|right; apply poison_closed].
    rewrite poison_wire. change (wire (tick c3)) with (wire c3). rewrite W3, W. by rewrite <- app_assoc.
Qed.

(** The replies to the last chunk: [first] was read. *)
Lemma bdat_final_spec rcpts first c nb :
  rcpts <> [] ->
  wp (bdatFinalReplies opts wd rcpts first) (fun c' r => exists o evs, r = Ok o /\ wire c' = wire c ++ evs /\ payload evs = [] /\
    contract ($"BDAT") (enhancedStatusCodes c) rcpts (Got first :: evs) nb o) c.
Proof.
  intros Hr. unfold bdatFinalReplies. destruct (LMTP opts) eqn:HL; cbn [negb].
  - destruct rcpts as [|rc rcpts]; [done|]. apply cwp_bind, cwp_get, cwp_bind. eapply wp_mono; [apply read_finals_spec|].
    intros c1 r1 (o & -> & [(evs & replies & W1 & P1 & F & Pre & E)]). cbn beta match zeta. destruct o as [results [e|]]; cbn [fst snd] in *.
    + destruct E as [U Ln]. apply cwp_ret. eexists _, evs. split_and!; [done|done|done|]. unfold contract. cbn [snd fst]. rewrite U.
      destruct Pre as [b G]. exists [], (first :: replies), b. cbn. by rewrite F, G.
    + destruct E as (G & Ln & S1). eapply wp_mono; [apply no_extra_spec|]. intros c2 r2 (o & evs2 & -> & W2 & P2 & E2).
      eexists _, (evs ++ evs2). split_and!; [done|by eapply wire_trans|by rewrite payload_app, P1, P2|].
      destruct o as [results2 [e2|]]; cbn [fst snd] in E2.
      * destruct E2 as [-> U]. by apply contract_unknown.
      * destruct E2 as (-> & -> & S2). unfold contract. cbn [snd fst]. exists (first :: replies).
        rewrite app_nil_r, HL. cbn. rewrite G, F, Ln. done.
  - apply wp_bind_failing. unfold expect. apply cwp_bind, cwp_get.
    pose proof (contract_reply ($"BDAT") (enhancedStatusCodes c) rcpts first [Got first] nb HL eq_refl) as K.
    apply wp_guard.
    + intros Un. rewrite Un in K. apply cwp_bind, cwp_get, cwp_ret. eexists _, []. by rewrite app_nil_r.
    + intros e Un. rewrite Un in K. eexists _, []. by rewrite app_nil_r.
Qed.

(** Content cut into chunks of [n], the rest in the last frame. *)
Definition full_chunks (n : nat) (chunks : list bytes) : Prop := Forall (fun k => length k = n) chunks.
Definition bdat_not_begun (n : nat) (content : bytes) (evs : list wire_event) : Prop :=
  exists chunks rest, content = concat chunks ++ rest /\ full_chunks n chunks /\
    payload evs `prefix_of` concat (map (frame false) chunks).
Definition bdat_sent (n : nat) (content : bytes) (evs : list wire_event) : Prop :=
  exists chunks rest, content = concat chunks ++ rest /\ full_chunks n chunks /\ (length rest < n)%nat /\
    payload evs = concat (map (frame false) chunks) ++ frame true rest.

Lemma bdat_nothing n content evs : payload evs = [] -> bdat_not_begun n content evs.
Proof. intros P. exists [], content. rewrite P. split_and!; [done|constructor|done]. Qed.

(** One more chunk in front. *)
Lemma bdat_more_not_begun n content a evs :
  (n <= length content)%nat -> payload a = frame false (take n content) ->
  bdat_not_begun n (drop n content) evs -> bdat_not_begun n content (a ++ evs).
Proof.
  intros Ln P (chunks & rest & E & F & Pre). exists (take n content :: chunks), rest. cbn [concat map].
  rewrite <- app_assoc, <- E, take_drop, payload_app, P. split_and!; [done|constructor; [rewrite length_take; lia|done]|by apply prefix_app].
Qed.

Lemma bdat_more_sent n content a evs :
  (n <= length content)%nat -> payload a = frame false (take n content) ->
  bdat_sent n (drop n content) evs -> bdat_sent n content (a ++ evs).
Proof.
  intros Ln P (chunks & rest & E & F & Lr & Pre). exists (take n content :: chunks), rest. cbn [concat map].
  rewrite <- app_assoc, <- E, take_drop, payload_app, P, Pre. split_and!; [done|constructor; [rewrite length_take; lia|done]|done|by rewrite app_assoc].
Qed.

Lemma bdat_first_not_begun n content evs :
  (n <= length content)%nat -> payload evs `prefix_of` frame false (take n content) -> bdat_not_begun n content evs.
Proof.
  intros Ln P. exists [take n content], (drop n content). cbn. rewrite !app_nil_r, take_drop.
  split_and!; [done|constructor; [rewrite length_take; lia|constructor]|done].
Qed.

(** The read after the last chunk, classified as the server's final word. *)
Lemma bdat_read_error enhanced rcpts e evs nb :
  is_unknown e = false -> (plain_error e \/ exists reply, got evs = [reply] /\ Reply.Code reply = 421) ->
  contract ($"BDAT") enhanced rcpts evs nb ([], Some (classifyFinalReplyFailure opts ($"BDAT") e)).
Proof.
  intros U D. unfold classifyFinalReplyFailure. destruct (LMTP opts) eqn:HL; [apply contract_unknown, stream_unknown|].
  by apply contract_read_error.
Qed.

(** After the last chunk: its reply and what follows. *)
Definition bdat_tail (rcpts : list bytes) : C data_outcome :=
  bind_failing (on_error (classifyFinalReplyFailure opts ($"BDAT")) (read opts wd ($"BDAT"))) (fun reply =>
    modify (fun c => set_transaction c (recipients c) (smtpUTF8 c) false);;
    modify (unless_closed (fun c => set_transaction (restore_base c) [] (smtpUTF8 c) (binaryMIME c)));;
    bdatFinalReplies opts wd rcpts reply).

Lemma bdat_tail_spec rcpts c nb :
  rcpts <> [] ->
  wp (bdat_tail rcpts) (fun c' r => exists o evs, r = Ok o /\ wire c' = wire c ++ evs /\ payload evs = [] /\
    contract ($"BDAT") (enhancedStatusCodes c) rcpts evs nb o) c.
Proof.
  intros Hr. apply wp_bind_failing, wp_on_error. eapply wp_mono; [apply read_final_spec|].
  intros c1 [reply|e] (evs & W1 & P1 & E); cbn beta match.
  2: { destruct E as [U D]. eexists _, evs. split_and!; [done|done|done|]. apply bdat_read_error; [done|].
       destruct D as [D|(reply & G & D)]; [by left|right; by exists reply]. }
  destruct E as (-> & S1 & N & _). apply cwp_bind, cwp_modify, cwp_bind, cwp_modify.
  set (c2 := set_transaction c1 (recipients c1) (smtpUTF8 c1) false).
  set (c3 := unless_closed (fun c => set_transaction (restore_base c) [] (smtpUTF8 c) (binaryMIME c)) c2).
  destruct (unless_closed_extends (fun c => set_transaction (restore_base c) [] (smtpUTF8 c) (binaryMIME c)) c2) as [W3 X3]; [done|].
  fold c3 in W3, X3. rewrite app_nil_r in W3. change (wire c2) with (wire c1) in W3. change (ext c2) with (ext c1) in X3.
  apply session_ext in S1. eapply wp_mono; [by apply (bdat_final_spec rcpts reply c3 nb)|].
  intros c4 r4 (o & evs & -> & W4 & P4 & K). exists o, (Got reply :: evs).
  split_and!; [done|rewrite W4, W3, W1; by rewrite <- app_assoc|done|].
  by rewrite (enhanced_ext c c3) in K by congruence.
Qed.

Definition bdat_post (n : nat) (content : bytes) (rcpts : list bytes) (c c' : connection) (r : result cerr data_outcome) : Prop :=
  exists o evs, r = Ok o /\ wire c' = wire c ++ evs /\
    contract ($"BDAT") (enhancedStatusCodes c) rcpts evs (bdat_not_begun n content evs) o /\
    (snd o = None -> bdat_sent n content evs).

Lemma bdat_post_error n content rcpts c c' e evs :
  is_unknown e = false -> wire c' = wire c ++ evs -> bdat_not_begun n content evs ->
  bdat_post n content rcpts c c' (Ok ([], Some e)).
Proof. intros U W N. exists ([], Some e), evs. split_and!; [done|done|by apply contract_early|done]. Qed.

(** The last chunk. *)
Lemma bdat_last_spec n content rcpts c0 c :
  (length content < n)%nat -> rcpts <> [] -> wire c = wire c0 -> ext c = ext c0 ->
  wp (bind_failing (on_error (finalStatusUnknown ($"BDAT")) (writeBDATChunk wd content true)) (fun _ => bdat_tail rcpts))
    (bdat_post n content rcpts c0) c.
Proof.
  intros Ln Hr W0 X0. apply wp_bind_failing, wp_on_error. eapply wp_mono; [apply writeBDATChunk_spec|].
  intros c1 [[]|e] (X1 & evs1 & W1 & G1 & Pre & E); cbn beta match.
  - destruct E as [P1 _]. eapply wp_mono; [by apply (bdat_tail_spec rcpts c1 False)|].
    intros c2 r (o & evs2 & -> & W2 & P2 & K). exists o, (evs1 ++ evs2).
    rewrite (enhanced_ext c0 c1) in K by congruence. split_and!; [done|rewrite W2, W1, W0; by rewrite <- app_assoc| |].
    + by eapply contract_before; [|exact K].
    + intros _. exists [], content. cbn. rewrite payload_app, P1, P2, app_nil_r. split_and!; [done|constructor|done|done].
  - eexists _, evs1. split_and!; [done|congruence| |done]. by apply contract_unknown, unknown_plain.
Qed.

(** A chunk that is not the last, and [k] after it. *)
Lemma bdat_chunk_spec n content rcpts c0 c (k : C data_outcome) :
  (n <= length content)%nat -> wire c = wire c0 -> ext c = ext c0 ->
  (forall c', wp k (bdat_post n (drop n content) rcpts c') c') ->
  wp (bind_failing (on_error (fun e => e) (writeBDATChunk wd (take n content) false)) (fun _ =>
      bind_failing (on_error (fun e => e) (read opts wd ($"BDAT"))) (fun reply =>
      bind_failing (expect ($"BDAT") reply [250]) (fun _ => k))))
    (bdat_post n content rcpts c0) c.
Proof.
  intros Ln W0 X0 Hk. apply wp_bind_failing, wp_on_error. eapply wp_mono; [apply writeBDATChunk_spec|].
  intros c1 [[]|e] (X1 & evs1 & W1 & G1 & Pre & E); cbn beta match.
  2: { apply bdat_post_error with evs1; [by destruct E|congruence|by apply bdat_first_not_begun]. }
  destruct E as [P1 _]. apply wp_bind_failing, wp_on_error. eapply wp_mono; [apply read_final_spec|].
  intros c2 [reply|e] (evs2 & W2 & P2 & E2); cbn beta match.
  2: { apply bdat_post_error with (evs1 ++ evs2); [by destruct E2|rewrite W2, W1, W0; by rewrite <- app_assoc|].
       apply bdat_first_not_begun; [done|]. by rewrite payload_app, P2, app_nil_r. }
  destruct E2 as (-> & S2 & N & _). apply session_ext in S2. apply wp_bind_failing. unfold expect. apply cwp_bind, cwp_get, wp_guard.
  2: { intros e E. apply bdat_post_error with (evs1 ++ [Got reply]); [by eapply unexpected_known|rewrite W2, W1, W0; by rewrite <- app_assoc|].
       apply bdat_first_not_begun; [done|]. by rewrite payload_app, P2, app_nil_r. }
  intros _. eapply wp_mono; [apply Hk|]. intros c3 r (o & evs3 & -> & W3 & K & All). exists o, ((evs1 ++ [Got reply]) ++ evs3).
  assert (payload (evs1 ++ [Got reply]) = frame false (take n content)) as P by (by rewrite payload_app, P2, app_nil_r).
  rewrite (enhanced_ext c0 c2) in K by congruence.
  split_and!; [done|rewrite W3, W2, W1, W0; by rewrite <- !app_assoc| |].
  - eapply contract_before; [|exact K]. by apply bdat_more_not_begun.
  - intros F. by apply bdat_more_sent; [| |apply All].
Qed.

Lemma bdat_loop_spec fuel n content err rcpts c :
  (0 < n)%nat -> (length content < fuel)%nat -> rcpts <> [] ->
  wp (bdat_loop opts wd fuel n content err rcpts) (bdat_post n content rcpts c) c.
Proof.
  intros Hn Hf Hr. revert content c Hf. induction fuel as [|fuel IH]; intros content c Hf; [lia|]. cbn [bdat_loop].
  apply wp_bind_failing. eapply wp_mono; [apply ctx_poison_spec|]. intros c1 [[]|e]; cbn beta match.
  2: { intros [[k ->] ->]. apply bdat_post_error with (hangup c); [done|by rewrite poison_wire|apply bdat_nothing; unfold hangup; by destruct (closed c)]. }
  intros (S1 & W1 & _). apply session_ext in S1. destruct (Nat.ltb_spec (length content) n) as [Ls|Lf]; cbn [andb].
  - rewrite take_ge by lia. destruct (read_fails err).
    + apply cwp_ret, bdat_post_error with []; [done|by rewrite app_nil_r|by apply bdat_nothing].
    + by apply bdat_last_spec.
  - change (wp (bind_failing (on_error (fun e => e) (writeBDATChunk wd (take n content) false)) (fun _ =>
      bind_failing (on_error (fun e => e) (read opts wd ($"BDAT"))) (fun reply =>
      bind_failing (expect ($"BDAT") reply [250]) (fun _ => bdat_loop opts wd fuel n (drop n content) err rcpts))))
      (bdat_post n content rcpts c) c1).
    apply bdat_chunk_spec; [done|done|done|]. intros c'. apply IH. rewrite length_drop. lia.
Qed.

End Final.
End ClientFinal.
