(* ===== verification/ClientTheorems.v ===== *)
(** * smtpclient: the properties of a Client's operations

    The outcome of the calls that complete a transaction, pipelining, what STARTTLS forgets, and what a
    cleartext session does not disclose. *)
From Stdlib Require Import ZArith Lia Bool.
From stdpp Require Import base list gmap strings.
From S2P Require Import Prelude GoStrings Utf8 Base64 Sasl Wire DotStuff Reply Command Path Ehlo Core.
From S2P Require Import NormTables Unicodenorm NormTheorems SaslprepTables Saslprep.
From S2P Require Import ServerParams ClientParams ClientCore Client ClientFacts ClientData ClientFinal.
Import smtpclient ClientFacts ClientFinal.

Module ClientTheorems.
Section Theorems.
Context `{Unicode} `{NetIP} `{RFC3339} `{MapOrder} `{Crypto} (opts : ClientOptions) (wd : world).

(** ** Data, BDAT and BURL *)

(** The chunk size [Data] uses. *)
Definition effective_size (size : Z) : nat := Z.to_nat (if size =? 0 then defaultBDATChunkSize else size).

Definition content_of (src : source) : bytes := concat (pieces src).

(** What a call of [Data] owes its caller, by transport. *)
Definition data_promise (src : source) (o : option DataOptions) (c : connection) :
    connection -> result cerr data_outcome -> Prop :=
  match o with
  | Some {| UseChunking := true; ChunkSize := size |} =>
      keeps opts ($"BDAT") c (bdat_not_begun (effective_size size) (content_of src))
        (bdat_sent (effective_size size) (content_of src))
  | _ => keeps opts ($"DATA") c data_not_begun (fun evs => payload evs = data_line ++ Spec.stuffed (content_of src))
  end.

Lemma bdat_keeps src size c :
  0 < size ->
  wp (bdat opts wd src size) (keeps opts ($"BDAT") c (bdat_not_begun (Z.to_nat size) (content_of src))
    (bdat_sent (Z.to_nat size) (content_of src))) c.
Proof.
  intros Hs. unfold bdat. apply wp_bind_failing. eapply wp_mono; [apply ctx_check_spec|].
  intros c1 [[]|e1] [(S1 & W1 & _) E1]; cbn beta match.
  2: { destruct E1 as [k ->]. by apply keeps_early, bdat_nothing. }
  apply cwp_bind, cwp_get, wp_bind_failing, wp_guard.
  2: { intros e E. apply keeps_early; [done| |by apply bdat_nothing]. unfold invalidState in E. by case_match; simplify_eq. }
  intros _. assert (recipients c1 = recipients c) as R1 by (by injection S1).
  destruct (recipients c1) as [|rc rs] eqn:Er; [by apply cwp_ret, keeps_early, bdat_nothing|].
  eapply wp_mono; [apply bdat_loop_spec; [lia|lia|done]|]. intros c2 r (o & evs & -> & W2 & K & All).
  exists o, evs. rewrite (enhanced_session c c1 S1) in K. rewrite <- R1. split_and!; [done|congruence|done|done].
Qed.

Lemma keeps_refused command nb sent_all e c :
  is_unknown e = false -> nb [] -> wp (done [] (Some e)) (keeps opts command c nb sent_all) c.
Proof. intros U N. by apply cwp_ret, keeps_early. Qed.

(** C9: The three-way contract of a completing call, whatever the server, the network and the caller's
    context do: [Data] returns; no error means a final status for every recipient and that exactly the
    content the caller's reader gave went out, dot-stuffed or framed in chunks; an error that wraps ErrFinalStatusUnknown comes
    with an authoritative prefix of the results; any other error comes with no result, and either the
    content's end was not begun on the wire or the server's last reply rejected it. *)
Theorem Data_outcome src o c : wp (Data opts wd src o) (data_promise src o c) c.
Proof.
  unfold Data. apply cwp_bind, cwp_get. unfold data_promise.
  destruct o as [[[] size]|]; try (destruct (binaryMIME c); [by apply keeps_refused, nothing_begun|apply data_command_spec]).
  destruct (negb _); [by apply keeps_refused, bdat_nothing|].
  destruct ((_ <=? 0) || _) eqn:Hs; [by apply keeps_refused, bdat_nothing|].
  apply orb_false_iff in Hs as [Hs _]. apply bdat_keeps. lia.
Qed.

Definition burl_line (url : bytes) : result wire_err bytes := EncodeCommand ($"BURL") [url; $"LAST"].

(** The same for BURL LAST, whose message body the server fetches: an error that does not wrap
    ErrFinalStatusUnknown means that no octet of the command went out, or that the server refused it. *)
Theorem BURL_outcome url c :
  wp (BURL opts wd url true) (keeps opts ($"BURL") c (fun evs => payload evs = [])
    (fun evs => burl_line url = Ok (payload evs))) c.
Proof.
  unfold BURL. destruct (_ || _ || _); [by apply keeps_refused|]. destruct (LMTP opts) eqn:HL; [by apply keeps_refused|].
  apply cwp_bind, cwp_get. destruct (negb _); [by apply keeps_refused|].
  destruct (recipients c) as [|rc rs] eqn:Er; [by apply keeps_refused|]. rewrite <- Er. cbn [app].
  apply wp_bind_failing. unfold burlLocked. apply cwp_bind. unfold require_state. apply cwp_bind, cwp_get, wp_guard.
  2: { intros e E. apply keeps_early; [done| |done]. unfold invalidState in E. by case_match; simplify_eq. }
  intros I%invalidState_open. assert (closed c = false) as Hc by (destruct I as [I|[]]; unfold closed; by rewrite <- I).
  eapply wp_mono; [by apply execute_one_spec|]. intros c2 [reply|e2] (evs & W2 & E2); cbn beta match.
  2: { exists ([], Some e2), evs. split_and!; [done|done| |done]. destruct (is_unknown e2) eqn:U; [by apply contract_unknown|].
       unfold contract. cbn [snd fst]. rewrite U. split; [done|].
       destruct (one_known _ _ _ E2 U eq_refl) as [P|(reply & G & Code)]; [by left|right; split; [done|]].
       exists reply. rewrite G. cbn. split; [done|lia]. }
  destruct E2 as (S2 & N & line & L & ->). apply cwp_bind, cwp_modify.
  set (c3 := unless_closed _ c2).
  destruct (unless_closed_extends (fun c => set_transaction (restore_base c) [] false false) c2) as [W3 X3]; [done|].
  fold c3 in W3, X3. rewrite app_nil_r in W3.
  assert (enhancedStatusCodes c3 = enhancedStatusCodes c) as En by (apply enhanced_ext; apply session_ext in S2; congruence).
  pose proof (contract_reply opts ($"BURL") (enhancedStatusCodes c) (recipients c) reply [Wrote line; Got reply]
    (payload [Wrote line; Got reply] = []) HL eq_refl) as K.
  apply wp_bind_failing. unfold expect. apply cwp_bind, cwp_get. rewrite En. apply wp_guard.
  - intros Un. rewrite Un in K. apply cwp_bind, cwp_get, cwp_ret. rewrite En. eexists _, _. split_and!; [done|by rewrite W3|exact K|].
    intros _. cbn [payload]. rewrite app_nil_r. exact L.
  - intros e Un. rewrite Un in K. eexists _, _. split_and!; [done|by rewrite W3|exact K|done].
Qed.

(** ** Pipelining *)

Lemma rcpt_commands_spec e utf8 rcpts commands :
  rcpt_commands e utf8 rcpts = Ok commands ->
  Forall2 (fun r cmd => exists arguments, rcptArgs e utf8 r = Ok arguments /\ cmd = command_of ($"RCPT") arguments false)
    rcpts commands.
Proof.
  revert commands. induction rcpts as [|r rcpts IH]; intros commands; cbn [rcpt_commands]; [intros [= <-]; constructor|].
  destruct (rcptArgs e utf8 r) as [arguments|] eqn:A; [|done]. destruct (rcpt_commands e utf8 rcpts) as [rest|]; [|done].
  intros [= <-]. constructor; [by exists arguments|by apply IH].
Qed.

(** C23: A RcptBatch that returns: every recipient's command went out once, in order, every recipient has the
    result its own reply gives, and the recipients with a 250 or 251 reply, and only they, joined those
    of the transaction. *)
Theorem RcptBatch_results rcpts c :
  wp (RcptBatch opts wd rcpts) (fun c' r => match r with
    | Ok results => exists lines replies evs,
        results = rcpt_results (enhancedStatusCodes c) rcpts replies /\ length replies = length rcpts /\
        Forall2 (fun r line => exists arguments, rcptArgs (ext c) (smtpUTF8 c) r = Ok arguments /\
          EncodeCommand ($"RCPT") arguments = Ok line) rcpts lines /\
        wire c' = wire c ++ evs /\ sent evs = lines /\ got evs = replies /\ fifo (depth c) [] evs /\
        recipients c' = recipients c ++
          map rc_Address (map fst (List.filter (fun p => accepts_rcpt (snd p)) (zip rcpts replies)))
    | Err _ => failed c c'
    end) c.
Proof.
  unfold RcptBatch, rcptBatch. apply cwp_bind. eapply wp_mono; [apply ctx_check_spec|].
  intros c1 [[]|e1] [I1 E1]; cbn beta match; [|by apply idle_failed].
  destruct rcpts as [|rc rcpts]; [by apply wp_fail, idle_failed|]. set (rs := rc :: rcpts). pose proof I1 as (S1 & W1 & _).
  apply cwp_bind, cwp_get, cwp_bind, wp_guard; [|intros; by apply idle_failed]. intros I%invalidState_open.
  assert (closed c1 = false) as Hc1 by (destruct I as [I|[]]; unfold closed; by rewrite <- I).
  apply cwp_bind, wp_lift; [|intros; by apply idle_failed]. intros commands Hcmd%rcpt_commands_spec.
  apply cwp_bind. eapply wp_mono; [by apply executeLocked_spec|]. intros c2 [replies|e2]; cbn beta match.
  2: { intros F. eapply (failed_trans c c1 c2 []); [done|by rewrite app_nil_r|done]. }
  intros (S2 & evs & lines & W2 & F2 & Se & Ge & Ln & Fi). apply cwp_bind, cwp_get, cwp_bind, cwp_modify, cwp_ret.
  assert (closed c2 = false) as Hc2 by (by rewrite (session_closed c2 c1)).
  assert (unless_closed (fun c => set_transaction c (recipients c ++ rcpt_accepted rs replies) (smtpUTF8 c) (binaryMIME c)) c2 =
    set_transaction c2 (recipients c2 ++ rcpt_accepted rs replies) (smtpUTF8 c2) (binaryMIME c2)) as -> by (unfold unless_closed; by rewrite Hc2).
  assert (session c2 = session c) as S by congruence. rewrite (depth_session c c1 S1) in Fi.
  assert (ext c1 = ext c /\ smtpUTF8 c1 = smtpUTF8 c) as [Ex Eu] by (injection S1; by split).
  assert (recipients c2 = recipients c) as Rc by (injection S; done).
  exists lines, replies, evs. cbn [recipients set_transaction wire]. rewrite (enhanced_session c c2 S), Rc. split_and!; try done.
  - rewrite Ln, length_map. symmetry. by apply Forall2_length in Hcmd.
  - clear -F2 Hcmd Ex Eu. rewrite <- Ex, <- Eu. revert lines F2. induction Hcmd as [|r cmd l l' (arguments & A & ->) Hcmd IH]; intros lines F2;
      inversion F2; subst; constructor; [by exists arguments|by apply IH].
  - change (wire c2 = wire c ++ evs). congruence.
  - unfold rcpt_accepted. by rewrite map_map.
Qed.

End Theorems.
End ClientTheorems.
