(* ===== verification/ClientInvariant.v ===== *)
(** * smtpclient: what holds of a Client between its calls

    The calls of a Client as data, their sequences from [NewClient], and the invariant they keep. *)
From Stdlib Require Import ZArith Lia Bool.
From stdpp Require Import base list gmap strings.
From S2P Require Import Prelude GoStrings Utf8 Base64 Sasl Wire DotStuff Reply Command Path Ehlo Core.
From S2P Require Import NormTables Unicodenorm NormTheorems SaslprepTables Saslprep.
From S2P Require Import ServerParams ClientParams ClientCore Client ClientFacts ClientData ClientFinal.
Import smtpclient ClientFacts ClientData ClientFinal.

Module ClientInvariant.

(** ** The invariant *)

(** The connection is closed by its last event, once. *)
Definition shut (c : connection) : Prop :=
  if closed c then exists evs, wire c = evs ++ [Hangup] /\ Hangup ∉ evs else Hangup ∉ wire c.

Record wf (c : connection) : Prop := {
  wf_shut : shut c;
  wf_base : state c = stateTransaction -> In (transactionBase c) greeted;
  wf_recipients : In (state c) (stateConnected :: greeted) -> recipients c = [];
  wf_tls : state c = stateTLS \/ transactionBase c = stateTLS -> tls c = true
}.

(** ** Steps that may only close the session *)

Record quiet (c c' : connection) : Prop := {
  quiet_shut : shut c -> shut c';
  quiet_state : state c' = state c \/ state c' = stateClosed;
  quiet_base : transactionBase c' = transactionBase c;
  quiet_recipients : recipients c' = recipients c;
  quiet_tls : tls c' = tls c
}.

#[local] Instance quiet_pre : PreOrder quiet.
Proof.
  split; [split; auto|]. intros c1 c2 c3 [Sh1 St1 B1 R1 T1] [Sh2 St2 B2 R2 T2]. split; try congruence; [auto|].
  destruct St2 as [E|E]; [by rewrite E|by right].
Qed.

Lemma quiet_wf c c' : wf c -> quiet c c' -> wf c'.
Proof.
  intros [Sh B R T] [Q1 Q2 Q3 Q4 Q5]. split; [auto|..]; rewrite ?Q3, ?Q4, ?Q5; destruct Q2 as [E|E]; rewrite E; auto.
  - done.
  - intros [E1|[E1|[E1|[E1|[]]]]]; done.
  - intros [|]; [done|auto].
Qed.

Lemma poison_shut c : shut c -> shut (poison c).
Proof.
  intros Sh. unfold shut. rewrite poison_closed. unfold shut in Sh. destruct (closed c) eqn:E.
  - unfold poison. by rewrite E.
  - exists (wire c). by rewrite poison_wire, E.
Qed.

Lemma poison_quiet c : quiet c (poison c).
Proof.
  split; [apply poison_shut|right; apply closed_spec, poison_closed|..]; unfold poison; by destruct (closed c).
Qed.

(** An event that is recorded only while the connection is open. *)
Lemma record_quiet c e : closed c = false -> e <> Hangup -> quiet c (record c e).
Proof.
  intros Hc He. split; auto. unfold shut. change (closed (record c e)) with (closed c). rewrite Hc. cbn.
  rewrite elem_of_app, list_elem_of_singleton. intros Ni [?|?]; [done|congruence].
Qed.

Lemma unless_closed_quiet f c : (forall c, quiet c (f c)) -> quiet c (unless_closed f c).
Proof. intros F. unfold unless_closed. by destruct (closed c). Qed.

Section Quiet.
Context `{Unicode} `{NetIP} `{RFC3339} `{MapOrder} `{Crypto} (opts : ClientOptions) (wd : world).

Definition silent {A} (m : C A) : Prop := forall c, quiet c (fst (m c)).

Lemma silent_ret {A} (a : A) : silent (mret a).
Proof. intros c. reflexivity. Qed.
Lemma silent_bind {A B} (m : C A) (k : A -> C B) : silent m -> (forall a, silent (k a)) -> silent (m ≫= k).
Proof.
  intros Hm Hk c. specialize (Hm c). unfold mbind, C_bind. destruct (m c) as [c1 [a|e]]; cbn in *; [|done].
  etrans; [exact Hm|apply Hk].
Qed.
Lemma silent_fail {A} e : silent (@fail A e).
Proof. intros c. reflexivity. Qed.
Lemma silent_get : silent get.
Proof. intros c. reflexivity. Qed.
Lemma silent_poisoned {A} e : silent (@poisoned A e).
Proof. intros c. apply poison_quiet. Qed.
Lemma silent_on_error {A} f (m : C A) : silent m -> silent (on_error f m).
Proof. intros Hm c. specialize (Hm c). unfold on_error. by destruct (m c) as [c1 [a|e]]. Qed.
Lemma silent_lift {A} (r : result client_err A) : silent (lift r).
Proof. intros c. by destruct r. Qed.
Lemma silent_guard o : silent (guard_err o).
Proof. intros c. by destruct o. Qed.
Lemma silent_modify f : (forall c, quiet c (f c)) -> silent (modify f).
Proof. intros F c. apply F. Qed.
Lemma silent_bind_failing {A} (m : C A) (k : A -> C data_outcome) :
  silent m -> (forall a, silent (k a)) -> silent (bind_failing m k).
Proof.
  intros Hm Hk c. specialize (Hm c). unfold bind_failing. destruct (m c) as [c1 [a|e]]; cbn in *; [|done].
  etrans; [exact Hm|apply Hk].
Qed.

End Quiet.
Create HintDb client.
#[global] Hint Resolve silent_ret silent_bind silent_fail silent_get silent_poisoned silent_on_error silent_lift
  silent_guard silent_modify silent_bind_failing : client.

Section Operations.
Context `{Unicode} `{NetIP} `{RFC3339} `{MapOrder} `{Crypto} (opts : ClientOptions) (wd : world).

Lemma tick_quiet c : quiet c (tick c).
Proof. by split; auto. Qed.

Lemma silent_ctx_Err : silent (ctx_Err wd).
Proof. intros c. apply tick_quiet. Qed.
Lemma silent_ctx_check : silent (ctx_check wd).
Proof. unfold ctx_check. apply silent_bind; [apply silent_ctx_Err|]; auto with client. Qed.
Lemma silent_ctx_poison : silent (ctx_poison wd).
Proof. unfold ctx_poison. apply silent_bind; [apply silent_ctx_Err|intros [e|]]; auto with client. Qed.
Lemma silent_watch : silent (watch wd).
Proof. unfold watch. apply silent_bind; [apply silent_ctx_Err|intros [e|]]; auto using poison_quiet with client. Qed.
Lemma silent_trace d l : silent (trace opts d l).
Proof. apply silent_modify. intros c. destruct (Trace opts); [by split; auto|done]. Qed.

Lemma raw_write_quiet c p : quiet c (fst (raw_write wd c p)).
Proof.
  unfold raw_write. destruct (closed c) eqn:Hc; [apply tick_quiet|].
  destruct (w_write wd (clock c)) as [[k e]|]; cbn; (etrans; [apply tick_quiet|]); by apply record_quiet.
Qed.

Lemma set_stream_quiet c r : quiet c (set_stream c r (tls c)).
Proof. by split; auto. Qed.

Lemma silent_raw_read : silent (raw_read wd).
Proof.
  intros c. unfold raw_read. destruct (closed c) eqn:Hc; [apply tick_quiet|].
  destruct (read_arrived wd c) as [[[reply|e] rest]|]; cbn; [| |done].
  - etrans; [apply (set_stream_quiet c rest)|]. etrans; [apply tick_quiet|]. by apply record_quiet.
  - etrans; [apply (set_stream_quiet c rest)|apply tick_quiet].
Qed.

#[local] Hint Resolve silent_ctx_check silent_ctx_poison silent_watch silent_trace silent_raw_read : client.

Lemma silent_send_line command v arguments : silent (send_line wd command v arguments).
Proof.
  unfold send_line. apply silent_bind; [auto with client|]. intros _ c0. unfold mbind at 1, C_bind at 1, get. cbn [fst].
  destruct (EncodeCommand v arguments) as [line|e]; [|apply silent_bind; auto with client].
  pose proof (raw_write_quiet c0 line) as Q. destruct (raw_write wd c0 line) as [c1 err]. cbn [fst] in Q.
  unfold mbind at 1, C_bind at 1, modify. etrans; [exact Q|]. apply silent_bind; [auto with client|]. intros _. destruct err; auto with client.
Qed.

Lemma silent_write cmd : silent (write opts wd cmd).
Proof. unfold write. apply silent_bind; [apply silent_send_line|auto with client]. Qed.

Lemma silent_read command : silent (read opts wd command).
Proof.
  unfold read. apply silent_bind; [auto with client|]. intros _ c0. unfold mbind at 1, C_bind at 1, get. cbn [fst].
  pose proof (silent_raw_read c0) as Q. destruct (raw_read wd c0) as [c1 res]. cbn [fst] in Q.
  unfold mbind at 1, C_bind at 1, modify. etrans; [exact Q|]. apply silent_bind; [auto with client|]. intros _.
  destruct res as [reply|e]; [|auto with client]. apply silent_bind; [auto with client|]. intros _.
  destruct (_ =? _); [apply silent_bind|]; auto with client.
Qed.

#[local] Hint Resolve silent_write silent_read silent_send_line : client.

Lemma silent_issue commands room first bytes : silent (issue opts wd commands room first bytes).
Proof.
  revert room first bytes. induction commands as [|cmd commands IH]; intros [|room] first bytes; cbn [issue]; auto with client.
  destruct (_ <? _); [auto with client|]. destruct (_ && _); [auto with client|].
  apply silent_bind; [destruct (completes cmd); auto with client|]. intros _.
  apply silent_bind; [unfold classified; auto with client|]. intros _. destruct (syncPoint cmd); [auto with client|].
  apply silent_bind; auto with client.
Qed.

Lemma silent_collect issued : silent (collect opts wd issued).
Proof.
  induction issued as [|cmd issued IH]; cbn [collect]; [auto with client|].
  apply silent_bind; [unfold classified; auto with client|]. intros reply. apply silent_bind; auto with client.
Qed.

Lemma silent_rounds fuel commands : silent (rounds opts wd fuel commands).
Proof.
  revert commands. induction fuel as [|fuel IH]; intros [|cmd commands]; cbn [rounds]; auto with client.
  apply silent_bind; [auto with client|]. intros c0. apply silent_bind; [apply silent_issue|]. intros r.
  apply silent_bind; [apply silent_collect|]. intros replies. apply silent_bind; auto with client.
Qed.

Lemma silent_executeLocked commands : silent (executeLocked opts wd commands).
Proof.
  unfold executeLocked. destruct commands; [auto with client|]. apply silent_bind; [auto with client|]. intros cs.
  apply silent_bind; [auto with client|]. intros c0. destruct (closed c0); auto using silent_rounds with client.
Qed.

Lemma silent_execute_one cmd : silent (execute_one opts wd cmd).
Proof. unfold execute_one. apply silent_bind; [apply silent_executeLocked|]. intros []; auto with client. Qed.

#[local] Hint Resolve silent_executeLocked silent_execute_one : client.

Lemma silent_expect command reply want : silent (expect command reply want).
Proof. unfold expect. apply silent_bind; auto with client. Qed.

Lemma silent_require command allowed : silent (require_state command allowed).
Proof. unfold require_state. apply silent_bind; auto with client. Qed.

#[local] Hint Resolve silent_expect silent_require : client.

Lemma set_ext_quiet c e : quiet c (set_ext c e).
Proof. by split; auto. Qed.

Lemma silent_helo : silent (heloLocked opts wd).
Proof.
  unfold heloLocked. apply silent_bind; [auto with client|]. intros reply. apply silent_bind; [auto with client|]. intros _.
  apply silent_modify. intros c. apply unless_closed_quiet. intros. apply set_ext_quiet.
Qed.

Lemma silent_ehlo : silent (ehloLocked opts wd).
Proof.
  unfold ehloLocked. apply silent_bind; [auto with client|]. intros reply. destruct (_ && _); [apply silent_helo|].
  apply silent_bind; [auto with client|]. intros _. destruct (ParseEHLOReply _); [|auto with client].
  apply silent_modify. intros c. apply unless_closed_quiet. intros. apply set_ext_quiet.
Qed.

Lemma silent_commandLocked v arguments allowed : silent (commandLocked opts wd v arguments allowed).
Proof. unfold commandLocked. apply silent_bind; auto with client. Qed.

Lemma silent_command v arguments allowed : silent (command opts wd v arguments allowed).
Proof. unfold command. apply silent_bind; auto using silent_commandLocked with client. Qed.

Lemma silent_Noop : silent (Noop opts wd).
Proof. unfold Noop. apply silent_bind; [apply silent_command|auto with client]. Qed.

(** The calls whose reply is the result. *)
Lemma silent_reply_text v arguments allowed want :
  silent (reply ← command opts wd v arguments allowed; expect v reply want;; mret (Reply.Text reply)).
Proof.
  apply silent_bind; [apply silent_command|]. intros reply. apply silent_bind; auto with client.
Qed.

Lemma silent_Verify a : silent (Verify opts wd a).
Proof. unfold Verify. destruct (beq _ _); [auto with client|apply silent_reply_text]. Qed.
Lemma silent_Expand a : silent (Expand opts wd a).
Proof. unfold Expand. destruct (beq _ _); [auto with client|apply silent_reply_text]. Qed.
Lemma silent_Help a : silent (Help opts wd a).
Proof. apply silent_reply_text. Qed.
Lemma silent_ETRN a : silent (ETRN opts wd a).
Proof.
  unfold ETRN. destruct (negb _); [auto with client|]. apply silent_bind; [auto with client|]. intros c0.
  destruct (negb _); [auto with client|apply silent_reply_text].
Qed.
Lemma silent_ATRN domains : silent (ATRN opts wd domains).
Proof.
  unfold ATRN. destruct (negb _); [auto with client|]. apply silent_bind; [auto with client|]. intros c0.
  destruct (negb _); [auto with client|]. apply silent_bind; [apply silent_command|]. intros reply.
  apply silent_bind; auto with client.
Qed.

Lemma silent_quit : silent (quit_and_close opts wd).
Proof.
  intros c. unfold quit_and_close. set (m := _ ≫= _).
  assert (silent m) as S by (apply silent_bind; auto with client). specialize (S c).
  destruct (m c) as [c' r]. cbn in *. etrans; [exact S|apply poison_quiet].
Qed.
Lemma silent_Quit : silent (Quit opts wd).
Proof.
  unfold Quit. apply silent_bind; [auto with client|]. intros _. apply silent_bind; [auto with client|]. intros c0.
  destruct (closed c0); auto using silent_quit with client.
Qed.
Lemma silent_Close : silent (Close opts wd).
Proof.
  unfold Close. apply silent_bind; [auto with client|]. intros c0. destruct (closed c0); auto using silent_quit with client.
Qed.

(** ** The end of a transaction *)

Definition safe {A} (m : C A) : Prop := forall c, wf c -> wf (fst (m c)).

Lemma silent_safe {A} (m : C A) : silent m -> safe m.
Proof. intros S c W. eapply quiet_wf; [exact W|apply S]. Qed.

(** In one of the states [allowed], unless the connection was closed meanwhile. *)
Definition within (allowed : list sessionState) (c : connection) : Prop :=
  wf c /\ (In (state c) allowed \/ closed c = true).
Definition from {A} (allowed : list sessionState) (m : C A) : Prop := forall c, within allowed c -> wf (fst (m c)).

Lemma quiet_within allowed c c' : within allowed c -> quiet c c' -> within allowed c'.
Proof.
  intros [W D] Q. split; [by eapply quiet_wf|]. destruct Q as [_ St _ _ _]. destruct St as [E|E]; [|right; by apply closed_spec].
  destruct D as [D|D]; [left; by rewrite E|right]. apply closed_spec in D. apply closed_spec. congruence.
Qed.

Lemma from_silent {A} allowed (m : C A) : silent m -> from allowed m.
Proof. intros S c [W _]. by apply silent_safe. Qed.

Lemma from_bind {A B} allowed (m : C A) (k : A -> C B) : silent m -> (forall a, from allowed (k a)) -> from allowed (m ≫= k).
Proof.
  intros S Hk c T. specialize (S c). pose proof (quiet_within _ _ _ T S) as T1. unfold mbind, C_bind.
  destruct (m c) as [c1 [a|e]]; cbn in *; [by apply Hk|apply T1].
Qed.

Lemma from_bind_failing {A} allowed (m : C A) (k : A -> C data_outcome) :
  silent m -> (forall a, from allowed (k a)) -> from allowed (bind_failing m k).
Proof.
  intros S Hk c T. specialize (S c). pose proof (quiet_within _ _ _ T S) as T1. unfold bind_failing.
  destruct (m c) as [c1 [a|e]]; cbn in *; [by apply Hk|apply T1].
Qed.

(** The state check of a call. *)
Lemma guard_within {B} command allowed (k : unit -> C B) c :
  wf c -> from allowed (k tt) -> wf (fst ((guard_err (invalidState command (state c) allowed) ≫= k) c)).
Proof.
  intros W Hk. unfold mbind, C_bind. destruct (invalidState _ _ _) eqn:I; [done|]. apply Hk.
  split; [done|left]. by apply invalidState_open in I.
Qed.

Lemma guard_within_failing command allowed (k : unit -> C data_outcome) c :
  wf c -> from allowed (k tt) -> wf (fst (bind_failing (guard_err (invalidState command (state c) allowed)) k c)).
Proof.
  intros W Hk. unfold bind_failing. destruct (invalidState _ _ _) eqn:I; [done|]. apply Hk.
  split; [done|left]. by apply invalidState_open in I.
Qed.

Lemma safe_command {B} v arguments allowed (k : Reply.Reply -> C B) :
  (forall reply, from allowed (k reply)) -> safe (commandLocked opts wd v arguments allowed ≫= k).
Proof.
  intros Hk c W. unfold commandLocked, require_state.
  assert (forall {A B D} (m : C A) (f : A -> C B) (g : B -> C D), ((m ≫= f) ≫= g) c = (m ≫= (fun a => f a ≫= g)) c) as assoc.
  { intros. unfold mbind, C_bind. by destruct (m c) as [c' [a|e]]. }
  rewrite !assoc. apply (guard_within v allowed (fun _ => execute_one opts wd (command_of v arguments (isSyncPoint v)) ≫= k)); [done|].
  apply from_bind; auto with client.
Qed.

Abbreviation in_transaction := (within [stateTransaction]).
Abbreviation ends := (from [stateTransaction]).

(** The transition back to the state before MAIL. *)
Definition finish_with (u b : connection -> bool) (c : connection) : connection :=
  unless_closed (fun c => set_transaction (restore_base c) [] (u c) (b c)) c.

Lemma finish_wf u b c : in_transaction c -> wf (finish_with u b c).
Proof.
  intros [[Sh B R T] D]. unfold finish_with, unless_closed. destruct (closed c) eqn:Hc; [by split|].
  destruct D as [[D|[]]|D]; [|done]. symmetry in D. specialize (B D). split.
  - unfold shut in *. rewrite Hc in Sh. assert (closed (set_transaction (restore_base c) [] (u c) (b c)) = false) as ->; [|done].
    cbv [closed set_transaction restore_base set_session state]. by destruct B as [<-|[<-|[<-|[]]]].
  - intros _. exact B.
  - done.
  - cbn. intros [E|E]; apply T; by right.
Qed.

Lemma ends_finish {A} u b (k : C A) : silent k -> ends (modify (finish_with u b);; k).
Proof.
  intros S c T. change (wf (fst (k (finish_with u b c)))). apply silent_safe; [exact S|by apply finish_wf].
Qed.

Lemma safe_get {B} (k : connection -> C B) : (forall c, wf c -> wf (fst (k c c))) -> safe (get ≫= k).
Proof. intros Hk c W. by apply Hk. Qed.
Lemma safe_bind {A B} (m : C A) (k : A -> C B) : silent m -> (forall a, safe (k a)) -> safe (m ≫= k).
Proof.
  intros S Hk c W. specialize (S c). pose proof (quiet_wf _ _ W S) as W1. unfold mbind, C_bind.
  destruct (m c) as [c1 [a|e]]; cbn in *; [by apply Hk|done].
Qed.
Lemma safe_bind_failing {A} (m : C A) (k : A -> C data_outcome) : silent m -> (forall a, safe (k a)) -> safe (bind_failing m k).
Proof.
  intros S Hk c W. specialize (S c). pose proof (quiet_wf _ _ W S) as W1. unfold bind_failing.
  destruct (m c) as [c1 [a|e]]; cbn in *; [by apply Hk|done].
Qed.

Lemma ends_finish_failing u b (k : unit -> C data_outcome) :
  silent (k tt) -> ends (bind_failing (modify (finish_with u b)) k).
Proof.
  intros S c T. change (wf (fst (k tt (finish_with u b c)))). apply silent_safe; [exact S|by apply finish_wf].
Qed.

Lemma set_transaction_quiet c u b : quiet c (set_transaction c (recipients c) u b).
Proof. by split; auto. Qed.

(** *** DATA *)

#[local] Existing Instance deadlineWriter.
#[local] Existing Instance quiet_pre.

Lemma silent_done results e : silent (done results e).
Proof. apply silent_ret. Qed.
#[local] Hint Resolve silent_done : client.

Lemma silent_read_finals command rcpts : silent (read_finals opts wd command rcpts).
Proof.
  induction rcpts as [|r rcpts IH]; cbn [read_finals]; [auto with client|]. intros c. pose proof (silent_read command c) as Q.
  destruct (read opts wd command c) as [c1 [reply|e]]; cbn [fst] in *; [|etrans; [exact Q|apply poison_quiet]].
  specialize (IH c1). destruct (read_finals opts wd command rcpts c1) as [c2 [[results e]|e]]; cbn in *; by etrans.
Qed.

Lemma silent_no_extra command results : silent (no_extra wd command results).
Proof.
  intros c. unfold no_extra, rejectExtraLMTPFinalReply. destruct (negb _); [cbn; etrans; [apply tick_quiet|apply poison_quiet]|].
  pose proof (silent_raw_read c) as Q. destruct (raw_read wd c) as [c1 [reply|e]]; cbn [fst] in *.
  - cbn. etrans; [exact Q|apply poison_quiet].
  - destruct (is_timeout e); cbn; [done|]. etrans; [exact Q|apply poison_quiet].
Qed.
#[local] Hint Resolve silent_read_finals silent_no_extra : client.

Lemma ends_lmtp rcpts : ends (readLMTPFinalReplies opts wd rcpts).
Proof.
  unfold readLMTPFinalReplies. apply from_bind; [auto with client|]. intros [results [e|]]; [apply from_silent; auto with client|].
  apply from_bind; [auto with client|]. intros [results2 [e|]]; [apply from_silent; auto with client|].
  apply from_bind; [auto with client|]. intros []. apply (ends_finish smtpUTF8 binaryMIME). auto with client.
Qed.

Lemma transfer_quiet ps err dw : quiet (Writer.w dw) (Writer.w (fst (transfer wd ps err dw))).
Proof.
  revert dw. induction ps as [|p ps IH]; intros dw; cbn [transfer]; pose proof (silent_ctx_poison (Writer.w dw)) as Q;
    destruct (ctx_poison wd (Writer.w dw)) as [c' [[]|e]]; cbn [fst] in *; try done.
  set (dw1 := {| Writer.w := c'; Writer.pendingCR := _; Writer.atLineStart := _; Writer.wroteAny := _; Writer.lastByte := _; Writer.closed := _ |}).
  destruct p as [|x p]; [etrans; [exact Q|apply (IH dw1)]|].
  pose proof (Write_R quiet raw_write_quiet dw1 (x :: p)) as WR. destruct (Writer.Write dw1 (x :: p)) as [[[dw2 n] [e|]]|]; cbn [fst]; [| |done].
  - etrans; [exact Q|]. exact (WR dw2 n _ eq_refl).
  - etrans; [exact Q|]. etrans; [exact (WR dw2 n _ eq_refl)|apply IH].
Qed.

Lemma ends_data_content src rcpts : ends (data_content opts wd src rcpts).
Proof.
  intros c T. unfold data_content. cbv beta. pose proof (transfer_quiet (pieces src) (src_err src) (Writer.NewDotStuffWriter c)) as Q.
  destruct (transfer wd _ _ _) as [dw err]. cbn [fst Writer.w Writer.NewDotStuffWriter] in Q.
  assert (forall c', quiet c c' -> wf (poison c')) as Bad.
  { intros c' Q'. eapply quiet_wf; [apply T|]. etrans; [exact Q'|apply poison_quiet]. }
  destruct err as [e|]; [by apply Bad|].
  pose proof (Close_R quiet raw_write_quiet dw) as CQ. destruct (Writer.Close dw) as [dw' [e|]]; cbn [fst] in CQ; [apply Bad; by etrans|].
  assert (in_transaction (Writer.w dw')) as T1 by (eapply quiet_within; [exact T|by etrans]). revert T1. generalize (Writer.w dw').
  match goal with |- forall c, in_transaction c -> wf (fst (?m c)) => change (ends m) end.
  apply from_bind_failing; [auto with client|]. intros []. destruct (LMTP opts); [apply ends_lmtp|].
  apply from_bind_failing; [auto with client|]. intros reply. apply from_bind_failing; [auto with client|]. intros [].
  apply (ends_finish_failing (fun _ => false) binaryMIME). apply silent_bind_failing; [auto with client|]. intros [].
  apply silent_bind; auto with client.
Qed.

Lemma safe_data_command src : safe (data_command opts wd src).
Proof.
  unfold data_command. apply safe_bind_failing; [auto with client|]. intros []. apply safe_get. intros c W.
  apply guard_within_failing; [done|]. destruct (_ && _); [apply from_silent; auto with client|].
  apply from_bind_failing; [auto with client|]. intros reply. apply from_bind_failing; [auto with client|]. intros [].
  intros c1 T. pose proof (ends_data_content src (recipients c) c1 T) as W1. unfold mbind at 1, C_bind at 1.
  destruct (data_content opts wd src (recipients c) c1) as [c2 [out|e]]; cbn [fst] in *; [|done].
  apply (silent_safe (watch wd;; mret out)); [|done]. apply silent_bind; auto with client.
Qed.

(** *** BDAT and BURL *)

Lemma silent_writeBDATChunk chunk last : silent (writeBDATChunk wd chunk last).
Proof.
  intros c. unfold writeBDATChunk. destruct (EncodeBDATCommand _ _ _) as [line|e]; [|apply poison_quiet].
  pose proof (raw_write_quiet c line) as Q. destruct (raw_write wd c line) as [c1 [e|]]; cbn [fst] in Q; [etrans; [exact Q|apply poison_quiet]|].
  unfold CopyBDATChunk. destruct (checkBDATSize _ _); [etrans; [exact Q|apply poison_quiet]|].
  destruct (copyN _ _ c1 _ _ _ _) as [[[c2 rest] m] err] eqn:E.
  apply (copyN_inv (raw_write wd) (quiet c)) in E as [Q2 _]; [|intros d p Qd; etrans; [exact Qd|apply raw_write_quiet]|exact Q].
  assert (silent (ctx_poison wd;; watch wd)) as S by (apply silent_bind; auto with client).
  destruct err as [[e|e]|]; [destruct e|destruct e|]; cbn [fst]; (etrans; [exact Q2|first [apply poison_quiet|apply S]]).
Qed.
#[local] Hint Resolve silent_writeBDATChunk : client.

Lemma silent_bdatFinalReplies rcpts first : silent (bdatFinalReplies opts wd rcpts first).
Proof.
  unfold bdatFinalReplies. destruct (negb _).
  - apply silent_bind_failing; [auto with client|]. intros []. apply silent_bind; auto with client.
  - destruct rcpts as [|r rcpts]; [auto with client|]. apply silent_bind; [auto with client|]. intros c0.
    apply silent_bind; [auto with client|]. intros out. destruct (snd out); auto with client.
Qed.

Lemma ends_bdat_loop fuel n content err rcpts : ends (bdat_loop opts wd fuel n content err rcpts).
Proof.
  revert content. induction fuel as [|fuel IH]; intros content; cbn [bdat_loop]; [apply from_silent; auto with client|].
  apply from_bind_failing; [auto with client|]. intros []. destruct (_ && _); [apply from_silent; auto with client|].
  apply from_bind_failing; [auto with client|]. intros []. apply from_bind_failing; [auto with client|]. intros reply.
  destruct (_ <? _)%nat.
  - apply from_bind; [apply silent_modify; intros c; apply set_transaction_quiet|]. intros [].
    apply (ends_finish smtpUTF8 binaryMIME). apply silent_bdatFinalReplies.
  - apply from_bind_failing; [auto with client|]. intros []. apply IH.
Qed.

Lemma safe_bdat src size : safe (bdat opts wd src size).
Proof.
  unfold bdat. apply safe_bind_failing; [auto with client|]. intros []. apply safe_get. intros c W.
  apply guard_within_failing; [done|]. destruct (recipients c); [apply from_silent; auto with client|apply ends_bdat_loop].
Qed.

Lemma safe_Data src o : safe (Data opts wd src o).
Proof.
  unfold Data. apply safe_get. intros c W. assert (forall e, wf (fst (done [] (Some e) c))) as Refused by done.
  destruct o as [[[] size]|]; try (destruct (binaryMIME c); [by apply Refused|by apply safe_data_command]).
  destruct (negb _); [by apply Refused|]. destruct (_ || _); [by apply Refused|by apply safe_bdat].
Qed.

Lemma safe_BURL url last : safe (BURL opts wd url last).
Proof.
  unfold BURL. destruct (_ || _ || _); [apply silent_safe; auto with client|]. destruct (LMTP opts); [apply silent_safe; auto with client|].
  apply safe_get. intros c W. destruct (negb _); [done|]. destruct (recipients c) as [|rc rs]; [done|].
  unfold burlLocked, require_state.
  assert (forall {A B} (m : C A) (f : A -> C B) (g : B -> C data_outcome), bind_failing (m ≫= f) g c = bind_failing m (fun a => bind_failing (f a) g) c) as assoc.
  { intros. unfold bind_failing, mbind, C_bind. by destruct (m c) as [c' [a|e]]. }
  rewrite !assoc.
  apply (guard_within_failing ($"BURL") [stateTransaction] (fun _ => bind_failing (execute_one opts wd _) _)); [done|].
  apply from_bind_failing; [auto with client|]. intros reply.
  assert (forall k : C data_outcome, silent k -> ends ((if last then modify (unless_closed (fun c => set_transaction (restore_base c) [] false false)) else mret tt);; k)) as F.
  { intros k S. destruct last; [by apply (ends_finish (fun _ => false) (fun _ => false))|]. apply from_bind; auto using from_silent with client. }
  apply F. apply silent_bind_failing; [auto with client|]. intros []. apply silent_bind; auto with client.
Qed.

(** *** The other calls *)

Lemma safe_Reset : safe (Reset opts wd).
Proof.
  unfold Reset. apply safe_command. intros reply. apply from_bind; [auto with client|]. intros [] c [W D]. cbn.
  unfold unless_closed. destruct (closed c) eqn:Hc; [done|]. destruct D as [D|D]; [|congruence].
  unfold sessionState_eqb. destruct (decide (state c = stateTransaction)) as [Tx|NTx].
  - rewrite bool_decide_true by done. pose proof (finish_wf (fun _ => false) (fun _ => false) c (conj W (or_introl (or_introl (eq_sym Tx))))) as F.
    unfold finish_with, unless_closed in F. by rewrite Hc in F.
  - rewrite bool_decide_false by done. destruct W as [Sh B R T]. by split.
Qed.

Lemma safe_Mail from_ o allow : safe (Mail opts wd from_ o allow).
Proof.
  unfold Mail. apply safe_bind; [auto with client|]. intros path. apply safe_get. intros c0 W0.
  destruct (mailArgs _ _ _ _ _ _) as [binary arguments]. revert c0 W0.
  match goal with |- forall c, wf c -> wf (fst (?m c)) => change (safe m) end.
  apply safe_bind; [apply silent_modify; intros c; apply set_transaction_quiet|]. intros [].
  apply safe_bind; [auto with client|]. intros args'. apply safe_command. intros reply.
  apply from_bind; [auto with client|]. intros [] c [W D]. cbn. unfold unless_closed. destruct (closed c) eqn:Hc; [done|].
  destruct D as [D|D]; [|congruence]. destruct W as [Sh B R T]. split.
  - unfold shut in *. rewrite Hc in Sh. exact Sh.
  - intros _. exact D.
  - done.
  - cbn. intros [E|E]; [done|]. apply T. by left.
Qed.

Lemma safe_rcptBatch rcpts : safe (rcptBatch opts wd rcpts).
Proof.
  unfold rcptBatch. apply safe_bind; [auto with client|]. intros []. destruct rcpts as [|r rcpts]; [apply silent_safe; auto with client|].
  apply safe_get. intros c0 W0. apply guard_within; [done|]. apply from_bind; [auto with client|]. intros commands.
  apply from_bind; [auto with client|]. intros replies. apply from_bind; [auto with client|]. intros c1 c [W D].
  change (wf (unless_closed (fun c => set_transaction c (recipients c ++ rcpt_accepted (r :: rcpts) replies) (smtpUTF8 c) (binaryMIME c)) c)).
  unfold unless_closed. destruct (closed c) eqn:Hc; [done|]. destruct D as [[D|[]]|D]; [|congruence].
  destruct W as [Sh B R T]. split.
  - exact Sh.
  - done.
  - cbn. rewrite <- D. by intros [E|[E|[E|[E|[]]]]].
  - done.
Qed.

Lemma safe_Rcpt to_ o allow : safe (Rcpt opts wd to_ o allow).
Proof.
  intros c W. unfold Rcpt. pose proof (safe_rcptBatch [{| rc_Address := to_; rc_Options := o; rc_Allow := allow |}] c W) as W1.
  unfold mbind, C_bind. destruct (rcptBatch opts wd _ c) as [c1 [[|r [|]]|e]]; cbn [fst] in *; try done. by destruct (smtp.Err_of r).
Qed.

(** *** STARTTLS and AUTH *)

(** A session that moves on before any transaction. *)
Lemma advance_wf s c :
  within [stateGreeted; stateTLS] c -> s = stateAuthenticated \/ s = stateTLS /\ tls c = true ->
  wf (unless_closed (fun c => set_session c s (transactionBase c)) c).
Proof.
  intros [W D] Hs. unfold unless_closed. destruct (closed c) eqn:Hc; [done|]. destruct D as [D|D]; [|congruence].
  destruct W as [Sh B R T]. split.
  - unfold shut in *. rewrite Hc in Sh. by destruct Hs as [->|[-> _]].
  - cbn. by destruct Hs as [->|[-> _]].
  - intros _. apply R. destruct D as [<-|[<-|[]]]; cbn; auto.
  - cbn. destruct Hs as [->|[_ Ht]]; [|done]. intros [E|E]; [done|]. apply T. by right.
Qed.

Lemma upgraded_wf c stream :
  within [stateGreeted; stateTLS] c -> closed c = false ->
  within [stateGreeted; stateTLS] (record (set_stream (tick c) stream true) Handshake).
Proof.
  intros [[Sh B R T] D] Hc. split; [|exact D]. split; [|exact B|exact R|done].
  unfold shut in *. rewrite Hc in Sh. change (closed (record _ _)) with (closed c). rewrite Hc. cbn.
  rewrite elem_of_app, list_elem_of_singleton. by intros [?|?].
Qed.

Lemma wp_upgradeTLS c :
  within [stateGreeted; stateTLS] c -> closed c = false ->
  wp (fun c => match upgradeTLS wd c with (c', Err e) => (poison c', Err e) | r => r end)
    (fun c' r => match r with
      | Ok _ => within [stateGreeted; stateTLS] c' /\ tls c' = true
      | Err _ => wf c'
      end) c.
Proof.
  intros T Hc. unfold wp, upgradeTLS. destruct (w_handshake wd (clock c) (on_transport wd c)) as [stream|].
  { pose proof (upgraded_wf c stream T Hc) as U. set (c1 := record _ _) in *. pose proof (silent_watch c1) as Q.
    pose proof (watch_spec wd c1) as P. unfold wp in P. destruct (watch wd c1) as [c2 r]. destruct P as [E _]. cbn in E, Q. subst r.
    split; [by eapply quiet_within|]. cbn. by rewrite (quiet_tls _ _ Q). }
  assert (quiet c (poison (tick c))) as Q by (etrans; [apply tick_quiet|apply poison_quiet]).
  destruct (w_ctx wd (clock c)); cbn [fst snd]; [apply (quiet_wf (poison (tick c))); [|apply poison_quiet]|];
    (eapply quiet_wf; [apply T|exact Q]).
Qed.

Lemma wp_silent {A} (m : C A) c : silent m -> wp m (fun c' _ => quiet c c') c.
Proof. intros S. apply S. Qed.

Lemma wp_execute_open cmd c :
  closed c = false ->
  wp (execute_one opts wd cmd) (fun c' r => quiet c c' /\ forall reply, r = Ok reply -> closed c' = false) c.
Proof.
  intros Hc. pose proof (silent_execute_one cmd c) as Q. pose proof (execute_one_spec opts wd cmd c Hc) as P. unfold wp in *.
  split; [done|]. intros reply E. rewrite E in P. destruct P as (evs & _ & S & _). by rewrite (session_closed _ c S).
Qed.

Lemma safe_StartTLS : safe (StartTLS opts wd).
Proof.
  unfold StartTLS. apply safe_bind; [auto with client|]. intros []. apply safe_get. intros c0 W0.
  match goal with |- wf (fst (?m c0)) => change (wp m (fun c' _ => wf c') c0) end.
  apply cwp_bind, wp_guard; [|done]. intros I%invalidState_open. destruct (extensionParameter _ _); [|done].
  assert (within [stateGreeted; stateTLS] c0) as T0 by (split; [done|left; destruct I as [I|[]]; by left]).
  assert (closed c0 = false) as Hc by (destruct I as [I|[]]; unfold closed; by rewrite <- I).
  apply cwp_bind. eapply wp_mono; [by apply wp_execute_open|]. intros c1 [reply|e] [Q Hc1]; [|by eapply quiet_wf].
  specialize (Hc1 _ eq_refl). pose proof (quiet_within _ _ _ T0 Q) as T1.
  apply cwp_bind. unfold expect. apply cwp_bind, cwp_get, wp_guard; [|intros; apply T1]. intros _. apply cwp_bind, cwp_modify, cwp_bind.
  eapply wp_mono; [apply wp_upgradeTLS; [eapply quiet_within; [exact T1|apply set_ext_quiet]|exact Hc1]|].
  intros c2 [[]|e]; [intros [T2 Ht]|done]. apply cwp_bind, cwp_modify.
  apply (silent_safe (ehloLocked opts wd)); [apply silent_ehlo|]. apply advance_wf; [done|by right].
Qed.

Lemma silent_authResponse r : silent (authResponse opts wd r).
Proof. unfold authResponse. apply silent_bind; auto with client. Qed.

Lemma silent_cancelAuth {A} e : silent (@cancelAuth opts wd A e).
Proof.
  intros c. unfold cancelAuth. set (m := _ ≫= _).
  assert (silent m) as S.
  { apply silent_bind; [apply silent_authResponse|]. intros _. apply silent_bind; [auto with client|]. intros reply.
    destruct (negb _); auto using poison_quiet with client. }
  specialize (S c). by destruct (m c).
Qed.

Lemma silent_auth_loop fuel mech reply : silent (auth_loop opts wd fuel mech reply).
Proof.
  revert mech reply. induction fuel as [|fuel IH]; intros mech reply; cbn [auth_loop]; (destruct (negb _); [auto with client|]); [auto with client|].
  destruct (decodeChallenge _); [|apply silent_cancelAuth]. destruct (smtpsasl.Next _ _) as [mech' [[response last]|]]; [|apply silent_cancelAuth].
  apply silent_bind; [apply silent_authResponse|]. intros _. apply silent_bind; [auto with client|]. intros reply'.
  destruct (_ && _); auto with client.
Qed.

Lemma silent_prepared o : silent (prepared_config o).
Proof.
  assert (forall s, silent (prep s)) as P by (intros s; unfold prep; destruct (Prepare s); auto with client).
  unfold prepared_config. destruct (SASLPrep o); [|auto with client].
  repeat (apply silent_bind; [apply P|intros ?]). auto with client.
Qed.

Lemma safe_Auth o : safe (Auth opts wd o).
Proof.
  unfold Auth. apply safe_bind; [auto with client|]. intros []. apply safe_bind; [apply silent_prepared|]. intros creds.
  apply safe_get. intros c0 W0. apply guard_within; [done|].
  apply from_bind; [by intros c|]. intros [name mech]. destruct (smtpsasl.Start _ _) as [mech' [initial|]]; [|apply from_silent; auto with client].
  apply from_bind; [auto with client|]. intros reply. apply from_bind; [apply silent_auth_loop|]. intros reply'.
  apply from_bind; [auto with client|]. intros [] c T. apply (silent_safe (ehloLocked opts wd)); [apply silent_ehlo|].
  apply advance_wf; [done|by left].
Qed.

(** *** A client's life *)

Lemma initial_wf stream over_tls : wf (initial stream over_tls).
Proof. split; [apply not_elem_of_nil|done|done|by intros [|]]. Qed.

Lemma greeted_wf c s :
  wf c -> (state c = stateConnected \/ closed c = true) -> closed c = false -> s = stateGreeted \/ s = stateTLS /\ tls c = true ->
  wf (set_session c s (transactionBase c)).
Proof.
  intros [Sh B R T] D Hc Hs. destruct D as [D|D]; [|congruence]. split.
  - unfold shut in *. rewrite Hc in Sh. by destruct Hs as [->|[-> _]].
  - cbn. by destruct Hs as [->|[-> _]].
  - intros _. apply R. rewrite D. by left.
  - cbn. destruct Hs as [->|[_ Ht]]; [|done]. intros [E|E]; [done|]. apply T. by right.
Qed.

Lemma newClient_wf c :
  wf c -> state c = stateConnected -> wp (newClient opts wd) (fun c' _ => wf c') c.
Proof.
  intros W Hs. assert (closed c = false) as Hc by (unfold closed; by rewrite Hs).
  unfold newClient. apply cwp_bind.
  apply wp_mono with (Q := fun c' r => wf c' /\ match r with
    | Ok _ => (state c' = stateConnected \/ closed c' = true) /\ (ImplicitTLS opts = true -> tls c' = true)
    | Err _ => True end).
  { destruct (ImplicitTLS opts); [|apply cwp_ret; split; [done|split; [by left|done]]]. unfold upgradeTLS.
    unfold wp at 1. destruct (w_handshake wd (clock c) (on_transport wd c)) as [stream|].
    - set (c1 := record _ _). assert (wf c1) as W1.
      { destruct W as [Sh B R T]. split; [|exact B|exact R|done].
        unfold shut in *. rewrite Hc in Sh. change (closed c1) with (closed c). rewrite Hc. cbn.
        rewrite elem_of_app, list_elem_of_singleton. by intros [?|?]. }
      apply (wp_mono (watch wd) (fun c' r => r = Ok tt /\ quiet c1 c')); [split; [apply watch_spec|apply silent_watch]|].
      intros c' r [-> Q]. split; [by eapply quiet_wf|]. split; [|intros _; by rewrite (quiet_tls _ _ Q)].
      destruct (quiet_state _ _ Q) as [E|E]; [left; rewrite E; exact Hs|right; by apply closed_spec].
    - destruct (w_ctx wd (clock c)); cbn; split; try done; (eapply quiet_wf; [exact W|]).
      + etrans; [apply tick_quiet|apply poison_quiet].
      + apply tick_quiet. }
  intros c1 [[]|e] [W1 D1]; [|done]. destruct D1 as [S1 T1].
  apply cwp_bind. unfold readGreeting, readOnly. apply cwp_bind, cwp_get. destruct (closed c1) eqn:Hc1; [done|].
  destruct S1 as [S1|]; [|done].
  pose proof (silent_read ($"greeting") c1) as Q. pose proof (read_spec opts wd ($"greeting") c1) as P. unfold wp in P |- *.
  destruct (read opts wd ($"greeting") c1) as [c2 [greeting|e]]; cbn [fst snd] in *; [|by eapply quiet_wf].
  destruct P as (S2 & _). assert (wf c2) as W2 by (by eapply quiet_wf).
  match goal with |- wf (fst (?m c2)) => change (wp m (fun c' _ => wf c') c2) end.
  apply cwp_bind, wp_guard; [|done]. intros _. apply cwp_bind, cwp_modify.
  apply (silent_safe (ehloLocked opts wd)); [apply silent_ehlo|]. apply greeted_wf; [done|left; injection S2; congruence|by rewrite (session_closed c2 c1)|].
  destruct (ImplicitTLS opts); [right|by left]. split; [done|]. injection S2 as _ _ _ _ _ _ ->. by apply T1.
Qed.

Lemma NewClient_wf stream over_tls : wf (fst (NewClient opts wd stream over_tls)).
Proof.
  pose proof (silent_safe _ silent_ctx_check _ (initial_wf stream over_tls)) as W. unfold NewClient.
  pose proof (ctx_check_spec wd (initial stream over_tls)) as P. unfold wp in P.
  destruct (ctx_check wd (initial stream over_tls)) as [c [[]|e]]; cbn [fst snd] in *; [|done].
  destruct P as [(S & _) _]. pose proof (newClient_wf c W) as N. unfold wp in N.
  destruct (newClient opts wd c) as [c' [[]|e]]; cbn [fst] in *; [apply N; by injection S|].
  eapply quiet_wf; [apply N; by injection S|apply poison_quiet].
Qed.

End Operations.

(** ** The calls of a Client *)

Inductive call : Type :=
| CallNoop | CallReset | CallQuit | CallClose | CallStartTLS
| CallAuth (o : AuthOptions)
| CallMail (from_ : bytes) (o : option MailOptions) (allowUnadvertised : bool)
| CallRcpt (to_ : bytes) (o : option RcptOptions) (allowUnadvertised : bool)
| CallRcptBatch (rcpts : list Recipient)
| CallData (src : source) (o : option DataOptions)
| CallBURL (url : bytes) (last : bool)
| CallVerify (address : bytes) | CallExpand (list_ : bytes) | CallHelp (topic : bytes)
| CallETRN (node : bytes) | CallATRN (domains : list bytes).

Section Calls.
Context `{Unicode} `{NetIP} `{RFC3339} `{MapOrder} `{Crypto} (opts : ClientOptions) (wd : world).

(** The connection after a call. *)
Definition perform (c : connection) (k : call) : connection :=
  match k with
  | CallNoop => fst (Noop opts wd c)
  | CallReset => fst (Reset opts wd c)
  | CallQuit => fst (Quit opts wd c)
  | CallClose => fst (Close opts wd c)
  | CallStartTLS => fst (StartTLS opts wd c)
  | CallAuth o => fst (Auth opts wd o c)
  | CallMail from_ o allow => fst (Mail opts wd from_ o allow c)
  | CallRcpt to_ o allow => fst (Rcpt opts wd to_ o allow c)
  | CallRcptBatch rcpts => fst (RcptBatch opts wd rcpts c)
  | CallData src o => fst (Data opts wd src o c)
  | CallBURL url last => fst (BURL opts wd url last c)
  | CallVerify a => fst (Verify opts wd a c)
  | CallExpand a => fst (Expand opts wd a c)
  | CallHelp a => fst (Help opts wd a c)
  | CallETRN a => fst (ETRN opts wd a c)
  | CallATRN ds => fst (ATRN opts wd ds c)
  end.

Lemma perform_wf c k : wf c -> wf (perform c k).
Proof.
  destruct k; cbn [perform]; first [apply safe_Reset|apply safe_StartTLS|apply safe_Auth|apply safe_Mail|apply safe_Rcpt
    |apply safe_rcptBatch|apply safe_Data|apply safe_BURL|apply silent_safe];
    auto using silent_Noop, silent_Quit, silent_Close, silent_Verify, silent_Expand, silent_Help, silent_ETRN, silent_ATRN.
Qed.

Definition life (stream : LineReader) (over_tls : bool) (calls : list call) : connection :=
  fold_left perform calls (fst (NewClient opts wd stream over_tls)).

Lemma life_wf stream over_tls calls : wf (life stream over_tls calls).
Proof.
  unfold life. generalize (NewClient_wf opts wd stream over_tls). generalize (fst (NewClient opts wd stream over_tls)).
  induction calls as [|k calls IH]; intros c W; [done|]. apply IH, perform_wf, W.
Qed.

(** C10: Whatever calls are made on a client, in whatever order, and however the server, the network and
    their contexts behave: nothing is written or read after the connection was closed, which happens
    once; a transaction was begun in a greeted session, to which it returns; recipients are held only
    during one; and a session takes itself for protected only over TLS. *)
Theorem client_invariant stream over_tls calls :
  let c := life stream over_tls calls in
  (forall a b, wire c = a ++ Hangup :: b -> b = [] /\ state c = stateClosed) /\
  (state c = stateTransaction -> In (transactionBase c) greeted) /\
  (recipients c <> [] -> state c = stateTransaction \/ state c = stateClosed) /\
  (state c = stateTLS -> tls c = true).
Proof.
  cbn zeta. destruct (life_wf stream over_tls calls) as [Sh B R T]. set (c := life _ _ _) in *. split_and!; [|done| |auto].
  - intros a b E. unfold shut in Sh. destruct (closed c) eqn:Hc.
    + destruct Sh as (evs & E2 & N). split; [|by apply closed_spec]. rewrite E2 in E.
      destruct b as [|e b] using rev_ind; [done|]. rewrite app_comm_cons, app_assoc in E. apply app_inj_tail in E as [-> _].
      destruct N. rewrite elem_of_app. right. by left.
    + destruct Sh. rewrite E, elem_of_app. right. by left.
  - intros Hr. destruct (state c) eqn:E; try (by left); try (by right); destruct Hr; apply R; cbn; auto 6.
Qed.

End Calls.
End ClientInvariant.
