(* ===== verification/ClientTermination.v ===== *)
(** * smtpclient: every call returns

    The loops of the client take fuel where their recursion is not structural: [rounds] of the pipeline,
    the loops of [DotStuffWriter.Write], of a reply's lines, of BDAT and of AUTH. Here: none of them
    runs out, from any connection and for any behaviour of the server and the network, and a call that
    completes a transaction returns its results beside an error, never in place of them. *)
From Stdlib Require Import ZArith Lia Bool.
From stdpp Require Import base list gmap strings.
From S2P Require Import Prelude GoStrings Utf8 Base64 Sasl Wire DotStuff Reply Command Path Ehlo Core.
From S2P Require Import NormTables Unicodenorm NormTheorems SaslprepTables Saslprep.
From S2P Require Import ServerParams ClientParams ClientCore Client ClientFacts ClientData ClientFinal ClientInvariant.
Import smtpclient ClientFacts ClientData ClientFinal ClientInvariant.

Module ClientTermination.

(** ** Errors of the program *)

(** No error in the chain is the model's own. *)
Fixpoint genuine (e : cerr) : bool :=
  match e with
  | Fuel => false
  | Smtp _ _ _ _ (Some e') | Unknown (Some e') => genuine e'
  | _ => true
  end.

Definition returns {A} (m : C A) : Prop :=
  forall c, match snd (m c) with Ok _ => True | Err e => genuine e = true end.

(** A completing call: a pair of results and an error, whatever happens. *)
Definition settles (m : C data_outcome) : Prop :=
  forall c, match snd (m c) with
  | Ok (_, Some e) => genuine e = true
  | Ok (_, None) => True
  | Err _ => False
  end.

Lemma genuine_transport command e : genuine e = true -> genuine (transportError command e) = true.
Proof. done. Qed.

Lemma genuine_stream command e : genuine e = true -> genuine (finalStatusUnknownStream command e) = true.
Proof.
  intros G. unfold finalStatusUnknownStream. destruct (is_unknown e); [done|].
  by destruct e as [| | | | | | | | |? ? ? ? [|]|[|]].
Qed.

Lemma genuine_unknown command e : genuine e = true -> genuine (finalStatusUnknown command e) = true.
Proof.
  intros G. unfold finalStatusUnknown. destruct e; try by apply genuine_stream.
  destruct (negb _); [done|by apply genuine_stream].
Qed.

Lemma genuine_reply command reply p : genuine (replyError command reply p) = true.
Proof. unfold replyError. by destruct (reply_parts reply p). Qed.

Lemma genuine_expected command reply p want e :
  unexpectedReply command reply p want = Some e -> genuine e = true.
Proof.
  unfold unexpectedReply. destruct (existsb _ _); [done|].
  destruct (0 <? Reply.Code reply); intros [= <-]; [apply genuine_reply|done].
Qed.

Lemma genuine_state command have allowed e : invalidState command have allowed = Some e -> genuine e = true.
Proof. unfold invalidState. destruct (existsb _ _); [done|]. by intros [= <-]. Qed.

Lemma genuine_ctx o e : Ctx <$> o = Some e -> genuine e = true.
Proof. destruct o; [|done]. by intros [= <-]. Qed.

(** ** The rules *)

Lemma returns_ret {A} (a : A) : returns (mret a).
Proof. done. Qed.
Lemma returns_bind {A B} (m : C A) (k : A -> C B) : returns m -> (forall a, returns (k a)) -> returns (m ≫= k).
Proof.
  intros Hm Hk c. specialize (Hm c). unfold mbind, C_bind. destruct (m c) as [c1 [a|e]]; [apply Hk|exact Hm].
Qed.
Lemma returns_fail {A} e : genuine e = true -> returns (@fail A e).
Proof. by intros G c. Qed.
Lemma returns_get : returns get.
Proof. done. Qed.
Lemma returns_modify f : returns (modify f).
Proof. done. Qed.
Lemma returns_poisoned {A} e : genuine e = true -> returns (@poisoned A e).
Proof. by intros G c. Qed.
Lemma returns_on_error {A} f (m : C A) :
  (forall e, genuine e = true -> genuine (f e) = true) -> returns m -> returns (on_error f m).
Proof. intros Hf Hm c. specialize (Hm c). unfold on_error. destruct (m c) as [c1 [a|e]]; cbn in *; auto. Qed.
Lemma returns_lift {A} (r : result client_err A) : returns (lift r).
Proof. by destruct r; intros c. Qed.
Lemma returns_guard o : (forall e, o = Some e -> genuine e = true) -> returns (guard_err o).
Proof. intros G c. destruct o as [e|]; [by apply G|done]. Qed.

Lemma settles_done results e : (forall x, e = Some x -> genuine x = true) -> settles (done results e).
Proof. intros G c. destruct e as [x|]; [by apply (G x)|done]. Qed.
Lemma settles_bind_failing {A} (m : C A) (k : A -> C data_outcome) :
  returns m -> (forall a, settles (k a)) -> settles (bind_failing m k).
Proof. intros Hm Hk c. specialize (Hm c). unfold bind_failing. destruct (m c) as [c1 [a|e]]; [apply Hk|exact Hm]. Qed.
Lemma settles_bind (m : C data_outcome) (k : data_outcome -> C data_outcome) :
  settles m -> (forall o, (forall e, snd o = Some e -> genuine e = true) -> settles (k o)) -> settles (m ≫= k).
Proof.
  intros Hm Hk c. specialize (Hm c). unfold mbind, C_bind. destruct (m c) as [c1 [[results e]|e]]; [|done].
  apply Hk. cbn. by intros x ->.
Qed.
(** A step without an error of its own. *)
Lemma settles_step {A} (m : C A) (k : A -> C data_outcome) :
  (forall c, exists a, snd (m c) = Ok a) -> (forall a, settles (k a)) -> settles (m ≫= k).
Proof.
  intros Hm Hk c. destruct (Hm c) as [a E]. unfold mbind, C_bind. destruct (m c) as [c1 r]. cbn in E. rewrite E. apply Hk.
Qed.

Create HintDb genuine.
#[export] Hint Resolve genuine_transport genuine_stream genuine_unknown genuine_reply genuine_expected genuine_state
  genuine_ctx : genuine.
Create HintDb returns.
#[export] Hint Resolve returns_ret returns_get returns_modify returns_lift : returns.
#[export] Hint Extern 2 (returns (fail _)) => apply returns_fail; by eauto with genuine : returns.
#[export] Hint Extern 2 (returns (poisoned _)) => apply returns_poisoned; by eauto with genuine : returns.
#[export] Hint Extern 2 (returns (guard_err _)) => apply returns_guard; by eauto with genuine : returns.
#[export] Hint Extern 2 (settles (done _ _)) => apply settles_done; intros ? [= <-]; by eauto with genuine : returns.
#[export] Hint Extern 1 (settles (done _ None)) => by apply settles_done : returns.

(** Descends through a computation; what is left are its calls. *)
Ltac returns_step :=
  match goal with
  | |- returns (_ ≫= _) => apply returns_bind; [|intros ?]
  | |- returns (on_error _ _) => apply returns_on_error; [intros ? ?|]
  | |- settles (bind_failing _ _) => apply settles_bind_failing; [|intros ?]
  | |- settles (mbind (A:=connection) _ get) => apply settles_step; [by eexists|intros ?]
  | |- settles (mbind _ (modify _)) => apply settles_step; [by eexists|intros ?]
  | |- returns (match ?x with _ => _ end) => destruct x eqn:?
  | |- settles (match ?x with _ => _ end) => destruct x eqn:?
  | |- returns _ => by auto with returns
  | |- settles _ => by auto with returns
  | |- genuine (if _ then _ else _) = true => case_match
  | |- genuine _ = true => by eauto with genuine
  end.
Ltac returns := repeat returns_step.

(** ** The writer of DATA returns, whatever its transport does *)

Lemma indexCROrLF_bound p i : Writer.indexCROrLF p = Some i -> (i < length p)%nat.
Proof. intros E. pose proof (WriterFacts.indexCROrLF_spec p) as P. rewrite E in P. destruct P as (_ & c & p' & _ & _ & L). lia. Qed.

Section Writer.
Context {W : Type} `{IOWriter W}.

Lemma emitCRLF_pendingCR (d d' : Writer.DotStuffWriter W) e :
  Writer.emitCRLF d = (d', e) -> Writer.pendingCR d' = Writer.pendingCR d.
Proof. unfold Writer.emitCRLF, Writer.emit. destruct (io_write _ _) as [w' [x|]]; by intros [= <- <-]. Qed.

(** Two units for each octet, less one when no CR is pending. *)
Lemma write_loop_returns fuel (d : Writer.DotStuffWriter W) p n :
  (2 * length p <= fuel + if Writer.pendingCR d then 0 else 1)%nat -> is_Some (Writer.write_loop fuel d p n).
Proof.
  revert d p n. induction fuel as [|fuel IH]; intros d [|c p] n L; try (cbn; by eexists).
  { destruct (Writer.pendingCR d); cbn in L; lia. }
  rewrite write_loop_round. destruct (Writer.pendingCR d) eqn:Cr.
  - destruct (Writer.emitCRLF _) as [d1 [e|]] eqn:E; [by eexists|]. apply emitCRLF_pendingCR in E. cbn in E.
    destruct (c =b LF); apply IH; rewrite E; cbn in *; lia.
  - assert (forall d1 k i, (i < length (c :: p))%nat -> is_Some (after_cr fuel d1 (drop i (c :: p)) k)) as A.
    { intros d1 k i Hi. unfold after_cr. pose proof (length_drop (c :: p) i) as Ld. destruct (drop i (c :: p)) as [|c1 p1]; [by eexists|].
      assert (2 * length p1 <= fuel)%nat by (cbn in *; lia).
      destruct (c1 =b LF); [destruct (Writer.emitCRLF d1) as [d2 [e|]]; [by eexists|]|]; apply IH; lia. }
    destruct (Writer.indexCROrLF (c :: p)) as [i|] eqn:I.
    + apply indexCROrLF_bound in I. destruct (0 <? i)%nat; [|by apply A].
      destruct (Writer.emitLiteral d _) as [d1 [e|]]; [by eexists|by apply A].
    + destruct (Writer.emitLiteral d _) as [d1 [e|]]; by eexists.
Qed.

Lemma Write_returns (d : Writer.DotStuffWriter W) p : is_Some (Writer.Write d p).
Proof.
  unfold Writer.Write. destruct (Writer.closed d); [by eexists|].
  destruct (write_loop_returns (Writer.write_fuel p) d p 0) as [[[d1 n] e] ->]; [unfold Writer.write_fuel; lia|by eexists].
Qed.

End Writer.

(** ** The connection *)
Section Operations.
Context `{Unicode} `{NetIP} `{RFC3339} `{MapOrder} `{Crypto} (opts : ClientOptions) (wd : world).

Lemma returns_ctx_Err : returns (ctx_Err wd).
Proof. done. Qed.
#[local] Hint Resolve returns_ctx_Err : returns.

Lemma returns_ctx_check : returns (ctx_check wd).
Proof. unfold ctx_check. returns. Qed.
Lemma returns_ctx_poison : returns (ctx_poison wd).
Proof. unfold ctx_poison. returns. Qed.
Lemma returns_watch : returns (watch wd).
Proof. unfold watch. returns. Qed.
Lemma returns_trace d l : returns (trace opts d l).
Proof. unfold trace. returns. Qed.
#[local] Hint Resolve returns_ctx_check returns_ctx_poison returns_watch returns_trace : returns.

Lemma returns_send_line command v arguments : returns (send_line wd command v arguments).
Proof. unfold send_line. returns. Qed.
#[local] Hint Resolve returns_send_line : returns.

Lemma returns_write cmd : returns (write opts wd cmd).
Proof. unfold write. returns. Qed.

(** A read's own error is one of the wire. *)
Lemma raw_read_genuine c : match snd (raw_read wd c) with Ok _ => True | Err e => genuine e = true end.
Proof.
  pose proof (raw_read_spec wd c) as P. destruct (raw_read wd c) as [c1 [reply|e]]; [done|]. destruct P as (_ & _ & _ & we & ->). done.
Qed.

Lemma returns_read command : returns (read opts wd command).
Proof.
  unfold read. apply returns_bind; [returns|]. intros _ c. unfold mbind at 1, C_bind at 1, get.
  pose proof (raw_read_genuine c) as G. destruct (raw_read wd c) as [c1 res]. cbn [snd] in G.
  match goal with |- context [snd (?m c)] => enough (returns m) as R by apply R end. destruct res; returns.
Qed.
#[local] Hint Resolve returns_write returns_read : returns.

Lemma returns_readOnly command : returns (readOnly opts wd command).
Proof. unfold readOnly. returns. Qed.

Lemma returns_classified {A} cmd (m : C A) : returns m -> returns (classified cmd m).
Proof. intros R. unfold classified. returns. Qed.
#[local] Hint Resolve returns_classified : returns.

Lemma returns_issue commands room first bytes : returns (issue opts wd commands room first bytes).
Proof.
  revert room first bytes. induction commands as [|cmd commands IH]; intros [|room] first bytes; cbn [issue]; returns.
Qed.

Lemma returns_collect issued : returns (collect opts wd issued).
Proof.
  induction issued as [|cmd issued IH]; cbn [collect]; returns.
Qed.

(** A round leaves no more commands than it was given, and fewer when it may issue one. *)
Lemma issue_rest commands room first bytes c issued rest :
  snd (issue opts wd commands room first bytes c) = Ok (issued, rest) -> (length rest <= length commands)%nat.
Proof.
  revert room first bytes c issued rest. induction commands as [|cmd commands IH]; intros [|room] first bytes c issued rest;
    cbn [issue]; try (by intros [= <- <-]).
  destruct (_ <? _); [done|]. destruct (_ && _); [by intros [= <- <-]|].
  unfold mbind, C_bind. match goal with |- context [(if completes cmd then ?a else ?b) c] => destruct ((if completes cmd then a else b) c) as [c1 [[]|e1]] end; [|done].
  destruct (classified cmd _ c1) as [c2 [[]|e2]]; [|done]. destruct (syncPoint cmd); [intros [= <- <-]; cbn; lia|].
  destruct (issue opts wd commands room false _ c2) as [c3 [[i r]|e3]] eqn:E; [|done]. intros [= <- <-]. cbn.
  eapply Nat.le_trans; [by eapply (IH _ _ _ c2); rewrite E|lia].
Qed.

Lemma issue_progress cmd commands room c issued rest :
  snd (issue opts wd (cmd :: commands) (S room) true 0 c) = Ok (issued, rest) -> (length rest <= length commands)%nat.
Proof.
  cbn [issue negb andb]. destruct (_ <? _); [done|].
  unfold mbind, C_bind. match goal with |- context [(if completes cmd then ?a else ?b) c] => destruct ((if completes cmd then a else b) c) as [c1 [[]|e1]] end; [|done].
  destruct (classified cmd _ c1) as [c2 [[]|e2]]; [|done]. destruct (syncPoint cmd); [by intros [= <- <-]|].
  destruct (issue opts wd commands room false _ c2) as [c3 [[i r]|e3]] eqn:E; [|done]. intros [= <- <-].
  cbn. by eapply (issue_rest _ _ _ _ c2); rewrite E.
Qed.

Lemma returns_rounds fuel commands : (length commands <= fuel)%nat -> returns (rounds opts wd fuel commands).
Proof.
  revert commands. induction fuel as [|fuel IH]; intros [|cmd commands] L; cbn [rounds]; try (cbn in L; lia); [returns..|].
  apply returns_bind; [returns|]. intros c0 c. unfold mbind at 1, C_bind at 1.
  assert (exists room, depth c0 = S room) as [room ->] by (unfold depth, maxPipelineDepth; case_match; eauto).
  pose proof (returns_issue (cmd :: commands) (S room) true 0 c) as G.
  destruct (issue opts wd (cmd :: commands) (S room) true 0 c) as [c1 [[issued rest]|e]] eqn:E; [|exact G].
  assert (length rest <= fuel)%nat as Lr.
  { transitivity (length commands); [by eapply (issue_progress cmd _ room c); rewrite E|cbn in L; lia]. }
  match goal with |- context [snd (?m c1)] => enough (returns m) as R by apply R end.
  pose proof returns_collect. returns.
Qed.

Lemma returns_executeLocked commands : returns (executeLocked opts wd commands).
Proof.
  unfold executeLocked. destruct commands; [returns|]. apply returns_bind; [returns|]. intros cs.
  apply returns_bind; [returns|]. intros c0. destruct (closed c0); [returns|]. by apply returns_rounds.
Qed.

(** A group that was executed has a reply for each of its commands. *)
Lemma executeLocked_length commands c replies :
  snd (executeLocked opts wd commands c) = Ok replies -> length replies = length commands.
Proof.
  destruct (closed c) eqn:Hc.
  - unfold executeLocked. destruct commands; [by intros [= <-]|]. unfold mbind, C_bind, get, lift.
    destruct (validate_group _); [|done]. cbn. by rewrite Hc.
  - pose proof (executeLocked_spec opts wd commands c Hc) as P. unfold wp in P. intros E. rewrite E in P.
    destruct P as (_ & evs & lines & _ & _ & _ & _ & L & _). by rewrite L, length_map.
Qed.

Lemma returns_execute_one cmd : returns (execute_one opts wd cmd).
Proof.
  intros c. unfold execute_one, mbind, C_bind. pose proof (returns_executeLocked [cmd] c) as G.
  pose proof (executeLocked_length [cmd] c) as L. destruct (executeLocked opts wd [cmd] c) as [c1 [[|reply replies]|e]]; [|done..].
  by specialize (L [] eq_refl).
Qed.
#[local] Hint Resolve returns_readOnly returns_executeLocked returns_execute_one : returns.

Lemma returns_expect command reply want : returns (expect command reply want).
Proof. unfold expect. returns. Qed.
Lemma returns_require command allowed : returns (require_state command allowed).
Proof. unfold require_state. returns. Qed.
#[local] Hint Resolve returns_expect returns_require : returns.

(** ** Negotiation *)

Lemma returns_helo : returns (heloLocked opts wd).
Proof. unfold heloLocked. returns. Qed.
#[local] Hint Resolve returns_helo : returns.

Lemma returns_ehlo : returns (ehloLocked opts wd).
Proof. unfold ehloLocked. returns. Qed.

Lemma returns_upgrade : returns (upgradeTLS wd).
Proof.
  intros c. unfold upgradeTLS. destruct (w_handshake wd (clock c) (on_transport wd c)); [apply returns_watch|]. by destruct (w_ctx wd (clock c)).
Qed.
#[local] Hint Resolve returns_ehlo returns_upgrade : returns.

Lemma returns_newClient : returns (newClient opts wd).
Proof. unfold newClient, readGreeting. returns. Qed.

Lemma NewClient_returns stream over_tls :
  match snd (NewClient opts wd stream over_tls) with Ok _ => True | Err e => genuine e = true end.
Proof.
  unfold NewClient. pose proof (returns_ctx_check (initial stream over_tls)) as G.
  destruct (ctx_check wd _) as [c [[]|e]]; [|exact G]. pose proof (returns_newClient c) as N.
  by destruct (newClient opts wd c) as [c' [[]|e]].
Qed.

(** ** The calls without results *)

Lemma returns_commandLocked v arguments allowed : returns (commandLocked opts wd v arguments allowed).
Proof. unfold commandLocked. returns. Qed.
#[local] Hint Resolve returns_commandLocked : returns.
Lemma returns_command v arguments allowed : returns (command opts wd v arguments allowed).
Proof. unfold command. returns. Qed.
#[local] Hint Resolve returns_command : returns.

Lemma returns_Reset : returns (Reset opts wd).
Proof. unfold Reset. returns. Qed.
Lemma returns_Noop : returns (Noop opts wd).
Proof. unfold Noop. returns. Qed.
Lemma returns_quit : returns (quit_and_close opts wd).
Proof.
  intros c. unfold quit_and_close. set (m := _ ≫= _). assert (returns m) as R by (unfold m; returns).
  specialize (R c). by destruct (m c).
Qed.
#[local] Hint Resolve returns_quit : returns.
Lemma returns_Quit : returns (Quit opts wd).
Proof. unfold Quit. returns. Qed.
Lemma returns_Close : returns (Close opts wd).
Proof. unfold Close. returns. Qed.
Lemma returns_Mail from_ o allow : returns (Mail opts wd from_ o allow).
Proof. unfold Mail. returns. Qed.

Lemma returns_rcptBatch rcpts : returns (rcptBatch opts wd rcpts).
Proof. unfold rcptBatch. returns. Qed.

Lemma rcpt_commands_length e utf8 rcpts commands :
  rcpt_commands e utf8 rcpts = Ok commands -> length commands = length rcpts.
Proof.
  revert commands. induction rcpts as [|r rcpts IH]; intros commands; cbn [rcpt_commands]; [by intros [= <-]|].
  destruct (rcptArgs e utf8 r); [|done]. destruct (rcpt_commands e utf8 rcpts) as [rest|]; [|done].
  intros [= <-]. cbn. by rewrite (IH rest).
Qed.

(** A batch that returns has a result for every recipient. *)
Lemma rcptBatch_length rcpts c results : snd (rcptBatch opts wd rcpts c) = Ok results -> length results = length rcpts.
Proof.
  unfold rcptBatch. unfold mbind, C_bind. destruct (ctx_check wd c) as [c1 [[]|]]; [|done].
  destruct rcpts as [|r rcpts]; [done|]. unfold get. destruct (guard_err _ c1) as [c2 [[]|]]; [|done].
  unfold lift. destruct (rcpt_commands _ _ _) as [commands|] eqn:E; [|done]. cbn [mret C_ret].
  pose proof (executeLocked_length commands c2) as L. destruct (executeLocked opts wd commands c2) as [c3 [replies|]]; [|done].
  specialize (L replies eq_refl). apply rcpt_commands_length in E. cbn [snd modify]. intros [= <-].
  destruct replies as [|reply replies]; cbn in *; [lia|]. f_equal. etrans; [apply length_zip_with|lia].
Qed.

Lemma returns_Rcpt to_ o allow : returns (Rcpt opts wd to_ o allow).
Proof.
  intros c. unfold Rcpt. unfold mbind, C_bind. set (rs := [_]). pose proof (returns_rcptBatch rs c) as R.
  pose proof (rcptBatch_length rs c) as L. destruct (rcptBatch opts wd rs c) as [c1 [results|e]]; [|exact R].
  specialize (L results eq_refl). destruct results as [|x [|]]; [done| |done]. by destruct (smtp.Err_of x).
Qed.

Lemma returns_Verify a : returns (Verify opts wd a).
Proof. unfold Verify. returns. Qed.
Lemma returns_Expand a : returns (Expand opts wd a).
Proof. unfold Expand. returns. Qed.
Lemma returns_Help a : returns (Help opts wd a).
Proof. unfold Help. returns. Qed.
Lemma returns_ETRN a : returns (ETRN opts wd a).
Proof. unfold ETRN. returns. Qed.
Lemma returns_ATRN ds : returns (ATRN opts wd ds).
Proof. unfold ATRN. returns. Qed.

Lemma returns_StartTLS : returns (StartTLS opts wd).
Proof.
  unfold StartTLS. returns. intros c. pose proof (returns_upgrade c) as R. by destruct (upgradeTLS wd c) as [c' [[]|e]].
Qed.

(** *** AUTH *)

(** The challenges a mechanism still answers. *)
Definition challenges_left (m : smtpsasl.Mechanism) : nat :=
  match m with
  | smtpsasl.plain _ | smtpsasl.external _ => 0
  | smtpsasl.login _ step => 2 - step
  | smtpsasl.Scram s => 2 - smtpsasl.s_step s
  | _ => 1
  end.

Lemma Next_left m challenge m' response last :
  smtpsasl.Next m challenge = (m', Some (response, last)) ->
  (0 < challenges_left m)%nat /\ (last = false -> challenges_left m' < challenges_left m)%nat.
Proof.
  destruct m; cbn; try (by intros [= <- <- <-]; split; [lia|]); try done.
  - destruct step as [|[|step]]; intros [= <- <- <-]; cbn; split; lia.
  - destruct (smtpsasl.s_step s) as [|[|step]] eqn:E; [| |done].
    + destruct (smtpsasl.clientFinal s challenge) as [[r x]|]; [|done]. intros [= <- <- <-]. cbn. split; lia.
    + destruct (beq _ _); intros [= <- <- <-]. split; [lia|done].
Qed.

Lemma returns_authResponse r : returns (authResponse opts wd r).
Proof. unfold authResponse. returns. Qed.

Lemma returns_cancelAuth {A} e : genuine e = true -> returns (@cancelAuth opts wd A e).
Proof. intros G c. unfold cancelAuth. set (m := _ ≫= _). by destruct (m c). Qed.

Lemma returns_auth_loop fuel mech reply :
  (challenges_left mech < fuel)%nat -> returns (auth_loop opts wd fuel mech reply).
Proof.
  revert mech reply. induction fuel as [|fuel IH]; intros mech reply L; [lia|]. cbn [auth_loop].
  destruct (negb _); [returns|]. destruct (decodeChallenge _) as [challenge|]; [|by apply returns_cancelAuth].
  destruct (smtpsasl.Next mech challenge) as [mech' [[response last]|]] eqn:E; [|by apply returns_cancelAuth].
  apply Next_left in E as [P D]. apply returns_bind; [apply returns_authResponse|]. intros _.
  apply returns_bind; [returns|]. intros reply'. destruct last; cbn [andb].
  - destruct (Reply.Code reply' =? 334) eqn:C; [returns|]. destruct fuel; cbn [auth_loop]; rewrite C; returns.
  - apply IH. specialize (D eq_refl). lia.
Qed.

Lemma Start_left random m : (challenges_left (fst (smtpsasl.Start random m)) <= 2)%nat.
Proof. destruct m; cbn; repeat case_match; cbn; lia. Qed.

Lemma returns_prepared o : returns (prepared_config o).
Proof. unfold prepared_config, prep. returns. Qed.

Lemma auth_mechanism_genuine o creds c e : auth_mechanism wd o creds c = Err e -> genuine e = true.
Proof. unfold auth_mechanism. destruct creds as [[u p] a]. repeat case_match; by intros [= <-]. Qed.

Lemma returns_Auth o : returns (Auth opts wd o).
Proof.
  unfold Auth. apply returns_bind; [returns|]. intros _. apply returns_bind; [apply returns_prepared|]. intros creds.
  apply returns_bind; [returns|]. intros c0. apply returns_bind; [returns|]. intros _. apply returns_bind.
  { intros c. cbn. destruct (auth_mechanism wd o creds c) eqn:E; [done|]. by apply auth_mechanism_genuine in E. }
  intros [name mech]. pose proof (Start_left (w_random wd) mech) as L.
  destruct (smtpsasl.Start (w_random wd) mech) as [mech' [initial|]]; [|returns]. cbn [fst] in L.
  apply returns_bind; [returns|]. intros reply. apply returns_bind; [apply returns_auth_loop; lia|]. intros reply'. returns.
Qed.

(** ** The calls that complete a transaction *)

Lemma transfer_genuine ps err dw e : snd (transfer wd ps err dw) = Some e -> genuine e = true.
Proof.
  revert dw e. induction ps as [|p ps IH]; intros dw e; cbn [transfer]; pose proof (returns_ctx_poison (Writer.w dw)) as R;
    (destruct (ctx_poison wd (Writer.w dw)) as [c' [[]|x]]; [|by intros [= <-]]).
  - destruct err; by intros [= <-].
  - destruct p as [|x p]; [apply IH|].
    set (dw1 := {| Writer.w := c'; Writer.pendingCR := _; Writer.atLineStart := _; Writer.wroteAny := _; Writer.lastByte := _; Writer.closed := _ |}).
    destruct (@Write_returns connection (deadlineWriter wd) dw1 (x :: p)) as [[[dw2 n] [we|]] ->]; [by intros [= <-]|apply IH].
Qed.

Lemma returns_rejectExtra command : returns (rejectExtraLMTPFinalReply wd command).
Proof.
  intros c. unfold rejectExtraLMTPFinalReply. destruct (negb _); [done|]. pose proof (raw_read_genuine c) as G.
  destruct (raw_read wd c) as [c1 [reply|e]]; [done|]. cbn. by destruct (is_timeout e).
Qed.

Lemma settles_read_finals command rcpts : settles (read_finals opts wd command rcpts).
Proof.
  induction rcpts as [|r rcpts IH]; cbn [read_finals]; [returns|]. intros c. pose proof (returns_read command c) as R.
  destruct (read opts wd command c) as [c1 [reply|e]]; [|by apply genuine_stream]. specialize (IH c1).
  by destruct (read_finals opts wd command rcpts c1) as [c2 [[results [e|]]|e]].
Qed.

Lemma settles_no_extra command results : settles (no_extra wd command results).
Proof.
  intros c. unfold no_extra. pose proof (returns_rejectExtra command c) as R.
  destruct (rejectExtraLMTPFinalReply wd command c) as [c1 [[]|e]]; [done|by apply genuine_stream].
Qed.

Lemma watch_ok c : exists a, snd (watch wd c) = Ok a.
Proof. pose proof (watch_spec wd c) as [E _]. by exists tt. Qed.

Lemma settles_lmtp rcpts : settles (readLMTPFinalReplies opts wd rcpts).
Proof.
  unfold readLMTPFinalReplies. apply settles_bind; [apply settles_read_finals|]. intros [results [e|]] G.
  { apply settles_done. intros x [= <-]. by apply G. }
  apply settles_bind; [apply settles_no_extra|]. intros [results' [e|]] G'.
  { apply settles_done. intros x [= <-]. by apply G'. }
  apply settles_step; [apply watch_ok|]. intros _. apply settles_step; [by eexists|]. intros _. by apply settles_done.
Qed.
#[local] Hint Resolve settles_lmtp : returns.

Lemma settles_data_content src rcpts : settles (data_content opts wd src rcpts).
Proof.
  intros c. unfold data_content. pose proof (transfer_genuine (pieces src) (src_err src) (Writer.NewDotStuffWriter c)) as G.
  destruct (transfer wd _ _ _) as [dw [e|]]; [by apply (G e)|]. destruct (Writer.Close dw) as [dw' [e|]]; [by apply genuine_unknown|].
  match goal with |- context [snd (?m (Writer.w dw'))] => enough (settles m) as R by apply R end. returns.
Qed.

Lemma settles_data_command src : settles (data_command opts wd src).
Proof.
  unfold data_command. returns. apply settles_bind; [apply settles_data_content|]. intros [results e] G.
  apply settles_step; [apply watch_ok|]. intros _ c. cbn. destruct e; [by apply G|done].
Qed.

Lemma returns_writeBDATChunk chunk last : returns (writeBDATChunk wd chunk last).
Proof.
  intros c. unfold writeBDATChunk. destruct (EncodeBDATCommand _ _ _) as [line|e]; [|done].
  destruct (raw_write wd c line) as [c1 [e|]]; [done|]. destruct (CopyBDATChunk _ _ _ _ _ _) as [[[c2 ?] ?] [[e|e]|]]; [done..|].
  match goal with |- context [snd (?m c2)] => enough (returns m) as R by apply R end. returns.
Qed.
#[local] Hint Resolve returns_writeBDATChunk : returns.

Lemma settles_bdat_final rcpts first : rcpts <> [] -> settles (bdatFinalReplies opts wd rcpts first).
Proof.
  intros Ne. unfold bdatFinalReplies. destruct (negb _); [returns|]. destruct rcpts as [|r rcpts]; [done|].
  apply settles_step; [by eexists|]. intros c0. apply settles_bind; [apply settles_read_finals|]. intros [results [e|]] G; cbn.
  - apply settles_done. intros x [= <-]. by apply G.
  - apply settles_no_extra.
Qed.

Lemma genuine_classified command e : genuine e = true -> genuine (classifyFinalReplyFailure opts command e) = true.
Proof. unfold classifyFinalReplyFailure. destruct (LMTP opts); [apply genuine_stream|apply genuine_unknown]. Qed.
#[local] Hint Resolve genuine_classified : genuine.

(** Each round but the last takes a full chunk, so the fuel covers the content. *)
Lemma settles_bdat_loop fuel chunkSize content err rcpts :
  (0 < chunkSize)%nat -> (length content < fuel)%nat -> rcpts <> [] ->
  settles (bdat_loop opts wd fuel chunkSize content err rcpts).
Proof.
  intros Hs L Ne. revert content L. induction fuel as [|fuel IH]; intros content L; [lia|]. cbn [bdat_loop].
  apply settles_bind_failing; [returns|]. intros _. destruct (_ && _); [returns|].
  apply settles_bind_failing; [returns|]. intros _. apply settles_bind_failing; [returns|]. intros reply.
  destruct (Nat.ltb_spec (length content) chunkSize) as [|Full].
  - do 2 (apply settles_step; [by eexists|intros _]). by apply settles_bdat_final.
  - apply settles_bind_failing; [returns|]. intros _. apply IH. rewrite length_drop. lia.
Qed.

Lemma settles_Data src o : settles (Data opts wd src o).
Proof.
  unfold Data. apply settles_step; [by eexists|]. intros c0.
  destruct o as [[[] size]|]; try (destruct (binaryMIME c0); [returns|apply settles_data_command]).
  destruct (negb _); [returns|]. destruct ((_ <=? 0) || _) eqn:Hs; [returns|]. apply orb_false_iff in Hs as [Hs _].
  unfold bdat. returns. apply settles_bdat_loop; [lia|lia|done].
Qed.

Lemma returns_burl arguments last : returns (burlLocked opts wd arguments last).
Proof. unfold burlLocked. returns. Qed.
#[local] Hint Resolve returns_burl : returns.

Lemma settles_BURL url last : settles (BURL opts wd url last).
Proof.
  unfold BURL. returns. apply settles_step; [intros c; destruct last; by eexists|]. intros _. returns.
Qed.

(** ** Every call *)

(** What a call returns to its caller as an error. *)
Definition error_of {A} (m : C A) (c : connection) : option (option cerr) :=
  Some (match snd (m c) with Ok _ => None | Err e => Some e end).
Definition data_error_of (m : C data_outcome) (c : connection) : option (option cerr) :=
  match snd (m c) with Ok (_, e) => Some e | Err _ => None end.

Definition outcome (c : connection) (k : call) : option (option cerr) :=
  match k with
  | CallNoop => error_of (Noop opts wd) c
  | CallReset => error_of (Reset opts wd) c
  | CallQuit => error_of (Quit opts wd) c
  | CallClose => error_of (Close opts wd) c
  | CallStartTLS => error_of (StartTLS opts wd) c
  | CallAuth o => error_of (Auth opts wd o) c
  | CallMail from_ o allow => error_of (Mail opts wd from_ o allow) c
  | CallRcpt to_ o allow => error_of (Rcpt opts wd to_ o allow) c
  | CallRcptBatch rcpts => error_of (RcptBatch opts wd rcpts) c
  | CallData src o => data_error_of (Data opts wd src o) c
  | CallBURL url last => data_error_of (BURL opts wd url last) c
  | CallVerify a => error_of (Verify opts wd a) c
  | CallExpand a => error_of (Expand opts wd a) c
  | CallHelp a => error_of (Help opts wd a) c
  | CallETRN a => error_of (ETRN opts wd a) c
  | CallATRN ds => error_of (ATRN opts wd ds) c
  end.

Definition returned (o : option (option cerr)) : Prop :=
  match o with Some (Some e) => genuine e = true | Some None => True | None => False end.

Lemma returned_plain {A} (m : C A) c : returns m -> returned (error_of m c).
Proof. intros R. unfold error_of. specialize (R c). by destruct (m c) as [c' [a|e]]. Qed.

Lemma returned_data (m : C data_outcome) c :
  settles m -> returned (data_error_of m c).
Proof. intros R. unfold data_error_of. specialize (R c). by destruct (m c) as [c' [[results e]|e]]. Qed.

(** C11: Every call of a Client returns: from any state of the connection, against any server and network,
    and whatever the contexts and the caller's arguments, no loop of a call runs on; Data and BURL
    return their results beside the error. [NewClient] returns as well. *)
Theorem client_calls_return :
  (forall stream over_tls, match snd (NewClient opts wd stream over_tls) with Ok _ => True | Err e => genuine e = true end) /\
  forall c k, returned (outcome c k).
Proof.
  split; [apply NewClient_returns|].
  intros c k. destruct k; cbn [outcome]; first [apply returned_plain|apply returned_data];
    auto using returns_Noop, returns_Reset, returns_Quit, returns_Close, returns_StartTLS, returns_Auth, returns_Mail, returns_Rcpt,
      returns_rcptBatch, settles_Data, settles_BURL, returns_Verify, returns_Expand, returns_Help, returns_ETRN, returns_ATRN.
Qed.

End Operations.
End ClientTermination.
