(* ===== verification/Delivery.v ===== *)
(** * A message from a client to a server's sink

    The client of ClientCore.v and Client.v against the server's half of Dialogue.v, over a network that
    loses nothing: what the one writes is what the other reads, in both directions. The server's output
    does not depend on how its input arrives, nor the client's on how the replies do, so a run of both
    is a pair of streams in which each is what its side makes of the other. The theorem gives that pair
    for every submission and shows what becomes of the message. *)
From Stdlib Require Import ZArith Lia Bool.
From stdpp Require Import base list gmap strings.
From S2P Require Import Prelude GoStrings Utf8 Base64 Sasl Wire DotStuff Reply Command Path Ehlo Core.
From S2P Require Import ServerState ServerParams ServerSession SessionTheorems Memory Dialogue.
From S2P Require Import ClientParams ClientCore Client ClientFacts ClientData ClientFinal ClientInvariant ClientTermination.

#[local] Existing Instances ascii_only_unicode no_literals ParamFacts.no_times SaslFacts.toy_crypto.
#[local] Instance sorted_table : MapOrder := fun e => e.

(** ** The client *)
Module ClientSide.
Import smtpclient ClientFacts ClientData ClientFinal ClientInvariant ClientTermination Dialogue.

(** An SMTP client that greets as "me". *)
Definition quiet_options : ClientOptions := {| LMTP := false; ImplicitTLS := false; Identity := $"me"; Trace := false |}.

(** A network that loses nothing, and contexts that are never cancelled. *)
Definition lossless : world :=
  {| w_ctx := fun _ => None; w_write := fun _ => None; w_deadline := fun _ => None; w_buffered := fun _ _ => O;
     w_cuts := fun _ => []; w_handshake := fun _ _ => None; w_exporter := None; w_hostname := None; w_random := None |}.
Abbreviation wd := lossless.
Abbreviation opts := quiet_options.

(** A connection in such a session: what is left to read, and what was recorded. *)
Definition conn (s base : sessionState) (e : extensions) (rs : list bytes) (rd : bytes) (k : nat) (wr : list wire_event) : connection :=
  {| state := s; transactionBase := base; ext := e; recipients := rs; smtpUTF8 := false; binaryMIME := false;
     reader := {| unread := rd; final := EOF |}; tls := false; clock := k; wire := wr; traces := [] |}.

(** *** The pipeline when nothing fails *)

Lemma calm_write cmd line s b e rs rd k wr : line_of cmd = Ok line -> s <> stateClosed ->
  write quiet_options wd cmd (conn s b e rs rd k wr) = (conn s b e rs rd (S (S (S k))) (wr ++ [Wrote line]), Ok tt).
Proof. unfold line_of. intros L N. unfold write, send_line. cbv [mbind C_bind]. rewrite L. destruct s; done. Qed.

Lemma calm_read cmd rb reply s b e rs rd k wr :
  ReadReply {| unread := rb ++ rd; final := EOF |} ZeroLimits = Some (Ok reply, {| unread := rd; final := EOF |}) -> s <> stateClosed -> Reply.Code reply <> 421 ->
  read quiet_options wd cmd (conn s b e rs (rb ++ rd) k wr) = (conn s b e rs rd (S (S (S k))) (wr ++ [Got reply]), Ok reply).
Proof. intros L N C. unfold read. cbv [mbind C_bind].
  assert (raw_read wd (conn s b e rs (rb ++ rd) (S k) wr) = (conn s b e rs rd (S (S k)) (wr ++ [Got reply]), Ok reply)) as R.
  { unfold raw_read, read_arrived. cbn [w_deadline lossless clock reader conn]. rewrite L. destruct s; done. }
  change (ctx_check wd (conn s b e rs (rb ++ rd) k wr)) with (conn s b e rs (rb ++ rd) (S k) wr, @Ok cerr unit tt).
  cbn [get]. unfold get. cbv iota beta. rewrite R. cbv iota beta. unfold modify.
  apply Z.eqb_neq in C.
  change (ctx_poison wd (conn s b e rs rd (S (S k)) (wr ++ [Got reply]))) with (conn s b e rs rd (S (S (S k))) (wr ++ [Got reply]), @Ok cerr unit tt).
  cbv iota beta. unfold trace, modify. cbn [Trace quiet_options]. rewrite C. reflexivity.
Qed.

Section Calm.
Context (s b : sessionState) (e : extensions) (rs : list bytes) (Open : s <> stateClosed).
Abbreviation at_ := (conn s b e rs).

(** A command of a group, and the line it is. *)
Definition sends (cmd : queuedCommand) (line : bytes) : Prop :=
  line_of cmd = Ok line /\ Z.of_nat (length line) <= maxPipelineBytes /\ syncPoint cmd = false /\ completes cmd = false.

Lemma calm_issue commands lines room first n rd k wr :
  Forall2 sends commands lines ->
  exists issued rest lines1 lines2 k',
    commands = issued ++ rest /\ lines = lines1 ++ lines2 /\ length issued = length lines1 /\
    issue quiet_options wd commands room first n (at_ rd k wr) = (at_ rd k' (wr ++ map Wrote lines1), Ok (issued, rest)) /\
    (first = true -> (0 < room)%nat -> commands <> [] -> issued <> []).
Proof.
  intros F. revert room first n k wr. induction F as [|cmd line commands lines (L & B & Sy & Co) F IH]; intros room first n k wr.
  { exists [], [], [], [], k. cbn [map]. rewrite (app_nil_r wr). split_and!; try done. }
  destruct room as [|room]; [exists [], (cmd :: commands), [], (line :: lines), k; cbn [map]; rewrite (app_nil_r wr); split_and!; try done; intros; lia|].
  cbn [issue]. rewrite (commandLength_line _ _ L). destruct (Z.ltb_spec maxPipelineBytes (Z.of_nat (length line))); [lia|].
  destruct (negb first && _) eqn:Full.
  { exists [], (cmd :: commands), [], (line :: lines), k. cbn [map]. rewrite (app_nil_r wr). split_and!; try done. by intros ->. }
  rewrite Co. unfold mbind, C_bind. cbn [mret C_ret]. unfold classified, on_error.
  rewrite (calm_write cmd line) by done. cbv beta iota. rewrite Sy.
  destruct (IH room false (n + Z.of_nat (length line)) (S (S (S k))) (wr ++ [Wrote line])) as (issued & rest & l1 & l2 & k' & -> & -> & Ln & E & _).
  rewrite E. exists (cmd :: issued), rest, (line :: l1), l2, k'. cbn [fst snd map length]. rewrite <- app_assoc. split_and!; try done. cbn. lia.
Qed.

(** The peer answers every command with the same octets. *)
Context (rb : bytes) (reply : Reply.Reply) (Code : Reply.Code reply <> 421)
  (Reads : forall rd, ReadReply {| unread := rb ++ rd; final := EOF |} ZeroLimits = Some (Ok reply, {| unread := rd; final := EOF |})).

Definition many (n : nat) : bytes := concat (replicate n rb).

Lemma calm_collect issued rd k wr :
  exists k', collect quiet_options wd issued (at_ (many (length issued) ++ rd) k wr) =
    (at_ rd k' (wr ++ replicate (length issued) (Got reply)), Ok (replicate (length issued) reply)).
Proof.
  revert k wr. induction issued as [|cmd issued IH]; intros k wr; cbn [collect length replicate]; [exists k; by rewrite app_nil_r|].
  change (many (S (length issued))) with (rb ++ many (length issued)). rewrite <- app_assoc. unfold mbind, C_bind, classified, on_error.
  rewrite (calm_read (verb cmd) rb reply) by (done || apply Reads). cbv beta iota.
  destruct (IH (S (S (S k))) (wr ++ [Got reply])) as (k' & ->). exists k'. by rewrite <- app_assoc.
Qed.

Lemma payload_wrote lines : payload (map Wrote lines) = concat lines.
Proof. induction lines as [|l lines IH]; [done|]. cbn. by rewrite IH. Qed.
Lemma payload_got n : payload (replicate n (Got reply)) = [].
Proof. by induction n. Qed.

Lemma many_add n m : many (n + m) = many n ++ many m.
Proof. unfold many. by rewrite replicate_add, concat_app. Qed.

Lemma calm_rounds fuel commands lines rd k wr :
  Forall2 sends commands lines -> (length commands <= fuel)%nat ->
  exists k' wr', rounds quiet_options wd fuel commands (at_ (many (length commands) ++ rd) k wr) =
    (at_ rd k' wr', Ok (replicate (length commands) reply)) /\ payload wr' = payload wr ++ concat lines.
Proof.
  revert commands lines k wr. induction fuel as [|fuel IH]; intros [|cmd commands] lines k wr F L; try (cbn in L; lia);
    try (inversion F; subst; exists k, wr; cbn; by rewrite app_nil_r).
  cbn [rounds]. unfold mbind at 1, C_bind at 1, get. unfold mbind at 1, C_bind at 1.
  destruct (calm_issue (cmd :: commands) lines (depth (at_ (many (length (cmd :: commands)) ++ rd) k wr)) true 0
    (many (length (cmd :: commands)) ++ rd) k wr F) as (issued & rest & l1 & l2 & k1 & Ec & El & Ln & E & Ne).
  rewrite E. cbn [fst snd]. rewrite Ec, length_app, many_add, <- app_assoc.
  assert (Forall2 sends rest l2) as F2.
  { rewrite Ec, El in F. apply Forall2_app_inv in F as [_ F]; done. }
  assert (issued <> []) as Ne' by (apply Ne; [done|unfold depth, maxPipelineDepth; case_match; lia|done]).
  assert (length rest <= fuel)%nat as Lr.
  { apply (f_equal length) in Ec. rewrite length_app in Ec. destruct issued; [done|]. cbn in *. lia. }
  unfold mbind at 1, C_bind at 1. destruct (calm_collect issued (many (length rest) ++ rd) k1 (wr ++ map Wrote l1)) as (k2 & ->).
  unfold mbind at 1, C_bind at 1. destruct (IH rest l2 k2 ((wr ++ map Wrote l1) ++ replicate (length issued) (Got reply)) F2 Lr) as (k3 & wr3 & -> & P). exists k3, wr3.
  split; [by rewrite <- replicate_add|]. rewrite P, !payload_app, payload_wrote, payload_got, app_nil_r, El, concat_app. by rewrite app_assoc.
Qed.

Lemma calm_execute commands lines rd k wr :
  Forall2 sends (map upper commands) lines -> Forall (fun cmd => isSyncPoint (verb (upper cmd)) = false) commands ->
  exists k' wr', executeLocked quiet_options wd commands (at_ (many (length commands) ++ rd) k wr) =
    (at_ rd k' wr', Ok (replicate (length commands) reply)) /\ payload wr' = payload wr ++ concat lines.
Proof.
  intros F NS. destruct commands as [|cmd commands]; [inversion F; subst; exists k, wr; cbn; by rewrite app_nil_r|].
  assert (validate_group (cmd :: commands) = Ok (map upper (cmd :: commands))) as V.
  { clear -F NS. revert lines F. induction NS as [|c cs N NS IH]; intros lines F; [done|]. cbn [validate_group map].
    inversion F as [|x y l l' (_ & _ & Sy & _) F']; subst. cbv zeta. fold (upper c). rewrite Sy, N. cbn [orb andb].
    by rewrite (IH _ F'). }
  unfold executeLocked. rewrite V. unfold lift. unfold mbind at 1, C_bind at 1. cbn [mret C_ret].
  unfold mbind at 1, C_bind at 1, get. change (closed (at_ _ k wr)) with (sessionState_eqb s stateClosed).
  assert (sessionState_eqb s stateClosed = false) as -> by (by destruct s).
  destruct (calm_rounds (length (map upper (cmd :: commands))) (map upper (cmd :: commands)) lines rd k wr F (Nat.le_refl _)) as (k' & wr' & E & P).
  rewrite length_map in *. by exists k', wr'.
Qed.

(** A group of one, also where it ends the group. *)
Lemma calm_one cmd line rd k wr :
  line_of (upper cmd) = Ok line -> Z.of_nat (length line) <= maxPipelineBytes -> completes cmd = false ->
  exists k', execute_one quiet_options wd cmd (at_ (rb ++ rd) k wr) =
    (at_ rd k' (wr ++ [Wrote line; Got reply]), Ok reply).
Proof.
  intros L B Co. unfold execute_one, executeLocked. cbn [validate_group].
  rewrite andb_false_r. unfold lift. unfold mbind at 1, C_bind at 1. unfold mbind at 1, C_bind at 1. cbn [mret C_ret].
  fold (upper cmd). unfold mbind at 1, C_bind at 1, get. change (closed (at_ _ k wr)) with (sessionState_eqb s stateClosed).
  assert (sessionState_eqb s stateClosed = false) as -> by (by destruct s).
  cbn [length rounds]. unfold mbind at 1, C_bind at 1. unfold mbind at 1, C_bind at 1.
  unfold get. cbv beta iota. assert (exists d, depth (at_ (rb ++ rd) k wr) = S d) as [d ->] by (unfold depth, maxPipelineDepth; case_match; eauto).
  assert (issue quiet_options wd [upper cmd] (S d) true 0 (at_ (rb ++ rd) k wr) =
    (at_ (rb ++ rd) (S (S (S k))) (wr ++ [Wrote line]), Ok ([upper cmd], []))) as ->.
  { cbn [issue]. rewrite (commandLength_line _ _ L). destruct (Z.ltb_spec maxPipelineBytes (Z.of_nat (length line))); [lia|].
    cbn [negb andb completes upper]. rewrite Co. unfold mbind, C_bind. cbn [mret C_ret]. unfold classified, on_error.
    fold (upper cmd). rewrite (calm_write (upper cmd) line) by done. cbv beta iota. destruct (syncPoint (upper cmd)); [done|].
    by destruct d. }
  cbn [fst snd collect]. unfold mbind at 1, C_bind at 1. unfold mbind at 1, C_bind at 1. unfold classified, on_error.
  rewrite (calm_read (verb (upper cmd)) rb reply) by (done || apply Reads). cbv beta iota.
  eexists. cbn. by rewrite <- app_assoc.
Qed.
End Calm.

(** *** The writer of DATA over a transport that does not fail *)
Section Reliable.
Context {W : Type} `{IOWriter W} (P : W -> Prop).
Hypothesis Hok : forall w p, P w -> exists w', io_write w p = (w', None) /\ P w'.

(** An open writer over a transport that does not fail. *)
Definition good (d : Writer.DotStuffWriter W) : Prop := P (Writer.w d) /\ Writer.closed d = false.
Definition fine (x : Writer.DotStuffWriter W * option ioerr) : Prop := snd x = None /\ good (fst x).

Lemma emit_fine d p ls lb : good d -> fine (Writer.emit d p ls lb).
Proof. intros [Hd Hc]. unfold Writer.emit. destruct (Hok (Writer.w d) p Hd) as (w' & -> & Hw). by split. Qed.

Lemma emitLiteral_fine d p : good d -> fine (Writer.emitLiteral d p).
Proof.
  intros Hd. unfold Writer.emitLiteral. destruct p as [|c rest]; [by split|]. destruct (_ && _); [|by apply emit_fine].
  match goal with |- context [Writer.emit d ?q false DOT] => pose proof (emit_fine d q false DOT Hd) as F; destruct (Writer.emit d q false DOT) as [d1 [x|]] end;
    destruct F as [? ?]; [done|]. destruct rest; [by split|by apply emit_fine].
Qed.

Lemma write_loop_fine fuel d p n d' m x : good d -> Writer.write_loop fuel d p n = Some (d', m, x) -> x = None /\ good d'.
Proof.
  revert d p n. induction fuel as [|fuel IH]; intros d [|c p] n Hd; try done; try (by intros [= <- <- <-]).
  rewrite write_loop_round. destruct (Writer.pendingCR d).
  - pose proof (emit_fine (Writer.set_pendingCR d false) CRLF true LF Hd) as F. fold (Writer.emitCRLF (Writer.set_pendingCR d false)) in F.
    destruct (Writer.emitCRLF _) as [d1 [y|]]; destruct F as [? ?]; [done|]. destruct (c =b LF); by apply IH.
  - assert (forall d1 k q, good d1 -> after_cr fuel d1 q k = Some (d', m, x) -> x = None /\ good d') as A.
    { intros d1 k q H1. unfold after_cr. destruct q as [|c1 p1]; [by intros [= <- <- <-]|]. destruct (c1 =b LF); [|by apply IH].
      pose proof (emit_fine d1 CRLF true LF H1) as F. fold (Writer.emitCRLF d1) in F.
      destruct (Writer.emitCRLF d1) as [d2 [y|]]; destruct F as [? ?]; [done|by apply IH]. }
    destruct (Writer.indexCROrLF (c :: p)) as [i|].
    + destruct (0 <? i)%nat; [|by apply A]. pose proof (emitLiteral_fine d (take i (c :: p)) Hd) as F.
      destruct (Writer.emitLiteral d _) as [d1 [y|]]; destruct F as [? ?]; [done|by apply A].
    + pose proof (emitLiteral_fine d (c :: p) Hd) as F.
      destruct (Writer.emitLiteral d _) as [d1 [y|]]; destruct F as [? ?]; [done|by intros [= <- <- <-]].
Qed.

Lemma Write_fine d p : good d -> exists d' n, Writer.Write d p = Some (d', n, None) /\ good d'.
Proof.
  intros Hd. destruct (Write_returns d p) as [[[d' n] x] E]. revert E. unfold Writer.Write. rewrite (proj2 Hd).
  destruct (Writer.write_loop _ d p 0) as [[[d1 m] y]|] eqn:E; [|done]. apply write_loop_fine in E as [-> G]; [|done].
  intros _. by exists d1, m.
Qed.

Lemma Close_fine d : good d -> exists d', Writer.Close d = (d', None) /\ P (Writer.w d').
Proof.
  intros [Hd Hc]. unfold Writer.Close. rewrite Hc.
  set (d0 := {| Writer.w := Writer.w d; Writer.pendingCR := _; Writer.atLineStart := _; Writer.wroteAny := _; Writer.lastByte := _; Writer.closed := true |}).
  assert (exists d1, (if Writer.pendingCR d0 then Writer.emitCRLF (Writer.set_pendingCR d0 false) else (d0, None)) = (d1, None) /\ P (Writer.w d1)) as (d1 & -> & H1).
  { destruct (Writer.pendingCR d0); [|by exists d0]. unfold Writer.emitCRLF, Writer.emit.
    destruct (Hok (Writer.w d) CRLF Hd) as (w' & E & Hw). cbn [Writer.w Writer.set_pendingCR d0]. rewrite E. by eexists. }
  cbv zeta.
  assert (exists w2, (if Writer.wroteAny d1 && negb (Writer.lastByte d1 =b LF) then io_write (Writer.w d1) CRLF else (Writer.w d1, None)) = (w2, None) /\ P w2) as (w2 & -> & H2).
  { destruct (_ && _); [|by eexists]. destruct (Hok (Writer.w d1) CRLF H1) as (w' & E & Hw). by exists w'. }
  destruct (Hok w2 terminator H2) as (w3 & E & H3). cbn. rewrite E. by eexists.
Qed.
End Reliable.

(** The content of a message goes out, whatever its pieces. *)
Section Transfer.
Context (base : sessionState) (e : extensions).

Definition on_session (s : sessionState) (rs : list bytes) (rd : bytes) (c : connection) : Prop :=
  exists k wr, c = conn s base e rs rd k wr.

Lemma conn_stays s rs rd : s <> stateClosed -> forall c p, on_session s rs rd c ->
  exists c', raw_write wd c p = (c', None) /\ on_session s rs rd c'.
Proof.
  intros N c p (k & wr & ->). eexists. split; [|by eexists _, _]. unfold raw_write.
  change (closed (conn s base e rs rd k wr)) with (sessionState_eqb s stateClosed). destruct s; done.
Qed.

Lemma calm_transfer s rs rd ps dw : s <> stateClosed ->
  good (on_session s rs rd) dw ->
  exists dw', transfer wd ps None dw = (dw', None) /\ good (on_session s rs rd) dw'.
Proof.
  intros N. revert dw. induction ps as [|p ps IH]; intros dw [(k & wr & Ew) Hc]; cbn [transfer]; rewrite Ew;
    change (ctx_poison wd (conn s base e rs rd k wr)) with (conn s base e rs rd (S k) wr, @Ok cerr unit tt); cbv beta iota.
  - eexists. split; [reflexivity|]. split; [by eexists _, _|done].
  - set (dw1 := {| Writer.w := _; Writer.pendingCR := _; Writer.atLineStart := _; Writer.wroteAny := _; Writer.lastByte := _; Writer.closed := _ |}).
    assert (good (on_session s rs rd) dw1) as G by (split; [by eexists _, _|done]).
    destruct p as [|x p]; [by apply IH|].
    destruct (Write_fine (H := deadlineWriter wd) _ (conn_stays s rs rd N) dw1 (x :: p) G) as (dw2 & n & -> & G2). by apply IH.
Qed.
End Transfer.

(** *** The operations of a submission *)

(** What the server's EHLO reply offers. *)
Definition offered : extensions := Eval vm_compute in
  ext (fst (NewClient quiet_options wd {| unread := greeting ++ hello_reply; final := EOF |} false)).

Definition reply_text (code : Z) (t : bytes) : Reply.Reply := {| Reply.Code := code; Reply.Lines := [t]; Reply.Text := t |}.


Lemma validatePath_plain a : plain a -> validatePath a = Ok ("<"%byte :: a ++ $">").
Proof. intros P. unfold validatePath. by rewrite (plain_path _ P). Qed.

Lemma ascii_path a : plain a -> client_hasNonASCII ("<"%byte :: a ++ $">") = false.
Proof.
  intros P. change (hasHighByte ("<"%byte :: a ++ $">") = false). unfold hasHighByte. cbn [existsb]. rewrite existsb_app.
  pose proof (plain_ascii _ P) as Q. unfold hasHighByte in Q. by rewrite Q.
Qed.

(** Computations step by step. *)
Lemma run_bind {A B} (m : C A) (k : A -> C B) c c' a : m c = (c', Ok a) -> (m ≫= k) c = k a c'.
Proof. intros E. unfold mbind, C_bind. by rewrite E. Qed.

(** A step of a computation, by computing it or by an equation. *)
Ltac advance := erewrite run_bind; [|reflexivity]; cbv beta zeta.
Tactic Notation "via" uconstr(E) := erewrite run_bind; [|exact E]; cbv beta zeta.

Lemma mail_args a : plain a -> mailArgs offered false false ("<"%byte :: a ++ $">") None false = (false, Ok [$"FROM:" ++ "<"%byte :: a ++ $">"]).
Proof. intros P. unfold mailArgs, extensionMailParams, transportMailParams. rewrite (ascii_path a P). reflexivity. Qed.

Lemma mail_reads rd : ReadReply {| unread := mail_reply ++ rd; final := EOF |} ZeroLimits =
  Some (Ok (reply_text 250 ($"2.1.0 Sender OK")), {| unread := rd; final := EOF |}).
Proof. vm_compute. reflexivity. Qed.

Lemma calm_mail a rd k wr : plain a ->
  exists k', Client.Mail opts wd a None false (conn stateGreeted stateConnected offered [] (mail_reply ++ rd) k wr) =
    (conn stateTransaction stateGreeted offered [] rd k' (wr ++ [Wrote (mail_line a); Got (reply_text 250 ($"2.1.0 Sender OK"))]), Ok tt).
Proof.
  intros P. unfold Client.Mail. rewrite (validatePath_plain a P). advance. advance.
  change (mailArgs _ _ _ _ _ _) with (mailArgs offered false false ("<"%byte :: a ++ $">") None false). rewrite (mail_args a P).
  advance. advance.
  unfold commandLocked.
  destruct (calm_one stateGreeted stateConnected offered [] ltac:(done) mail_reply (reply_text 250 ($"2.1.0 Sender OK")) ltac:(done) mail_reads
    (command_of ($"MAIL") [$"FROM:" ++ "<"%byte :: a ++ $">"] false) (mail_line a) rd k wr) as (k' & E).
  { apply (encode_mail a P). }
  { pose proof (mail_line_length a P). change maxPipelineBytes with 65536. lia. }
  { done. }
  exists k'.
  erewrite run_bind; cycle 1. { advance. exact E. }
  advance. reflexivity.
Qed.

Definition recipient_of (a : bytes) : Recipient := {| rc_Address := a; rc_Options := None; rc_Allow := false |}.
Definition rcpt_answer : Reply.Reply := reply_text 250 ($"2.1.5 Recipient OK").

Lemma rcpt_reads rd : ReadReply {| unread := rcpt_reply ++ rd; final := EOF |} ZeroLimits = Some (Ok rcpt_answer, {| unread := rd; final := EOF |}).
Proof. vm_compute. reflexivity. Qed.

Definition rcpt_command (a : bytes) : queuedCommand := command_of ($"RCPT") [$"TO:" ++ "<"%byte :: a ++ $">"] false.

Lemma rcpt_commands_plain rs : Forall plain rs -> rcpt_commands offered false (map recipient_of rs) = Ok (map rcpt_command rs).
Proof.
  induction 1 as [|r rs P _ IH]; [done|]. cbn [map rcpt_commands]. unfold rcptArgs at 1. cbn [rc_Address rc_Options recipient_of].
  destruct (beq_spec r []) as [->|]; [by apply plain_nonempty in P|]. rewrite (validatePath_plain r P), (ascii_path r P). cbn [andb negb].
  by rewrite IH.
Qed.

Lemma rcpt_sends rs : Forall plain rs -> Forall2 sends (map upper (map rcpt_command rs)) (map rcpt_line rs).
Proof.
  induction 1 as [|r rs P _ IH]; [constructor|]. cbn [map]. constructor; [|exact IH]. split_and!; try done.
  - apply (encode_rcpt r P).
  - pose proof (rcpt_line_length r P). change maxPipelineBytes with 65536. lia.
Qed.

Definition rcpt_result (r : bytes) : smtp.RecipientResult := recipientResult r ($"RCPT") rcpt_answer true.

Lemma calm_rcpts rs rd k wr : Forall plain rs -> rs <> [] ->
  exists k' wr', RcptBatch opts wd (map recipient_of rs) (conn stateTransaction stateGreeted offered [] (many rcpt_reply (length rs) ++ rd) k wr) =
    (conn stateTransaction stateGreeted offered rs rd k' wr', Ok (map rcpt_result rs)) /\ payload wr' = payload wr ++ concat (map rcpt_line rs).
Proof.
  intros P N. destruct (calm_execute stateTransaction stateGreeted offered [] ltac:(done) rcpt_reply rcpt_answer ltac:(done) rcpt_reads
    (map rcpt_command rs) (map rcpt_line rs) rd (S k) wr (rcpt_sends rs P)) as (k' & wr' & E & Pay).
  { clear. induction rs; constructor; done. }
  rewrite length_map in E. exists k', wr'. split; [|exact Pay].
  unfold RcptBatch, rcptBatch. destruct rs as [|r rs]; [done|]. set (all := r :: rs) in *.
  change (map recipient_of all) with (recipient_of r :: map recipient_of rs).
  advance. advance. advance. change (recipient_of r :: map recipient_of rs) with (map recipient_of all).
  change (ext (conn _ _ _ _ _ _ _)) with offered. change (smtpUTF8 (conn _ _ _ _ _ _ _)) with false. rewrite rcpt_commands_plain by done.
  advance. via E. advance. advance.
  assert (forall l, rcpt_accepted (map recipient_of l) (replicate (length l) rcpt_answer) = l) as A.
  { unfold rcpt_accepted. induction l as [|x l IH]; [done|]. cbn. f_equal. exact IH. }
  assert (forall l, rcpt_results true (map recipient_of l) (replicate (length l) rcpt_answer) = map rcpt_result l) as B.
  { unfold rcpt_results. induction l as [|x l IH]; [done|]. cbn [map length replicate zip_with]. f_equal. exact IH. }
  change (enhancedStatusCodes _) with true. cbn [mret C_ret]. rewrite B.
  unfold unless_closed. cbn [closed]. change (closed (conn _ _ _ _ _ _ _)) with false. cbv iota. rewrite A. reflexivity.
Qed.

Definition content_source (ps : list bytes) : source := {| pieces := ps; src_err := None |}.
Definition data_result (r : bytes) : smtp.RecipientResult := recipientResult r ($"DATA") (reply_text 250 ($"2.0.0 OK")) true.

Lemma data_reads rd : ReadReply {| unread := data_reply ++ rd; final := EOF |} ZeroLimits =
  Some (Ok (reply_text 354 ($"End data with <CRLF>.<CRLF>")), {| unread := rd; final := EOF |}).
Proof. vm_compute. reflexivity. Qed.
Lemma stored_reads rd : ReadReply {| unread := stored_reply ++ rd; final := EOF |} ZeroLimits =
  Some (Ok (reply_text 250 ($"2.0.0 OK")), {| unread := rd; final := EOF |}).
Proof. vm_compute. reflexivity. Qed.
Lemma bye_reads rd : ReadReply {| unread := bye ++ rd; final := EOF |} ZeroLimits =
  Some (Ok (reply_text 221 ($"2.0.0 mx.example closing connection")), {| unread := rd; final := EOF |}).
Proof. vm_compute. reflexivity. Qed.

Lemma run_failing {A} (m : C A) (k : A -> C data_outcome) c c' a : m c = (c', Ok a) -> bind_failing m k c = k a c'.
Proof. intros E. unfold bind_failing. by rewrite E. Qed.
Ltac advance_failing := erewrite run_failing; [|reflexivity]; cbv beta zeta.
Tactic Notation "via_failing" uconstr(E) := erewrite run_failing; [|exact E]; cbv beta zeta.

Lemma run_on_error {A} f (m : C A) c c' a : m c = (c', Ok a) -> on_error f m c = (c', Ok a).
Proof. intros E. unfold on_error. by rewrite E. Qed.

Lemma calm_content rs ps rd k wr :
  exists k' wr', data_content opts wd (content_source ps) rs (conn stateTransaction stateGreeted offered rs (stored_reply ++ rd) k wr) =
    (conn stateGreeted stateGreeted offered [] rd k' wr', Ok (map data_result rs, None)) /\
    payload wr' = payload wr ++ Spec.stuffed (concat ps).
Proof.
  set (c := conn _ _ _ _ _ _ _). pose proof (data_content_spec opts wd (content_source ps) rs c eq_refl) as Sp. unfold wp in Sp.
  assert (exists k' wr', data_content opts wd (content_source ps) rs c = (conn stateGreeted stateGreeted offered [] rd k' wr', Ok (map data_result rs, None))) as (k' & wr' & E).
  { clear Sp. unfold data_content, content_source. cbn [pieces src_err].
    destruct (calm_transfer stateGreeted offered stateTransaction rs (stored_reply ++ rd) ps (Writer.NewDotStuffWriter c) ltac:(done)) as (dw & -> & G).
    { split; [by eexists _, _|done]. }
    destruct (Close_fine (H := deadlineWriter wd) _ (conn_stays stateGreeted offered stateTransaction rs (stored_reply ++ rd) ltac:(done)) dw G) as (dw' & -> & k1 & wr1 & ->).
    eexists _, _. advance_failing. change (LMTP opts) with false. cbv iota.
    via_failing (run_on_error _ _ _ _ _ (calm_read ($"DATA") stored_reply (reply_text 250 ($"2.0.0 OK")) stateTransaction stateGreeted offered rs rd (S k1) wr1
      (stored_reads rd) ltac:(done) ltac:(done))).
    advance_failing. advance_failing. advance_failing. reflexivity. }
  exists k', wr'. split; [exact E|]. rewrite E in Sp. cbn [fst snd] in Sp. destruct Sp as (o & evs & [= <-] & W & _ & Pay).
  change (wire (conn stateGreeted stateGreeted offered [] rd k' wr')) with wr' in W. rewrite W, payload_app, (Pay eq_refl). reflexivity.
Qed.


Lemma calm_data rs ps rd k wr : rs <> [] ->
  exists k' wr', Client.Data opts wd (content_source ps) None (conn stateTransaction stateGreeted offered rs (data_reply ++ stored_reply ++ rd) k wr) =
    (conn stateGreeted stateGreeted offered [] rd k' wr', Ok (map data_result rs, None)) /\
    payload wr' = payload wr ++ data_line ++ Spec.stuffed (concat ps).
Proof.
  intros N. unfold Client.Data.
  destruct (calm_one stateTransaction stateGreeted offered rs ltac:(done) data_reply (reply_text 354 ($"End data with <CRLF>.<CRLF>")) ltac:(done) data_reads
    (command_of ($"DATA") [] true) data_line (stored_reply ++ rd) (S k) wr) as (k1 & E1); [reflexivity|vm_compute; congruence|done|].
  destruct (calm_content rs ps rd k1 (wr ++ [Wrote data_line; Got (reply_text 354 ($"End data with <CRLF>.<CRLF>"))])) as (k2 & wr2 & E2 & Pay).
  eexists _, wr2. split.
  - advance. change (binaryMIME _) with false. cbv iota. unfold data_command. advance_failing. advance. advance_failing.
    change (tick (conn stateTransaction stateGreeted offered rs (data_reply ++ stored_reply ++ rd) k wr)) with (conn stateTransaction stateGreeted offered rs (data_reply ++ stored_reply ++ rd) (S k) wr).
    change (recipients (conn _ _ _ _ _ _ _)) with rs. destruct rs as [|r rs]; [done|]. cbn [andb].
    via_failing E1. advance_failing. via E2. advance. reflexivity.
  - rewrite Pay, payload_app. cbn [payload]. by rewrite app_nil_r, <- app_assoc.
Qed.

Lemma calm_quit rd k wr :
  exists c, Client.Quit opts wd (conn stateGreeted stateGreeted offered [] (bye ++ rd) k wr) = (c, Ok tt) /\
    payload (wire c) = payload wr ++ quit_line /\ unread (reader c) = rd /\ closed c = true.
Proof.
  destruct (calm_one stateGreeted stateGreeted offered [] ltac:(done) bye (reply_text 221 ($"2.0.0 mx.example closing connection")) ltac:(done) bye_reads
    (command_of ($"QUIT") [] true) quit_line rd (S k) wr) as (k1 & E1); [reflexivity|vm_compute; congruence|done|].
  eexists. split_and!.
  - unfold Client.Quit. advance. advance. change (closed _) with false. cbv iota. unfold quit_and_close. erewrite run_bind; [|exact E1]. reflexivity.
  - rewrite poison_wire. cbn [wire conn]. rewrite !payload_app. cbn. by rewrite !app_nil_r.
  - reflexivity.
  - apply poison_closed.
Qed.

(** The negotiation: EHLO is sent, and the extensions are those the server lists. *)
Lemma calm_new rest :
  exists k wr, NewClient opts wd {| unread := greeting ++ hello_reply ++ rest; final := EOF |} false =
    (conn stateGreeted stateConnected offered [] rest k wr, Ok tt) /\ payload wr = hello_line.
Proof. eexists _, _. split; [vm_compute; reflexivity|reflexivity]. Qed.

(** MAIL, the recipients in one batch, DATA, QUIT; an error ends it. *)
Definition submit (from_ : bytes) (to_ : list bytes) (ps : list bytes) : C (list smtp.RecipientResult * data_outcome) :=
  Client.Mail opts wd from_ None false;;
  accepted ← RcptBatch opts wd (map recipient_of to_);
  out ← Client.Data opts wd (content_source ps) None;
  Client.Quit opts wd;;
  mret (accepted, out).

Lemma submission_sent a rs ps :
  plain a -> Forall plain rs -> rs <> [] ->
  exists c0 c,
    NewClient opts wd {| unread := replies (length rs); final := EOF |} false = (c0, Ok tt) /\
    submit a rs ps c0 = (c, Ok (map rcpt_result rs, (map data_result rs, None))) /\
    payload (wire c) = submission a rs (concat ps) /\ unread (reader c) = [] /\ closed c = true.
Proof.
  intros Pa Pr N. unfold replies.
  destruct (calm_new (mail_reply ++ concat (replicate (length rs) rcpt_reply) ++ data_reply ++ stored_reply ++ bye)) as (k0 & w0 & E0 & P0).
  destruct (calm_mail a (concat (replicate (length rs) rcpt_reply) ++ data_reply ++ stored_reply ++ bye) k0 w0 Pa) as (k1 & E1).
  destruct (calm_rcpts rs (data_reply ++ stored_reply ++ bye) k1 (w0 ++ [Wrote (mail_line a); Got (reply_text 250 ($"2.1.0 Sender OK"))]) Pr N)
    as (k2 & w2 & E2 & P2).
  destruct (calm_data rs ps bye k2 w2 N) as (k3 & w3 & E3 & P3).
  destruct (calm_quit [] k3 w3) as (c & E4 & P4 & R4 & C4). rewrite app_nil_r in E4.
  eexists _, c. split_and!; [exact E0| | |exact R4|exact C4].
  - unfold submit. via E1. via E2. via E3. via E4. reflexivity.
  - rewrite P4, P3, P2, payload_app, P0. cbn [payload]. unfold submission. rewrite app_nil_r. by rewrite <- !app_assoc.
Qed.

(** Both results name every recipient, and accept it. *)
Lemma results_accepted l :
  map smtp.RRecipient (map rcpt_result l) = l /\ map smtp.RRecipient (map data_result l) = l /\
  forallb smtp.Accepted (map rcpt_result l) = true /\ forallb smtp.Accepted (map data_result l) = true.
Proof.
  induction l as [|x l (I1 & I2 & I3 & I4)]; [repeat split|]. cbn [map forallb]. rewrite I1, I2, I3, I4. repeat split.
Qed.

End ClientSide.

(** ** Both sides *)
Module EndToEnd.
Import smtpclient ClientFacts ClientFinal Dialogue ServerSide ClientSide Samples.

Section EndToEnd.
Context (room : observations -> nat) (bound : nat) (Hroom : forall obs, (0 < room obs)%nat).

(** The listener's connection with the sink behind it, on what a client sends. *)
Definition serve_stream (fuel : nat) (input : bytes) : outcome :=
  serveConnection fuel listener quiet false spools0 {| unread := input; final := EOF |} None
    (Ok (Some (memory_session modeSMTP room bound))).

(** C2: End to end, over a transport that loses nothing and one fixed pair of endpoints: the listener of
    Dialogue (SMTP, no TLS or AUTH required, messages of at most 1000000 octets, at most 100
    recipients) with a sink that stores up to [bound] octets, and a client with default options in
    plain text. For every sender and every one to a hundred recipients that are plain mailboxes
    (local part, @ and domain, valid by the library's own rules; ASCII without controls, line ends,
    NUL or angle brackets; no address literal; at most 4000 octets, so the null sender and UTF-8
    mailboxes are not among them), and for every content, cut into any pieces, whose normalized form
    has at most 1000000 octets and fits the sink together with its Received field: there is a run of
    the client and the server in which each reads exactly what the other writes. The client is told
    that every recipient was accepted and that the message was; the sink then holds one message,
    with that sender, those recipients in order, and the content with its line endings normalized,
    behind the Received field; and both sides have read everything and closed. *)
Theorem message_delivered from_ to_ ps fuel :
  plain from_ -> Forall plain to_ -> (0 < length to_ <= 100)%nat ->
  Z.of_nat (length (Spec.body (concat ps))) <= 1000000 ->
  (length (trace_field to_) + length (Spec.body (concat ps)) < bound)%nat -> (length to_ + 4 <= fuel)%nat ->
  exists s c0 c accepted results,
    serve_stream fuel (payload (wire c)) = Served s (Ok tt) /\
    NewClient quiet_options lossless {| unread := concat (ServerSession.sent s); final := EOF |} false = (c0, Ok tt) /\
    submit from_ to_ ps c0 = (c, Ok (accepted, (results, None))) /\
    map smtp.RRecipient accepted = to_ /\ map smtp.RRecipient results = to_ /\ forallb smtp.Accepted (accepted ++ results) = true /\
    stored modeSMTP (log s) =
      [{| m_Mode := modeSMTP; ReversePath := from_; Recipients := to_; Memory.Data := trace_field to_ ++ Spec.body (concat ps) |}] /\
    unread (lr_ s) = [] /\ unread (reader c) = [] /\ closed c = true.
Proof.
  intros Pf Pt Lt Lb Lh Lf. destruct to_ as [|r rs]; [cbn in Lt; lia|].
  destruct (submission_served room bound Hroom from_ r rs (concat ps) fuel Pf Pt) as (s & E & Out & St & Rd); [lia|done|done|cbn in *; lia|].
  destruct (submission_sent from_ (r :: rs) ps Pf Pt ltac:(done)) as (c0 & c & Ec & Es & Pay & Rc & Cl).
  exists s, c0, c, (map rcpt_result (r :: rs)), (map data_result (r :: rs)). rewrite Pay, Out.
  destruct (results_accepted (r :: rs)) as (N1 & N2 & A1 & A2).
  repeat (apply conj); [exact E|exact Ec|exact Es|exact N1|exact N2| |exact St|exact Rd|exact Rc|exact Cl].
  rewrite forallb_app, A1. exact A2.
Qed.
End EndToEnd.

(** A message with a dot at the start of a line, a bare line feed and no line end at its end. *)
Definition sample_pieces : list bytes := [$".first" ++ [LF]; $"."; $"second"].

Lemma plain_sample local domain :
  (forall u, validateLocalPart local u = None /\ validateDomain domain u = None) -> head domain <> Some "["%byte ->
  let a := local ++ "@"%byte :: domain in
  ContainsAny a [CR; LF; x00; "<"%byte; ">"%byte] = false -> existsb is_ctl a = false -> ValidString a = true ->
  hasHighByte a = false -> Z.of_nat (length a) <= 4000 -> plain a.
Proof. intros V H a. split; try done. by exists local, domain. Qed.

Lemma plain_samples : plain ($"a@b.c") /\ Forall plain [$"d@e.f"; $"g.h@i.j"].
Proof.
  split; [|constructor; [|constructor; [|constructor]]].
  - apply (plain_sample ($"a") ($"b.c")); [intros []; split; vm_compute; reflexivity|discriminate|vm_compute; reflexivity..|vm_compute; discriminate].
  - apply (plain_sample ($"d") ($"e.f")); [intros []; split; vm_compute; reflexivity|discriminate|vm_compute; reflexivity..|vm_compute; discriminate].
  - apply (plain_sample ($"g.h") ($"i.j")); [intros []; split; vm_compute; reflexivity|discriminate|vm_compute; reflexivity..|vm_compute; discriminate].
Qed.

Lemma message_delivered_witness :
  exists s c0 c accepted results,
    serve_stream (fun _ => 512%nat) 1000 6 (payload (wire c)) = Served s (Ok tt) /\
    NewClient quiet_options lossless {| unread := concat (ServerSession.sent s); final := EOF |} false = (c0, Ok tt) /\
    submit ($"a@b.c") [$"d@e.f"; $"g.h@i.j"] sample_pieces c0 = (c, Ok (accepted, (results, None))) /\
    map smtp.RRecipient accepted = [$"d@e.f"; $"g.h@i.j"] /\ map smtp.RRecipient results = [$"d@e.f"; $"g.h@i.j"] /\
    forallb smtp.Accepted (accepted ++ results) = true /\
    stored modeSMTP (log s) =
      [{| m_Mode := modeSMTP; ReversePath := $"a@b.c"; Recipients := [$"d@e.f"; $"g.h@i.j"];
          Memory.Data := trace_field [$"d@e.f"; $"g.h@i.j"] ++ Spec.body (concat sample_pieces) |}] /\
    unread (lr_ s) = [] /\ unread (reader c) = [] /\ closed c = true.
Proof.
  refine (message_delivered (fun _ => 512%nat) 1000 _ ($"a@b.c") [$"d@e.f"; $"g.h@i.j"] sample_pieces 6
    (proj1 plain_samples) (proj2 plain_samples) _ _ _ _); [intros obs; lia|cbn; lia|vm_compute; congruence|vm_compute; lia|cbn; lia].
Defined.

End EndToEnd.
