(* ===== verification/ClientSecurity.v ===== *)
(** * smtpclient: what an attacker on the cleartext session obtains

    Of the cleartext stream STARTTLS uses one reply: what its reader holds besides is dropped, and what
    is still on the transport meets the handshake. AUTH gives a
    cleartext session nothing of the secrets. Both compare two runs of one call. *)
From Stdlib Require Import ZArith Lia Bool.
From stdpp Require Import base list gmap strings.
From S2P Require Import Prelude GoStrings Utf8 Base64 Sasl Wire DotStuff Reply Command Path Ehlo Core.
From S2P Require Import NormTables Unicodenorm NormTheorems SaslprepTables Saslprep.
From S2P Require Import ServerParams ClientParams ClientCore Client ClientFacts ClientData ClientFinal.
Import smtpclient ClientFacts ClientFinal.

Module ClientSecurity.

(** ** A reply is read from its own octets *)

Lemma read_line_local max fin s buf l rest fin' extra :
  read_line max fin s buf = (Ok l, rest) -> read_line max fin' (s ++ extra) buf = (Ok l, rest ++ extra).
Proof.
  revert buf. induction s as [|b s IH]; intros buf; cbn [read_line app]; [done|].
  destruct (b =b LF); [by intros [= <- <-]|]. destruct (_ <=? _); [done|apply IH].
Qed.

Lemma read_reply_local fuel lims s fin code lines n reply rest fuel' fin' extra :
  (fuel <= fuel')%nat ->
  read_reply fuel lims {| unread := s; final := fin |} code lines n = Some (Ok reply, {| unread := rest; final := fin |}) ->
  read_reply fuel' lims {| unread := s ++ extra; final := fin' |} code lines n =
    Some (Ok reply, {| unread := rest ++ extra; final := fin' |}).
Proof.
  revert fuel' s code lines n. induction fuel as [|fuel IH]; intros [|fuel'] s code lines n Hf; try (cbn; done || lia).
  cbn [read_reply]. unfold readLine. cbn [unread final].
  destruct (read_line _ fin s []) as [[raw|e] s1] eqn:E; [|by repeat case_match].
  apply (read_line_local _ _ _ _ _ _ fin' extra) in E as ->. destruct (parseReplyLine raw) as [[[lc cont] text]|e]; [|done].
  do 4 (case_match; [done|]). destruct cont; [apply IH; lia|]. by intros [= <- ->].
Qed.

(** [line] is one whole reply. *)
Definition one_reply (line : bytes) (reply : Reply.Reply) : Prop :=
  ReadReply {| unread := line; final := EOF |} ZeroLimits = Some (Ok reply, {| unread := []; final := EOF |}).

Lemma one_reply_local line reply fin extra :
  one_reply line reply ->
  ReadReply {| unread := line ++ extra; final := fin |} ZeroLimits = Some (Ok reply, {| unread := extra; final := fin |}).
Proof.
  unfold one_reply, ReadReply. cbn [unread]. intros E.
  by apply (read_reply_local _ _ _ _ _ _ _ _ _ (S (length (line ++ extra))) fin extra) in E; [|rewrite length_app; lia].
Qed.

(** ** Two runs that differ in what the stream holds *)

Definition blank : LineReader := {| unread := []; final := EOF |}.
Definition forget (c : connection) : connection := set_stream c blank (tls c).

(** The connections agree but for their streams, which are in [R]. *)
Definition alike (R : LineReader -> LineReader -> Prop) (c1 c2 : connection) : Prop :=
  forget c1 = forget c2 /\ R (reader c1) (reader c2).

Definition any : LineReader -> LineReader -> Prop := fun _ _ => True.

Definition runs {A} (m1 m2 : C A) (Q : A -> connection -> connection -> Prop) (c1 c2 : connection) : Prop :=
  match m1 c1, m2 c2 with
  | (d1, Ok a1), (d2, Ok a2) => a1 = a2 /\ Q a1 d1 d2
  | (d1, Err e1), (d2, Err e2) => e1 = e2 /\ alike any d1 d2
  | _, _ => False
  end.

Lemma runs_bind {A B} (m1 m2 : C A) (k1 k2 : A -> C B) Q c1 c2 :
  runs m1 m2 (fun a => runs (k1 a) (k2 a) Q) c1 c2 -> runs (m1 ≫= k1) (m2 ≫= k2) Q c1 c2.
Proof.
  unfold runs, mbind, C_bind. destruct (m1 c1) as [d1 [a1|e1]], (m2 c2) as [d2 [a2|e2]]; try done. by intros [-> K].
Qed.

Lemma runs_mono {A} (m1 m2 : C A) (Q Q' : A -> connection -> connection -> Prop) c1 c2 :
  runs m1 m2 Q c1 c2 -> (forall a d1 d2, Q a d1 d2 -> Q' a d1 d2) -> runs m1 m2 Q' c1 c2.
Proof. unfold runs. intros K HQ. repeat case_match; try done. destruct K; split; auto. Qed.

Lemma runs_get {B} (k1 k2 : connection -> C B) Q c1 c2 : runs (k1 c1) (k2 c2) Q c1 c2 -> runs (get ≫= k1) (get ≫= k2) Q c1 c2.
Proof. done. Qed.
Lemma runs_ret {A} (a : A) Q c1 c2 : Q a c1 c2 -> runs (mret a) (mret a) Q c1 c2.
Proof. done. Qed.
Lemma runs_fail {A} e Q c1 c2 : alike any c1 c2 -> runs (@fail A e) (fail e) Q c1 c2.
Proof. done. Qed.
Lemma runs_on_error {A} f (m1 m2 : C A) Q c1 c2 : runs m1 m2 Q c1 c2 -> runs (on_error f m1) (on_error f m2) Q c1 c2.
Proof. unfold runs, on_error. repeat case_match; try done. simplify_eq. intros [-> ?]. done. Qed.

(** From one connection there is one run. *)
Lemma runs_same {A} (m : C A) c : runs m m (fun _ => eq) c c.
Proof. unfold runs. by destruct (m c) as [d [a|e]]. Qed.

Section Alike.
Context `{Unicode} (opts : ClientOptions) (wd : world) (R : LineReader -> LineReader -> Prop).

Lemma alike_any c1 c2 : alike R c1 c2 -> alike any c1 c2.
Proof. by intros []. Qed.

(** What the streams do not decide. *)
Lemma alike_fields c1 c2 : alike R c1 c2 ->
  session c1 = session c2 /\ clock c1 = clock c2 /\ wire c1 = wire c2 /\ traces c1 = traces c2.
Proof. intros [E _]. destruct c1, c2. injection E. intros. subst. done. Qed.

Lemma alike_map f g c1 c2 :
  (forall c, forget (f c) = g (forget c)) -> (forall c, reader (f c) = reader c) -> alike R c1 c2 -> alike R (f c1) (f c2).
Proof. intros F G [E Rd]. split; [by rewrite !F, E|by rewrite !G]. Qed.

Lemma alike_tick c1 c2 : alike R c1 c2 -> alike R (tick c1) (tick c2).
Proof. by apply (alike_map tick tick). Qed.
Lemma alike_record e c1 c2 : alike R c1 c2 -> alike R (record c1 e) (record c2 e).
Proof. by apply (alike_map (fun c => record c e) (fun c => record c e)). Qed.
Lemma alike_poison c1 c2 : alike R c1 c2 -> alike R (poison c1) (poison c2).
Proof.
  apply (alike_map poison poison); intros c; unfold poison; change (closed (forget c)) with (closed c); by destruct (closed c).
Qed.
Lemma alike_closed c1 c2 : alike R c1 c2 -> closed c1 = closed c2.
Proof. intros (S & _)%alike_fields. by apply session_closed. Qed.

Lemma runs_ctx_Err c1 c2 : alike R c1 c2 -> runs (ctx_Err wd) (ctx_Err wd) (fun _ => alike R) c1 c2.
Proof. intros L. unfold runs, ctx_Err. destruct (alike_fields _ _ L) as (_ & -> & _). split; [done|by apply alike_tick]. Qed.

Lemma runs_ctx_check c1 c2 : alike R c1 c2 -> runs (ctx_check wd) (ctx_check wd) (fun _ => alike R) c1 c2.
Proof.
  intros L. apply runs_bind. eapply runs_mono; [by apply runs_ctx_Err|]. intros [e|] d1 d2 L'; [|done].
  by apply runs_fail, alike_any.
Qed.

Lemma runs_poisoned {A} e Q c1 c2 : alike R c1 c2 -> runs (@poisoned A e) (poisoned e) Q c1 c2.
Proof. intros L. split; [done|]. by apply alike_any, alike_poison. Qed.

Lemma runs_ctx_poison c1 c2 : alike R c1 c2 -> runs (ctx_poison wd) (ctx_poison wd) (fun _ => alike R) c1 c2.
Proof.
  intros L. apply runs_bind. eapply runs_mono; [by apply runs_ctx_Err|]. intros [e|] d1 d2 L'; [by apply runs_poisoned|by apply runs_ret].
Qed.

Lemma runs_trace d l c1 c2 : alike R c1 c2 -> runs (trace opts d l) (trace opts d l) (fun _ => alike R) c1 c2.
Proof.
  intros L. split; [done|]. destruct (Trace opts); [|done].
  set (e := {| Direction := d; Line := l |}). by apply (alike_map (fun c => add_trace c e) (fun c => add_trace c e)).
Qed.

Lemma raw_write_alike p c1 c2 : alike R c1 c2 ->
  snd (raw_write wd c1 p) = snd (raw_write wd c2 p) /\ alike R (fst (raw_write wd c1 p)) (fst (raw_write wd c2 p)).
Proof.
  intros L. unfold raw_write. rewrite (alike_closed _ _ L). destruct (alike_fields _ _ L) as (_ & -> & _).
  destruct (closed c2); [split; [done|by apply alike_tick]|].
  destruct (w_write wd (clock c2)) as [[k e]|]; cbn [fst snd]; (split; [done|by apply alike_record, alike_tick]).
Qed.

Lemma runs_write cmd c1 c2 : alike R c1 c2 -> runs (write opts wd cmd) (write opts wd cmd) (fun _ => alike R) c1 c2.
Proof.
  intros L. apply runs_bind, runs_bind. eapply runs_mono; [by apply runs_ctx_check|]. intros [] d1 d2 L1. apply runs_get.
  destruct (EncodeCommand _ _) as [line|e].
  - destruct (raw_write_alike line _ _ L1) as [Es L2]. destruct (raw_write wd d1 line) as [e1 err1], (raw_write wd d2 line) as [e2 err2].
    cbn in Es, L2. subst err2.
    apply (runs_bind (modify (fun _ => e1)) (modify (fun _ => e2))). split; [done|]. apply runs_bind.
    eapply runs_mono; [by apply runs_ctx_poison|]. intros [] f1 f2 L3. destruct err1; [by apply runs_poisoned|]. apply runs_ret.
    by apply runs_trace.
  - apply runs_bind. eapply runs_mono; [by apply runs_ctx_poison|]. intros [] f1 f2 L3. by apply runs_poisoned.
Qed.

End Alike.

(** ** Reading the next reply *)
Section Next.
Context `{Unicode} (opts : ClientOptions) (wd : world).

(** Reading leaves the way the stream ends alone. *)
Lemma read_reply_final fuel lims r code lines n res rest :
  read_reply fuel lims r code lines n = Some (res, rest) -> final rest = final r.
Proof.
  revert r code lines n. induction fuel as [|fuel IH]; intros r code lines n; [done|]. cbn [read_reply].
  unfold readLine. destruct (read_line _ (final r) (unread r) []) as [[raw|e] s1]; cbn [unread final];
    [|by repeat case_match; intros [= <- <-]].
  destruct (parseReplyLine raw) as [[[lc cont] text]|e]; [|by intros [= <- <-]].
  do 4 (case_match; [by intros [= <- <-]|]). destruct cont; [by intros ->%IH|by intros [= <- <-]].
Qed.

(** A whole reply cut short by the deadline is no reply. *)
Lemma cut_reply line reply k :
  one_reply line reply -> (k < length line)%nat ->
  exists e rest, ReadReply {| unread := take k line; final := ErrTimeout |} ZeroLimits = Some (Err e, rest).
Proof.
  intros One Hk. destruct (ReadReply_total {| unread := take k line; final := ErrTimeout |} ZeroLimits) as (r & [left fin] & E).
  destruct r as [r|e]; [exfalso|by eauto].
  assert (fin = ErrTimeout) as -> by by apply read_reply_final in E.
  unfold ReadReply in E. apply (read_reply_local _ _ _ _ _ _ _ _ _ (S (length line)) EOF (drop k line)) in E;
    [|cbn; rewrite length_take; lia].
  rewrite take_drop in E. unfold one_reply, ReadReply in One. cbn [unread] in One. rewrite One in E.
  injection E as _ E. symmetry in E. apply app_eq_nil in E as [_ E]. apply (f_equal length) in E.
  rewrite length_drop in E. cbn in E. lia.
Qed.

Section Rests.
Context (s1 s2 : LineReader).

(** One whole reply, and then [s]. *)
Definition then_ (line : bytes) (s : LineReader) : LineReader := {| unread := line ++ unread s; final := final s |}.

(** Streams that start with the same whole reply, [s1] and [s2] being what follows it; and the streams
    once it was read. *)
Definition same_next (r1 r2 : LineReader) : Prop :=
  exists line reply, one_reply line reply /\ r1 = then_ line s1 /\ r2 = then_ line s2.
Definition rests (r1 r2 : LineReader) : Prop := r1 = s1 /\ r2 = s2.

Lemma read_arrived_next line reply s c :
  one_reply line reply -> reader c = then_ line s ->
  match (match w_deadline wd (clock c) with Some k => if (k <? length line)%nat then Some k else None | None => None end) with
  | Some k => exists e rest rest', read_arrived wd c = Some (Err e, rest') /\
      ReadReply {| unread := take k line; final := ErrTimeout |} ZeroLimits = Some (Err e, rest)
  | None => read_arrived wd c = Some (Ok reply, s)
  end.
Proof.
  intros L E. unfold read_arrived. rewrite E. destruct s as [u f]. unfold then_. cbn [unread final].
  destruct (w_deadline wd (clock c)) as [k|]; [|by rewrite (one_reply_local _ _ _ _ L)].
  destruct (Nat.ltb_spec k (length line)) as [Hk|Hk].
  - rewrite take_app_le by lia. destruct (cut_reply line reply k L Hk) as (e & rest & ->). by eexists _, _, _.
  - rewrite take_app_ge by lia. rewrite (one_reply_local _ _ _ _ L). cbn [unread].
    rewrite drop_app_ge, take_drop by lia. done.
Qed.

Lemma alike_set_stream r1 r2 t c1 c2 : alike any c1 c2 -> alike any (set_stream c1 r1 t) (set_stream c2 r2 t).
Proof. intros [E _]. split; [|done]. destruct c1, c2. injection E. intros. subst. done. Qed.

Lemma alike_rests t c1 c2 : alike any c1 c2 -> alike rests (set_stream c1 s1 t) (set_stream c2 s2 t).
Proof. intros [E _]. split; [|done]. destruct c1, c2. injection E. intros. subst. done. Qed.

Lemma raw_read_next c1 c2 :
  alike same_next c1 c2 -> runs (raw_read wd) (raw_read wd) (fun _ => alike rests) c1 c2.
Proof.
  intros L. pose proof (alike_any _ _ _ L) as L0. pose proof L as [_ (line & reply & One & E1 & E2)].
  unfold runs, raw_read. rewrite (alike_closed _ _ _ L). destruct (closed c2); [split; [done|by apply alike_tick]|].
  pose proof (read_arrived_next line reply s1 c1 One E1) as A1. pose proof (read_arrived_next line reply s2 c2 One E2) as A2.
  destruct (alike_fields _ _ _ L) as (S & Ec & _). rewrite Ec in A1. assert (tls c1 = tls c2) as Et by (by injection S).
  destruct (match w_deadline wd (clock c2) with Some k => _ | None => _ end) as [k|].
  - destruct A1 as (e1 & r1 & d1 & -> & R1), A2 as (e2 & r2 & d2 & -> & R2). rewrite R1 in R2. injection R2 as -> ->.
    rewrite Et. split; [done|]. by apply alike_tick, alike_set_stream.
  - rewrite A1, A2, Et. split; [done|]. by apply alike_record, alike_tick, alike_rests.
Qed.

Lemma alike_ext R c1 c2 : alike R c1 c2 -> ext c1 = ext c2.
Proof. intros (S & _)%alike_fields. by injection S. Qed.

Lemma alike_enhanced R c1 c2 : alike R c1 c2 -> enhancedStatusCodes c1 = enhancedStatusCodes c2.
Proof. intros L%alike_ext. unfold enhancedStatusCodes. by rewrite L. Qed.

Lemma runs_read command c1 c2 :
  alike same_next c1 c2 -> runs (read opts wd command) (read opts wd command) (fun _ => alike rests) c1 c2.
Proof.
  intros L. apply runs_bind. eapply runs_mono; [by apply runs_ctx_check|]. intros [] d1 d2 L1. apply runs_get.
  pose proof (raw_read_next d1 d2 L1) as Rd. unfold runs in Rd.
  assert (forall R e1 e2 (res : result cerr Reply.Reply), alike R e1 e2 ->
    runs (modify (fun _ => e1);; ctx_poison wd;; match res with
        | Err e => poisoned (transportError command e)
        | Ok reply => trace opts TraceReceived (traceReplyLine reply);;
            if Reply.Code reply =? 421 then c1 ← get; poisoned (replyError command reply (enhancedStatusCodes c1)) else mret reply
        end)
      (modify (fun _ => e2);; ctx_poison wd;; match res with
        | Err e => poisoned (transportError command e)
        | Ok reply => trace opts TraceReceived (traceReplyLine reply);;
            if Reply.Code reply =? 421 then c1 ← get; poisoned (replyError command reply (enhancedStatusCodes c1)) else mret reply
        end) (fun _ => alike R) d1 d2) as K.
  { intros R e1 e2 res L2. apply (runs_bind (modify (fun _ => e1)) (modify (fun _ => e2))). split; [done|].
    apply runs_bind. eapply runs_mono; [by apply runs_ctx_poison|]. intros [] f1 f2 L3.
    destruct res as [reply|e]; [|by apply (runs_poisoned R)]. apply runs_bind. eapply runs_mono; [by apply runs_trace|]. intros [] g1 g2 L4.
    destruct (_ =? _); [|by apply runs_ret]. apply runs_get. rewrite (alike_enhanced _ _ _ L4). by apply (runs_poisoned R). }
  destruct (raw_read wd d1) as [e1 [r1|e1']], (raw_read wd d2) as [e2 [r2|e2']]; try done; destruct Rd as [-> L2]; [exact (K rests e1 e2 (Ok r2) L2)|].
  pose proof (K any e1 e2 (Err e2') L2) as F. unfold runs in F |- *. clear K.
  unfold mbind, C_bind, modify, ctx_poison, ctx_Err, poisoned, mbind, C_bind in F |- *. cbn [tick] in F |- *.
  by destruct (w_ctx wd (clock e1)), (w_ctx wd (clock e2)).
Qed.

Lemma runs_expect R command reply want c1 c2 :
  alike R c1 c2 -> runs (expect command reply want) (expect command reply want) (fun _ => alike R) c1 c2.
Proof.
  intros L. apply runs_get. rewrite (alike_enhanced _ _ _ L). destruct (unexpectedReply _ _ _ _); [|done].
  by apply runs_fail, (alike_any R).
Qed.

(** A command that is not a completing one, and its reply. *)
Lemma runs_execute_one cmd c1 c2 :
  completes cmd = false -> alike same_next c1 c2 ->
  runs (execute_one opts wd cmd) (execute_one opts wd cmd) (fun _ => alike rests) c1 c2.
Proof.
  intros Hc L. pose proof (alike_any _ _ _ L) as L0. unfold execute_one, executeLocked. cbn [validate_group]. rewrite andb_false_r. cbn [lift].
  apply runs_bind, runs_bind, runs_ret, runs_get. rewrite (alike_closed _ _ _ L). destruct (closed c2); [by apply runs_fail|].
  cbn [rounds length]. apply runs_get. assert (depth c1 = depth c2) as -> by (unfold depth; by rewrite (alike_ext _ _ _ L)).
  destruct (depth c2) as [|n] eqn:Dp; [unfold depth, maxPipelineDepth in Dp; by case_match|]. cbn [issue].
  apply runs_bind. destruct (_ <? _); [by apply runs_fail|]. cbn [negb andb completes]. rewrite Hc. fold (upper cmd).
  apply runs_bind, runs_ret, runs_bind. unfold classified. apply runs_on_error.
  eapply runs_mono; [by apply (runs_write opts wd same_next)|]. intros [] d1 d2 L1.
  assert (forall q, runs (collect opts wd [q]) (collect opts wd [q]) (fun rs d1 d2 => (exists r, rs = [r]) /\ alike rests d1 d2) d1 d2) as K.
  { intros q. cbn [collect]. apply runs_bind. unfold classified. apply runs_on_error. eapply runs_mono; [by apply runs_read|].
    intros reply e1 e2 L2. apply runs_bind, runs_ret, runs_ret. split; [by eexists|done]. }
  assert (forall (r : list queuedCommand * list queuedCommand) q, r = ([q], []) ->
    runs (replies ← collect opts wd (fst r); rest ← rounds opts wd 0 (snd r); mret (replies ++ rest))
      (replies ← collect opts wd (fst r); rest ← rounds opts wd 0 (snd r); mret (replies ++ rest))
      (fun a => runs (match a with reply :: _ => mret reply | [] => fail Fuel end) (match a with reply :: _ => mret reply | [] => fail Fuel end)
        (fun _ : Reply.Reply => alike rests)) d1 d2) as Go.
  { intros r q ->. apply runs_bind. eapply runs_mono; [exact (K q)|]. intros rs e1 e2 [[r ->] L2]. apply runs_bind, runs_ret, runs_ret. by apply runs_ret. }
  destruct (syncPoint _); [apply runs_ret; exact (Go _ _ eq_refl)|]. destruct n; apply runs_bind, runs_ret, runs_ret; exact (Go _ _ eq_refl).
Qed.

End Rests.
End Next.

(** ** STARTTLS *)
Section StartTLS.
Context `{Unicode} `{NetIP} `{RFC3339} `{MapOrder} `{Crypto} (opts : ClientOptions) (wd : world).

Lemma alike_eq c1 c2 : alike eq c1 c2 -> c1 = c2.
Proof. intros [E Rd]. destruct c1, c2. cbn in Rd. subst. by injection E; intros; subst. Qed.

(** The handshake a run would make at its [n]th interaction, when [s] is what follows the reply: it
    reads what of [s] the reader has not taken off the transport. *)
Definition handshake_on (s : LineReader) (n : nat) : option LineReader :=
  w_handshake wd n {| unread := drop (w_buffered wd n s) (unread s); final := final s |}.

(** Equal connections, after a handshake that succeeded. *)
Definition upgraded (s : LineReader) (d1 d2 : connection) : Prop :=
  d1 = d2 /\ exists n stream, handshake_on s n = Some stream.

Lemma runs_upgrade s1 s2 c1 c2 :
  (forall n, handshake_on s1 n = handshake_on s2 n) -> alike (rests s1 s2) c1 c2 ->
  runs (fun c => match upgradeTLS wd c with (c', Err e) => (poison c', Err e) | r => r end)
    (fun c => match upgradeTLS wd c with (c', Err e) => (poison c', Err e) | r => r end) (fun _ => upgraded s1) c1 c2.
Proof.
  intros HS L. pose proof (alike_any _ _ _ L) as L0. destruct L as [E [R1 R2]].
  unfold runs, upgradeTLS, on_transport. rewrite R1, R2. fold (handshake_on s1 (clock c1)) (handshake_on s2 (clock c2)).
  destruct (alike_fields _ _ _ L0) as (_ & Ec & _). rewrite Ec, <- HS.
  destruct (handshake_on s1 (clock c2)) as [stream|] eqn:Hk.
  - assert (record (set_stream (tick c1) stream true) Handshake = record (set_stream (tick c2) stream true) Handshake) as ->.
    { clear R1 R2 L0 Hk. destruct c1, c2. injection E. intros. by subst. }
    pose proof (watch_spec wd (record (set_stream (tick c2) stream true) Handshake)) as P. unfold wp in P.
    destruct (watch wd _) as [d [a|e]]; [|by destruct P]. split; [done|]. split; [done|by eexists _, _].
  - destruct (w_ctx wd (clock c2)); (split; [done|]); by repeat apply alike_poison; apply alike_tick.
Qed.

Lemma runs_StartTLS line reply s1 s2 c :
  one_reply line reply -> (forall n, handshake_on s1 n = handshake_on s2 n) ->
  runs (StartTLS opts wd) (StartTLS opts wd) (fun _ => upgraded s1)
    (set_stream c (then_ line s1) (tls c)) (set_stream c (then_ line s2) (tls c)).
Proof.
  intros One HS. set (c1 := set_stream c (then_ line s1) (tls c)). set (c2 := set_stream c (then_ line s2) (tls c)).
  assert (alike (same_next s1 s2) c1 c2) as L by (split; [done|by exists line, reply]).
  unfold StartTLS. apply runs_bind. eapply runs_mono; [by apply (runs_ctx_check wd (same_next s1 s2))|]. intros [] e1 e2 L1. apply runs_get.
  destruct (alike_fields _ _ _ L1) as (S & _). rewrite (alike_ext _ _ _ L1). assert (state e1 = state e2) as -> by (by injection S).
  apply runs_bind. destruct (invalidState _ _ _); [by apply runs_fail, (alike_any (same_next s1 s2))|]. apply runs_ret.
  destruct (extensionParameter _ _); [|by apply runs_fail, (alike_any (same_next s1 s2))].
  apply runs_bind. eapply runs_mono; [by apply runs_execute_one|]. intros rep f1 f2 L2.
  apply runs_bind. eapply runs_mono; [by apply (runs_expect (rests s1 s2))|]. intros [] g1 g2 L3. apply runs_bind. split; [done|].
  apply runs_bind. eapply runs_mono; [apply (runs_upgrade s1 s2); [done|]|].
  - by apply (alike_map (rests s1 s2) (fun c => set_ext c []) (fun c => set_ext c [])).
  - intros [] h1 h2 [-> U]. eapply runs_mono; [apply runs_same|]. intros [] k1 k2 ->. by split.
Qed.

(** What a caller of STARTTLS gets: the result, and the connection; its stream too after success. *)
Definition same_outcome (r1 r2 : connection * result cerr unit) : Prop :=
  snd r1 = snd r2 /\ forget (fst r1) = forget (fst r2) /\ (snd r1 = Ok tt -> r1 = r2).

Lemma StartTLS_runs_same line reply s1 s2 c :
  one_reply line reply -> (forall n, handshake_on s1 n = handshake_on s2 n) ->
  let run s := StartTLS opts wd (set_stream c (then_ line s) (tls c)) in
  same_outcome (run s1) (run s2) /\ (snd (run s1) = Ok tt -> exists n stream, handshake_on s1 n = Some stream).
Proof.
  intros One HS run. pose proof (runs_StartTLS line reply s1 s2 c One HS) as K. unfold runs in K. unfold same_outcome, run.
  destruct (StartTLS opts wd (set_stream c (then_ line s1) (tls c))) as [d1 [[]|e1]],
    (StartTLS opts wd (set_stream c (then_ line s2) (tls c))) as [d2 [[]|e2]]; try done.
  - destruct K as (_ & -> & U). by split_and!.
  - destruct K as [-> [E _]]. by split_and!.
Qed.

(** C12: Command injection into the upgrade is void: of the cleartext stream [StartTLS] reads one reply, and
    what an attacker appended to it acts on the outcome in one way only, through the handshake that has
    to start on it. Let [s] be what follows the reply. The octets of [s] that the reader had already
    taken off the transport are dropped; the rest is what the handshake reads. So: two connections that
    differ in [s], whose handshakes come out the same, give the same result, the same connection but
    for its stream, and after success the same stream too; in particular, when the reader holds all of
    [s], everything is as if nothing had been appended; and if [StartTLS] succeeds, a handshake that
    read the part of [s] left on the transport succeeded (a real one fails on plain text). *)
Theorem StartTLS_ignores_cleartext line reply c :
  one_reply line reply ->
  let run s := StartTLS opts wd (set_stream c (then_ line s) (tls c)) in
  (forall s1 s2, (forall n, handshake_on s1 n = handshake_on s2 n) -> same_outcome (run s1) (run s2)) /\
  (forall s, (forall n, (length (unread s) <= w_buffered wd n s)%nat) ->
     same_outcome (run s) (run {| unread := []; final := final s |})) /\
  (forall s, snd (run s) = Ok tt -> exists n stream, handshake_on s n = Some stream).
Proof.
  intros One run. split_and!.
  - intros s1 s2 HS. by apply (StartTLS_runs_same line reply).
  - intros s HB. apply (StartTLS_runs_same line reply); [done|]. intros n. unfold handshake_on. cbn [unread final].
    by rewrite drop_nil, drop_ge.
  - intros s. by apply (StartTLS_runs_same line reply s s).
Qed.

End StartTLS.
(** ** AUTH in cleartext *)
Section Auth.
Context `{Unicode} `{NetIP} `{RFC3339} `{MapOrder} `{Crypto} (opts : ClientOptions) (wd : world).

(** The options agree but for the user name, the password and the token. *)
Record same_request (o1 o2 : AuthOptions) : Prop := {
  same_mechanisms : Mechanisms o1 = Mechanisms o2;
  same_identity : ao_AuthorizationID o1 = ao_AuthorizationID o2;
  same_insecure : AllowInsecureAuth o1 = AllowInsecureAuth o2;
  same_prep : SASLPrep o1 = SASLPrep o2
}.

Lemma auth_loop_external fuel cfg1 cfg2 reply :
  auth_loop opts wd fuel (smtpsasl.external cfg1) reply = auth_loop opts wd fuel (smtpsasl.external cfg2) reply.
Proof. by destruct fuel. Qed.

(** Without TLS the mechanism chosen is EXTERNAL, or there is none. *)
Lemma cleartext_mechanism o u p a c :
  tls c = false -> AllowInsecureAuth o = false ->
  match auth_mechanism wd o (u, p, a) c with
  | Ok (name, mech) => name = $"EXTERNAL" /\ exists cfg, mech = smtpsasl.external cfg /\ smtpsasl.AuthorizationID cfg = a
  | Err _ => True
  end.
Proof.
  intros Ht Hi. unfold auth_mechanism. rewrite Ht, Hi. destruct (authAdvertisement _); [|done]. destruct (selectMechanism _ _) as [name|]; [|done].
  unfold needsSecret. destruct (beq_spec name ($"EXTERNAL")) as [->|]; [|done]. cbn [negb andb].
  change (tlsExporter wd false ($"EXTERNAL")) with (Some (@nil byte)). cbn [smtpsasl.New].
  split; [done|]. by eexists.
Qed.

Lemma auth_mechanism_same o1 o2 u1 p1 u2 p2 a c :
  same_request o1 o2 -> tls c = false -> AllowInsecureAuth o1 = false ->
  match auth_mechanism wd o1 (u1, p1, a) c with
  | Ok (name, _) => exists mech, auth_mechanism wd o2 (u2, p2, a) c = Ok (name, mech)
  | Err e => auth_mechanism wd o2 (u2, p2, a) c = Err e
  end.
Proof.
  intros [Sm Sa Si Sp] Ht Hi. unfold auth_mechanism. rewrite <- Sm, <- Si, Ht, Hi.
  destruct (authAdvertisement _); [|done]. destruct (selectMechanism _ _) as [name|]; [|done].
  unfold needsSecret. destruct (beq_spec name ($"EXTERNAL")) as [->|]; [|done]. cbn [negb andb].
  change (tlsExporter wd false ($"EXTERNAL")) with (Some (@nil byte)). by eexists.
Qed.

Lemma bind_eq {A B} (m : C A) (k1 k2 : A -> C B) c :
  (forall a c', m c = (c', Ok a) -> k1 a c' = k2 a c') -> (m ≫= k1) c = (m ≫= k2) c.
Proof. intros K. unfold mbind, C_bind. destruct (m c) as [c' [a|e]] eqn:E; [by apply K|done]. Qed.

Lemma ret_bind {A B} (a : A) (k : A -> C B) c : (mret a ≫= k) c = k a c.
Proof. done. Qed.

Lemma get_bind {B} (k : connection -> C B) c : (get ≫= k) c = k c c.
Proof. done. Qed.

(** The preparations [SASLPrep] asks for succeed on the user name and the password. *)
Definition prepares (o : AuthOptions) : Prop :=
  SASLPrep o = true -> (exists u, Prepare (ao_Username o) = Ok u) /\ exists p, Prepare (ao_Password o) = Ok p.

(** What is left of the credentials once they were prepared: the authorization identity, or no
    credentials at all. *)
Definition prepared_identity (o : AuthOptions) : option bytes :=
  if SASLPrep o then match Prepare (ao_AuthorizationID o) with Ok a => Some a | Err _ => None end
  else Some (ao_AuthorizationID o).

Lemma prepared_config_ok o c :
  prepares o ->
  match prepared_identity o with
  | Some a => exists u p, prepared_config o c = (c, Ok (u, p, a))
  | None => prepared_config o c = (c, Err PrepErr)
  end.
Proof.
  unfold prepares, prepared_identity, prepared_config. destruct (SASLPrep o); [|by intros _; eexists _, _].
  intros [[u U] [p P]]; [done|]. unfold mbind, C_bind, prep. rewrite U, P. cbn.
  by destruct (Prepare (ao_AuthorizationID o)); [eexists _, _|].
Qed.

Lemma prepared_config_fails o c : ~ prepares o -> prepared_config o c = (c, Err PrepErr).
Proof.
  unfold prepares, prepared_config. destruct (SASLPrep o); [|intros N; by destruct N].
  intros N. unfold mbind, C_bind, prep. destruct (Prepare (ao_Username o)) as [u|] eqn:U; [|done]. cbn.
  destruct (Prepare (ao_Password o)) as [p|] eqn:P; [|done]. destruct N. eauto.
Qed.

Lemma Auth_same o1 o2 c :
  same_request o1 o2 -> tls c = false -> AllowInsecureAuth o1 = false -> prepares o1 -> prepares o2 ->
  Auth opts wd o1 c = Auth opts wd o2 c.
Proof.
  intros S Ht Hi P1 P2. pose proof S as [Sm Sa Si Sp]. unfold Auth. apply bind_eq. intros [] c1 E1.
  assert (tls c1 = false) as Ht1.
  { pose proof (ctx_check_spec wd c) as P. unfold wp in P. rewrite E1 in P. destruct P as [(S1 & _) _]. cbn in S1. injection S1. congruence. }
  pose proof (prepared_config_ok o1 c1 P1) as C1. pose proof (prepared_config_ok o2 c1 P2) as C2.
  assert (prepared_identity o2 = prepared_identity o1) as E by (unfold prepared_identity; by rewrite Sp, Sa).
  rewrite E in C2. destruct (prepared_identity o1) as [a|]; [|unfold mbind, C_bind; by rewrite C1, C2].
  destruct C1 as (u1 & p1 & C1), C2 as (u2 & p2 & C2).
  match goal with |- (_ ≫= ?k1) _ = (_ ≫= ?k2) _ => transitivity (k1 (u1, p1, a) c1); [unfold mbind, C_bind; by rewrite C1|];
    transitivity (k2 (u2, p2, a) c1); [|unfold mbind, C_bind; by rewrite C2] end.
  rewrite !get_bind. apply bind_eq. intros [] c2 E2.
  assert (c2 = c1) as -> by (destruct (invalidState _ _ _); by injection E2).
  pose proof (cleartext_mechanism o1 u1 p1 a c1 Ht1 Hi) as M1.
  pose proof (auth_mechanism_same o1 o2 u1 p1 u2 p2 a c1 S Ht1 Hi) as M.
  rewrite Si in Hi. pose proof (cleartext_mechanism o2 u2 p2 a c1 Ht1 Hi) as M2.
  match goal with |- ((?m ≫= ?k1) ?c = (?n ≫= ?k2) ?c) => set (f1 := k1); set (f2 := k2); unfold mbind, C_bind; subst f1 f2 end.
  destruct (auth_mechanism wd o1 _ c1) as [[name1 mech1]|e]; [|by rewrite M].
  destruct M as [mech2 M]. rewrite M in M2 |- *. destruct M1 as (-> & cfg1 & -> & A1), M2 as (_ & cfg2 & -> & A2).
  cbn [smtpsasl.Start]. rewrite A1, A2. apply bind_eq. intros reply c3 _. by rewrite (auth_loop_external 3 cfg1 cfg2).
Qed.

(** C24: On a cleartext connection, unless the caller allowed it, [Auth] is independent of the user name,
    the password and the token: the bytes written, the replies read, the traces, the session and the
    error are the same whatever they are, as long as the preparation of user names and passwords that
    [SASLPrep] asks for (none, when it is off) succeeds on them. When it fails on one, [Auth] writes
    nothing and reads nothing: only its error tells. *)
Theorem Auth_cleartext_independent o1 o2 c :
  same_request o1 o2 -> tls c = false -> AllowInsecureAuth o1 = false ->
  (prepares o1 -> prepares o2 -> Auth opts wd o1 c = Auth opts wd o2 c) /\
  (~ prepares o1 -> exists e, Auth opts wd o1 c = (tick c, Err e)).
Proof.
  intros S Ht Hi. split; [intros P1 P2; by apply (Auth_same o1 o2)|].
  intros N. unfold Auth, mbind, C_bind, ctx_check, ctx_Err, mbind, C_bind.
  destruct (w_ctx wd (clock c)); cbn; [by eexists|]. rewrite prepared_config_fails by done. by eexists.
Qed.

End Auth.
End ClientSecurity.
