(* ===== verification/ClientRuns.v ===== *)
(** * smtpclient: runs against scripted servers

    The theorems of the client files applied to concrete sessions, and runs that show where the client
    departs from its documents. *)
From Stdlib Require Import ZArith Lia Bool.
From stdpp Require Import base list gmap strings.
From S2P Require Import Prelude GoStrings Utf8 Base64 Sasl Wire DotStuff Reply Command Path Ehlo Core.
From S2P Require Import NormTables Unicodenorm NormTheorems SaslprepTables Saslprep.
From S2P Require Import ServerParams ClientParams ClientCore Client ClientFacts ClientData ClientFinal.
From S2P Require Import ClientTheorems ClientInvariant ClientSecurity.
Import smtpclient ClientFacts ClientFinal ClientInvariant ClientSecurity.

Module ClientRuns.

#[local] Existing Instances ascii_only_unicode no_literals ParamFacts.no_times SaslFacts.toy_crypto.
#[local] Instance table_order : MapOrder := fun e => e.

(** A network that never fails, a context that is never cancelled, a peer whose lines have all arrived
    in the reader's buffer, or none of them ahead; a handshake fails on plain text, and inside TLS the
    peer says [secret]. *)
Definition network (ahead : bool) (secret : list bytes) : world :=
  {| w_ctx := fun _ => None; w_write := fun _ => None; w_deadline := fun _ => None;
     w_buffered := fun _ s => if ahead then length (unread s) else O; w_cuts := fun _ => [];
     w_handshake := fun _ below =>
       if beq (unread below) [] then Some {| unread := concat (map (fun l => l ++ CRLF) secret); final := EOF |} else None;
     w_exporter := None; w_hostname := None; w_random := None |}.
Definition calm : list bytes -> world := network true.

(** The same with a context cancelled from its [n]th look to its [m]th. *)
Definition cancelled (n m : nat) : world :=
  {| w_ctx := fun k => if (n <=? k)%nat && (k <? m)%nat then Some Canceled else None; w_write := fun _ => None;
     w_deadline := fun _ => None; w_buffered := fun _ _ => O; w_cuts := fun _ => [];
     w_handshake := fun _ _ => None; w_exporter := None; w_hostname := None; w_random := None |}.

Definition options : ClientOptions := {| LMTP := false; ImplicitTLS := false; Identity := $"me"; Trace := true |}.

Definition lines (l : list bytes) : LineReader := {| unread := concat (map (fun l => l ++ CRLF) l); final := EOF |}.

Definition greeting : list bytes := [$"220 mx"; $"250-mx"; $"250-PIPELINING"; $"250-CHUNKING"; $"250-BINARYMIME";
  $"250-8BITMIME"; $"250-STARTTLS"; $"250-BURL"; $"250 AUTH PLAIN EXTERNAL"].

Definition session_of (wd : world) (replies : list bytes) (calls : list call) : connection :=
  life options wd (lines (greeting ++ replies)) false calls.

(** What went out. *)
Definition said (c : connection) : list bytes := sent (wire c).

Definition mail_and_rcpt : list call := [CallMail ($"a@b") None false; CallRcpt ($"c@d") None false].

Lemma whole_session :
  let c := session_of (calm []) [$"250 ok"; $"250 ok"; $"354 go"; $"250 queued"; $"221 bye"]
    (mail_and_rcpt ++ [CallData {| pieces := [$".hi"]; src_err := None |} None; CallQuit]) in
  said c = map (fun l => l ++ CRLF) [$"EHLO me"; $"MAIL FROM:<a@b>"; $"RCPT TO:<c@d>"; $"DATA"] ++
    [$".."; $"hi"; CRLF; $"." ++ CRLF; $"QUIT" ++ CRLF] /\ state c = stateClosed.
Proof. vm_compute. split; reflexivity. Qed.

(** ** The theorems at concrete sessions *)

Definition protected : list bytes := [$"250-mx"; $"250 AUTH SCRAM-SHA-256"].

Definition upgrading : connection := session_of (calm protected) [] [].
Definition go_line : bytes := $"220 go" ++ CRLF.
Definition go : Reply.Reply := {| Reply.Code := 220; Reply.Lines := [$"go"]; Reply.Text := $"go" |}.
Definition injected : bytes := $"250 AUTH PLAIN" ++ CRLF.

Definition after_go (appended : bytes) : connection :=
  set_stream upgrading (then_ go_line {| unread := appended; final := EOF |}) (tls upgrading).

Lemma StartTLS_ignores_cleartext_witness :
  one_reply go_line go /\
  same_outcome (StartTLS options (calm protected) (after_go injected)) (StartTLS options (calm protected) (after_go [])) /\
  same_outcome (StartTLS options (network false protected) (after_go injected))
    (StartTLS options (network false protected) (after_go (injected ++ injected))).
Proof.
  assert (one_reply go_line go) as One by (vm_compute; reflexivity). split; [exact One|]. split.
  - destruct (StartTLS_ignores_cleartext options (calm protected) go_line go upgrading One) as (_ & B & _).
    apply (B {| unread := injected; final := EOF |}). intros n. cbn. lia.
  - destruct (StartTLS_ignores_cleartext options (network false protected) go_line go upgrading One) as (F & _).
    apply (F {| unread := injected; final := EOF |} {| unread := injected ++ injected; final := EOF |}).
    intros n. reflexivity.
Defined.

(** What the reader held is dropped; what it had not read yet breaks the handshake. *)
Lemma StartTLS_injected :
  snd (StartTLS options (calm protected) (after_go injected)) = Ok tt /\
  snd (StartTLS options (network false protected) (after_go injected)) = Err (transportError ($"TLS") TLSErr) /\
  state (fst (StartTLS options (network false protected) (after_go injected))) = stateClosed.
Proof. vm_compute. split_and!; reflexivity. Qed.

(** The upgrade succeeds, and the extensions are those inside TLS. *)
Lemma StartTLS_upgrades :
  let wd := calm protected in
  let c := session_of wd [$"220 go"; $"250 AUTH PLAIN"] [CallStartTLS] in
  state c = stateTLS /\ tls c = true /\ authAdvertisement (ext c) = Some ($"SCRAM-SHA-256").
Proof. vm_compute. split_and!; reflexivity. Qed.

Definition credentials (user password : bytes) : AuthOptions :=
  {| ao_Username := user; ao_Password := password; ao_AuthorizationID := $"me"; ao_Token := []; Mechanisms := [];
     AllowInsecureAuth := false; SASLPrep := false |}.

Lemma Auth_cleartext_independent_witness :
  let wd := calm [] in
  let c := session_of wd [$"235 ok"] [] in
  tls c = false /\
  Auth options wd (credentials ($"alice") ($"secret")) c = Auth options wd (credentials ($"bob") ($"hidden")) c.
Proof.
  split; [vm_compute; reflexivity|].
  refine (proj1 (Auth_cleartext_independent options (calm []) (credentials ($"alice") ($"secret"))
    (credentials ($"bob") ($"hidden")) (session_of (calm []) [$"235 ok"] []) _ _ eq_refl) _ _);
    [by split|vm_compute; reflexivity|by intros ?..].
Defined.

(** EXTERNAL goes out, with the authorization identity only. *)
Lemma Auth_external :
  let wd := calm [] in
  let c := session_of wd [$"235 ok"] [CallAuth (credentials ($"alice") ($"secret"))] in
  drop 1 (said c) = [$"AUTH EXTERNAL bWU=" ++ CRLF; $"EHLO me" ++ CRLF].
Proof. vm_compute. reflexivity. Qed.

(** ** Where the code departs from its documents *)

Definition result_of_call {A} (m : C A) (c : connection) : result cerr A := snd (m c).

(** A context that ends between the write of a command and the read of its reply leaves the connection
    open, with the reply on its way: the next command takes it for its own. VRFY reports the address that
    the server does not know as verified. *)
Lemma cancelled_command_desynchronizes :
  let wd := cancelled 14 15 in
  let c0 := session_of wd [$"250 done"; $"550 no such user"] [] in
  let c1 := fst (Noop options wd c0) in
  result_of_call (Noop options wd) c0 = Err (Ctx Canceled) /\
  said c1 = said c0 ++ [$"NOOP" ++ CRLF] /\ closed c1 = false /\
  result_of_call (Verify options wd ($"nobody")) c1 = Ok ($"done").
Proof. vm_compute. split_and!; reflexivity. Qed.

Definition long_address : bytes := repeat "x"%byte (Z.to_nat maxPipelineBytes).
Definition to (a : bytes) : Recipient := {| rc_Address := a; rc_Options := None; rc_Allow := false |}.

(** When a later command of a group is found too long, the earlier ones are on the wire and the client
    forgets that their replies are due. Here it takes the reply to the first recipient for that to the
    next command's, whom the server refuses: the transaction is left with the recipient the server
    refused, and without the one it accepted. *)
Lemma too_long_recipient_desynchronizes :
  let wd := calm [] in
  let c0 := session_of wd [$"250 ok"; $"250 c@d is fine"; $"550 e@f is not"] [CallMail ($"a@b") None false] in
  let batch := RcptBatch options wd [to ($"c@d"); to long_address] in
  let c1 := fst (batch c0) in
  result_of_call batch c0 = Err (Local (ETooLong ($"RCPT"))) /\
  said c1 = said c0 ++ [$"RCPT TO:<c@d>" ++ CRLF] /\ closed c1 = false /\ recipients c1 = [] /\
  recipients (fst (Rcpt options wd ($"e@f") None false c1)) = [$"e@f"].
Proof. vm_compute. split_and!; reflexivity. Qed.

Definition binary_mail : MailOptions :=
  set_transport zero_mail {| opt_Size := None; opt_Body := $"BINARYMIME"; opt_SMTPUTF8 := false |}.

(** A MAIL that is refused locally, inside a transaction, forgets that its body is binary. *)
Lemma refused_mail_forgets_binary :
  let wd := calm [] in
  let c0 := session_of wd [$"250 ok"; $"250 ok"; $"354 go"; $"250 queued"]
    [CallMail ($"a@b") (Some binary_mail) false; CallRcpt ($"c@d") None false] in
  let content := {| pieces := [$"x"]; src_err := None |} in
  let c1 := fst (Mail options wd ($"e@f") None false c0) in
  snd (Data options wd content None c0) = Ok ([], Some (Local EBinary)) /\
  result_of_call (Mail options wd ($"e@f") None false) c0 = Err (Local (EState ($"MAIL"))) /\ wire c1 = wire c0 /\
  drop 2 (said c0) = [$"RCPT TO:<c@d>" ++ CRLF] /\
  drop 3 (said (fst (Data options wd content None c1))) = [$"DATA" ++ CRLF; $"x"; CRLF; $"." ++ CRLF].
Proof. vm_compute. split_and!; reflexivity. Qed.

(** A reader whose input is cut short reports io.ErrUnexpectedEOF: without chunking that fails the
    call and nothing ends the message; with it the part read so far is sent as the LAST chunk, and the
    call reports success. *)
Definition truncated_source (err : source_err) : source := {| pieces := [$"half of"]; src_err := Some err |}.

Lemma truncated_content_is_complete :
  let wd := calm [] in
  let opened := session_of wd [$"250 ok"; $"250 ok"; $"250 queued"] mail_and_rcpt in
  let chunked := Some {| UseChunking := true; ChunkSize := 0 |} in
  let sent_by m := drop 3 (said (fst m)) in
  sent_by (Data options wd (truncated_source SourceUnexpectedEOF) chunked opened) = [$"BDAT 7 LAST" ++ CRLF; $"half of"] /\
  result_of_call (Data options wd (truncated_source SourceUnexpectedEOF) chunked) opened =
    Ok ([recipientResult ($"c@d") ($"BDAT") {| Reply.Code := 250; Reply.Lines := [$"queued"]; Reply.Text := $"queued" |} false], None) /\
  sent_by (Data options wd (truncated_source SourceOther) chunked opened) = [] /\
  result_of_call (Data options wd (truncated_source SourceOther) chunked) opened = Ok ([], Some Source).
Proof. vm_compute. split_and!; reflexivity. Qed.

(** An argument that cannot be encoded is found before BURL LAST is written, and reported as an outcome
    that is not known. *)
Lemma unencodable_burl_is_unknown :
  let wd := calm [] in
  let c0 := session_of wd [$"250 ok"; $"250 ok"] mail_and_rcpt in
  let '(c1, r) := BURL options wd ($"imap://h/" ++ [x01]) true c0 in
  said c1 = said c0 /\ exists e, r = Ok ([], Some e) /\ is_unknown e = true.
Proof. vm_compute. split; [reflexivity|]. eexists. split; reflexivity. Qed.

End ClientRuns.
